(* ===== verification/_CoqProject ===== *)
-Q . S2P
Prelude.v
RustStr.v
Json.v
Float.v
Rounding.v
F64.v
Histogram.v
Chaos.v
Samples.v
Aggregate.v
Summary.v
LoadProfile.v
Config.v
Artifact.v
Ramp.v
LocalRun.v
StompCodec.v
StompEngine.v
StompSession.v
StompWire.v
Sse.v
DbEngine.v
GrpcEngine.v
ProtoSchema.v
GrpcH2.v
Http3.v
WebSocket.v
GraphqlWs.v
Proto.v
Registry.v
Barrier.v
WorkerState.v
Backoff.v
WorkerConfig.v
Executor.v
HttpEngines.v
Connect.v
VirtualUsers.v
EngineSetup.v
Telemetry.v
Report.v
Pipeline.v
Rates.v
Master.v
Worker.v
Daemon.v
WorkerSession.v
System.v
Orchestrator.v
Cluster.v
Console.v
Dashboard.v
Serde.v
ReportJson.v
PyJson.v
Conformance.v
TestSupport.v
TestsMetrics.v
TestsReport.v
TestsConfig.v
TestsCluster.v
TestsIntegration.v
TestsStomp.v
TestsSse.v
TestsProtocols.v
TestsGrpcH2.v
TestsRun.v
TestsWebSocket.v
