(* ===== verification/Prelude.v ===== *)
(** Verification of strobengine, a load-testing engine written in Rust.

    * The program

    strobengine sends requests to a target with many concurrent workers and
    reports what happened.  It runs in one process (a Python extension,
    [src/lib.rs]) or as a cluster: a master ([src/distributed/master]) and
    worker daemons ([src/distributed]) that talk gRPC.

    - In one process, a supervisor spawns and cancels workers as a load profile
      asks; each worker drives a protocol engine ([src/protocols]) in a loop and
      sends one [RequestMetric] per iteration to a channel; the aggregator
      ([src/metrics/aggregate.rs]) folds that channel into totals, histograms,
      one block per protocol and a timeline.
    - In a cluster, workers register with the master's registry and heartbeat;
      [start_run] waits on a barrier until enough of them are ready, installs a
      telemetry pipeline, broadcasts START and waits until the telemetry streams
      close.  On START a worker builds an execution plan, runs virtual users,
      collects their outcomes in windows and streams one [MetricBatch] per window
      to the master, whose pipeline merges them into a live dashboard and the
      final report.

    * The files (Rust paths are relative to src/)

    Shared foundations:
    - [Prelude]: results, machine integers, hash-map iteration order as an
      interface ([MapOrder]), counters in maps, folds.
    - [RustStr]: strings and bytes of [core::str]: ordering, trimming with Unicode
      white space, searching, lines, UTF-8 validation and lossy decoding, numbers.
    - [Json]: JSON values, with parsing and printing as an interface.
    - [Float]: IEEE doubles and floats through [SpecFloat], [Duration]; [Rounding]:
      what rounding to the nearest does to an exact value; [F64]: the bounds of the
      operations on doubles that follow.
    - [Histogram]: the HDR histogram as an interface ([Histogram] with
      [HistogramLaws]) with an instance, and the latency buckets of
      [metrics/summary.rs].

    Measuring:
    - [Chaos] is [chaos.rs]; [Samples] is [metrics/protocols.rs],
      [metrics/request.rs], [metrics/timeline.rs], [metrics/helpers.rs];
      [Aggregate] is [metrics/aggregate.rs]; [Summary] is [metrics/summary.rs] and
      the resource sampler of [metrics/system.rs].

    One process:
    - [LoadProfile] is the load profiles of [config.rs] and the supervisor loop of
      [execute_test] in [lib.rs], [Ramp] the theory of its ramps; [Config] is the rest of [config.rs] (the
      configuration, its builder and its validation); [Artifact] is
      [report/schema.rs] with the SLO checks; [LocalRun] is the workers of
      [lib.rs], their shared counters and channel, and [execute_test];
      [EngineSetup] is [protocols/mod.rs] and the entry points of [lib.rs].
    - [Serde] is what deriving [Serialize] and [Deserialize] means, [ReportJson] the
      JSON of the summary, the artifact and the distributed report
      ([report/schema.rs], [metrics], [distributed/master/reporting.rs]), [PyJson]
      the methods of [metrics/summary.rs] and [lib.rs] that hand it to Python.

    Engines ([protocols]):
    - [StompCodec] is [stomp_codec.rs]; [StompEngine], [StompSession] and
      [StompWire] are [stomp.rs] (the code, the theory of its sessions, and what a
      broker decodes from the bytes of a connection); [Sse] is [sse.rs];
      [DbEngine] is [db.rs]; [GrpcEngine] is [grpc.rs], and [ProtoSchema] is
      [grpc_parser.rs] with the pass-through codec of [grpc.rs]; [GrpcH2] is [grpc_h2.rs]; [Http3] is [http3.rs]; [WebSocket] is
      [websocket.rs]; [GraphqlWs] is [graphql_ws.rs]; [HttpEngines] is [http.rs],
      [graphql.rs] and [soap.rs]; [Connect] is how these engines open their
      connections.

    Cluster, master side:
    - [Proto]: the messages of [proto/loadtesting/v1].
    - [Registry] is [distributed/master/registry.rs], [Barrier] is [barrier.rs],
      [Report] is [reporting.rs] and the snapshot of [dashboard.rs], [Pipeline] is
      [pipeline.rs], [Rates] the theory of the rates, percentiles and delays that
      [Pipeline], [Summary] and [Backoff] compute, [Master] is [run.rs], [server.rs] and [config.rs], [Dashboard]
      is the broadcaster of [dashboard.rs], over the broadcast channel as an
      interface, and the sweep loop of [registry.rs].

    Cluster, worker side:
    - [WorkerState] is [distributed/state.rs], [Backoff] is [backoff.rs],
      [WorkerConfig] is [config.rs], [Executor] is the plans of [executor.rs] and
      [VirtualUsers] its virtual users with their engine, [Telemetry] is
      [telemetry.rs], [Daemon] the poisonable locks, the wall clock and the
      listening socket that the daemons take from their host.
    - [worker.rs] is modelled three times, from coarse to fine: in [Worker] a
      command is one step; in [WorkerSession] the tasks of a session interleave at
      every lock and await ([command_uninterrupted] relates the two); in
      [Orchestrator] one run executes with its virtual users, channels, batches and
      upload.

    Whole programs:
    - [System] composes the collectors of many workers with the pipeline of the
      master; [Cluster] the runs of [Orchestrator], their streams and [start_run]
      of [Master].  [Console] is [progress.rs], [logging.rs] and the two programs
      of [bin].

    Tests:
    - [Conformance] holds the assertions; [TestsMetrics], [TestsReport],
      [TestsConfig], [TestsCluster], [TestsStomp], [TestsSse], [TestsProtocols],
      [TestsGrpcH2], [TestsRun] and [TestsWebSocket] restate the unit tests of the
      repository, under their names, and prove that they pass on the model.
      [TestsIntegration] does so for [distributed/integration.rs] and
      [distributed/master/integration.rs], with the HTTP target of [TestSupport]
      ([distributed/test_support.rs]).

    * How code is modelled

    Methods with [&mut self] are functions from the state to the new state (and a
    result); [Result] is the [result] monad; panics, endless loops and unfinished
    waits are explicit values ([None], [Panic], [IngestPanic], [inr]).  Integers
    are [Z] with the wrap-around of release builds written out ([+!] wraps at 64
    bits, [wrap32] at 32); floating-point code is executed in [SpecFloat], bit for
    bit, and bounded through the exact rational values of its results.  Clock readings, random draws, the outcome of network calls and the
    interleaving of concurrent handlers are arguments: a theorem that quantifies
    over them holds for every clock, every draw and every interleaving.  The
    concurrent parts are sequences of atomic steps, one per lock-protected
    handler ([Master.master_step], [Worker.daemon_step]); the orchestrator of a
    run, whose channels can block, is an inductive step relation
    ([Worker.orch_step]).  The workers that share one HTTP/2 connection each run
    [GrpcH2.h2_program], the tree of the accesses, awaits and returns of
    [execute_iteration], and [GrpcH2.h2_step] interleaves these accesses.
    [WorkerSession.session_exec], [Orchestrator.run_exec] and
    [Cluster.cluster_exec] execute one event of a schedule, and are [None] when it
    cannot happen; their theorems hold for every schedule.  In [Cluster] a schedule
    also holds requests from elsewhere: other workers, other runs, stale streams.
    Their states carry
    history fields that the code does not have and no step reads.  In one process each worker is a list of atomic effects on
    the shared cells and a run is any interleaving of these lists
    ([LocalRun.run_of]).  Relaxed atomics have no order across cells: a load sees a
    prefix of the modification order of its own cell ([LocalRun.coherent],
    [LocalRun.load]), or any value of the gauge not older than one its thread has
    seen ([GrpcH2.h2_access]).

    An engine is an instance of the class [LocalRun.ProtocolEngine] (the trait
    [ProtocolEngine]), against which the run theorems are proved.  The network an
    engine sees is an input: what each connect, read, write or flush answers, in
    order.  A call that the worker's deadline drops has its own outcome
    ([NotFinished], [StompEngine.Pending], a [None] of [GraphqlWs.gw_iteration]):
    the state keeps whatever the call had done before, a half-written frame
    included.

    Code outside the repository is an interface: the HDR histogram
    ([Histogram.Histogram], with an instance that satisfies its laws), JSON
    ([Json.Json], [PyJson.JsonText]), the HTTP types ([Executor.HttpTypes]), URI
    parsing ([Http3.Http3Env], [HttpEngines]), descriptors of .proto files
    ([ProtoSchema.Reflection]), the broadcast channel of tokio
    ([Dashboard.Broadcast]), socket-address parsing ([Master], an
    argument of the validation).

    * What the theorems show

    - Conservation: the report of a cluster run is that of the batches received,
      and a request outcome recorded by any of its workers is counted exactly once,
      through channels, windows, batches, streams, interleaving and merging, unless
      telemetry from elsewhere intrudes, whose effect is bounded ([Cluster], on top of
      [Orchestrator], [System] and the refinements of [Telemetry] and
      [Pipeline]); the single-process aggregation loses and
      invents nothing and routes each sample to its own protocol block
      ([Aggregate]); a run in one process reports every iteration exactly once
      under every interleaving, and each of its live counters grows to exactly that
      number, whatever relaxed loads see meanwhile ([LocalRun]).
    - Run control: a run reports exactly its own batches, is exclusive, frees its
      slot on every path and ends by its deadline ([Master]); the barrier
      allocates the right workers, at the right moment, independently of hash-map
      order ([Barrier]); every field of a registry record is the one that the
      history of its worker determines, and the sweep evicts exactly the stale
      workers ([Registry]).
    - Reports: closed form of the pipeline state, totals, listings, live windows,
      independence of arrival order ([Pipeline]).
    - Workers: invariants of the daemon and of a session under every
      interleaving, atomicity of commands, a run that can always end while it
      collects and the two ways in which it hangs, plans from wire configurations,
      what each virtual user requests, windows, the reconnect schedule to the
      nanosecond ([Worker], [WorkerSession], [Orchestrator], [Executor],
      [VirtualUsers], [Telemetry], [Backoff]).
    - What is shown and stored: silent workers are swept ([Dashboard]); the progress bar, the plan of a command-line run,
      outputs and exits ([Console]); the members of the JSON artifact and its
      round trips ([ReportJson]), and when handing it to Python fails ([PyJson]).
    - Parsers: STOMP frames survive encoding and any chunking, event-stream events
      any chunking that cuts no character; the decoder is safe on any input, with one characterised panic
      ([StompCodec], [Sse]).
    - Load: the supervisor keeps exactly the workers the profile asks for and
      joins every worker exactly once ([LoadProfile]).
    - Configuration and verdicts: validation accepts exactly the well-formed
      configurations, the Python defaults and the builder agree ([Config]); the
      engine is the one of the URL's scheme and set-up fails only for listed
      reasons ([EngineSetup]); the SLO verdict and the artifact's totals
      ([Artifact]); averages and sampling ([Summary]).
    - Floating point: a ramp climbs its line in steps of whole seconds, is there
      less than one worker away from it, never turns back and stays between start and target, so the supervisor never exceeds the
      profile's limit ([Ramp]); reported rates are percentages and reported
      percentiles are ordered; the jittered reconnect delay never exceeds its
      schedule ([Rates]).
    - Host: after a panic the daemon goes on with what the holder of a lock left in
      it, and takes the poison off ([Daemon]); the headers of a handshake,
      the endpoint that is created once, and the outcomes of opening a connection
      ([Connect]).
    - Sessions: invariants of STOMP, GraphQL-subscription and WebSocket sessions
      over every behaviour of the peer, what a success means on the wire, receipts
      among stale ones, reset exactly on errors, what an iteration dropped at an
      await does to the next one ([StompSession], [StompWire], [GraphqlWs],
      [WebSocket]).
    - Engines: flow-controlled sending is exact and completes, the stream gauge is
      exact under interleaving ([GrpcH2]); loss accounting, authorities and
      migration cadence ([Http3]); write-buffer gauge and publish/subscribe
      latency ([WebSocket]); the URL cache is transparent ([HttpEngines]); the row
      cap ([DbEngine]); gRPC status mapping ([GrpcEngine]).
    - Several theorems state behaviour that departs from the documentation; their
      doc comments say so.

    * Bounds and fuel

    Parser loops take the length of their buffer as fuel; each round consumes at
    least one byte, and the fuel-free equations are proved ([Sse.frames_eq],
    [StompCodec.next_frame_eq], [HttpEngines.skip_comments_eq]).  The receive
    loops of a STOMP session take the number of unread bytes, and any larger fuel
    gives the same run ([StompEngine.read_until_fuel_enough]).  Scaling loops take the distance to their
    target.  Waiting loops (barrier, completion, supervisor, reconnection) run
    over the list of the observations they make, and the termination theorems say
    which observations end them.  Hypotheses that a count is below 2^64 or a time
    stamp below 2^62 ms bound physical quantities; where the code wraps, the
    theorem says "modulo".

    * Not modelled, and why

    The libraries behind the calls: sockets, TLS, QUIC, HTTP/2 framing, the gRPC
    transport, connection pooling of the HTTP client, database drivers, the tokio
    scheduler and signal delivery.  They are third-party code; what they answer is
    an input of the model, and the code that calls them is modelled up to the call.
    The readings of sysinfo, of /proc and of the clock are arguments.  Copies,
    getters and the module table of the Python classes, the tracing subscriber,
    benches and the build script have no behaviour of their own.  Unit tests whose
    subject is real time, a TLS handshake, the broadcast channel or the concurrency
    of the runtime are not restated: their subject is outside the model.

    * Possible extensions

    Interleavings of the workers that share a database pool; instances of
    [LocalRun.ProtocolEngine] carried through a run to the protocol block of the
    report. *)

From Stdlib Require Export ZArith Lia.
From stdpp Require Export base gmap sets list strings sorting fin_maps.

Open Scope Z_scope.

Declare Scope rust_scope.
Delimit Scope rust_scope with rust.

(** ** Results: Rust's [Result<T, E>] as an error monad *)

Inductive result (E T : Type) : Type :=
  | Ok (t : T)
  | Err (e : E).
Arguments Ok {E T} t.
Arguments Err {E T} e.

#[export] Instance result_ret {E} : MRet (result E) := fun _ t => Ok t.
#[export] Instance result_bind {E} : MBind (result E) :=
  fun _ _ k r => match r with Ok t => k t | Err e => Err e end.
#[export] Instance result_fmap {E} : FMap (result E) :=
  fun _ _ f r => match r with Ok t => Ok (f t) | Err e => Err e end.

(** [Option::ok_or]. *)
Definition ok_or {E T} (e : E) (o : option T) : result E T :=
  match o with Some t => Ok t | None => Err e end.

(** [Result::map_err]. *)
Definition map_err {E F T} (f : E -> F) (r : result E T) : result F T :=
  match r with Ok t => Ok t | Err e => Err (f e) end.

(** [Option::is_some]. *)
Definition is_some {A} (o : option A) : bool := match o with Some _ => true | None => false end.

Definition is_ok {E T} (r : result E T) : bool :=
  match r with Ok _ => true | Err _ => false end.

(** ** Machine integers

    An unsigned [w]-bit integer is a [Z]; [+] wraps around, which is what the
    release profile compiles [+=] on the counters to. *)

Definition U64_MAX : Z := 2 ^ 64 - 1.
Definition U32_MAX : Z := 2 ^ 32 - 1.
Definition wrap64 (z : Z) : Z := z mod 2 ^ 64.
Definition wrap32 (z : Z) : Z := z mod 2 ^ 32.
Definition u64_add (a b : Z) : Z := wrap64 (a + b).
Definition u32_add (a b : Z) : Z := wrap32 (a + b).
Definition usize_add (a b : Z) : Z := wrap64 (a + b).

(** [saturating_sub], [saturating_mul], [saturating_add] on unsigned words. *)
Definition u_saturating_sub (a b : Z) : Z := Z.max 0 (a - b).
Definition u32_saturating_mul (a b : Z) : Z := Z.min U32_MAX (a * b).
Definition u32_saturating_add (a b : Z) : Z := Z.min U32_MAX (a + b).

(** Signed 64-bit wrap-around. *)
Definition wrap_i64 (z : Z) : Z := (z + 2 ^ 63) mod 2 ^ 64 - 2 ^ 63.

(** [u64::try_from(x).unwrap_or(u64::MAX)] on a [u128]. *)
Definition u64_try_from_or_max (x : Z) : Z := if x <=? U64_MAX then x else U64_MAX.

Notation "a +! b" := (u64_add a b) (at level 50, left associativity) : rust_scope.
Open Scope rust_scope.

Definition in_u64 (z : Z) : Prop := 0 <= z <= U64_MAX.

Lemma wrap64_range z : in_u64 (wrap64 z).
Proof. unfold in_u64, wrap64, U64_MAX. pose proof (Z.mod_pos_bound z (2 ^ 64)). lia. Qed.

Lemma wrap64_small z : in_u64 z -> wrap64 z = z.
Proof. unfold in_u64, wrap64, U64_MAX. intros. apply Z.mod_small. lia. Qed.

Lemma wrap64_idem z : wrap64 (wrap64 z) = wrap64 z.
Proof. apply wrap64_small, wrap64_range. Qed.

Lemma wrap64_add_l a b : wrap64 (wrap64 a + b) = wrap64 (a + b).
Proof. unfold wrap64. by rewrite Zplus_mod_idemp_l. Qed.

Lemma wrap64_add_r a b : wrap64 (a + wrap64 b) = wrap64 (a + b).
Proof. unfold wrap64. by rewrite Zplus_mod_idemp_r. Qed.

Create Rewrite HintDb wrap.
#[export] Hint Rewrite wrap64_add_l wrap64_add_r wrap64_idem : wrap.

(** Normalises nested wrap-arounds on both sides of an equation of [u64]
    sums, then compares the arguments of the outer [wrap64]. *)
Ltac wrap_solve :=
  unfold u64_add, usize_add in *; autorewrite with wrap in *;
  try (f_equal; lia).

Lemma u64_add_comm a b : a +! b = b +! a.
Proof. wrap_solve. Qed.

Lemma u64_add_assoc a b c : a +! (b +! c) = a +! b +! c.
Proof. wrap_solve. Qed.

Lemma u64_add_swap a b c : a +! (b +! c) = b +! (a +! c).
Proof. wrap_solve. Qed.

Lemma u64_add_small a b : in_u64 (a + b) -> a +! b = a + b.
Proof. apply wrap64_small. Qed.

Lemma u64_add_range a b : in_u64 (a +! b).
Proof. apply wrap64_range. Qed.

(** [iter().sum::<u64>()]. *)
Definition u64_sum (l : list Z) : Z := foldr u64_add 0 l.

(** The mathematical sum. *)
Definition Zsum (l : list Z) : Z := foldr Z.add 0 l.

Lemma u64_sum_wrap l : wrap64 (u64_sum l) = wrap64 (Zsum l).
Proof.
  induction l as [|x l IH]; [done|]; simpl. unfold u64_add.
  by rewrite wrap64_idem, <- wrap64_add_r, IH, wrap64_add_r.
Qed.

Lemma u64_sum_range l : in_u64 (u64_sum l).
Proof. destruct l; simpl; [unfold in_u64, U64_MAX; lia|apply u64_add_range]. Qed.

Lemma u64_sum_Zsum l : u64_sum l = wrap64 (Zsum l).
Proof. by rewrite <- u64_sum_wrap, wrap64_small by apply u64_sum_range. Qed.

Lemma Zsum_app l1 l2 : Zsum (l1 ++ l2) = Zsum l1 + Zsum l2.
Proof. induction l1; simpl; lia. Qed.

#[export] Instance Zsum_proper : Proper ((≡ₚ) ==> (=)) Zsum.
Proof. induction 1; simpl; lia. Qed.

#[export] Instance u64_sum_proper : Proper ((≡ₚ) ==> (=)) u64_sum.
Proof. intros l1 l2 H. by rewrite !u64_sum_Zsum, H. Qed.

Lemma Zsum_nonneg l : Forall (Z.le 0) l -> 0 <= Zsum l.
Proof. induction 1; simpl; lia. Qed.

Lemma Zsum_fmap_add {A} (f g : A -> Z) (l : list A) :
  Zsum ((fun x => f x + g x) <$> l) = Zsum (f <$> l) + Zsum (g <$> l).
Proof. induction l; csimpl; lia. Qed.

Lemma Zsum_const {A} (c : Z) (l : list A) :
  Zsum ((fun _ => c) <$> l) = c * Z.of_nat (length l).
Proof. induction l; [simpl; lia|]. csimpl. rewrite IHl. lia. Qed.

(** ** Hash maps

    A [HashMap] is a [gmap].  Its iteration order is unspecified by the standard
    library, so code that iterates is a function of an ordering [map_iter]
    about which only "some permutation of the entries" is known. *)

Class MapOrder : Type := {
  map_iter : forall {K V : Type} `{Countable K}, gmap K V -> list (K * V);
  map_iter_perm : forall {K V : Type} `{Countable K} (m : gmap K V),
    map_iter m ≡ₚ map_to_list m;
}.

(** One ordering, used to run the models on concrete inputs. *)
#[export] Instance canonical_order : MapOrder | 10 := {
  map_iter := fun K V _ _ m => map_to_list m;
  map_iter_perm := fun K V _ _ m => reflexivity _;
}.

Definition map_values `{MapOrder} {K V} `{Countable K} (m : gmap K V) : list V :=
  (map_iter m).*2.
Definition map_keys `{MapOrder} {K V} `{Countable K} (m : gmap K V) : list K :=
  (map_iter m).*1.

Section map_iteration.
Context `{MapOrder} {K V : Type} `{Countable K}.
Implicit Types m : gmap K V.

Lemma elem_of_map_iter m k v : (k, v) ∈ map_iter m <-> m !! k = Some v.
Proof. by rewrite map_iter_perm, elem_of_map_to_list. Qed.

Lemma elem_of_map_values m v : v ∈ map_values m <-> exists k, m !! k = Some v.
Proof.
  unfold map_values. rewrite list_elem_of_fmap. split.
  - intros ([k v'] & -> & Hin). exists k. by apply elem_of_map_iter.
  - intros [k Hk]. exists (k, v). split; [done|]. by apply elem_of_map_iter.
Qed.

Lemma elem_of_map_keys m k : k ∈ map_keys m <-> is_Some (m !! k).
Proof.
  unfold map_keys. rewrite list_elem_of_fmap. split.
  - intros ([k' v] & -> & Hin). exists v. by apply elem_of_map_iter.
  - intros [v Hv]. exists (k, v). split; [done|]. by apply elem_of_map_iter.
Qed.

Lemma NoDup_map_keys m : NoDup (map_keys m).
Proof. unfold map_keys. rewrite map_iter_perm. apply NoDup_fst_map_to_list. Qed.

Lemma length_map_keys m : length (map_keys m) = size m.
Proof. unfold map_keys. by rewrite length_fmap, map_iter_perm, length_map_to_list. Qed.
End map_iteration.

(** [*map.entry(k).or_insert(0) += n] on a map of [u64] counters. *)
Definition entry_add {K} `{Countable K} (k : K) (n : Z) (m : gmap K Z) : gmap K Z :=
  <[k := default 0 (m !! k) +! n]> m.

(** [map.entry(k).or_insert_with(d)] followed by an in-place update [f]. *)
Definition entry_update {K V} `{Countable K} (d : V) (f : V -> V) (k : K) (m : gmap K V)
  : gmap K V := <[k := f (default d (m !! k))]> m.

(** Sum of a projection of the values of a map, modulo [2^64]. *)
Definition map_total {K V} `{Countable K} (f : V -> Z) (m : gmap K V) : Z :=
  map_fold (fun _ v acc => f v +! acc) 0 m.

Section map_total.
Context {K V : Type} `{Countable K}.
Implicit Types m : gmap K V.

Lemma map_total_empty (f : V -> Z) : map_total f (∅ : gmap K V) = 0.
Proof. apply map_fold_empty. Qed.

Lemma map_total_insert (f : V -> Z) k v m :
  m !! k = None -> map_total f (<[k:=v]> m) = f v +! map_total f m.
Proof.
  intros Hk. unfold map_total. rewrite map_fold_insert_L; [done| |done].
  intros. apply u64_add_swap.
Qed.

Lemma map_total_delete (f : V -> Z) k v m :
  m !! k = Some v -> map_total f m = f v +! map_total f (delete k m).
Proof.
  intros Hk. rewrite <- (insert_delete_id m k v Hk) at 1.
  rewrite map_total_insert; [done|apply lookup_delete_eq].
Qed.

(** Updating one entry changes the total by exactly what the entry gained. *)
Lemma map_total_entry_update (f : V -> Z) (d : V) (g : V -> V) (n : Z) k m :
  (forall v, f (g v) = f v +! n) -> f d = 0 ->
  map_total f (entry_update d g k m) = map_total f m +! n.
Proof.
  intros Hg Hd. unfold entry_update. destruct (m !! k) as [v|] eqn:Hk; simpl.
  - rewrite <- insert_delete_eq, map_total_insert by apply lookup_delete_eq.
    rewrite Hg, (map_total_delete f k v m Hk). wrap_solve.
  - rewrite map_total_insert, Hg, Hd by done. wrap_solve.
Qed.

Lemma map_total_range (f : V -> Z) m : in_u64 (map_total f m).
Proof.
  induction m as [|k v m Hk _ _] using map_first_key_ind.
  - rewrite map_total_empty. unfold in_u64, U64_MAX. lia.
  - rewrite map_total_insert by done. apply u64_add_range.
Qed.

Lemma map_total_iter `{MapOrder} (f : V -> Z) m :
  map_total f m = u64_sum (f <$> map_values m).
Proof.
  unfold map_values. rewrite map_iter_perm. unfold map_total. rewrite map_fold_foldr.
  induction (map_to_list m) as [|[k v] l IH]; csimpl; [done|]. by rewrite <- IH.
Qed.
End map_total.

Lemma map_total_entry_add {K} `{Countable K} (k : K) n (m : gmap K Z) :
  map_total id (entry_add k n m) = map_total id m +! n.
Proof.
  change (entry_add k n m) with (entry_update 0 (fun v => v +! n) k m).
  by apply map_total_entry_update.
Qed.

(** ** Lists *)

(** [for (index, count) in src.iter().enumerate() { if index < dst.len() {
    dst[index] += count } }]: element-wise addition into a fixed-width vector. *)
Fixpoint add_into (dst src : list Z) : list Z :=
  match dst, src with
  | d :: dst, s :: src => (d +! s) :: add_into dst src
  | _, _ => dst
  end.

Lemma length_add_into dst src : length (add_into dst src) = length dst.
Proof. revert src. induction dst; intros [|]; simpl; auto. Qed.

Lemma lookup_add_into dst src i :
  add_into dst src !! i =
    match dst !! i, src !! i with
    | Some d, Some s => Some (d +! s)
    | d, _ => d
    end.
Proof.
  revert src i. induction dst as [|d dst IH]; intros [|s src] [|i]; simpl; auto.
  by destruct (dst !! i).
Qed.

Lemma add_into_comm dst s1 s2 :
  add_into (add_into dst s1) s2 = add_into (add_into dst s2) s1.
Proof.
  revert s1 s2. induction dst as [|d dst IH]; intros [|a s1] [|b s2]; simpl; auto.
  f_equal; [wrap_solve|apply IH].
Qed.

(** Adding a vector that fits keeps the total count. *)
Lemma u64_sum_add_into dst src :
  (length src <= length dst)%nat ->
  u64_sum (add_into dst src) = u64_sum dst +! u64_sum src.
Proof.
  revert src. induction dst as [|d dst IH]; intros [|s src]; simpl; intros Hl; try lia.
  - done.
  - unfold u64_add. rewrite Z.add_0_r. by rewrite wrap64_idem.
  - rewrite IH by lia. wrap_solve.
Qed.

(** Reading the counters off a duplicate-free list of all the keys gives the
    total of the map. *)
Lemma u64_sum_lookup_keys {K} `{Countable K} (l : list K) (m : gmap K Z) :
  NoDup l -> (forall k, is_Some (m !! k) <-> k ∈ l) ->
  u64_sum ((fun k => default 0 (m !! k)) <$> l) = map_total id m.
Proof.
  intros Hl. revert m. induction Hl as [|k l Hk Hl IH]; intros m Hm.
  - destruct (decide (m = ∅)) as [->|Hne]; [by rewrite map_total_empty|].
    apply map_choose in Hne as (k & v & Hkv). exfalso.
    apply (not_elem_of_nil k), Hm. eauto.
  - destruct (proj2 (Hm k)) as [v Hv]; [left|].
    csimpl. rewrite Hv, (map_total_delete id k v m Hv). unfold id at 1; simpl. f_equal.
    rewrite <- (IH (delete k m)).
    + f_equal. apply list_fmap_ext. intros i k' Hi.
      rewrite lookup_delete_ne; [done|]. intros <-. apply Hk. by eapply list_elem_of_lookup_2.
    + intros k'. rewrite lookup_delete_is_Some, Hm, elem_of_cons. split.
      * intros [Hne [->|?]]; done.
      * intros Hin. split; [by intros <-|by right].
Qed.

(** A left fold that adds [g x] to a counter adds up the [g x]. *)
Lemma foldl_u64_total {A S} (f : S -> A -> S) (t : S -> Z) (g : A -> Z) (l : list A) (s : S) :
  (forall s x, t (f s x) = t s +! g x) -> in_u64 (t s) ->
  t (foldl f s l) = wrap64 (t s + Zsum (g <$> l)).
Proof.
  intros Hf. revert s. induction l as [|x l IH]; intros s Hs; csimpl.
  - by rewrite Z.add_0_r, wrap64_small.
  - rewrite IH; rewrite Hf; [|apply u64_add_range].
    unfold u64_add. rewrite wrap64_add_l. f_equal. lia.
Qed.

(** Projecting a component out of a left fold whose steps act on it alone. *)
Lemma foldl_project {A S T} (p : S -> T) (f : S -> A -> S) (g : T -> A -> T) (l : list A) (s : S) :
  (forall s x, p (f s x) = g (p s) x) -> p (foldl f s l) = foldl g (p s) l.
Proof. intros Hp. revert s. induction l as [|x l IH]; intros s; simpl; [done|]. by rewrite IH, Hp. Qed.

(** A fold that skips the elements a partial function rejects is the fold of
    the accepted ones. *)
Lemma foldl_omap {A B T} (g : T -> A -> T) (h : B -> T -> T) (q : A -> option B) (l : list A) (t : T) :
  (forall t x, g t x = match q x with Some b => h b t | None => t end) ->
  foldl g t l = foldl (fun t b => h b t) t (omap q l).
Proof.
  intros Hg. revert t. induction l as [|x l IH]; intros t; csimpl; [done|].
  rewrite Hg. destruct (q x); simpl; apply IH.
Qed.

(** Number of list elements satisfying a boolean test. *)
Definition count_if {A} (p : A -> bool) (l : list A) : Z :=
  Zsum ((fun x => if p x then 1 else 0) <$> l).

Lemma count_if_cons {A} (p : A -> bool) x l :
  count_if p (x :: l) = (if p x then 1 else 0) + count_if p l.
Proof. unfold count_if. csimpl. by destruct (p x). Qed.

Lemma count_if_app {A} (p : A -> bool) l k : count_if p (l ++ k) = count_if p l + count_if p k.
Proof. unfold count_if. by rewrite fmap_app, Zsum_app. Qed.

Lemma count_if_bounds {A} (p : A -> bool) l : 0 <= count_if p l <= Z.of_nat (length l).
Proof.
  unfold count_if. induction l as [|x l IH]; csimpl; [lia|]. destruct (p x); lia.
Qed.

Lemma count_if_split {A} (p : A -> bool) l :
  count_if p l + count_if (fun x => negb (p x)) l = Z.of_nat (length l).
Proof.
  unfold count_if. induction l as [|x l IH]; csimpl; [lia|]. destruct (p x); simpl; lia.
Qed.

Lemma filter_none {A} (P : A -> Prop) `{forall x, Decision (P x)} (l : list A) :
  (forall x, x ∈ l -> ~ P x) -> filter P l = [].
Proof.
  induction l as [|x l IH]; intros Hl; [done|].
  rewrite filter_cons_False by (apply Hl; left). apply IH. intros y Hy. apply Hl. by right.
Qed.

(** A fold whose steps commute (on the elements and states at hand) does not
    depend on the order of the list. *)
Lemma foldl_comm_perm {A S} (P : A -> Prop) (Q : S -> Prop) (f : S -> A -> S) l1 l2 s :
  (forall s x, Q s -> P x -> Q (f s x)) ->
  (forall s x y, Q s -> P x -> P y -> f (f s x) y = f (f s y) x) ->
  Q s -> Forall P l1 -> l1 ≡ₚ l2 -> foldl f s l1 = foldl f s l2.
Proof.
  intros HQ Hf Hs Hl Hp. revert s Hs Hl.
  induction Hp as [|x l1 l2 Hp IH|x y l|l1 l2 l3 Hp1 IH1 Hp2 IH2]; intros s Hs Hl; simpl.
  - done.
  - apply Forall_cons in Hl as [Hx Hl]. auto.
  - apply Forall_cons in Hl as [Hy [Hx Hl]%Forall_cons]. by rewrite Hf.
  - rewrite IH1 by done. apply IH2; [done|]. by rewrite <- Hp1.
Qed.

Lemma filter_disjoint_union {A} (P Q R : A -> Prop)
    `{!forall x, Decision (P x), !forall x, Decision (Q x), !forall x, Decision (R x)} (l : list A) :
  (forall x, P x -> ~ Q x) -> (forall x, R x <-> P x \/ Q x) ->
  filter P l ++ filter Q l ≡ₚ filter R l.
Proof.
  intros Hd HR. induction l as [|x l IH]; [done|].
  destruct (decide (P x)); [|destruct (decide (Q x))].
  - rewrite (filter_cons_True P), (filter_cons_False Q), (filter_cons_True R)
      by (try done; firstorder). simpl. by rewrite IH.
  - rewrite (filter_cons_False P), (filter_cons_True Q), (filter_cons_True R)
      by (try done; firstorder). by rewrite <- Permutation_middle, IH.
  - rewrite (filter_cons_False P), (filter_cons_False Q), (filter_cons_False R)
      by (try done; firstorder). done.
Qed.

Lemma Forall_filter_ok {A} (P Q : A -> Prop) `{!forall x, Decision (Q x)} l :
  Forall P l -> Forall P (filter Q l).
Proof. rewrite !Forall_forall. intros Hl x [_ Hx]%list_elem_of_filter. auto. Qed.

Lemma filter_not_nil {A} (P : A -> Prop) `{!forall x, Decision (P x)} l :
  filter P l <> [] <-> exists x, x ∈ l /\ P x.
Proof.
  split.
  - destruct (filter P l) as [|x fl] eqn:E; [done|]. intros _. exists x.
    assert (Hx : x ∈ filter P l) by (rewrite E; left). by apply list_elem_of_filter in Hx as [].
  - intros (x & Hx & HP) E. assert (Hf : x ∈ filter P l) by by apply list_elem_of_filter.
    rewrite E in Hf. by apply elem_of_nil in Hf.
Qed.

Lemma filter_ext_elem {A} (P Q : A -> Prop)
    `{!forall x, Decision (P x), !forall x, Decision (Q x)} (l : list A) :
  (forall x, x ∈ l -> P x <-> Q x) -> filter P l = filter Q l.
Proof.
  induction l as [|x l IH]; intros Hl; [done|].
  specialize (IH (fun y Hy => Hl y (proj2 (elem_of_cons _ _ _) (or_intror Hy)))).
  destruct (decide (P x)) as [HP|HP].
  - rewrite (filter_cons_True P), (filter_cons_True Q), IH by (try done; by apply Hl; [left|]). done.
  - rewrite (filter_cons_False P), (filter_cons_False Q), IH by (try done; by rewrite <- Hl by left).
    done.
Qed.
