(* ===== verification/RustStr.v ===== *)
(** Rust strings and byte vectors.

    A [String] / [&str] is the [string] of its UTF-8 bytes and a [Vec<u8>] /
    [&[u8]] a [list ascii].  This file models the parts of [core::str] and
    [slice] the engine calls: byte-wise ordering and [sort], [trim] with
    Unicode white space, [split_once], [contains], [eq_ignore_ascii_case],
    [parse::<usize>], [lines], [strip_prefix], [join], [str::from_utf8],
    [String::from_utf8_lossy] and decimal printing. *)

From Stdlib Require Export Ascii String.
From stdpp Require Export pretty.
From S2P Require Import Prelude.

Abbreviation bytes := (list ascii).

Definition as_bytes (s : string) : bytes := list_ascii_of_string s.
Definition of_bytes (b : bytes) : string := string_of_list_ascii b.

Lemma as_of_bytes b : as_bytes (of_bytes b) = b.
Proof. apply list_ascii_of_string_of_list_ascii. Qed.

Lemma of_as_bytes s : of_bytes (as_bytes s) = s.
Proof. apply string_of_list_ascii_of_string. Qed.

Lemma as_bytes_append s t : as_bytes (s ++ t)%string = as_bytes s ++ as_bytes t.
Proof. induction s as [|c s IH]; [done|]. simpl. f_equal. exact IH. Qed.

#[export] Instance as_bytes_inj : Inj (=) (=) as_bytes.
Proof. intros s t Hst. by rewrite <- (of_as_bytes s), Hst, of_as_bytes. Qed.

Definition byte_val (c : ascii) : Z := Z.of_N (N_of_ascii c).
Definition ch (z : Z) : ascii := ascii_of_N (Z.to_N z).

Lemma byte_val_ch z : 0 <= z < 256 -> byte_val (ch z) = z.
Proof. intros. unfold byte_val, ch. rewrite N_ascii_embedding by lia. lia. Qed.

Lemma byte_val_inj a b : byte_val a = byte_val b -> a = b.
Proof.
  unfold byte_val. intros Hab%N2Z.inj. by rewrite <- (ascii_N_embedding a), Hab, ascii_N_embedding.
Qed.

(** ** Ordering: [impl Ord for str] compares the UTF-8 bytes *)

Fixpoint bytes_leb (a b : bytes) : bool :=
  match a, b with
  | [], _ => true
  | _ :: _, [] => false
  | x :: a, y :: b =>
      if byte_val x <? byte_val y then true
      else if byte_val y <? byte_val x then false
      else bytes_leb a b
  end.

Definition str_le (s t : string) : Prop := bytes_leb (as_bytes s) (as_bytes t) = true.

#[export] Instance str_le_dec s t : Decision (str_le s t).
Proof. unfold str_le. apply _. Defined.

Lemma bytes_leb_total a b : bytes_leb a b = true \/ bytes_leb b a = true.
Proof.
  revert b. induction a as [|x a IH]; intros [|y b]; simpl; auto.
  destruct (Z.ltb_spec (byte_val x) (byte_val y)), (Z.ltb_spec (byte_val y) (byte_val x));
    auto; lia.
Qed.

Lemma bytes_leb_antisym a b : bytes_leb a b = true -> bytes_leb b a = true -> a = b.
Proof.
  revert b. induction a as [|x a IH]; intros [|y b]; simpl; try done.
  destruct (Z.ltb_spec (byte_val x) (byte_val y)), (Z.ltb_spec (byte_val y) (byte_val x));
    try done; try lia.
  intros. f_equal; [apply byte_val_inj; lia|auto].
Qed.

Lemma bytes_leb_trans a b c :
  bytes_leb a b = true -> bytes_leb b c = true -> bytes_leb a c = true.
Proof.
  revert b c. induction a as [|x a IH]; intros [|y b] [|z c]; simpl; try done.
  destruct (Z.ltb_spec (byte_val x) (byte_val y)), (Z.ltb_spec (byte_val y) (byte_val x)),
    (Z.ltb_spec (byte_val y) (byte_val z)), (Z.ltb_spec (byte_val z) (byte_val y)),
    (Z.ltb_spec (byte_val x) (byte_val z)), (Z.ltb_spec (byte_val z) (byte_val x));
    try done; try lia; eauto.
Qed.

#[export] Instance str_le_trans : Transitive str_le.
Proof. intros s t u. apply bytes_leb_trans. Qed.

#[export] Instance str_le_total : Total str_le.
Proof. intros s t. apply bytes_leb_total. Qed.

#[export] Instance str_le_antisym : AntiSymm (=) str_le.
Proof. intros s t Hst Hts. apply (inj as_bytes). by apply bytes_leb_antisym. Qed.

(** [Vec<String>::sort]. *)
Definition sort_strings (l : list string) : list string := merge_sort str_le l.

Lemma sort_strings_perm l : sort_strings l ≡ₚ l.
Proof. apply merge_sort_Permutation. Qed.

Lemma sort_strings_sorted l : StronglySorted str_le (sort_strings l).
Proof. apply Sorted_StronglySorted; [apply _|]. apply Sorted_merge_sort, _. Qed.

(** Sorting forgets the order of its input. *)
#[export] Instance sort_strings_proper : Proper ((≡ₚ) ==> (=)) sort_strings.
Proof.
  intros l1 l2 Hl. apply (StronglySorted_unique str_le).
  - apply sort_strings_sorted.
  - apply sort_strings_sorted.
  - by rewrite !sort_strings_perm.
Qed.

(** ** White space and [trim] *)

(** Length in bytes of the white-space character the bytes begin with: ASCII
    white space, U+0085, U+00A0, U+1680, U+2000-U+200A, U+2028, U+2029, U+202F,
    U+205F and U+3000, in UTF-8. *)
Definition is_ws1 (a : Z) : bool := ((9 <=? a) && (a <=? 13)) || (a =? 32).
Definition is_ws2 (a b : Z) : bool := (a =? 194) && ((b =? 133) || (b =? 160)).
Definition is_ws3 (a b c : Z) : bool :=
  ((a =? 225) && (b =? 154) && (c =? 128)) ||
  ((a =? 226) && (b =? 128) &&
     (((128 <=? c) && (c <=? 138)) || (c =? 168) || (c =? 169) || (c =? 175))) ||
  ((a =? 226) && (b =? 129) && (c =? 159)) ||
  ((a =? 227) && (b =? 128) && (c =? 128)).

Fixpoint trim_start_bytes (s : bytes) : bytes :=
  match s with
  | a :: s1 =>
      if is_ws1 (byte_val a) then trim_start_bytes s1 else
      match s1 with
      | b :: s2 =>
          if is_ws2 (byte_val a) (byte_val b) then trim_start_bytes s2 else
          match s2 with
          | c :: s3 =>
              if is_ws3 (byte_val a) (byte_val b) (byte_val c)
              then trim_start_bytes s3 else s
          | [] => s
          end
      | [] => s
      end
  | [] => []
  end.

(** The same on the reversed bytes, for the end of the string. *)
Fixpoint trim_end_rev (s : bytes) : bytes :=
  match s with
  | a :: s1 =>
      if is_ws1 (byte_val a) then trim_end_rev s1 else
      match s1 with
      | b :: s2 =>
          if is_ws2 (byte_val b) (byte_val a) then trim_end_rev s2 else
          match s2 with
          | c :: s3 =>
              if is_ws3 (byte_val c) (byte_val b) (byte_val a)
              then trim_end_rev s3 else s
          | [] => s
          end
      | [] => s
      end
  | [] => []
  end.

Definition trim_bytes (s : bytes) : bytes := rev (trim_end_rev (rev (trim_start_bytes s))).
Definition trim (s : string) : string := of_bytes (trim_bytes (as_bytes s)).

Definition str_is_empty (s : string) : bool :=
  match s with EmptyString => true | _ => false end.

(** [s.trim().is_empty()]. *)
Definition is_blank (s : string) : bool := str_is_empty (trim s).

Example trim_ascii : trim ("  a b " ++ String (ch 10) "")%string = "a b"%string.
Proof. reflexivity. Qed.
Example trim_nbsp : trim (String (ch 194) (String (ch 160) "x"))%string = "x"%string.
Proof. reflexivity. Qed.

(** ** Searching *)

(** [haystack.iter().position(|&b| b == needle)]. *)
Fixpoint position (n : ascii) (h : bytes) : option nat :=
  match h with
  | [] => None
  | c :: h => if Ascii.eqb c n then Some O else S <$> position n h
  end.

Fixpoint bytes_prefix (p s : bytes) : bool :=
  match p, s with
  | [], _ => true
  | a :: p, b :: s => Ascii.eqb a b && bytes_prefix p s
  | _ :: _, [] => false
  end.

(** [s.starts_with(p)]. *)
Definition str_starts_with (p s : string) : bool := bytes_prefix (as_bytes p) (as_bytes s).

(** [s.find(pat)] on bytes: index of the first occurrence. *)
Fixpoint find_sub (p s : bytes) : option nat :=
  if bytes_prefix p s then Some O
  else match s with
       | [] => None
       | _ :: s => S <$> find_sub p s
       end.

(** [s.contains(pat)]. *)
Definition str_contains (s p : string) : bool :=
  match find_sub (as_bytes p) (as_bytes s) with Some _ => true | None => false end.

(** [s.split_once(c)] for a one-byte separator. *)
Definition split_once (c : ascii) (s : string) : option (string * string) :=
  i ← position c (as_bytes s);
  Some (of_bytes (take i (as_bytes s)), of_bytes (drop (S i) (as_bytes s))).

Lemma position_Some n h i :
  position n h = Some i <->
  exists l r, h = l ++ n :: r /\ length l = i /\ n ∉ l.
Proof.
  revert i. induction h as [|c h IH]; intros i; simpl.
  - split; [done|]. intros (l & r & E & _). by destruct l.
  - destruct (Ascii.eqb_spec c n) as [->|Hne].
    + split.
      * intros [= <-]. exists [], h. split_and!; [done..|]. apply not_elem_of_nil.
      * intros (l & r & E & Hl & Hn). destruct l as [|x l]; simplify_eq/=; [done|].
        exfalso. apply Hn. left.
    + rewrite fmap_Some. split.
      * intros (j & (l & r & -> & Hl & Hn)%IH & ->). exists (c :: l), r.
        split_and!; simpl; [done|by f_equal|]. apply not_elem_of_cons. naive_solver.
      * intros (l & r & E & Hl & Hn). destruct l as [|x l]; simplify_eq/=.
        exists (length l). split; [|done]. apply IH. exists l, r.
        split_and!; [done..|]. intros ?. apply Hn. by right.
Qed.

Lemma position_app n l r : n ∉ l -> position n (l ++ n :: r) = Some (length l).
Proof. intros. apply position_Some. eauto. Qed.

Lemma position_None n h : position n h = None <-> n ∉ h.
Proof.
  induction h as [|c h IH]; simpl.
  - split; [intros; apply not_elem_of_nil|done].
  - destruct (Ascii.eqb_spec c n) as [->|Hne].
    + split; [done|]. intros Hn. exfalso. apply Hn. left.
    + rewrite fmap_None, IH, not_elem_of_cons. naive_solver.
Qed.

(** A double quote, and a string between two of them. *)
Definition DQUOTE : string := String (ch 34) "".
Definition quoted (s : string) : string := (DQUOTE ++ s ++ DQUOTE)%string.

(** ** ASCII case *)

Definition to_ascii_lowercase (c : ascii) : ascii :=
  if (65 <=? byte_val c) && (byte_val c <=? 90) then ch (byte_val c + 32) else c.

Definition eq_ignore_ascii_case (s t : string) : bool :=
  bool_decide ((to_ascii_lowercase <$> as_bytes s) = (to_ascii_lowercase <$> as_bytes t)).

(** ** Numbers *)

(** The digits of an unsigned decimal; fails on a non-digit and on overflow. *)
Fixpoint parse_digits (acc : Z) (s : bytes) : option Z :=
  match s with
  | [] => Some acc
  | c :: s =>
      let d := byte_val c - 48 in
      if (0 <=? d) && (d <=? 9) then
        let acc' := acc * 10 + d in
        if acc' <=? U64_MAX then parse_digits acc' s else None
      else None
  end.

(** [s.parse::<usize>().ok()] on a 64-bit target: an optional [+], then at least
    one digit. *)
Definition parse_usize (s : string) : option Z :=
  match as_bytes s with
  | [] => None
  | c :: rest =>
      let digits := if byte_val c =? 43 then rest else c :: rest in
      match digits with
      | [] => None
      | _ => parse_digits 0 digits
      end
  end.

(** [n.to_string()] for an unsigned integer. *)
Definition u64_to_string (n : Z) : string := pretty (Z.to_N n).

(** [n.to_string()] for a signed integer. *)
Definition i64_to_string (n : Z) : string :=
  if n <? 0 then ("-" ++ pretty (Z.to_N (- n)))%string else pretty (Z.to_N n).

Lemma u64_to_string_inj a b : 0 <= a -> 0 <= b -> u64_to_string a = u64_to_string b -> a = b.
Proof. unfold u64_to_string. intros ?? E%(inj pretty). lia. Qed.

(** ** UTF-8: the well-formedness [str::from_utf8] checks *)

Definition in_range (lo hi x : Z) : bool := (lo <=? x) && (x <=? hi).
Definition is_cont (x : ascii) : bool := in_range 128 191 (byte_val x).

Fixpoint utf8_valid (s : bytes) : bool :=
  match s with
  | [] => true
  | a :: s1 =>
      let x := byte_val a in
      if x <? 128 then utf8_valid s1
      else match s1 with
      | b :: s2 =>
          if in_range 194 223 x then is_cont b && utf8_valid s2
          else match s2 with
          | c :: s3 =>
              if in_range 224 239 x then
                in_range (if x =? 224 then 160 else 128) (if x =? 237 then 159 else 191)
                  (byte_val b) && is_cont c && utf8_valid s3
              else match s3 with
              | d :: s4 =>
                  in_range 240 244 x &&
                  in_range (if x =? 240 then 144 else 128) (if x =? 244 then 143 else 191)
                    (byte_val b) && is_cont c && is_cont d && utf8_valid s4
              | [] => false
              end
          | [] => false
          end
      | [] => false
      end
  end.

(** Every Rust [String] satisfies this by construction. *)
Definition str_valid (s : string) : Prop := utf8_valid (as_bytes s) = true.

(** [String::from_utf8_lossy]: every maximal prefix of a character that goes no
    further becomes U+FFFD. *)
Definition REPLACEMENT : bytes := [ch 239; ch 191; ch 189].

Definition second_of_3 (x : Z) (b : ascii) : bool :=
  in_range (if x =? 224 then 160 else 128) (if x =? 237 then 159 else 191) (byte_val b).
Definition second_of_4 (x : Z) (b : ascii) : bool :=
  in_range (if x =? 240 then 144 else 128) (if x =? 244 then 143 else 191) (byte_val b).

Fixpoint from_utf8_lossy (s : bytes) : bytes :=
  match s with
  | [] => []
  | a :: s1 =>
      let x := byte_val a in
      if x <? 128 then a :: from_utf8_lossy s1
      else if in_range 194 223 x then
        match s1 with
        | b :: s2 => if is_cont b then a :: b :: from_utf8_lossy s2
                     else REPLACEMENT ++ from_utf8_lossy s1
        | [] => REPLACEMENT
        end
      else if in_range 224 239 x then
        match s1 with
        | b :: s2 =>
            if second_of_3 x b then
              match s2 with
              | c :: s3 => if is_cont c then a :: b :: c :: from_utf8_lossy s3
                           else REPLACEMENT ++ from_utf8_lossy s2
              | [] => REPLACEMENT
              end
            else REPLACEMENT ++ from_utf8_lossy s1
        | [] => REPLACEMENT
        end
      else if in_range 240 244 x then
        match s1 with
        | b :: s2 =>
            if second_of_4 x b then
              match s2 with
              | c :: s3 =>
                  if is_cont c then
                    match s3 with
                    | d :: s4 => if is_cont d then a :: b :: c :: d :: from_utf8_lossy s4
                                 else REPLACEMENT ++ from_utf8_lossy s3
                    | [] => REPLACEMENT
                    end
                  else REPLACEMENT ++ from_utf8_lossy s2
              | [] => REPLACEMENT
              end
            else REPLACEMENT ++ from_utf8_lossy s1
        | [] => REPLACEMENT
        end
      else REPLACEMENT ++ from_utf8_lossy s1
  end.

(** Valid text is not changed. *)
Lemma from_utf8_lossy_valid s : utf8_valid s = true -> from_utf8_lossy s = s.
Proof.
  remember (length s) as n eqn:Hn. revert s Hn. induction n as [n IH] using lt_wf_ind.
  intros [|a s1] Hn; [done|]. simpl in Hn. cbn [utf8_valid from_utf8_lossy]. unfold second_of_3, second_of_4.
  destruct (byte_val a <? 128); [intros Hv; f_equal; eapply IH; [|done|done]; lia|].
  destruct s1 as [|b s2]; [done|]. simpl in Hn. destruct (in_range 194 223 _).
  { intros [-> Hv]%andb_true_iff. do 2 f_equal. eapply IH; [|done|done]. lia. }
  destruct s2 as [|c s3]; [done|]. simpl in Hn. destruct (in_range 224 239 _).
  { intros [[-> ->]%andb_true_iff Hv]%andb_true_iff. do 3 f_equal. eapply IH; [|done|done]. lia. }
  destruct s3 as [|d s4]; [done|]. simpl in Hn. rewrite !andb_true_iff. intros [[[[-> ->] ->] ->] Hv].
  do 4 f_equal. eapply IH; [|done|done]. lia.
Qed.

Example lossy_split : from_utf8_lossy [ch 226; ch 130] ++ from_utf8_lossy [ch 172] = REPLACEMENT ++ REPLACEMENT.
Proof. reflexivity. Qed.

(** ** Lines *)

Definition LF : ascii := ch 10.
Definition CR : ascii := ch 13.

(** The pieces between line feeds (always at least one). *)
Fixpoint split_lf (s : bytes) : list bytes :=
  match s with
  | [] => [[]]
  | c :: s =>
      if Ascii.eqb c LF then [] :: split_lf s
      else match split_lf s with
           | l :: ls => (c :: l) :: ls
           | [] => [[c]]
           end
  end.

Definition strip_suffix_cr (l : bytes) : bytes :=
  match rev l with c :: r => if Ascii.eqb c CR then rev r else l | [] => l end.

(** [str::lines]: lines end at LF or CRLF; a last line without terminator is
    kept as it is, and there is none after a final line feed. *)
Fixpoint finish_lines (pieces : list bytes) : list bytes :=
  match pieces with
  | [] => []
  | [l] => match l with [] => [] | _ => [l] end
  | l :: ls => strip_suffix_cr l :: finish_lines ls
  end.

Definition lines (s : bytes) : list bytes := finish_lines (split_lf s).

(** [s.strip_prefix(p)]. *)
Definition strip_prefix (p s : bytes) : option bytes :=
  if bytes_prefix p s then Some (drop (length p) s) else None.

(** [v.join(sep)]. *)
Fixpoint join_bytes (sep : bytes) (l : list bytes) : bytes :=
  match l with
  | [] => []
  | [x] => x
  | x :: l => x ++ sep ++ join_bytes sep l
  end.

Example lines_mixed :
  lines (as_bytes "a" ++ [CR; LF; LF] ++ as_bytes "b" ++ [CR]) = [as_bytes "a"; []; as_bytes "b" ++ [CR]].
Proof. reflexivity. Qed.

Lemma split_lf_nonempty s : split_lf s <> [].
Proof. destruct s as [|c s]; simpl; [done|]. destruct (Ascii.eqb c LF); [done|]. by destruct (split_lf s). Qed.

Lemma split_lf_app l s : LF ∉ l -> split_lf (l ++ LF :: s) = l :: split_lf s.
Proof.
  induction l as [|c l IH]; simpl; intros Hl.
  - done.
  - apply not_elem_of_cons in Hl as [Hc Hl]. rewrite IH by done.
    destruct (Ascii.eqb_spec c LF); [congruence|done].
Qed.

Lemma split_lf_last l : LF ∉ l -> split_lf l = [l].
Proof.
  induction l as [|c l IH]; simpl; intros Hl; [done|].
  apply not_elem_of_cons in Hl as [Hc Hl]. rewrite IH by done.
  destruct (Ascii.eqb_spec c LF); [congruence|done].
Qed.

Lemma strip_suffix_cr_id l : CR ∉ l -> strip_suffix_cr l = l.
Proof.
  intros Hl. unfold strip_suffix_cr. destruct (rev l) as [|c r] eqn:E; [done|].
  destruct (Ascii.eqb_spec c CR) as [->|]; [|done]. exfalso. apply Hl.
  apply (f_equal (@rev ascii)) in E. rewrite rev_involutive in E. subst l.
  simpl. apply elem_of_app. right. by apply list_elem_of_singleton.
Qed.

(** A terminated line is the head of the lines. *)
Lemma lines_terminated l s : LF ∉ l -> CR ∉ l -> lines (l ++ LF :: s) = l :: lines s.
Proof.
  intros Hlf Hcr. unfold lines. rewrite split_lf_app by done.
  simpl. destruct (split_lf s) eqn:E; [by apply split_lf_nonempty in E|].
  by rewrite strip_suffix_cr_id.
Qed.

Lemma lines_last l : LF ∉ l -> l <> [] -> lines l = [l].
Proof. intros Hlf Hne. unfold lines. rewrite split_lf_last by done. by destruct l. Qed.

Lemma strip_prefix_app p s : strip_prefix p (p ++ s) = Some s.
Proof.
  unfold strip_prefix. assert (bytes_prefix p (p ++ s) = true) as ->.
  { induction p as [|a p IH]; simpl; [done|]. by rewrite Ascii.eqb_refl. }
  by rewrite drop_app_length.
Qed.

(** ** Decimal numbers survive [to_string], [trim] and [parse] *)

Definition is_digit (c : ascii) : Prop := 48 <= byte_val c <= 57.

Lemma pretty_char_digit d : (d < 10)%N -> byte_val (pretty_N_char d) = 48 + Z.of_N d.
Proof.
  intros Hd. unfold pretty_N_char.
  assert (d = 0 \/ d = 1 \/ d = 2 \/ d = 3 \/ d = 4 \/ d = 5 \/ d = 6 \/ d = 7 \/ d = 8 \/ d = 9)%N by lia.
  by destruct_or!; subst d.
Qed.

Lemma pretty_go_digits x s :
  Forall is_digit (as_bytes s) -> Forall is_digit (as_bytes (pretty_N_go x s)).
Proof.
  revert s. induction (N.lt_wf_0 x) as [x _ IH]. intros s Hs.
  destruct (decide (x = 0)%N) as [->|Hx]; [done|]. rewrite pretty_N_go_step by lia.
  apply IH; [apply N.div_lt; lia|]. constructor; [|done].
  pose proof (N.mod_lt x 10 ltac:(done)) as Hm. unfold is_digit. rewrite pretty_char_digit by done.
  revert Hm. generalize (x `mod` 10)%N. lia.
Qed.

Lemma u64_to_string_digits n : Forall is_digit (as_bytes (u64_to_string n)).
Proof.
  unfold u64_to_string, pretty, pretty_N. case_decide; [|by apply pretty_go_digits].
  repeat constructor; vm_compute; congruence.
Qed.

Lemma parse_pretty_go x s :
  Z.of_N x <= U64_MAX ->
  parse_digits 0 (as_bytes (pretty_N_go x s)) = parse_digits (Z.of_N x) (as_bytes s).
Proof.
  revert s. induction (N.lt_wf_0 x) as [x _ IH]. intros s Hs.
  destruct (decide (x = 0)%N) as [->|Hx]; [done|]. rewrite pretty_N_go_step by lia.
  pose proof (N.mod_lt x 10 ltac:(done)). pose proof (N.div_lt x 10 ltac:(lia) ltac:(lia)).
  rewrite IH by lia. simpl. rewrite pretty_char_digit by done.
  pose proof (N.div_mod x 10 ltac:(done)) as Hdm. set (q := (x `div` 10)%N) in *. set (m := (x `mod` 10)%N) in *.
  replace (48 + Z.of_N m - 48) with (Z.of_N m) by lia.
  rewrite (proj2 (Z.leb_le 0 (Z.of_N m))), (proj2 (Z.leb_le (Z.of_N m) 9)) by lia. simpl.
  replace (Z.of_N q * 10 + Z.of_N m) with (Z.of_N x) by lia.
  by rewrite (proj2 (Z.leb_le _ _) Hs).
Qed.

Lemma trim_start_digits s : Forall is_digit s -> trim_start_bytes s = s.
Proof.
  intros Hs. destruct Hs as [|a s Ha Hs]; [done|]. unfold is_digit in Ha. simpl.
  unfold is_ws1, is_ws2, is_ws3.
  rewrite (proj2 (Z.eqb_neq (byte_val a) 32)), (proj2 (Z.leb_gt (byte_val a) 13)) by lia.
  rewrite andb_false_r. simpl. destruct s as [|b s]; [done|].
  rewrite (proj2 (Z.eqb_neq (byte_val a) 194)) by lia. simpl. destruct s as [|c s]; [done|].
  by rewrite (proj2 (Z.eqb_neq (byte_val a) 225)), (proj2 (Z.eqb_neq (byte_val a) 226)),
    (proj2 (Z.eqb_neq (byte_val a) 227)) by lia.
Qed.

Lemma trim_end_digits s : Forall is_digit s -> trim_end_rev s = s.
Proof.
  intros Hs. destruct Hs as [|a s Ha Hs]; [done|]. unfold is_digit in Ha. simpl.
  unfold is_ws1, is_ws2, is_ws3.
  rewrite (proj2 (Z.eqb_neq (byte_val a) 32)), (proj2 (Z.leb_gt (byte_val a) 13)) by lia.
  rewrite andb_false_r. simpl. destruct s as [|b s]; [done|].
  rewrite (proj2 (Z.eqb_neq (byte_val a) 133)), (proj2 (Z.eqb_neq (byte_val a) 160)) by lia.
  rewrite andb_false_r. destruct s as [|c s]; [done|].
  rewrite (proj2 (Z.eqb_neq (byte_val a) 128)), (proj2 (Z.leb_gt 128 (byte_val a))),
    (proj2 (Z.eqb_neq (byte_val a) 168)), (proj2 (Z.eqb_neq (byte_val a) 169)),
    (proj2 (Z.eqb_neq (byte_val a) 175)), (proj2 (Z.eqb_neq (byte_val a) 159)) by lia.
  simpl. by rewrite !andb_false_r.
Qed.

Lemma trim_digits s : Forall is_digit (as_bytes s) -> trim s = s.
Proof.
  intros Hs. unfold trim, trim_bytes. rewrite trim_start_digits by done.
  rewrite trim_end_digits by (by apply Forall_rev). by rewrite rev_involutive, of_as_bytes.
Qed.

(** A count printed in decimal parses back, spaces trimmed. *)
Lemma parse_u64_to_string n : in_u64 n -> parse_usize (trim (u64_to_string n)) = Some n.
Proof.
  intros Hn. pose proof (u64_to_string_digits n) as Hd. rewrite trim_digits by done.
  assert (Hp : parse_digits 0 (as_bytes (u64_to_string n)) = Some n).
  { unfold u64_to_string, pretty, pretty_N. case_decide as E.
    - destruct Hn. assert (n = 0) as -> by lia. done.
    - destruct Hn. rewrite parse_pretty_go by lia. simpl. f_equal. lia. }
  unfold parse_usize. destruct (as_bytes (u64_to_string n)) as [|c rest] eqn:E.
  { simpl in Hp. injection Hp as <-. discriminate E. }
  apply Forall_cons in Hd as [Hc _]. unfold is_digit in Hc.
  rewrite (proj2 (Z.eqb_neq (byte_val c) 43)) by lia. done.
Qed.
