(* ===== verification/Json.v ===== *)
(** The JSON values of [serde_json], which several engines and the configuration
    rely on.  Parsing and printing are third-party code, hence an interface
    ([Json]). *)

From S2P Require Import Prelude RustStr.

#[local] Open Scope Z_scope.

(** [serde_json::Value]; an object lists its members, each name once. *)
Inductive json_value :=
  | JNull
  | JBool (b : bool)
  | JNumber (literal : string)
  | JString (s : string)
  | JArray (l : list json_value)
  | JObject (members : list (string * json_value)).

Class Json : Type := {
  (** [serde_json::from_str] / [from_slice] *)
  json_parse : bytes -> result string json_value;
  (** [serde_json::to_vec] / [to_string] *)
  json_print : json_value -> bytes;
}.

Definition is_object (v : json_value) : bool :=
  match v with JObject _ => true | _ => false end.

(** [map.get(name)] on an object. *)
Fixpoint json_get (name : string) (members : list (string * json_value)) : option json_value :=
  match members with
  | [] => None
  | (k, v) :: members => if String.eqb k name then Some v else json_get name members
  end.

(** [map.insert(name, v)]: replaces the member of that name or adds one. *)
Fixpoint json_insert (name : string) (v : json_value) (members : list (string * json_value))
  : list (string * json_value) :=
  match members with
  | [] => [(name, v)]
  | (k, w) :: members =>
      if String.eqb k name then (k, v) :: members else (k, w) :: json_insert name v members
  end.

Lemma json_get_insert name v members : json_get name (json_insert name v members) = Some v.
Proof.
  induction members as [|[k w] members IH]; simpl; [by rewrite String.eqb_refl|].
  destruct (String.eqb_spec k name) as [->|Hne]; simpl.
  - by rewrite String.eqb_refl.
  - by rewrite (proj2 (String.eqb_neq _ _) Hne).
Qed.

Lemma json_get_insert_ne name name' v members :
  name <> name' -> json_get name' (json_insert name v members) = json_get name' members.
Proof.
  intros Hne. induction members as [|[k w] members IH]; simpl.
  - by rewrite (proj2 (String.eqb_neq _ _) Hne).
  - destruct (String.eqb_spec k name) as [->|]; simpl.
    + by rewrite (proj2 (String.eqb_neq _ _) Hne).
    + by rewrite IH.
Qed.
