(* ===== verification/Float.v ===== *)
(** IEEE-754 arithmetic and [std::time::Duration].

    [f64] and [f32] values are the [spec_float]s of the Standard Library at
    binary64 (precision 53, [emax] 1024) and binary32 (24, 128): operations
    round to nearest, ties to even, as the hardware does, and evaluate.  NaN
    payloads are not represented.  A [Duration] is its number of nanoseconds. *)

From Stdlib Require Export SpecFloat.
From S2P Require Import Prelude.

Abbreviation f64 := spec_float (only parsing).
Abbreviation f32 := spec_float (only parsing).

#[export] Instance spec_float_eq_dec : EqDecision spec_float.
Proof. solve_decision. Defined.

(** ** Operations *)

Definition f64_add : f64 -> f64 -> f64 := SFadd 53 1024.
Definition f64_sub : f64 -> f64 -> f64 := SFsub 53 1024.
Definition f64_mul : f64 -> f64 -> f64 := SFmul 53 1024.
Definition f64_div : f64 -> f64 -> f64 := SFdiv 53 1024.
Definition f32_add : f32 -> f32 -> f32 := SFadd 24 128.
Definition f32_mul : f32 -> f32 -> f32 := SFmul 24 128.
Definition f32_div : f32 -> f32 -> f32 := SFdiv 24 128.

(** The comparison operators; every one is [false] on a NaN. *)
Definition f64_ltb : f64 -> f64 -> bool := SFltb.
Definition f64_leb : f64 -> f64 -> bool := SFleb.
Definition f64_gtb (x y : f64) : bool := SFltb y x.
Definition f64_geb (x y : f64) : bool := SFleb y x.

Definition is_nan (x : f64) : bool := match x with S754_nan => true | _ => false end.
Definition is_finite (x : f64) : bool :=
  match x with S754_zero _ | S754_finite _ _ _ => true | _ => false end.

(** [n as f64], [n as f32] for an integer of any width. *)
Definition f64_of_Z (n : Z) : f64 := binary_normalize 53 1024 n 0 false.
Definition f32_of_Z (n : Z) : f32 := binary_normalize 24 128 n 0 false.

(** A decimal literal [p / q]: the correctly rounded quotient. *)
Definition f64_lit (p q : Z) : f64 := f64_div (f64_of_Z p) (f64_of_Z q).

Definition f64_zero : f64 := S754_zero false.
Definition f64_one : f64 := f64_of_Z 1.
Definition f64_infinity : f64 := S754_infinity false.
(** [f64::EPSILON] is [2^-52]. *)
Definition f64_epsilon : f64 := f64_lit 1 (2 ^ 52).

(** [f64::from(x : f32)] (exact) and [x as f32] (rounding). *)
Definition f64_of_f32 (x : f32) : f64 :=
  match x with S754_finite s m e => binary_round 53 1024 s m e | _ => x end.
Definition f32_of_f64 (x : f64) : f32 :=
  match x with S754_finite s m e => binary_round 24 128 s m e | _ => x end.

(** [f64::min] and [f64::max]: a NaN argument yields the other one. *)
Definition f64_min (x y : f64) : f64 :=
  if is_nan x then y else if is_nan y then x else if f64_ltb y x then y else x.
Definition f64_max (x y : f64) : f64 :=
  if is_nan x then y else if is_nan y then x else if f64_ltb x y then y else x.

(** [x.clamp(lo, hi)]: a NaN stays a NaN. *)
Definition f64_clamp (x lo hi : f64) : f64 :=
  if f64_ltb x lo then lo else if f64_ltb hi x then hi else x.

(** The integer part, rounding towards zero. *)
Definition f64_trunc (x : f64) : Z :=
  match x with
  | S754_finite s m e => cond_Zopp s (if e <? 0 then Z.shiftr (Zpos m) (- e) else Z.shiftl (Zpos m) e)
  | _ => 0
  end.

(** [x as u64]: saturating, NaN becomes 0. *)
Definition f64_as_u64 (x : f64) : Z :=
  match x with
  | S754_infinity false => U64_MAX
  | S754_finite _ _ _ => Z.max 0 (Z.min U64_MAX (f64_trunc x))
  | _ => 0
  end.

(** [x.round()]: half-way cases away from zero. *)
Definition f64_round (x : f64) : f64 :=
  match x with
  | S754_finite s m e =>
      if e <? 0
      then binary_normalize 53 1024
             (cond_Zopp s (Z.shiftr (Zpos m + Z.shiftl 1 (- e - 1)) (- e))) 0 s
      else x
  | _ => x
  end.

(** [x.powi(n)] for [n >= 0]: binary exponentiation, the algorithm of the
    compiler runtime.  An [i32] exponent has at most 31 bits. *)
Fixpoint powi_loop (fuel : nat) (a : f64) (b : Z) (r : f64) : f64 :=
  match fuel with
  | O => r
  | S fuel =>
      let r := if Z.odd b then f64_mul r a else r in
      let b := Z.div b 2 in
      if b =? 0 then r else powi_loop fuel (f64_mul a a) b r
  end.
Definition f64_powi (a : f64) (n : Z) : f64 := powi_loop 32 a n f64_one.

Example lit_half : f64_lit 1 2 = S754_finite false 4503599627370496 (-53).
Proof. reflexivity. Qed.
Example powi_10 : f64_powi (f64_of_Z 2) 10 = f64_of_Z 1024.
Proof. reflexivity. Qed.

(** ** [Duration] *)

Abbreviation duration := Z (only parsing).
Definition NANOS_PER_SEC : Z := 1000000000.
Definition NANOS_PER_MILLI : Z := 1000000.

Definition from_millis (ms : Z) : duration := ms * NANOS_PER_MILLI.
Definition from_secs (s : Z) : duration := s * NANOS_PER_SEC.
Definition as_secs (d : duration) : Z := d / NANOS_PER_SEC.
Definition subsec_nanos (d : duration) : Z := d mod NANOS_PER_SEC.
Definition as_millis (d : duration) : Z := d / NANOS_PER_MILLI.
Definition as_secs_f64 (d : duration) : f64 :=
  f64_add (f64_of_Z (as_secs d)) (f64_div (f64_of_Z (subsec_nanos d)) (f64_of_Z NANOS_PER_SEC)).

(** [n / d] rounded to nearest, ties to even. *)
Definition round_half_even (n d : Z) : Z :=
  let q := n / d in
  let r := n mod d in
  match Z.compare (2 * r) d with
  | Lt => q
  | Gt => q + 1
  | Eq => if Z.even q then q else q + 1
  end.

(** [Duration::from_secs_f64]: [None] is the panic on a negative, non-finite or
    too large argument. *)
Definition from_secs_f64 (x : f64) : option duration :=
  match x with
  | S754_zero _ => Some 0
  | S754_finite false m e =>
      let ns := if e <? 0 then round_half_even (Zpos m * NANOS_PER_SEC) (Z.shiftl 1 (- e))
                else Z.shiftl (Zpos m * NANOS_PER_SEC) e in
      if ns <? 2 ^ 64 * NANOS_PER_SEC then Some ns else None
  | _ => None
  end.

Example from_secs_tenth : from_secs_f64 (f64_lit 1 10) = Some (from_millis 100).
Proof. reflexivity. Qed.
Example as_secs_half : as_secs_f64 (from_millis 500) = f64_lit 1 2.
Proof. reflexivity. Qed.

(** ** Facts about comparison and min/max *)

Lemma SFcompare_antisym x y :
  SFcompare y x = CompOpp <$> SFcompare x y.
Proof.
  destruct x as [[]|[]| |[] m e], y as [[]|[]| |[] m' e']; simpl; try done;
    rewrite (Z.compare_antisym e e'), <- (Pos.compare_cont_antisym m m' Eq : _ = Pos.compare_cont Eq m' m);
    by destruct (e ?= e').
Qed.

Lemma SFcompare_nan x y : SFcompare x y = None <-> is_nan x = true \/ is_nan y = true.
Proof. destruct x as [[]|[]| |[]], y as [[]|[]| |[]]; simpl; intuition discriminate. Qed.

Lemma f64_leb_total x y :
  is_nan x = false -> is_nan y = false -> f64_leb x y = true \/ f64_ltb y x = true.
Proof.
  intros Hx Hy. unfold f64_leb, f64_ltb, SFleb, SFltb. rewrite (SFcompare_antisym x y).
  destruct (SFcompare x y) as [[]|] eqn:E; simpl; auto.
  apply SFcompare_nan in E as [?|?]; congruence.
Qed.

Lemma f64_ltb_leb x y : f64_ltb x y = true -> f64_leb x y = true.
Proof. unfold f64_ltb, f64_leb, SFltb, SFleb. by destruct (SFcompare x y) as [[]|]. Qed.

Lemma f64_leb_refl x : is_nan x = false -> f64_leb x x = true.
Proof.
  unfold f64_leb, SFleb. destruct x as [[]|[]| |[] m e]; simpl; try done.
  all: by rewrite Z.compare_refl, Pos.compare_cont_refl.
Qed.

(** The minimum of two numbers is one of them and is below both. *)
Lemma f64_min_spec x y :
  is_nan x = false -> is_nan y = false ->
  (f64_min x y = x \/ f64_min x y = y) /\
  f64_leb (f64_min x y) x = true /\ f64_leb (f64_min x y) y = true.
Proof.
  intros Hx Hy. unfold f64_min. rewrite Hx, Hy.
  destruct (f64_ltb y x) eqn:E.
  - split_and!; auto using f64_ltb_leb, f64_leb_refl.
  - destruct (f64_leb_total x y Hx Hy) as [|?]; [|congruence].
    split_and!; auto using f64_leb_refl.
Qed.

Lemma f64_max_spec x y :
  is_nan x = false -> is_nan y = false ->
  (f64_max x y = x \/ f64_max x y = y) /\
  f64_leb x (f64_max x y) = true /\ f64_leb y (f64_max x y) = true.
Proof.
  intros Hx Hy. unfold f64_max. rewrite Hx, Hy.
  destruct (f64_ltb x y) eqn:E.
  - split_and!; auto using f64_ltb_leb, f64_leb_refl.
  - destruct (f64_leb_total y x Hy Hx) as [|?]; [|congruence].
    split_and!; auto using f64_leb_refl.
Qed.

(** ** The order of floats

    Comparison is the lexicographic order of a key; numbers with equal keys are
    equal, the two zeros aside. *)

Definition f64_key (x : f64) : Z * Z * Z :=
  match x with
  | S754_infinity true => (-2, 0, 0)
  | S754_finite true m e => (-1, - e, Zneg m)
  | S754_zero _ | S754_nan => (0, 0, 0)
  | S754_finite false m e => (1, e, Zpos m)
  | S754_infinity false => (2, 0, 0)
  end.

Definition key_lt (a b : Z * Z * Z) : Prop :=
  a.1.1 < b.1.1 \/ a.1.1 = b.1.1 /\ (a.1.2 < b.1.2 \/ a.1.2 = b.1.2 /\ a.2 < b.2).

Definition no_neg_zero (x : f64) : Prop := x <> S754_zero true.

Lemma f64_ltb_key x y :
  is_nan x = false -> is_nan y = false -> f64_ltb x y = true <-> key_lt (f64_key x) (f64_key y).
Proof.
  intros Hx Hy. unfold f64_ltb, SFltb, key_lt.
  destruct x as [[]|[]| |[] m e], y as [[]|[]| |[] m' e']; try done; simpl;
    try (split; [done|lia]); try (split; [lia|done]).
  - destruct (Z.compare_spec e e') as [->| |]; simpl; try (split; [done|lia]); try (split; [lia|done]).
    fold (Pos.compare m m'). destruct (Pos.compare_spec m m'); simpl; split; (done || lia).
  - destruct (Z.compare_spec e e') as [->| |]; simpl; try (split; [done|lia]); try (split; [lia|done]).
    fold (Pos.compare m m'). destruct (Pos.compare_spec m m'); simpl; split; (done || lia).
Qed.

Lemma f64_key_inj x y :
  is_nan x = false -> is_nan y = false -> no_neg_zero x -> no_neg_zero y ->
  f64_key x = f64_key y -> x = y.
Proof.
  unfold no_neg_zero.
  destruct x as [[]|[]| |[] m e], y as [[]|[]| |[] m' e']; simpl; intros; simplify_eq; try done.
  do 2 f_equal; lia.
Qed.

Lemma key_lt_total a b : key_lt a b \/ a = b \/ key_lt b a.
Proof.
  destruct a as [[a1 a2] a3], b as [[b1 b2] b3]. unfold key_lt. simpl.
  destruct (Z.lt_total a1 b1) as [|[->|]]; [lia| |lia].
  destruct (Z.lt_total a2 b2) as [|[->|]]; [lia| |lia].
  destruct (Z.lt_total a3 b3) as [|[->|]]; auto with lia.
Qed.

(** A total order with a least-element choice: [min] forgets the order of its
    arguments. *)
Section extremum.
Context (lt : f64 -> f64 -> bool).

Definition extremum (x y : f64) : f64 :=
  if is_nan x then y else if is_nan y then x else if lt y x then y else x.

Definition number (x : f64) : Prop := is_nan x = false /\ no_neg_zero x.

Context (lt_trans : forall x y z, number x -> number y -> number z ->
  lt x y = true -> lt y z = true -> lt x z = true).
Context (lt_total : forall x y, number x -> number y -> lt x y = true \/ x = y \/ lt y x = true).
Context (lt_irrefl : forall x, number x -> lt x x = false).

Lemma lt_asym x y : number x -> number y -> lt x y = true -> lt y x = false.
Proof.
  intros Hx Hy Hxy. destruct (lt y x) eqn:E; [|done].
  pose proof (lt_trans x y x Hx Hy Hx Hxy E). rewrite lt_irrefl in *; done.
Qed.

Lemma extremum_comm x y : no_neg_zero x -> no_neg_zero y -> extremum x y = extremum y x.
Proof.
  intros Hx Hy. unfold extremum.
  destruct (is_nan x) eqn:Nx, (is_nan y) eqn:Ny; try done.
  { destruct x, y; done. }
  destruct (lt_total x y) as [Hl|[->|Hl]]; try done.
  - by rewrite Hl, lt_asym.
  - by rewrite Hl, lt_asym.
Qed.

Lemma extremum_number x y : number x -> number y -> number (extremum x y).
Proof. intros Hx Hy. unfold extremum. rewrite (proj1 Hx), (proj1 Hy). by destruct (lt y x). Qed.

Lemma extremum_swap c x y :
  no_neg_zero c -> no_neg_zero x -> no_neg_zero y ->
  extremum (extremum c x) y = extremum (extremum c y) x.
Proof.
  intros Hc Hx Hy.
  destruct (is_nan c) eqn:Nc.
  { unfold extremum at 2 4. rewrite Nc. by apply extremum_comm. }
  destruct (is_nan x) eqn:Nx.
  { unfold extremum at 2 3. rewrite Nc, Nx.
    destruct (is_nan (extremum c y)) eqn:E; [|done]. exfalso.
    unfold extremum in E. rewrite Nc in E. destruct (is_nan y) eqn:Ny; [congruence|].
    destruct (lt y c); congruence. }
  destruct (is_nan y) eqn:Ny.
  { unfold extremum at 1 4. rewrite Nc, Ny.
    destruct (is_nan (extremum c x)) eqn:E; [|done]. exfalso.
    unfold extremum in E. rewrite Nc, Nx in E. destruct (lt x c); congruence. }
  assert (NC : number c) by done. assert (NX : number x) by done. assert (NY : number y) by done.
  unfold extremum at 1 3. rewrite (proj1 (extremum_number c x NC NX)),
    (proj1 (extremum_number c y NC NY)), Nx, Ny. unfold extremum. rewrite Nc, Nx, Ny.
  destruct (lt x c) eqn:Exc, (lt y c) eqn:Eyc; rewrite ?Exc, ?Eyc; try done.
  - destruct (lt_total x y NX NY) as [E|[->|E]]; rewrite ?E, ?lt_asym by done; try done.
  - destruct (lt y x) eqn:Eyx; [|done]. exfalso.
    pose proof (lt_trans y x c NY NX NC Eyx Exc). congruence.
  - destruct (lt x y) eqn:Exy; [|done]. exfalso.
    pose proof (lt_trans x y c NX NY NC Exy Eyc). congruence.
Qed.
End extremum.

Lemma key_lt_trans a b c : key_lt a b -> key_lt b c -> key_lt a c.
Proof. destruct a as [[]], b as [[]], c as [[]]. unfold key_lt; simpl. lia. Qed.

Lemma f64_ltb_trans x y z : number x -> number y -> number z ->
  f64_ltb x y = true -> f64_ltb y z = true -> f64_ltb x z = true.
Proof.
  intros [] [] []. rewrite !f64_ltb_key by done. apply key_lt_trans.
Qed.

Lemma f64_ltb_total x y :
  number x -> number y -> f64_ltb x y = true \/ x = y \/ f64_ltb y x = true.
Proof.
  intros [] []. rewrite !f64_ltb_key by done.
  destruct (key_lt_total (f64_key x) (f64_key y)) as [|[|]]; auto using f64_key_inj.
Qed.

Lemma f64_ltb_irrefl x : number x -> f64_ltb x x = false.
Proof.
  intros [Hx _]. apply not_true_iff_false. rewrite f64_ltb_key by done.
  destruct (f64_key x) as [[]]. unfold key_lt. simpl. lia.
Qed.

Lemma f64_min_swap c x y :
  no_neg_zero c -> no_neg_zero x -> no_neg_zero y -> f64_min (f64_min c x) y = f64_min (f64_min c y) x.
Proof.
  apply (extremum_swap f64_ltb); eauto using f64_ltb_trans, f64_ltb_total, f64_ltb_irrefl.
Qed.

Lemma f64_min_comm x y : no_neg_zero x -> no_neg_zero y -> f64_min x y = f64_min y x.
Proof.
  apply (extremum_comm f64_ltb); eauto using f64_ltb_trans, f64_ltb_total, f64_ltb_irrefl.
Qed.

Lemma f64_max_swap c x y :
  no_neg_zero c -> no_neg_zero x -> no_neg_zero y -> f64_max (f64_max c x) y = f64_max (f64_max c y) x.
Proof.
  apply (extremum_swap f64_gtb); unfold f64_gtb.
  - intros. by apply (f64_ltb_trans z y0 x0).
  - intros x0 y0 ??. destruct (f64_ltb_total x0 y0) as [|[|]]; auto.
  - apply f64_ltb_irrefl.
Qed.

Lemma f64_max_comm x y : no_neg_zero x -> no_neg_zero y -> f64_max x y = f64_max y x.
Proof.
  apply (extremum_comm f64_gtb); unfold f64_gtb.
  - intros. by apply (f64_ltb_trans z y0 x0).
  - intros x0 y0 ??. destruct (f64_ltb_total x0 y0) as [|[|]]; auto.
  - apply f64_ltb_irrefl.
Qed.

(** [min] and [max] return one of their arguments. *)
Lemma f64_min_choice x y : f64_min x y = x \/ f64_min x y = y.
Proof. unfold f64_min. repeat case_match; auto. Qed.

Lemma f64_max_choice x y : f64_max x y = x \/ f64_max x y = y.
Proof. unfold f64_max. repeat case_match; auto. Qed.

(** [<=] on numbers is the negation of [>], and is transitive. *)
Lemma f64_leb_key x y :
  is_nan x = false -> is_nan y = false -> f64_leb x y = true <-> ~ key_lt (f64_key y) (f64_key x).
Proof.
  intros Hx Hy. rewrite <- f64_ltb_key by done.
  unfold f64_leb, f64_ltb, SFleb, SFltb. rewrite (SFcompare_antisym x y).
  destruct (SFcompare x y) as [[]|] eqn:E; simpl; try (split; [done|congruence]); try by split.
  apply SFcompare_nan in E as [?|?]; congruence.
Qed.

Lemma f64_leb_trans x y z :
  is_nan x = false -> is_nan y = false -> is_nan z = false ->
  f64_leb x y = true -> f64_leb y z = true -> f64_leb x z = true.
Proof.
  intros ???. rewrite !f64_leb_key by done.
  destruct (f64_key x) as [[]], (f64_key y) as [[]], (f64_key z) as [[]].
  unfold key_lt; simpl. lia.
Qed.

(** [iter().copied().fold(init, f64::max)] bounds every number it folds over
    and is one of them, or the initial value. *)
Lemma f64_max_fold_spec l init :
  is_nan init = false -> Forall (fun x => is_nan x = false) l ->
  let m := foldl f64_max init l in
  (m = init \/ m ∈ l) /\ is_nan m = false /\
  f64_leb init m = true /\ Forall (fun x => f64_leb x m = true) l.
Proof.
  revert init. induction l as [|x l IH]; intros init Hi Hl; simpl.
  { split_and!; auto using f64_leb_refl. }
  apply Forall_cons in Hl as [Hx Hl].
  destruct (f64_max_spec init x Hi Hx) as (Hc & Hle1 & Hle2).
  assert (Hn : is_nan (f64_max init x) = false) by (destruct Hc as [-> | ->]; done).
  destruct (IH _ Hn Hl) as (Hm & Hmn & Hi' & Hl'). split_and!.
  - rewrite elem_of_cons. destruct Hm as [Hm|]; [|by auto]. rewrite Hm. naive_solver.
  - done.
  - by eapply (f64_leb_trans _ (f64_max init x)).
  - constructor; [|done]. by eapply (f64_leb_trans _ (f64_max init x)).
Qed.
