(* ===== verification/Rounding.v ===== *)
(** Correct rounding of [SpecFloat].

    The value of a finite float is an integral number of units, the smallest
    subnormal [2^emin].  [rnd N D] rounds the rational [N / D] (in units) to the
    nearest representable number of units, ties to even: the reference the
    executable operations are compared with.  It is monotone and exact on what is
    representable; each operation of [SpecFloat] yields [rnd] of its exact result,
    unless that overflows.  Everything is stated on integers, for any precision. *)

From S2P Require Import Prelude Float.

#[local] Open Scope Z_scope.

(** ** Nearest integers *)

Lemma round_half_even_cases n d :
  0 < d -> round_half_even n d = n / d \/ round_half_even n d = n / d + 1 /\ d <= 2 * (n mod d).
Proof.
  intros Hd. unfold round_half_even. destruct (Z.compare_spec (2 * (n mod d)) d) as [He|Hl|Hg].
  - destruct (Z.even (n / d)); [auto|right; split; [done|lia]].
  - auto.
  - right. split; [done|lia].
Qed.

(** The fraction decides, not its representation. *)
Lemma round_half_even_scale n d k : 0 < d -> 0 < k -> round_half_even (n * k) (d * k) = round_half_even n d.
Proof.
  intros Hd Hk. unfold round_half_even. rewrite Z.div_mul_cancel_r, Z.mul_mod_distr_r by lia.
  replace (2 * (n mod d * k)) with (2 * (n mod d) * k) by ring.
  by rewrite <- (Zmult_compare_compat_r (2 * (n mod d)) d k) by lia.
Qed.

Lemma round_half_even_ratio n d n' d' :
  0 < d -> 0 < d' -> n * d' = n' * d -> round_half_even n d = round_half_even n' d'.
Proof.
  intros Hd Hd' He. rewrite <- (round_half_even_scale n d d'), He, (Z.mul_comm d d') by done.
  by apply round_half_even_scale.
Qed.

Lemma round_half_even_mono_num n n' d : 0 < d -> n <= n' -> round_half_even n d <= round_half_even n' d.
Proof.
  intros Hd Hn. pose proof (Z.div_le_mono n n' d Hd Hn) as Hq.
  destruct (Z.eq_dec (n / d) (n' / d)) as [He|Hne].
  - unfold round_half_even. rewrite He.
    assert (n mod d <= n' mod d) by (rewrite !Z.mod_eq by lia; rewrite He; lia).
    destruct (Z.compare_spec (2 * (n mod d)) d), (Z.compare_spec (2 * (n' mod d)) d);
      destruct (Z.even (n' / d)); lia.
  - destruct (round_half_even_cases n d Hd) as [->|[-> _]], (round_half_even_cases n' d Hd) as [->|[-> _]]; lia.
Qed.

Lemma round_half_even_mono n d n' d' :
  0 < d -> 0 < d' -> n * d' <= n' * d -> round_half_even n d <= round_half_even n' d'.
Proof.
  intros Hd Hd' Hn. rewrite <- (round_half_even_scale n d d'), <- (round_half_even_scale n' d' d) by done.
  rewrite (Z.mul_comm d' d). apply round_half_even_mono_num; lia.
Qed.

Lemma round_half_even_exact m d : 0 < d -> round_half_even (m * d) d = m.
Proof.
  intros Hd. unfold round_half_even. rewrite Z.div_mul, Z.mod_mul by lia.
  by replace (2 * 0 ?= d) with Lt by (symmetry; apply Z.compare_lt_iff; lia).
Qed.

(** An integer bound of the fraction bounds the rounded value. *)
Lemma round_half_even_le n d b : 0 < d -> n <= b * d -> round_half_even n d <= b.
Proof. intros Hd Hn. rewrite <- (round_half_even_exact b d) by done. by apply round_half_even_mono_num. Qed.

Lemma round_half_even_ge n d b : 0 < d -> b * d <= n -> b <= round_half_even n d.
Proof. intros Hd Hn. rewrite <- (round_half_even_exact b d) by done. by apply round_half_even_mono_num. Qed.

(** ** The reference rounding *)

Section reference.
Context (prec : Z) (Hprec : 1 < prec).

Definition uexp (N D : Z) : Z := Z.max 0 (Z.log2 (N / D) + 1 - prec).
Definition rnd (N D : Z) : Z := round_half_even N (D * 2 ^ uexp N D) * 2 ^ uexp N D.

Lemma uexp_nonneg N D : 0 <= uexp N D.
Proof. unfold uexp. lia. Qed.

(** A power of two is below a fraction if it is below its integral part. *)
Lemma uexp_upper N D : 0 <= N -> 0 < D -> N < D * 2 ^ (prec + uexp N D).
Proof.
  intros HN HD. pose proof (Z.div_pos N D HN HD) as Hq.
  assert (N / D < 2 ^ (prec + uexp N D)) as Hlt.
  { destruct (Z.eq_dec (N / D) 0) as [->|Hne]; [apply Z.pow_pos_nonneg; pose proof (uexp_nonneg N D); lia|].
    eapply Z.lt_le_trans; [apply Z.log2_spec; lia|]. apply Z.pow_le_mono_r; unfold uexp; lia. }
  pose proof (Z.mul_succ_div_gt N D HD). nia.
Qed.

Lemma uexp_lower N D : 0 <= N -> 0 < D -> 0 < uexp N D -> D * 2 ^ (prec - 1 + uexp N D) <= N.
Proof.
  intros HN HD Hk. pose proof (Z.mul_div_le N D HD).
  assert (2 ^ (prec - 1 + uexp N D) <= N / D).
  { unfold uexp in *. replace (prec - 1 + Z.max 0 (Z.log2 (N / D) + 1 - prec)) with (Z.log2 (N / D)) by lia.
    apply Z.log2_spec. destruct (Z.le_gt_cases (N / D) 0) as [Hle|]; [|done].
    rewrite Z.log2_nonpos in Hk by done. lia. }
  nia.
Qed.

Lemma uexp_mono N D N' D' : 0 <= N -> 0 < D -> 0 < D' -> N * D' <= N' * D -> uexp N D <= uexp N' D'.
Proof.
  intros HN HD HD' Hle. unfold uexp.
  assert (N / D <= N' / D') as Hq.
  { rewrite <- (Z.div_mul_cancel_r N D D'), <- (Z.div_mul_cancel_r N' D' D), (Z.mul_comm D' D) by lia.
    apply Z.div_le_mono; lia. }
  pose proof (Z.log2_le_mono _ _ Hq). lia.
Qed.

Lemma uexp_unique N D k :
  0 <= N -> 0 < D -> 0 <= k -> N < D * 2 ^ (prec + k) -> (k = 0 \/ D * 2 ^ (prec - 1 + k) <= N) -> uexp N D = k.
Proof.
  intros HN HD Hk Hu Hl. pose proof (uexp_nonneg N D) as Hn. pose proof (uexp_upper N D HN HD) as Hu'.
  assert (uexp N D <= k).
  { destruct (Z.le_gt_cases (uexp N D) k) as [|Hgt]; [done|]. exfalso.
    pose proof (uexp_lower N D HN HD ltac:(lia)) as Hlow.
    assert (2 ^ (prec + k) <= 2 ^ (prec - 1 + uexp N D)) by (apply Z.pow_le_mono_r; lia). nia. }
  destruct Hl as [->|Hl]; [lia|].
  destruct (Z.le_gt_cases k (uexp N D)) as [|Hgt]; [lia|]. exfalso.
  assert (2 ^ (prec + uexp N D) <= 2 ^ (prec - 1 + k)) by (apply Z.pow_le_mono_r; lia). nia.
Qed.

(** The significand has at most [prec] digits, or is [2^prec]. *)
Lemma rnd_significand N D :
  0 <= N -> 0 < D ->
  let r := round_half_even N (D * 2 ^ uexp N D) in
  0 <= r <= 2 ^ prec /\ (uexp N D = 0 \/ 2 ^ (prec - 1) <= r).
Proof.
  intros HN HD r. pose proof (uexp_nonneg N D) as Hk.
  assert (Hp : 0 < D * 2 ^ uexp N D) by (apply Z.mul_pos_pos; [done|apply Z.pow_pos_nonneg; lia]).
  pose proof (uexp_upper N D HN HD) as Hu. rewrite Z.pow_add_r in Hu by lia. split; [split|].
  - apply round_half_even_ge; lia.
  - apply round_half_even_le; [done|]. nia.
  - destruct (Z.eq_dec (uexp N D) 0) as [|Hne]; [auto|right].
    pose proof (uexp_lower N D HN HD ltac:(lia)) as Hl. rewrite Z.pow_add_r in Hl by lia.
    apply round_half_even_ge; [done|]. nia.
Qed.

Lemma rnd_nonneg N D : 0 <= N -> 0 < D -> 0 <= rnd N D.
Proof.
  intros HN HD. destruct (rnd_significand N D HN HD) as [[? _] _].
  apply Z.mul_nonneg_nonneg; [done|]. apply Z.pow_nonneg. lia.
Qed.

Lemma rnd_0 D : 0 < D -> rnd 0 D = 0.
Proof.
  intros HD. unfold rnd. rewrite (round_half_even_ratio 0 _ (0 * 1) 1), round_half_even_exact; [done..|lia| |done|lia].
  apply Z.mul_pos_pos; [done|]. apply Z.pow_pos_nonneg; [lia|apply uexp_nonneg].
Qed.

Lemma rnd_ratio N D N' D' : 0 < D -> 0 < D' -> N * D' = N' * D -> rnd N D = rnd N' D'.
Proof.
  intros HD HD' He.
  assert (Hk : uexp N D = uexp N' D').
  { unfold uexp. do 2 f_equal. f_equal. f_equal.
    by rewrite <- (Z.div_mul_cancel_r N D D'), <- (Z.div_mul_cancel_r N' D' D), (Z.mul_comm D' D), He by lia. }
  unfold rnd. rewrite Hk. f_equal.
  assert (0 < 2 ^ uexp N' D') by (apply Z.pow_pos_nonneg; [lia|apply uexp_nonneg]).
  apply round_half_even_ratio; nia.
Qed.

Theorem rnd_mono N D N' D' : 0 <= N -> 0 < D -> 0 < D' -> N * D' <= N' * D -> rnd N D <= rnd N' D'.
Proof.
  intros HN HD HD' Hle. pose proof (uexp_mono N D N' D' HN HD HD' Hle) as Hk.
  pose proof (uexp_nonneg N D) as Hk0. assert (HN' : 0 <= N') by nia.
  destruct (Z.eq_dec (uexp N D) (uexp N' D')) as [He|Hne].
  - unfold rnd. rewrite He. assert (0 < 2 ^ uexp N' D') by (apply Z.pow_pos_nonneg; lia).
    apply Z.mul_le_mono_nonneg_r; [lia|]. apply round_half_even_mono; nia.
  - destruct (rnd_significand N D HN HD) as [[_ H1] _].
    destruct (rnd_significand N' D' HN' HD') as [_ [?|H2]]; [lia|].
    transitivity (2 ^ prec * 2 ^ uexp N D).
    { apply Z.mul_le_mono_nonneg_r; [apply Z.pow_nonneg; lia|done]. }
    transitivity (2 ^ (prec - 1) * 2 ^ uexp N' D').
    { rewrite <- !Z.pow_add_r by lia. apply Z.pow_le_mono_r; lia. }
    apply Z.mul_le_mono_nonneg_r; [apply Z.pow_nonneg; lia|done].
Qed.

(** Representable values round to themselves. *)
Theorem rnd_exact m j D : 0 <= m <= 2 ^ prec -> 0 <= j -> 0 < D -> rnd (m * 2 ^ j * D) D = m * 2 ^ j.
Proof.
  intros Hm Hj HD. assert (HN : 0 <= m * 2 ^ j * D) by (pose proof (Z.pow_nonneg 2 j); nia).
  rewrite (rnd_ratio _ D (m * 2 ^ j) 1) by lia. unfold rnd.
  assert (HN1 : 0 <= m * 2 ^ j) by (pose proof (Z.pow_nonneg 2 j); nia).
  set (k := uexp (m * 2 ^ j) 1). pose proof (uexp_nonneg (m * 2 ^ j) 1) as Hk. fold k in Hk.
  rewrite Z.mul_1_l. assert (Hp : 0 < 2 ^ k) by (apply Z.pow_pos_nonneg; lia).
  assert (exists q, m * 2 ^ j = q * 2 ^ k) as [q ->]; [|by rewrite round_half_even_exact].
  destruct (Z.le_gt_cases k j) as [Hle|Hgt].
  - exists (m * 2 ^ (j - k)). rewrite <- Z.mul_assoc, <- Z.pow_add_r by lia. do 2 f_equal. lia.
  - exists (2 ^ (prec - 1)). rewrite <- Z.pow_add_r by lia.
    pose proof (uexp_lower (m * 2 ^ j) 1 HN1 ltac:(lia) ltac:(fold k; lia)) as Hl. fold k in Hl.
    assert (m * 2 ^ j <= 2 ^ (prec - 1 + k)); [|lia].
    transitivity (2 ^ (prec + j)); [rewrite Z.pow_add_r by lia; apply Z.mul_le_mono_nonneg_r; [apply Z.pow_nonneg|]; lia|].
    apply Z.pow_le_mono_r; lia.
Qed.
End reference.

(** ** Shifting with a location *)

(** [N / D] lies in [[m, m + 1)], at location [l]. *)
Definition located (m : Z) (l : location) (N D : Z) : Prop :=
  match l with
  | loc_Exact => N = m * D
  | loc_Inexact c => m * D < N < (m + 1) * D /\ Z.compare (2 * (N - m * D)) D = c
  end.

Lemma located_floor m l N D : 0 < D -> located m l N D -> m * D <= N < (m + 1) * D.
Proof. intros HD. destruct l; simpl; lia. Qed.

Lemma round_located m l N D :
  0 < D -> located m l N D -> round_nearest_even m l = round_half_even N D.
Proof.
  intros HD Hl. destruct l as [|c]; simpl in *.
  { subst N. by rewrite round_half_even_exact. }
  destruct Hl as [Hb Hc]. unfold round_half_even.
  assert (Hq : N / D = m) by (symmetry; apply (Z.div_unique_pos _ _ _ (N - m * D)); lia).
  rewrite Z.mod_eq, Hq by lia. replace (N - D * m) with (N - m * D) by ring. by rewrite Hc.
Qed.

Lemma loc_record m l : loc_of_shr_record (shr_record_of_loc m l) = l /\ shr_m (shr_record_of_loc m l) = m.
Proof. by destruct l as [|[]]. Qed.

Lemma shr_1_located r N D :
  0 < D -> 0 <= shr_m r -> located (shr_m r) (loc_of_shr_record r) N D ->
  0 <= shr_m (shr_1 r) /\ located (shr_m (shr_1 r)) (loc_of_shr_record (shr_1 r)) N (D * 2).
Proof.
  intros HD Hm Hl. destruct r as [m [] []]; simpl in *;
    (destruct m as [|[p|p|]|]; simpl in *; [..|lia]; split; try lia);
    rewrite ?Z.compare_lt_iff, ?Z.compare_gt_iff, ?Z.compare_eq_iff in *; lia.
Qed.

Lemma iter_pos_add {A} (f : A -> A) p x : iter_pos f p x = Pos.iter f x p.
Proof.
  revert x. induction p as [p IH|p IH|]; intros x; simpl; [|by rewrite !IH|done].
  rewrite !IH. by rewrite <- !Pos.iter_swap.
Qed.

Lemma iter_shr_located p r N D :
  0 < D -> 0 <= shr_m r -> located (shr_m r) (loc_of_shr_record r) N D ->
  let r' := iter_pos shr_1 p r in
  0 <= shr_m r' /\ located (shr_m r') (loc_of_shr_record r') N (D * 2 ^ Zpos p).
Proof.
  intros HD Hm Hl. simpl. rewrite iter_pos_add.
  induction p as [|p IH] using Pos.peano_ind.
  - by apply shr_1_located.
  - rewrite Pos.iter_succ. destruct IH as [IH1 IH2].
    rewrite Pos2Z.inj_succ, Z.pow_succ_r, (Z.mul_comm 2), Z.mul_assoc by lia.
    apply shr_1_located; [|done|done]. apply Z.mul_pos_pos; [done|]. by apply Z.pow_pos_nonneg.
Qed.

Lemma digits_log2 p : Zdigits2 (Zpos p) = Z.log2 (Zpos p) + 1.
Proof.
  unfold Zdigits2. induction p as [p IH|p IH|]; cbn [digits2_pos]; [..|done].
  - rewrite Pos2Z.inj_succ, IH, (Pos2Z.inj_xI p), Z.log2_succ_double by lia. lia.
  - rewrite Pos2Z.inj_succ, IH, (Pos2Z.inj_xO p), Z.log2_double by lia. lia.
Qed.

Lemma digits_bounds p : 2 ^ (Zdigits2 (Zpos p) - 1) <= Zpos p < 2 ^ Zdigits2 (Zpos p).
Proof.
  rewrite digits_log2. replace (Z.log2 (Z.pos p) + 1 - 1) with (Z.log2 (Z.pos p)) by lia.
  by apply Z.log2_spec.
Qed.

Lemma digits_unique p d : 0 < d -> 2 ^ (d - 1) <= Zpos p < 2 ^ d -> Zdigits2 (Zpos p) = d.
Proof.
  intros Hd Hp. rewrite digits_log2, (Z.log2_unique (Zpos p) (d - 1)); [lia|lia|].
  by replace (Z.succ (d - 1)) with d by lia.
Qed.

(** ** The operations *)

Section floats.
Context (prec emax : Z) (Hprec : 1 < prec) (Hemax : prec < emax).

Abbreviation emin := (emin prec emax) (only parsing).
Abbreviation fexp := (fexp prec emax) (only parsing).
Abbreviation rnd := (rnd prec) (only parsing).
Abbreviation valid := (valid_binary prec emax) (only parsing).

Definition units (f : spec_float) : Z :=
  match f with S754_finite s m e => cond_Zopp s (Zpos m * 2 ^ (e - emin)) | _ => 0 end.

(** A finite float in canonical form. *)
Definition proper (f : spec_float) : Prop := is_finite f = true /\ valid f = true.

Lemma emin_neg : emin < 0.
Proof. unfold SpecFloat.emin. lia. Qed.

Lemma canonical_exponent m e : proper (S754_finite false m e) -> emin <= e <= emax - prec.
Proof.
  intros [_ Hb]. simpl in Hb. unfold bounded, canonical_mantissa in Hb.
  apply andb_true_iff in Hb as [Hc%Z.eqb_eq He%Z.leb_le]. unfold SpecFloat.fexp in Hc. lia.
Qed.

(** The second normalisation: a significand [r] of at most [prec] digits or
    [2^prec]. *)
Lemma normalised s r e :
  0 <= r <= 2 ^ prec -> emin <= e -> (e = emin \/ 2 ^ (prec - 1) <= r) ->
  r * 2 ^ (e - emin) < 2 ^ (emax - emin) ->
  let f := let '(mrs, e'') := shr_fexp prec emax r e loc_Exact in
           match shr_m mrs with
           | Z0 => S754_zero s
           | Zpos m => if Z.leb e'' (Z.sub emax prec) then S754_finite s m e'' else S754_infinity s
           | _ => S754_nan
           end in
  proper f /\ units f = cond_Zopp s (r * 2 ^ (e - emin)).
Proof.
  intros Hr He Hn Hmax. unfold shr_fexp. simpl shr_record_of_loc.
  assert (Hem : emin = 3 - emax - prec) by done.
  destruct (Z.eq_dec r 0) as [->|Hr0].
  { assert (Hs : fexp (Zdigits2 0 + e) - e <= 0) by (unfold SpecFloat.fexp; simpl; lia).
    destruct (fexp (Zdigits2 0 + e) - e); simpl; [..|lia|]; (split; [done|by destruct s]). }
  destruct r as [|p|p]; [lia| |lia]. pose proof (digits_bounds p) as Hd.
  set (d := Zdigits2 (Zpos p)) in *.
  assert (Hd0 : 0 < d) by (unfold d; simpl; lia).
  assert (Hdle : d <= prec + 1).
  { destruct (Z.le_gt_cases d (prec + 1)) as [|Hgt]; [done|].
    assert (2 ^ (prec + 1) <= 2 ^ (d - 1)) by (apply Z.pow_le_mono_r; lia).
    assert (2 ^ prec < 2 ^ (prec + 1)) by (apply Z.pow_lt_mono_r; lia). lia. }
  destruct (Z.eq_dec d (prec + 1)) as [Hd1|Hd1].
  - (* carry *)
    assert (Hp : Zpos p = 2 ^ prec) by (rewrite Hd1 in Hd; replace (prec + 1 - 1) with prec in Hd by lia; lia).
    assert (Hpq : exists q, Zpos q = 2 ^ (prec - 1)) by (pose proof (Z.pow_pos_nonneg 2 (prec - 1));
      destruct (2 ^ (prec - 1)) as [|q|]; [lia|by exists q|lia]).
    destruct Hpq as [q Hq].
    assert (Hpx : p = xO q).
    { apply Pos2Z.inj. rewrite Pos2Z.inj_xO, Hp, Hq, <- Z.pow_succ_r by lia. f_equal. lia. }
    assert (Hs : fexp (d + e) - e = 1) by (unfold SpecFloat.fexp; rewrite Hd1; lia).
    rewrite Hs, Hpx. simpl.
    assert (Hle : e + 1 <= emax - prec).
    { rewrite Hp, <- Z.pow_add_r in Hmax by lia. apply Z.pow_lt_mono_r_iff in Hmax; [|lia|lia]. lia. }
    rewrite (proj2 (Z.leb_le _ _) Hle). split.
    + split; [done|]. simpl. unfold bounded, canonical_mantissa. apply andb_true_iff. split; [|by apply Z.leb_le].
      apply Z.eqb_eq. unfold SpecFloat.fexp.
      change (Z.pos (digits2_pos q)) with (Zdigits2 (Zpos q)). rewrite (digits_unique q prec); [lia|lia|].
      rewrite Hq. split; [lia|]. apply Z.pow_lt_mono_r; lia.
    + simpl. f_equal. replace (e + 1 - emin) with (Z.succ (e - emin)) by lia.
      rewrite Z.pow_succ_r by lia. rewrite (Pos2Z.inj_xO q). ring.
  - assert (Hs : fexp (d + e) = e).
    { unfold SpecFloat.fexp. destruct Hn as [->|Hn]; [lia|].
      assert (prec <= d); [|lia]. destruct (Z.le_gt_cases prec d) as [|Hlt]; [done|].
      assert (2 ^ d <= 2 ^ (prec - 1)) by (apply Z.pow_le_mono_r; lia). lia. }
    rewrite Hs, Z.sub_diag. simpl.
    assert (Hle : e <= emax - prec).
    { destruct Hn as [->|Hn]; [unfold SpecFloat.emin; lia|].
      assert (2 ^ (prec - 1) * 2 ^ (e - emin) < 2 ^ (emax - emin)).
      { eapply Z.le_lt_trans; [|exact Hmax]. apply Z.mul_le_mono_nonneg_r; [apply Z.pow_nonneg; lia|done]. }
      rewrite <- Z.pow_add_r in H by lia. apply Z.pow_lt_mono_r_iff in H; [|lia|unfold SpecFloat.emin; lia]. lia. }
    rewrite (proj2 (Z.leb_le _ _) Hle). split; [|done]. split; [done|]. simpl.
    unfold bounded, canonical_mantissa. apply andb_true_iff. split; [|by apply Z.leb_le].
    apply Z.eqb_eq. exact Hs.
Qed.

Lemma digits_nonneg m : 0 <= m -> 0 <= Zdigits2 m /\ m < 2 ^ Zdigits2 m.
Proof.
  intros Hm. destruct m as [|p|]; [done| |lia]. pose proof (digits_bounds p). split; [simpl|]; lia.
Qed.

(** Rounding of [N0 / D0 * 2^ex], given by its leading digits. *)
Lemma round_aux_spec s mx ex lx N0 D0 N D :
  0 <= mx -> 0 < D0 -> located mx lx N0 D0 -> ex <= fexp (Zdigits2 mx + ex) -> 0 <= N -> 0 < D ->
  N * (D0 * 2 ^ Z.max 0 (emin - ex)) = N0 * 2 ^ Z.max 0 (ex - emin) * D ->
  rnd N D < 2 ^ (emax - emin) ->
  let f := binary_round_aux prec emax s mx ex lx in
  proper f /\ units f = cond_Zopp s (rnd N D).
Proof.
  intros Hm HD0 Hloc Hex HN HD Hratio Hmax. unfold binary_round_aux.
  destruct (digits_nonneg mx Hm) as [Hd0 Hdlt]. set (d := Zdigits2 mx) in *.
  destruct (located_floor mx lx N0 D0 HD0 Hloc) as [Hlo Hhi].
  set (n := fexp (d + ex) - ex) in *. assert (Hn : 0 <= n) by lia.
  set (a := Z.max 0 (ex - emin)) in *. set (b := Z.max 0 (emin - ex)) in *.
  set (k := ex + n - emin).
  assert (Hfe : ex + n = Z.max (d + ex - prec) emin) by (unfold n, SpecFloat.fexp; lia).
  assert (Hab : a + n = k + b) by lia. assert (Hk0 : 0 <= k) by lia.
  assert (Ha : 0 < 2 ^ a) by (apply Z.pow_pos_nonneg; lia). assert (Hb : 0 < 2 ^ b) by (apply Z.pow_pos_nonneg; lia).
  assert (Hpn : 0 < 2 ^ n) by (apply Z.pow_pos_nonneg; lia). assert (Hpk : 0 < 2 ^ k) by (apply Z.pow_pos_nonneg; lia).
  assert (Hpow : 2 ^ a * 2 ^ n = 2 ^ k * 2 ^ b) by (rewrite <- !Z.pow_add_r by lia; by f_equal).
  assert (Hcross : N * (D0 * 2 ^ n) = N0 * (D * 2 ^ k)).
  { apply (Z.mul_reg_r _ _ (2 ^ b)); [lia|].
    replace (N * (D0 * 2 ^ n) * 2 ^ b) with (N * (D0 * 2 ^ b) * 2 ^ n) by ring. rewrite Hratio.
    replace (N0 * 2 ^ a * D * 2 ^ n) with (N0 * D * (2 ^ a * 2 ^ n)) by ring. rewrite Hpow. ring. }
  assert (Huexp : uexp prec N D = k).
  { apply uexp_unique; try done; rewrite Z.pow_add_r by lia.
    - assert (N0 < 2 ^ prec * 2 ^ n * D0) as Hup.
      { assert (2 ^ d <= 2 ^ prec * 2 ^ n) by (rewrite <- Z.pow_add_r by lia; apply Z.pow_le_mono_r; lia). nia. }
      apply (Z.mul_lt_mono_pos_r (D0 * 2 ^ n)); [nia|]. rewrite Hcross.
      replace (D * (2 ^ prec * 2 ^ k) * (D0 * 2 ^ n)) with (2 ^ prec * 2 ^ n * D0 * (D * 2 ^ k)) by ring.
      apply Z.mul_lt_mono_pos_r; nia.
    - destruct (Z.eq_dec k 0) as [|Hk]; [auto|right].
      assert (Hdn : d = prec + n) by lia. destruct mx as [|p|]; [unfold d in Hdn; simpl in Hdn; lia| |lia].
      pose proof (digits_bounds p) as [Hp _]. fold d in Hp.
      replace (d - 1) with (prec - 1 + n) in Hp by lia. rewrite Z.pow_add_r in Hp by lia.
      apply (Z.mul_le_mono_pos_r _ _ (D0 * 2 ^ n)); [nia|]. rewrite Hcross.
      replace (D * (2 ^ (prec - 1) * 2 ^ k) * (D0 * 2 ^ n)) with (2 ^ (prec - 1) * 2 ^ n * D0 * (D * 2 ^ k)) by ring.
      apply Z.mul_le_mono_pos_r; nia. }
  assert (Hshr : exists r', shr_fexp prec emax mx ex lx = (r', ex + n) /\
    round_nearest_even (shr_m r') (loc_of_shr_record r') = round_half_even N (D * 2 ^ k)).
  { unfold shr_fexp. fold d n. destruct (loc_record mx lx) as [Hl1 Hm1].
    assert (Hround : forall r', located (shr_m r') (loc_of_shr_record r') N0 (D0 * 2 ^ n) ->
      round_nearest_even (shr_m r') (loc_of_shr_record r') = round_half_even N (D * 2 ^ k)).
    { intros r' Hr'. rewrite (round_located _ _ N0 (D0 * 2 ^ n)) by (done || nia).
      apply round_half_even_ratio; nia. }
    destruct n as [|p|p] eqn:En; [| |lia].
    - exists (shr_record_of_loc mx lx). split; [simpl; by rewrite Z.add_0_r|]. apply Hround.
      by rewrite Hl1, Hm1, Z.pow_0_r, Z.mul_1_r.
    - eexists. split; [reflexivity|]. apply Hround. apply iter_shr_located; [done| |]; by rewrite ?Hl1, ?Hm1. }
  destruct Hshr as (r' & -> & ->). unfold Rounding.rnd. rewrite Huexp.
  destruct (rnd_significand prec Hprec N D HN HD) as [Hr1 Hr2]. rewrite Huexp in Hr1, Hr2.
  replace k with (ex + n - emin) in * by done.
  apply normalised; [done|lia|lia|]. unfold Rounding.rnd in Hmax. by rewrite Huexp in Hmax.
Qed.

(** Rounding of a signed value. *)
Definition srnd (N D : Z) : Z := Z.sgn N * rnd (Z.abs N) D.

Lemma srnd_nonneg N D : 0 <= N -> 0 < D -> srnd N D = rnd N D.
Proof.
  intros HN HD. unfold srnd. rewrite Z.abs_eq by done. destruct (Z.eq_dec N 0) as [->|Hne].
  - by rewrite rnd_0.
  - rewrite Z.sgn_pos by lia. lia.
Qed.

Lemma srnd_opp N D : srnd (- N) D = - srnd N D.
Proof. unfold srnd. rewrite Z.sgn_opp, Z.abs_opp. lia. Qed.

Lemma srnd_abs N D : 0 < D -> Z.abs (srnd N D) = rnd (Z.abs N) D.
Proof.
  intros HD. destruct (Z.le_ge_cases 0 N) as [HN|HN].
  - rewrite srnd_nonneg, (Z.abs_eq N) by done. apply Z.abs_eq. by apply rnd_nonneg.
  - rewrite <- (Z.opp_involutive N), srnd_opp, Z.abs_opp, srnd_nonneg, Z.abs_opp, (Z.abs_eq (- N)) by lia.
    apply Z.abs_eq. apply rnd_nonneg; lia.
Qed.

Lemma srnd_mono N D N' D' : 0 < D -> 0 < D' -> N * D' <= N' * D -> srnd N D <= srnd N' D'.
Proof.
  intros HD HD' Hle. destruct (Z.le_ge_cases 0 N) as [HN|HN].
  - assert (0 <= N') by nia. rewrite !srnd_nonneg by done. by apply rnd_mono.
  - destruct (Z.le_ge_cases 0 N') as [HN'|HN'].
    + pose proof (srnd_abs N D HD) as Ha. rewrite (srnd_nonneg N') by done.
      pose proof (rnd_nonneg prec Hprec N' D' HN' HD').
      assert (srnd N D <= 0); [|lia]. rewrite <- (Z.opp_involutive N), srnd_opp, srnd_nonneg by lia.
      pose proof (rnd_nonneg prec Hprec (- N) D ltac:(lia) HD). lia.
    + rewrite <- (Z.opp_involutive N), <- (Z.opp_involutive N'), (srnd_opp (- N)), (srnd_opp (- N')).
      rewrite !srnd_nonneg by lia. apply (proj1 (Z.opp_le_mono _ _)), rnd_mono; lia.
Qed.

(** What has at most [prec] significant digits. *)
Definition representable (u : Z) : Prop := exists m j, 0 <= m <= 2 ^ prec /\ 0 <= j /\ Z.abs u = m * 2 ^ j.

Lemma srnd_exact u D : representable u -> 0 < D -> srnd (u * D) D = u.
Proof.
  intros (m & j & Hm & Hj & Hu) HD.
  assert (Hr : rnd (Z.abs u * D) D = Z.abs u) by (rewrite Hu; by apply rnd_exact).
  destruct (Z.le_ge_cases 0 u) as [Hs|Hs].
  - rewrite srnd_nonneg by nia. rewrite Z.abs_eq in Hr by done. done.
  - replace (u * D) with (- (- u * D)) by ring. rewrite srnd_opp, srnd_nonneg by nia.
    rewrite Z.abs_neq in Hr by done. lia.
Qed.

Lemma srnd_exact_1 u : representable u -> srnd u 1 = u.
Proof. intros Hu. rewrite <- (Z.mul_1_r u) at 1. by apply srnd_exact. Qed.

(** A rounded value stays between representable bounds. *)
Lemma srnd_le N D u : 0 < D -> representable u -> N <= u * D -> srnd N D <= u.
Proof. intros HD Hu HN. rewrite <- (srnd_exact u D Hu HD). apply srnd_mono; nia. Qed.

Lemma srnd_ge N D u : 0 < D -> representable u -> u * D <= N -> u <= srnd N D.
Proof. intros HD Hu HN. rewrite <- (srnd_exact u D Hu HD). apply srnd_mono; nia. Qed.

Lemma representable_opp u : representable u -> representable (- u).
Proof. unfold representable. by rewrite Z.abs_opp. Qed.

Lemma units_bound f : proper f -> Z.abs (units f) < 2 ^ (emax - emin) /\ representable (units f).
Proof.
  intros [Hf Hv]. assert (Hem : emin = 3 - emax - prec) by done.
  assert (H0 : Z.abs 0 < 2 ^ (emax - emin) /\ representable 0).
  { split; [apply Z.pow_pos_nonneg; lia|]. exists 0, 0. split_and!; [done|apply Z.pow_nonneg; lia|done|done]. }
  destruct f as [s|s| |s m e]; try done. simpl in *. unfold bounded, canonical_mantissa in Hv.
  apply andb_true_iff in Hv as [Hc%Z.eqb_eq He%Z.leb_le]. unfold SpecFloat.fexp in Hc.
  pose proof (digits_bounds m) as Hd. simpl in Hd. set (d := Z.pos (digits2_pos m)) in *.
  assert (Hm : Zpos m < 2 ^ prec).
  { eapply Z.lt_le_trans; [apply Hd|]. apply Z.pow_le_mono_r; lia. }
  assert (Ha : Z.abs (cond_Zopp s (Zpos m * 2 ^ (e - emin))) = Zpos m * 2 ^ (e - emin)).
  { pose proof (Z.pow_nonneg 2 (e - emin)). destruct s; simpl; lia. }
  rewrite Ha. split.
  - apply Z.lt_le_trans with (2 ^ prec * 2 ^ (e - emin)).
    + apply Z.mul_lt_mono_pos_r; [apply Z.pow_pos_nonneg; lia|done].
    + rewrite <- Z.pow_add_r by lia. apply Z.pow_le_mono_r; lia.
  - exists (Zpos m), (e - emin). split_and!; [lia|lia|lia|done].
Qed.

Lemma shl_align_spec m e e' :
  Zpos (shl_align m e e').1 = Zpos m * 2 ^ Z.max 0 (e - e') /\ (shl_align m e e').2 = Z.min e e'.
Proof.
  unfold shl_align. destruct (e' - e) as [|d|d] eqn:Hd; simpl.
  - rewrite Z.max_l by lia. lia.
  - rewrite Z.max_l by lia. lia.
  - replace (Z.max 0 (e - e')) with (Zpos d) by lia. split; [|lia].
    clear. induction d as [|d IH] using Pos.peano_ind; [simpl; lia|].
    rewrite Pos.iter_succ, (Pos2Z.inj_xO (Pos.iter _ _ _)), IH, Pos2Z.inj_succ, Z.pow_succ_r by lia. ring.
Qed.

Lemma digits_shift p q n : 0 <= n -> Zpos q = Zpos p * 2 ^ n -> Zdigits2 (Zpos q) = Zdigits2 (Zpos p) + n.
Proof.
  intros Hn Hq. pose proof (digits_bounds p) as Hp.
  assert (Hd : 0 < Zdigits2 (Zpos p)) by (simpl; lia).
  apply digits_unique; [lia|]. rewrite Hq.
  replace (Zdigits2 (Z.pos p) + n - 1) with (Zdigits2 (Z.pos p) - 1 + n) by lia.
  rewrite !Z.pow_add_r by lia. assert (0 < 2 ^ n) by (apply Z.pow_pos_nonneg; lia). nia.
Qed.

Lemma binary_round_spec s p e :
  emin <= e -> rnd (Zpos p * 2 ^ (e - emin)) 1 < 2 ^ (emax - emin) ->
  let f := binary_round prec emax s p e in
  proper f /\ units f = cond_Zopp s (rnd (Zpos p * 2 ^ (e - emin)) 1).
Proof.
  intros He Hmax. unfold binary_round.
  pose proof (shl_align_spec p e (fexp (Zdigits2 (Zpos p) + e))) as [Hz1 Hz2]. simpl Zdigits2 in Hz1, Hz2.
  destruct (shl_align _ _ _) as [mz ez]. simpl in Hz1, Hz2.
  change (Z.pos (digits2_pos p)) with (Zdigits2 (Z.pos p)) in *.
  set (x := fexp (Zdigits2 (Z.pos p) + e)) in *.
  assert (Hx : emin <= x) by (unfold x, SpecFloat.fexp; lia).
  eapply (round_aux_spec s (Zpos mz) ez loc_Exact (Zpos mz) 1); try done; try lia.
  - simpl. lia.
  - rewrite (digits_shift p mz (Z.max 0 (e - x))) by (done || lia).
    replace (Zdigits2 (Z.pos p) + Z.max 0 (e - x) + ez) with (Zdigits2 (Z.pos p) + e) by lia. fold x. lia.
  - rewrite (Z.max_l 0 (emin - ez)), (Z.max_r 0 (ez - emin)), Hz1 by lia.
    rewrite Z.pow_0_r, !Z.mul_1_r, <- Z.mul_assoc, <- Z.pow_add_r by lia. do 2 f_equal. lia.
Qed.

Lemma normalize_spec m e z :
  emin <= e -> rnd (Z.abs m * 2 ^ (e - emin)) 1 < 2 ^ (emax - emin) ->
  let f := binary_normalize prec emax m e z in
  proper f /\ units f = srnd (m * 2 ^ (e - emin)) 1.
Proof.
  intros He Hmax. assert (Hp : 0 < 2 ^ (e - emin)) by (apply Z.pow_pos_nonneg; lia).
  destruct m as [|p|p]; simpl binary_normalize.
  - split; [done|]. by rewrite Z.mul_0_l, srnd_nonneg, rnd_0 by done.
  - rewrite srnd_nonneg by lia. by apply binary_round_spec.
  - replace (Zneg p * 2 ^ (e - emin)) with (- (Zpos p * 2 ^ (e - emin))) by lia.
    rewrite srnd_opp, srnd_nonneg by lia. by apply (binary_round_spec true).
Qed.

Lemma units_zero_iff f : proper f -> units f = 0 <-> exists s, f = S754_zero s.
Proof.
  intros Hf. split; [|by intros [s ->]]. destruct f as [s|s| |s m e]; try by destruct Hf.
  - eauto.
  - intros Hu. exfalso. simpl in Hu. assert (0 < Zpos m * 2 ^ (e - emin)).
    { apply Z.mul_pos_pos; [lia|]. apply Z.pow_pos_nonneg; [lia|].
      pose proof (canonical_exponent m e Hf). lia. }
    destruct s; simpl in Hu; lia.
Qed.

Lemma finite_exponent s m e : proper (S754_finite s m e) -> emin <= e.
Proof. intros Hf. by apply (canonical_exponent m e Hf). Qed.

(** The exact sum, aligned. *)
Lemma aligned s m e x : emin <= x <= e ->
  cond_Zopp s (Zpos (shl_align m e x).1) * 2 ^ (x - emin) = units (S754_finite s m e).
Proof.
  intros Hx. rewrite (proj1 (shl_align_spec m e x)), Z.max_r by lia. simpl.
  assert (Hp : Zpos m * 2 ^ (e - x) * 2 ^ (x - emin) = Zpos m * 2 ^ (e - emin)).
  { rewrite <- Z.mul_assoc, <- Z.pow_add_r by lia. do 2 f_equal. lia. }
  destruct s; simpl; lia.
Qed.

Theorem add_spec x y :
  proper x -> proper y -> Z.abs (srnd (units x + units y) 1) < 2 ^ (emax - emin) ->
  proper (SFadd prec emax x y) /\ units (SFadd prec emax x y) = srnd (units x + units y) 1.
Proof.
  intros Hx Hy Hmax.
  assert (Hid : forall f, proper f -> proper f /\ units f = srnd (units f) 1).
  { intros f Hf. split; [done|]. symmetry. apply srnd_exact_1. by apply units_bound. }
  destruct x as [sx|sx| |sx mx ex], y as [sy|sy| |sy my ey]; try by destruct Hx; try by destruct Hy.
  - by destruct sx, sy.
  - by apply (Hid (S754_finite sy my ey)).
  - simpl. rewrite Z.add_0_r. by apply (Hid (S754_finite sx mx ex)).
  - pose proof (finite_exponent _ _ _ Hx). pose proof (finite_exponent _ _ _ Hy).
    set (ez := Z.min ex ey). rewrite srnd_abs in Hmax by lia.
    assert (Hsum : units (S754_finite sx mx ex) + units (S754_finite sy my ey) =
      (cond_Zopp sx (Zpos (shl_align mx ex ez).1) + cond_Zopp sy (Zpos (shl_align my ey ez).1)) * 2 ^ (ez - emin)).
    { rewrite <- (aligned sx mx ex ez), <- (aligned sy my ey ez) by lia. ring. }
    rewrite Hsum in *. apply normalize_spec; [lia|].
    by rewrite Z.abs_mul, (Z.abs_eq (2 ^ _)) in Hmax by (apply Z.pow_nonneg; lia).
Qed.

Lemma proper_opp x : proper x -> proper (SFopp x) /\ units (SFopp x) = - units x.
Proof. intros [Hf Hv]. destruct x as [| | |[]]; try done; simpl; (split; [done|lia]). Qed.

(** A difference is the sum with the opposite, up to the sign of zero. *)
Theorem sub_spec x y :
  proper x -> proper y -> Z.abs (srnd (units x - units y) 1) < 2 ^ (emax - emin) ->
  proper (SFsub prec emax x y) /\ units (SFsub prec emax x y) = srnd (units x - units y) 1.
Proof.
  intros Hx Hy Hmax. destruct (proper_opp y Hy) as [Hy' Hu]. rewrite <- Z.add_opp_r, <- Hu in *.
  assert (He : SFsub prec emax x y = SFadd prec emax x (SFopp y)).
  { destruct x as [[]|[]| |sx mx ex], y as [[]|[]| |sy my ey]; try done; simpl; f_equal.
    destruct sy; simpl; lia. }
  rewrite He. by apply add_spec.
Qed.

Lemma mul_digits p q : Zdigits2 (Zpos p) + Zdigits2 (Zpos q) - 1 <= Zdigits2 (Zpos (p * q)).
Proof.
  rewrite !digits_log2, Pos2Z.inj_mul. pose proof (Z.log2_mul_below (Zpos p) (Zpos q)). lia.
Qed.

Theorem mul_spec x y :
  proper x -> proper y -> Z.abs (srnd (units x * units y) (2 ^ (- emin))) < 2 ^ (emax - emin) ->
  proper (SFmul prec emax x y) /\ units (SFmul prec emax x y) = srnd (units x * units y) (2 ^ (- emin)).
Proof.
  intros Hx Hy Hmax. pose proof emin_neg as Hneg. assert (HD : 0 < 2 ^ (- emin)) by (apply Z.pow_pos_nonneg; lia).
  assert (Hz : srnd 0 (2 ^ (- emin)) = 0) by (by rewrite srnd_nonneg, rnd_0).
  destruct x as [sx|sx| |sx mx ex], y as [sy|sy| |sy my ey]; try by destruct Hx; try by destruct Hy.
  - cbn [units]. by rewrite Z.mul_0_r, Hz.
  - rewrite srnd_abs in Hmax by done. simpl SFmul.
    pose proof (finite_exponent _ _ _ Hx) as Hex. pose proof (finite_exponent _ _ _ Hy) as Hey.
    set (N := (Zpos mx * 2 ^ (ex - emin)) * (Zpos my * 2 ^ (ey - emin))).
    assert (HN : 0 <= N) by (unfold N; pose proof (Z.pow_nonneg 2 (ex - emin)); pose proof (Z.pow_nonneg 2 (ey - emin)); nia).
    assert (Hu : units (S754_finite sx mx ex) * units (S754_finite sy my ey) = cond_Zopp (xorb sx sy) N).
    { unfold N. destruct sx, sy; simpl; ring. }
    assert (Hab : Z.abs (cond_Zopp (xorb sx sy) N) = N) by (destruct (xorb sx sy); simpl; lia).
    assert (Hsr : srnd (cond_Zopp (xorb sx sy) N) (2 ^ (- emin)) = cond_Zopp (xorb sx sy) (rnd N (2 ^ (- emin)))).
    { destruct (xorb sx sy); simpl; rewrite ?srnd_opp, srnd_nonneg by done; done. }
    rewrite Hu in *. rewrite Hsr. rewrite Hab in Hmax.
    eapply (round_aux_spec (xorb sx sy) (Zpos (mx * my)) (ex + ey) loc_Exact (Zpos (mx * my)) 1);
      try done; [simpl; lia| |].
    + (* enough digits *)
      pose proof (mul_digits mx my) as Hd. destruct Hx as [_ Hx], Hy as [_ Hy]. simpl in Hx, Hy.
      unfold bounded, canonical_mantissa in Hx, Hy. apply andb_true_iff in Hx as [Hx%Z.eqb_eq _].
      apply andb_true_iff in Hy as [Hy%Z.eqb_eq _].
      change (Z.pos (digits2_pos mx)) with (Zdigits2 (Zpos mx)) in Hx.
      change (Z.pos (digits2_pos my)) with (Zdigits2 (Zpos my)) in Hy.
      assert (0 < Zdigits2 (Zpos mx) /\ 0 < Zdigits2 (Zpos my)) by (simpl; lia).
      unfold SpecFloat.fexp in *. lia.
    + unfold N. rewrite Pos2Z.inj_mul.
      assert (Hpow : 2 ^ (ex - emin) * 2 ^ (ey - emin) * 2 ^ Z.max 0 (emin - (ex + ey)) =
        2 ^ Z.max 0 (ex + ey - emin) * 2 ^ (- emin)).
      { rewrite <- !Z.pow_add_r by lia. f_equal. lia. }
      replace (Z.pos mx * Z.pos my * 2 ^ Z.max 0 (ex + ey - emin) * 2 ^ (- emin)) with
        (Z.pos mx * Z.pos my * (2 ^ Z.max 0 (ex + ey - emin) * 2 ^ (- emin))) by ring.
      rewrite <- Hpow. ring.
Qed.

Lemma new_location_spec q r d : 0 < d -> 0 <= r < d -> located q (new_location d r) (q * d + r) d.
Proof.
  intros Hd Hr. unfold new_location. destruct (Z.even d) eqn:He; unfold new_location_even, new_location_odd;
    (destruct (Z.eqb_spec r 0) as [->|Hr0]; [cbn [located]; lia|]); cbn [located]; (split; [lia|]);
    replace (2 * (q * d + r - q * d)) with (2 * r) by ring; [done|].
  assert (2 * r <> d) by (intros Heq; by rewrite <- Heq, Z.even_mul in He).
  destruct (Z.compare_spec (2 * r + 1) d); [apply Z.compare_lt_iff|apply Z.compare_lt_iff|apply Z.compare_gt_iff]; lia.
Qed.

Lemma quotient_digits p s m q :
  0 <= s -> q = Zpos p * 2 ^ s / Zpos m -> Zdigits2 (Zpos p) + s - Zdigits2 (Zpos m) <= Zdigits2 q.
Proof.
  intros Hs ->. pose proof (digits_bounds p) as [Hp _]. pose proof (digits_bounds m) as [_ Hm].
  set (d1 := Zdigits2 (Zpos p)) in *. set (d2 := Zdigits2 (Zpos m)) in *.
  assert (0 < d1 /\ 0 < d2) as [H1 H2] by (unfold d1, d2; simpl; lia).
  assert (Hps : 0 < 2 ^ s) by (apply Z.pow_pos_nonneg; lia).
  assert (Hq0 : 0 <= Zpos p * 2 ^ s / Zpos m) by (apply Z.div_pos; nia).
  destruct (Z.le_gt_cases (d1 + s - d2) 0) as [Hle|Hgt].
  { destruct (digits_nonneg _ Hq0). lia. }
  assert (Hq : 2 ^ (d1 + s - d2 - 1) <= Zpos p * 2 ^ s / Zpos m).
  { apply Z.div_le_lower_bound; [done|].
    assert (Hpw : 2 ^ d2 * 2 ^ (d1 + s - d2 - 1) = 2 ^ (d1 - 1) * 2 ^ s).
    { rewrite <- !Z.pow_add_r by lia. f_equal. lia. }
    assert (0 < 2 ^ (d1 + s - d2 - 1)) by (apply Z.pow_pos_nonneg; lia). nia. }
  destruct (Zpos p * 2 ^ s / Zpos m) as [|q|q]; [pose proof (Z.pow_pos_nonneg 2 (d1 + s - d2 - 1)); lia| |lia].
  pose proof (digits_bounds q) as [_ Hd].
  assert (d1 + s - d2 - 1 < Zdigits2 (Zpos q)); [|lia].
  apply (Z.pow_lt_mono_r_iff 2); [lia|simpl; lia|lia].
Qed.

Theorem div_spec x y :
  proper x -> proper y -> 0 < units y -> Z.abs (srnd (units x * 2 ^ (- emin)) (units y)) < 2 ^ (emax - emin) ->
  proper (SFdiv prec emax x y) /\ units (SFdiv prec emax x y) = srnd (units x * 2 ^ (- emin)) (units y).
Proof.
  intros Hx Hy Hpos Hmax. pose proof emin_neg as Hneg.
  assert (HD : 0 < 2 ^ (- emin)) by (apply Z.pow_pos_nonneg; lia).
  rewrite srnd_abs in Hmax by done.
  destruct y as [sy|sy| |sy my ey]; [by simpl in Hpos|by destruct Hy|by destruct Hy|].
  pose proof (finite_exponent _ _ _ Hy) as Hey.
  assert (Hpy : 0 < 2 ^ (ey - emin)) by (apply Z.pow_pos_nonneg; lia).
  destruct sy; [simpl in Hpos; lia|].
  destruct x as [sx|sx| |sx mx ex]; [|by destruct Hx|by destruct Hx|].
  { split; [done|]. cbn [units]. by rewrite Z.mul_0_l, srnd_nonneg, rnd_0. }
  pose proof (finite_exponent _ _ _ Hx) as Hex. simpl SFdiv. rewrite xorb_false_r.
  set (N := Zpos mx * 2 ^ (ex - emin) * 2 ^ (- emin)).
  assert (HN : 0 <= N) by (unfold N; pose proof (Z.pow_nonneg 2 (ex - emin)); nia).
  assert (Hu : (units (S754_finite sx mx ex) * 2 ^ (- emin))%Z = cond_Zopp sx N) by (unfold N; destruct sx; simpl; ring).
  assert (Hab : Z.abs (cond_Zopp sx N) = N) by (destruct sx; simpl; lia).
  assert (Hsr : srnd (cond_Zopp sx N) (units (S754_finite false my ey)) =
    cond_Zopp sx (rnd N (units (S754_finite false my ey)))).
  { destruct sx; simpl cond_Zopp; rewrite ?srnd_opp, srnd_nonneg by done; done. }
  rewrite Hu in *. rewrite Hsr. rewrite Hab in Hmax. clear Hsr Hab Hu.
  unfold SFdiv_core_binary.
  set (X := Zdigits2 (Zpos mx) + ex - (Zdigits2 (Zpos my) + ey)). set (e' := Z.min (fexp X) (ex - ey)).
  set (k := ex - ey - e'). assert (Hk : 0 <= k) by lia.
  replace (match k with Z0 => Zpos mx | Zpos _ => Z.shiftl (Zpos mx) k | Zneg _ => 0 end)
    with (Zpos mx * 2 ^ k).
  2: { destruct k as [|p|p]; [by rewrite Z.mul_1_r|by rewrite Z.shiftl_mul_pow2|lia]. }
  pose proof (Z_div_mod (Zpos mx * 2 ^ k) (Zpos my) ltac:(lia)) as Hdm.
  pose proof (quotient_digits mx k my (Zpos mx * 2 ^ k / Zpos my) Hk eq_refl) as Hq. unfold Z.div in Hq.
  destruct (Z.div_eucl (Zpos mx * 2 ^ k) (Zpos my)) as [q r]. destruct Hdm as [Hdiv Hr].
  assert (Hq0 : 0 <= q) by (pose proof (Z.pow_pos_nonneg 2 k); nia).
  eapply (round_aux_spec sx q e' (new_location (Zpos my) r) (Zpos mx * 2 ^ k) (Zpos my)); try done.
  - rewrite Hdiv, (Z.mul_comm (Zpos my)). by apply new_location_spec.
  - unfold e' at 1. etransitivity; [apply Z.le_min_l|]. unfold SpecFloat.fexp. lia.
  - unfold N. simpl units.
    assert (Hpow : 2 ^ (ex - emin) * 2 ^ (- emin) * 2 ^ Z.max 0 (emin - e') =
      2 ^ k * 2 ^ Z.max 0 (e' - emin) * 2 ^ (ey - emin)).
    { rewrite <- !Z.pow_add_r by lia. f_equal. lia. }
    replace (Z.pos mx * 2 ^ (ex - emin) * 2 ^ (- emin) * (Z.pos my * 2 ^ Z.max 0 (emin - e'))) with
      (Zpos mx * Zpos my * (2 ^ (ex - emin) * 2 ^ (- emin) * 2 ^ Z.max 0 (emin - e'))) by ring.
    rewrite Hpow. ring.
Qed.

(** Comparisons are comparisons of values. *)
Lemma compare_pos m1 e1 m2 e2 :
  proper (S754_finite false m1 e1) -> proper (S754_finite false m2 e2) ->
  match Z.compare e1 e2 with Lt => Lt | Gt => Gt | Eq => Pos.compare m1 m2 end =
  Z.compare (Zpos m1 * 2 ^ (e1 - emin)) (Zpos m2 * 2 ^ (e2 - emin)).
Proof.
  assert (Hlt : forall m1 e1 m2 e2, proper (S754_finite false m1 e1) -> proper (S754_finite false m2 e2) ->
    e1 < e2 -> Zpos m1 * 2 ^ (e1 - emin) < Zpos m2 * 2 ^ (e2 - emin)).
  { clear m1 e1 m2 e2. intros m1 e1 m2 e2 H1 H2 He.
    pose proof (finite_exponent _ _ _ H1) as L1. destruct H1 as [_ H1], H2 as [_ H2]. simpl in H1, H2.
    unfold bounded, canonical_mantissa in H1, H2. apply andb_true_iff in H1 as [H1%Z.eqb_eq _].
    apply andb_true_iff in H2 as [H2%Z.eqb_eq _]. pose proof (digits_bounds m1) as [_ B1].
    pose proof (digits_bounds m2) as [B2 _]. simpl in B1, B2. unfold SpecFloat.fexp in H1, H2.
    set (d1 := Zpos (digits2_pos m1)) in *. set (d2 := Zpos (digits2_pos m2)) in *.
    assert (Hd : d1 + (e1 - emin) <= d2 - 1 + (e2 - emin)) by lia.
    apply Z.lt_le_trans with (2 ^ d1 * 2 ^ (e1 - emin)).
    { apply Z.mul_lt_mono_pos_r; [apply Z.pow_pos_nonneg; lia|done]. }
    apply Z.le_trans with (2 ^ (d2 - 1) * 2 ^ (e2 - emin)).
    { rewrite <- !Z.pow_add_r by lia. apply Z.pow_le_mono_r; lia. }
    apply Z.mul_le_mono_nonneg_r; [apply Z.pow_nonneg; lia|done]. }
  intros H1 H2. destruct (Z.compare_spec e1 e2) as [->|He|He].
  - rewrite <- Zmult_compare_compat_r; [done|]. apply Z.lt_gt, Z.pow_pos_nonneg; [lia|].
    pose proof (finite_exponent _ _ _ H1). lia.
  - symmetry. apply Z.compare_lt_iff. by apply Hlt.
  - symmetry. apply Z.compare_gt_iff. by apply Hlt.
Qed.

Theorem compare_spec x y : proper x -> proper y -> SFcompare x y = Some (Z.compare (units x) (units y)).
Proof.
  intros Hx Hy.
  assert (Hpos : forall s m e, proper (S754_finite s m e) -> 0 < Zpos m * 2 ^ (e - emin)).
  { intros s m e Hf. apply Z.mul_pos_pos; [done|]. apply Z.pow_pos_nonneg; [done|].
    pose proof (finite_exponent _ _ _ Hf). lia. }
  destruct x as [sx|sx| |sx mx ex], y as [sy|sy| |sy my ey];
    try (by destruct Hx); try (by destruct Hy); cbn [units SFcompare]; f_equal.
  - specialize (Hpos _ _ _ Hy). symmetry.
    destruct sy; cbn [cond_Zopp]; [apply Z.compare_gt_iff|apply Z.compare_lt_iff]; lia.
  - specialize (Hpos _ _ _ Hx). symmetry.
    destruct sx; cbn [cond_Zopp]; [apply Z.compare_lt_iff|apply Z.compare_gt_iff]; lia.
  - pose proof (compare_pos mx ex my ey Hx Hy) as Hc. pose proof (Hpos _ _ _ Hx). pose proof (Hpos _ _ _ Hy).
    destruct sx, sy; cbn [cond_Zopp].
    + rewrite Z.compare_opp, (Z.compare_antisym (Zpos mx * 2 ^ (ex - emin))), <- Hc. change (Pos.compare_cont Eq mx my) with (Pos.compare mx my).
      by destruct (ex ?= ey).
    + symmetry. apply Z.compare_lt_iff. lia.
    + symmetry. apply Z.compare_gt_iff. lia.
    + by rewrite <- Hc.
Qed.

Theorem leb_spec x y : proper x -> proper y -> SFleb x y = true <-> units x <= units y.
Proof.
  intros Hx Hy. unfold SFleb. rewrite (compare_spec x y Hx Hy).
  destruct (Z.compare_spec (units x) (units y)); split; (done || lia).
Qed.
End floats.
