(* ===== verification/F64.v ===== *)
(** Doubles by their values: [Rounding] at binary64.

    [x ≈ u] says that [x] is a finite double in canonical form of value [u] units
    of [2^-1074].  Each operation of [Float] is given by the reference rounding of
    its exact result.  [BIG] keeps every intermediate result far from the
    overflow threshold. *)

From S2P Require Import Prelude Float Rounding.

#[local] Open Scope Z_scope.

(** One, in units. *)
Definition ONE : Z := 2 ^ 1074.
Definition R (N D : Z) : Z := srnd 53 N D.

Definition is_f64 (x : f64) (u : Z) : Prop := proper 53 1024 x /\ units 53 1024 x = u.

Declare Scope f64_scope.
Delimit Scope f64_scope with f64.
Infix "≈" := is_f64 (at level 70) : f64_scope.
#[local] Open Scope f64_scope.

(** Values up to [2^1000]. *)
Definition BIG : Z := 2 ^ 2074.

Lemma ONE_pos : 0 < ONE.
Proof. apply Z.pow_pos_nonneg; lia. Qed.

Lemma ONE_split k : 0 <= k <= 1074 -> ONE = 2 ^ k * 2 ^ (1074 - k).
Proof. intros Hk. unfold ONE. rewrite <- Z.pow_add_r by lia. f_equal. lia. Qed.

Lemma BIG_ONE : BIG = 2 ^ 1000 * ONE.
Proof. unfold BIG, ONE. by rewrite <- Z.pow_add_r. Qed.

Lemma BIG_ge k : 0 <= k <= 1000 -> 2 ^ k * ONE <= BIG.
Proof.
  intros Hk. rewrite BIG_ONE. apply Z.mul_le_mono_nonneg_r; [apply Z.lt_le_incl, ONE_pos|].
  apply Z.pow_le_mono_r; lia.
Qed.

Lemma BIG_safe : BIG < 2 ^ (1024 - emin 53 1024).
Proof. unfold BIG. apply Z.pow_lt_mono_r; done. Qed.

(** ** Representable values *)

Lemma rep_pow m j : 0 <= m <= 2 ^ 53 -> 0 <= j -> representable 53 (m * 2 ^ j).
Proof.
  intros Hm Hj. pose proof (Z.pow_nonneg 2 j). exists m, j. split_and!; nia.
Qed.

Lemma rep_int n : Z.abs n <= 2 ^ 53 -> representable 53 (n * ONE).
Proof.
  intros Hn. exists (Z.abs n), 1074. split_and!; [lia|lia|lia|].
  rewrite Z.abs_mul, (Z.abs_eq ONE); [done|]. pose proof ONE_pos. lia.
Qed.

Lemma rep_BIG : representable 53 BIG.
Proof. unfold BIG. rewrite <- (Z.mul_1_l (2 ^ 2074)). by apply rep_pow. Qed.

(** ** The reference rounding *)

Lemma R_mono N D N' D' : 0 < D -> 0 < D' -> N * D' <= N' * D -> R N D <= R N' D'.
Proof. by apply srnd_mono. Qed.

Lemma R_mono_num N N' D : 0 < D -> N <= N' -> R N D <= R N' D.
Proof. intros HD HN. apply R_mono; nia. Qed.

Lemma R_exact u D : representable 53 u -> 0 < D -> R (u * D) D = u.
Proof. by apply srnd_exact. Qed.

Lemma R_exact_1 u : representable 53 u -> R u 1 = u.
Proof. by apply srnd_exact_1. Qed.

Lemma R_le N D u : 0 < D -> representable 53 u -> N <= u * D -> R N D <= u.
Proof. by apply srnd_le. Qed.

Lemma R_ge N D u : 0 < D -> representable 53 u -> u * D <= N -> u <= R N D.
Proof. by apply srnd_ge. Qed.

Lemma R_0 D : 0 < D -> R 0 D = 0.
Proof. intros HD. unfold R. by rewrite srnd_nonneg, rnd_0. Qed.

Lemma R_nonneg N D : 0 < D -> 0 <= N -> 0 <= R N D.
Proof. intros HD HN. apply R_ge; [done| |lia]. exists 0, 0. split_and!; (done || lia). Qed.

Lemma R_big N D : 0 < D -> Z.abs N <= BIG * D -> Z.abs (R N D) <= BIG.
Proof.
  intros HD HN. pose proof rep_BIG as Hr. apply Z.abs_le. split.
  - apply R_ge; [done|by apply representable_opp|lia].
  - apply R_le; [done|done|lia].
Qed.

Lemma safe N D : 0 < D -> Z.abs N <= BIG * D -> Z.abs (srnd 53 N D) < 2 ^ (1024 - emin 53 1024).
Proof. intros HD HN. eapply Z.le_lt_trans; [by apply R_big|apply BIG_safe]. Qed.

(** The rounding error is at most half a unit in the last place. *)
Lemma rnd_error N D : 0 <= N -> 0 < D -> 2 ^ 53 * Z.abs (rnd 53 N D * D - N) <= 2 ^ 52 * D + N.
Proof.
  intros HN HD. unfold rnd. set (k := uexp 53 N D). pose proof (uexp_nonneg 53 N D) as Hk. fold k in Hk.
  assert (Hp : 0 < 2 ^ k) by (apply Z.pow_pos_nonneg; lia).
  assert (Herr : 2 * Z.abs (round_half_even N (D * 2 ^ k) * (D * 2 ^ k) - N) <= D * 2 ^ k).
  { assert (Hd : 0 < D * 2 ^ k) by nia. pose proof (Z.div_mod N (D * 2 ^ k) ltac:(lia)) as He.
    pose proof (Z.mod_pos_bound N (D * 2 ^ k) Hd) as Hm. unfold round_half_even.
    destruct (Z.compare_spec (2 * (N mod (D * 2 ^ k))) (D * 2 ^ k)); [destruct (Z.even _)|..]; nia. }
  replace (round_half_even N (D * 2 ^ k) * 2 ^ k * D) with (round_half_even N (D * 2 ^ k) * (D * 2 ^ k)) by ring.
  assert (Hn : D * 2 ^ k * 2 ^ 52 <= 2 ^ 52 * D + N); [|nia].
  destruct (Z.eq_dec k 0) as [->|Hk0]; [lia|].
  pose proof (uexp_lower 53 ltac:(lia) N D HN HD ltac:(fold k; lia)) as Hl. fold k in Hl.
  replace (53 - 1 + k) with (52 + k) in Hl by lia. rewrite Z.pow_add_r in Hl by lia. nia.
Qed.

Lemma R_error N D : 0 < D -> 2 ^ 53 * Z.abs (R N D * D - N) <= 2 ^ 52 * D + Z.abs N.
Proof.
  intros HD. unfold R. destruct (Z.le_ge_cases 0 N) as [HN|HN].
  - rewrite srnd_nonneg by lia. rewrite (Z.abs_eq N) by done. by apply rnd_error.
  - rewrite <- (Z.opp_involutive N), srnd_opp, srnd_nonneg by lia.
    pose proof (rnd_error (- N) D ltac:(lia) HD). rewrite Z.abs_opp, (Z.abs_eq (- N)) by lia. lia.
Qed.

(** ** Operations *)

Lemma of_Z_value n : Z.abs n <= 2 ^ 1000 -> f64_of_Z n ≈ R (n * ONE) 1.
Proof.
  intros Hn. pose proof ONE_pos. apply (normalize_spec 53 1024 ltac:(lia) ltac:(lia)); [done|].
  eapply Z.le_lt_trans; [|apply BIG_safe]. rewrite <- srnd_nonneg by lia.
  apply (R_le _ 1); [lia|apply rep_BIG|]. rewrite BIG_ONE. change (2 ^ (0 - emin 53 1024)) with ONE. nia.
Qed.

Lemma of_int n : Z.abs n <= 2 ^ 53 -> f64_of_Z n ≈ n * ONE.
Proof.
  intros Hn. rewrite <- (R_exact_1 (n * ONE)) by by apply rep_int. apply of_Z_value.
  etransitivity; [exact Hn|]. by apply Z.pow_le_mono_r.
Qed.

Lemma add_value x y u v : x ≈ u -> y ≈ v -> Z.abs (u + v) <= BIG -> f64_add x y ≈ R (u + v) 1.
Proof.
  intros [Hx <-] [Hy <-] Hb. apply (add_spec 53 1024 ltac:(lia) ltac:(lia)); [done|done|].
  apply safe; lia.
Qed.

Lemma sub_value x y u v : x ≈ u -> y ≈ v -> Z.abs (u - v) <= BIG -> f64_sub x y ≈ R (u - v) 1.
Proof.
  intros [Hx <-] [Hy <-] Hb. apply (sub_spec 53 1024 ltac:(lia) ltac:(lia)); [done|done|].
  apply safe; lia.
Qed.

Lemma mul_value x y u v : x ≈ u -> y ≈ v -> Z.abs (u * v) <= BIG * ONE -> f64_mul x y ≈ R (u * v) ONE.
Proof.
  intros [Hx <-] [Hy <-] Hb. apply (mul_spec 53 1024 ltac:(lia) ltac:(lia)); [done|done|].
  apply safe; [apply ONE_pos|done].
Qed.

Lemma div_value x y u v : x ≈ u -> y ≈ v -> 0 < v -> Z.abs (u * ONE) <= BIG * v -> f64_div x y ≈ R (u * ONE) v.
Proof.
  intros [Hx <-] [Hy <-] Hv Hb. apply (div_spec 53 1024 ltac:(lia) ltac:(lia)); [done|done|done|].
  by apply safe.
Qed.

Lemma leb_value x y u v : x ≈ u -> y ≈ v -> f64_leb x y = true <-> u <= v.
Proof. intros [Hx <-] [Hy <-]. by apply leb_spec. Qed.

Lemma ltb_value x y u v : x ≈ u -> y ≈ v -> f64_ltb x y = true <-> u < v.
Proof.
  intros [Hx <-] [Hy <-]. unfold f64_ltb, SFltb. rewrite (compare_spec 53 1024) by done.
  destruct (Z.compare_spec (units 53 1024 x) (units 53 1024 y)); split; (done || lia).
Qed.

(** ** Integral parts *)

Lemma trunc_value x u : x ≈ u -> 0 <= u -> f64_trunc x = u / ONE.
Proof.
  intros [Hx <-] Hu. pose proof ONE_pos as H1.
  destruct x as [s|s| |s m e]; try (by destruct Hx).
  pose proof (finite_exponent 53 1024 s m e Hx) as He. change (emin 53 1024) with (-1074) in *.
  assert (Hp : 0 < 2 ^ (e - -1074)) by (apply Z.pow_pos_nonneg; lia).
  cbn [units] in *. change (emin 53 1024) with (-1074) in *. destruct s; cbn [cond_Zopp f64_trunc] in *; [lia|].
  destruct (Z.ltb_spec e 0) as [Hlt|Hge].
  - rewrite Z.shiftr_div_pow2, (ONE_split (- e)) by lia. replace (1074 - - e) with (e - -1074) by lia.
    by rewrite Z.div_mul_cancel_r by (pose proof (Z.pow_pos_nonneg 2 (- e)); lia).
  - rewrite Z.shiftl_mul_pow2 by lia. replace (e - -1074) with (e + 1074) by lia.
    rewrite Z.pow_add_r, Z.mul_assoc by lia. unfold ONE. by rewrite Z.div_mul by (unfold ONE in H1; lia).
Qed.

Lemma as_u64_value x u : x ≈ u -> 0 <= u -> f64_as_u64 x = Z.min U64_MAX (u / ONE).
Proof.
  intros Hx Hu. pose proof (trunc_value x u Hx Hu) as Ht. pose proof ONE_pos.
  pose proof (Z.div_pos u ONE Hu ltac:(lia)).
  destruct x as [s|s| |s m e]; try (by destruct Hx as [[??]?]); unfold f64_as_u64.
  - destruct Hx as [_ <-]. by rewrite Z.div_0_l by lia.
  - rewrite Ht. unfold U64_MAX. lia.
Qed.

(** [x.round()] is the integer nearest to [x], halves up. *)
Lemma round_value x u :
  x ≈ u -> 0 <= u -> u <= 2 ^ 52 * ONE -> f64_round x ≈ (2 * u + ONE) / (2 * ONE) * ONE.
Proof.
  intros Hx Hu Hmax. pose proof ONE_pos as H1.
  assert (Hint : forall n, (2 * (n * ONE) + ONE) / (2 * ONE) = n).
  { intros n. symmetry. apply (Z.div_unique_pos _ _ _ ONE); lia. }
  destruct Hx as [Hx <-]. destruct x as [s|s| |s m e]; try (by destruct Hx).
  pose proof (finite_exponent 53 1024 s m e Hx) as He. change (emin 53 1024) with (-1074) in *.
  assert (Hp : 0 < 2 ^ (e - -1074)) by (apply Z.pow_pos_nonneg; lia).
  set (u := units 53 1024 (S754_finite s m e)) in *.
  assert (s = false /\ u = Zpos m * 2 ^ (e - -1074)) as [-> Hu'].
  { unfold u in *. cbn [units] in *. change (emin 53 1024) with (-1074) in *.
    destruct s; cbn [cond_Zopp] in *; [lia|done]. }
  cbn [f64_round cond_Zopp]. destruct (Z.ltb_spec e 0) as [Hlt|Hge].
  - rewrite Z.shiftr_div_pow2, Z.shiftl_mul_pow2, Z.mul_1_l by lia.
    set (q := (Zpos m + 2 ^ (- e - 1)) / 2 ^ (- e)).
    assert (Hq : (2 * u + ONE) / (2 * ONE) = q).
    { assert (Ha : 2 ^ (- e) = 2 * 2 ^ (- e - 1)) by (rewrite <- Z.pow_succ_r by lia; f_equal; lia).
      assert (Hb : ONE = 2 ^ (- e) * 2 ^ (e - -1074)).
      { rewrite (ONE_split (- e)) by lia. do 2 f_equal. lia. }
      replace (2 * u + ONE) with ((Zpos m + 2 ^ (- e - 1)) * (2 * 2 ^ (e - -1074))) by (rewrite Hu', Hb, Ha; ring).
      replace (2 * ONE) with (2 ^ (- e) * (2 * 2 ^ (e - -1074))) by (rewrite Hb; ring).
      apply Z.div_mul_cancel_r; [|lia]. pose proof (Z.pow_pos_nonneg 2 (- e)). lia. }
    rewrite Hq. assert (0 <= q <= 2 ^ 53).
    { rewrite <- Hq. split; [apply Z.div_pos; lia|]. apply Z.div_le_upper_bound; lia. }
    apply of_int. lia.
  - assert (Hn : u = Zpos m * 2 ^ e * ONE).
    { rewrite Hu'. replace (e - -1074) with (e + 1074) by lia. rewrite Z.pow_add_r by lia. unfold ONE. ring. }
    rewrite Hn, Hint, <- Hn. done.
Qed.

(** [Duration::from_secs_f64]: the nearest nanosecond, below [2^64] seconds. *)
Lemma from_secs_value x u :
  x ≈ u -> 0 <= u -> u < 2 ^ 63 * ONE -> from_secs_f64 x = Some (round_half_even (u * NANOS_PER_SEC) ONE).
Proof.
  intros [Hx <-] Hu Hmax. pose proof ONE_pos as H1. unfold NANOS_PER_SEC in *.
  assert (Hlt : forall v, 0 <= v -> v < 2 ^ 63 * ONE -> round_half_even (v * 1000000000) ONE < 2 ^ 64 * 1000000000).
  { intros v Hv0 Hv. apply Z.le_lt_trans with (2 ^ 63 * 1000000000); [|lia]. apply round_half_even_le; lia. }
  destruct x as [s|s| |s m e]; try (by destruct Hx).
  pose proof (finite_exponent 53 1024 s m e Hx) as He. change (emin 53 1024) with (-1074) in *.
  assert (Hp : 0 < 2 ^ (e - -1074)) by (apply Z.pow_pos_nonneg; lia).
  specialize (Hlt _ Hu Hmax). cbn [units] in *. change (emin 53 1024) with (-1074) in *.
  destruct s; cbn [cond_Zopp] in *; [lia|]. cbn [from_secs_f64].
  assert (Hns : (if e <? 0 then round_half_even (Zpos m * 1000000000) (Z.shiftl 1 (- e))
                 else Z.shiftl (Zpos m * 1000000000) e)
    = round_half_even (Zpos m * 2 ^ (e - -1074) * 1000000000) ONE).
  { destruct (Z.ltb_spec e 0) as [Hlt0|Hge].
    - rewrite Z.shiftl_mul_pow2, Z.mul_1_l by lia.
      assert (0 < 2 ^ (- e)) by (apply Z.pow_pos_nonneg; lia).
      apply round_half_even_ratio; [done|done|]. rewrite (ONE_split (- e)) by lia.
      replace (1074 - - e) with (e - -1074) by lia. ring.
    - rewrite Z.shiftl_mul_pow2 by lia. symmetry.
      replace (Zpos m * 2 ^ (e - -1074) * 1000000000) with (Zpos m * 1000000000 * 2 ^ e * ONE).
      2: { replace (e - -1074) with (e + 1074) by lia. rewrite Z.pow_add_r by lia. unfold ONE. ring. }
      by apply round_half_even_exact. }
  unfold NANOS_PER_SEC. rewrite Hns, (proj2 (Z.ltb_lt _ _)); done.
Qed.

(** Seconds survive the trip through a double, up to 13 days. *)
Lemma as_secs_value d :
  0 <= d <= 2 ^ 50 ->
  exists u, as_secs_f64 d ≈ u /\ 0 <= u <= 2 ^ 50 * ONE /\ round_half_even (u * NANOS_PER_SEC) ONE = d.
Proof.
  intros Hd. pose proof ONE_pos as H1. unfold as_secs_f64, as_secs, subsec_nanos, NANOS_PER_SEC.
  pose proof (Z.div_mod d 1000000000 ltac:(lia)) as Hdm. pose proof (Z.mod_pos_bound d 1000000000 ltac:(lia)) as Hr.
  set (s := d / 1000000000) in *. set (n := d mod 1000000000) in *.
  assert (Hs : 0 <= s <= 2 ^ 21) by lia.
  assert (Hbig : 2 ^ 100 * ONE <= BIG).
  { rewrite BIG_ONE. apply Z.mul_le_mono_nonneg_r; [lia|]. by apply Z.pow_le_mono_r. }
  set (f := R (n * ONE * ONE) (1000000000 * ONE)).
  assert (Hf : f64_div (f64_of_Z n) (f64_of_Z 1000000000) ≈ f).
  { apply div_value; [apply of_int; lia|by apply of_int|lia|]. rewrite Z.abs_eq by nia. nia. }
  assert (Ef : 2 ^ 53 * Z.abs (f * 1000000000 - n * ONE) <= 2 ^ 52 * 1000000000 + n * ONE).
  { pose proof (R_error (n * ONE * ONE) (1000000000 * ONE) ltac:(lia)) as He. fold f in He.
    replace (f * (1000000000 * ONE) - n * ONE * ONE) with ((f * 1000000000 - n * ONE) * ONE) in He by ring.
    rewrite Z.abs_mul, (Z.abs_eq ONE), (Z.abs_eq (n * ONE * ONE)) in He by nia.
    apply (Z.mul_le_mono_pos_r _ _ ONE H1). lia. }
  assert (Bf : 0 <= f <= ONE).
  { split; [apply R_nonneg; nia|]. apply R_le; [lia| |nia]. rewrite <- (Z.mul_1_l ONE). by apply rep_int. }
  assert (Hss : 0 <= s * ONE <= 2 ^ 21 * ONE) by nia.
  assert (Hsum : f64_add (f64_of_Z s) (f64_div (f64_of_Z n) (f64_of_Z 1000000000)) ≈ R (s * ONE + f) 1).
  { apply add_value; [apply of_int; lia|done|lia]. }
  set (u := R (s * ONE + f) 1) in *. exists u. split; [done|].
  assert (Eu : 2 ^ 53 * Z.abs (u - (s * ONE + f)) <= 2 ^ 52 + (s * ONE + f)).
  { pose proof (R_error (s * ONE + f) 1 ltac:(lia)) as He. fold u in He. rewrite !Z.mul_1_r in He. lia. }
  assert (Hbig60 : 2 ^ 200 <= ONE) by (by apply Z.pow_le_mono_r).
  split; [split; [apply R_nonneg; lia|lia]|].
  assert (Herr : 2 * Z.abs (u * 1000000000 - d * ONE) < ONE).
  { replace (u * 1000000000 - d * ONE) with
      ((u - (s * ONE + f)) * 1000000000 + (f * 1000000000 - n * ONE)) by lia.
    assert (n * ONE <= 1000000000 * ONE) by nia. lia. }
  assert (Hn : forall q, 2 * Z.abs (q - d * ONE) < ONE -> round_half_even q ONE = d).
  { intros q Hq. assert (Hcase : d * ONE <= q \/ q < d * ONE) by lia. unfold round_half_even. destruct Hcase.
    - assert (Hdiv : q / ONE = d) by (symmetry; apply (Z.div_unique_pos _ _ _ (q - d * ONE)); lia).
      rewrite Z.mod_eq, Hdiv by lia. by replace (2 * (q - ONE * d) ?= ONE) with Lt by (symmetry; apply Z.compare_lt_iff; lia).
    - assert (Hdiv : q / ONE = d - 1) by (symmetry; apply (Z.div_unique_pos _ _ _ (q - (d - 1) * ONE)); lia).
      rewrite Z.mod_eq, Hdiv by lia.
      replace (2 * (q - ONE * (d - 1)) ?= ONE) with Gt by (symmetry; apply Z.compare_gt_iff; lia). lia. }
  by apply Hn.
Qed.

(** A nonzero value has one representation. *)
Lemma value_inj x y u : x ≈ u -> y ≈ u -> u <> 0 -> x = y.
Proof.
  intros Hx Hy Hu. pose proof (leb_value _ _ _ _ Hx Hy) as H1. pose proof (leb_value _ _ _ _ Hy Hx) as H2.
  destruct Hx as [[Fx Vx] Ux], Hy as [[Fy Vy] Uy].
  destruct x as [?|?| |sx mx ex]; try done.
  destruct y as [?|?| |sy my ey]; try done.
  pose proof (compare_spec 53 1024 ltac:(lia) (S754_finite sx mx ex) (S754_finite sy my ey) (conj Fx Vx) (conj Fy Vy)) as Hc.
  rewrite Ux, Uy, Z.compare_refl in Hc. cbn [SFcompare] in Hc.
  destruct sx, sy; try done; destruct (Z.compare_spec ex ey) as [->| |]; try done; injection Hc as Hc.
  - destruct (Pos.compare_cont Eq mx my) eqn:E; try done. by apply Pos.compare_eq in E as ->.
  - by apply Pos.compare_eq in Hc as ->.
Qed.

Lemma value_rep x u : x ≈ u -> representable 53 u.
Proof. intros [Hx <-]. by apply (units_bound 53 1024). Qed.

(** [f64::from] of a single-precision value is exact. *)
Definition is_f32 (x : f32) (u : Z) : Prop := proper 24 128 x /\ units 24 128 x = u.

Lemma of_f32_value x u :
  is_f32 x u -> f64_of_f32 x ≈ u * 2 ^ 925 /\ Z.abs (u * 2 ^ 925) <= 2 ^ 128 * ONE.
Proof.
  intros [Hx <-]. pose proof (units_bound 24 128 ltac:(lia) ltac:(lia) x Hx) as [Hb (m & j & Hm & Hj & Eu)].
  change (128 - emin 24 128) with 277 in Hb.
  assert (Hle : Z.abs (units 24 128 x * 2 ^ 925) <= 2 ^ 128 * ONE).
  { rewrite Z.abs_mul, (Z.abs_eq (2 ^ 925)) by lia. unfold ONE. rewrite <- Z.pow_add_r by lia.
    change (128 + 1074) with (277 + 925). rewrite Z.pow_add_r by lia. apply Z.mul_le_mono_nonneg_r; lia. }
  split; [|exact Hle].
  assert (Hrep : representable 53 (units 24 128 x * 2 ^ 925)).
  { exists m, (j + 925). rewrite Z.abs_mul, Eu, (Z.abs_eq (2 ^ 925)), Z.pow_add_r by lia. lia. }
  destruct x as [s|s| |s p e]; try (by destruct Hx).
  pose proof (finite_exponent 24 128 s p e Hx) as He. change (emin 24 128) with (-149) in He.
  set (v := Zpos p * 2 ^ (e - emin 53 1024)).
  assert (Ev : units 24 128 (S754_finite s p e) * 2 ^ 925 = cond_Zopp s v).
  { unfold v. cbn [units]. change (emin 24 128) with (-149). change (emin 53 1024) with (-1074).
    replace (e - -1074) with (e - -149 + 925) by lia. rewrite Z.pow_add_r by lia. destruct s; cbn [cond_Zopp]; lia. }
  rewrite Ev in *. assert (Hv : 0 <= v) by (unfold v; lia).
  assert (Hrnd : rnd 53 v 1 = v).
  { rewrite <- srnd_nonneg by lia. apply (R_exact_1 v). destruct s; cbn [cond_Zopp] in Hrep; [|done].
    rewrite <- (Z.opp_involutive v). by apply representable_opp. }
  assert (Hmax : v < 2 ^ (1024 - emin 53 1024)).
  { eapply Z.le_lt_trans; [|apply BIG_safe]. rewrite BIG_ONE. pose proof ONE_pos.
    apply Z.le_trans with (2 ^ 128 * ONE); [destruct s; cbn [cond_Zopp] in Hle; lia|].
    apply Z.mul_le_mono_nonneg_r; [lia|]. by apply Z.pow_le_mono_r. }
  pose proof (binary_round_spec 53 1024 ltac:(lia) ltac:(lia) s p e) as Hr. fold v in Hr. rewrite Hrnd in Hr.
  by apply Hr; [change (emin 53 1024) with (-1074); lia|].
Qed.

Lemma value_finite x u : x ≈ u -> is_finite x = true /\ is_nan x = false.
Proof. intros [[Hx _] _]. by destruct x. Qed.

Lemma max_value x y u v : x ≈ u -> y ≈ v -> f64_max x y ≈ Z.max u v.
Proof.
  intros Hx Hy. unfold f64_max. destruct (value_finite _ _ Hx) as [_ ->], (value_finite _ _ Hy) as [_ ->].
  pose proof (ltb_value _ _ _ _ Hx Hy) as H. destruct (f64_ltb x y).
  - rewrite Z.max_r by (assert (u < v) by (by apply H); lia). done.
  - rewrite Z.max_l; [done|]. destruct (Z.le_gt_cases v u); [done|]. by apply H in H0.
Qed.

Lemma clamp_units x lo hi u l h :
  x ≈ u -> lo ≈ l -> hi ≈ h -> l <= h -> f64_clamp x lo hi ≈ Z.max l (Z.min u h).
Proof.
  intros Hx Hl Hh Hle. unfold f64_clamp.
  pose proof (ltb_value _ _ _ _ Hx Hl) as H1. pose proof (ltb_value _ _ _ _ Hh Hx) as H2.
  destruct (f64_ltb x lo).
  - assert (u < l) by (by apply H1). by rewrite Z.max_l by lia.
  - assert (l <= u) by (destruct (Z.le_gt_cases l u) as [|Hu]; [done|by apply H1 in Hu]).
    destruct (f64_ltb hi x).
    + assert (h < u) by (by apply H2). by rewrite Z.min_r, Z.max_r by lia.
    + assert (u <= h) by (destruct (Z.le_gt_cases u h) as [|Hu]; [done|by apply H2 in Hu]).
      by rewrite Z.min_l, Z.max_r by lia.
Qed.
