(* ===== verification/Histogram.v ===== *)
(** Latency distributions: the HDR-histogram interface the engine relies on,
    and the code built on it ([metrics/helpers.rs], the bucket functions of
    [metrics/summary.rs]).

    [hdrhistogram] is a third-party crate, so a histogram is a parameter
    ([Histogram]) with the documented behaviour the proofs use as laws
    ([HistogramLaws]); [exact_histogram] is a concrete instance. *)

From S2P Require Import Prelude RustStr Float.

#[local] Open Scope Z_scope.
#[local] Open Scope rust_scope.

(** The operations of [Histogram<u64>] the engine calls. *)
Class Histogram : Type := {
  hist : Type;
  (** [Histogram::new_with_max(max, sigfig)] *)
  hist_new_with_max : Z -> Z -> hist;
  (** [h.saturating_record(v)] *)
  hist_record : Z -> hist -> hist;
  hist_len : hist -> Z;
  hist_is_empty : hist -> bool;
  hist_mean : hist -> f64;
  hist_stdev : hist -> f64;
  hist_min : hist -> Z;
  hist_max : hist -> Z;
  hist_value_at_quantile : f64 -> hist -> Z;
  (** [iter_recorded()], as [(value_iterated_to(), count_at_value())] pairs *)
  hist_iter_recorded : hist -> list (Z * Z);
}.

(** Highest trackable value (1 hour in microseconds) and precision. *)
Definition HISTOGRAM_HIGHEST_TRACKABLE : Z := 3600000000.
Definition HISTOGRAM_SIGNIFICANT_FIGURES : Z := 3.

Definition new_histogram `{Histogram} : hist :=
  hist_new_with_max HISTOGRAM_HIGHEST_TRACKABLE HISTOGRAM_SIGNIFICANT_FIGURES.

(** The histogram after recording the values of [l], in order. *)
Definition hist_of `{Histogram} (l : list Z) : hist :=
  foldl (fun h v => hist_record v h) new_histogram l.

(** Documented behaviour of the crate: [len] is the number of recorded values,
    [is_empty] says it is zero, and [iter_recorded] visits every recorded value
    exactly once. *)
Class HistogramLaws `{Histogram} : Prop := {
  hist_len_of : forall l, Z.of_nat (length l) <= U64_MAX ->
    hist_len (hist_of l) = Z.of_nat (length l);
  hist_is_empty_of : forall l, hist_is_empty (hist_of l) = bool_decide (l = []);
  hist_counts_of : forall l, Z.of_nat (length l) <= U64_MAX ->
    Zsum (hist_iter_recorded (hist_of l)).*2 = Z.of_nat (length l);
}.

Lemma hist_of_snoc `{Histogram} l v : hist_of (l ++ [v]) = hist_record v (hist_of l).
Proof. unfold hist_of. by rewrite foldl_app. Qed.

(** ** [metrics/helpers.rs] *)

(** Conversion factor from microseconds to milliseconds. *)
Definition MICROS_PER_MILLI : f64 := f64_of_Z 1000.

Record Percentiles := {
  mean_ms : f64;
  p50_ms : f64;
  p90_ms : f64;
  p99_ms : f64;
}.

Definition Percentiles_default : Percentiles :=
  {| mean_ms := f64_zero; p50_ms := f64_zero; p90_ms := f64_zero; p99_ms := f64_zero |}.

(** [value as f64 / MICROS_PER_MILLI]. *)
Definition us_to_ms (value : Z) : f64 := f64_div (f64_of_Z value) MICROS_PER_MILLI.

Definition from_histogram `{Histogram} (h : hist) : Percentiles :=
  if hist_is_empty h then Percentiles_default
  else {| mean_ms := f64_div (hist_mean h) MICROS_PER_MILLI;
          p50_ms := us_to_ms (hist_value_at_quantile (f64_lit 50 100) h);
          p90_ms := us_to_ms (hist_value_at_quantile (f64_lit 90 100) h);
          p99_ms := us_to_ms (hist_value_at_quantile (f64_lit 99 100) h) |}.

(** [fold_percentiles(hist, apply)]: [apply] mutates the captured [stats]. *)
Definition fold_percentiles `{Histogram} {S} (h : hist) (apply : Percentiles -> S -> S) (stats : S)
  : S :=
  if negb (hist_is_empty h) then apply (from_histogram h) stats else stats.

(** ** Pub/sub payloads *)

(** [u128::to_be_bytes] and [u128::from_be_bytes], for [n] bytes. *)
Fixpoint to_be_bytes (n : nat) (z : Z) : bytes :=
  match n with
  | O => []
  | S n => to_be_bytes n (z / 256) ++ [ch (z mod 256)]
  end.

Definition from_be_bytes (b : bytes) : Z :=
  foldl (fun acc c => acc * 256 + byte_val c) 0 b.

(** [now_ns] is the result of [wallclock_ns()]. *)
Definition create_pubsub_payload (now_ns : Z) (user_payload : bytes) : bytes :=
  to_be_bytes 16 now_ns ++ user_payload.

Definition parse_pubsub_payload (data : bytes) : option (Z * bytes) :=
  if (length data <? 16)%nat then None
  else Some (from_be_bytes (take 16 data), drop 16 data).

(** Nanoseconds since the epoch; [when] is the offset from the epoch, negative
    when the clock is set before it. *)
Definition ns_since_epoch (when : Z) : Z := if 0 <=? when then when else 0.

(** ** [metrics/summary.rs]: the ten display buckets *)

Definition HISTOGRAM_BUCKET_ORDER : list string :=
  ["<1ms"; "1-5ms"; "5-10ms"; "10-25ms"; "25-50ms"; "50-100ms"; "100-250ms";
   "250-500ms"; "500-1000ms"; ">1000ms"]%string.

Definition bucket_key (ms : f64) : string :=
  (if f64_ltb ms (f64_of_Z 1) then "<1ms"
   else if f64_ltb ms (f64_of_Z 5) then "1-5ms"
   else if f64_ltb ms (f64_of_Z 10) then "5-10ms"
   else if f64_ltb ms (f64_of_Z 25) then "10-25ms"
   else if f64_ltb ms (f64_of_Z 50) then "25-50ms"
   else if f64_ltb ms (f64_of_Z 100) then "50-100ms"
   else if f64_ltb ms (f64_of_Z 250) then "100-250ms"
   else if f64_ltb ms (f64_of_Z 500) then "250-500ms"
   else if f64_ltb ms (f64_of_Z 1000) then "500-1000ms"
   else ">1000ms")%string.

Definition calculate_histogram_from_hdr `{Histogram} (h : hist) : gmap string Z :=
  let buckets := foldl (fun m key => <[key := 0]> m) ∅ HISTOGRAM_BUCKET_ORDER in
  foldl (fun m '(value, count) => entry_add (bucket_key (us_to_ms value)) count m)
    buckets (hist_iter_recorded h).

Definition histogram_buckets `{Histogram} (h : hist) : list Z :=
  let buckets := calculate_histogram_from_hdr h in
  (fun key => default 0 (buckets !! key)) <$> HISTOGRAM_BUCKET_ORDER.

(** ** An exact histogram, for running the models *)

Definition clamp_value (v : Z) : Z := Z.min v HISTOGRAM_HIGHEST_TRACKABLE.

(** Nearest-rank quantile over the sorted values. *)
Definition exact_quantile (q : f64) (l : list Z) : Z :=
  let s := merge_sort Z.le l in
  let n := Z.of_nat (length s) in
  let rank := Z.max 1 (f64_as_u64 (f64_add (f64_mul q (f64_of_Z n)) (f64_lit 1 2))) in
  default 0 (s !! Z.to_nat (Z.min (rank - 1) (n - 1))).

Definition exact_mean (l : list Z) : f64 := f64_div (f64_of_Z (Zsum l)) (f64_of_Z (Z.of_nat (length l))).

(** The population standard deviation. *)
Definition exact_stdev (l : list Z) : f64 :=
  let n := Z.of_nat (length l) in
  let squares := Zsum ((fun v => v * v) <$> l) in
  SFsqrt 53 1024 (f64_div (f64_of_Z (n * squares - Zsum l * Zsum l)) (f64_of_Z (n * n))).

#[export] Instance exact_histogram : Histogram := {
  hist := list Z;
  hist_new_with_max := fun _ _ => [];
  hist_record := fun v h => h ++ [clamp_value v];
  hist_len := fun h => Z.min U64_MAX (Z.of_nat (length h));
  hist_is_empty := fun h => bool_decide (h = []);
  hist_mean := exact_mean;
  hist_stdev := exact_stdev;
  hist_min := fun h => foldr Z.min U64_MAX h;
  hist_max := fun h => foldr Z.max 0 h;
  hist_value_at_quantile := exact_quantile;
  hist_iter_recorded := fun h => (fun v => (v, 1)) <$> h;
}.

Lemma exact_hist_of (l : list Z) : hist_of (H:=exact_histogram) l = (clamp_value <$> l : list Z).
Proof.
  induction l as [|v l IH] using rev_ind; [done|].
  by rewrite hist_of_snoc, IH, fmap_app.
Qed.

#[export] Instance exact_histogram_laws : HistogramLaws (H:=exact_histogram).
Proof.
  split; intros l; rewrite exact_hist_of; simpl; rewrite ?length_fmap; [lia| |].
  - apply bool_decide_ext. by destruct l.
  - intros _. rewrite <- list_fmap_compose. unfold compose; simpl.
    rewrite Zsum_const, length_fmap. lia.
Qed.

(** ** Lemmas *)

(** The fixed key set of the display buckets. *)
Lemma bucket_key_in_order ms : bucket_key ms ∈ HISTOGRAM_BUCKET_ORDER.
Proof.
  unfold bucket_key, HISTOGRAM_BUCKET_ORDER.
  repeat case_match; repeat (first [left | right]).
Qed.

Lemma length_to_be_bytes n z : length (to_be_bytes n z) = n.
Proof. revert z. induction n; intros; simpl; [done|]. rewrite length_app, IHn. simpl. lia. Qed.

Lemma from_to_be_bytes n z : from_be_bytes (to_be_bytes n z) = z mod 256 ^ Z.of_nat n.
Proof.
  revert z. induction n as [|n IH]; intros z.
  - simpl. by rewrite Z.mod_1_r.
  - cbn [to_be_bytes]. unfold from_be_bytes in *. rewrite foldl_app, IH. cbn [foldl].
    rewrite byte_val_ch by (apply Z.mod_pos_bound; lia).
    rewrite Nat2Z.inj_succ, Z.pow_succ_r by lia.
    rewrite Z.rem_mul_r by lia. lia.
Qed.

Definition bucket_dom (m : gmap string Z) : Prop :=
  forall k, is_Some (m !! k) <-> k ∈ HISTOGRAM_BUCKET_ORDER.

Lemma bucket_dom_entry_add m ms n :
  bucket_dom m -> bucket_dom (entry_add (bucket_key ms) n m).
Proof.
  intros Hm k. specialize (Hm k). unfold entry_add. rewrite lookup_insert_is_Some'.
  pose proof (bucket_key_in_order ms). naive_solver.
Qed.

Lemma calculate_histogram_dom `{Histogram} h : bucket_dom (calculate_histogram_from_hdr h).
Proof.
  unfold calculate_histogram_from_hdr. generalize (hist_iter_recorded h) as l.
  set (m0 := foldl _ ∅ HISTOGRAM_BUCKET_ORDER).
  assert (bucket_dom m0) as Hm0.
  { intros k. unfold m0, HISTOGRAM_BUCKET_ORDER; simpl.
    rewrite !lookup_insert_is_Some', lookup_empty, !elem_of_cons.
    pose proof (is_Some_None (A:=Z)). set_solver. }
  clearbody m0. intros l. revert m0 Hm0. induction l as [|[v c] l IH]; simpl; [done|].
  intros m0 Hm0. apply IH. by apply bucket_dom_entry_add.
Qed.

Lemma calculate_histogram_total `{Histogram} h :
  map_total id (calculate_histogram_from_hdr h) =
  wrap64 (Zsum (hist_iter_recorded h).*2).
Proof.
  unfold calculate_histogram_from_hdr.
  rewrite (foldl_u64_total _ (map_total id) snd).
  - done.
  - intros m [v c]. apply map_total_entry_add.
  - by apply map_total_range.
Qed.

(** No recorded value is lost by the bucketing. *)
Lemma histogram_buckets_total `{HistogramLaws} l :
  Z.of_nat (length l) <= U64_MAX ->
  u64_sum (histogram_buckets (hist_of l)) = hist_len (hist_of l).
Proof.
  intros Hl. unfold histogram_buckets.
  rewrite u64_sum_lookup_keys.
  - rewrite calculate_histogram_total, hist_counts_of, hist_len_of by done.
    apply wrap64_small. unfold in_u64. lia.
  - by apply (bool_decide_unpack (NoDup HISTOGRAM_BUCKET_ORDER)).
  - apply calculate_histogram_dom.
Qed.

Lemma length_histogram_buckets `{Histogram} h : length (histogram_buckets h) = 10%nat.
Proof. done. Qed.
