(* ===== verification/Chaos.v ===== *)
(** Chaos injection ([src/chaos.rs]): fault kinds, fault accounting, and the
    injection decision as a function of the two random draws. *)

From S2P Require Import Prelude RustStr Float.

#[local] Open Scope Z_scope.
#[local] Open Scope rust_scope.

Inductive ChaosFault :=
  | LatencySpike (duration_ms : Z)
  | CorruptedPayload
  | MetadataCorruption
  | ConnectionDrop.

#[export] Instance ChaosFault_eq_dec : EqDecision ChaosFault.
Proof. solve_decision. Defined.

Definition fault_name (f : ChaosFault) : string :=
  match f with
  | LatencySpike _ => "LatencySpike"
  | CorruptedPayload => "CorruptedPayload"
  | MetadataCorruption => "MetadataCorruption"
  | ConnectionDrop => "ConnectionDrop"
  end%string.

Record ChaosMetrics := mkChaosMetrics {
  total_injected : Z;
  faults_by_type : gmap string Z;
}.

Definition ChaosMetrics_new : ChaosMetrics := mkChaosMetrics 0 ∅.

Definition record_fault (fault : ChaosFault) (m : ChaosMetrics) : ChaosMetrics :=
  {| total_injected := total_injected m +! 1;
     faults_by_type := entry_add (fault_name fault) 1 (faults_by_type m) |}.

Record ChaosEngine := mkChaosEngine {
  enabled : bool;
  rate : f32;
}.

(** [ChaosEngine::default()]. *)
Definition ChaosEngine_default : ChaosEngine := mkChaosEngine false f64_zero.

Definition ChaosEngine_new (enabled : bool) (rate : f32) : ChaosEngine :=
  let rate := if is_nan rate then f64_zero else f64_clamp rate f64_zero (f32_of_Z 1) in
  mkChaosEngine enabled rate.

(** [draw] is [fastrand::f32()] (in [0, 1)) and [pick] is [fastrand::u8(0..4)]. *)
Definition select_fault (e : ChaosEngine) (draw : f32) (pick : Z) : option ChaosFault :=
  if negb (enabled e) || f64_geb draw (rate e) then None
  else match pick with
       | 0 => Some (LatencySpike 150)
       | 1 => Some CorruptedPayload
       | 2 => Some MetadataCorruption
       | _ => Some ConnectionDrop
       end.

(** ** Properties *)

(** A rate is valid when it is a number between 0 and 1. *)
Definition rate_ok (r : f32) : Prop :=
  is_nan r = false /\ f64_leb f64_zero r = true /\ f64_leb r (f32_of_Z 1) = true.

Lemma f64_ltb_false_leb x y :
  is_nan x = false -> is_nan y = false -> f64_ltb x y = false -> f64_leb y x = true.
Proof. intros Hx Hy E. destruct (f64_leb_total y x Hy Hx); [done|congruence]. Qed.

Lemma clamp_rate_ok r : is_nan r = false -> rate_ok (f64_clamp r f64_zero (f32_of_Z 1)).
Proof.
  intros Hr. unfold f64_clamp.
  destruct (f64_ltb r f64_zero) eqn:E1; [by split_and!|].
  destruct (f64_ltb (f32_of_Z 1) r) eqn:E2; [by split_and!|].
  split_and!; auto using f64_ltb_false_leb.
Qed.

(** Whatever rate a caller passes, the engine holds a number in [0, 1]. *)
Lemma ChaosEngine_new_rate_ok b r : rate_ok (rate (ChaosEngine_new b r)).
Proof.
  unfold ChaosEngine_new; simpl. destruct (is_nan r) eqn:E; [by split_and!|].
  by apply clamp_rate_ok.
Qed.

Definition chaos_accounted (m : ChaosMetrics) : Prop :=
  total_injected m = map_total id (faults_by_type m).

Lemma chaos_accounted_new : chaos_accounted ChaosMetrics_new.
Proof. unfold chaos_accounted; simpl. by rewrite map_total_empty. Qed.

Lemma record_fault_accounted f m : chaos_accounted m -> chaos_accounted (record_fault f m).
Proof. unfold chaos_accounted. simpl. rewrite map_total_entry_add. by intros ->. Qed.

(** The branch every engine takes when no connection drop was drawn. *)
Lemma not_dropped {A} (fault : option ChaosFault) (a b : A) :
  fault <> Some ConnectionDrop -> match fault with Some ConnectionDrop => a | _ => b end = b.
Proof. by destruct fault as [[]|]. Qed.
