(* ===== verification/Samples.v ===== *)
(** Per-iteration samples and aggregated telemetry blocks
    ([src/metrics/protocols.rs]) and the request metric with its builder
    ([src/metrics/request.rs]).

    Field names carry a prefix for their record; the order is the source's. *)

From S2P Require Import Prelude RustStr Float Histogram Chaos.

#[local] Open Scope Z_scope.
#[local] Open Scope rust_scope.

(** ** Per-iteration samples *)

Record WsSample := mkWsSample {
  wss_pings_sent : Z;
  wss_pings_received : Z;
  wss_pongs_solicited : Z;
  wss_pongs_unsolicited : Z;
  wss_backpressure_max_bytes : Z;
  wss_backpressure_samples_sum : Z;
  wss_backpressure_sample_count : Z;
  wss_threshold_breaches : Z;
}.

Definition ws_is_significant (s : WsSample) : bool :=
  (wss_pings_sent s >? 0) || (wss_pings_received s >? 0) ||
  (wss_pongs_solicited s >? 0) || (wss_pongs_unsolicited s >? 0) ||
  (wss_backpressure_max_bytes s >? 0) || (wss_backpressure_sample_count s >? 0) ||
  (wss_threshold_breaches s >? 0).

Record GrpcSample := mkGrpcSample {
  gs_active_streams : Z;
  gs_max_concurrent_streams : Z;
  gs_utilization : f64;
  gs_window_exhaustion_events : Z;
  gs_window_stall_us : Z;
  gs_send_capacity_bytes : Z;
  gs_has_send_capacity : bool;
}.

Definition grpc_is_significant (s : GrpcSample) : bool :=
  (gs_active_streams s >? 0) || f64_gtb (gs_utilization s) f64_zero ||
  (gs_window_exhaustion_events s >? 0) || (gs_window_stall_us s >? 0) ||
  gs_has_send_capacity s.

Record Http3Sample := mkHttp3Sample {
  h3s_cwnd_bytes : Z;
  h3s_migrations_attempted : Z;
  h3s_migrations_successful : Z;
}.

Definition http3_is_significant (s : Http3Sample) : bool :=
  (h3s_cwnd_bytes s >? 0) || (h3s_migrations_attempted s >? 0).

Record StompSample := mkStompSample {
  sts_messages_sent : Z;
  sts_messages_received : Z;
  sts_bytes_sent : Z;
  sts_bytes_received : Z;
  sts_errors : Z;
  sts_reconnects : Z;
  sts_send_latency_us : option Z;
  sts_receive_interval_us : option Z;
  sts_ttfm_us : option Z;
}.

Definition stomp_is_significant (s : StompSample) : bool :=
  (sts_messages_sent s >? 0) || (sts_messages_received s >? 0) ||
  (sts_bytes_sent s >? 0) || (sts_errors s >? 0) || (sts_reconnects s >? 0) ||
  is_some (sts_send_latency_us s) || is_some (sts_receive_interval_us s) ||
  is_some (sts_ttfm_us s).

Record DbSample := mkDbSample {
  dbs_rows : Z;
  dbs_errors : Z;
  dbs_acquire_us : option Z;
  dbs_query_us : option Z;
  dbs_pool_size : Z;
  dbs_pool_idle : Z;
}.

Definition db_is_significant (s : DbSample) : bool :=
  (dbs_rows s >? 0) || (dbs_errors s >? 0) || is_some (dbs_acquire_us s) ||
  is_some (dbs_query_us s) || (dbs_pool_size s >? 0).

Record QuicSample := mkQuicSample {
  qs_handshake_us : option Z;
  qs_used_0rtt : bool;
  qs_retransmits : option Z;
}.

Definition quic_is_significant (s : QuicSample) : bool :=
  is_some (qs_handshake_us s) || qs_used_0rtt s || is_some (qs_retransmits s).

Record SseSample := mkSseSample {
  sses_events_received : option Z;
  sses_first_event_us : option Z;
  sses_event_interval_us : option Z;
}.

Record GraphqlSample := mkGraphqlSample { gqs_errors : Z }.

Record GraphqlWsSample := mkGraphqlWsSample {
  gqws_operations : option Z;
  gqws_ttfm_us : option Z;
  gqws_interval_us : option Z;
  gqws_errors : option Z;
}.

Record SoapSample := mkSoapSample { sos_faults : Z }.

Inductive ProtocolSample :=
  | Ws (s : WsSample)
  | Grpc (s : GrpcSample)
  | Http3 (http3 : option Http3Sample) (quic : option QuicSample)
  | Sse (s : SseSample)
  | Stomp (s : StompSample)
  | Db (s : DbSample)
  | Graphql (s : GraphqlSample)
  | GraphqlWs (s : GraphqlWsSample)
  | Soap (s : SoapSample).

(** ** Aggregated telemetry blocks *)

Record QuicMetrics := mkQuicMetrics {
  qm_zero_rtt_accepted_count : Z;
  qm_retransmissions : Z;
  qm_avg_handshake_ms : option f64;
}.
Definition QuicMetrics_default := mkQuicMetrics 0 0 None.

Record SseMetrics := mkSseMetrics {
  ssem_total_events_received : Z;
  ssem_avg_ttfb_ms : option f64;
}.
Definition SseMetrics_default := mkSseMetrics 0 None.

Record GraphqlMetrics := mkGraphqlMetrics {
  gqm_operations_total : Z;
  gqm_error_responses_total : Z;
  gqm_errors_total : Z;
  gqm_operation_type : string;
}.
Definition GraphqlMetrics_default := mkGraphqlMetrics 0 0 0 "".

Record GraphqlWsMetrics := mkGraphqlWsMetrics {
  gqwm_operations_total : Z;
  gqwm_messages_total : Z;
  gqwm_errors_total : Z;
  gqwm_ttfm : Percentiles;
  gqwm_interval : Percentiles;
}.
Definition GraphqlWsMetrics_default :=
  mkGraphqlWsMetrics 0 0 0 Percentiles_default Percentiles_default.

Record SoapMetrics := mkSoapMetrics {
  som_operations_total : Z;
  som_fault_responses_total : Z;
  som_soap_version : string;
}.
Definition SoapMetrics_default := mkSoapMetrics 0 0 "".

(** [*_mean_ms], [*_p50_ms], [*_p90_ms], [*_p99_ms] are grouped as one
    [Percentiles] per distribution. *)
Record StompMetrics := mkStompMetrics {
  stm_messages_sent_total : Z;
  stm_messages_received_total : Z;
  stm_bytes_sent_total : Z;
  stm_errors_total : Z;
  stm_reconnects_total : Z;
  stm_destination : string;
  stm_mode : string;
  stm_ack_mode : string;
  stm_receipts_enabled : bool;
  stm_send_latency : Percentiles;
  stm_receive_interval : Percentiles;
  stm_ttfm : Percentiles;
}.
Definition StompMetrics_default :=
  mkStompMetrics 0 0 0 0 0 "" "" "" false Percentiles_default Percentiles_default Percentiles_default.

Record DatabaseMetrics := mkDatabaseMetrics {
  dbm_driver : string;
  dbm_queries_total : Z;
  dbm_rows_total : Z;
  dbm_errors_total : Z;
  dbm_pool_max : Z;
  dbm_pool_size : Z;
  dbm_fetch_mode : string;
  dbm_pool_acquire : Percentiles;
  dbm_query : Percentiles;
}.
Definition DatabaseMetrics_default :=
  mkDatabaseMetrics "" 0 0 0 0 0 "" Percentiles_default Percentiles_default.

Record WebsocketMetrics := mkWebsocketMetrics {
  wsm_pings_sent_total : Z;
  wsm_pings_received_total : Z;
  wsm_pongs_solicited_total : Z;
  wsm_pongs_unsolicited_total : Z;
  wsm_backpressure_max_bytes : Z;
  wsm_backpressure_mean_bytes : f64;
  wsm_backpressure_threshold_breaches : Z;
}.
Definition WebsocketMetrics_default := mkWebsocketMetrics 0 0 0 0 0 f64_zero 0.

Record GrpcMetrics := mkGrpcMetrics {
  gm_active_streams_peak : Z;
  gm_concurrency_utilization_peak : f64;
  gm_concurrency_utilization_mean : f64;
  gm_window_exhaustion_events_total : Z;
  gm_window_stall_duration_ms_total : f64;
  gm_send_capacity_min_bytes : Z;
}.
Definition GrpcMetrics_default := mkGrpcMetrics 0 f64_zero f64_zero 0 f64_zero 0.

Record Http3Metrics := mkHttp3Metrics {
  h3m_cwnd_bytes_current : Z;
  h3m_cwnd_bytes_min : Z;
  h3m_cwnd_bytes_max : Z;
  h3m_cwnd_bytes_mean : f64;
  h3m_migrations_attempted_total : Z;
  h3m_migrations_successful_total : Z;
  h3m_migration_success_rate : f64;
}.
Definition Http3Metrics_default := mkHttp3Metrics 0 0 0 f64_zero 0 0 f64_zero.

Section from_histograms.
Context `{Histogram}.

Definition graphql_ws_stats_from_histograms (stats : GraphqlWsMetrics) (ttfm interval : hist)
  : GraphqlWsMetrics :=
  let stats := fold_percentiles ttfm (fun p s =>
    mkGraphqlWsMetrics (gqwm_operations_total s) (gqwm_messages_total s) (gqwm_errors_total s)
      p (gqwm_interval s)) stats in
  fold_percentiles interval (fun p s =>
    mkGraphqlWsMetrics (gqwm_operations_total s) (gqwm_messages_total s) (gqwm_errors_total s)
      (gqwm_ttfm s) p) stats.

Definition stomp_set_percentiles (send interval ttfm : Percentiles) (s : StompMetrics) :=
  mkStompMetrics (stm_messages_sent_total s) (stm_messages_received_total s)
    (stm_bytes_sent_total s) (stm_errors_total s) (stm_reconnects_total s)
    (stm_destination s) (stm_mode s) (stm_ack_mode s) (stm_receipts_enabled s)
    send interval ttfm.

Definition stomp_stats_from_histograms (stats : StompMetrics) (send interval ttfm : hist)
  : StompMetrics :=
  let stats := fold_percentiles send (fun p s =>
    stomp_set_percentiles p (stm_receive_interval s) (stm_ttfm s) s) stats in
  let stats := fold_percentiles interval (fun p s =>
    stomp_set_percentiles (stm_send_latency s) p (stm_ttfm s) s) stats in
  fold_percentiles ttfm (fun p s =>
    stomp_set_percentiles (stm_send_latency s) (stm_receive_interval s) p s) stats.

Definition db_set_percentiles (acquire query : Percentiles) (s : DatabaseMetrics) :=
  mkDatabaseMetrics (dbm_driver s) (dbm_queries_total s) (dbm_rows_total s) (dbm_errors_total s)
    (dbm_pool_max s) (dbm_pool_size s) (dbm_fetch_mode s) acquire query.

Definition db_stats_from_histograms (stats : DatabaseMetrics) (acquire query : hist)
  : DatabaseMetrics :=
  let stats := fold_percentiles acquire (fun p s =>
    db_set_percentiles p (dbm_query s) s) stats in
  fold_percentiles query (fun p s =>
    db_set_percentiles (dbm_pool_acquire s) p s) stats.
End from_histograms.

(** ** The request metric *)

Record ConnectionMetrics := mkConnectionMetrics {
  connection_latency_us : option Z;
  timestamp_sent_ns : option Z;
  e2e_latency_us : option Z;
  dns_resolution_us : option Z;
  is_socket_reused : bool;
}.
Definition ConnectionMetrics_default := mkConnectionMetrics None None None None false.

Record RequestMetric := mkRequestMetric {
  latency_micros : Z;
  status_code : Z;
  rm_bytes_received : Z;
  is_reconnect : bool;
  connection : ConnectionMetrics;
  protocol : option ProtocolSample;
  chaos_fault : option ChaosFault;
}.

Definition is_error (m : RequestMetric) : bool :=
  if (status_code m =? 0) || (status_code m >=? 400) then true
  else match protocol m with
       | Some (Graphql s) => gqs_errors s >? 0
       | Some (GraphqlWs s) => match gqws_errors s with Some n => n >? 0 | None => false end
       | Some (Soap s) => sos_faults s >? 0
       | Some (Stomp s) => sts_errors s >? 0
       | Some (Db s) => dbs_errors s >? 0
       | _ => false
       end.

(** *** Accessors *)

Definition rm_ws (m : RequestMetric) : option WsSample :=
  match protocol m with Some (Ws s) => Some s | _ => None end.
Definition rm_grpc (m : RequestMetric) : option GrpcSample :=
  match protocol m with Some (Grpc s) => Some s | _ => None end.
Definition rm_http3 (m : RequestMetric) : option Http3Sample :=
  match protocol m with Some (Http3 (Some s) _) => Some s | _ => None end.
Definition rm_quic (m : RequestMetric) : option QuicSample :=
  match protocol m with Some (Http3 _ (Some s)) => Some s | _ => None end.
Definition rm_sse (m : RequestMetric) : option SseSample :=
  match protocol m with Some (Sse s) => Some s | _ => None end.
Definition rm_graphql (m : RequestMetric) : option GraphqlSample :=
  match protocol m with Some (Graphql s) => Some s | _ => None end.
Definition rm_graphql_ws (m : RequestMetric) : option GraphqlWsSample :=
  match protocol m with Some (GraphqlWs s) => Some s | _ => None end.
Definition rm_soap (m : RequestMetric) : option SoapSample :=
  match protocol m with Some (Soap s) => Some s | _ => None end.
Definition rm_stomp (m : RequestMetric) : option StompSample :=
  match protocol m with Some (Stomp s) => Some s | _ => None end.
Definition rm_db (m : RequestMetric) : option DbSample :=
  match protocol m with Some (Db s) => Some s | _ => None end.

(** *** Builder: every method consumes the metric and returns the changed one *)

Definition builder (latency_micros : Z) (chaos_fault : option ChaosFault) : RequestMetric :=
  mkRequestMetric latency_micros 0 0 false ConnectionMetrics_default None chaos_fault.

Definition error_metric (latency_micros : Z) (chaos_fault : option ChaosFault) : RequestMetric :=
  builder latency_micros chaos_fault.

Definition b_status (v : Z) (m : RequestMetric) : RequestMetric :=
  mkRequestMetric (latency_micros m) v (rm_bytes_received m) (is_reconnect m)
    (connection m) (protocol m) (chaos_fault m).
Definition b_bytes (v : Z) (m : RequestMetric) : RequestMetric :=
  mkRequestMetric (latency_micros m) (status_code m) v (is_reconnect m)
    (connection m) (protocol m) (chaos_fault m).
Definition b_reconnect (v : bool) (m : RequestMetric) : RequestMetric :=
  mkRequestMetric (latency_micros m) (status_code m) (rm_bytes_received m) v
    (connection m) (protocol m) (chaos_fault m).
Definition set_connection (c : ConnectionMetrics) (m : RequestMetric) : RequestMetric :=
  mkRequestMetric (latency_micros m) (status_code m) (rm_bytes_received m) (is_reconnect m)
    c (protocol m) (chaos_fault m).
Definition b_connection_latency_us (us : option Z) (m : RequestMetric) : RequestMetric :=
  let c := connection m in
  set_connection (mkConnectionMetrics us (timestamp_sent_ns c) (e2e_latency_us c)
    (dns_resolution_us c) (is_socket_reused c)) m.
Definition b_timestamp_sent_ns (ns : option Z) (m : RequestMetric) : RequestMetric :=
  let c := connection m in
  set_connection (mkConnectionMetrics (connection_latency_us c) ns (e2e_latency_us c)
    (dns_resolution_us c) (is_socket_reused c)) m.
Definition b_e2e_latency_us (us : option Z) (m : RequestMetric) : RequestMetric :=
  let c := connection m in
  set_connection (mkConnectionMetrics (connection_latency_us c) (timestamp_sent_ns c) us
    (dns_resolution_us c) (is_socket_reused c)) m.
Definition b_dns_resolution_us (us : option Z) (m : RequestMetric) : RequestMetric :=
  let c := connection m in
  set_connection (mkConnectionMetrics (connection_latency_us c) (timestamp_sent_ns c)
    (e2e_latency_us c) us (is_socket_reused c)) m.
Definition b_socket_reused (v : bool) (m : RequestMetric) : RequestMetric :=
  let c := connection m in
  set_connection (mkConnectionMetrics (connection_latency_us c) (timestamp_sent_ns c)
    (e2e_latency_us c) (dns_resolution_us c) v) m.

Definition set_protocol (p : ProtocolSample) (m : RequestMetric) : RequestMetric :=
  mkRequestMetric (latency_micros m) (status_code m) (rm_bytes_received m) (is_reconnect m)
    (connection m) (Some p) (chaos_fault m).

Definition b_quic (handshake_us : option Z) (used_0rtt : bool) (retransmits : option Z)
    (m : RequestMetric) : RequestMetric :=
  let sample := mkQuicSample handshake_us used_0rtt retransmits in
  match protocol m with
  | Some (Http3 http3 _) => set_protocol (Http3 http3 (Some sample)) m
  | _ => set_protocol (Http3 None (Some sample)) m
  end.

Definition b_sse_events (events first_event_us event_interval_us : option Z) (m : RequestMetric)
  : RequestMetric := set_protocol (Sse (mkSseSample events first_event_us event_interval_us)) m.

Definition b_ws (s : option WsSample) (m : RequestMetric) : RequestMetric :=
  match s with Some s => set_protocol (Ws s) m | None => m end.
Definition b_graphql (errors : option Z) (m : RequestMetric) : RequestMetric :=
  match errors with Some e => set_protocol (Graphql (mkGraphqlSample e)) m | None => m end.
Definition b_soap (faults : option Z) (m : RequestMetric) : RequestMetric :=
  match faults with Some f => set_protocol (Soap (mkSoapSample f)) m | None => m end.
Definition b_graphql_ws (operations ttfm_us interval_us errors : option Z) (m : RequestMetric)
  : RequestMetric :=
  set_protocol (GraphqlWs (mkGraphqlWsSample operations ttfm_us interval_us errors)) m.
Definition b_grpc (s : option GrpcSample) (m : RequestMetric) : RequestMetric :=
  match s with Some s => set_protocol (Grpc s) m | None => m end.
Definition b_http3 (s : option Http3Sample) (m : RequestMetric) : RequestMetric :=
  match s with
  | Some s =>
      match protocol m with
      | Some (Http3 _ quic) => set_protocol (Http3 (Some s) quic) m
      | _ => set_protocol (Http3 (Some s) None) m
      end
  | None => m
  end.
Definition b_stomp (s : option StompSample) (m : RequestMetric) : RequestMetric :=
  match s with Some s => set_protocol (Stomp s) m | None => m end.
Definition b_db (s : option DbSample) (m : RequestMetric) : RequestMetric :=
  match s with Some s => set_protocol (Db s) m | None => m end.

(** ** Properties *)

(** What a failed iteration is, stated on the fields. *)
Definition protocol_error_count (p : ProtocolSample) : Z :=
  match p with
  | Graphql s => gqs_errors s
  | GraphqlWs s => default 0 (gqws_errors s)
  | Soap s => sos_faults s
  | Stomp s => sts_errors s
  | Db s => dbs_errors s
  | _ => 0
  end.

Lemma is_error_spec m :
  is_error m = true <->
  status_code m = 0 \/ 400 <= status_code m \/
  exists p, protocol m = Some p /\ 0 < protocol_error_count p.
Proof.
  unfold is_error.
  destruct (Z.eqb_spec (status_code m) 0) as [|H0]; simpl; [naive_solver|].
  destruct (Z.geb_spec (status_code m) 400) as [|H4]; [naive_solver|].
  destruct (protocol m) as [p|]; [|naive_solver lia].
  transitivity (0 < protocol_error_count p); [|naive_solver lia].
  destruct p; simpl; rewrite ?Z.gtb_lt; try (split; [done|lia]); try done.
  destruct (gqws_errors s); simpl; rewrite ?Z.gtb_lt; [done|]. split; [done|lia].
Qed.

(** QUIC and HTTP/3 samples of one iteration merge, in either order. *)
Lemma b_http3_quic_commute h u r s m :
  b_http3 (Some s) (b_quic h u r m) = b_quic h u r (b_http3 (Some s) m).
Proof. unfold b_http3, b_quic. by destruct (protocol m) as [[]|]. Qed.
