(* ===== verification/Aggregate.v ===== *)
(** Metric aggregation ([src/metrics/aggregate.rs], [src/metrics/timeline.rs]):
    the fold of the metrics channel into counters, histograms, one accumulator
    per protocol family, and the optional timeline.

    Wall-clock readings ([Instant::now()], [elapsed()]) are arguments. *)

From S2P Require Import Prelude RustStr Float Histogram Chaos Samples.

#[local] Open Scope Z_scope.
#[local] Open Scope rust_scope.

(** ** Timeline samples ([timeline.rs]) *)

Record TimelineSample := mkTimelineSample {
  tls_elapsed_sec : f64;
  tls_rps : f64;
  tls_error_rate : f64;
  tls_p50_us : f64;
  tls_p95_us : f64;
  tls_p99_us : f64;
}.

Record Timeline := mkTimeline {
  tl_interval_ms : Z;
  tl_samples : list TimelineSample;
}.

Definition make_timeline_sample `{Histogram} (elapsed_sec : f64) (requests errors : Z)
    (interval_secs : f64) (histogram : hist) : TimelineSample :=
  let rps := if f64_gtb interval_secs f64_zero
             then f64_div (f64_of_Z requests) interval_secs else f64_zero in
  let error_rate := if requests >? 0
    then f64_mul (f64_div (f64_of_Z errors) (f64_of_Z requests)) (f64_of_Z 100) else f64_zero in
  {| tls_elapsed_sec := elapsed_sec;
     tls_rps := rps;
     tls_error_rate := error_rate;
     tls_p50_us := f64_of_Z (hist_value_at_quantile (f64_lit 50 100) histogram);
     tls_p95_us := f64_of_Z (hist_value_at_quantile (f64_lit 95 100) histogram);
     tls_p99_us := f64_of_Z (hist_value_at_quantile (f64_lit 99 100) histogram) |}.

Section aggregate.
Context `{Histogram}.

(** ** Aggregated values *)

Record AggregatedMetrics := mkAggregatedMetrics {
  ag_latency_histogram : hist;
  ag_e2e_latency_histogram : hist;
  ag_connection_latency_histogram : hist;
  ag_status_codes : gmap Z Z;
  ag_total_bytes : Z;
  ag_quic_metrics : option QuicMetrics;
  ag_sse_metrics : option SseMetrics;
  ag_ws_metrics : option WebsocketMetrics;
  ag_grpc_metrics : option GrpcMetrics;
  ag_http3_metrics : option Http3Metrics;
  ag_graphql_metrics : option GraphqlMetrics;
  ag_graphql_ws_metrics : option GraphqlWsMetrics;
  ag_soap_metrics : option SoapMetrics;
  ag_stomp_metrics : option StompMetrics;
  ag_db_metrics : option DatabaseMetrics;
  ag_timeline : option Timeline;
  ag_chaos_injected_total : Z;
  ag_chaos_faults_by_type : gmap string Z;
  ag_total_sockets_created : Z;
  ag_total_connections_reused : Z;
  ag_dns_resolution_sum_us : Z;
  ag_dns_resolution_count : Z;
}.

Definition AggregatedMetrics_default : AggregatedMetrics :=
  mkAggregatedMetrics new_histogram new_histogram new_histogram ∅ 0
    None None None None None None None None None None None 0 ∅ 0 0 0 0.

(** [if let Some(v) = o { h.saturating_record(v) }]. *)
Definition record_opt (o : option Z) (h : hist) : hist :=
  match o with Some v => hist_record v h | None => h end.

Definition record_common (metric : RequestMetric) (latency_us : Z) (m : AggregatedMetrics)
  : AggregatedMetrics :=
  let conn := connection metric in
  {| ag_latency_histogram := hist_record latency_us (ag_latency_histogram m);
     ag_e2e_latency_histogram :=
       record_opt (u64_try_from_or_max <$> e2e_latency_us conn) (ag_e2e_latency_histogram m);
     ag_connection_latency_histogram :=
       record_opt (u64_try_from_or_max <$> connection_latency_us conn)
         (ag_connection_latency_histogram m);
     ag_status_codes := entry_add (status_code metric) 1 (ag_status_codes m);
     ag_total_bytes := ag_total_bytes m +! rm_bytes_received metric;
     ag_quic_metrics := ag_quic_metrics m;
     ag_sse_metrics := ag_sse_metrics m;
     ag_ws_metrics := ag_ws_metrics m;
     ag_grpc_metrics := ag_grpc_metrics m;
     ag_http3_metrics := ag_http3_metrics m;
     ag_graphql_metrics := ag_graphql_metrics m;
     ag_graphql_ws_metrics := ag_graphql_ws_metrics m;
     ag_soap_metrics := ag_soap_metrics m;
     ag_stomp_metrics := ag_stomp_metrics m;
     ag_db_metrics := ag_db_metrics m;
     ag_timeline := ag_timeline m;
     ag_chaos_injected_total :=
       match chaos_fault metric with
       | Some _ => ag_chaos_injected_total m +! 1
       | None => ag_chaos_injected_total m
       end;
     ag_chaos_faults_by_type :=
       match chaos_fault metric with
       | Some fault => entry_add (fault_name fault) 1 (ag_chaos_faults_by_type m)
       | None => ag_chaos_faults_by_type m
       end;
     ag_total_sockets_created :=
       if is_socket_reused conn then ag_total_sockets_created m
       else ag_total_sockets_created m +! 1;
     ag_total_connections_reused :=
       if is_socket_reused conn then ag_total_connections_reused m +! 1
       else ag_total_connections_reused m;
     ag_dns_resolution_sum_us :=
       match dns_resolution_us conn with
       | Some dns_us => ag_dns_resolution_sum_us m +! dns_us
       | None => ag_dns_resolution_sum_us m
       end;
     ag_dns_resolution_count :=
       match dns_resolution_us conn with
       | Some _ => ag_dns_resolution_count m +! 1
       | None => ag_dns_resolution_count m
       end |}.

(** ** Protocol accumulators *)

(** [has.then_some(stats)]. *)
Definition then_some {A} (b : bool) (a : A) : option A := if b then Some a else None.

(** [(sum as f64 / count as f64) / 1000.0]. *)
Definition avg_ms (sum count : Z) : f64 :=
  f64_div (f64_div (f64_of_Z sum) (f64_of_Z count)) (f64_of_Z 1000).

Record QuicAccumulator := mkQuicAcc {
  qa_stats : QuicMetrics;
  qa_has : bool;
  qa_handshake_sum_us : Z;
  qa_handshake_count : Z;
}.
Definition QuicAccumulator_default := mkQuicAcc QuicMetrics_default false 0 0.

Definition quic_record (s : QuicSample) (a : QuicAccumulator) : QuicAccumulator :=
  if quic_is_significant s then
    let st := qa_stats a in
    mkQuicAcc
      (mkQuicMetrics
        (if qs_used_0rtt s then qm_zero_rtt_accepted_count st +! 1
         else qm_zero_rtt_accepted_count st)
        (match qs_retransmits s with
         | Some r => qm_retransmissions st +! r
         | None => qm_retransmissions st
         end)
        (qm_avg_handshake_ms st))
      true
      (match qs_handshake_us s with
       | Some h => qa_handshake_sum_us a +! h
       | None => qa_handshake_sum_us a
       end)
      (match qs_handshake_us s with
       | Some _ => qa_handshake_count a +! 1
       | None => qa_handshake_count a
       end)
  else a.

Definition quic_finish (a : QuicAccumulator) : option QuicMetrics :=
  if negb (qa_has a) then None
  else if qa_handshake_count a >? 0
  then Some (mkQuicMetrics (qm_zero_rtt_accepted_count (qa_stats a))
               (qm_retransmissions (qa_stats a))
               (Some (avg_ms (qa_handshake_sum_us a) (qa_handshake_count a))))
  else Some (qa_stats a).

Record SseAccumulator := mkSseAcc {
  ssea_stats : SseMetrics;
  ssea_first_event_sum_us : Z;
  ssea_first_event_count : Z;
}.
Definition SseAccumulator_default := mkSseAcc SseMetrics_default 0 0.

Definition sse_record (s : SseSample) (a : SseAccumulator) : SseAccumulator :=
  mkSseAcc
    (match sses_events_received s with
     | Some e => mkSseMetrics (ssem_total_events_received (ssea_stats a) +! e)
                   (ssem_avg_ttfb_ms (ssea_stats a))
     | None => ssea_stats a
     end)
    (match sses_first_event_us s with
     | Some f => ssea_first_event_sum_us a +! f
     | None => ssea_first_event_sum_us a
     end)
    (match sses_first_event_us s with
     | Some _ => ssea_first_event_count a +! 1
     | None => ssea_first_event_count a
     end).

Definition sse_finish (a : SseAccumulator) : option SseMetrics :=
  let st := ssea_stats a in
  let st := if ssea_first_event_count a >? 0
    then mkSseMetrics (ssem_total_events_received st)
           (Some (avg_ms (ssea_first_event_sum_us a) (ssea_first_event_count a)))
    else st in
  if (ssem_total_events_received st >? 0) || (ssea_first_event_count a >? 0)
  then Some st else None.

Record GraphqlAccumulator := mkGraphqlAcc { gqa_stats : GraphqlMetrics; gqa_has : bool }.
Definition GraphqlAccumulator_default := mkGraphqlAcc GraphqlMetrics_default false.

Definition graphql_record (s : GraphqlSample) (a : GraphqlAccumulator) : GraphqlAccumulator :=
  let st := gqa_stats a in
  mkGraphqlAcc
    (mkGraphqlMetrics
      (gqm_operations_total st +! 1)
      (if gqs_errors s >? 0 then gqm_error_responses_total st +! 1
       else gqm_error_responses_total st)
      (gqm_errors_total st +! gqs_errors s)
      (gqm_operation_type st))
    true.

Definition graphql_finish (a : GraphqlAccumulator) : option GraphqlMetrics :=
  then_some (gqa_has a) (gqa_stats a).

Record GraphqlWsAccumulator := mkGraphqlWsAcc {
  gqwa_stats : GraphqlWsMetrics;
  gqwa_has : bool;
  gqwa_ttfm : hist;
  gqwa_interval : hist;
}.
Definition GraphqlWsAccumulator_default :=
  mkGraphqlWsAcc GraphqlWsMetrics_default false new_histogram new_histogram.

Definition graphql_ws_record (s : GraphqlWsSample) (a : GraphqlWsAccumulator)
  : GraphqlWsAccumulator :=
  let st := gqwa_stats a in
  mkGraphqlWsAcc
    (mkGraphqlWsMetrics
      (match gqws_operations s with
       | Some ops => gqwm_operations_total st +! ops
       | None => gqwm_operations_total st
       end)
      (match gqws_interval_us s with
       | Some _ => gqwm_messages_total st +! 1
       | None => gqwm_messages_total st
       end)
      (match gqws_errors s with
       | Some e => gqwm_errors_total st +! e
       | None => gqwm_errors_total st
       end)
      (gqwm_ttfm st) (gqwm_interval st))
    (gqwa_has a || is_some (gqws_operations s) || is_some (gqws_ttfm_us s)
     || is_some (gqws_interval_us s) || is_some (gqws_errors s))
    (record_opt (gqws_ttfm_us s) (gqwa_ttfm a))
    (record_opt (gqws_interval_us s) (gqwa_interval a)).

Definition graphql_ws_finish (a : GraphqlWsAccumulator) : option GraphqlWsMetrics :=
  if negb (gqwa_has a) then None
  else Some (graphql_ws_stats_from_histograms (gqwa_stats a) (gqwa_ttfm a) (gqwa_interval a)).

Record SoapAccumulator := mkSoapAcc { soa_stats : SoapMetrics; soa_has : bool }.
Definition SoapAccumulator_default := mkSoapAcc SoapMetrics_default false.

Definition soap_record (s : SoapSample) (a : SoapAccumulator) : SoapAccumulator :=
  let st := soa_stats a in
  mkSoapAcc
    (mkSoapMetrics
      (som_operations_total st +! 1)
      (if sos_faults s >? 0 then som_fault_responses_total st +! 1
       else som_fault_responses_total st)
      (som_soap_version st))
    true.

Definition soap_finish (a : SoapAccumulator) : option SoapMetrics :=
  then_some (soa_has a) (soa_stats a).

Record StompAccumulator := mkStompAcc {
  sta_stats : StompMetrics;
  sta_has : bool;
  sta_send : hist;
  sta_interval : hist;
  sta_ttfm : hist;
}.
Definition StompAccumulator_default :=
  mkStompAcc StompMetrics_default false new_histogram new_histogram new_histogram.

Definition stomp_record (s : StompSample) (a : StompAccumulator) : StompAccumulator :=
  if negb (stomp_is_significant s) then a
  else
    let st := sta_stats a in
    mkStompAcc
      (mkStompMetrics
        (stm_messages_sent_total st +! sts_messages_sent s)
        (stm_messages_received_total st +! sts_messages_received s)
        (stm_bytes_sent_total st +! sts_bytes_sent s)
        (stm_errors_total st +! sts_errors s)
        (stm_reconnects_total st +! sts_reconnects s)
        (stm_destination st) (stm_mode st) (stm_ack_mode st) (stm_receipts_enabled st)
        (stm_send_latency st) (stm_receive_interval st) (stm_ttfm st))
      true
      (record_opt (sts_send_latency_us s) (sta_send a))
      (record_opt (sts_receive_interval_us s) (sta_interval a))
      (record_opt (sts_ttfm_us s) (sta_ttfm a)).

Definition stomp_finish (a : StompAccumulator) : option StompMetrics :=
  if negb (sta_has a) then None
  else Some (stomp_stats_from_histograms (sta_stats a) (sta_send a) (sta_interval a) (sta_ttfm a)).

Record DbAccumulator := mkDbAcc {
  dba_stats : DatabaseMetrics;
  dba_has : bool;
  dba_acquire : hist;
  dba_query : hist;
}.
Definition DbAccumulator_default :=
  mkDbAcc DatabaseMetrics_default false new_histogram new_histogram.

Definition db_record (s : DbSample) (a : DbAccumulator) : DbAccumulator :=
  if negb (db_is_significant s) then a
  else
    let st := dba_stats a in
    mkDbAcc
      (mkDatabaseMetrics (dbm_driver st)
        (dbm_queries_total st +! 1)
        (dbm_rows_total st +! dbs_rows s)
        (dbm_errors_total st +! dbs_errors s)
        (dbm_pool_max st)
        (if dbs_pool_size s >? 0 then dbs_pool_size s else dbm_pool_size st)
        (dbm_fetch_mode st) (dbm_pool_acquire st) (dbm_query st))
      true
      (record_opt (dbs_acquire_us s) (dba_acquire a))
      (record_opt (dbs_query_us s) (dba_query a)).

Definition db_finish (a : DbAccumulator) : option DatabaseMetrics :=
  if negb (dba_has a) then None
  else Some (db_stats_from_histograms (dba_stats a) (dba_acquire a) (dba_query a)).

Record WsAccumulator := mkWsAcc {
  wsa_stats : WebsocketMetrics;
  wsa_has : bool;
  wsa_bp_sum : Z;
  wsa_bp_count : Z;
}.
Definition WsAccumulator_default := mkWsAcc WebsocketMetrics_default false 0 0.

Definition ws_record (s : WsSample) (a : WsAccumulator) : WsAccumulator :=
  if negb (ws_is_significant s) then a
  else
    let st := wsa_stats a in
    mkWsAcc
      (mkWebsocketMetrics
        (wsm_pings_sent_total st +! wss_pings_sent s)
        (wsm_pings_received_total st +! wss_pings_received s)
        (wsm_pongs_solicited_total st +! wss_pongs_solicited s)
        (wsm_pongs_unsolicited_total st +! wss_pongs_unsolicited s)
        (if wss_backpressure_max_bytes s >? wsm_backpressure_max_bytes st
         then wss_backpressure_max_bytes s else wsm_backpressure_max_bytes st)
        (wsm_backpressure_mean_bytes st)
        (wsm_backpressure_threshold_breaches st +! wss_threshold_breaches s))
      true
      (wsa_bp_sum a +! wss_backpressure_samples_sum s)
      (wsa_bp_count a +! wss_backpressure_sample_count s).

Definition ws_finish (a : WsAccumulator) : option WebsocketMetrics :=
  let st := wsa_stats a in
  let st := if wsa_bp_count a >? 0
    then mkWebsocketMetrics (wsm_pings_sent_total st) (wsm_pings_received_total st)
           (wsm_pongs_solicited_total st) (wsm_pongs_unsolicited_total st)
           (wsm_backpressure_max_bytes st)
           (f64_div (f64_of_Z (wsa_bp_sum a)) (f64_of_Z (wsa_bp_count a)))
           (wsm_backpressure_threshold_breaches st)
    else st in
  then_some (wsa_has a) st.

Record GrpcAccumulator := mkGrpcAcc {
  ga_stats : GrpcMetrics;
  ga_has : bool;
  ga_util_sum : f64;
  ga_util_count : Z;
  ga_capacity_min : Z;
  ga_stall_sum_us : Z;
}.
Definition GrpcAccumulator_default := mkGrpcAcc GrpcMetrics_default false f64_zero 0 U64_MAX 0.

Definition grpc_record (s : GrpcSample) (a : GrpcAccumulator) : GrpcAccumulator :=
  if negb (grpc_is_significant s) then a
  else
    let st := ga_stats a in
    mkGrpcAcc
      (mkGrpcMetrics
        (if gs_active_streams s >? gm_active_streams_peak st
         then gs_active_streams s else gm_active_streams_peak st)
        (if f64_gtb (gs_utilization s) (gm_concurrency_utilization_peak st)
         then gs_utilization s else gm_concurrency_utilization_peak st)
        (gm_concurrency_utilization_mean st)
        (gm_window_exhaustion_events_total st +! gs_window_exhaustion_events s)
        (gm_window_stall_duration_ms_total st)
        (gm_send_capacity_min_bytes st))
      true
      (f64_add (ga_util_sum a) (gs_utilization s))
      (ga_util_count a +! 1)
      (if gs_has_send_capacity s && (gs_send_capacity_bytes s <? ga_capacity_min a)
       then gs_send_capacity_bytes s else ga_capacity_min a)
      (ga_stall_sum_us a +! gs_window_stall_us s).

Definition grpc_finish (a : GrpcAccumulator) : option GrpcMetrics :=
  if negb (ga_has a) then None
  else
    let st := ga_stats a in
    Some (mkGrpcMetrics
      (gm_active_streams_peak st)
      (gm_concurrency_utilization_peak st)
      (if ga_util_count a >? 0 then f64_div (ga_util_sum a) (f64_of_Z (ga_util_count a))
       else gm_concurrency_utilization_mean st)
      (gm_window_exhaustion_events_total st)
      (f64_div (f64_of_Z (ga_stall_sum_us a)) (f64_of_Z 1000))
      (if ga_capacity_min a =? U64_MAX then 0 else ga_capacity_min a)).

Record Http3Accumulator := mkHttp3Acc {
  h3a_stats : Http3Metrics;
  h3a_has : bool;
  h3a_cwnd_sum : Z;
  h3a_cwnd_count : Z;
  h3a_cwnd_min : Z;
}.
Definition Http3Accumulator_default := mkHttp3Acc Http3Metrics_default false 0 0 U64_MAX.

Definition http3_record (s : Http3Sample) (a : Http3Accumulator) : Http3Accumulator :=
  if negb (http3_is_significant s) then a
  else
    let st := h3a_stats a in
    mkHttp3Acc
      (mkHttp3Metrics
        (h3s_cwnd_bytes s)
        (h3m_cwnd_bytes_min st)
        (if h3s_cwnd_bytes s >? h3m_cwnd_bytes_max st
         then h3s_cwnd_bytes s else h3m_cwnd_bytes_max st)
        (h3m_cwnd_bytes_mean st)
        (h3m_migrations_attempted_total st +! h3s_migrations_attempted s)
        (h3m_migrations_successful_total st +! h3s_migrations_successful s)
        (h3m_migration_success_rate st))
      true
      (h3a_cwnd_sum a +! h3s_cwnd_bytes s)
      (h3a_cwnd_count a +! 1)
      (if h3s_cwnd_bytes s <? h3a_cwnd_min a then h3s_cwnd_bytes s else h3a_cwnd_min a).

Definition http3_finish (a : Http3Accumulator) : option Http3Metrics :=
  if negb (h3a_has a) then None
  else
    let st := h3a_stats a in
    Some (mkHttp3Metrics
      (h3m_cwnd_bytes_current st)
      (if h3a_cwnd_min a =? U64_MAX then 0 else h3a_cwnd_min a)
      (h3m_cwnd_bytes_max st)
      (if h3a_cwnd_count a >? 0
       then f64_div (f64_of_Z (h3a_cwnd_sum a)) (f64_of_Z (h3a_cwnd_count a))
       else h3m_cwnd_bytes_mean st)
      (h3m_migrations_attempted_total st)
      (h3m_migrations_successful_total st)
      (if h3m_migrations_attempted_total st =? 0 then f64_one
       else f64_div (f64_of_Z (h3m_migrations_successful_total st))
              (f64_of_Z (h3m_migrations_attempted_total st)))).

Record ProtocolAccumulators := mkProtocolAccs {
  pa_quic : QuicAccumulator;
  pa_sse : SseAccumulator;
  pa_graphql : GraphqlAccumulator;
  pa_graphql_ws : GraphqlWsAccumulator;
  pa_soap : SoapAccumulator;
  pa_stomp : StompAccumulator;
  pa_db : DbAccumulator;
  pa_ws : WsAccumulator;
  pa_grpc : GrpcAccumulator;
  pa_http3 : Http3Accumulator;
}.
Definition ProtocolAccumulators_default : ProtocolAccumulators :=
  mkProtocolAccs QuicAccumulator_default SseAccumulator_default GraphqlAccumulator_default
    GraphqlWsAccumulator_default SoapAccumulator_default StompAccumulator_default
    DbAccumulator_default WsAccumulator_default GrpcAccumulator_default Http3Accumulator_default.

(** [if let Some(s) = o { acc.record(s) }]. *)
Definition when_some {A S} (o : option A) (f : A -> S -> S) (s : S) : S :=
  match o with Some a => f a s | None => s end.

Definition protocols_record (protocol : option ProtocolSample) (p : ProtocolAccumulators)
  : ProtocolAccumulators :=
  let '(mkProtocolAccs quic sse graphql graphql_ws soap stomp db ws grpc http3) := p in
  match protocol with
  | None => p
  | Some (Http3 h3 q) =>
      mkProtocolAccs (when_some q quic_record quic) sse graphql graphql_ws soap stomp db ws grpc
        (when_some h3 http3_record http3)
  | Some (Sse s) => mkProtocolAccs quic (sse_record s sse) graphql graphql_ws soap stomp db ws grpc http3
  | Some (Graphql s) => mkProtocolAccs quic sse (graphql_record s graphql) graphql_ws soap stomp db ws grpc http3
  | Some (GraphqlWs s) => mkProtocolAccs quic sse graphql (graphql_ws_record s graphql_ws) soap stomp db ws grpc http3
  | Some (Soap s) => mkProtocolAccs quic sse graphql graphql_ws (soap_record s soap) stomp db ws grpc http3
  | Some (Stomp s) => mkProtocolAccs quic sse graphql graphql_ws soap (stomp_record s stomp) db ws grpc http3
  | Some (Db s) => mkProtocolAccs quic sse graphql graphql_ws soap stomp (db_record s db) ws grpc http3
  | Some (Ws s) => mkProtocolAccs quic sse graphql graphql_ws soap stomp db (ws_record s ws) grpc http3
  | Some (Grpc s) => mkProtocolAccs quic sse graphql graphql_ws soap stomp db ws (grpc_record s grpc) http3
  end.

Definition finish_into (p : ProtocolAccumulators) (m : AggregatedMetrics) : AggregatedMetrics :=
  mkAggregatedMetrics (ag_latency_histogram m) (ag_e2e_latency_histogram m)
    (ag_connection_latency_histogram m) (ag_status_codes m) (ag_total_bytes m)
    (quic_finish (pa_quic p)) (sse_finish (pa_sse p)) (ws_finish (pa_ws p))
    (grpc_finish (pa_grpc p)) (http3_finish (pa_http3 p)) (graphql_finish (pa_graphql p))
    (graphql_ws_finish (pa_graphql_ws p)) (soap_finish (pa_soap p)) (stomp_finish (pa_stomp p))
    (db_finish (pa_db p)) (ag_timeline m) (ag_chaos_injected_total m)
    (ag_chaos_faults_by_type m) (ag_total_sockets_created m) (ag_total_connections_reused m)
    (ag_dns_resolution_sum_us m) (ag_dns_resolution_count m).

(** ** Timeline accumulator *)

Record TimelineAccumulator := mkTimelineAcc {
  ta_enabled : bool;
  ta_interval_ms : Z;
  ta_sample_interval : duration;
  ta_run_start : Z;
  ta_last_sample_at : Z;
  ta_samples : list TimelineSample;
  ta_histogram : hist;
  ta_requests : Z;
  ta_errors : Z;
}.

(** [t0] and [t1] are the two [Instant::now()] readings. *)
Definition TimelineAccumulator_new (t0 t1 : Z) (timeline_interval_ms : Z) : TimelineAccumulator :=
  mkTimelineAcc (timeline_interval_ms >? 0) timeline_interval_ms
    (from_millis (Z.max timeline_interval_ms 1)) t0 t1 [] new_histogram 0 0.

Definition record_latency (latency_us : Z) (is_err : bool) (t : TimelineAccumulator)
  : TimelineAccumulator :=
  if ta_enabled t then
    mkTimelineAcc (ta_enabled t) (ta_interval_ms t) (ta_sample_interval t) (ta_run_start t)
      (ta_last_sample_at t) (ta_samples t) (hist_record latency_us (ta_histogram t))
      (ta_requests t +! 1) (if is_err then ta_errors t +! 1 else ta_errors t)
  else t.

(** The clock readings of one [maybe_emit] call, in program order: the
    interval check, the two [elapsed()] of the sample, the reset. *)
Record EmitClock := mkEmitClock { ec_check : Z; ec_run : Z; ec_last : Z; ec_reset : Z }.

Definition maybe_emit (clk : EmitClock) (t : TimelineAccumulator) : TimelineAccumulator :=
  if negb (ta_enabled t) || (ec_check clk - ta_last_sample_at t <? ta_sample_interval t) then t
  else
    let samples :=
      if ta_requests t >? 0 then
        ta_samples t ++ [make_timeline_sample
          (as_secs_f64 (ec_run clk - ta_run_start t)) (ta_requests t) (ta_errors t)
          (as_secs_f64 (ec_last clk - ta_last_sample_at t)) (ta_histogram t)]
      else ta_samples t in
    mkTimelineAcc (ta_enabled t) (ta_interval_ms t) (ta_sample_interval t) (ta_run_start t)
      (ec_reset clk) samples new_histogram 0 0.

(** [t_run], [t_last]: the readings of the final partial sample. *)
Definition timeline_finish (t_run t_last : Z) (t : TimelineAccumulator) : option Timeline :=
  let samples :=
    if ta_enabled t && (ta_requests t >? 0) then
      ta_samples t ++ [make_timeline_sample
        (as_secs_f64 (t_run - ta_run_start t)) (ta_requests t) (ta_errors t)
        (f64_max (as_secs_f64 (t_last - ta_last_sample_at t)) (f64_lit 1 1000000000))
        (ta_histogram t)]
    else ta_samples t in
  if ta_enabled t && negb (bool_decide (samples = []))
  then Some (mkTimeline (ta_interval_ms t) samples) else None.

(** ** [finalize_metrics]: the fold of the metrics channel *)

Record AggState := mkAggState {
  as_metrics : AggregatedMetrics;
  as_protocols : ProtocolAccumulators;
  as_timeline : TimelineAccumulator;
}.

(** One iteration of the receive loop; [clk] are its clock readings. *)
Definition receive (st : AggState) (mc : RequestMetric * EmitClock) : AggState :=
  let '(metric, clk) := mc in
  let latency_us := u64_try_from_or_max (latency_micros metric) in
  let metrics := record_common metric latency_us (as_metrics st) in
  let timeline := record_latency latency_us (is_error metric) (as_timeline st) in
  let protocols := protocols_record (protocol metric) (as_protocols st) in
  mkAggState metrics protocols (maybe_emit clk timeline).

Definition set_timeline (tl : option Timeline) (m : AggregatedMetrics) : AggregatedMetrics :=
  mkAggregatedMetrics (ag_latency_histogram m) (ag_e2e_latency_histogram m)
    (ag_connection_latency_histogram m) (ag_status_codes m) (ag_total_bytes m)
    (ag_quic_metrics m) (ag_sse_metrics m) (ag_ws_metrics m) (ag_grpc_metrics m)
    (ag_http3_metrics m) (ag_graphql_metrics m) (ag_graphql_ws_metrics m) (ag_soap_metrics m)
    (ag_stomp_metrics m) (ag_db_metrics m) tl (ag_chaos_injected_total m)
    (ag_chaos_faults_by_type m) (ag_total_sockets_created m) (ag_total_connections_reused m)
    (ag_dns_resolution_sum_us m) (ag_dns_resolution_count m).

(** The channel [rx] yields the metrics in order; [t0 t1] and [t_run t_last] are
    the clock readings at the start and at the end. *)
Definition finalize_metrics (rx : list (RequestMetric * EmitClock)) (timeline_interval_ms : Z)
    (t0 t1 t_run t_last : Z) : AggregatedMetrics :=
  let st := foldl receive
    (mkAggState AggregatedMetrics_default ProtocolAccumulators_default
       (TimelineAccumulator_new t0 t1 timeline_interval_ms)) rx in
  set_timeline (timeline_finish t_run t_last (as_timeline st))
    (finish_into (as_protocols st) (as_metrics st)).
End aggregate.

(** ** Lemmas *)

Section aggregate_lemmas.
Context `{Histogram}.
Implicit Types (rx : list (RequestMetric * EmitClock)) (st : AggState).

Definition latency_of (m : RequestMetric) : Z := u64_try_from_or_max (latency_micros m).

(** The counters and histograms common to all protocols are a fold of
    [record_common] alone. *)
Definition record_step (m : AggregatedMetrics) (x : RequestMetric * EmitClock) : AggregatedMetrics :=
  record_common x.1 (latency_of x.1) m.

Lemma metrics_fold rx st : as_metrics (foldl receive st rx) = foldl record_step (as_metrics st) rx.
Proof. apply (foldl_project as_metrics). by intros s [m c]. Qed.

Lemma metrics_of_finalize rx iv t0 t1 t2 t3 {T} (p : AggregatedMetrics -> T) :
  (forall tl m, p (set_timeline tl m) = p m) -> (forall a m, p (finish_into a m) = p m) ->
  p (finalize_metrics rx iv t0 t1 t2 t3) = p (foldl record_step AggregatedMetrics_default rx).
Proof. intros Hs Hf. unfold finalize_metrics. by rewrite Hs, Hf, metrics_fold. Qed.

Lemma latency_histogram_fold rx m :
  ag_latency_histogram (foldl record_step m rx) =
  foldl (fun h v => hist_record v h) (ag_latency_histogram m) ((fun x => latency_of x.1) <$> rx).
Proof.
  rewrite (foldl_project ag_latency_histogram record_step
             (fun h x => hist_record (latency_of x.1) h)) by done.
  generalize (ag_latency_histogram m) as h. induction rx; intros h; csimpl; auto.
Qed.

(** One lemma per counter: each step adds a quantity that depends on the metric
    alone, so the result is that quantity's sum. *)
Lemma record_step_total (t : AggregatedMetrics -> Z) (g : RequestMetric -> Z) rx :
  (forall m x, t (record_step m x) = t m +! g x.1) ->
  t AggregatedMetrics_default = 0 ->
  t (foldl record_step AggregatedMetrics_default rx) = wrap64 (Zsum ((fun x => g x.1) <$> rx)).
Proof.
  intros Ht H0. rewrite (foldl_u64_total _ t (fun x => g x.1)); rewrite ?H0; auto.
  unfold in_u64, U64_MAX. lia.
Qed.

Lemma u64_add_0_default (t : Z) : in_u64 t -> t = t +! 0.
Proof. intros. unfold u64_add. by rewrite Z.add_0_r, wrap64_small. Qed.

(** Invariant: every counter of the aggregate is a [u64]. *)
Definition agg_in_range (m : AggregatedMetrics) : Prop :=
  in_u64 (ag_chaos_injected_total m) /\ in_u64 (ag_total_sockets_created m) /\
  in_u64 (ag_total_connections_reused m).

Lemma default_in_range : agg_in_range AggregatedMetrics_default.
Proof. repeat split; simpl; unfold U64_MAX; lia. Qed.

Lemma record_step_in_range m x : agg_in_range m -> agg_in_range (record_step m x).
Proof.
  intros (Ha & Hb & Hc). unfold record_step, record_common. repeat split; simpl;
    repeat case_match; try apply u64_add_range; apply Ha || apply Hb || apply Hc.
Qed.

Lemma fold_in_range rx : agg_in_range (foldl record_step AggregatedMetrics_default rx).
Proof.
  induction rx as [|x rx IH] using rev_ind; [apply default_in_range|].
  rewrite foldl_app. by apply record_step_in_range.
Qed.

Definition has_fault (m : RequestMetric) : bool := is_some (chaos_fault m).

Lemma chaos_total_fold rx m0 :
  ag_chaos_injected_total m0 = map_total id (ag_chaos_faults_by_type m0) ->
  let m := foldl record_step m0 rx in
  ag_chaos_injected_total m = map_total id (ag_chaos_faults_by_type m).
Proof.
  revert m0. induction rx as [|[x c] rx IH]; intros m0 Hm0; [done|]. simpl. apply IH.
  unfold record_step, record_common; simpl.
  destruct (chaos_fault x); [|done]. by rewrite map_total_entry_add, Hm0.
Qed.

Lemma sockets_fold rx :
  let m := foldl record_step AggregatedMetrics_default rx in
  ag_total_sockets_created m +! ag_total_connections_reused m = wrap64 (Z.of_nat (length rx)).
Proof.
  simpl. set (t m := ag_total_sockets_created m +! ag_total_connections_reused m).
  change (t (foldl record_step AggregatedMetrics_default rx) = wrap64 (Z.of_nat (length rx))).
  rewrite (record_step_total t (fun _ => 1)).
  - rewrite Zsum_const. f_equal. lia.
  - intros m x. unfold t, record_step, record_common; simpl. destruct (is_socket_reused _); wrap_solve.
  - done.
Qed.

Lemma status_total_fold rx :
  map_total id (ag_status_codes (foldl record_step AggregatedMetrics_default rx)) =
  wrap64 (Z.of_nat (length rx)).
Proof.
  rewrite (record_step_total (fun m => map_total id (ag_status_codes m)) (fun _ => 1)).
  - rewrite Zsum_const. f_equal. lia.
  - intros m x. apply map_total_entry_add.
  - apply map_total_empty.
Qed.

(** The counter of one status code counts the metrics with that code. *)
Lemma status_code_fold rx code :
  default 0 (ag_status_codes (foldl record_step AggregatedMetrics_default rx) !! code) =
  wrap64 (count_if (fun x => status_code x.1 =? code) rx).
Proof.
  pose (t := fun m => default 0 (ag_status_codes m !! code)).
  change (t (foldl record_step AggregatedMetrics_default rx) =
          wrap64 (count_if (fun x => status_code x.1 =? code) rx)).
  induction rx as [|x rx IH] using rev_ind; [done|].
  rewrite foldl_app. unfold count_if in *. rewrite fmap_app, Zsum_app; simpl.
  unfold t at 1, record_step at 1, record_common, entry_add; simpl.
  destruct (Z.eqb_spec (status_code x.1) code) as [->|Hne].
  - rewrite lookup_insert_eq. simpl. unfold t in IH. rewrite IH. wrap_solve.
  - rewrite lookup_insert_ne by done. unfold t in IH. rewrite IH. f_equal. lia.
Qed.
End aggregate_lemmas.

Section protocol_blocks.
Context `{Histogram}.
Implicit Types (rx : list (RequestMetric * EmitClock)) (st : AggState).

Definition protocols_step (p : ProtocolAccumulators) (x : RequestMetric * EmitClock) :=
  protocols_record (protocol x.1) p.

Lemma protocols_fold rx st :
  as_protocols (foldl receive st rx) = foldl protocols_step (as_protocols st) rx.
Proof. apply (foldl_project as_protocols). by intros s [m c]. Qed.

(** The samples of one family, in channel order. *)
Definition samples_of {A} (q : RequestMetric -> option A) rx : list A := omap (fun x => q x.1) rx.

(** A component of the accumulators sees exactly the samples of its family. *)
Lemma protocols_project {A T} (pr : ProtocolAccumulators -> T) (q : RequestMetric -> option A)
    (h : A -> T -> T) rx p :
  (forall p x, pr (protocols_record (protocol x) p) =
               match q x with Some a => h a (pr p) | None => pr p end) ->
  pr (foldl protocols_step p rx) = foldl (fun t a => h a t) (pr p) (samples_of q rx).
Proof.
  intros Hp. unfold samples_of.
  rewrite (foldl_project pr protocols_step
    (fun t x => match q x.1 with Some a => h a t | None => t end)) by (intros s [m c]; apply Hp).
  by apply foldl_omap.
Qed.

Ltac solve_family :=
  intros [] x; unfold rm_ws, rm_grpc, rm_http3, rm_quic, rm_sse, rm_graphql, rm_graphql_ws,
    rm_soap, rm_stomp, rm_db; destruct (protocol x) as [[| |[] []| | | | | |]|]; reflexivity.

Lemma quic_family rx p : pa_quic (foldl protocols_step p rx) =
  foldl (fun a s => quic_record s a) (pa_quic p) (samples_of rm_quic rx).
Proof. apply protocols_project. solve_family. Qed.
Lemma sse_family rx p : pa_sse (foldl protocols_step p rx) =
  foldl (fun a s => sse_record s a) (pa_sse p) (samples_of rm_sse rx).
Proof. apply protocols_project. solve_family. Qed.
Lemma graphql_family rx p : pa_graphql (foldl protocols_step p rx) =
  foldl (fun a s => graphql_record s a) (pa_graphql p) (samples_of rm_graphql rx).
Proof. apply protocols_project. solve_family. Qed.
Lemma graphql_ws_family rx p : pa_graphql_ws (foldl protocols_step p rx) =
  foldl (fun a s => graphql_ws_record s a) (pa_graphql_ws p) (samples_of rm_graphql_ws rx).
Proof. apply protocols_project. solve_family. Qed.
Lemma soap_family rx p : pa_soap (foldl protocols_step p rx) =
  foldl (fun a s => soap_record s a) (pa_soap p) (samples_of rm_soap rx).
Proof. apply protocols_project. solve_family. Qed.
Lemma stomp_family rx p : pa_stomp (foldl protocols_step p rx) =
  foldl (fun a s => stomp_record s a) (pa_stomp p) (samples_of rm_stomp rx).
Proof. apply protocols_project. solve_family. Qed.
Lemma db_family rx p : pa_db (foldl protocols_step p rx) =
  foldl (fun a s => db_record s a) (pa_db p) (samples_of rm_db rx).
Proof. apply protocols_project. solve_family. Qed.
Lemma ws_family rx p : pa_ws (foldl protocols_step p rx) =
  foldl (fun a s => ws_record s a) (pa_ws p) (samples_of rm_ws rx).
Proof. apply protocols_project. solve_family. Qed.
Lemma grpc_family rx p : pa_grpc (foldl protocols_step p rx) =
  foldl (fun a s => grpc_record s a) (pa_grpc p) (samples_of rm_grpc rx).
Proof. apply protocols_project. solve_family. Qed.
Lemma http3_family rx p : pa_http3 (foldl protocols_step p rx) =
  foldl (fun a s => http3_record s a) (pa_http3 p) (samples_of rm_http3 rx).
Proof. apply protocols_project. solve_family. Qed.

(** *** Single accumulators *)

(** After [n] significant or insignificant HTTP/3 samples the window extrema
    bound every significant sample and [current] is the last one. *)
Definition h3_significant (l : list Http3Sample) : list Http3Sample :=
  filter (fun s => http3_is_significant s = true) l.

Lemma http3_fold_has l a :
  h3a_has (foldl (fun a s => http3_record s a) a l) =
  h3a_has a || negb (bool_decide (h3_significant l = [])).
Proof.
  revert a. induction l as [|s l IH]; intros a; simpl.
  - by rewrite orb_false_r.
  - rewrite IH. unfold http3_record, h3_significant. rewrite filter_cons.
    destruct (http3_is_significant s) eqn:E; [|done].
    rewrite decide_True by done. by destruct (h3a_has a).
Qed.

Lemma http3_fold_extrema l a :
  let r := foldl (fun a s => http3_record s a) a l in
  h3m_cwnd_bytes_max (h3a_stats r) =
    foldr Z.max (h3m_cwnd_bytes_max (h3a_stats a)) (h3s_cwnd_bytes <$> h3_significant l) /\
  h3a_cwnd_min r = foldr Z.min (h3a_cwnd_min a) (h3s_cwnd_bytes <$> h3_significant l).
Proof.
  assert (forall (f : Z -> Z -> Z) x y l, (forall a b c, f a (f b c) = f b (f a c)) ->
    foldr f (f x y) l = f x (foldr f y l)) as Hpush.
  { intros f x y k Hf. induction k as [|z k IHk]; simpl; [done|]. by rewrite IHk, Hf. }
  revert a. induction l as [|s l IH]; intros a; simpl; [done|].
  destruct (IH (http3_record s a)) as [-> ->]. unfold h3_significant. rewrite filter_cons.
  unfold http3_record. destruct (http3_is_significant s) eqn:E; simpl; [|done].
  rewrite <- !Hpush by lia. split; f_equal.
  - destruct (Z.gtb_spec (h3s_cwnd_bytes s) (h3m_cwnd_bytes_max (h3a_stats a))); lia.
  - destruct (Z.ltb_spec (h3s_cwnd_bytes s) (h3a_cwnd_min a)); lia.
Qed.

(** Running minimum and maximum of a list of congestion-window samples. *)
Lemma cwnd_extrema (k : list Http3Sample) :
  Forall (fun s => 0 <= h3s_cwnd_bytes s < U64_MAX) k ->
  foldr Z.min U64_MAX (h3s_cwnd_bytes <$> k) <= U64_MAX /\
  (forall s, s ∈ k -> foldr Z.min U64_MAX (h3s_cwnd_bytes <$> k) <= h3s_cwnd_bytes s
                      <= foldr Z.max 0 (h3s_cwnd_bytes <$> k)) /\
  (k = [] \/ exists s, s ∈ k /\ foldr Z.min U64_MAX (h3s_cwnd_bytes <$> k) = h3s_cwnd_bytes s).
Proof.
  induction 1 as [|s k Hs Hk (IH1 & IH2 & IH3)]; csimpl.
  - split_and!; [lia| |by left]. by intros s ?%not_elem_of_nil.
  - split_and!; [lia| |right].
    + intros s' [->|Hin]%elem_of_cons; [lia|]. specialize (IH2 s' Hin). lia.
    + destruct (Z.min_spec (h3s_cwnd_bytes s) (foldr Z.min U64_MAX (h3s_cwnd_bytes <$> k)))
        as [[Hlt Heq]|[Hlt Heq]]; rewrite Heq.
      * exists s. split; [left|done].
      * destruct IH3 as [->|(s' & Hin & Hs')]; [simpl in *; lia|]. exists s'. split; [by right|done].
Qed.

Lemma graphql_fold_counts l a :
  let r := gqa_stats (foldl (fun a s => graphql_record s a) a l) in
  in_u64 (gqm_operations_total (gqa_stats a)) ->
  in_u64 (gqm_error_responses_total (gqa_stats a)) ->
  gqm_operations_total r = wrap64 (gqm_operations_total (gqa_stats a) + Z.of_nat (length l)) /\
  gqm_error_responses_total r =
    wrap64 (gqm_error_responses_total (gqa_stats a) + count_if (fun s => gqs_errors s >? 0) l).
Proof.
  intros r H1 H2. split.
  - unfold r. rewrite (foldl_u64_total _ (fun a => gqm_operations_total (gqa_stats a)) (fun _ => 1));
      [|done|done]. rewrite Zsum_const. f_equal. lia.
  - unfold r, count_if. revert a r H1 H2. induction l as [|s l IH]; intros a r H1 H2; csimpl.
    + by rewrite Z.add_0_r, wrap64_small.
    + rewrite IH; [|apply u64_add_range|].
      * simpl. destruct (gqs_errors s >? 0); [|done]. wrap_solve.
      * simpl. destruct (gqs_errors s >? 0); [apply u64_add_range|done].
Qed.
End protocol_blocks.

(** *** The timeline *)

Section timeline.
Context `{Histogram}.
Implicit Types (rx : list (RequestMetric * EmitClock)) (st : AggState).

Definition timeline_step (t : TimelineAccumulator) (x : RequestMetric * EmitClock) :=
  maybe_emit x.2 (record_latency (latency_of x.1) (is_error x.1) t).

Lemma timeline_fold rx st :
  as_timeline (foldl receive st rx) = foldl timeline_step (as_timeline st) rx.
Proof. apply (foldl_project as_timeline). by intros s [m c]. Qed.

(** Invariant after [n] metrics: the open window holds at most [n] requests, and
    once a metric has arrived something is pending or was emitted. *)
Definition timeline_inv (n : Z) (t : TimelineAccumulator) : Prop :=
  0 <= ta_requests t <= n /\
  (ta_enabled t = true -> 0 < n -> 0 < ta_requests t \/ ta_samples t <> []) /\
  (n = 0 -> ta_samples t = []).

Lemma timeline_step_inv n t x :
  0 <= n -> n + 1 <= U64_MAX -> timeline_inv n t -> timeline_inv (n + 1) (timeline_step t x).
Proof.
  intros Hn Hmax (Hr & Hp & He). unfold timeline_step, record_latency.
  destruct (ta_enabled t) eqn:Een.
  - set (t' := mkTimelineAcc _ _ _ _ _ _ _ _ _).
    assert (ta_requests t' = ta_requests t + 1) as Hr'.
    { simpl. apply u64_add_small. unfold in_u64. lia. }
    unfold maybe_emit. destruct (_ || _).
    + split_and!; [lia..|intros; left; lia|lia].
    + assert ((ta_requests t' >? 0) = true) as -> by (rewrite Hr'; apply Z.gtb_lt; lia).
      split_and!; simpl; [lia..| |lia]. intros _ _. right. by destruct (ta_samples t).
  - unfold maybe_emit. rewrite Een; simpl. split_and!; [lia..|congruence|lia].
Qed.

Lemma timeline_enabled_fold rx t : ta_enabled (foldl timeline_step t rx) = ta_enabled t.
Proof.
  revert t. induction rx as [|x rx IH]; intros t; simpl; [done|]. rewrite IH.
  unfold timeline_step, maybe_emit, record_latency. repeat case_match; done.
Qed.

Lemma timeline_fold_inv rx t :
  Z.of_nat (length rx) <= U64_MAX -> timeline_inv 0 t ->
  timeline_inv (Z.of_nat (length rx)) (foldl timeline_step t rx).
Proof.
  induction rx as [|x rx IH] using rev_ind; intros Hl Ht; [done|].
  rewrite foldl_app. rewrite length_app in *. simpl in *.
  rewrite Nat2Z.inj_add. apply timeline_step_inv; [lia..|]. apply IH; [lia|done].
Qed.
End timeline.

(** ** Properties *)

Section properties.
Context `{Histogram}.

(** C38. Conservation of the aggregation: for every sequence of metrics received
    on the channel, whatever the clock does, the latency histogram holds exactly
    the recorded latencies, the status-code counters sum to the number of
    metrics (modulo 2^64) and each counts its own code, every metric is counted
    as either a created or a reused socket, the byte total is the sum of the
    bytes, and the chaos total equals the sum of the per-fault counters. *)
Theorem finalize_metrics_accounts (rx : list (RequestMetric * EmitClock)) (iv t0 t1 t2 t3 : Z) :
  let r := finalize_metrics rx iv t0 t1 t2 t3 in
  ag_latency_histogram r = hist_of ((fun x => latency_of x.1) <$> rx) /\
  map_total id (ag_status_codes r) = wrap64 (Z.of_nat (length rx)) /\
  (forall code, default 0 (ag_status_codes r !! code) =
     wrap64 (count_if (fun x => status_code x.1 =? code) rx)) /\
  ag_total_sockets_created r +! ag_total_connections_reused r = wrap64 (Z.of_nat (length rx)) /\
  ag_total_bytes r = wrap64 (Zsum ((fun x => rm_bytes_received x.1) <$> rx)) /\
  ag_chaos_injected_total r = map_total id (ag_chaos_faults_by_type r).
Proof.
  intros r. subst r.
  rewrite (metrics_of_finalize _ _ _ _ _ _ ag_latency_histogram) by done.
  rewrite (metrics_of_finalize _ _ _ _ _ _ ag_status_codes) by done.
  rewrite (metrics_of_finalize _ _ _ _ _ _ ag_total_sockets_created) by done.
  rewrite (metrics_of_finalize _ _ _ _ _ _ ag_total_connections_reused) by done.
  rewrite (metrics_of_finalize _ _ _ _ _ _ ag_total_bytes) by done.
  rewrite (metrics_of_finalize _ _ _ _ _ _ ag_chaos_injected_total) by done.
  rewrite (metrics_of_finalize _ _ _ _ _ _ ag_chaos_faults_by_type) by done.
  split_and!.
  - apply latency_histogram_fold.
  - apply status_total_fold.
  - apply status_code_fold.
  - apply sockets_fold.
  - by apply record_step_total.
  - apply chaos_total_fold. simpl. by rewrite map_total_empty.
Qed.

(** Refinement of the protocol dispatch: each telemetry block of the result
    is the [finish] of its own accumulator folded over exactly the samples of
    that protocol family, in channel order; samples of other families never
    touch it. *)
Theorem finalize_metrics_families (rx : list (RequestMetric * EmitClock)) (iv t0 t1 t2 t3 : Z) :
  let r := finalize_metrics rx iv t0 t1 t2 t3 in
  ag_quic_metrics r =
    quic_finish (foldl (fun a s => quic_record s a) QuicAccumulator_default (samples_of rm_quic rx)) /\
  ag_sse_metrics r =
    sse_finish (foldl (fun a s => sse_record s a) SseAccumulator_default (samples_of rm_sse rx)) /\
  ag_ws_metrics r =
    ws_finish (foldl (fun a s => ws_record s a) WsAccumulator_default (samples_of rm_ws rx)) /\
  ag_grpc_metrics r =
    grpc_finish (foldl (fun a s => grpc_record s a) GrpcAccumulator_default (samples_of rm_grpc rx)) /\
  ag_http3_metrics r =
    http3_finish (foldl (fun a s => http3_record s a) Http3Accumulator_default (samples_of rm_http3 rx)) /\
  ag_graphql_metrics r =
    graphql_finish (foldl (fun a s => graphql_record s a) GraphqlAccumulator_default (samples_of rm_graphql rx)) /\
  ag_graphql_ws_metrics r =
    graphql_ws_finish (foldl (fun a s => graphql_ws_record s a) GraphqlWsAccumulator_default
      (samples_of rm_graphql_ws rx)) /\
  ag_soap_metrics r =
    soap_finish (foldl (fun a s => soap_record s a) SoapAccumulator_default (samples_of rm_soap rx)) /\
  ag_stomp_metrics r =
    stomp_finish (foldl (fun a s => stomp_record s a) StompAccumulator_default (samples_of rm_stomp rx)) /\
  ag_db_metrics r =
    db_finish (foldl (fun a s => db_record s a) DbAccumulator_default (samples_of rm_db rx)).
Proof.
  unfold finalize_metrics; simpl. rewrite protocols_fold; simpl.
  rewrite quic_family, sse_family, ws_family, grpc_family, http3_family, graphql_family,
    graphql_ws_family, soap_family, stomp_family, db_family. by split_and!.
Qed.

(** The timeline of a run is present exactly when sampling is enabled (a
    positive interval) and at least one metric was received: requests pending in
    the last, partial window are flushed by [finish] and never dropped. *)
Theorem timeline_present_iff (rx : list (RequestMetric * EmitClock)) (iv t0 t1 t2 t3 : Z) :
  Z.of_nat (length rx) <= U64_MAX ->
  is_Some (ag_timeline (finalize_metrics rx iv t0 t1 t2 t3)) <-> 0 < iv /\ rx <> [].
Proof.
  intros Hl. unfold finalize_metrics; simpl. rewrite timeline_fold; simpl.
  set (t := foldl timeline_step _ rx).
  assert (timeline_inv (Z.of_nat (length rx)) t) as (Hr & Hp & He).
  { apply timeline_fold_inv; [done|]. split_and!; simpl; [lia..|done]. }
  assert (ta_enabled t = (iv >? 0)) as Hen by apply timeline_enabled_fold.
  clearbody t. unfold timeline_finish. rewrite Hen in *.
  destruct (Z.gtb_spec iv 0) as [Hiv|Hiv]; simpl; [|split; [by intros []|lia]].
  destruct rx as [|x rx].
  - rewrite He by done. simpl in Hr. assert (ta_requests t = 0) as -> by lia. simpl.
    split; [by intros []|by intros [_ []]].
  - split; [done|]. intros _. rewrite bool_decide_eq_false_2; [by eexists|].
    destruct (Z.gtb_spec (ta_requests t) 0); [by destruct (ta_samples t)|].
    destruct (Hp eq_refl ltac:(simpl; lia)) as [?|?]; [lia|done].
Qed.

(** The HTTP/3 block of an accumulator fed any sequence of [u64] samples:
    it is present exactly when a sample is significant, and then the reported
    congestion-window minimum and maximum are the extrema of the significant
    samples, with the minimum at most the maximum. *)
Theorem http3_block_extrema (l : list Http3Sample) :
  Forall (fun s => 0 <= h3s_cwnd_bytes s < U64_MAX) l ->
  match http3_finish (foldl (fun a s => http3_record s a) Http3Accumulator_default l) with
  | None => h3_significant l = []
  | Some b =>
      h3_significant l <> [] /\
      (forall s, s ∈ h3_significant l ->
         h3m_cwnd_bytes_min b <= h3s_cwnd_bytes s <= h3m_cwnd_bytes_max b) /\
      (exists s, s ∈ h3_significant l /\ h3m_cwnd_bytes_min b = h3s_cwnd_bytes s) /\
      h3m_cwnd_bytes_min b <= h3m_cwnd_bytes_max b
  end.
Proof.
  intros Hl. unfold http3_finish. rewrite http3_fold_has; simpl.
  destruct (http3_fold_extrema l Http3Accumulator_default) as [Hmax Hmin]; simpl in *.
  rewrite Hmax, Hmin.
  assert (Forall (fun s => 0 <= h3s_cwnd_bytes s < U64_MAX) (h3_significant l)) as Hs.
  { rewrite Forall_forall in *. intros s [_ ?]%list_elem_of_filter. auto. }
  destruct (h3_significant l) as [|s0 k] eqn:E; csimpl; [done|].
  pose proof (cwnd_extrema (s0 :: k) Hs) as (_ & Hb & [?|(s & Hin & Hmn)]); [done|]. csimpl in *.
  assert (0 <= h3s_cwnd_bytes s < U64_MAX) as Hsr by (rewrite Forall_forall in Hs; by apply Hs).
  destruct (_ =? U64_MAX) eqn:Eq; [apply Z.eqb_eq in Eq; lia|].
  split_and!; [done|done|eauto|]. specialize (Hb s Hin). lia.
Qed.
End properties.

(** A concrete run: two HTTP metrics, one of them a failure with a fault. *)
Definition demo_clock : EmitClock := mkEmitClock 0 0 0 0.
Definition demo_rx : list (RequestMetric * EmitClock) :=
  [(b_bytes 10 (b_status 200 (builder 1500 None)), demo_clock);
   (b_status 503 (builder 900 (Some ConnectionDrop)), demo_clock)].

Lemma timeline_present_iff_witness :
  Z.of_nat (length demo_rx) <= U64_MAX /\
  is_Some (ag_timeline (finalize_metrics demo_rx 1000 0 0 0 0)).
Proof.
  split; [by vm_compute|].
  apply (timeline_present_iff demo_rx 1000 0 0 0 0); [by vm_compute|by split].
Defined.

Definition demo_h3 : list Http3Sample :=
  [mkHttp3Sample 1200 0 0; mkHttp3Sample 0 0 0; mkHttp3Sample 900 1 1].

Lemma http3_block_extrema_witness :
  Forall (fun s => 0 <= h3s_cwnd_bytes s < U64_MAX) demo_h3 /\
  exists b, http3_finish (foldl (fun a s => http3_record s a) Http3Accumulator_default demo_h3) = Some b
    /\ h3m_cwnd_bytes_min b <= h3m_cwnd_bytes_max b.
Proof.
  assert (Forall (fun s => 0 <= h3s_cwnd_bytes s < U64_MAX) demo_h3) as Hd
    by (repeat constructor; vm_compute; congruence).
  split; [exact Hd|].
  pose proof (http3_block_extrema demo_h3 Hd) as Hp.
  destruct (http3_finish _) as [b|] eqn:E.
  - exists b. split; [reflexivity|]. apply Hp.
  - vm_compute in E. congruence.
Defined.
