(* ===== verification/Summary.v ===== *)
(** The summary of a run: [metrics/system.rs] and [metrics/summary.rs].

    The resource sampler thread reads cancellation, the clock and the process
    table; those readings are the arguments of the loop.  [calculate_summary]
    folds the aggregated metrics, the live counters and the resource samples into
    the [TestSummary] handed to Python. *)

From S2P Require Import Prelude RustStr Float Histogram Chaos Samples Aggregate.

#[local] Open Scope Z_scope.
#[local] Open Scope rust_scope.

(** ** [metrics/system.rs] *)

(** A single resource measurement snapshot. *)
Record ResourceSample := mkResourceSample {
  rs_timestamp_us : Z;
  rs_cpu_usage_percent : f32;
  rs_memory_rss_bytes : Z;
  rs_thread_count : Z;
  rs_open_fds : option Z;
}.

#[export] Instance ResourceSample_eq_dec : EqDecision ResourceSample.
Proof. solve_decision. Defined.

(** Aggregated system resource metrics computed from a series of samples. *)
Record SystemMetrics := mkSystemMetrics {
  sm_peak_cpu_percent : f32;
  sm_avg_cpu_percent : f32;
  sm_peak_memory_rss_bytes : Z;
  sm_avg_memory_rss_bytes : Z;
  sm_peak_thread_count : Z;
  sm_time_series : list ResourceSample;
}.

Definition SystemMetrics_default : SystemMetrics :=
  mkSystemMetrics f64_zero f64_zero 0 0 0 [].

(** [iter().sum::<f32>()] adds from the left, starting at [-0.0]. *)
Definition f32_sum (l : list f32) : f32 := foldl f32_add (S754_zero true) l.

(** [iter().max().unwrap_or(0)] on unsigned words. *)
Definition max_or_0 (l : list Z) : Z := foldr Z.max 0 l.

Definition from_samples (samples : list ResourceSample) : SystemMetrics :=
  match samples with
  | [] => SystemMetrics_default
  | _ =>
      let valid_cpu := filter (fun c => is_finite c = true) (rs_cpu_usage_percent <$> samples) in
      let peak_cpu := foldl f64_max f64_zero valid_cpu in
      let avg_cpu :=
        match valid_cpu with
        | [] => f64_zero
        | _ => f32_div (f32_sum valid_cpu) (f32_of_Z (Z.of_nat (length valid_cpu)))
        end in
      let peak_memory := max_or_0 (rs_memory_rss_bytes <$> samples) in
      let avg_memory :=
        u64_sum (rs_memory_rss_bytes <$> samples) / Z.of_nat (length samples) in
      let peak_threads := max_or_0 (rs_thread_count <$> samples) in
      {| sm_peak_cpu_percent := peak_cpu;
         sm_avg_cpu_percent := avg_cpu;
         sm_peak_memory_rss_bytes := peak_memory;
         sm_avg_memory_rss_bytes := avg_memory;
         sm_peak_thread_count := peak_threads;
         sm_time_series := samples |}
  end.

(** Cancellation poll interval while sleeping between samples. *)
Definition CANCEL_POLL : duration := from_millis 50.

(** Upper bound for the sampling interval (24 hours). *)
Definition MAX_SAMPLE_INTERVAL_MS : Z := 86400000.

(** What one round of [sleep_until_cancelled] observes: the token, then the
    clock. *)
Record SleepPoll := mkSleepPoll { sp_cancelled : bool; sp_now : Z }.

(** The loop of [sleep_until_cancelled]; the naps it takes are returned with the
    verdict, [None] while the observations given do not end it. *)
Fixpoint sleep_loop (deadline : Z) (polls : list SleepPoll) : option bool * list duration :=
  match polls with
  | [] => (None, [])
  | p :: rest =>
      if sp_cancelled p then (Some true, [])
      else if deadline <=? sp_now p then (Some false, [])
      else
        let '(r, naps) := sleep_loop deadline rest in
        (r, Z.min (u_saturating_sub deadline (sp_now p)) CANCEL_POLL :: naps)
  end.

(** [deadline] is [Instant::now().checked_add(duration)]. *)
Definition sleep_until_cancelled (deadline : option Z) (cancelled_now : bool)
  (polls : list SleepPoll) : option bool * list duration :=
  match deadline with
  | None => (Some cancelled_now, [])
  | Some deadline => sleep_loop deadline polls
  end.

(** ** The sampler thread

    [try_send] on the bounded channel reports [Full] or [Closed]; the state is
    the samples delivered so far and the count of dropped ones. *)

Inductive TrySend := TrySendOk | TrySendFull | TrySendClosed.

(** One round of the thread: the verdict of the sleep, the token after the
    refresh, the measurement ([None]: the process is not listed), the channel. *)
Record SamplerRound := mkSamplerRound {
  sr_slept_cancelled : bool;
  sr_cancelled_after_refresh : bool;
  sr_sample : option ResourceSample;
  sr_channel : TrySend;
}.

Fixpoint sampler_loop (rounds : list SamplerRound) (sent : list ResourceSample) (dropped : Z)
  : list ResourceSample * Z * bool :=
  match rounds with
  | [] => (sent, dropped, false)
  | r :: rest =>
      if sr_slept_cancelled r then (sent, dropped, true)
      else if sr_cancelled_after_refresh r then (sent, dropped, true)
      else
        match sr_sample r with
        | None => sampler_loop rest sent dropped
        | Some sample =>
            match sr_channel r with
            | TrySendOk => sampler_loop rest (sent ++ [sample]) dropped
            | TrySendFull => sampler_loop rest sent (dropped +! 1)
            | TrySendClosed => (sent, dropped, true)
            end
        end
  end.

(** [start_with_capacity]: disabled at interval 0 and when the thread cannot be
    spawned; otherwise the capped tick and the channel capacity in use. *)
Definition start_with_capacity (interval_ms capacity : Z) (spawned : bool)
  : option (duration * Z) :=
  if interval_ms =? 0 then None
  else if spawned
  then Some (from_millis (Z.min interval_ms MAX_SAMPLE_INTERVAL_MS), Z.max capacity 1)
  else None.

Definition sampler_start (interval_ms : Z) (spawned : bool) : option (duration * Z) :=
  start_with_capacity interval_ms 256 spawned.

(** ** [metrics/summary.rs] *)

Record TestSummary := mkTestSummary {
  su_url : string;
  su_total_requests : Z;
  su_total_errors : Z;
  su_average_latency_ms : f64;
  su_p95_latency_ms : f64;
  su_p99_latency_ms : f64;
  su_min_latency_ms : f64;
  su_p50_latency_ms : f64;
  su_p90_latency_ms : f64;
  su_max_latency_ms : f64;
  su_total_bytes_received : Z;
  su_duration_secs : f64;
  su_workers : Z;
  su_timestamp : string;
  su_raw_command : option string;
  su_status_codes : gmap Z Z;
  su_avg_e2e_latency_us : f64;
  su_avg_connection_latency_us : f64;
  su_quic : option QuicMetrics;
  su_sse : option SseMetrics;
  su_ws : option WebsocketMetrics;
  su_grpc : option GrpcMetrics;
  su_http3 : option Http3Metrics;
  su_graphql : option GraphqlMetrics;
  su_graphql_ws : option GraphqlWsMetrics;
  su_soap : option SoapMetrics;
  su_stomp : option StompMetrics;
  su_database : option DatabaseMetrics;
  su_timeline : option Timeline;
  su_chaos_injected_total : Z;
  su_chaos_faults_by_type : gmap string Z;
  su_std_dev_latency_ms : f64;
  su_p99_99_latency_ms : f64;
  su_latency_histogram : gmap string Z;
  su_system_metrics : option SystemMetrics;
  su_connection_reuse_ratio : f64;
  su_avg_dns_resolution_ms : f64;
}.

Section summary.
Context `{Histogram}.

(** Input parameters for summary calculation. *)
Record SummaryInput := mkSummaryInput {
  si_url : string;
  si_total_requests : Z;
  si_total_errors : Z;
  si_latency_histogram : hist;
  si_total_bytes : Z;
  si_duration_secs : f64;
  si_workers : Z;
  si_status_codes : gmap Z Z;
  si_e2e_latency_histogram : hist;
  si_connection_latency_histogram : hist;
  si_quic_metrics : option QuicMetrics;
  si_sse_metrics : option SseMetrics;
  si_ws_metrics : option WebsocketMetrics;
  si_grpc_metrics : option GrpcMetrics;
  si_http3_metrics : option Http3Metrics;
  si_graphql_metrics : option GraphqlMetrics;
  si_graphql_ws_metrics : option GraphqlWsMetrics;
  si_soap_metrics : option SoapMetrics;
  si_stomp_metrics : option StompMetrics;
  si_db_metrics : option DatabaseMetrics;
  si_timeline : option Timeline;
  si_chaos_injected_total : Z;
  si_chaos_faults_by_type : gmap string Z;
  si_resource_samples : list ResourceSample;
  si_total_sockets_created : Z;
  si_total_connections_reused : Z;
  si_dns_resolution_sum_us : Z;
  si_dns_resolution_count : Z;
}.

(** [if h.is_empty() { 0.0 } else { h.mean() }]. *)
Definition mean_or_zero (h : hist) : f64 := if hist_is_empty h then f64_zero else hist_mean h.

(** [h.value_at_quantile(p / q) as f64 / MICROS_PER_MILLI]. *)
Definition quantile_ms (p q : Z) (h : hist) : f64 :=
  f64_div (f64_of_Z (hist_value_at_quantile (f64_lit p q) h)) MICROS_PER_MILLI.

Definition calculate_summary (input : SummaryInput) : TestSummary :=
  let avg_e2e_latency_us := mean_or_zero (si_e2e_latency_histogram input) in
  let avg_connection_latency_us := mean_or_zero (si_connection_latency_histogram input) in
  let system_metrics :=
    match si_resource_samples input with
    | [] => None
    | samples => Some (from_samples samples)
    end in
  let total_connections := si_total_sockets_created input +! si_total_connections_reused input in
  let connection_reuse_ratio :=
    if 0 <? total_connections
    then f64_div (f64_of_Z (si_total_connections_reused input)) (f64_of_Z total_connections)
    else f64_zero in
  let avg_dns_resolution_ms :=
    if 0 <? si_dns_resolution_count input
    then f64_div (f64_div (f64_of_Z (si_dns_resolution_sum_us input))
                    (f64_of_Z (si_dns_resolution_count input))) (f64_of_Z 1000)
    else f64_zero in
  let h := si_latency_histogram input in
  let empty := hist_is_empty h in
  let unless_empty (x : f64) := if empty then f64_zero else x in
  {| su_url := si_url input;
     su_total_requests := si_total_requests input;
     su_total_errors := si_total_errors input;
     su_average_latency_ms := unless_empty (f64_div (hist_mean h) MICROS_PER_MILLI);
     su_p95_latency_ms := unless_empty (quantile_ms 95 100 h);
     su_p99_latency_ms := unless_empty (quantile_ms 99 100 h);
     su_min_latency_ms := unless_empty (f64_div (f64_of_Z (hist_min h)) MICROS_PER_MILLI);
     su_p50_latency_ms := unless_empty (quantile_ms 50 100 h);
     su_p90_latency_ms := unless_empty (quantile_ms 90 100 h);
     su_max_latency_ms := unless_empty (f64_div (f64_of_Z (hist_max h)) MICROS_PER_MILLI);
     su_total_bytes_received := si_total_bytes input;
     su_duration_secs := si_duration_secs input;
     su_workers := si_workers input;
     su_timestamp := "";
     su_raw_command := None;
     su_status_codes := si_status_codes input;
     su_avg_e2e_latency_us := avg_e2e_latency_us;
     su_avg_connection_latency_us := avg_connection_latency_us;
     su_quic := si_quic_metrics input;
     su_sse := si_sse_metrics input;
     su_ws := si_ws_metrics input;
     su_grpc := si_grpc_metrics input;
     su_http3 := si_http3_metrics input;
     su_graphql := si_graphql_metrics input;
     su_graphql_ws := si_graphql_ws_metrics input;
     su_soap := si_soap_metrics input;
     su_stomp := si_stomp_metrics input;
     su_database := si_db_metrics input;
     su_timeline := si_timeline input;
     su_chaos_injected_total := si_chaos_injected_total input;
     su_chaos_faults_by_type := si_chaos_faults_by_type input;
     su_std_dev_latency_ms := unless_empty (f64_div (hist_stdev h) MICROS_PER_MILLI);
     su_p99_99_latency_ms := unless_empty (quantile_ms 9999 10000 h);
     su_latency_histogram := if empty then ∅ else calculate_histogram_from_hdr h;
     su_system_metrics := system_metrics;
     su_connection_reuse_ratio := connection_reuse_ratio;
     su_avg_dns_resolution_ms := avg_dns_resolution_ms |}.
End summary.

(** ** Lemmas *)

Lemma max_or_0_spec l :
  Forall (fun x => 0 <= x) l -> l <> [] ->
  max_or_0 l ∈ l /\ Forall (fun x => x <= max_or_0 l) l.
Proof.
  intros Hl Hne. induction l as [|x l IH]; [done|].
  apply Forall_cons in Hl as [Hx Hl]. simpl. fold (max_or_0 l).
  destruct l as [|y l]; simpl.
  { rewrite elem_of_cons. split; [left; lia|]. repeat constructor; lia. }
  destruct (IH Hl ltac:(done)) as [Hin Hall]. simpl in *. fold (max_or_0 l) in *.
  split.
  - destruct (Z.max_spec x (y `max` max_or_0 l)) as [[_ ->]|[_ ->]]; set_solver.
  - constructor; [lia|]. eapply Forall_impl; [exact Hall|]. simpl. lia.
Qed.

Lemma Zsum_bounds lo hi l :
  Forall (fun x => lo <= x <= hi) l ->
  lo * Z.of_nat (length l) <= Zsum l <= hi * Z.of_nat (length l).
Proof. induction 1; simpl in *; lia. Qed.

Lemma is_finite_not_nan x : is_finite x = true -> is_nan x = false.
Proof. by destruct x. Qed.

(** The measurements taken before the thread stops, with the verdict of the
    channel on each. *)
Fixpoint measured (rounds : list SamplerRound) : list (ResourceSample * TrySend) :=
  match rounds with
  | [] => []
  | r :: rest =>
      if sr_slept_cancelled r || sr_cancelled_after_refresh r then []
      else match sr_sample r, sr_channel r with
           | None, _ => measured rest
           | Some _, TrySendClosed => []
           | Some s, c => (s, c) :: measured rest
           end
  end.

Definition accepted (x : ResourceSample * TrySend) : option ResourceSample :=
  match x.2 with TrySendOk => Some x.1 | _ => None end.
Definition rejected (x : ResourceSample * TrySend) : bool :=
  match x.2 with TrySendFull => true | _ => false end.

(** The loop delivers exactly the accepted measurements, in order, and counts
    exactly the rejected ones. *)
Lemma sampler_loop_spec rounds sent dropped :
  (sampler_loop rounds sent dropped).1.1 = sent ++ omap accepted (measured rounds) /\
  wrap64 (sampler_loop rounds sent dropped).1.2 =
    wrap64 (dropped + count_if rejected (measured rounds)).
Proof.
  revert sent dropped. induction rounds as [|r rounds IH]; intros sent dropped; simpl.
  { rewrite app_nil_r. split; [done|]. f_equal. unfold count_if; simpl. lia. }
  destruct (sr_slept_cancelled r), (sr_cancelled_after_refresh r); simpl;
    rewrite ?app_nil_r; try (split; [done|f_equal; unfold count_if; simpl; lia]).
  destruct (sr_sample r) as [s|]; [|apply IH].
  destruct (sr_channel r); simpl; rewrite ?app_nil_r.
  - rewrite (proj1 (IH _ _)), (proj2 (IH _ _)), <- app_assoc. by split.
  - rewrite (proj1 (IH _ _)), (proj2 (IH _ _)). split; [done|].
    rewrite count_if_cons. unfold u64_add. rewrite wrap64_add_l. f_equal. simpl. lia.
  - split; [done|]. f_equal. unfold count_if; simpl. lia.
Qed.

Lemma sleep_loop_naps deadline polls :
  Forall (fun d => 0 < d <= CANCEL_POLL) (sleep_loop deadline polls).2.
Proof.
  induction polls as [|p polls IH]; simpl; [done|].
  destruct (sp_cancelled p); [done|]. destruct (Z.leb_spec deadline (sp_now p)); [done|].
  destruct (sleep_loop deadline polls) as [r naps]; simpl in *. constructor; [|done].
  unfold u_saturating_sub, CANCEL_POLL, from_millis, NANOS_PER_MILLI in *. lia.
Qed.

(** The poll that ends the sleep, and the state of every poll before it. *)
Lemma sleep_loop_result deadline polls b :
  (sleep_loop deadline polls).1 = Some b <->
  exists before p after, polls = before ++ p :: after /\
    Forall (fun q => sp_cancelled q = false /\ sp_now q < deadline) before /\
    if b then sp_cancelled p = true else sp_cancelled p = false /\ deadline <= sp_now p.
Proof.
  split.
  - induction polls as [|q polls IH]; simpl; [done|].
    destruct (sp_cancelled q) eqn:Hc.
    { intros [= <-]. by exists [], q, polls. }
    destruct (Z.leb_spec deadline (sp_now q)).
    { intros [= <-]. by exists [], q, polls. }
    destruct (sleep_loop deadline polls) as [r naps]; simpl in *.
    intros (before & p & after & -> & Hb & Hp)%IH. exists (q :: before), p, after.
    split_and!; [done| |done]. by constructor.
  - intros (before & p & after & -> & Hb & Hp).
    induction Hb as [|q before [Hc Hn] Hb IH]; simpl.
    { destruct b; [by rewrite Hp|]. destruct Hp as [-> Hp]. by rewrite (proj2 (Z.leb_le _ _) Hp). }
    rewrite Hc, (proj2 (Z.leb_gt _ _) Hn).
    by destruct (sleep_loop deadline (before ++ p :: after)).
Qed.

Lemma from_samples_fields samples :
  samples <> [] ->
  let m := from_samples samples in
  sm_peak_memory_rss_bytes m = max_or_0 (rs_memory_rss_bytes <$> samples) /\
  sm_peak_thread_count m = max_or_0 (rs_thread_count <$> samples) /\
  sm_peak_cpu_percent m = foldl f64_max f64_zero
    (filter (fun c => is_finite c = true) (rs_cpu_usage_percent <$> samples)) /\
  sm_avg_memory_rss_bytes m =
    u64_sum (rs_memory_rss_bytes <$> samples) / Z.of_nat (length samples) /\
  sm_time_series m = samples.
Proof. by destruct samples. Qed.

Lemma peak_cpu_spec samples :
  samples <> [] ->
  let m := from_samples samples in
  (sm_peak_cpu_percent m = f64_zero \/ sm_peak_cpu_percent m ∈ rs_cpu_usage_percent <$> samples) /\
  Forall (fun s => is_finite (rs_cpu_usage_percent s) = true ->
            f64_leb (rs_cpu_usage_percent s) (sm_peak_cpu_percent m) = true) samples.
Proof.
  intros Hne m. destruct (from_samples_fields samples Hne) as (_ & _ & E & _). fold m in E. rewrite E.
  destruct (f64_max_fold_spec (filter (fun c => is_finite c = true) (rs_cpu_usage_percent <$> samples))
    f64_zero eq_refl) as (Hc1 & _ & _ & Hc2).
  { apply Forall_forall. intros x [Hx _]%list_elem_of_filter. by apply is_finite_not_nan. }
  split.
  - destruct Hc1 as [->|[_ Hc]%list_elem_of_filter]; auto.
  - apply Forall_forall. intros s Hs Hf. rewrite Forall_forall in Hc2. apply Hc2.
    apply list_elem_of_filter. split; [done|]. by apply list_elem_of_fmap_2.
Qed.

(** ** Properties *)

(** The resource block is sound: memory and thread peaks bound every sample and
    are attained, the CPU peak bounds every finite reading and is one of them
    (or 0.0), the mean memory lies between the smallest and the largest sample
    whenever their sum fits in 64 bits, and the series is kept as sampled. *)
Theorem system_metrics_sound (samples : list ResourceSample) :
  samples <> [] ->
  Forall (fun s => 0 <= rs_memory_rss_bytes s /\ 0 <= rs_thread_count s) samples ->
  Zsum (rs_memory_rss_bytes <$> samples) <= U64_MAX ->
  let m := from_samples samples in
  sm_peak_memory_rss_bytes m ∈ rs_memory_rss_bytes <$> samples /\
  Forall (fun s => rs_memory_rss_bytes s <= sm_peak_memory_rss_bytes m) samples /\
  sm_peak_thread_count m ∈ rs_thread_count <$> samples /\
  Forall (fun s => rs_thread_count s <= sm_peak_thread_count m) samples /\
  (sm_peak_cpu_percent m = f64_zero \/ sm_peak_cpu_percent m ∈ rs_cpu_usage_percent <$> samples) /\
  Forall (fun s => is_finite (rs_cpu_usage_percent s) = true ->
            f64_leb (rs_cpu_usage_percent s) (sm_peak_cpu_percent m) = true) samples /\
  (forall lo, Forall (fun s => lo <= rs_memory_rss_bytes s) samples ->
     lo <= sm_avg_memory_rss_bytes m <= sm_peak_memory_rss_bytes m) /\
  sm_time_series m = samples.
Proof.
  intros Hne Hpos Hsum.
  destruct (peak_cpu_spec samples Hne) as [Hc1 Hc2].
  destruct (from_samples_fields samples Hne) as (Em & Et & _ & Ea & Es).
  assert (Hmem : Forall (fun x => 0 <= x) (rs_memory_rss_bytes <$> samples)).
  { apply Forall_fmap. eapply Forall_impl; [exact Hpos|]. by intros ? []. }
  assert (Hthr : Forall (fun x => 0 <= x) (rs_thread_count <$> samples)).
  { apply Forall_fmap. eapply Forall_impl; [exact Hpos|]. by intros ? []. }
  destruct (max_or_0_spec _ Hmem) as [Hm1 Hm2]; [by destruct samples|].
  destruct (max_or_0_spec _ Hthr) as [Ht1 Ht2]; [by destruct samples|].
  rewrite Forall_fmap in Hm2, Ht2.
  intros m. subst m. rewrite Em, Et, Ea, Es. split_and!; try done.
  intros lo Hlo. rewrite u64_sum_Zsum, wrap64_small by (split; [by apply Zsum_nonneg|done]).
  assert (HB : Forall (fun x => lo <= x <= max_or_0 (rs_memory_rss_bytes <$> samples))
                 (rs_memory_rss_bytes <$> samples)).
  { apply Forall_fmap, Forall_and. split; done. }
  apply Zsum_bounds in HB. rewrite length_fmap in HB.
  assert (0 < Z.of_nat (length samples)) by (destruct samples; simpl; [done|lia]).
  split; [apply Z.div_le_lower_bound; lia | apply Z.div_le_upper_bound; lia].
Qed.

Lemma system_metrics_sound_witness :
  let a := mkResourceSample 1 (f32_of_Z 12) 300 4 None in
  let b := mkResourceSample 2 S754_nan 100 7 (Some 9) in
  sm_avg_memory_rss_bytes (from_samples [a; b]) = 200 /\
  sm_time_series (from_samples [a; b]) = [a; b].
Proof.
  intros a b. split; [reflexivity|].
  apply (system_metrics_sound [a; b]).
  - done.
  - repeat constructor; simpl; lia.
  - vm_compute. congruence.
Defined.

(** Cancellation is prompt: the sleep reports cancellation exactly when a poll
    saw the token cancelled before any poll reached the deadline, the deadline
    exactly when a poll reached it with no earlier cancellation, and between two
    polls it never naps longer than the 50 ms poll interval (nor for nothing). *)
Theorem sleep_until_cancelled_prompt (deadline : Z) (now : bool) (polls : list SleepPoll) (b : bool) :
  let r := sleep_until_cancelled (Some deadline) now polls in
  Forall (fun d => 0 < d <= CANCEL_POLL) r.2 /\
  (r.1 = Some b <->
   exists before p after, polls = before ++ p :: after /\
     Forall (fun q => sp_cancelled q = false /\ sp_now q < deadline) before /\
     if b then sp_cancelled p = true else sp_cancelled p = false /\ deadline <= sp_now p).
Proof. split; [apply sleep_loop_naps|apply sleep_loop_result]. Qed.

(** The sampler loses nothing silently: starting empty, what reaches the
    receiver is exactly the accepted measurements in order, every measurement
    taken before the thread stops is either delivered or counted as dropped, and
    the channel has room for at least one sample. *)
Theorem sampler_accounts (rounds : list SamplerRound) (interval capacity : Z) (tick cap : Z) :
  Z.of_nat (length (measured rounds)) <= U64_MAX ->
  start_with_capacity interval capacity true = Some (tick, cap) ->
  let '(sent, dropped, _) := sampler_loop rounds [] 0 in
  sent = omap accepted (measured rounds) /\
  Z.of_nat (length sent) + wrap64 dropped = Z.of_nat (length (measured rounds)) /\
  1 <= cap /\ tick <= from_millis MAX_SAMPLE_INTERVAL_MS.
Proof.
  intros Hlen Hs. pose proof (sampler_loop_spec rounds [] 0) as [H1 H2].
  destruct (sampler_loop rounds [] 0) as [[sent dropped] stopped]. simpl in *. subst sent.
  assert (HL : Z.of_nat (length (omap accepted (measured rounds))) + count_if rejected (measured rounds)
               = Z.of_nat (length (measured rounds))).
  { clear. induction rounds as [|r rounds IH]; [done|]. simpl.
    destruct (_ || _); [done|]. destruct (sr_sample r); [|done].
    destruct (sr_channel r); try done; rewrite count_if_cons; csimpl; lia. }
  pose proof (count_if_bounds rejected (measured rounds)).
  rewrite H2, wrap64_small by (unfold in_u64; lia).
  unfold start_with_capacity in Hs. case_match; simplify_eq.
  unfold from_millis, NANOS_PER_MILLI. split_and!; try reflexivity; lia.
Qed.

Lemma sampler_accounts_witness :
  let s n := mkResourceSample n (f32_of_Z 1) n 1 None in
  let r n c := mkSamplerRound false false (Some (s n)) c in
  let rounds := [r 1 TrySendOk; r 2 TrySendFull; r 3 TrySendOk;
                 mkSamplerRound true false (Some (s 4)) TrySendOk] in
  (sampler_loop rounds [] 0).1.1 = [s 1; s 3] /\
  let '(sent, dropped, _) := sampler_loop rounds [] 0 in
  Z.of_nat (length sent) + wrap64 dropped = 3.
Proof.
  intros s r rounds. split; [reflexivity|].
  refine (match sampler_accounts rounds 100 256 (from_millis 100) 256 _ eq_refl with
          | conj _ (conj H _) => H end).
  vm_compute. congruence.
Defined.
