(* ===== verification/LoadProfile.v ===== *)
(** Load profiles ([src/config.rs]) and the supervisor that follows them
    ([src/lib.rs], [execute_test]): how many workers should run at each instant,
    and the loop that spawns, cancels and joins them.

    A worker is the number of its spawn; its child token and its join handle
    carry that number.  The supervisor makes one round per observation: the
    elapsed time it reads and whether the run has been cancelled by then.
    Integers of the profile are [u64]/[usize]; sums wrap at 64 bits. *)

From S2P Require Import Prelude RustStr Float.

#[local] Open Scope Z_scope.
#[local] Open Scope rust_scope.

Definition MAX_CONCURRENCY : Z := 10000.

Inductive LoadProfile :=
  | LP_Constant (concurrency duration_secs : Z)
  | LP_Ramp (start_concurrency target_concurrency ramp_secs hold_secs : Z)
  | LP_Spike (baseline_concurrency peak_concurrency pre_spike_secs spike_secs post_spike_secs : Z).

Definition total_duration (p : LoadProfile) : Z :=
  match p with
  | LP_Constant _ d => d
  | LP_Ramp _ _ ramp hold => ramp +! hold
  | LP_Spike _ _ pre spike post => pre +! spike +! post
  end.

Definition max_concurrency (p : LoadProfile) : Z :=
  match p with
  | LP_Constant c _ => c
  | LP_Ramp _ target _ _ => target
  | LP_Spike _ peak _ _ _ => peak
  end.

(** The linear interpolation of a ramp, in doubles. *)
Definition ramp_level (start target ramp_secs t : Z) : Z :=
  let progress := f64_div (f64_of_Z t) (f64_of_Z ramp_secs) in
  let range := f64_sub (f64_of_Z target) (f64_of_Z start) in
  f64_as_u64 (f64_round (f64_add (f64_of_Z start) (f64_mul range progress))).

Definition target_concurrency (p : LoadProfile) (elapsed : duration) : Z :=
  let t := as_secs elapsed in
  match p with
  | LP_Constant c _ => c
  | LP_Ramp start target ramp_secs _ =>
      if t <? ramp_secs then
        if ramp_secs =? 0 then target else ramp_level start target ramp_secs t
      else target
  | LP_Spike baseline peak pre spike _ =>
      if t <? pre then baseline
      else if t <? pre +! spike then peak
      else baseline
  end.

Definition concurrency_upper_bound (p : LoadProfile) : Z :=
  match p with
  | LP_Constant c _ => c
  | LP_Ramp start target _ _ => Z.max start target
  | LP_Spike baseline peak _ _ _ => Z.max baseline peak
  end.

Inductive ConcurrencyStrategy :=
  | CS_Constant (concurrency duration_secs : Z)
  | CS_Dynamic (profile : LoadProfile).

Definition strategy_max_concurrency (s : ConcurrencyStrategy) : Z :=
  match s with CS_Constant c _ => c | CS_Dynamic p => max_concurrency p end.

Definition strategy_total_duration_secs (s : ConcurrencyStrategy) : Z :=
  match s with CS_Constant _ d => d | CS_Dynamic p => total_duration p end.

Definition ensure_concurrency_limit (concurrency : Z) : result string () :=
  if (concurrency =? 0) || (MAX_CONCURRENCY <? concurrency)
  then Err "concurrency must be between 1 and 10000"%string else Ok ().

(** ** The supervisor *)

Record Supervisor := mkSupervisor {
  sv_spawned : list duration;    (** the duration each worker was given, by spawn number *)
  sv_child_tokens : list nat;    (** most recent first *)
  sv_handles : list nat;         (** most recent first *)
  sv_current : Z;
  sv_cancelled : list nat;       (** tokens cancelled, in order *)
  sv_joined : list nat;          (** handles awaited, in order *)
}.

Definition Supervisor_new : Supervisor := mkSupervisor [] [] [] 0 [] [].

Definition spawn_child (remaining : duration) (s : Supervisor) : Supervisor :=
  let w := length (sv_spawned s) in
  mkSupervisor (sv_spawned s ++ [remaining]) (w :: sv_child_tokens s) (w :: sv_handles s)
    (usize_add (sv_current s) 1) (sv_cancelled s) (sv_joined s).

(** [while current_concurrency < target]; it takes [target - current] rounds. *)
Fixpoint scale_up (fuel : nat) (remaining : duration) (target : Z) (s : Supervisor) : Supervisor :=
  if sv_current s <? target then
    match fuel with
    | O => s
    | S fuel => scale_up fuel remaining target (spawn_child remaining s)
    end
  else s.

(** [while current_concurrency > target]: the most recent worker is cancelled and
    its handle set aside.  Without a token to pop the loop would spin for ever:
    [None]. *)
Fixpoint scale_down (fuel : nat) (target : Z) (s : Supervisor) (reaped : list nat)
  : option (Supervisor * list nat) :=
  if target <? sv_current s then
    match fuel with
    | O => None
    | S fuel =>
        match sv_child_tokens s with
        | [] => None
        | token :: tokens =>
            let '(handles, reaped) := match sv_handles s with
                                      | h :: hs => (hs, reaped ++ [h])
                                      | [] => ([], reaped)
                                      end in
            scale_down fuel target
              (mkSupervisor (sv_spawned s) tokens handles (sv_current s - 1)
                 (sv_cancelled s ++ [token]) (sv_joined s)) reaped
        end
    end
  else Some (s, reaped).

Definition join_all (handles : list nat) (s : Supervisor) : Supervisor :=
  mkSupervisor (sv_spawned s) (sv_child_tokens s) (sv_handles s) (sv_current s)
    (sv_cancelled s) (sv_joined s ++ handles).

(** One round at [elapsed]: scale to the target, then join what was reaped. *)
Definition supervisor_tick (p : LoadProfile) (total elapsed : duration) (s : Supervisor)
  : option Supervisor :=
  let target := target_concurrency p elapsed in
  let remaining := Z.max 0 (total - elapsed) in
  let s := scale_up (Z.to_nat (target - sv_current s)) remaining target s in
  '(s, reaped) ← scale_down (Z.to_nat (sv_current s - target)) target s [];
  Some (join_all reaped s).

(** Teardown: cancel every remaining token, then join every remaining handle, in
    the order of the vectors. *)
Definition supervisor_teardown (s : Supervisor) : Supervisor :=
  mkSupervisor (sv_spawned s) (sv_child_tokens s) [] (sv_current s)
    (sv_cancelled s ++ rev (sv_child_tokens s)) (sv_joined s ++ rev (sv_handles s)).

(** The supervisor task over the (elapsed, cancelled) pairs it observes; it is
    still running ([inr]) when the observations end before the run does. *)
Fixpoint supervise (p : LoadProfile) (total : duration) (obs : list (duration * bool)) (s : Supervisor)
  : option (Supervisor + Supervisor) :=
  match obs with
  | [] => Some (inr s)
  | (elapsed, cancelled) :: obs =>
      if (total <=? elapsed) || cancelled then Some (inl (supervisor_teardown s))
      else s ← supervisor_tick p total elapsed s; supervise p total obs s
  end.

Example ramp_levels :
  (fun t => target_concurrency (LP_Ramp 10 100 3 5) (from_secs t)) <$> [0; 1; 2; 3] = [10; 40; 70; 100].
Proof. vm_compute. reflexivity. Qed.

(** ** Lemmas *)

(** The live workers are those with a token, newest first; together with the
    cancelled ones they are all spawned workers, each once; live workers have
    their handles, cancelled ones were joined. *)
Definition supervisor_inv (s : Supervisor) : Prop :=
  sv_handles s = sv_child_tokens s /\
  sv_current s = Z.of_nat (length (sv_child_tokens s)) /\
  sv_joined s = sv_cancelled s /\
  sv_child_tokens s ++ sv_cancelled s ≡ₚ seq 0 (length (sv_spawned s)).

Lemma supervisor_inv_new : supervisor_inv Supervisor_new.
Proof. done. Qed.

Lemma spawn_child_inv remaining s :
  supervisor_inv s -> sv_current s < U64_MAX ->
  supervisor_inv (spawn_child remaining s) /\ sv_current (spawn_child remaining s) = sv_current s + 1.
Proof.
  intros (Hh & Hc & Hj & Hp) Hmax.
  assert (Hn : usize_add (sv_current s) 1 = sv_current s + 1).
  { apply wrap64_small. unfold in_u64. lia. }
  split; [|done]. unfold supervisor_inv. simpl. rewrite Hh, Hn, Hc. split_and!; [done|lia|done|].
  rewrite length_app, seq_app. simpl. rewrite Hp. by rewrite Permutation_app_comm.
Qed.

Lemma scale_up_inv remaining target s fuel :
  supervisor_inv s -> target <= U64_MAX -> Z.to_nat (target - sv_current s) = fuel ->
  let s' := scale_up fuel remaining target s in
  supervisor_inv s' /\ sv_current s' = Z.max (sv_current s) target /\
  sv_cancelled s' = sv_cancelled s /\
  sv_spawned s' = sv_spawned s ++ replicate fuel remaining.
Proof.
  intros Hs Ht. revert s Hs. induction fuel as [|fuel IH]; intros s Hs Hf; cbn [scale_up].
  - destruct (Z.ltb_spec (sv_current s) target); [lia|].
    rewrite app_nil_r. split_and!; [done|lia|done|done].
  - destruct (Z.ltb_spec (sv_current s) target); [|lia].
    destruct (spawn_child_inv remaining s Hs ltac:(lia)) as [Hi Hc].
    destruct (IH (spawn_child remaining s) Hi ltac:(lia)) as (? & ? & Hcan & Hsp).
    split_and!; [done|lia|done|]. rewrite Hsp. simpl. by rewrite <- app_assoc.
Qed.

(** Scaling down reaps the newest workers: the loop always finds a token. *)
Lemma scale_down_inv target s reaped fuel :
  0 <= target -> sv_handles s = sv_child_tokens s ->
  sv_current s = Z.of_nat (length (sv_child_tokens s)) ->
  Z.to_nat (sv_current s - target) = fuel ->
  scale_down fuel target s reaped =
    Some (mkSupervisor (sv_spawned s) (drop fuel (sv_child_tokens s)) (drop fuel (sv_child_tokens s))
            (sv_current s - Z.of_nat fuel) (sv_cancelled s ++ take fuel (sv_child_tokens s)) (sv_joined s),
          reaped ++ take fuel (sv_child_tokens s)).
Proof.
  intros Ht. revert s reaped. induction fuel as [|fuel IH]; intros s reaped Hh Hc Hf; cbn [scale_down].
  - destruct (Z.ltb_spec target (sv_current s)); [lia|]. rewrite !drop_0, !take_0, !app_nil_r.
    destruct s; simpl in *. subst. do 3 f_equal. lia.
  - destruct (Z.ltb_spec target (sv_current s)); [|lia]. rewrite Hh.
    destruct (sv_child_tokens s) as [|w ws] eqn:E; [simpl in Hc; lia|].
    simpl in Hc. rewrite IH; simpl; [|done|lia|lia]. rewrite <- !app_assoc. simpl.
    do 3 f_equal. lia.
Qed.

Lemma supervisor_tick_inv p total elapsed s :
  supervisor_inv s -> 0 <= target_concurrency p elapsed <= U64_MAX ->
  exists s', supervisor_tick p total elapsed s = Some s' /\ supervisor_inv s' /\
    Z.of_nat (length (sv_child_tokens s')) = target_concurrency p elapsed.
Proof.
  intros Hs Ht. unfold supervisor_tick. set (target := target_concurrency p elapsed) in *.
  destruct (scale_up_inv (Z.max 0 (total - elapsed)) target s _ Hs ltac:(lia) eq_refl)
    as ((Hh & Hc & Hj & Hp) & Hm & Hcan & Hsp).
  set (s1 := scale_up _ _ _ _) in *. set (k := Z.to_nat (sv_current s1 - target)).
  rewrite (scale_down_inv target s1 [] k) by (done || lia). simpl.
  eexists. split; [done|].
  assert (Hlen : Z.of_nat (length (drop k (sv_child_tokens s1))) = target).
  { rewrite length_drop. unfold k. lia. }
  unfold supervisor_inv, join_all. simpl. split; [|done]. split_and!; [done|lia|by rewrite Hj|].
  rewrite <- Hp. rewrite (Permutation_app_comm (sv_cancelled s1)), app_assoc.
  by rewrite (Permutation_app_comm (drop k _)), take_drop.
Qed.

(** The fields of a profile are machine integers. *)
Definition profile_ok (p : LoadProfile) : Prop :=
  match p with
  | LP_Constant c d => in_u64 c /\ in_u64 d
  | LP_Ramp a b c d => in_u64 a /\ in_u64 b /\ in_u64 c /\ in_u64 d
  | LP_Spike a b c d e => in_u64 a /\ in_u64 b /\ in_u64 c /\ in_u64 d /\ in_u64 e
  end.

Lemma f64_as_u64_range x : in_u64 (f64_as_u64 x).
Proof.
  unfold in_u64, f64_as_u64. assert (0 <= U64_MAX) by (unfold U64_MAX; lia).
  destruct x as [?|[]| |? ? ?]; lia.
Qed.

Lemma target_concurrency_range p elapsed : profile_ok p -> in_u64 (target_concurrency p elapsed).
Proof.
  destruct p; simpl; intros; repeat case_match; unfold ramp_level; try apply f64_as_u64_range; naive_solver.
Qed.

Lemma supervise_inv p total obs s :
  profile_ok p -> supervisor_inv s ->
  exists r, supervise p total obs s = Some r /\
    match r with
    | inl s' => exists s1, supervisor_inv s1 /\ s' = supervisor_teardown s1
    | inr s' => supervisor_inv s' /\
        forall before elapsed c, obs = before ++ [(elapsed, c)] ->
          Z.of_nat (length (sv_child_tokens s')) = target_concurrency p elapsed
    end.
Proof.
  intros Hp. revert s. induction obs as [|[elapsed c] obs IH]; intros s Hs; cbn [supervise].
  - eexists. split; [done|]. split; [done|]. intros [|] ??; done.
  - destruct ((total <=? elapsed) || c); [naive_solver|].
    destruct (supervisor_tick_inv p total elapsed s Hs (target_concurrency_range p elapsed Hp))
      as (s1 & -> & Hs1 & Hl). simpl.
    destruct (IH s1 Hs1) as (r & Hr & Hinv). exists r. split; [done|]. destruct r; [done|].
    destruct Hinv as [Hi Hlast]. split; [done|]. intros before e c' E.
    destruct before as [|o before]; simplify_eq/=; eauto.
Qed.

(** ** Theorems *)

(** C17. The supervisor follows its profile: whatever it observes, its loops
    end, and after every round exactly as many workers are live as the profile
    asks for at the elapsed time it read; live and cancelled workers are all
    the spawned ones, each once, and the cancelled ones were joined.  When the
    run is over or cancelled it ends with every worker it ever spawned
    cancelled exactly once and joined exactly once. *)
Theorem supervisor_follows_profile p total obs elapsed c :
  profile_ok p ->
  exists r, supervise p total (obs ++ [(elapsed, c)]) Supervisor_new = Some r /\
    match r with
    | inr s => supervisor_inv s /\ Z.of_nat (length (sv_child_tokens s)) = target_concurrency p elapsed
    | inl s => sv_cancelled s ≡ₚ seq 0 (length (sv_spawned s)) /\
               sv_joined s ≡ₚ seq 0 (length (sv_spawned s)) /\ sv_handles s = []
    end.
Proof.
  intros Hp. destruct (supervise_inv p total (obs ++ [(elapsed, c)]) _ Hp supervisor_inv_new)
    as (r & Hr & Hinv). exists r. split; [done|]. destruct r as [s|s].
  - destruct Hinv as (s1 & (Hh & _ & Hj & Hperm) & ->). simpl.
    rewrite Hh, Hj, <- Permutation_rev, <- Hperm. by rewrite (Permutation_app_comm (sv_cancelled s1)).
  - destruct Hinv. eauto.
Qed.

(** The supervisor ends: once it reads an elapsed time of at least the
    profile's total duration, or the cancellation, it has torn down. *)
Theorem supervisor_ends p total obs :
  profile_ok p -> Exists (fun o => total <= o.1 \/ o.2 = true) obs ->
  exists s, supervise p total obs Supervisor_new = Some (inl s).
Proof.
  intros Hp Hex. generalize supervisor_inv_new. generalize Supervisor_new.
  induction Hex as [[e c] obs Ho|[e c] obs Hex IH]; intros s Hs; cbn [supervise].
  - assert ((total <=? e) || c = true) as -> by (apply orb_true_iff; rewrite Z.leb_le; naive_solver). eauto.
  - destruct ((total <=? e) || c); [eauto|].
    destruct (supervisor_tick_inv p total e s Hs (target_concurrency_range p e Hp)) as (s1 & -> & Hs1 & _).
    by apply IH.
Qed.

(** A spike profile asks for its peak exactly during the declared phase, to
    the nanosecond, and for its baseline otherwise; admitted by the concurrency
    limit it never asks for more than 10,000 workers. *)
Theorem spike_phases baseline peak pre spike post elapsed :
  0 <= elapsed -> in_u64 pre -> in_u64 (pre + spike) ->
  let p := LP_Spike baseline peak pre spike post in
  ensure_concurrency_limit (concurrency_upper_bound p) = Ok () ->
  target_concurrency p elapsed <= MAX_CONCURRENCY /\
  target_concurrency p elapsed =
    (if decide (from_secs pre <= elapsed < from_secs (pre + spike)) then peak else baseline).
Proof.
  intros He Hpre Hsum p Hlim. unfold ensure_concurrency_limit in Hlim.
  destruct (_ || _) eqn:E in Hlim; [done|]. apply orb_false_iff in E as [_ E]. apply Z.ltb_ge in E.
  simpl in E |- *. rewrite u64_add_small by done. unfold as_secs, from_secs, NANOS_PER_SEC.
  pose proof (Z.div_mod elapsed 1000000000 ltac:(lia)). pose proof (Z.mod_pos_bound elapsed 1000000000 ltac:(lia)).
  split.
  - repeat case_match; lia.
  - destruct (Z.ltb_spec (elapsed / 1000000000) pre), (Z.ltb_spec (elapsed / 1000000000) (pre + spike));
      case_decide; lia.
Qed.

(** ** Witnesses *)

Definition sample_profile : LoadProfile := LP_Spike 2 5 1 2 1.
Definition sample_obs : list (duration * bool) :=
  [(from_secs 0, false); (from_secs 1, false); (from_secs 3, false)].

Lemma supervisor_follows_profile_witness :
  exists r, supervise sample_profile (from_secs 4) (sample_obs ++ [(from_secs 4, false)]) Supervisor_new = Some r /\
    match r with
    | inr s => supervisor_inv s /\
               Z.of_nat (length (sv_child_tokens s)) = target_concurrency sample_profile (from_secs 4)
    | inl s => sv_cancelled s ≡ₚ seq 0 (length (sv_spawned s)) /\
               sv_joined s ≡ₚ seq 0 (length (sv_spawned s)) /\ sv_handles s = []
    end.
Proof.
  apply supervisor_follows_profile. unfold profile_ok, sample_profile, in_u64, U64_MAX. lia.
Defined.

Lemma supervisor_ends_witness :
  exists s, supervise sample_profile (from_secs 4) (sample_obs ++ [(from_secs 4, false)]) Supervisor_new = Some (inl s).
Proof.
  apply supervisor_ends.
  - unfold profile_ok, sample_profile, in_u64, U64_MAX. lia.
  - apply Exists_app. right. constructor. left. simpl. lia.
Defined.

Lemma spike_phases_witness :
  target_concurrency sample_profile (from_secs 2) <= MAX_CONCURRENCY /\ target_concurrency sample_profile (from_secs 2) = 5.
Proof.
  apply (spike_phases 2 5 1 2 1 (from_secs 2)).
  - unfold from_secs, NANOS_PER_SEC. lia.
  - unfold in_u64, U64_MAX. lia.
  - unfold in_u64, U64_MAX. lia.
  - reflexivity.
Defined.
