(* ===== verification/Config.v ===== *)
(** The test configuration ([src/config.rs]): its enumerations, the configuration
    record, the validation at the Python boundary and the builder used inside
    Rust.

    Fields keep their names behind the prefix [cfg_] (the configuration) and
    [bld_] (the builder); [bset_x] is the builder method [x].  Python's
    [ValueError] is its message. *)

From coqutil Require Import Datatypes.RecordSetters.
From S2P Require Import Prelude RustStr Float Json Chaos LoadProfile.
Import DoubleBraceUpdate.

#[local] Open Scope Z_scope.

Definition DEFAULT_CHAOS_RATE : f32 := f32_div (f32_of_Z 1) (f32_of_Z 10).

Inductive WsMode := Handshake | PingPong | Stream.

Inductive SoapVersion := Soap11 | Soap12.

Definition SoapVersion_as_str (v : SoapVersion) : string :=
  match v with Soap11 => "1.1" | Soap12 => "1.2" end%string.

Inductive StompMode := Produce | Consume.

Definition StompMode_as_str (m : StompMode) : string :=
  match m with Produce => "produce" | Consume => "consume" end%string.

Inductive StompAck := AckAuto | AckClient | AckClientIndividual.

Definition StompAck_as_str (a : StompAck) : string :=
  match a with
  | AckAuto => "auto"
  | AckClient => "client"
  | AckClientIndividual => "client-individual"
  end%string.

#[export] Instance WsMode_eq_dec : EqDecision WsMode.
Proof. solve_decision. Defined.
#[export] Instance SoapVersion_eq_dec : EqDecision SoapVersion.
Proof. solve_decision. Defined.
#[export] Instance StompMode_eq_dec : EqDecision StompMode.
Proof. solve_decision. Defined.
#[export] Instance StompAck_eq_dec : EqDecision StompAck.
Proof. solve_decision. Defined.

Record TestConfig := mkTestConfig {
  cfg_url : string;
  cfg_concurrency : Z;
  cfg_duration_secs : Z;
  cfg_timeout_secs : Z;
  cfg_chaos : bool;
  cfg_chaos_rate : f32;
  cfg_test_seed : Z;
  cfg_no_progress : bool;
  cfg_method : string;
  cfg_body : option string;
  cfg_form : option (list (string * string));
  cfg_headers : option (list (string * string));
  cfg_ws_mode : WsMode;
  cfg_ws_payload : option string;
  cfg_grpc_service : option string;
  cfg_grpc_method : option string;
  cfg_grpc_payload : option string;
  cfg_grpc_deadline_ms : option Z;
  cfg_proto_path : option string;
  cfg_grpc_use_reflection : bool;
  cfg_ws_persistent : bool;
  cfg_ws_keepalive_secs : option Z;
  cfg_ws_max_messages : option Z;
  cfg_ws_role : option string;
  cfg_ws_publish_interval_ms : option Z;
  cfg_ws_subscribers : option Z;
  cfg_http3_enabled : bool;
  cfg_quic_zero_rtt : bool;
  cfg_quic_max_idle_timeout_ms : option Z;
  cfg_sse_enabled : bool;
  cfg_sse_max_events : option Z;
  cfg_graphql_query : option string;
  cfg_graphql_variables : option string;
  cfg_graphql_operation_name : option string;
  cfg_output_dir : option string;
  cfg_no_save : bool;
  cfg_sys_sample_interval : Z;
  cfg_ws_max_buffer_bytes : Z;
  cfg_ws_backpressure_warn_ratio : f32;
  cfg_grpc_h2_multiplex : bool;
  cfg_http3_migrate : bool;
  cfg_http3_migrate_every : Z;
  cfg_slo_p95_ms : option f64;
  cfg_slo_p99_ms : option f64;
  cfg_slo_error_rate : option f64;
  cfg_slo_min_rps : option f64;
  cfg_timeline_interval_ms : Z;
  cfg_soap_enabled : bool;
  cfg_soap_action : option string;
  cfg_soap_version : SoapVersion;
  cfg_stomp_destination : option string;
  cfg_stomp_message : option string;
  cfg_stomp_mode : StompMode;
  cfg_stomp_ack : StompAck;
  cfg_stomp_receipt : bool;
  cfg_stomp_headers : option (list (string * string));
  cfg_db_query : option string;
  cfg_db_pool_size : option Z;
  cfg_db_fetch : bool;
  cfg_db_max_rows : option Z;
  cfg_db_params : option (list string);
}.

(** ** Validation *)

(** [if bad { return Err(message) }]. *)
Definition refuse (bad : bool) (message : string) : result string () :=
  if bad then Err message else Ok ().

(** [matches!(o, Some(s) if !s.trim().is_empty())]. *)
Definition has_text (o : option string) : bool :=
  match o with Some s => negb (is_blank s) | None => false end.

Definition in_unit_range (x : f32) : bool := f64_leb f64_zero x && f64_leb x (f32_of_Z 1).

Definition is_stomp_url (url : string) : bool :=
  str_starts_with "stomp://" url || str_starts_with "stomps://" url.

Definition is_database_url (url : string) : bool :=
  str_starts_with "postgres://" url || str_starts_with "postgresql://" url ||
  str_starts_with "mysql://" url || str_starts_with "mariadb://" url ||
  str_starts_with "sqlite:" url.

Definition validate_graphql (c : TestConfig) : result string () :=
  match cfg_graphql_query c with
  | Some query =>
      _ ← refuse (is_blank query) "graphql_query must not be empty";
      refuse (is_some (cfg_body c) || is_some (cfg_form c))
        "graphql_query cannot be combined with body or form"
  | None =>
      refuse (is_some (cfg_graphql_variables c) || is_some (cfg_graphql_operation_name c))
        "graphql_variables/graphql_operation_name require graphql_query"
  end.

Definition validate_variables `{Json} (c : TestConfig) : result string () :=
  match cfg_graphql_variables c with
  | Some vars =>
      match json_parse (as_bytes vars) with
      | Ok (JObject _) => Ok ()
      | Ok _ => Err "graphql_variables must be a JSON object"
      | Err e => Err ("graphql_variables is not valid JSON: " ++ e)
      end
  | None => Ok ()
  end%string.

Definition validate_soap (c : TestConfig) : result string () :=
  if cfg_soap_enabled c then
    _ ← refuse (is_some (cfg_graphql_query c)) "soap_enabled cannot be combined with graphql_query";
    _ ← refuse (is_some (cfg_form c)) "soap_enabled cannot be combined with form";
    refuse (negb (has_text (cfg_body c))) "soap_enabled requires an XML envelope in body"
  else Ok ().

Definition validate_stomp (c : TestConfig) : result string () :=
  if is_stomp_url (cfg_url c) then
    _ ← refuse (negb (has_text (cfg_stomp_destination c))) "stomp:// URLs require stomp_destination";
    refuse (cfg_stomp_receipt c && bool_decide (cfg_stomp_mode c = Consume))
      "stomp_receipt applies to stomp_mode=produce only"
  else Ok ().

Definition validate_database (c : TestConfig) : result string () :=
  if is_database_url (cfg_url c) then
    _ ← refuse (negb (has_text (cfg_db_query c))) "database URLs require a non-empty db_query";
    refuse (bool_decide (cfg_db_pool_size c = Some 0)) "db_pool_size must be at least 1"
  else Ok ().

(** One threshold of the loop over the named thresholds. *)
Definition validate_threshold (name : string) (value : option f64) : result string () :=
  match value with
  | Some v => refuse (negb (is_finite v) || f64_ltb v f64_zero)
                (name ++ " must be a non-negative number")%string
  | None => Ok ()
  end.

Definition validate_error_rate (c : TestConfig) : result string () :=
  match cfg_slo_error_rate c with
  | Some rate =>
      refuse (negb (is_finite rate) ||
              negb (f64_leb f64_zero rate && f64_leb rate (f64_of_Z 100)))
        "slo_error_rate must be between 0 and 100 (percent)"
  | None => Ok ()
  end.

(** [TestConfig::validate]. *)
Definition config_validate `{Json} (c : TestConfig) : result string () :=
  _ ← refuse (negb ((1 <=? cfg_concurrency c) && (cfg_concurrency c <=? MAX_CONCURRENCY)))
        "concurrency must be between 1 and 10000";
  _ ← refuse (negb (in_unit_range (cfg_chaos_rate c))) "chaos_rate must be between 0.0 and 1.0";
  _ ← validate_graphql c;
  _ ← validate_variables c;
  _ ← validate_soap c;
  _ ← validate_stomp c;
  _ ← validate_database c;
  _ ← validate_threshold "slo_p95_ms" (cfg_slo_p95_ms c);
  _ ← validate_threshold "slo_p99_ms" (cfg_slo_p99_ms c);
  _ ← validate_threshold "slo_min_rps" (cfg_slo_min_rps c);
  validate_error_rate c.

Section with_json.
Context `{Json}.

(** [TestConfig::new]: the arguments in the order of the Python signature. *)
Definition TestConfig_new
    (url : string) (concurrency : Z) (duration_secs : Z) (timeout_secs : Z) (chaos : bool)
    (chaos_rate : f32) (no_progress : bool) (method : string) (body : option string)
    (form : option (list (string * string))) (headers : option (list (string * string)))
    (ws_mode : WsMode) (ws_payload : option string) (grpc_service : option string)
    (grpc_method : option string) (grpc_payload : option string) (grpc_deadline_ms : option Z)
    (proto_path : option string) (grpc_use_reflection : bool) (ws_persistent : bool)
    (ws_keepalive_secs : option Z) (ws_max_messages : option Z) (ws_role : option string)
    (ws_publish_interval_ms : option Z) (ws_subscribers : option Z) (http3_enabled : bool)
    (quic_zero_rtt : bool) (quic_max_idle_timeout_ms : option Z) (sse_enabled : bool)
    (sse_max_events : option Z) (graphql_query : option string)
    (graphql_variables : option string) (graphql_operation_name : option string)
    (output_dir : option string) (no_save : bool) (sys_sample_interval : Z)
    (ws_max_buffer_bytes : Z) (ws_backpressure_warn_ratio : f32) (grpc_h2_multiplex : bool)
    (http3_migrate : bool) (http3_migrate_every : Z) (slo_p95_ms : option f64)
    (slo_p99_ms : option f64) (slo_error_rate : option f64) (slo_min_rps : option f64)
    (timeline_interval_ms : Z) (soap_enabled : bool) (soap_action : option string)
    (soap_version : SoapVersion) (stomp_destination : option string)
    (stomp_message : option string) (stomp_mode : StompMode) (stomp_ack : StompAck)
    (stomp_receipt : bool) (stomp_headers : option (list (string * string)))
    (db_query : option string) (db_pool_size : option Z) (db_fetch : bool)
    (db_max_rows : option Z) (db_params : option (list string)) (test_seed : Z)
  : result string TestConfig :=
  let config := {|
    cfg_url := url;
    cfg_concurrency := concurrency;
    cfg_duration_secs := duration_secs;
    cfg_timeout_secs := timeout_secs;
    cfg_chaos := chaos;
    cfg_chaos_rate := chaos_rate;
    cfg_test_seed := test_seed;
    cfg_no_progress := no_progress;
    cfg_method := method;
    cfg_body := body;
    cfg_form := form;
    cfg_headers := headers;
    cfg_ws_mode := ws_mode;
    cfg_ws_payload := ws_payload;
    cfg_grpc_service := grpc_service;
    cfg_grpc_method := grpc_method;
    cfg_grpc_payload := grpc_payload;
    cfg_grpc_deadline_ms := grpc_deadline_ms;
    cfg_proto_path := proto_path;
    cfg_grpc_use_reflection := grpc_use_reflection;
    cfg_ws_persistent := ws_persistent;
    cfg_ws_keepalive_secs := ws_keepalive_secs;
    cfg_ws_max_messages := ws_max_messages;
    cfg_ws_role := ws_role;
    cfg_ws_publish_interval_ms := ws_publish_interval_ms;
    cfg_ws_subscribers := ws_subscribers;
    cfg_http3_enabled := http3_enabled;
    cfg_quic_zero_rtt := quic_zero_rtt;
    cfg_quic_max_idle_timeout_ms := quic_max_idle_timeout_ms;
    cfg_sse_enabled := sse_enabled;
    cfg_sse_max_events := sse_max_events;
    cfg_graphql_query := graphql_query;
    cfg_graphql_variables := graphql_variables;
    cfg_graphql_operation_name := graphql_operation_name;
    cfg_output_dir := output_dir;
    cfg_no_save := no_save;
    cfg_sys_sample_interval := sys_sample_interval;
    cfg_ws_max_buffer_bytes := ws_max_buffer_bytes;
    cfg_ws_backpressure_warn_ratio := ws_backpressure_warn_ratio;
    cfg_grpc_h2_multiplex := grpc_h2_multiplex;
    cfg_http3_migrate := http3_migrate;
    cfg_http3_migrate_every := http3_migrate_every;
    cfg_slo_p95_ms := slo_p95_ms;
    cfg_slo_p99_ms := slo_p99_ms;
    cfg_slo_error_rate := slo_error_rate;
    cfg_slo_min_rps := slo_min_rps;
    cfg_timeline_interval_ms := timeline_interval_ms;
    cfg_soap_enabled := soap_enabled;
    cfg_soap_action := soap_action;
    cfg_soap_version := soap_version;
    cfg_stomp_destination := stomp_destination;
    cfg_stomp_message := stomp_message;
    cfg_stomp_mode := stomp_mode;
    cfg_stomp_ack := stomp_ack;
    cfg_stomp_receipt := stomp_receipt;
    cfg_stomp_headers := stomp_headers;
    cfg_db_query := db_query;
    cfg_db_pool_size := db_pool_size;
    cfg_db_fetch := db_fetch;
    cfg_db_max_rows := db_max_rows;
    cfg_db_params := db_params
  |} in
  _ ← config_validate config; Ok config.

(** The call with every argument but the URL left to its Python default. *)
Definition TestConfig_new_defaults (url : string) : result string TestConfig :=
  TestConfig_new url
    10 10 10 false DEFAULT_CHAOS_RATE false "GET" None None None Handshake None None None None
    None None false false None None None None None false false None false None None None None
    None false 1000 1048576 (f32_div (f32_of_Z 8) (f32_of_Z 10)) false false 50 None None None
    None 1000 false None Soap11 None None Produce AckAuto false None None None false None None
    0.

End with_json.

(** ** The builder *)

Record TestConfigBuilder := mkTestConfigBuilder {
  bld_url : string;
  bld_concurrency : Z;
  bld_duration_secs : Z;
  bld_timeout_secs : Z;
  bld_chaos : bool;
  bld_chaos_rate : f32;
  bld_test_seed : Z;
  bld_no_progress : bool;
  bld_method : string;
  bld_body : option string;
  bld_form : option (list (string * string));
  bld_headers : option (list (string * string));
  bld_ws_mode : WsMode;
  bld_ws_payload : option string;
  bld_ws_persistent : bool;
  bld_ws_keepalive_secs : option Z;
  bld_ws_max_messages : option Z;
  bld_ws_role : option string;
  bld_ws_publish_interval_ms : option Z;
  bld_ws_subscribers : option Z;
  bld_grpc_service : option string;
  bld_grpc_method : option string;
  bld_grpc_payload : option string;
  bld_grpc_deadline_ms : option Z;
  bld_proto_path : option string;
  bld_grpc_use_reflection : bool;
  bld_http3_enabled : bool;
  bld_quic_zero_rtt : bool;
  bld_quic_max_idle_timeout_ms : option Z;
  bld_sse_enabled : bool;
  bld_sse_max_events : option Z;
  bld_graphql_query : option string;
  bld_graphql_variables : option string;
  bld_graphql_operation_name : option string;
  bld_output_dir : option string;
  bld_no_save : bool;
  bld_sys_sample_interval : Z;
  bld_ws_max_buffer_bytes : Z;
  bld_ws_backpressure_warn_ratio : f32;
  bld_grpc_h2_multiplex : bool;
  bld_http3_migrate : bool;
  bld_http3_migrate_every : Z;
  bld_slo_p95_ms : option f64;
  bld_slo_p99_ms : option f64;
  bld_slo_error_rate : option f64;
  bld_slo_min_rps : option f64;
  bld_timeline_interval_ms : Z;
  bld_soap_enabled : bool;
  bld_soap_action : option string;
  bld_soap_version : SoapVersion;
  bld_stomp_destination : option string;
  bld_stomp_message : option string;
  bld_stomp_mode : StompMode;
  bld_stomp_ack : StompAck;
  bld_stomp_receipt : bool;
  bld_stomp_headers : option (list (string * string));
  bld_db_query : option string;
  bld_db_pool_size : option Z;
  bld_db_fetch : bool;
  bld_db_max_rows : option Z;
  bld_db_params : option (list string);
}.

Definition TestConfigBuilder_default : TestConfigBuilder := {|
  bld_url := "";
  bld_concurrency := 10;
  bld_duration_secs := 10;
  bld_timeout_secs := 10;
  bld_chaos := false;
  bld_chaos_rate := DEFAULT_CHAOS_RATE;
  bld_test_seed := 0;
  bld_no_progress := false;
  bld_method := "GET";
  bld_body := None;
  bld_form := None;
  bld_headers := None;
  bld_ws_mode := Handshake;
  bld_ws_payload := None;
  bld_ws_persistent := false;
  bld_ws_keepalive_secs := None;
  bld_ws_max_messages := None;
  bld_ws_role := None;
  bld_ws_publish_interval_ms := None;
  bld_ws_subscribers := None;
  bld_grpc_service := None;
  bld_grpc_method := None;
  bld_grpc_payload := None;
  bld_grpc_deadline_ms := None;
  bld_proto_path := None;
  bld_grpc_use_reflection := false;
  bld_http3_enabled := false;
  bld_quic_zero_rtt := false;
  bld_quic_max_idle_timeout_ms := None;
  bld_sse_enabled := false;
  bld_sse_max_events := None;
  bld_graphql_query := None;
  bld_graphql_variables := None;
  bld_graphql_operation_name := None;
  bld_output_dir := None;
  bld_no_save := false;
  bld_sys_sample_interval := 1000;
  bld_ws_max_buffer_bytes := 1048576;
  bld_ws_backpressure_warn_ratio := (f32_div (f32_of_Z 8) (f32_of_Z 10));
  bld_grpc_h2_multiplex := false;
  bld_http3_migrate := false;
  bld_http3_migrate_every := 50;
  bld_slo_p95_ms := None;
  bld_slo_p99_ms := None;
  bld_slo_error_rate := None;
  bld_slo_min_rps := None;
  bld_timeline_interval_ms := 1000;
  bld_soap_enabled := false;
  bld_soap_action := None;
  bld_soap_version := Soap11;
  bld_stomp_destination := None;
  bld_stomp_message := None;
  bld_stomp_mode := Produce;
  bld_stomp_ack := AckAuto;
  bld_stomp_receipt := false;
  bld_stomp_headers := None;
  bld_db_query := None;
  bld_db_pool_size := None;
  bld_db_fetch := false;
  bld_db_max_rows := None;
  bld_db_params := None
|}%string.

Definition TestConfigBuilder_new (url : string) : TestConfigBuilder :=
  TestConfigBuilder_default{{ bld_url := url }}.

Definition bset_concurrency (v : Z) (b : TestConfigBuilder) : TestConfigBuilder := b{{ bld_concurrency := v }}.
Definition bset_duration_secs (v : Z) (b : TestConfigBuilder) : TestConfigBuilder := b{{ bld_duration_secs := v }}.
Definition bset_timeout_secs (v : Z) (b : TestConfigBuilder) : TestConfigBuilder := b{{ bld_timeout_secs := v }}.
Definition bset_chaos (v : bool) (b : TestConfigBuilder) : TestConfigBuilder := b{{ bld_chaos := v }}.
Definition bset_chaos_rate (v : f32) (b : TestConfigBuilder) : TestConfigBuilder := b{{ bld_chaos_rate := v }}.
Definition bset_test_seed (v : Z) (b : TestConfigBuilder) : TestConfigBuilder := b{{ bld_test_seed := v }}.
Definition bset_no_progress (v : bool) (b : TestConfigBuilder) : TestConfigBuilder := b{{ bld_no_progress := v }}.
Definition bset_method (v : string) (b : TestConfigBuilder) : TestConfigBuilder := b{{ bld_method := v }}.
Definition bset_body (v : option string) (b : TestConfigBuilder) : TestConfigBuilder := b{{ bld_body := v }}.
Definition bset_form (v : option (list (string * string))) (b : TestConfigBuilder) : TestConfigBuilder := b{{ bld_form := v }}.
Definition bset_headers (v : option (list (string * string))) (b : TestConfigBuilder) : TestConfigBuilder := b{{ bld_headers := v }}.
Definition bset_ws_mode (v : WsMode) (b : TestConfigBuilder) : TestConfigBuilder := b{{ bld_ws_mode := v }}.
Definition bset_ws_payload (v : option string) (b : TestConfigBuilder) : TestConfigBuilder := b{{ bld_ws_payload := v }}.
Definition bset_ws_persistent (v : bool) (b : TestConfigBuilder) : TestConfigBuilder := b{{ bld_ws_persistent := v }}.
Definition bset_ws_keepalive_secs (v : option Z) (b : TestConfigBuilder) : TestConfigBuilder := b{{ bld_ws_keepalive_secs := v }}.
Definition bset_ws_max_messages (v : option Z) (b : TestConfigBuilder) : TestConfigBuilder := b{{ bld_ws_max_messages := v }}.
Definition bset_ws_role (v : option string) (b : TestConfigBuilder) : TestConfigBuilder := b{{ bld_ws_role := v }}.
Definition bset_ws_publish_interval_ms (v : option Z) (b : TestConfigBuilder) : TestConfigBuilder := b{{ bld_ws_publish_interval_ms := v }}.
Definition bset_ws_subscribers (v : option Z) (b : TestConfigBuilder) : TestConfigBuilder := b{{ bld_ws_subscribers := v }}.
Definition bset_grpc_service (v : option string) (b : TestConfigBuilder) : TestConfigBuilder := b{{ bld_grpc_service := v }}.
Definition bset_grpc_method (v : option string) (b : TestConfigBuilder) : TestConfigBuilder := b{{ bld_grpc_method := v }}.
Definition bset_grpc_payload (v : option string) (b : TestConfigBuilder) : TestConfigBuilder := b{{ bld_grpc_payload := v }}.
Definition bset_grpc_deadline_ms (v : option Z) (b : TestConfigBuilder) : TestConfigBuilder := b{{ bld_grpc_deadline_ms := v }}.
Definition bset_proto_path (v : option string) (b : TestConfigBuilder) : TestConfigBuilder := b{{ bld_proto_path := v }}.
Definition bset_grpc_use_reflection (v : bool) (b : TestConfigBuilder) : TestConfigBuilder := b{{ bld_grpc_use_reflection := v }}.
Definition bset_http3_enabled (v : bool) (b : TestConfigBuilder) : TestConfigBuilder := b{{ bld_http3_enabled := v }}.
Definition bset_quic_zero_rtt (v : bool) (b : TestConfigBuilder) : TestConfigBuilder := b{{ bld_quic_zero_rtt := v }}.
Definition bset_quic_max_idle_timeout_ms (v : option Z) (b : TestConfigBuilder) : TestConfigBuilder := b{{ bld_quic_max_idle_timeout_ms := v }}.
Definition bset_sse_enabled (v : bool) (b : TestConfigBuilder) : TestConfigBuilder := b{{ bld_sse_enabled := v }}.
Definition bset_sse_max_events (v : option Z) (b : TestConfigBuilder) : TestConfigBuilder := b{{ bld_sse_max_events := v }}.
Definition bset_graphql_query (v : option string) (b : TestConfigBuilder) : TestConfigBuilder := b{{ bld_graphql_query := v }}.
Definition bset_graphql_variables (v : option string) (b : TestConfigBuilder) : TestConfigBuilder := b{{ bld_graphql_variables := v }}.
Definition bset_graphql_operation_name (v : option string) (b : TestConfigBuilder) : TestConfigBuilder := b{{ bld_graphql_operation_name := v }}.
Definition bset_soap_enabled (v : bool) (b : TestConfigBuilder) : TestConfigBuilder := b{{ bld_soap_enabled := v }}.
Definition bset_soap_action (v : option string) (b : TestConfigBuilder) : TestConfigBuilder := b{{ bld_soap_action := v }}.
Definition bset_soap_version (v : SoapVersion) (b : TestConfigBuilder) : TestConfigBuilder := b{{ bld_soap_version := v }}.
Definition bset_stomp_destination (v : option string) (b : TestConfigBuilder) : TestConfigBuilder := b{{ bld_stomp_destination := v }}.
Definition bset_stomp_message (v : option string) (b : TestConfigBuilder) : TestConfigBuilder := b{{ bld_stomp_message := v }}.
Definition bset_stomp_mode (v : StompMode) (b : TestConfigBuilder) : TestConfigBuilder := b{{ bld_stomp_mode := v }}.
Definition bset_stomp_ack (v : StompAck) (b : TestConfigBuilder) : TestConfigBuilder := b{{ bld_stomp_ack := v }}.
Definition bset_stomp_receipt (v : bool) (b : TestConfigBuilder) : TestConfigBuilder := b{{ bld_stomp_receipt := v }}.
Definition bset_stomp_headers (v : option (list (string * string))) (b : TestConfigBuilder) : TestConfigBuilder := b{{ bld_stomp_headers := v }}.
Definition bset_db_query (v : option string) (b : TestConfigBuilder) : TestConfigBuilder := b{{ bld_db_query := v }}.
Definition bset_db_pool_size (v : option Z) (b : TestConfigBuilder) : TestConfigBuilder := b{{ bld_db_pool_size := v }}.
Definition bset_db_fetch (v : bool) (b : TestConfigBuilder) : TestConfigBuilder := b{{ bld_db_fetch := v }}.
Definition bset_db_max_rows (v : option Z) (b : TestConfigBuilder) : TestConfigBuilder := b{{ bld_db_max_rows := v }}.
Definition bset_db_params (v : option (list string)) (b : TestConfigBuilder) : TestConfigBuilder := b{{ bld_db_params := v }}.
Definition bset_output_dir (v : option string) (b : TestConfigBuilder) : TestConfigBuilder := b{{ bld_output_dir := v }}.
Definition bset_no_save (v : bool) (b : TestConfigBuilder) : TestConfigBuilder := b{{ bld_no_save := v }}.
Definition bset_sys_sample_interval (v : Z) (b : TestConfigBuilder) : TestConfigBuilder := b{{ bld_sys_sample_interval := v }}.
Definition bset_ws_max_buffer_bytes (v : Z) (b : TestConfigBuilder) : TestConfigBuilder := b{{ bld_ws_max_buffer_bytes := v }}.
Definition bset_ws_backpressure_warn_ratio (v : f32) (b : TestConfigBuilder) : TestConfigBuilder := b{{ bld_ws_backpressure_warn_ratio := v }}.
Definition bset_grpc_h2_multiplex (v : bool) (b : TestConfigBuilder) : TestConfigBuilder := b{{ bld_grpc_h2_multiplex := v }}.
Definition bset_http3_migrate (v : bool) (b : TestConfigBuilder) : TestConfigBuilder := b{{ bld_http3_migrate := v }}.
Definition bset_http3_migrate_every (v : Z) (b : TestConfigBuilder) : TestConfigBuilder := b{{ bld_http3_migrate_every := v }}.
Definition bset_slo_p95_ms (v : option f64) (b : TestConfigBuilder) : TestConfigBuilder := b{{ bld_slo_p95_ms := v }}.
Definition bset_slo_p99_ms (v : option f64) (b : TestConfigBuilder) : TestConfigBuilder := b{{ bld_slo_p99_ms := v }}.
Definition bset_slo_error_rate (v : option f64) (b : TestConfigBuilder) : TestConfigBuilder := b{{ bld_slo_error_rate := v }}.
Definition bset_slo_min_rps (v : option f64) (b : TestConfigBuilder) : TestConfigBuilder := b{{ bld_slo_min_rps := v }}.
Definition bset_timeline_interval_ms (v : Z) (b : TestConfigBuilder) : TestConfigBuilder := b{{ bld_timeline_interval_ms := v }}.

Definition build (b : TestConfigBuilder) : TestConfig := {|
  cfg_url := bld_url b;
  cfg_concurrency := bld_concurrency b;
  cfg_duration_secs := bld_duration_secs b;
  cfg_timeout_secs := bld_timeout_secs b;
  cfg_chaos := bld_chaos b;
  cfg_chaos_rate := bld_chaos_rate b;
  cfg_test_seed := bld_test_seed b;
  cfg_no_progress := bld_no_progress b;
  cfg_method := bld_method b;
  cfg_body := bld_body b;
  cfg_form := bld_form b;
  cfg_headers := bld_headers b;
  cfg_ws_mode := bld_ws_mode b;
  cfg_ws_payload := bld_ws_payload b;
  cfg_grpc_service := bld_grpc_service b;
  cfg_grpc_method := bld_grpc_method b;
  cfg_grpc_payload := bld_grpc_payload b;
  cfg_grpc_deadline_ms := bld_grpc_deadline_ms b;
  cfg_proto_path := bld_proto_path b;
  cfg_grpc_use_reflection := bld_grpc_use_reflection b;
  cfg_ws_persistent := bld_ws_persistent b;
  cfg_ws_keepalive_secs := bld_ws_keepalive_secs b;
  cfg_ws_max_messages := bld_ws_max_messages b;
  cfg_ws_role := bld_ws_role b;
  cfg_ws_publish_interval_ms := bld_ws_publish_interval_ms b;
  cfg_ws_subscribers := bld_ws_subscribers b;
  cfg_http3_enabled := bld_http3_enabled b;
  cfg_quic_zero_rtt := bld_quic_zero_rtt b;
  cfg_quic_max_idle_timeout_ms := bld_quic_max_idle_timeout_ms b;
  cfg_sse_enabled := bld_sse_enabled b;
  cfg_sse_max_events := bld_sse_max_events b;
  cfg_graphql_query := bld_graphql_query b;
  cfg_graphql_variables := bld_graphql_variables b;
  cfg_graphql_operation_name := bld_graphql_operation_name b;
  cfg_output_dir := bld_output_dir b;
  cfg_no_save := bld_no_save b;
  cfg_sys_sample_interval := bld_sys_sample_interval b;
  cfg_ws_max_buffer_bytes := bld_ws_max_buffer_bytes b;
  cfg_ws_backpressure_warn_ratio := bld_ws_backpressure_warn_ratio b;
  cfg_grpc_h2_multiplex := bld_grpc_h2_multiplex b;
  cfg_http3_migrate := bld_http3_migrate b;
  cfg_http3_migrate_every := bld_http3_migrate_every b;
  cfg_slo_p95_ms := bld_slo_p95_ms b;
  cfg_slo_p99_ms := bld_slo_p99_ms b;
  cfg_slo_error_rate := bld_slo_error_rate b;
  cfg_slo_min_rps := bld_slo_min_rps b;
  cfg_timeline_interval_ms := bld_timeline_interval_ms b;
  cfg_soap_enabled := bld_soap_enabled b;
  cfg_soap_action := bld_soap_action b;
  cfg_soap_version := bld_soap_version b;
  cfg_stomp_destination := bld_stomp_destination b;
  cfg_stomp_message := bld_stomp_message b;
  cfg_stomp_mode := bld_stomp_mode b;
  cfg_stomp_ack := bld_stomp_ack b;
  cfg_stomp_receipt := bld_stomp_receipt b;
  cfg_stomp_headers := bld_stomp_headers b;
  cfg_db_query := bld_db_query b;
  cfg_db_pool_size := bld_db_pool_size b;
  cfg_db_fetch := bld_db_fetch b;
  cfg_db_max_rows := bld_db_max_rows b;
  cfg_db_params := bld_db_params b
|}.

Definition for_protocol_detection (url : string) (concurrency duration_secs timeout_secs : Z)
  : TestConfig :=
  build (bset_timeout_secs timeout_secs (bset_duration_secs duration_secs
    (bset_concurrency concurrency (TestConfigBuilder_new url)))).

(** ** Lemmas *)

Lemma refuse_ok b m : refuse b m = Ok () <-> b = false.
Proof. by destruct b. Qed.

Lemma bind_ok {E A B} (x : result E A) (f : A -> result E B) b :
  (a ← x; f a) = Ok b <-> exists a, x = Ok a /\ f a = Ok b.
Proof. destruct x; simpl; naive_solver. Qed.

Lemma bind_unit_ok {E B} (x : result E ()) (f : () -> result E B) b :
  (a ← x; f a) = Ok b <-> x = Ok () /\ f () = Ok b.
Proof. rewrite bind_ok. split; [intros ([] & ?); done|eauto]. Qed.

(** The rules a configuration obeys, as the error messages state them. *)
Record config_ok `{Json} (c : TestConfig) : Prop := {
  ok_concurrency : 1 <= cfg_concurrency c <= MAX_CONCURRENCY;
  ok_chaos_rate : rate_ok (cfg_chaos_rate c);
  ok_graphql : forall q, cfg_graphql_query c = Some q ->
    is_blank q = false /\ cfg_body c = None /\ cfg_form c = None;
  ok_graphql_extras : cfg_graphql_query c = None ->
    cfg_graphql_variables c = None /\ cfg_graphql_operation_name c = None;
  ok_variables : forall v, cfg_graphql_variables c = Some v ->
    exists members, json_parse (as_bytes v) = Ok (JObject members);
  ok_soap : cfg_soap_enabled c = true ->
    cfg_graphql_query c = None /\ cfg_form c = None /\
    exists b, cfg_body c = Some b /\ is_blank b = false;
  ok_stomp : is_stomp_url (cfg_url c) = true ->
    (exists d, cfg_stomp_destination c = Some d /\ is_blank d = false) /\
    (cfg_stomp_receipt c = true -> cfg_stomp_mode c = Produce);
  ok_database : is_database_url (cfg_url c) = true ->
    (exists q, cfg_db_query c = Some q /\ is_blank q = false) /\ cfg_db_pool_size c <> Some 0;
  ok_thresholds : forall t, Some t ∈ [cfg_slo_p95_ms c; cfg_slo_p99_ms c; cfg_slo_min_rps c] ->
    is_finite t = true /\ f64_leb f64_zero t = true;
  ok_error_rate : forall r, cfg_slo_error_rate c = Some r ->
    is_finite r = true /\ f64_leb f64_zero r = true /\ f64_leb r (f64_of_Z 100) = true;
}.

Lemma in_unit_range_ok x : in_unit_range x = true <-> rate_ok x.
Proof.
  unfold in_unit_range, rate_ok. rewrite andb_true_iff. split; [|naive_solver].
  intros [H0 H1]. split_and!; [|done|done]. destruct x; done.
Qed.

Lemma has_text_ok o : has_text o = true <-> exists s, o = Some s /\ is_blank s = false.
Proof. destruct o as [s|]; simpl; [rewrite negb_true_iff|]; naive_solver. Qed.

Lemma is_some_false {A} (o : option A) : is_some o = false <-> o = None.
Proof. by destruct o. Qed.

(** A finite number is not below zero exactly when zero is at most it. *)
Lemma finite_nonneg v : is_finite v = true -> f64_ltb v f64_zero = false <-> f64_leb f64_zero v = true.
Proof. by destruct v as [[]| | |[] ? ?]. Qed.

Lemma threshold_ok name v :
  validate_threshold name v = Ok () <->
  forall t, v = Some t -> is_finite t = true /\ f64_leb f64_zero t = true.
Proof.
  destruct v as [t|]; simpl; [|naive_solver]. rewrite refuse_ok, orb_false_iff, negb_false_iff.
  split; [intros [Hf Hn] ? [= <-]; by rewrite <- finite_nonneg|].
  intros Ht. destruct (Ht t eq_refl) as [Hf H0]. by rewrite finite_nonneg.
Qed.

Lemma error_rate_ok c :
  validate_error_rate c = Ok () <->
  forall r, cfg_slo_error_rate c = Some r ->
    is_finite r = true /\ f64_leb f64_zero r = true /\ f64_leb r (f64_of_Z 100) = true.
Proof.
  unfold validate_error_rate. destruct (cfg_slo_error_rate c) as [t|]; [|naive_solver].
  rewrite refuse_ok, orb_false_iff, !negb_false_iff, andb_true_iff. naive_solver.
Qed.

Lemma graphql_ok c :
  validate_graphql c = Ok () <->
  (forall q, cfg_graphql_query c = Some q ->
     is_blank q = false /\ cfg_body c = None /\ cfg_form c = None) /\
  (cfg_graphql_query c = None ->
     cfg_graphql_variables c = None /\ cfg_graphql_operation_name c = None).
Proof.
  unfold validate_graphql. destruct (cfg_graphql_query c) as [q|].
  - rewrite bind_unit_ok, !refuse_ok, orb_false_iff, !is_some_false. naive_solver.
  - rewrite refuse_ok, orb_false_iff, !is_some_false. naive_solver.
Qed.

Lemma variables_ok `{Json} c :
  validate_variables c = Ok () <->
  forall v, cfg_graphql_variables c = Some v -> exists members, json_parse (as_bytes v) = Ok (JObject members).
Proof.
  unfold validate_variables. destruct (cfg_graphql_variables c) as [v|]; [|naive_solver].
  destruct (json_parse _) as [[]|] eqn:E; split; try done; try naive_solver;
    intros Hv; destruct (Hv v eq_refl); congruence.
Qed.

Lemma soap_ok c :
  validate_soap c = Ok () <->
  (cfg_soap_enabled c = true ->
   cfg_graphql_query c = None /\ cfg_form c = None /\
   exists b, cfg_body c = Some b /\ is_blank b = false).
Proof.
  unfold validate_soap. destruct (cfg_soap_enabled c); [|naive_solver].
  rewrite !bind_unit_ok, !refuse_ok, !is_some_false, negb_false_iff, has_text_ok. naive_solver.
Qed.

Lemma stomp_ok c :
  validate_stomp c = Ok () <->
  (is_stomp_url (cfg_url c) = true ->
   (exists d, cfg_stomp_destination c = Some d /\ is_blank d = false) /\
   (cfg_stomp_receipt c = true -> cfg_stomp_mode c = Produce)).
Proof.
  unfold validate_stomp. destruct (is_stomp_url _); [|naive_solver].
  rewrite !bind_unit_ok, !refuse_ok, negb_false_iff, has_text_ok, andb_false_iff, bool_decide_eq_false.
  destruct (cfg_stomp_receipt c), (cfg_stomp_mode c); naive_solver.
Qed.

Lemma database_ok c :
  validate_database c = Ok () <->
  (is_database_url (cfg_url c) = true ->
   (exists q, cfg_db_query c = Some q /\ is_blank q = false) /\ cfg_db_pool_size c <> Some 0).
Proof.
  unfold validate_database. destruct (is_database_url _); [|naive_solver].
  rewrite !bind_unit_ok, !refuse_ok, negb_false_iff, has_text_ok, bool_decide_eq_false. naive_solver.
Qed.

Lemma config_validate_ok `{Json} c : config_validate c = Ok () <-> config_ok c.
Proof.
  unfold config_validate.
  rewrite !bind_unit_ok, !refuse_ok, !negb_false_iff, andb_true_iff, !Z.leb_le, in_unit_range_ok,
    graphql_ok, variables_ok, soap_ok, stomp_ok, database_ok, !threshold_ok, error_rate_ok.
  split.
  - intros (? & ? & [? ?] & ? & ? & ? & ? & Ha & Hb & Hc & ?). split; try done.
    intros t Ht. repeat (apply elem_of_cons in Ht as [Ht|Ht]); eauto. by apply elem_of_nil in Ht.
  - intros [? ? ? ? ? ? ? ? Ht ?]. split_and!; try done; try lia;
      intros t E; apply Ht; rewrite E; repeat (first [by left|right]).
Qed.

(** A plain URL is neither a broker nor a database URL. *)
Definition plain_url (url : string) : bool := negb (is_stomp_url url || is_database_url url).

(** ** Theorems *)

(** C22. Validation accepts exactly the configurations that obey the documented
    rules: the concurrency and chaos-rate ranges, a GraphQL query that is not
    blank and excludes a body and a form, variables that are a JSON object, a
    SOAP envelope, a destination for broker URLs, a query and a non-empty pool
    for database URLs, and finite non-negative thresholds. *)
Theorem config_validate_iff `{Json} c : config_validate c = Ok () <-> config_ok c.
Proof. apply config_validate_ok. Qed.

(** The Python defaults and the Rust builder agree: constructing a
    configuration from a URL alone gives exactly what the builder builds, and
    it succeeds exactly when the URL needs no further option. *)
Theorem python_defaults_match_builder `{Json} url :
  TestConfig_new_defaults url =
    if plain_url url then Ok (build (TestConfigBuilder_new url))
    else Err (if is_stomp_url url then "stomp:// URLs require stomp_destination"
              else "database URLs require a non-empty db_query")%string.
Proof.
  unfold TestConfig_new_defaults, TestConfig_new, config_validate, plain_url, validate_stomp,
    validate_database. cbn [cfg_url].
  change (refuse (negb _) "concurrency must be between 1 and 10000") with (@Ok string () ()).
  change (refuse (negb _) "chaos_rate must be between 0.0 and 1.0") with (@Ok string () ()).
  by destruct (is_stomp_url url), (is_database_url url).
Qed.
