(* ===== verification/Artifact.v ===== *)
(** The report artifact and its SLO verdict: [report/schema.rs].

    [from_summary_and_config] is the whole constructor; what the process
    environment answers in [get_system_info] is an argument. *)

From S2P Require Import Prelude RustStr Float Histogram Chaos Samples Aggregate Config Summary.

#[local] Open Scope Z_scope.
#[local] Open Scope rust_scope.

(** ** Data *)

Record ConnectionPoolMetrics := mkConnectionPool {
  cp_socket_creation_rate : f64;
  cp_socket_reuse_rate : f64;
  cp_dns_lookup_ms : f64;
}.

(** A single SLO threshold evaluation. *)
Record SloCheck := mkSloCheck {
  sc_name : string;
  sc_observed : f64;
  sc_threshold : f64;
  sc_comparator : string;
  sc_passed : bool;
}.

Record SloResult := mkSloResult { sl_passed : bool; sl_checks : list SloCheck }.

Record SystemSummaryDisplay := mkSystemSummary {
  sd_peak_cpu_percent : f64;
  sd_avg_cpu_percent : f64;
  sd_peak_memory_mb : f64;
  sd_avg_memory_mb : f64;
  sd_peak_threads : Z;
}.

Record SystemSampleDisplay := mkSystemSample {
  sd_elapsed_sec : f64;
  sd_cpu_percent : f64;
  sd_memory_mb : f64;
  sd_threads : Z;
}.

Record SystemMetricsDisplay := mkSystemDisplay {
  sd_summary : SystemSummaryDisplay;
  sd_samples : list SystemSampleDisplay;
}.

(** CLI options that produced this test run. *)
Record CliOptions := mkCliOptions {
  co_method : string;
  co_concurrency : Z;
  co_timeout_secs : Z;
  co_chaos : bool;
  co_chaos_rate : f32;
  co_test_seed : Z;
  co_body : option string;
  co_headers : option (list (string * string));
  co_slo_p95_ms : option f64;
  co_slo_p99_ms : option f64;
  co_slo_error_rate : option f64;
  co_slo_min_rps : option f64;
}.

Record SystemInfo := mkSystemInfo {
  in_hostname : string;
  in_platform : string;
  in_version : string;
}.

Record ReportMetadata := mkReportMetadata {
  md_timestamp : string;
  md_duration_secs : f64;
  md_target_url : string;
  md_cli_options : CliOptions;
  md_system_info : SystemInfo;
}.

(** Aggregate request statistics. *)
Record ReportSummary := mkReportSummary {
  ar_total_requests : Z;
  ar_successful_requests : Z;
  ar_failed_requests : Z;
  ar_rps : f64;
  ar_bytes_transferred : Z;
}.

(** Latency percentiles in microseconds. *)
Record LatencyPercentiles := mkLatencyPercentiles {
  lp_p50_us : f64;
  lp_p90_us : f64;
  lp_p95_us : f64;
  lp_p99_us : f64;
  lp_p99_99_us : f64;
  lp_min_us : f64;
  lp_max_us : f64;
  lp_mean_us : f64;
  lp_std_dev_us : f64;
}.

Record ReportArtifact := mkReportArtifact {
  ra_metadata : ReportMetadata;
  ra_summary : ReportSummary;
  ra_latency_percentiles : LatencyPercentiles;
  ra_error_breakdown : gmap string Z;
  ra_avg_connection_latency_us : option f64;
  ra_quic : option QuicMetrics;
  ra_sse : option SseMetrics;
  ra_websocket : option WebsocketMetrics;
  ra_grpc : option GrpcMetrics;
  ra_http3 : option Http3Metrics;
  ra_graphql : option GraphqlMetrics;
  ra_graphql_ws : option GraphqlWsMetrics;
  ra_soap : option SoapMetrics;
  ra_stomp : option StompMetrics;
  ra_database : option DatabaseMetrics;
  ra_slo : option SloResult;
  ra_timeline : option Timeline;
  ra_chaos : option ChaosMetrics;
  ra_latency_histogram : option (gmap string Z);
  ra_system_metrics : option SystemMetricsDisplay;
  ra_connection_pool : option ConnectionPoolMetrics;
}.

(** ** Operations *)

Definition round1 (v : f64) : f64 :=
  f64_div (f64_round (f64_mul v (f64_of_Z 10))) (f64_of_Z 10).

(** [bytes as f64 / (1024.0 * 1024.0)], rounded to one decimal. *)
Definition megabytes (bytes : Z) : f64 :=
  round1 (f64_div (f64_of_Z bytes) (f64_mul (f64_of_Z 1024) (f64_of_Z 1024))).

Definition sample_display (s : ResourceSample) : SystemSampleDisplay :=
  {| sd_elapsed_sec := round1 (f64_div (f64_of_Z (rs_timestamp_us s)) (f64_of_Z 1000000));
     sd_cpu_percent := f64_of_f32 (rs_cpu_usage_percent s);
     sd_memory_mb := megabytes (rs_memory_rss_bytes s);
     sd_threads := rs_thread_count s |}.

Definition system_metrics_display (sm : SystemMetrics) : SystemMetricsDisplay :=
  {| sd_summary :=
       {| sd_peak_cpu_percent := f64_of_f32 (sm_peak_cpu_percent sm);
          sd_avg_cpu_percent := f64_of_f32 (sm_avg_cpu_percent sm);
          sd_peak_memory_mb := megabytes (sm_peak_memory_rss_bytes sm);
          sd_avg_memory_mb := megabytes (sm_avg_memory_rss_bytes sm);
          sd_peak_threads := sm_peak_thread_count sm |};
     sd_samples := sample_display <$> sm_time_series sm |}.

Definition latency_percentiles (s : TestSummary) : LatencyPercentiles :=
  let us (ms : f64) := f64_mul ms (f64_of_Z 1000) in
  {| lp_p50_us := us (su_p50_latency_ms s);
     lp_p90_us := us (su_p90_latency_ms s);
     lp_p95_us := us (su_p95_latency_ms s);
     lp_p99_us := us (su_p99_latency_ms s);
     lp_p99_99_us := us (su_p99_99_latency_ms s);
     lp_min_us := us (su_min_latency_ms s);
     lp_max_us := us (su_max_latency_ms s);
     lp_mean_us := us (su_average_latency_ms s);
     lp_std_dev_us := us (su_std_dev_latency_ms s) |}.

(** The environment variables [HOSTNAME] and [COMPUTERNAME] as read, the
    platform and package version as compiled in. *)
Definition get_system_info (hostname computername : option string) (os version : string)
  : SystemInfo :=
  {| in_hostname :=
       match hostname with
       | Some h => h
       | None => match computername with Some h => h | None => "unknown" end
       end;
     in_platform := os;
     in_version := version |}.

(** The [push] closure of [evaluate_slo]. *)
Definition push_check (name : string) (observed threshold : f64) (comparator : string)
  (checks : list SloCheck) : list SloCheck :=
  let passed :=
    if String.eqb comparator ">=" then f64_geb observed threshold
    else f64_leb observed threshold in
  checks ++ [mkSloCheck name observed threshold comparator passed].

(** [if let Some(t) = configured { push(..) }]. *)
Definition check_if_set (configured : option f64) (name : string) (observed : f64)
  (comparator : string) (checks : list SloCheck) : list SloCheck :=
  match configured with
  | Some t => push_check name observed t comparator checks
  | None => checks
  end.

Definition evaluate_slo (config : TestConfig) (p95_ms p99_ms error_rate_percent rps : f64)
  : option SloResult :=
  let checks := [] in
  let checks := check_if_set (cfg_slo_p95_ms config) "p95_latency_ms" p95_ms "<=" checks in
  let checks := check_if_set (cfg_slo_p99_ms config) "p99_latency_ms" p99_ms "<=" checks in
  let checks :=
    check_if_set (cfg_slo_error_rate config) "error_rate_percent" error_rate_percent "<=" checks in
  let checks := check_if_set (cfg_slo_min_rps config) "rps" rps ">=" checks in
  match checks with
  | [] => None
  | _ => Some (mkSloResult (forallb sc_passed checks) checks)
  end.

Definition artifact_rps (summary : TestSummary) : f64 :=
  if f64_gtb (su_duration_secs summary) f64_zero
  then f64_div (f64_of_Z (su_total_requests summary)) (su_duration_secs summary)
  else f64_zero.

Definition artifact_error_rate (summary : TestSummary) : f64 :=
  if 0 <? su_total_requests summary
  then f64_mul (f64_div (f64_of_Z (su_total_errors summary)) (f64_of_Z (su_total_requests summary)))
         (f64_of_Z 100)
  else f64_zero.

(** [status_codes.iter().map(|(&k, &v)| (k.to_string(), v)).collect()]. *)
Definition breakdown_by_status `{MapOrder} (codes : gmap Z Z) : gmap string Z :=
  foldl (fun m '(k, v) => <[u64_to_string k := v]> m) ∅ (map_iter codes).

Definition from_summary_and_config `{MapOrder} (summary : TestSummary) (config : TestConfig)
  (system_info : SystemInfo) : ReportArtifact :=
  let successful := u_saturating_sub (su_total_requests summary) (su_total_errors summary) in
  let rps := artifact_rps summary in
  let slo := evaluate_slo config (su_p95_latency_ms summary) (su_p99_latency_ms summary)
               (artifact_error_rate summary) rps in
  {| ra_metadata :=
       {| md_timestamp := su_timestamp summary;
          md_duration_secs := su_duration_secs summary;
          md_target_url := cfg_url config;
          md_cli_options :=
            {| co_method := cfg_method config;
               co_concurrency := cfg_concurrency config;
               co_timeout_secs := cfg_timeout_secs config;
               co_chaos := cfg_chaos config;
               co_chaos_rate := cfg_chaos_rate config;
               co_test_seed := cfg_test_seed config;
               co_body := cfg_body config;
               co_headers := cfg_headers config;
               co_slo_p95_ms := cfg_slo_p95_ms config;
               co_slo_p99_ms := cfg_slo_p99_ms config;
               co_slo_error_rate := cfg_slo_error_rate config;
               co_slo_min_rps := cfg_slo_min_rps config |};
          md_system_info := system_info |};
     ra_summary :=
       {| ar_total_requests := su_total_requests summary;
          ar_successful_requests := successful;
          ar_failed_requests := su_total_errors summary;
          ar_rps := rps;
          ar_bytes_transferred := su_total_bytes_received summary |};
     ra_latency_percentiles := latency_percentiles summary;
     ra_error_breakdown := breakdown_by_status (su_status_codes summary);
     ra_avg_connection_latency_us :=
       if f64_gtb (su_avg_connection_latency_us summary) f64_zero
       then Some (su_avg_connection_latency_us summary) else None;
     ra_quic := su_quic summary;
     ra_sse := su_sse summary;
     ra_websocket := su_ws summary;
     ra_grpc := su_grpc summary;
     ra_http3 := su_http3 summary;
     ra_graphql := su_graphql summary;
     ra_graphql_ws := su_graphql_ws summary;
     ra_soap := su_soap summary;
     ra_stomp := su_stomp summary;
     ra_database := su_database summary;
     ra_slo := slo;
     ra_timeline := su_timeline summary;
     ra_chaos :=
       if 0 <? su_chaos_injected_total summary
       then Some (mkChaosMetrics (su_chaos_injected_total summary) (su_chaos_faults_by_type summary))
       else None;
     ra_latency_histogram := Some (su_latency_histogram summary);
     ra_system_metrics := system_metrics_display <$> su_system_metrics summary;
     ra_connection_pool :=
       if 0 <? su_total_requests summary
       then Some {| cp_socket_creation_rate := f64_sub f64_one (su_connection_reuse_ratio summary);
                    cp_socket_reuse_rate := su_connection_reuse_ratio summary;
                    cp_dns_lookup_ms := su_avg_dns_resolution_ms summary |}
       else None |}.

(** ** Lemmas *)

(** [collect()] into a map whose keys do not collide. *)
Lemma collect_lookup {K V} (f : K -> string) (l : list (K * V)) (m : gmap string V) x v :
  NoDup (f <$> l.*1) ->
  foldl (fun m '(k, v) => <[f k := v]> m) m l !! x = Some v <->
  (exists k, (k, v) ∈ l /\ f k = x) \/ (x ∉ f <$> l.*1 /\ m !! x = Some v).
Proof.
  revert m. induction l as [|[k w] l IH]; intros m Hnd; csimpl.
  { set_solver. }
  apply NoDup_cons in Hnd as [Hk Hnd]. rewrite IH by done.
  destruct (decide (x = f k)) as [->|Hne].
  - rewrite lookup_insert_eq. split.
    + intros [(k' & Hin & Hf)|[_ [= ->]]].
      * exfalso. apply Hk. apply list_elem_of_fmap. exists k'. split; [done|].
        apply list_elem_of_fmap. by exists (k', v).
      * left. exists k. set_solver.
    + intros [(k' & [[= -> ->]|Hin]%elem_of_cons & Hf)|[Hn _]]; [by right| |set_solver].
      left. by exists k'.
  - rewrite lookup_insert_ne by done. set_solver.
Qed.

Lemma breakdown_lookup `{MapOrder} (codes : gmap Z Z) x v :
  (forall k, is_Some (codes !! k) -> 0 <= k) ->
  breakdown_by_status codes !! x = Some v <-> exists k, codes !! k = Some v /\ u64_to_string k = x.
Proof.
  intros Hpos. unfold breakdown_by_status. rewrite collect_lookup.
  - rewrite lookup_empty. setoid_rewrite elem_of_map_iter. naive_solver.
  - rewrite map_iter_perm. apply (NoDup_fmap_2_strong u64_to_string); [|apply NoDup_fst_map_to_list].
    intros k k' ([? a] & -> & Ha%elem_of_map_to_list)%list_elem_of_fmap
      ([? b] & -> & Hb%elem_of_map_to_list)%list_elem_of_fmap.
    apply u64_to_string_inj; simpl; eauto.
Qed.

(** A threshold is met: a missing one always, a NaN observation never. *)
Definition at_most (observed : f64) (t : option f64) : Prop :=
  forall x, t = Some x -> f64_leb observed x = true.
Definition at_least (observed : f64) (t : option f64) : Prop :=
  forall x, t = Some x -> f64_leb x observed = true.

Lemma check_if_set_app configured name observed comparator checks :
  exists new, check_if_set configured name observed comparator checks = checks ++ new /\
    (new = [] <-> configured = None) /\
    (forallb sc_passed new = true <->
       if String.eqb comparator ">=" then at_least observed configured else at_most observed configured).
Proof.
  destruct configured as [t|]; simpl.
  - eexists. split; [done|]. split; [done|]. simpl. rewrite andb_true_r. unfold at_least, at_most, f64_geb.
    by destruct (String.eqb comparator ">="); naive_solver.
  - exists []. rewrite app_nil_r. unfold at_least, at_most.
    split; [done|]. split; [done|]. destruct (String.eqb comparator ">="); naive_solver.
Qed.

(** The checks, with the conditions they stand for. *)
Lemma evaluate_slo_spec config p95 p99 er rps :
  match evaluate_slo config p95 p99 er rps with
  | None => cfg_slo_p95_ms config = None /\ cfg_slo_p99_ms config = None /\
            cfg_slo_error_rate config = None /\ cfg_slo_min_rps config = None
  | Some r =>
      (is_some (cfg_slo_p95_ms config) || is_some (cfg_slo_p99_ms config) ||
       is_some (cfg_slo_error_rate config) || is_some (cfg_slo_min_rps config)) = true /\
      sl_passed r = forallb sc_passed (sl_checks r) /\
      (sl_passed r = true <->
       at_most p95 (cfg_slo_p95_ms config) /\ at_most p99 (cfg_slo_p99_ms config) /\
       at_most er (cfg_slo_error_rate config) /\ at_least rps (cfg_slo_min_rps config))
  end.
Proof.
  unfold evaluate_slo.
  destruct (check_if_set_app (cfg_slo_p95_ms config) "p95_latency_ms" p95 "<=" [])
    as (n1 & -> & E1 & P1).
  destruct (check_if_set_app (cfg_slo_p99_ms config) "p99_latency_ms" p99 "<=" ([] ++ n1))
    as (n2 & -> & E2 & P2).
  destruct (check_if_set_app (cfg_slo_error_rate config) "error_rate_percent" er "<=" (([] ++ n1) ++ n2))
    as (n3 & -> & E3 & P3).
  destruct (check_if_set_app (cfg_slo_min_rps config) "rps" rps ">=" ((([] ++ n1) ++ n2) ++ n3))
    as (n4 & -> & E4 & P4).
  simpl String.eqb in *. cbv iota in *. rewrite app_nil_l.
  set (all := ((n1 ++ n2) ++ n3) ++ n4).
  assert (Hall : forallb sc_passed all = true <->
    at_most p95 (cfg_slo_p95_ms config) /\ at_most p99 (cfg_slo_p99_ms config) /\
    at_most er (cfg_slo_error_rate config) /\ at_least rps (cfg_slo_min_rps config)).
  { unfold all. rewrite !forallb_app, !andb_true_iff, P1, P2, P3, P4. tauto. }
  assert (Hnil : all = [] <-> n1 = [] /\ n2 = [] /\ n3 = [] /\ n4 = []).
  { unfold all. rewrite !app_nil. tauto. }
  rewrite E1, E2, E3, E4 in Hnil.
  clearbody all. destruct all as [|c all]; [tauto|].
  cbn [sl_passed sl_checks]. split_and!; [|done|done].
  destruct (cfg_slo_p95_ms config), (cfg_slo_p99_ms config),
    (cfg_slo_error_rate config), (cfg_slo_min_rps config); try done.
  destruct Hnil as [_ Hnil]. by discriminate Hnil.
Qed.

(** ** Properties *)

(** C23. The SLO verdict of the artifact: absent exactly when no threshold is
    configured; otherwise it passes exactly when every configured latency and
    error-rate bound is an upper bound of the observation and the configured
    rate a lower bound (an observation that is not a number fails), whatever
    the order of the checks. *)
Theorem slo_verdict `{MapOrder} (summary : TestSummary) (config : TestConfig) (info : SystemInfo) :
  match ra_slo (from_summary_and_config summary config info) with
  | None => cfg_slo_p95_ms config = None /\ cfg_slo_p99_ms config = None /\
            cfg_slo_error_rate config = None /\ cfg_slo_min_rps config = None
  | Some r =>
      (is_some (cfg_slo_p95_ms config) || is_some (cfg_slo_p99_ms config) ||
       is_some (cfg_slo_error_rate config) || is_some (cfg_slo_min_rps config)) = true /\
      sl_passed r = forallb sc_passed (sl_checks r) /\
      (sl_passed r = true <->
       at_most (su_p95_latency_ms summary) (cfg_slo_p95_ms config) /\
       at_most (su_p99_latency_ms summary) (cfg_slo_p99_ms config) /\
       at_most (artifact_error_rate summary) (cfg_slo_error_rate config) /\
       at_least (artifact_rps summary) (cfg_slo_min_rps config))
  end.
Proof. apply evaluate_slo_spec. Qed.

(** The request totals of the artifact add up whenever the summary has no more
    errors than requests, and the breakdown is the status-code table of the
    summary, keyed by the decimal status: no code is lost, merged or invented,
    whatever the iteration order of the hash map. *)
Theorem artifact_accounts `{MapOrder} (summary : TestSummary) (config : TestConfig) (info : SystemInfo) :
  su_total_errors summary <= su_total_requests summary ->
  (forall k, is_Some (su_status_codes summary !! k) -> 0 <= k) ->
  let a := from_summary_and_config summary config info in
  ar_successful_requests (ra_summary a) + ar_failed_requests (ra_summary a) =
    ar_total_requests (ra_summary a) /\
  (forall x v, ra_error_breakdown a !! x = Some v <->
     exists k, su_status_codes summary !! k = Some v /\ u64_to_string k = x) /\
  (forall k, 0 <= k -> ra_error_breakdown a !! u64_to_string k = su_status_codes summary !! k).
Proof.
  intros Hle Hpos a. simpl. unfold u_saturating_sub. split; [lia|].
  assert (Hx : forall x v, breakdown_by_status (su_status_codes summary) !! x = Some v <->
    exists k, su_status_codes summary !! k = Some v /\ u64_to_string k = x)
    by (intros; by apply breakdown_lookup).
  split; [exact Hx|]. intros k Hk. apply option_eq. intros v. rewrite Hx. split.
  - intros (k' & Hv & E). apply u64_to_string_inj in E; [by subst| |done]. apply Hpos. eauto.
  - intros Hv. by exists k.
Qed.

(** Three requests, one of them a 503. *)
Definition demo_input : SummaryInput := {|
  si_url := "http://x"; si_total_requests := 3; si_total_errors := 1;
  si_latency_histogram := hist_of [900; 4200; 4200]; si_total_bytes := 120;
  si_duration_secs := f64_of_Z 2; si_workers := 1;
  si_status_codes := <[200 := 2]> (<[503 := 1]> ∅);
  si_e2e_latency_histogram := hist_of []; si_connection_latency_histogram := hist_of [];
  si_quic_metrics := None; si_sse_metrics := None; si_ws_metrics := None; si_grpc_metrics := None;
  si_http3_metrics := None; si_graphql_metrics := None; si_graphql_ws_metrics := None;
  si_soap_metrics := None; si_stomp_metrics := None; si_db_metrics := None; si_timeline := None;
  si_chaos_injected_total := 0; si_chaos_faults_by_type := ∅; si_resource_samples := [];
  si_total_sockets_created := 1; si_total_connections_reused := 2;
  si_dns_resolution_sum_us := 0; si_dns_resolution_count := 0 |}.

Definition demo_config : TestConfig :=
  build (bset_slo_min_rps (Some (f64_of_Z 1)) (bset_slo_p95_ms (Some (f64_of_Z 4))
    (TestConfigBuilder_new "http://x"))).

(** 1.5 requests per second meet the rate, a p95 of 4.2 ms misses the bound. *)
Example demo_slo :
  sl_passed <$> ra_slo (from_summary_and_config (calculate_summary demo_input) demo_config
    (get_system_info None None "linux" "1")) = Some false.
Proof. vm_compute. reflexivity. Qed.

Lemma artifact_accounts_witness :
  let a := from_summary_and_config (calculate_summary demo_input) demo_config
             (get_system_info None None "linux" "1") in
  ar_successful_requests (ra_summary a) + ar_failed_requests (ra_summary a) = 3 /\
  ra_error_breakdown a !! u64_to_string 503 = Some 1.
Proof.
  destruct (artifact_accounts (calculate_summary demo_input) demo_config
    (get_system_info None None "linux" "1")) as (H1 & _ & H3).
  - simpl. lia.
  - intros k. simpl. rewrite !lookup_insert_is_Some', lookup_empty.
    intros [<-|[<-|[? [=]]]]; lia.
  - split; [exact H1|]. rewrite (H3 503); [reflexivity|lia].
Defined.
