(* ===== verification/Ramp.v ===== *)
(** Ramps in doubles ([src/config.rs], [LoadProfile::target_concurrency]).

    The level of a ramp is computed by a division, a multiplication, an addition
    and a rounding of doubles.  With [F64] each of them is the rounding of an exact
    value, so that the level is the value of [ramp_units] below: monotone in time,
    exact at both ends, hence between them, and less than one worker away from the
    line. *)

From S2P Require Import Prelude Float Rounding F64 Config LoadProfile.

#[local] Open Scope Z_scope.
#[local] Open Scope f64_scope.
#[local] Opaque R.

(** ** The level, in units *)

Definition progress_units (ramp t : Z) : Z := R (R (t * ONE) 1 * ONE) (R (ramp * ONE) 1).
Definition ramp_units (start target ramp t : Z) : Z :=
  R (start * ONE + R ((target - start) * ONE * progress_units ramp t) ONE) 1.

Section ramp.
Context (start target ramp : Z).
Context (Hstart : 0 <= start <= 2 ^ 52) (Htarget : 0 <= target <= 2 ^ 52) (Hramp : 0 < ramp <= U64_MAX).

Lemma ramp_seconds t : 0 <= t <= U64_MAX ->
  f64_of_Z t ≈ R (t * ONE) 1 /\ 0 <= R (t * ONE) 1 <= 2 ^ 64 * ONE.
Proof.
  intros Ht. pose proof ONE_pos. unfold U64_MAX in Ht. split.
  - apply of_Z_value. transitivity (2 ^ 64); [lia|]. by apply Z.pow_le_mono_r.
  - split; [apply R_nonneg; nia|]. apply R_le; [lia| |nia].
    replace (2 ^ 64 * ONE) with (1 * 2 ^ 1138) by (by unfold ONE; rewrite <- Z.pow_add_r). by apply rep_pow.
Qed.

Lemma ramp_positive : ONE <= R (ramp * ONE) 1.
Proof.
  pose proof ONE_pos. apply R_ge; [lia| |nia]. rewrite <- (Z.mul_1_l ONE). by apply rep_int.
Qed.

Lemma progress_mono t t' : t <= t' -> progress_units ramp t <= progress_units ramp t'.
Proof.
  intros Ht. pose proof ONE_pos. pose proof ramp_positive. apply R_mono_num; [lia|].
  apply Z.mul_le_mono_nonneg_r; [lia|]. apply R_mono_num; [lia|nia].
Qed.

Lemma progress_start : progress_units ramp 0 = 0.
Proof.
  pose proof ramp_positive. pose proof ONE_pos. unfold progress_units.
  rewrite (Z.mul_0_l ONE), (R_0 1), (Z.mul_0_l ONE) by done. apply R_0. lia.
Qed.

Lemma progress_end : progress_units ramp ramp = ONE.
Proof.
  unfold progress_units. rewrite Z.mul_comm. pose proof ramp_positive. pose proof ONE_pos.
  apply R_exact; [|lia]. rewrite <- (Z.mul_1_l ONE). by apply rep_int.
Qed.

Lemma progress_bounds t : 0 <= t <= ramp -> 0 <= progress_units ramp t <= ONE.
Proof.
  intros Ht. rewrite <- progress_start at 1. rewrite <- progress_end. split; apply progress_mono; lia.
Qed.

Lemma ramp_units_start : ramp_units start target ramp 0 = start * ONE.
Proof.
  pose proof ONE_pos. unfold ramp_units. rewrite progress_start, Z.mul_0_r.
  rewrite R_0, Z.add_0_r by done. apply R_exact_1, rep_int. lia.
Qed.

Lemma ramp_units_end : ramp_units start target ramp ramp = target * ONE.
Proof.
  pose proof ONE_pos. unfold ramp_units. rewrite progress_end, R_exact by (apply rep_int || lia; lia).
  replace (start * ONE + (target - start) * ONE) with (target * ONE) by ring. apply R_exact_1, rep_int. lia.
Qed.

Lemma ramp_units_up t t' : start <= target -> t <= t' -> ramp_units start target ramp t <= ramp_units start target ramp t'.
Proof.
  intros Hs Ht. pose proof ONE_pos. apply R_mono_num; [lia|]. apply Z.add_le_mono_l, R_mono_num; [lia|].
  apply Z.mul_le_mono_nonneg_l; [nia|]. by apply progress_mono.
Qed.

Lemma ramp_units_down t t' : target <= start -> t <= t' -> ramp_units start target ramp t' <= ramp_units start target ramp t.
Proof.
  intros Hs Ht. pose proof ONE_pos. apply R_mono_num; [lia|]. apply Z.add_le_mono_l, R_mono_num; [lia|].
  apply Z.mul_le_mono_nonpos_l; [nia|]. by apply progress_mono.
Qed.

Lemma ramp_units_bounds t :
  0 <= t <= ramp -> Z.min start target * ONE <= ramp_units start target ramp t <= Z.max start target * ONE.
Proof.
  intros Ht. destruct (Z.le_ge_cases start target) as [Hs|Hs].
  - rewrite Z.min_l, Z.max_r by done. rewrite <- ramp_units_start, <- ramp_units_end.
    split; apply ramp_units_up; lia.
  - rewrite Z.min_r, Z.max_l by done. rewrite <- ramp_units_end. rewrite <- ramp_units_start.
    split; apply ramp_units_down; lia.
Qed.

(** The executable level is the integer nearest to [ramp_units]. *)
Lemma ramp_level_units t :
  0 <= t <= ramp -> ramp_level start target ramp t = (2 * ramp_units start target ramp t + ONE) / (2 * ONE).
Proof.
  intros Ht. pose proof ONE_pos as H1. pose proof ramp_positive as Hpos. pose proof (progress_bounds t Ht) as Hpb.
  pose proof (ramp_units_bounds t Ht) as Hb. set (u := ramp_units start target ramp t) in *.
  destruct (ramp_seconds t ltac:(unfold U64_MAX in *; lia)) as [Ft Bt].
  destruct (ramp_seconds ramp ltac:(unfold U64_MAX in *; lia)) as [Fr Br].
  assert (Hbig : 2 ^ 200 * ONE <= BIG).
  { rewrite BIG_ONE. apply Z.mul_le_mono_nonneg_r; [lia|]. by apply Z.pow_le_mono_r. }
  assert (Hdiv : f64_div (f64_of_Z t) (f64_of_Z ramp) ≈ progress_units ramp t).
  { apply div_value; [done|done|lia|]. rewrite Z.abs_eq by nia. nia. }
  assert (Hrange : f64_sub (f64_of_Z target) (f64_of_Z start) ≈ (target - start) * ONE).
  { rewrite <- (R_exact_1 ((target - start) * ONE)) by (apply rep_int; lia).
    replace ((target - start) * ONE) with (target * ONE - start * ONE) by ring.
    apply sub_value; [apply of_int; lia|apply of_int; lia|]. apply Z.abs_le. nia. }
  assert (Hmul := mul_value _ _ _ _ Hrange Hdiv).
  assert (Hprod : Z.abs ((target - start) * ONE * progress_units ramp t) <= 2 ^ 52 * ONE * ONE).
  { rewrite !Z.abs_mul, (Z.abs_eq ONE), (Z.abs_eq (progress_units _ _)) by lia.
    apply Z.mul_le_mono_nonneg; [nia|apply Z.mul_le_mono_nonneg_r; lia|lia|lia]. }
  specialize (Hmul ltac:(nia)).
  assert (Habs : Z.abs (R ((target - start) * ONE * progress_units ramp t) ONE) <= 2 ^ 52 * ONE).
  { apply Z.abs_le. assert (representable 53 (2 ^ 52 * ONE)) by (apply rep_int; lia). split.
    - apply R_ge; [done|by apply representable_opp|lia].
    - apply R_le; [done|done|lia]. }
  assert (0 <= start * ONE <= 2 ^ 52 * ONE) by nia.
  assert (Hadd := add_value _ _ _ _ (of_int start ltac:(lia)) Hmul ltac:(lia)).
  change (R _ 1) with u in Hadd.
  assert (Hu0 : 0 <= u) by nia. assert (HuM : u <= 2 ^ 52 * ONE) by nia.
  pose proof (round_value _ u Hadd Hu0 HuM) as Hround.
  assert (Hq : 0 <= (2 * u + ONE) / (2 * ONE) <= 2 ^ 52).
  { split; [apply Z.div_pos; lia|]. apply Z.lt_succ_r, Z.div_lt_upper_bound; lia. }
  unfold ramp_level. rewrite (as_u64_value _ _ Hround) by nia. rewrite Z.div_mul by lia. unfold U64_MAX. lia.
Qed.
End ramp.

(** ** Properties *)

Section claims.
Context (start target ramp : Z).
Context (Hstart : 0 <= start <= 2 ^ 52) (Htarget : 0 <= target <= 2 ^ 52) (Hramp : 0 < ramp <= U64_MAX).

Lemma ramp_level_mono t t' :
  0 <= t <= t' -> t' <= ramp ->
  (start <= target -> ramp_level start target ramp t <= ramp_level start target ramp t') /\
  (target <= start -> ramp_level start target ramp t' <= ramp_level start target ramp t).
Proof.
  intros Ht Ht'. pose proof ONE_pos. rewrite !ramp_level_units by (assumption || lia). split; intros Hs.
  - apply Z.div_le_mono; [lia|]. assert (ramp_units start target ramp t <= ramp_units start target ramp t') by (apply ramp_units_up; (assumption || lia)). lia.
  - apply Z.div_le_mono; [lia|]. assert (ramp_units start target ramp t' <= ramp_units start target ramp t) by (apply ramp_units_down; (assumption || lia)). lia.
Qed.

Lemma ramp_level_ends : ramp_level start target ramp 0 = start /\ ramp_level start target ramp ramp = target.
Proof.
  pose proof ONE_pos. rewrite !ramp_level_units by (assumption || lia).
  rewrite ramp_units_start, ramp_units_end by assumption.
  split; symmetry; apply (Z.div_unique_pos _ _ _ ONE); lia.
Qed.

(** The distance from the line, in units times seconds. *)
Lemma ramp_units_error t :
  ramp <= 2 ^ 53 -> start <= MAX_CONCURRENCY -> target <= MAX_CONCURRENCY -> 0 <= t <= ramp ->
  2 ^ 30 * Z.abs (ramp_units start target ramp t * ramp - (start * ramp + (target - start) * t) * ONE) <= ramp * ONE.
Proof.
  intros Hr Hs Hg Ht. unfold MAX_CONCURRENCY in *. pose proof ONE_pos as H1.
  assert (Hbig : 2 ^ 60 <= ONE) by (by apply Z.pow_le_mono_r).
  pose proof (progress_bounds ramp Hramp t Ht) as Hpb.
  set (P := progress_units ramp t) in *. set (M := R ((target - start) * ONE * P) ONE).
  assert (EP : 2 ^ 52 * Z.abs (P * ramp - t * ONE) <= ramp * ONE).
  { pose proof (R_error (t * ONE * ONE) (ramp * ONE) ltac:(nia)) as He.
    assert (HP : P = R (t * ONE * ONE) (ramp * ONE)).
    { unfold P, progress_units. by rewrite !R_exact_1 by (apply rep_int; lia). }
    rewrite <- HP in He.
    replace (P * (ramp * ONE) - t * ONE * ONE) with ((P * ramp - t * ONE) * ONE) in He by ring.
    rewrite Z.abs_mul, (Z.abs_eq ONE), (Z.abs_eq (t * ONE * ONE)) in He by nia.
    set (c := Z.abs (P * ramp - t * ONE)) in *.
    assert (2 ^ 53 * c <= 2 ^ 52 * ramp + t * ONE) by (apply (Z.mul_le_mono_pos_r _ _ ONE H1); lia).
    assert (t * ONE <= ramp * ONE) by (apply Z.mul_le_mono_nonneg_r; lia).
    assert (2 ^ 52 * ramp <= ONE * ramp) by (apply Z.mul_le_mono_nonneg_r; lia). lia. }
  set (X := (target - start) * P).
  assert (HX : Z.abs X <= 10000 * ONE).
  { unfold X. rewrite Z.abs_mul, (Z.abs_eq P) by lia. apply Z.mul_le_mono_nonneg; lia. }
  assert (HM : M = R (X * ONE) ONE) by (unfold M, X; f_equal; ring).
  assert (EM : 2 ^ 52 * Z.abs (M - X) <= 10000 * ONE + 2 ^ 52).
  { pose proof (R_error (X * ONE) ONE H1) as He. rewrite <- HM in He.
    replace (M * ONE - X * ONE) with ((M - X) * ONE) in He by ring.
    rewrite !Z.abs_mul, (Z.abs_eq ONE) in He by lia.
    apply (Z.mul_le_mono_pos_r _ _ ONE H1).
    assert (Z.abs X * ONE <= 10000 * ONE * ONE) by (apply Z.mul_le_mono_nonneg_r; lia). lia. }
  assert (BM : Z.abs M <= 10000 * ONE).
  { rewrite HM. assert (Hrep : representable 53 (10000 * ONE)) by (by apply rep_int). apply Z.abs_le. split.
    - apply R_ge; [done|by apply representable_opp|]. apply Z.mul_le_mono_nonneg_r; lia.
    - apply R_le; [done|done|]. apply Z.mul_le_mono_nonneg_r; lia. }
  assert (ES : 2 ^ 52 * Z.abs (ramp_units start target ramp t - (start * ONE + M)) <= 20000 * ONE + 2 ^ 52).
  { pose proof (R_error (start * ONE + M) 1 ltac:(lia)) as He.
    change (R (start * ONE + M) 1) with (ramp_units start target ramp t) in He. rewrite !Z.mul_1_r in He.
    assert (0 <= start * ONE <= 10000 * ONE) by nia. lia. }
  set (U := ramp_units start target ramp t) in *.
  replace (U * ramp - (start * ramp + (target - start) * t) * ONE) with
    ((U - (start * ONE + M)) * ramp + (M - X) * ramp + (target - start) * (P * ramp - t * ONE)) by (unfold X; ring).
  set (a := U - (start * ONE + M)) in *. set (b := M - X) in *. set (c := P * ramp - t * ONE) in *.
  assert (Ha : Z.abs (a * ramp) = Z.abs a * ramp) by (rewrite Z.abs_mul, (Z.abs_eq ramp); lia).
  assert (Hb : Z.abs (b * ramp) = Z.abs b * ramp) by (rewrite Z.abs_mul, (Z.abs_eq ramp); lia).
  assert (Hc : Z.abs ((target - start) * c) <= 10000 * Z.abs c).
  { rewrite Z.abs_mul. apply Z.mul_le_mono_nonneg_r; lia. }
  assert (Hab : 2 ^ 52 * ((Z.abs a + Z.abs b) * ramp) <= (30000 * ONE + 2 ^ 53) * ramp).
  { rewrite Z.mul_assoc. apply Z.mul_le_mono_nonneg_r; lia. }
  assert (2 ^ 53 * ramp <= ONE * ramp) by (apply Z.mul_le_mono_nonneg_r; lia). lia.
Qed.
End claims.

(** A profile that the entry points admit: every number is a [u64], and the
    concurrency limit holds of its upper bound. *)
Definition admitted (p : LoadProfile) : Prop :=
  profile_ok p /\ ensure_concurrency_limit (concurrency_upper_bound p) = Ok ().

Lemma admitted_bound p : admitted p -> concurrency_upper_bound p <= MAX_CONCURRENCY.
Proof.
  intros [_ Hl]. unfold ensure_concurrency_limit in Hl.
  destruct (_ || _) eqn:E in Hl; [done|]. apply orb_false_iff in E as [_ E]. by apply Z.ltb_ge in E.
Qed.

(** The ramp of an admitted profile, in the range of the lemmas above. *)
Lemma admitted_ramp start target ramp hold :
  admitted (LP_Ramp start target ramp hold) ->
  0 <= start <= MAX_CONCURRENCY /\ 0 <= target <= MAX_CONCURRENCY /\ 0 <= ramp <= U64_MAX.
Proof.
  intros Hp. pose proof (admitted_bound _ Hp) as Hb. destruct Hp as [Hok _]. simpl in *. unfold in_u64 in *. lia.
Qed.

Lemma limit_small n : 0 <= n <= MAX_CONCURRENCY -> 0 <= n <= 2 ^ 52.
Proof. unfold MAX_CONCURRENCY. lia. Qed.

(** The levels at whole seconds. *)
Lemma ramp_at_seconds start target ramp hold t t' :
  let p := LP_Ramp start target ramp hold in
  let level t := target_concurrency p (from_secs t) in
  admitted p -> ramp <= 2 ^ 53 -> 0 <= t <= t' ->
  level 0 = (if ramp =? 0 then target else start) /\
  (ramp <= t -> level t = target) /\
  (start <= target -> start <= level t <= level t' /\ level t' <= target) /\
  (target <= start -> target <= level t' <= level t /\ level t <= start) /\
  (t < ramp -> Z.abs (level t * ramp - (start * ramp + (target - start) * t)) < ramp).
Proof.
  intros p level Hp Hr Ht. destruct (admitted_ramp _ _ _ _ Hp) as (Hs & Hg & Hru).
  assert (Hlev : forall t, 0 <= t -> level t = if t <? ramp then ramp_level start target ramp t else target).
  { intros x Hx. unfold level, p, target_concurrency, as_secs, from_secs. rewrite Z.div_mul by done.
    destruct (Z.ltb_spec x ramp); [|done]. destruct (Z.eqb_spec ramp 0); [lia|done]. }
  destruct (Z.eq_dec ramp 0) as [->|Hr0].
  { rewrite !Hlev by lia. destruct (Z.ltb_spec t 0), (Z.ltb_spec t' 0); try lia. simpl. lia. }
  assert (Hp0 : 0 < ramp <= U64_MAX) by lia.
  destruct (ramp_level_ends start target ramp (limit_small _ Hs) (limit_small _ Hg) Hp0) as [E0 E1].
  assert (Hmin : forall x, 0 <= x -> level x = ramp_level start target ramp (Z.min x ramp)).
  { intros x Hx. rewrite Hlev by done. destruct (Z.ltb_spec x ramp).
    - by rewrite Z.min_l by lia.
    - by rewrite Z.min_r, E1 by lia. }
  assert (Hmono := fun x y => ramp_level_mono start target ramp (limit_small _ Hs) (limit_small _ Hg) Hp0 x y).
  rewrite (Hmin t), (Hmin t') by lia. split_and!.
  - rewrite Hmin, Z.min_l, E0 by lia. by rewrite (proj2 (Z.eqb_neq _ _)).
  - intros Hle. by rewrite Z.min_r, E1 by lia.
  - intros Hst. destruct (Hmono 0 (Z.min t ramp)) as [A _]; [lia|lia|].
    destruct (Hmono (Z.min t ramp) (Z.min t' ramp)) as [B _]; [lia|lia|].
    destruct (Hmono (Z.min t' ramp) ramp) as [C _]; [lia|lia|]. lia.
  - intros Hst. destruct (Hmono 0 (Z.min t ramp)) as [_ A]; [lia|lia|].
    destruct (Hmono (Z.min t ramp) (Z.min t' ramp)) as [_ B]; [lia|lia|].
    destruct (Hmono (Z.min t' ramp) ramp) as [_ C]; [lia|lia|]. lia.
  - intros Hlt. rewrite Z.min_l by lia.
    pose proof (ramp_units_error start target ramp (limit_small _ Hs) (limit_small _ Hg) Hp0 t Hr
      (proj2 Hs) (proj2 Hg) ltac:(lia)) as He.
    rewrite ramp_level_units by (apply limit_small || assumption || lia; assumption). pose proof ONE_pos as H1.
    set (U := ramp_units start target ramp t) in *.
    pose proof (Z.div_mod (2 * U + ONE) (2 * ONE) ltac:(lia)) as Hd.
    pose proof (Z.mod_pos_bound (2 * U + ONE) (2 * ONE) ltac:(lia)) as Hm.
    set (q := (2 * U + ONE) / (2 * ONE)) in *. set (L := start * ramp + (target - start) * t) in *.
    assert (Hq : Z.abs (2 * (q * ONE - U)) <= ONE) by lia.
    assert (Hq' : 2 * Z.abs ((q * ONE - U) * ramp) <= ONE * ramp).
    { rewrite Z.abs_mul, (Z.abs_eq ramp) by lia. rewrite Z.abs_mul in Hq. nia. }
    apply (Z.mul_lt_mono_pos_r ONE); [done|]. rewrite <- (Z.abs_eq ONE) at 1 by lia. rewrite <- Z.abs_mul.
    replace ((q * ramp - L) * ONE) with ((q * ONE - U) * ramp + (U * ramp - L * ONE)) by ring. lia.
Qed.

(** The profile is consulted in whole seconds. *)
Lemma target_whole_seconds p d : 0 <= d -> target_concurrency p d = target_concurrency p (from_secs (as_secs d)).
Proof. intros Hd. unfold target_concurrency, as_secs, from_secs. by rewrite !Z.div_mul by done. Qed.

(** C31. A ramp in doubles is the staircase of its line.  For an admitted profile with
    [ramp_secs] up to [2^53] and any two elapsed times [d <= d']: for its first
    second the level is [start_concurrency] ([target_concurrency] if the ramp takes
    no time), from [ramp_secs] on it is [target_concurrency]; in between it never
    turns back and never leaves the range of the two; it only changes at whole
    seconds, where it is less than one worker away from the straight line, so that
    at any other moment it is off the line by less than one worker and what the
    line gains in one second. *)
Theorem ramp_follows_line start target ramp hold d d' :
  let p := LP_Ramp start target ramp hold in
  let level d := target_concurrency p d in
  let second := from_secs 1 in
  admitted p -> ramp <= 2 ^ 53 -> 0 <= d <= d' ->
  (d < second -> level d = if ramp =? 0 then target else start) /\
  (from_secs ramp <= d -> level d = target) /\
  (start <= target -> start <= level d <= level d' /\ level d' <= target) /\
  (target <= start -> target <= level d' <= level d /\ level d <= start) /\
  (d < from_secs ramp ->
   level d = level (d / second * second) /\
   Z.abs (level d * ramp - (start * ramp + (target - start) * (d / second))) < ramp /\
   Z.abs (level d * from_secs ramp - (start * from_secs ramp + (target - start) * d))
     < from_secs ramp + Z.abs (target - start) * second).
Proof.
  intros p level second Hp Hr Hd. destruct (admitted_ramp _ _ _ _ Hp) as (Hs & Hg & Hru).
  assert (Hsec : second = NANOS_PER_SEC) by done.
  assert (Hpos : 0 < NANOS_PER_SEC) by done. pose proof (Z.div_pos d _ ltac:(lia) Hpos) as Ht0.
  pose proof (Z.div_le_mono d d' _ Hpos ltac:(lia)) as Htt.
  destruct (ramp_at_seconds start target ramp hold (as_secs d) (as_secs d') Hp Hr (conj Ht0 Htt))
    as (H0 & H1 & H2 & H3 & H4). fold p in H0, H1, H2, H3, H4.
  rewrite <- (target_whole_seconds p d) in H1, H2, H3, H4 by lia.
  rewrite <- (target_whole_seconds p d') in H2, H3 by lia.
  assert (Hdm := Z.div_mod d NANOS_PER_SEC ltac:(lia)). assert (Hm := Z.mod_pos_bound d NANOS_PER_SEC Hpos).
  unfold level in *. rewrite Hsec. unfold from_secs. split_and!; [| |done|done|].
  - intros Hl. rewrite (target_whole_seconds p d) by lia. unfold as_secs. by rewrite Z.div_small by lia.
  - intros Hl. apply H1. unfold as_secs. apply Z.div_le_lower_bound; lia.
  - intros Hl. assert (Hlt : as_secs d < ramp) by (unfold as_secs; apply Z.div_lt_upper_bound; lia).
    specialize (H4 Hlt). split_and!; [apply (target_whole_seconds p d); lia|done|].
    set (L := target_concurrency p d) in *. unfold as_secs in *. set (q := d / NANOS_PER_SEC) in *.
    set (m := d mod NANOS_PER_SEC) in *. set (G := target - start) in *. clearbody L q m G. rewrite Hdm.
    replace (L * (ramp * NANOS_PER_SEC) - (start * (ramp * NANOS_PER_SEC) + G * (NANOS_PER_SEC * q + m)))
      with ((L * ramp - (start * ramp + G * q)) * NANOS_PER_SEC - G * m) by ring.
    set (x := L * ramp - (start * ramp + G * q)) in *. clearbody x.
    assert (Hx : Z.abs (x * NANOS_PER_SEC) < ramp * NANOS_PER_SEC) by (rewrite Z.abs_mul, (Z.abs_eq NANOS_PER_SEC); nia).
    assert (Hgm : Z.abs (G * m) <= Z.abs G * NANOS_PER_SEC) by (rewrite Z.abs_mul, (Z.abs_eq m); nia). lia.
Qed.

(** C32. No more workers than admitted: for a profile the entry points accept, the
    number of live workers after every round of the supervisor is at most the
    profile's upper bound, hence at most 10,000, ramps included. *)
Theorem supervisor_within_limit p total obs elapsed c s :
  admitted p -> 0 <= elapsed ->
  supervise p total (obs ++ [(elapsed, c)]) Supervisor_new = Some (inr s) ->
  Z.of_nat (length (sv_child_tokens s)) <= concurrency_upper_bound p <= MAX_CONCURRENCY.
Proof.
  intros Hp He Hs. split; [|by apply admitted_bound]. destruct Hp as [Hok Hl].
  destruct (supervise_inv p total (obs ++ [(elapsed, c)]) _ Hok supervisor_inv_new) as (r & Hr & Hinv).
  rewrite Hs in Hr. injection Hr as <-. destruct Hinv as [_ Hlast].
  rewrite (Hlast obs elapsed c eq_refl). clear Hlast Hs s.
  destruct p as [n d|start target ramp hold|b k pre sp post]; simpl; [lia| |repeat case_match; lia].
  destruct (admitted_ramp start target ramp hold (conj Hok Hl)) as (Hs & Hg & Hru).
  destruct (Z.ltb_spec (as_secs elapsed) ramp) as [Hlt|]; [|lia].
  destruct (Z.eqb_spec ramp 0); [lia|].
  assert (Ht : 0 <= as_secs elapsed <= ramp) by (split; [apply Z.div_pos; done || lia|lia]).
  rewrite ramp_level_units by (assumption || apply limit_small || lia; assumption). pose proof ONE_pos.
  destruct (ramp_units_bounds start target ramp (limit_small _ Hs) (limit_small _ Hg) ltac:(lia) _ Ht) as [_ Hb].
  apply Z.lt_succ_r, Z.div_lt_upper_bound; lia.
Qed.

(** ** Witnesses *)

Lemma admitted_sample : admitted (LP_Ramp 10 100 3 5).
Proof. split; [|done]. unfold profile_ok, in_u64, U64_MAX. lia. Qed.

(** Nine tenths of the second second of a ramp of three. *)
Lemma ramp_follows_line_witness :
  target_concurrency (LP_Ramp 10 100 3 5) 1900000000 = 40 /\
  Z.abs (target_concurrency (LP_Ramp 10 100 3 5) 1900000000 * 3 - (10 * 3 + (100 - 10) * 1)) < 3.
Proof.
  split; [vm_compute; reflexivity|].
  apply (ramp_follows_line 10 100 3 5 1900000000 1900000000 admitted_sample); [lia|lia|].
  unfold from_secs, NANOS_PER_SEC. lia.
Defined.

Lemma supervisor_within_limit_witness :
  exists s, supervise (LP_Ramp 10 100 3 5) (from_secs 8) [(from_secs 1, false)] Supervisor_new = Some (inr s) /\
    Z.of_nat (length (sv_child_tokens s)) <= 100 <= MAX_CONCURRENCY.
Proof.
  eexists. split; [vm_compute; reflexivity|].
  apply (supervisor_within_limit (LP_Ramp 10 100 3 5) (from_secs 8) [] (from_secs 1) false _ admitted_sample).
  - unfold from_secs, NANOS_PER_SEC. lia.
  - vm_compute. reflexivity.
Defined.
