(* ===== verification/LocalRun.v ===== *)
(** A load test in one process: the worker tasks and [execute_test] of
    [lib.rs], the live counters of [metrics/request.rs], and the protocol-engine
    interface of [protocols/mod.rs].

    Workers share atomic counters and one channel.  A worker is the list of
    atomic effects it has on them, computed from what it observes (clock, token,
    the outcome of each iteration); a run is any interleaving of those lists.
    The interleaving is the order of the channel.  The counters are accessed with
    [Ordering::Relaxed], so it is not an order across them: [execute_test] joins
    every worker and reads the counters after the last effect, where each has one
    value whatever the order, and what the display loads while the run is in
    progress is described counter by counter, each with a modification order of
    its own ([coherent]). *)

From S2P Require Import Prelude RustStr Float Histogram Chaos Samples Aggregate.
From S2P Require Import LoadProfile Config Summary Artifact.

#[local] Open Scope Z_scope.
#[local] Open Scope rust_scope.

(** ** [protocols/mod.rs]: the interface of the engines

    [pe_io] is what one call reads from the network and the clock.  A call
    returns its metric, is still pending when what it waits for never comes (the
    caller's deadline then drops it where it stands), or panics. *)
Inductive CallResult :=
  | Returned (m : RequestMetric)
  | NotFinished
  | Crashed.

Class ProtocolEngine : Type := {
  pe_session : Type;
  pe_io : Type;
  execute_iteration : string -> pe_io -> CallResult;
  create_worker_context : pe_io -> option pe_session;
  iteration_with_context : string -> pe_io -> pe_session -> CallResult * pe_session;
}.

(** ** Live counters *)

Record LiveCounters := mkLiveCounters {
  lc_total_requests : Z;
  lc_errors : Z;
  lc_active_workers : Z;
  lc_completed_requests : Z;
  lc_latency_sum_micros : Z;
  lc_latency_count : Z;
  lc_bytes_received : Z;
}.

Definition LiveCounters_new : LiveCounters := mkLiveCounters 0 0 0 0 0 0 0.

(** The atomic effects of a worker: one [fetch_add]/[fetch_sub] each, or a
    metric put on the channel. *)
Inductive Effect :=
  | AddTotal
  | AddErrors
  | IncActive
  | DecActive
  | AddCompleted
  | AddLatencySum (n : Z)
  | AddLatencyCount
  | AddBytes (n : Z)
  | SendMetric (m : RequestMetric).

Definition count_effect (e : Effect) (c : LiveCounters) : LiveCounters :=
  {| lc_total_requests :=
       match e with AddTotal => lc_total_requests c +! 1 | _ => lc_total_requests c end;
     lc_errors := match e with AddErrors => lc_errors c +! 1 | _ => lc_errors c end;
     lc_active_workers :=
       match e with
       | IncActive => usize_add (lc_active_workers c) 1
       | DecActive => wrap64 (lc_active_workers c - 1)
       | _ => lc_active_workers c
       end;
     lc_completed_requests :=
       match e with AddCompleted => lc_completed_requests c +! 1 | _ => lc_completed_requests c end;
     lc_latency_sum_micros :=
       match e with
       | AddLatencySum n => lc_latency_sum_micros c +! n
       | _ => lc_latency_sum_micros c
       end;
     lc_latency_count :=
       match e with AddLatencyCount => lc_latency_count c +! 1 | _ => lc_latency_count c end;
     lc_bytes_received :=
       match e with AddBytes n => lc_bytes_received c +! n | _ => lc_bytes_received c end |}.

(** The counters and the channel, in sending order. *)
Record Cells := mkCells { sh_counters : LiveCounters; sh_channel : list RequestMetric }.

Definition Cells_new : Cells := mkCells LiveCounters_new [].

Definition apply_effect (s : Cells) (e : Effect) : Cells :=
  mkCells (count_effect e (sh_counters s))
    (match e with SendMetric m => sh_channel s ++ [m] | _ => sh_channel s end).

(** ** A worker task *)

Section worker.
Context `{ProtocolEngine}.

(** How the iteration of a round ends. *)
Inductive IterationEnd :=
  | IterRun (io : pe_io)           (** it ran until it returned or timed out *)
  | IterCancelled.                 (** the token fired first *)

(** What one round of the loop observes. *)
Record WorkerRound := mkWorkerRound {
  wr_elapsed : duration;
  wr_cancelled : bool;
  wr_end : IterationEnd;
  wr_receiver_alive : bool;
}.

Definition iteration_timeout (timeout_secs : Z) : duration :=
  from_secs (if 0 <? timeout_secs then timeout_secs else 5).

(** [Duration::as_micros]. *)
Definition as_micros (d : duration) : Z := d / 1000.

(** The metric of a round and the session after it; [None] when the token fired
    or the engine panicked (the task dies). *)
Definition run_iteration (url : string) (timeout_dur : duration) (ctx : option pe_session)
  (e : IterationEnd) : option (RequestMetric * option pe_session) :=
  match e with
  | IterCancelled => None
  | IterRun io =>
      let '(outcome, ctx) :=
        match ctx with
        | Some c => let '(r, c) := iteration_with_context url io c in (r, Some c)
        | None => (execute_iteration url io, None)
        end in
      match outcome with
      | Returned metric => Some (metric, ctx)
      | NotFinished => Some (error_metric (as_micros timeout_dur) None, ctx)
      | Crashed => None
      end
  end.

(** The counters of a finished iteration. *)
Definition account (metric : RequestMetric) : list Effect :=
  [AddCompleted; AddBytes (rm_bytes_received metric);
   AddLatencySum (wrap64 (latency_micros metric)); AddLatencyCount] ++
  (if is_error metric then [AddErrors] else []).

(** The loop of [spawn_worker] over the rounds it observes: its effects, and
    whether it has ended. *)
Fixpoint worker_loop (url : string) (timeout_dur dur : duration)
  (ctx : option pe_session) (rounds : list WorkerRound) : list Effect * bool :=
  match rounds with
  | [] => ([], false)
  | r :: rest =>
      if (wr_elapsed r <? dur) && negb (wr_cancelled r) then
        match run_iteration url timeout_dur ctx (wr_end r) with
        | None => ([AddTotal], true)
        | Some (metric, ctx) =>
            if wr_receiver_alive r then
              let '(effects, ended) := worker_loop url timeout_dur dur ctx rest in
              (AddTotal :: account metric ++ SendMetric metric :: effects, ended)
            else (AddTotal :: account metric, true)
        end
      else ([], true)
  end.

(** The whole task: register, create the context (unless that times out), loop,
    and unregister through the guard. *)
Record WorkerScript := mkWorkerScript {
  wk_context : option pe_io;       (** [None]: context creation timed out *)
  wk_rounds : list WorkerRound;
}.

Definition worker_context (w : WorkerScript) : option pe_session :=
  io ← wk_context w; create_worker_context io.

Definition spawn_worker (url : string) (dur : duration) (timeout_secs : Z) (w : WorkerScript)
  : list Effect * bool :=
  let timeout_dur := iteration_timeout timeout_secs in
  let '(effects, ended) := worker_loop url timeout_dur dur (worker_context w) (wk_rounds w) in
  (IncActive :: effects ++ (if ended then [DecActive] else []), ended).
End worker.

Arguments account : simpl never.
Arguments IterationEnd {_}.
Arguments WorkerRound {_}.
Arguments WorkerScript {_}.

(** ** Interleaving *)

(** [l] executes every list of [ws] to its end, in some interleaving. *)
Inductive interleaves {A} : list (list A) -> list A -> Prop :=
  | inter_done ws : Forall (fun w => w = []) ws -> interleaves ws []
  | inter_step ws i e rest l :
      ws !! i = Some (e :: rest) ->
      interleaves (<[i := rest]> ws) l ->
      interleaves ws (e :: l).

(** ** [execute_test] *)

Inductive PyErr :=
  | PyRuntimeError (msg : string)
  | PyKeyboardInterrupt (msg : string)
  | PyValueError (msg : string).

Record StompRunInfo := mkStompRunInfo {
  sri_destination : string;
  sri_mode : string;
  sri_ack_mode : string;
  sri_receipts_enabled : bool;
}.

Record DbRunInfo := mkDbRunInfo {
  dri_driver : string;
  dri_pool_max : Z;
  dri_fetch_mode : string;
}.

Definition stamp_graphql (operation_type : option string) (m : GraphqlMetrics) : GraphqlMetrics :=
  mkGraphqlMetrics (gqm_operations_total m) (gqm_error_responses_total m) (gqm_errors_total m)
    (default "query" operation_type)%string.

Definition stamp_soap (version : option string) (m : SoapMetrics) : SoapMetrics :=
  mkSoapMetrics (som_operations_total m) (som_fault_responses_total m)
    (default "1.1" version)%string.

Definition stamp_stomp (info : option StompRunInfo) (m : StompMetrics) : StompMetrics :=
  match info with
  | None => m
  | Some i =>
      mkStompMetrics (stm_messages_sent_total m) (stm_messages_received_total m)
        (stm_bytes_sent_total m) (stm_errors_total m) (stm_reconnects_total m)
        (sri_destination i) (sri_mode i) (sri_ack_mode i) (sri_receipts_enabled i)
        (stm_send_latency m) (stm_receive_interval m) (stm_ttfm m)
  end.

Definition stamp_db (info : option DbRunInfo) (m : DatabaseMetrics) : DatabaseMetrics :=
  match info with
  | None => m
  | Some i =>
      mkDatabaseMetrics (dri_driver i) (dbm_queries_total m) (dbm_rows_total m)
        (dbm_errors_total m) (dri_pool_max i) (dbm_pool_size m) (dri_fetch_mode i)
        (dbm_pool_acquire m) (dbm_query m)
  end.

(** The durations the strategy gives to the workers it spawns: all at once, or
    as the supervisor scales; [None] when the supervisor has not finished. *)
Definition worker_durations (strategy : ConcurrencyStrategy) (obs : list (duration * bool))
  : option (list duration) :=
  match strategy with
  | CS_Constant concurrency duration_secs =>
      Some (replicate (Z.to_nat concurrency) (from_secs duration_secs))
  | CS_Dynamic profile =>
      match supervise profile (from_secs (total_duration profile)) obs Supervisor_new with
      | Some (inl s) => Some (sv_spawned s)
      | _ => None
      end
  end.

Section execute.
Context `{Histogram, ProtocolEngine}.

(** Everything a run observes besides its arguments. *)
Record RunTrace := mkRunTrace {
  rt_supervisor : list (duration * bool);     (** supervisor rounds *)
  rt_scripts : list WorkerScript;             (** one per spawned worker *)
  rt_schedule : list Effect;                  (** the interleaving *)
  rt_supervisor_join : result string ();      (** joining the supervisor task *)
  rt_interrupted : bool;                      (** SIGINT was received *)
  rt_clock : nat -> EmitClock;                (** the aggregator, per metric *)
  rt_t0 : Z; rt_t1 : Z; rt_t_run : Z; rt_t_last : Z;
  rt_aggregator_join : result string ();
  rt_sampler_spawned : bool;
  rt_samples : list ResourceSample;           (** what the sampler delivered *)
  rt_elapsed : duration;
}.

(** The effects of the workers of a run. *)
Definition run_effects (url : string) (strategy : ConcurrencyStrategy) (timeout_secs : Z)
  (t : RunTrace) : option (list (list Effect * bool)) :=
  ds ← worker_durations strategy (rt_supervisor t);
  Some (zip_with (fun dur w => spawn_worker url dur timeout_secs w) ds (rt_scripts t)).

(** The channel as the aggregator receives it. *)
Definition received (t : RunTrace) (channel : list RequestMetric) : list (RequestMetric * EmitClock) :=
  imap (fun i m => (m, rt_clock t i)) channel.

Definition supervisor_failure (strategy : ConcurrencyStrategy) (t : RunTrace) : result PyErr () :=
  match strategy with
  | CS_Constant _ _ => Ok ()
  | CS_Dynamic _ => map_err PyRuntimeError (rt_supervisor_join t)
  end.

(** What follows once the workers are joined. *)
Definition teardown (url : string) (strategy : ConcurrencyStrategy)
    (sys_sample_interval : Z) (graphql_operation_type soap_version : option string)
    (stomp_info : option StompRunInfo) (db_info : option DbRunInfo) (timeline_interval_ms : Z)
    (shared : Cells) (t : RunTrace) : result PyErr TestSummary :=
  let total := lc_total_requests (sh_counters shared) in
  let errors := lc_errors (sh_counters shared) in
  if rt_interrupted t then Err (PyKeyboardInterrupt "load test interrupted by user") else
  _ ← map_err PyRuntimeError (rt_aggregator_join t);
  let aggregated := finalize_metrics (received t (sh_channel shared)) timeline_interval_ms
                      (rt_t0 t) (rt_t1 t) (rt_t_run t) (rt_t_last t) in
  let resource_samples :=
    match sampler_start sys_sample_interval (rt_sampler_spawned t) with
    | Some _ => rt_samples t
    | None => []
    end in
  Ok (calculate_summary {|
    si_url := url;
    si_total_requests := total;
    si_total_errors := errors;
    si_latency_histogram := ag_latency_histogram aggregated;
    si_total_bytes := ag_total_bytes aggregated;
    si_duration_secs := as_secs_f64 (rt_elapsed t);
    si_workers := strategy_max_concurrency strategy;
    si_status_codes := ag_status_codes aggregated;
    si_e2e_latency_histogram := ag_e2e_latency_histogram aggregated;
    si_connection_latency_histogram := ag_connection_latency_histogram aggregated;
    si_quic_metrics := ag_quic_metrics aggregated;
    si_sse_metrics := ag_sse_metrics aggregated;
    si_ws_metrics := ag_ws_metrics aggregated;
    si_grpc_metrics := ag_grpc_metrics aggregated;
    si_http3_metrics := ag_http3_metrics aggregated;
    si_graphql_metrics := stamp_graphql graphql_operation_type <$> ag_graphql_metrics aggregated;
    si_graphql_ws_metrics := ag_graphql_ws_metrics aggregated;
    si_soap_metrics := stamp_soap soap_version <$> ag_soap_metrics aggregated;
    si_stomp_metrics := stamp_stomp stomp_info <$> ag_stomp_metrics aggregated;
    si_db_metrics := stamp_db db_info <$> ag_db_metrics aggregated;
    si_timeline := ag_timeline aggregated;
    si_chaos_injected_total := ag_chaos_injected_total aggregated;
    si_chaos_faults_by_type := ag_chaos_faults_by_type aggregated;
    si_resource_samples := resource_samples;
    si_total_sockets_created := ag_total_sockets_created aggregated;
    si_total_connections_reused := ag_total_connections_reused aggregated;
    si_dns_resolution_sum_us := ag_dns_resolution_sum_us aggregated;
    si_dns_resolution_count := ag_dns_resolution_count aggregated |}).

Definition execute_test (url : string) (strategy : ConcurrencyStrategy)
    (sys_sample_interval : Z) (graphql_operation_type soap_version : option string)
    (stomp_info : option StompRunInfo) (db_info : option DbRunInfo) (timeline_interval_ms : Z)
    (t : RunTrace) : result PyErr TestSummary :=
  let shared := foldl apply_effect Cells_new (rt_schedule t) in
  _ ← supervisor_failure strategy t;
  teardown url strategy sys_sample_interval graphql_operation_type soap_version stomp_info db_info
    timeline_interval_ms shared t.

(** A trace is a run of the program: the strategy spawned exactly these workers,
    every one of them ran to its end, and the schedule interleaves them. *)
Definition run_of (url : string) (strategy : ConcurrencyStrategy) (timeout_secs : Z) (t : RunTrace)
  : Prop :=
  exists ds effects,
    worker_durations strategy (rt_supervisor t) = Some ds /\ length (rt_scripts t) = length ds /\
    run_effects url strategy timeout_secs t = Some effects /\
    Forall (fun w => w.2 = true) effects /\ interleaves effects.*1 (rt_schedule t).
End execute.

Arguments RunTrace {_}.

(** ** What the workers did

    The specification the counters are compared with: the iterations a worker
    started, each with its outcome. *)

Inductive Outcome :=
  | Delivered (m : RequestMetric)     (** completed, its metric on the channel *)
  | Undelivered (m : RequestMetric)   (** completed, but the receiver was gone *)
  | Abandoned.                        (** started, cancelled or panicked in flight *)

Definition outcome_metric (o : Outcome) : option RequestMetric :=
  match o with Delivered m | Undelivered m => Some m | Abandoned => None end.
Definition delivered (o : Outcome) : option RequestMetric :=
  match o with Delivered m => Some m | _ => None end.
Definition is_abandoned (o : Outcome) : bool :=
  match o with Abandoned => true | _ => false end.

Definition effects_of (o : Outcome) : list Effect :=
  match o with
  | Delivered m => AddTotal :: account m ++ [SendMetric m]
  | Undelivered m => AddTotal :: account m
  | Abandoned => [AddTotal]
  end.

Section log.
Context `{ProtocolEngine}.

Fixpoint worker_log (url : string) (timeout_dur dur : duration)
  (ctx : option pe_session) (rounds : list WorkerRound) : list Outcome :=
  match rounds with
  | [] => []
  | r :: rest =>
      if (wr_elapsed r <? dur) && negb (wr_cancelled r) then
        match run_iteration url timeout_dur ctx (wr_end r) with
        | None => [Abandoned]
        | Some (metric, ctx) =>
            if wr_receiver_alive r
            then Delivered metric :: worker_log url timeout_dur dur ctx rest
            else [Undelivered metric]
        end
      else []
  end.

Definition script_log (url : string) (timeout_secs : Z) (dur : duration) (w : WorkerScript) :=
  worker_log url (iteration_timeout timeout_secs) dur (worker_context w) (wk_rounds w).

Definition run_log (url : string) (strategy : ConcurrencyStrategy) (timeout_secs : Z) (t : RunTrace)
  : list Outcome :=
  concat (zip_with (script_log url timeout_secs)
            (default [] (worker_durations strategy (rt_supervisor t))) (rt_scripts t)).

Lemma worker_loop_log url timeout_dur dur ctx rounds :
  (worker_loop url timeout_dur dur ctx rounds).1 =
  concat (effects_of <$> worker_log url timeout_dur dur ctx rounds).
Proof.
  revert ctx. induction rounds as [|r rounds IH]; intros ctx; [done|]. simpl.
  destruct (_ && _); [|done].
  destruct (run_iteration _ _ _ _) as [[metric ctx']|]; [|done].
  destruct (wr_receiver_alive r); [|csimpl; by rewrite app_nil_r].
  specialize (IH ctx'). destruct (worker_loop _ _ _ ctx' _) as [effects ended].
  csimpl in *. by rewrite IH, <- app_assoc.
Qed.

Lemma spawn_worker_log url dur timeout_secs w :
  (spawn_worker url dur timeout_secs w).2 = true ->
  (spawn_worker url dur timeout_secs w).1 =
  IncActive :: concat (effects_of <$> script_log url timeout_secs dur w) ++ [DecActive].
Proof.
  unfold spawn_worker, script_log. rewrite <- worker_loop_log.
  destruct (worker_loop _ _ _ _ _) as [effects []]; simpl; [done|discriminate].
Qed.
End log.

(** ** Sums of effects *)

Definition w_total (e : Effect) : Z := match e with AddTotal => 1 | _ => 0 end.
Definition w_errors (e : Effect) : Z := match e with AddErrors => 1 | _ => 0 end.
Definition w_active (e : Effect) : Z :=
  match e with IncActive => 1 | DecActive => -1 | _ => 0 end.
Definition w_completed (e : Effect) : Z := match e with AddCompleted => 1 | _ => 0 end.
Definition w_count (e : Effect) : Z := match e with AddLatencyCount => 1 | _ => 0 end.
Definition w_bytes (e : Effect) : Z := match e with AddBytes n => n | _ => 0 end.
Definition sent (e : Effect) : option RequestMetric :=
  match e with SendMetric m => Some m | _ => None end.

Definition weight (g : Effect -> Z) (l : list Effect) : Z := Zsum (g <$> l).

Lemma weight_app g l k : weight g (l ++ k) = weight g l + weight g k.
Proof. unfold weight. by rewrite fmap_app, Zsum_app. Qed.

Lemma weight_cons g e l : weight g (e :: l) = g e + weight g l.
Proof. done. Qed.

Lemma weight_concat g ls : weight g (concat ls) = Zsum (weight g <$> ls).
Proof. induction ls as [|l ls IH]; [done|]. csimpl. by rewrite weight_app, IH. Qed.

#[export] Instance weight_proper g : Proper ((≡ₚ) ==> (=)) (weight g).
Proof. intros l k E. unfold weight. by rewrite E. Qed.

(** A counter of the shared state after a schedule. *)
Lemma counter_total (t : LiveCounters -> Z) (g : Effect -> Z) l s :
  (forall e c, g e = 0 /\ t (count_effect e c) = t c \/ t (count_effect e c) = wrap64 (t c + g e)) ->
  in_u64 (t (sh_counters s)) ->
  t (sh_counters (foldl apply_effect s l)) = wrap64 (t (sh_counters s) + weight g l).
Proof.
  intros Ht. revert s. induction l as [|e l IH]; intros s Hs; simpl.
  { unfold weight; simpl. by rewrite Z.add_0_r, wrap64_small. }
  rewrite weight_cons. destruct (Ht e (sh_counters s)) as [[Hg He]|He];
    rewrite IH; simpl; rewrite He; try done.
  - f_equal. lia.
  - rewrite wrap64_add_l. f_equal. lia.
  - apply wrap64_range.
Qed.

Ltac counter t g := rewrite (counter_total t g); [reflexivity | intros [] ?; simpl; auto | done].

Lemma total_weight l : lc_total_requests (sh_counters (foldl apply_effect Cells_new l)) =
  wrap64 (weight w_total l).
Proof. counter lc_total_requests w_total. Qed.
Lemma errors_weight l : lc_errors (sh_counters (foldl apply_effect Cells_new l)) =
  wrap64 (weight w_errors l).
Proof. counter lc_errors w_errors. Qed.
Lemma completed_weight l : lc_completed_requests (sh_counters (foldl apply_effect Cells_new l)) =
  wrap64 (weight w_completed l).
Proof. counter lc_completed_requests w_completed. Qed.
Lemma latency_count_weight l : lc_latency_count (sh_counters (foldl apply_effect Cells_new l)) =
  wrap64 (weight w_count l).
Proof. counter lc_latency_count w_count. Qed.
Lemma bytes_weight l : lc_bytes_received (sh_counters (foldl apply_effect Cells_new l)) =
  wrap64 (weight w_bytes l).
Proof. counter lc_bytes_received w_bytes. Qed.
Lemma active_weight l : lc_active_workers (sh_counters (foldl apply_effect Cells_new l)) =
  wrap64 (weight w_active l).
Proof. counter lc_active_workers w_active. Qed.

Lemma channel_sent l s : sh_channel (foldl apply_effect s l) = sh_channel s ++ omap sent l.
Proof.
  revert s. induction l as [|e l IH]; intros s; csimpl; [by rewrite app_nil_r|].
  rewrite IH. destruct e; simpl; by rewrite <- ?app_assoc.
Qed.

(** ** Interleavings *)

Lemma interleaves_concat_nil {A} (ws : list (list A)) : Forall (fun w => w = []) ws -> concat ws = [].
Proof. induction 1; simpl; [done|]. by subst. Qed.

(** Whatever the interleaving, it is a permutation of what the workers do. *)
Lemma interleaves_perm {A} (ws : list (list A)) l : interleaves ws l -> l ≡ₚ concat ws.
Proof.
  induction 1 as [ws Hws | ws i e rest l Hi Hl IH].
  { by rewrite interleaves_concat_nil. }
  rewrite IH. clear IH Hl. rewrite <- (take_drop_middle _ _ _ Hi) at 2.
  rewrite insert_take_drop by (by apply lookup_lt_Some in Hi).
  rewrite !concat_app. simpl. by rewrite Permutation_middle.
Qed.

(** At any moment, what was executed is a prefix of each worker. *)
Lemma interleaves_prefix {A} (ws : list (list A)) l1 l2 :
  interleaves ws (l1 ++ l2) ->
  exists ps, Forall2 prefix ps ws /\ l1 ≡ₚ concat ps.
Proof.
  revert ws. induction l1 as [|e l1 IH]; intros ws Hl.
  { exists (replicate (length ws) []). split.
    - clear. induction ws; simpl; constructor; [apply prefix_nil|done].
    - clear. induction (length ws); simpl; done. }
  simpl in Hl. inversion Hl as [|ws' i e' rest l Hi Hrest]; subst.
  destruct (IH _ Hrest) as (ps & Hps & Hperm). clear IH Hl Hrest.
  assert (Hlen : length ps = length ws) by (apply Forall2_length in Hps; by rewrite length_insert in Hps).
  destruct (lookup_lt_is_Some_2 ps i) as [p Hp].
  { rewrite Hlen. by apply lookup_lt_Some in Hi. }
  exists (<[i := e :: p]> ps). split.
  - rewrite <- (list_insert_id ws i (e :: rest)) by done.
    rewrite <- (list_insert_insert_eq ws i (e :: rest) rest).
    apply Forall2_insert; [done|]. apply prefix_cons.
    eapply Forall2_lookup_lr; [exact Hps|exact Hp|]. rewrite list_lookup_insert_eq; [done|]. by apply lookup_lt_Some in Hi.
  - rewrite Hperm. rewrite <- (take_drop_middle _ _ _ Hp) at 1.
    rewrite insert_take_drop by (by apply lookup_lt_Some in Hp).
    rewrite !concat_app. simpl. by rewrite Permutation_middle.
Qed.

(** ** A run and its log *)

Definition worker_block (log : list Outcome) : list Effect :=
  IncActive :: concat (effects_of <$> log) ++ [DecActive].

Lemma weight_blocks g logs :
  g IncActive = 0 -> g DecActive = 0 ->
  weight g (concat (worker_block <$> logs)) =
  Zsum ((fun o => weight g (effects_of o)) <$> concat logs).
Proof.
  intros Hi Hd. induction logs as [|log logs IH]; [done|]. csimpl.
  rewrite weight_cons, !weight_app, IH, fmap_app, Zsum_app, weight_concat, <- list_fmap_compose.
  unfold weight at 2. csimpl. rewrite Hi, Hd. unfold compose. lia.
Qed.

Lemma sent_effects o : omap sent (effects_of o) = option_list (delivered o).
Proof.
  destruct o as [m|m|]; unfold effects_of, account; csimpl; rewrite ?omap_app; csimpl; try done;
    by destruct (is_error m).
Qed.

Lemma sent_log log : omap sent (concat (effects_of <$> log)) = omap delivered log.
Proof.
  induction log as [|o log IH]; [done|]. csimpl. rewrite omap_app, sent_effects, IH.
  by destruct (delivered o).
Qed.

Lemma sent_blocks logs :
  omap sent (concat (worker_block <$> logs)) = omap delivered (concat logs).
Proof.
  induction logs as [|log logs IH]; [done|]. csimpl.
  rewrite !omap_app, IH, sent_log. csimpl. by rewrite app_nil_r.
Qed.

Section run_facts.
Context `{ProtocolEngine}.
Context (url : string) (strategy : ConcurrencyStrategy) (timeout_secs : Z) (t : RunTrace).

Definition run_logs : list (list Outcome) :=
  zip_with (script_log url timeout_secs)
    (default [] (worker_durations strategy (rt_supervisor t))) (rt_scripts t).

Lemma spawned_blocks ds ws :
  Forall (fun w => w.2 = true) (zip_with (fun dur w => spawn_worker url dur timeout_secs w) ds ws) ->
  (zip_with (fun dur w => spawn_worker url dur timeout_secs w) ds ws).*1 =
  worker_block <$> zip_with (script_log url timeout_secs) ds ws.
Proof.
  revert ws. induction ds as [|d ds IH]; intros [|w ws]; csimpl; try done.
  intros [Hw Hws]%Forall_cons. by rewrite IH, spawn_worker_log.
Qed.

Lemma run_interleaves :
  run_of url strategy timeout_secs t ->
  interleaves (worker_block <$> run_logs) (rt_schedule t).
Proof.
  intros (ds & effects & Hds & _ & He & Hall & Hi). unfold run_logs. rewrite Hds. simpl.
  unfold run_effects in He. rewrite Hds in He. simplify_eq/=.
  by rewrite <- spawned_blocks.
Qed.

Lemma run_weight g :
  g IncActive = 0 -> g DecActive = 0 -> run_of url strategy timeout_secs t ->
  weight g (rt_schedule t) =
  Zsum ((fun o => weight g (effects_of o)) <$> run_log url strategy timeout_secs t).
Proof.
  intros Hi Hd Hr%run_interleaves%interleaves_perm. rewrite Hr. by apply weight_blocks.
Qed.

Lemma run_channel :
  run_of url strategy timeout_secs t ->
  sh_channel (foldl apply_effect Cells_new (rt_schedule t)) ≡ₚ
  omap delivered (run_log url strategy timeout_secs t).
Proof.
  intros Hr%run_interleaves%interleaves_perm. rewrite channel_sent. simpl.
  rewrite Hr. unfold run_log. fold run_logs. by rewrite sent_blocks.
Qed.
End run_facts.

(** The counter contributions of one iteration. *)
Definition errored (o : Outcome) : bool :=
  match outcome_metric o with Some m => is_error m | None => false end.
Definition completed (o : Outcome) : bool := is_some (outcome_metric o).

Lemma total_of o : weight w_total (effects_of o) = 1.
Proof. destruct o as [m|m|]; unfold effects_of, account; simpl; try destruct (is_error m); reflexivity. Qed.
Lemma errors_of o : weight w_errors (effects_of o) = if errored o then 1 else 0.
Proof.
  destruct o as [m|m|]; unfold effects_of, account, errored; simpl; try destruct (is_error m); reflexivity.
Qed.
Lemma completed_of o : weight w_completed (effects_of o) = if completed o then 1 else 0.
Proof. destruct o as [m|m|]; unfold effects_of, account; simpl; try destruct (is_error m); reflexivity. Qed.

Lemma Zsum_ones {A} (l : list A) : Zsum ((fun _ => 1) <$> l) = Z.of_nat (length l).
Proof. rewrite Zsum_const. lia. Qed.

Lemma fmap_received `{ProtocolEngine} {A} (f : RequestMetric -> A) (t : RunTrace) ch :
  (fun x => f x.1) <$> received t ch = f <$> ch.
Proof.
  unfold received. rewrite fmap_imap. apply list_eq. intros i.
  rewrite list_lookup_imap, list_lookup_fmap. by destruct (ch !! i).
Qed.

(** The summary fields a successful run fills from its counters and channel. *)
Lemma execute_test_fields `{Histogram, ProtocolEngine}
    url strategy sys gql soap stomp db iv (t : RunTrace) summary :
  execute_test url strategy sys gql soap stomp db iv t = Ok summary ->
  let shared := foldl apply_effect Cells_new (rt_schedule t) in
  let agg := foldl record_step AggregatedMetrics_default (received t (sh_channel shared)) in
  su_total_requests summary = lc_total_requests (sh_counters shared) /\
  su_total_errors summary = lc_errors (sh_counters shared) /\
  su_status_codes summary = ag_status_codes agg /\
  su_total_bytes_received summary = ag_total_bytes agg /\
  su_latency_histogram summary =
    (if hist_is_empty (ag_latency_histogram agg) then ∅
     else calculate_histogram_from_hdr (ag_latency_histogram agg)).
Proof.
  intros Hok shared agg. revert Hok. unfold execute_test, teardown.
  destruct (supervisor_failure strategy t) as [[]|]; [|done].
  destruct (rt_interrupted t); [done|].
  destruct (rt_aggregator_join t) as [[]|]; [|done].
  cbn [map_err mbind result_bind]. fold shared.
  set (fm := finalize_metrics _ _ _ _ _ _).
  assert (Hh : ag_latency_histogram fm = ag_latency_histogram agg)
    by (by apply (metrics_of_finalize _ _ _ _ _ _ ag_latency_histogram)).
  assert (Hc : ag_status_codes fm = ag_status_codes agg)
    by (by apply (metrics_of_finalize _ _ _ _ _ _ ag_status_codes)).
  assert (Hb : ag_total_bytes fm = ag_total_bytes agg)
    by (by apply (metrics_of_finalize _ _ _ _ _ _ ag_total_bytes)).
  clearbody fm agg shared. intros [= <-]. simpl. rewrite <- Hh, <- Hc, <- Hb. done.
Qed.

Lemma count_if_received `{ProtocolEngine} (p : RequestMetric -> bool) (t : RunTrace) ch :
  count_if (fun x => p x.1) (received t ch) = count_if p ch.
Proof. unfold count_if. by rewrite (fmap_received (fun m => if p m then 1 else 0)). Qed.

#[export] Instance count_if_proper {A} (p : A -> bool) : Proper ((≡ₚ) ==> (=)) (count_if p).
Proof. intros l k E. unfold count_if. by rewrite E. Qed.

(** The display buckets hold every received latency. *)
Lemma latency_bucket_total `{HistogramLaws} (vs : list Z) :
  Z.of_nat (length vs) <= U64_MAX ->
  map_total id (if hist_is_empty (hist_of vs) then ∅ else calculate_histogram_from_hdr (hist_of vs)) =
  Z.of_nat (length vs).
Proof.
  intros Hvs. rewrite hist_is_empty_of. case_bool_decide as Hd; [subst; by rewrite map_total_empty|].
  rewrite calculate_histogram_total, hist_counts_of by done. apply wrap64_small. unfold in_u64. lia.
Qed.

Lemma log_split log :
  Z.of_nat (length log) = count_if completed log + count_if is_abandoned log /\
  Z.of_nat (length (omap delivered log)) <= count_if completed log.
Proof.
  induction log as [|o log IH]; [done|]. rewrite !count_if_cons.
  destruct o; csimpl; lia.
Qed.

(** ** Properties *)

(** C2. Conservation in one process: for every strategy, every behaviour of the
    engine, clocks, cancellations and timeouts, and every interleaving of the
    workers, a successful run reports one request per iteration started, one
    error per completed iteration whose metric is an error, and its status codes,
    latency buckets and byte total account for exactly the metrics delivered. *)
Theorem local_run_conservation `{HistogramLaws, ProtocolEngine}
    url strategy timeout_secs sys gql soap stomp db iv (t : RunTrace) summary :
  run_of url strategy timeout_secs t ->
  execute_test url strategy sys gql soap stomp db iv t = Ok summary ->
  let log := run_log url strategy timeout_secs t in
  let reported := omap delivered log in
  Z.of_nat (length log) <= U64_MAX ->
  su_total_requests summary = Z.of_nat (length log) /\
  su_total_errors summary = count_if errored log /\
  Z.of_nat (length log) = count_if completed log + count_if is_abandoned log /\
  (forall code, default 0 (su_status_codes summary !! code) =
     count_if (fun m => status_code m =? code) reported) /\
  map_total id (su_latency_histogram summary) = Z.of_nat (length reported) /\
  su_total_bytes_received summary = wrap64 (Zsum (rm_bytes_received <$> reported)).
Proof.
  intros Hrun Hok log reported Hlog.
  destruct (execute_test_fields _ _ _ _ _ _ _ _ _ _ Hok) as (-> & -> & -> & -> & ->).
  pose proof (run_channel _ _ _ _ Hrun) as Hch. fold log reported in Hch.
  destruct (log_split log) as [Hsplit Hrep]. fold reported in Hrep.
  pose proof (count_if_bounds is_abandoned log).
  rewrite total_weight, errors_weight, !(run_weight url strategy timeout_secs) by done.
  fold log. setoid_rewrite total_of. setoid_rewrite errors_of. rewrite Zsum_ones.
  fold (count_if errored log). pose proof (count_if_bounds errored log).
  rewrite !wrap64_small by (unfold in_u64; lia).
  split_and!; try done.
  - intros code. rewrite status_code_fold, (count_if_received (fun m => status_code m =? code)), Hch, wrap64_small; [done|].
    pose proof (count_if_bounds (fun m => status_code m =? code) reported). unfold in_u64; lia.
  - rewrite (latency_histogram_fold _ AggregatedMetrics_default : _ = hist_of _),
      (fmap_received latency_of).
    rewrite latency_bucket_total; rewrite length_fmap, Hch; [done|lia].
  - rewrite (record_step_total ag_total_bytes rm_bytes_received) by done.
    by rewrite (fmap_received rm_bytes_received), Hch.
Qed.

(** *** The counters while the run is in progress

    Every counter is accessed with [Ordering::Relaxed], which orders the accesses
    to one counter and nothing across two of them.  So each counter has a
    modification order of its own: any interleaving of what the workers do to that
    counter.  A load returns the value after some prefix of that order, and later
    loads of the same task see longer prefixes. *)

Inductive Counter := C_Total | C_Errors | C_Active | C_Completed | C_LatencySum | C_LatencyCount | C_Bytes.

#[export] Instance Counter_eq_dec : EqDecision Counter.
Proof. solve_decision. Defined.

(** The counter an effect modifies. *)
Definition counter_of (e : Effect) : option Counter :=
  match e with
  | AddTotal => Some C_Total
  | AddErrors => Some C_Errors
  | IncActive | DecActive => Some C_Active
  | AddCompleted => Some C_Completed
  | AddLatencySum _ => Some C_LatencySum
  | AddLatencyCount => Some C_LatencyCount
  | AddBytes _ => Some C_Bytes
  | SendMetric _ => None
  end.

Definition counter_value (x : Counter) (c : LiveCounters) : Z :=
  match x with
  | C_Total => lc_total_requests c
  | C_Errors => lc_errors c
  | C_Active => lc_active_workers c
  | C_Completed => lc_completed_requests c
  | C_LatencySum => lc_latency_sum_micros c
  | C_LatencyCount => lc_latency_count c
  | C_Bytes => lc_bytes_received c
  end.

(** What a task does to the counter [x], in program order. *)
Definition touching (x : Counter) (l : list Effect) : list Effect := filter (fun e => counter_of e = Some x) l.

(** [mo x] is a modification order of each counter [x]. *)
Definition coherent (tasks : list (list Effect)) (mo : Counter -> list Effect) : Prop :=
  forall x, interleaves (touching x <$> tasks) (mo x).

(** A load of [x] that sees the first [i] modifications. *)
Definition load (mo : Counter -> list Effect) (x : Counter) (i : nat) : Z :=
  counter_value x (foldl (fun c e => count_effect e c) LiveCounters_new (take i (mo x))).

(** What an effect adds to [x]. *)
Definition adds (x : Counter) (e : Effect) : Z :=
  match x, e with
  | C_Total, AddTotal | C_Errors, AddErrors | C_Active, IncActive | C_Completed, AddCompleted
  | C_LatencyCount, AddLatencyCount => 1
  | C_Active, DecActive => -1
  | C_LatencySum, AddLatencySum n | C_Bytes, AddBytes n => n
  | _, _ => 0
  end.

Lemma count_value x l s :
  in_u64 (counter_value x (sh_counters s)) ->
  counter_value x (sh_counters (foldl apply_effect s l)) = wrap64 (counter_value x (sh_counters s) + weight (adds x) l).
Proof. apply counter_total. intros e c. by destruct x, e; simpl; auto. Qed.

Lemma foldl_counters l s :
  sh_counters (foldl apply_effect s l) = foldl (fun c e => count_effect e c) (sh_counters s) l.
Proof. revert s. induction l as [|e l IH]; intros s; simpl; [done|]. by rewrite IH. Qed.

Lemma load_value mo x i : load mo x i = wrap64 (weight (adds x) (take i (mo x))).
Proof.
  unfold load. pose proof (count_value x (take i (mo x)) Cells_new) as Hc.
  rewrite foldl_counters in Hc. simpl in Hc. rewrite Hc by (destruct x; split; vm_compute; congruence).
  f_equal. by destruct x.
Qed.

Lemma weight_touching x l : weight (adds x) (touching x l) = weight (adds x) l.
Proof.
  induction l as [|e l IH]; [done|]. unfold touching in *. rewrite filter_cons, weight_cons.
  case_decide as He; [by rewrite weight_cons, IH|]. rewrite IH. by destruct x, e.
Qed.

(** The whole modification order adds what the tasks add. *)
Lemma weight_mo tasks mo x : coherent tasks mo -> weight (adds x) (mo x) = weight (adds x) (concat tasks).
Proof.
  intros Hm. rewrite (interleaves_perm _ _ (Hm x)), !weight_concat, <- list_fmap_compose.
  f_equal. apply list_fmap_ext. intros i l _. apply weight_touching.
Qed.

Lemma weight_nonneg g l : (forall e, 0 <= g e) -> 0 <= weight g l.
Proof. intros Hg. apply Zsum_nonneg, Forall_fmap, Forall_true, Hg. Qed.

(** A counter that only grows. *)
Definition monotone (x : Counter) : Prop := x <> C_Active /\ x <> C_LatencySum /\ x <> C_Bytes.

Lemma monotone_adds x e : monotone x -> 0 <= adds x e.
Proof. intros (? & ? & ?). by destruct x, e. Qed.

Lemma take_weight x l i j :
  monotone x -> (i <= j)%nat -> 0 <= weight (adds x) (take i l) <= weight (adds x) (take j l) /\
    weight (adds x) (take j l) <= weight (adds x) l.
Proof.
  intros Hx Hij. pose proof (fun l => weight_nonneg (adds x) l (fun e => monotone_adds x e Hx)) as Hn.
  split; [split; [done|]|].
  - rewrite <- (take_drop i (take j l)), weight_app, take_take, Nat.min_l by done.
    specialize (Hn (drop i (take j l))). lia.
  - rewrite <- (take_drop j l) at 2. rewrite weight_app. specialize (Hn (drop j l)). lia.
Qed.

(** The order of one interleaving of everything is coherent. *)
Lemma interleaves_touching x tasks l : interleaves tasks l -> interleaves (touching x <$> tasks) (touching x l).
Proof.
  induction 1 as [ws Hws|ws k e rest l Hk Hl IH].
  { constructor. apply Forall_fmap. eapply Forall_impl; [exact Hws|]. by intros w ->. }
  unfold touching in *. rewrite filter_cons. case_decide as He.
  - apply (inter_step _ k e (filter (fun e => counter_of e = Some x) rest)).
    + rewrite list_lookup_fmap, Hk. simpl. by rewrite filter_cons, decide_True.
    + by rewrite <- list_fmap_insert.
  - rewrite list_fmap_insert, list_insert_id in IH; [done|].
    rewrite list_lookup_fmap, Hk. simpl. by rewrite filter_cons, decide_False.
Qed.

(** A worker registers, and unregisters at its end. *)
Lemma touching_active log : touching C_Active (worker_block log) = [IncActive; DecActive].
Proof.
  assert (Hl : touching C_Active (concat (effects_of <$> log)) = []).
  { induction log as [|o log IH]; [done|]. csimpl. unfold touching in *. rewrite filter_app, IH, app_nil_r.
    destruct o as [m|m|]; unfold effects_of, account; simpl; try destruct (is_error m); reflexivity. }
  unfold worker_block, touching in *. rewrite filter_cons, filter_app, Hl. done.
Qed.

Lemma active_bounds logs mo i :
  interleaves (touching C_Active <$> (worker_block <$> logs)) mo ->
  0 <= weight (adds C_Active) (take i mo) <= Z.of_nat (length logs).
Proof.
  intros Hi. rewrite <- (take_drop i mo) in Hi. destruct (interleaves_prefix _ _ _ Hi) as (ps & Hps & ->).
  rewrite weight_concat. assert (Hb : Forall (fun x => 0 <= x <= 1) (weight (adds C_Active) <$> ps)).
  { apply Forall_fmap. eapply Forall2_Forall_l; [exact Hps|]. apply Forall_fmap, Forall_fmap, Forall_true.
    intros log p. simpl. rewrite touching_active. intros Hp.
    destruct p as [|a [|b [|c p]]]; [by vm_compute|..];
      apply prefix_cons_inv_1 in Hp as Ha; apply prefix_cons_inv_2 in Hp; subst a; [by vm_compute|..];
      apply prefix_cons_inv_1 in Hp as Hb; apply prefix_cons_inv_2 in Hp; subst b; [by vm_compute|].
    by apply prefix_nil_not in Hp. }
  apply Zsum_bounds in Hb. apply Forall2_length in Hps. rewrite !length_fmap in Hps.
  rewrite length_fmap in Hb. lia.
Qed.

(** Every worker that registered has unregistered. *)
Lemma active_total logs : weight (adds C_Active) (concat (worker_block <$> logs)) = 0.
Proof.
  induction logs as [|log logs IH]; [done|]. rewrite fmap_cons. cbn [concat].
  by rewrite weight_app, IH, <- weight_touching, touching_active.
Qed.

Lemma log_adds x o :
  weight (adds x) (effects_of o) =
  match x with
  | C_Total => 1
  | C_Errors => if errored o then 1 else 0
  | C_Completed | C_LatencyCount => if completed o then 1 else 0
  | C_Active => 0
  | _ => weight (adds x) (effects_of o)
  end.
Proof.
  destruct o as [m|m|], x; unfold effects_of, account, errored; simpl; try destruct (is_error m); reflexivity.
Qed.

Lemma block_adds x logs :
  x <> C_Active ->
  weight (adds x) (concat (worker_block <$> logs)) = Zsum ((fun o => weight (adds x) (effects_of o)) <$> concat logs).
Proof. intros Hx. apply weight_blocks; by destruct x. Qed.

(** C21. The live display, with relaxed loads: whatever the modification order of each
    counter, and however far each load has come in it, independently of all
    others, successive loads of the totals of started, completed and failed
    iterations and of the latency count never decrease and never exceed the number
    of iterations of the run that the counter counts; the number of active workers
    is between zero and the number spawned (the guard never underflows it).  Once
    all modifications are seen, as after joining the workers, the counters are
    exactly these numbers of iterations and no worker is active, and every counter
    has the one value that [execute_test] reports from.  Nothing is claimed across
    two counters: relaxed loads may show an error before its request. *)
Theorem live_counters_coherent `{ProtocolEngine}
    url strategy timeout_secs (t : RunTrace) (mo : Counter -> list Effect) (i j : nat) :
  run_of url strategy timeout_secs t ->
  coherent (default [] (run_effects url strategy timeout_secs t)).*1 mo ->
  (i <= j)%nat ->
  let log := run_log url strategy timeout_secs t in
  Z.of_nat (length log) <= U64_MAX -> Z.of_nat (length (rt_scripts t)) <= U64_MAX ->
  (0 <= load mo C_Total i <= load mo C_Total j /\ load mo C_Total j <= Z.of_nat (length log)) /\
  (0 <= load mo C_Errors i <= load mo C_Errors j /\ load mo C_Errors j <= count_if errored log) /\
  (0 <= load mo C_Completed i <= load mo C_Completed j /\ load mo C_Completed j <= count_if completed log) /\
  (0 <= load mo C_LatencyCount i <= load mo C_LatencyCount j /\
   load mo C_LatencyCount j <= count_if completed log) /\
  0 <= load mo C_Active i <= Z.of_nat (length (rt_scripts t)) /\
  let final x := load mo x (length (mo x)) in
  final C_Total = Z.of_nat (length log) /\ final C_Errors = count_if errored log /\
  final C_Completed = count_if completed log /\ final C_LatencyCount = count_if completed log /\
  final C_Active = 0 /\
  (forall x, final x =
     counter_value x (sh_counters (foldl apply_effect Cells_new (rt_schedule t)))).
Proof.
  intros Hrun Hmo Hij log Hlog Hn. pose proof (run_interleaves _ _ _ _ Hrun) as Hi.
  assert (Heff : (default [] (run_effects url strategy timeout_secs t)).*1 =
                 worker_block <$> run_logs url strategy timeout_secs t).
  { destruct Hrun as (ds & effects & Hds & _ & He & Hall & _). rewrite He. simpl. unfold run_logs. rewrite Hds.
    unfold run_effects in He. rewrite Hds in He. simplify_eq/=. by apply spawned_blocks. }
  rewrite Heff in Hmo.
  assert (Hlen : (length (run_logs url strategy timeout_secs t) <= length (rt_scripts t))%nat)
    by (unfold run_logs; rewrite length_zip_with; lia).
  assert (Hidle : weight (adds C_Active) (mo C_Active) = 0)
    by (rewrite (weight_mo _ _ _ Hmo); apply active_total).
  assert (Hsum : forall x, x <> C_Active -> weight (adds x) (mo x) =
                 Zsum ((fun o => weight (adds x) (effects_of o)) <$> log)).
  { intros x Hx. rewrite (weight_mo _ _ _ Hmo). by apply block_adds. }
  assert (Hgrow : forall x n, monotone x -> weight (adds x) (mo x) = n -> n <= U64_MAX ->
    0 <= load mo x i <= load mo x j /\ load mo x j <= n).
  { intros x n Hx Hw Hb. destruct (take_weight x (mo x) i j Hx Hij) as [H1 H2].
    rewrite !load_value, !wrap64_small by (unfold in_u64; lia). lia. }
  pose proof (count_if_bounds errored log). pose proof (count_if_bounds completed log).
  assert (Htot : Zsum ((fun _ => 1) <$> log) = Z.of_nat (length log)) by apply Zsum_ones.
  pose proof (active_bounds _ _ i (Hmo C_Active)) as Hact.
  assert (Hend : forall x n, weight (adds x) (mo x) = n -> 0 <= n <= U64_MAX -> load mo x (length (mo x)) = n).
  { intros x n Hw Hb. by rewrite load_value, firstn_all, wrap64_small by (unfold in_u64; lia). }
  split; [|split; [|split; [|split; [|split; [|split; [|split; [|split; [|split; [|split]]]]]]]]].
  1-4: (apply Hgrow; [by split_and!|rewrite Hsum by done; setoid_rewrite log_adds; done|lia]).
  - rewrite load_value, wrap64_small by (unfold in_u64; lia). lia.
  - apply Hend; [rewrite Hsum by done; setoid_rewrite log_adds; done|lia].
  - apply Hend; [rewrite Hsum by done; setoid_rewrite log_adds; done|lia].
  - apply Hend; [rewrite Hsum by done; setoid_rewrite log_adds; done|lia].
  - apply Hend; [rewrite Hsum by done; setoid_rewrite log_adds; done|lia].
  - by apply Hend.
  - intros x. rewrite load_value, firstn_all, (weight_mo _ _ _ Hmo), count_value
      by (destruct x; split; vm_compute; congruence).
    rewrite (interleaves_perm _ _ Hi). f_equal. by destruct x.
Qed.

(** What the report calls successful: when every completed metric was delivered,
    [successful_requests] of the artifact counts, besides the delivered metrics
    that are not errors, every iteration abandoned in flight by a cancellation
    (a scale-down, the end of a load profile) or a panic, although no response
    was ever seen for it. *)
Theorem abandoned_reported_successful `{Histogram, ProtocolEngine, MapOrder}
    url strategy timeout_secs sys gql soap stomp db iv (t : RunTrace) summary config info :
  run_of url strategy timeout_secs t ->
  execute_test url strategy sys gql soap stomp db iv t = Ok summary ->
  let log := run_log url strategy timeout_secs t in
  Z.of_nat (length log) <= U64_MAX ->
  (forall m, Undelivered m ∉ log) ->
  ar_successful_requests (ra_summary (from_summary_and_config summary config info)) =
    count_if (fun m => negb (is_error m)) (omap delivered log) + count_if is_abandoned log.
Proof.
  intros Hrun Hok log Hlog Hdel. simpl.
  destruct (execute_test_fields _ _ _ _ _ _ _ _ _ _ Hok) as (-> & -> & _).
  rewrite total_weight, errors_weight, !(run_weight url strategy timeout_secs) by done.
  fold log. setoid_rewrite total_of. setoid_rewrite errors_of. rewrite Zsum_ones.
  fold (count_if errored log). pose proof (count_if_bounds errored log).
  rewrite !wrap64_small by (unfold in_u64; lia). unfold u_saturating_sub.
  assert (E : Z.of_nat (length log) = count_if errored log +
    (count_if (fun m => negb (is_error m)) (omap delivered log) + count_if is_abandoned log)); [|lia].
  clear -Hdel. clearbody log. induction log as [|o log IH]; [done|].
  rewrite !count_if_cons. assert (Hd : forall m, Undelivered m ∉ log) by set_solver.
  specialize (IH Hd). destruct o as [m|m|]; csimpl.
  - rewrite count_if_cons. change (errored (Delivered m)) with (is_error m). destruct (is_error m); simpl; lia.
  - exfalso. apply (Hdel m). set_solver.
  - change (errored Abandoned) with false. lia.
Qed.

(** ** A small run, for the witnesses *)

(** An engine whose iterations read their status from the network and count
    the calls of their session. *)
Definition echo_engine : ProtocolEngine := {|
  pe_session := Z;
  pe_io := Z;
  execute_iteration := fun _ status => Returned (b_bytes 10 (b_status status (builder 2000 None)));
  create_worker_context := fun status => if status =? 0 then None else Some 0;
  iteration_with_context := fun _ status n =>
    (Returned (b_bytes n (b_status status (builder 3000 None))), n + 1);
|}.

Section demo.
#[local] Existing Instance echo_engine.

Definition demo_round (ms : Z) (e : IterationEnd) : WorkerRound :=
  mkWorkerRound (from_millis ms) false e true.

(** Two workers for one second: the first completes a success and stops at the
    deadline; the second completes an error and is cancelled in flight. *)
Definition demo_first : WorkerScript :=
  mkWorkerScript None [demo_round 0 (IterRun (200 : pe_io)); demo_round 1000 (IterRun (200 : pe_io))].
Definition demo_second : WorkerScript :=
  mkWorkerScript (Some (1 : pe_io)) [demo_round 1 (IterRun (503 : pe_io)); demo_round 2 IterCancelled].

Definition demo_strategy : ConcurrencyStrategy := CS_Constant 2 1.

Definition demo_effects (w : WorkerScript) : list Effect :=
  (spawn_worker "http://x" (from_secs 1) 5 w).1.

(** The workers take turns, one effect each. *)
Fixpoint take_turns {A} (a b : list A) : list A :=
  match a, b with
  | x :: a, y :: b => x :: y :: take_turns a b
  | [], b => b
  | a, [] => a
  end.

Definition demo_trace : RunTrace := {|
  rt_supervisor := [];
  rt_scripts := [demo_first; demo_second];
  rt_schedule := take_turns (demo_effects demo_first) (demo_effects demo_second);
  rt_supervisor_join := Ok ();
  rt_interrupted := false;
  rt_clock := fun _ => mkEmitClock 0 0 0 0;
  rt_t0 := 0; rt_t1 := 0; rt_t_run := 0; rt_t_last := 0;
  rt_aggregator_join := Ok ();
  rt_sampler_spawned := false;
  rt_samples := [];
  rt_elapsed := from_millis 1003;
|}.

Lemma take_turns_interleaves {A} (a b : list A) : interleaves [a; b] (take_turns a b).
Proof.
  assert (Hb : forall b : list A, interleaves [[]; b] b).
  { intros l. induction l as [|y l IH]; [constructor; by repeat constructor|].
    by apply (inter_step _ 1 y l). }
  assert (Ha : forall a : list A, interleaves [a; []] a).
  { intros l. induction l as [|x l IH]; [constructor; by repeat constructor|].
    by apply (inter_step _ 0 x l). }
  revert b. induction a as [|x a IH]; intros [|y b]; simpl; auto.
  apply (inter_step _ 0 x a); [done|]. apply (inter_step _ 1 y b); [done|]. apply IH.
Qed.

Lemma demo_interleaves :
  interleaves (default [] (run_effects "http://x" demo_strategy 5 demo_trace)).*1 (rt_schedule demo_trace).
Proof. apply (take_turns_interleaves (demo_effects demo_first) (demo_effects demo_second)). Qed.

Lemma demo_run : run_of "http://x" demo_strategy 5 demo_trace.
Proof.
  eexists _, _. split; [reflexivity|]. split; [reflexivity|]. split; [reflexivity|].
  split; [repeat constructor|]. exact demo_interleaves.
Qed.

Definition demo_summary : result PyErr TestSummary :=
  execute_test "http://x" demo_strategy 0 None None None None 0 demo_trace.

Lemma local_run_conservation_witness :
  exists summary, demo_summary = Ok summary /\
    su_total_requests summary = 3 /\ su_total_errors summary = 1 /\
    default 0 (su_status_codes summary !! 503) = 1.
Proof.
  eexists. split; [reflexivity|].
  destruct (local_run_conservation "http://x" demo_strategy 5 0 None None None None 0 demo_trace _
    demo_run eq_refl) as (H1 & H2 & _ & H3 & _).
  - vm_compute. congruence.
  - rewrite H1, H2, (H3 503). vm_compute. done.
Defined.

(** The modification orders of one interleaving, and a load that lags behind. *)
Lemma live_counters_coherent_witness :
  let mo x := touching x (rt_schedule demo_trace) in
  load mo C_Active 2 = 2 /\ load mo C_Completed 1 <= load mo C_Completed 2.
Proof.
  intros mo. split; [reflexivity|].
  apply (live_counters_coherent "http://x" demo_strategy 5 demo_trace mo 1 2 demo_run).
  - intros x. apply interleaves_touching, demo_interleaves.
  - lia.
  - vm_compute. congruence.
  - vm_compute. congruence.
Defined.

(** One of the two requests reported as successful was never answered. *)
Lemma abandoned_reported_successful_witness :
  exists summary, demo_summary = Ok summary /\
    ar_successful_requests (ra_summary (from_summary_and_config summary
      (build (TestConfigBuilder_new "http://x")) (mkSystemInfo "h" "linux" "1"))) = 2.
Proof.
  eexists. split; [reflexivity|].
  rewrite (abandoned_reported_successful "http://x" demo_strategy 5 0 None None None None 0 demo_trace _
    _ _ demo_run eq_refl).
  - reflexivity.
  - vm_compute. congruence.
  - intros m Hm.
    assert (HF : Forall (fun o => match o with Undelivered _ => False | _ => True end)
              (run_log "http://x" demo_strategy 5 demo_trace)) by (vm_compute; repeat constructor).
    rewrite Forall_forall in HF. exact (HF _ Hm).
Defined.
End demo.
