(* ===== verification/StompCodec.v ===== *)
(** STOMP 1.2 frame codec ([src/protocols/stomp_codec.rs]): frames, header
    escaping, serialisation and the incremental decoder.

    Strings are their UTF-8 bytes; the escape loop of [decode_header] goes
    character by character, which on bytes is the same because every character
    it looks at is ASCII.  Offsets into the buffer are naturals; the sum of the
    cursor and a [content-length] wraps at 64 bits, and the slice panic this can
    cause is the outcome [Panic]. *)

From S2P Require Import Prelude RustStr Float.

#[local] Open Scope Z_scope.

Definition NULL : ascii := ch 0.
Definition COLON : ascii := ch 58.
Definition BACKSLASH : ascii := ch 92.

Inductive CodecError := Utf8 | MissingHeaderValue | TrailingEscape | InvalidEscape | MissingNull.

#[export] Instance CodecError_eq_dec : EqDecision CodecError.
Proof. solve_decision. Defined.

Definition CodecError_to_string (e : CodecError) : string :=
  match e with
  | Utf8 => "frame contained invalid UTF-8"
  | MissingHeaderValue => "header line is missing ':' separator"
  | TrailingEscape => "header value ends with a dangling escape"
  | InvalidEscape => "header value contains an unknown escape"
  | MissingNull => "content-length body is not NULL-terminated"
  end%string.

(** ** Frames *)

Record Frame := mkFrame {
  command : string;
  headers : list (string * string);
  body : bytes;
}.

Definition Frame_new (command : string) : Frame := mkFrame command [] [].

(** Replace the value of the first header of that name, or append. *)
Fixpoint set_header_list (name value : string) (hs : list (string * string)) : list (string * string) :=
  match hs with
  | [] => [(name, value)]
  | (k, v) :: hs =>
      if eq_ignore_ascii_case k name then (k, value) :: hs
      else (k, v) :: set_header_list name value hs
  end.

Definition set_header (name value : string) (f : Frame) : Frame :=
  mkFrame (command f) (set_header_list name value (headers f)) (body f).

Definition with_header (name value : string) (f : Frame) : Frame := set_header name value f.

Definition with_body (b : bytes) (f : Frame) : Frame := mkFrame (command f) (headers f) b.

Definition find_header (name : string) (hs : list (string * string)) : option string :=
  (fun p => p.2.2) <$> list_find (fun kv => eq_ignore_ascii_case kv.1 name = true) hs.

Definition header (name : string) (f : Frame) : option string := find_header name (headers f).

Definition headers_content_length (hs : list (string * string)) : option Z :=
  v ← find_header "content-length" hs; parse_usize (trim v).

Definition content_length (f : Frame) : option Z := headers_content_length (headers f).

(** ** Escaping *)

Definition escape_byte (b : ascii) : bytes :=
  if Ascii.eqb b LF then [BACKSLASH; "n"%char]
  else if Ascii.eqb b CR then [BACKSLASH; "r"%char]
  else if Ascii.eqb b COLON then [BACKSLASH; "c"%char]
  else if Ascii.eqb b BACKSLASH then [BACKSLASH; BACKSLASH]
  else [b].

(** The bytes [encode_header] appends. *)
Definition encode_header (value : string) : bytes := as_bytes value ≫= escape_byte.

Fixpoint unescape (s : bytes) : result CodecError bytes :=
  match s with
  | [] => Ok []
  | c :: s =>
      if negb (Ascii.eqb c BACKSLASH) then out ← unescape s; Ok (c :: out)
      else match s with
           | [] => Err TrailingEscape
           | e :: s =>
               if Ascii.eqb e "n"%char then out ← unescape s; Ok (LF :: out)
               else if Ascii.eqb e "r"%char then out ← unescape s; Ok (CR :: out)
               else if Ascii.eqb e "c"%char then out ← unescape s; Ok (COLON :: out)
               else if Ascii.eqb e BACKSLASH then out ← unescape s; Ok (BACKSLASH :: out)
               else Err InvalidEscape
           end
  end.

Definition decode_header (b : bytes) : result CodecError string :=
  if utf8_valid b then of_bytes <$> unescape b else Err Utf8.

Definition encode_line (kv : string * string) : bytes :=
  encode_header kv.1 ++ [COLON] ++ encode_header kv.2 ++ [LF].

Definition encode (f : Frame) : bytes :=
  as_bytes (command f) ++ [LF] ++ (headers f ≫= encode_line) ++ [LF] ++ body f ++ [NULL].

(** ** The decoder *)

Record Decoder := mkDecoder { buf : bytes; pos : nat }.

Definition Decoder_new : Decoder := mkDecoder [] 0.

Definition push (data : bytes) (d : Decoder) : Decoder := mkDecoder (buf d ++ data) (pos d).

Definition pending (d : Decoder) : Z := Z.of_nat (length (buf d)) - Z.of_nat (pos d).

(** The unconsumed bytes. *)
Definition rest (d : Decoder) : bytes := drop (pos d) (buf d).

Definition compact (d : Decoder) : Decoder :=
  if (Nat.ltb 0 (pos d)) && (Nat.eqb (pos d) (length (buf d)) || Nat.leb 4096 (pos d))
  then mkDecoder (drop (pos d) (buf d)) 0 else d.

Definition is_eol (b : ascii) : bool := Ascii.eqb b LF || Ascii.eqb b CR.

(** How many leading bytes are EOLs. *)
Fixpoint count_eols (s : bytes) : nat :=
  match s with c :: s => if is_eol c then S (count_eols s) else O | [] => O end.

Definition skip_heartbeats (d : Decoder) : Decoder :=
  compact (mkDecoder (buf d) (pos d + count_eols (rest d))).

Definition strip_cr (line : bytes) : bytes :=
  match rev line with
  | c :: r => if Ascii.eqb c CR then rev r else line
  | [] => line
  end.

Inductive HeaderOutcome :=
  | HDone (hs : list (string * string)) (cursor : nat)
  | HMore
  | HError (e : CodecError).

(** One header line. *)
Definition decode_line (line : bytes) : result CodecError (string * string) :=
  match position COLON line with
  | None => Err MissingHeaderValue
  | Some colon =>
      name ← decode_header (take colon line);
      value ← decode_header (drop (S colon) line);
      Ok (name, value)
  end.

(** The header loop.  Every iteration consumes at least one byte, so the
    remaining length is enough fuel. *)
Fixpoint header_loop (fuel : nat) (b : bytes) (cursor : nat) (hs : list (string * string))
  : HeaderOutcome :=
  match fuel with
  | O => HMore
  | S fuel =>
      match position LF (drop cursor b) with
      | None => HMore
      | Some nl =>
          let line := strip_cr (take nl (drop cursor b)) in
          let cursor := (cursor + nl + 1)%nat in
          match line with
          | [] => HDone hs cursor
          | _ => match decode_line line with
                 | Err e => HError e
                 | Ok kv => header_loop fuel b cursor (hs ++ [kv])
                 end
          end
      end
  end.

Inductive DecodeOutcome :=
  | Decoded (f : Frame)
  | NeedMore
  | DecodeError (e : CodecError)
  | Panic.

Inductive BodyOutcome := BDone (b : bytes) (fin : nat) | BMore | BMissingNull | BPanic.

(** The trailing EOL before the NULL is a delimiter. *)
Definition trim_eol (b : bytes) : bytes :=
  match rev b with
  | c :: r => if Ascii.eqb c LF then strip_cr (rev r) else b
  | [] => b
  end.

Definition decode_body (b : bytes) (cursor : nat) (hs : list (string * string)) : BodyOutcome :=
  match headers_content_length hs with
  | Some len =>
      let body_end := usize_add (Z.of_nat cursor) len in
      if Z.of_nat (length b) <=? body_end then BMore
      else if negb (bool_decide (b !! Z.to_nat body_end = Some NULL)) then BMissingNull
      else if body_end <? Z.of_nat cursor then BPanic
      else BDone (take (Z.to_nat body_end - cursor) (drop cursor b)) (Z.to_nat body_end + 1)
  | None =>
      match position NULL (drop cursor b) with
      | None => BMore
      | Some null_off => BDone (trim_eol (take null_off (drop cursor b))) (cursor + null_off + 1)
      end
  end.

(** The rest of a frame whose command line ends [nl] bytes after [pos]. *)
Definition decode_at (d : Decoder) (nl : nat) (cmd_line : bytes) : Decoder * DecodeOutcome :=
  if negb (utf8_valid cmd_line) then (d, DecodeError Utf8)
  else
    let command := trim (of_bytes cmd_line) in
    match header_loop (S (length (buf d))) (buf d) (pos d + nl + 1) [] with
    | HMore => (d, NeedMore)
    | HError e => (d, DecodeError e)
    | HDone hs cursor =>
        match decode_body (buf d) cursor hs with
        | BMore => (d, NeedMore)
        | BMissingNull => (d, DecodeError MissingNull)
        | BPanic => (d, Panic)
        | BDone body fin => (compact (mkDecoder (buf d) fin), Decoded (mkFrame command hs body))
        end
    end.

(** The defensive recursion on an empty command line is given fuel; it is never
    taken ([next_frame_eq]). *)
Fixpoint next_frame_fuel (fuel : nat) (d : Decoder) : Decoder * DecodeOutcome :=
  match fuel with
  | O => (d, NeedMore)
  | S fuel =>
      let d := skip_heartbeats d in
      match position LF (rest d) with
      | None => (d, NeedMore)
      | Some nl =>
          let cmd_line := strip_cr (take nl (rest d)) in
          if bool_decide (cmd_line = [])
          then next_frame_fuel fuel (mkDecoder (buf d) (pos d + nl + 1))
          else decode_at d nl cmd_line
      end
  end.

Definition next_frame (d : Decoder) : Decoder * DecodeOutcome :=
  next_frame_fuel (S (length (buf d))) d.

(** ** Escaping round trip *)

Lemma eqb_neq (a b : ascii) : a <> b -> Ascii.eqb a b = false.
Proof. intros. by apply Ascii.eqb_neq. Qed.

Lemma escape_byte_cases c :
  (escape_byte c = [c] /\ c <> LF /\ c <> CR /\ c <> COLON /\ c <> BACKSLASH) \/
  exists e, escape_byte c = [BACKSLASH; e] /\ byte_val e < 128 /\ byte_val c < 128 /\
    e <> LF /\ e <> CR /\ e <> COLON /\
    forall s, unescape (BACKSLASH :: e :: s) = out ← unescape s; Ok (c :: out).
Proof.
  unfold escape_byte.
  destruct (Ascii.eqb_spec c LF) as [->|]; [right; by exists "n"%char|].
  destruct (Ascii.eqb_spec c CR) as [->|]; [right; by exists "r"%char|].
  destruct (Ascii.eqb_spec c COLON) as [->|]; [right; by exists "c"%char|].
  destruct (Ascii.eqb_spec c BACKSLASH) as [->|]; [right; by exists BACKSLASH|]. by left.
Qed.

Lemma unescape_cons c s : unescape (escape_byte c ++ s) = out ← unescape s; Ok (c :: out).
Proof.
  destruct (escape_byte_cases c) as [(-> & _ & _ & _ & Hb)|(e & -> & _ & _ & _ & _ & _ & Hu)].
  - simpl. by rewrite (eqb_neq c BACKSLASH).
  - apply Hu.
Qed.

Lemma unescape_escape b : unescape (b ≫= escape_byte) = Ok b.
Proof. induction b as [|c b IH]; csimpl; [done|]. by rewrite unescape_cons, IH. Qed.

Lemma escaped_clean b c : c ∈ b ≫= escape_byte -> c <> LF /\ c <> CR /\ c <> COLON.
Proof.
  intros (x & Hc & _)%list_elem_of_bind.
  destruct (escape_byte_cases x) as [(E & ? & ? & ? & _)|(e & E & _ & _ & ? & ? & ? & _)];
    rewrite E in Hc; repeat (apply elem_of_cons in Hc as [->|Hc]); try done; by apply elem_of_nil in Hc.
Qed.

Lemma escape_byte_high c : 128 <= byte_val c -> escape_byte c = [c].
Proof.
  intros Hc. destruct (escape_byte_cases c) as [(-> & _)|(e & _ & _ & ? & _)]; [done|lia].
Qed.

Lemma utf8_valid_ascii a s : byte_val a < 128 -> utf8_valid (a :: s) = utf8_valid s.
Proof. intros Ha. simpl. by rewrite (proj2 (Z.ltb_lt _ _) Ha). Qed.

Lemma in_range_spec lo hi x : in_range lo hi x = true <-> lo <= x <= hi.
Proof. unfold in_range. rewrite andb_true_iff, !Z.leb_le. done. Qed.

Lemma is_cont_high c : is_cont c = true -> 128 <= byte_val c.
Proof. unfold is_cont. rewrite in_range_spec. lia. Qed.

(** Multi-byte sequences, by the length their lead byte announces. *)
Lemma utf8_valid_2 a b s :
  128 <= byte_val a -> in_range 194 223 (byte_val a) = true ->
  utf8_valid (a :: b :: s) = is_cont b && utf8_valid s.
Proof. intros Ha R. cbn [utf8_valid]. by rewrite (proj2 (Z.ltb_ge _ _) Ha), R. Qed.

Lemma utf8_valid_3 a b c s :
  128 <= byte_val a -> in_range 194 223 (byte_val a) = false -> in_range 224 239 (byte_val a) = true ->
  utf8_valid (a :: b :: c :: s) =
    in_range (if byte_val a =? 224 then 160 else 128) (if byte_val a =? 237 then 159 else 191)
      (byte_val b) && is_cont c && utf8_valid s.
Proof. intros Ha R2 R3. cbn [utf8_valid]. by rewrite (proj2 (Z.ltb_ge _ _) Ha), R2, R3. Qed.

Lemma utf8_valid_4 a b c d s :
  128 <= byte_val a -> in_range 194 223 (byte_val a) = false -> in_range 224 239 (byte_val a) = false ->
  utf8_valid (a :: b :: c :: d :: s) =
    in_range 240 244 (byte_val a) &&
    in_range (if byte_val a =? 240 then 144 else 128) (if byte_val a =? 244 then 143 else 191)
      (byte_val b) && is_cont c && is_cont d && utf8_valid s.
Proof. intros Ha R2 R3. cbn [utf8_valid]. by rewrite (proj2 (Z.ltb_ge _ _) Ha), R2, R3. Qed.

Lemma escape_cons c b : (c :: b) ≫= escape_byte = escape_byte c ++ (b ≫= escape_byte).
Proof. done. Qed.

Lemma utf8_valid_escape b : utf8_valid b = true -> utf8_valid (b ≫= escape_byte) = true.
Proof.
  remember (length b) as n eqn:Hn. revert b Hn. induction n as [n IH] using lt_wf_ind.
  intros [|a s1] Hn; [done|]. simpl in Hn. rewrite !escape_cons.
  destruct (Z.ltb_spec (byte_val a) 128) as [Ha|Ha].
  { rewrite utf8_valid_ascii by done. intros Hv.
    assert (Hs : utf8_valid (s1 ≫= escape_byte) = true) by (eapply IH; [|done|done]; lia).
    destruct (escape_byte_cases a) as [(-> & _)|(e & -> & He & _)]; simpl app;
      rewrite !utf8_valid_ascii by (done || (vm_compute; lia)); done. }
  rewrite (escape_byte_high a Ha). destruct s1 as [|b s2]; [exact (fun Hv => Hv)|].
  simpl in Hn. destruct (in_range 194 223 (byte_val a)) eqn:R2.
  { rewrite utf8_valid_2, andb_true_iff by done. intros [Hb Hv].
    rewrite escape_cons, (escape_byte_high b) by by apply is_cont_high. simpl app.
    rewrite utf8_valid_2, andb_true_iff by done. split; [done|]. eapply IH; [|done|done]. lia. }
  destruct s2 as [|c s3].
  { intros Hv. exfalso. revert Hv. cbn [utf8_valid]. rewrite (proj2 (Z.ltb_ge _ _) Ha), R2. done. }
  simpl in Hn. destruct (in_range 224 239 (byte_val a)) eqn:R3.
  { rewrite utf8_valid_3, !andb_true_iff by done. intros [[Hb Hc] Hv].
    rewrite !escape_cons, (escape_byte_high b), (escape_byte_high c)
      by first [by apply is_cont_high|apply in_range_spec in Hb; destruct (_ =? 224) in Hb; lia]. simpl app.
    rewrite utf8_valid_3, !andb_true_iff by done. split_and!; [done|done|].
    eapply IH; [|done|done]. lia. }
  destruct s3 as [|d s4].
  { intros Hv. exfalso. revert Hv. cbn [utf8_valid]. rewrite (proj2 (Z.ltb_ge _ _) Ha), R2, R3. done. }
  simpl in Hn. rewrite utf8_valid_4, !andb_true_iff by done. intros [[[[R4 Hb] Hc] Hd] Hv].
  rewrite !escape_cons, (escape_byte_high b), (escape_byte_high c), (escape_byte_high d)
    by first [by apply is_cont_high|apply in_range_spec in Hb; destruct (_ =? 240) in Hb; lia]. simpl app.
  rewrite utf8_valid_4, !andb_true_iff by done. split_and!; try done.
  eapply IH; [|done|done]. lia.
Qed.

Lemma decode_encode_header s : str_valid s -> decode_header (encode_header s) = Ok s.
Proof.
  intros Hs. unfold decode_header, encode_header.
  rewrite utf8_valid_escape, unescape_escape by done. simpl. by rewrite of_as_bytes.
Qed.

(** ** Lines *)

Lemma strip_cr_id l : last l <> Some CR -> strip_cr l = l.
Proof.
  intros Hl. unfold strip_cr. destruct l as [|c l _] using rev_ind; [done|].
  rewrite rev_app_distr. simpl. rewrite last_snoc in Hl.
  rewrite eqb_neq by congruence. done.
Qed.

(** A header line without its terminator. *)
Definition line_of (kv : string * string) : bytes :=
  encode_header kv.1 ++ COLON :: encode_header kv.2.

Lemma encode_line_eq kv : encode_line kv = line_of kv ++ [LF].
Proof. unfold encode_line, line_of. by rewrite <- app_assoc. Qed.

Lemma line_of_clean kv : (LF ∉ line_of kv) /\ last (line_of kv) <> Some CR /\ line_of kv <> [].
Proof.
  unfold line_of, encode_header. split_and!.
  - rewrite elem_of_app, elem_of_cons. intros [Hin|[?|Hin]]; [by apply escaped_clean in Hin as []|done|].
    by apply escaped_clean in Hin as [].
  - rewrite last_app_cons. intros Hl. apply last_Some_elem_of in Hl.
    apply elem_of_cons in Hl as [?|Hl]; [done|]. by apply escaped_clean in Hl as (_ & [] & _).
  - by destruct (as_bytes kv.1 ≫= escape_byte).
Qed.

Definition header_valid (kv : string * string) : Prop := str_valid kv.1 /\ str_valid kv.2.

Lemma decode_line_of kv : header_valid kv -> decode_line (line_of kv) = Ok kv.
Proof.
  intros [Hk Hv]. unfold decode_line, line_of. rewrite position_app.
  - rewrite take_app_length, drop_app_ge by lia. replace (S (length (encode_header kv.1)) - length (encode_header kv.1))%nat with 1%nat by lia.
    change (drop 1 (COLON :: encode_header kv.2)) with (encode_header kv.2).
    rewrite !decode_encode_header by done. destruct kv. done.
  - intros Hin. by apply escaped_clean in Hin as (_ & _ & []).
Qed.

(** ** The header loop *)

Lemma header_loop_S fuel b cursor hs :
  header_loop (S fuel) b cursor hs =
    match position LF (drop cursor b) with
    | None => HMore
    | Some nl =>
        match strip_cr (take nl (drop cursor b)) with
        | [] => HDone hs (cursor + nl + 1)
        | _ => match decode_line (strip_cr (take nl (drop cursor b))) with
               | Err e => HError e
               | Ok kv => header_loop fuel b (cursor + nl + 1) (hs ++ [kv])
               end
        end
    end.
Proof. done. Qed.

(** One well-formed header line is consumed. *)
Lemma header_loop_line fuel b cursor hs kv tail :
  header_valid kv -> drop cursor b = encode_line kv ++ tail ->
  header_loop (S fuel) b cursor hs
  = header_loop fuel b (cursor + length (encode_line kv)) (hs ++ [kv]).
Proof.
  intros Hkv Hb. destruct (line_of_clean kv) as (Hlf & Hcr & Hne).
  rewrite header_loop_S, Hb, encode_line_eq, <- app_assoc. simpl.
  rewrite position_app, take_app_length, strip_cr_id by done.
  rewrite decode_line_of by done. rewrite length_app. destruct (line_of kv) as [|c l]; [done|].
  f_equal. simpl. lia.
Qed.

Lemma header_loop_blank fuel b cursor hs tail :
  drop cursor b = LF :: tail -> header_loop (S fuel) b cursor hs = HDone hs (cursor + 1).
Proof. intros Hb. rewrite header_loop_S, Hb. simpl. f_equal. lia. Qed.

Lemma drop_cursor {A} (b : list A) cursor l tail :
  drop cursor b = l ++ tail -> drop (cursor + length l) b = tail.
Proof. intros Hb. by rewrite <- drop_drop, Hb, drop_app_length. Qed.

Lemma lines_cons kv hs : (kv :: hs) ≫= encode_line = encode_line kv ++ (hs ≫= encode_line).
Proof. done. Qed.

Lemma header_loop_done hs fuel b cursor acc tail :
  Forall header_valid hs -> (length hs < fuel)%nat ->
  drop cursor b = (hs ≫= encode_line) ++ LF :: tail ->
  header_loop fuel b cursor acc = HDone (acc ++ hs) (cursor + length (hs ≫= encode_line) + 1).
Proof.
  intros Hhs. revert fuel cursor acc. induction Hhs as [|kv hs Hkv Hhs IH]; intros fuel cursor acc Hf Hb.
  - destruct fuel as [|fuel]; simpl in Hf; [lia|].
    rewrite (header_loop_blank _ _ _ _ tail), app_nil_r by done. f_equal. simpl. lia.
  - destruct fuel as [|fuel]; simpl in Hf; [lia|]. rewrite lines_cons, <- app_assoc in Hb.
    rewrite (header_loop_line _ _ _ _ kv _ Hkv Hb). apply drop_cursor in Hb.
    rewrite (IH fuel _ _ ltac:(lia) Hb), <- app_assoc, lines_cons, length_app. f_equal. lia.
Qed.

Lemma prefix_cases {A} (p q l r : list A) :
  p ++ q = l ++ r ->
  (exists l2, l = p ++ l2 /\ l2 <> [] /\ q = l2 ++ r) \/ (exists p2, p = l ++ p2 /\ p2 ++ q = r).
Proof.
  revert l. induction p as [|x p IH]; intros [|y l]; simpl; intros E.
  - right. by exists [].
  - left. exists (y :: l). by subst.
  - right. exists (x :: p). by simplify_eq.
  - injection E as -> E. destruct (IH l E) as [(l2 & -> & Hne & ->)|(p2 & -> & <-)].
    + left. by exists l2.
    + right. by exists p2.
Qed.

(** On a prefix of the header block the loop waits, or it gets to the end of
    the block. *)
Lemma header_loop_prefix hs fuel b cursor acc p q T :
  Forall header_valid hs -> (length p < fuel)%nat ->
  drop cursor b = p -> p ++ q = (hs ≫= encode_line) ++ LF :: T ->
  header_loop fuel b cursor acc = HMore \/ exists t, p = (hs ≫= encode_line) ++ LF :: t /\ t ++ q = T.
Proof.
  intros Hhs. revert fuel cursor acc p. induction Hhs as [|kv hs Hkv Hhs IH];
    intros fuel cursor acc p Hf Hb Hpq; (destruct fuel as [|fuel]; [lia|]); rewrite ?lines_cons in *.
  - destruct p as [|x p]; [left; by rewrite header_loop_S, Hb|]. simpl in Hpq. simplify_eq.
    right. by exists p.
  - rewrite <- app_assoc, encode_line_eq, <- app_assoc in Hpq. simpl in Hpq.
    destruct (line_of_clean kv) as (Hlf & Hcr & Hne).
    destruct (prefix_cases _ _ _ _ Hpq) as [(l2 & Hl & _)|(p2 & -> & Hp2)].
    { left. rewrite header_loop_S, Hb, (proj2 (position_None LF p)); [done|].
      intros Hin. apply Hlf. rewrite Hl. apply elem_of_app. by left. }
    destruct p2 as [|x p2]; simpl in Hp2.
    { left. rewrite app_nil_r in Hb. by rewrite header_loop_S, Hb, (proj2 (position_None _ _) Hlf). }
    injection Hp2 as -> Hp2. assert (Hb' : drop cursor b = encode_line kv ++ p2)
      by (rewrite Hb, encode_line_eq, <- app_assoc; done).
    rewrite (header_loop_line _ _ _ _ kv _ Hkv Hb'). apply drop_cursor in Hb'.
    rewrite length_app in Hf. simpl in Hf.
    destruct (IH fuel _ (acc ++ [kv]) p2 ltac:(lia) Hb' Hp2) as [Hm|(t & -> & Ht)]; [by left|right].
    exists t. split; [|done]. rewrite encode_line_eq, <- !app_assoc. done.
Qed.

(** ** Trimmed commands *)

Lemma trim_start_suffix s : exists p, s = p ++ trim_start_bytes s.
Proof.
  remember (length s) as n eqn:Hn. revert s Hn. induction n as [n IH] using lt_wf_ind.
  intros [|a s1] Hn; [by exists []|]. simpl in Hn. cbn [trim_start_bytes].
  destruct (is_ws1 (byte_val a)).
  { destruct (IH (length s1) ltac:(lia) s1 eq_refl) as [p Hp]. exists (a :: p). simpl. by rewrite <- Hp. }
  destruct s1 as [|b s2]; [by exists []|]. simpl in Hn. destruct (is_ws2 _ _).
  { destruct (IH (length s2) ltac:(lia) s2 eq_refl) as [p Hp]. exists (a :: b :: p). simpl. by rewrite <- Hp. }
  destruct s2 as [|c s3]; [by exists []|]. simpl in Hn. destruct (is_ws3 _ _ _); [|by exists []].
  destruct (IH (length s3) ltac:(lia) s3 eq_refl) as [p Hp]. exists (a :: b :: c :: p). simpl. by rewrite <- Hp.
Qed.

Lemma trim_end_suffix s : exists p, s = p ++ trim_end_rev s.
Proof.
  remember (length s) as n eqn:Hn. revert s Hn. induction n as [n IH] using lt_wf_ind.
  intros [|a s1] Hn; [by exists []|]. simpl in Hn. cbn [trim_end_rev].
  destruct (is_ws1 (byte_val a)).
  { destruct (IH (length s1) ltac:(lia) s1 eq_refl) as [p Hp]. exists (a :: p). simpl. by rewrite <- Hp. }
  destruct s1 as [|b s2]; [by exists []|]. simpl in Hn. destruct (is_ws2 _ _).
  { destruct (IH (length s2) ltac:(lia) s2 eq_refl) as [p Hp]. exists (a :: b :: p). simpl. by rewrite <- Hp. }
  destruct s2 as [|c s3]; [by exists []|]. simpl in Hn. destruct (is_ws3 _ _ _); [|by exists []].
  destruct (IH (length s3) ltac:(lia) s3 eq_refl) as [p Hp]. exists (a :: b :: c :: p). simpl. by rewrite <- Hp.
Qed.

Lemma suffix_same_length {A} (p l1 l2 : list A) : l1 = p ++ l2 -> length l1 = length l2 -> l1 = l2.
Proof. intros -> Hl. rewrite length_app in Hl. by destruct p; simpl in Hl; [|lia]. Qed.

(** A trimmed string neither starts nor ends with an ASCII white space. *)
Lemma trimmed_ends s :
  trim_bytes s = s ->
  (forall a s', s = a :: s' -> is_ws1 (byte_val a) = false) /\
  (forall a s', s = s' ++ [a] -> is_ws1 (byte_val a) = false).
Proof.
  intros Ht. unfold trim_bytes in Ht.
  destruct (trim_start_suffix s) as [p1 Hp1]. destruct (trim_end_suffix (rev (trim_start_bytes s))) as [p2 Hp2].
  assert (L1 : (length (trim_start_bytes s) <= length s)%nat) by (rewrite Hp1 at 2; rewrite length_app; lia).
  assert (L2 : length s = length (trim_end_rev (rev (trim_start_bytes s))))
    by (rewrite <- Ht at 1; apply length_rev).
  assert (L3 : (length (trim_end_rev (rev (trim_start_bytes s))) <= length (trim_start_bytes s))%nat).
  { apply (f_equal length) in Hp2. rewrite length_app, length_rev in Hp2. lia. }
  assert (E1 : s = trim_start_bytes s) by (apply (suffix_same_length p1); [done|lia]).
  rewrite <- E1 in *. split.
  - intros a s' ->. destruct (is_ws1 (byte_val a)) eqn:Ha; [|done]. exfalso.
    cbn [trim_start_bytes] in E1. rewrite Ha in E1. destruct (trim_start_suffix s') as [p Hp].
    apply (f_equal length) in E1, Hp. rewrite length_app in Hp. simpl in E1. lia.
  - intros a s' ->. destruct (is_ws1 (byte_val a)) eqn:Ha; [|done]. exfalso.
    rewrite rev_app_distr in L2. cbn [rev app trim_end_rev] in L2. rewrite Ha in L2.
    destruct (trim_end_suffix (rev s')) as [p Hp]. apply (f_equal length) in Hp.
    rewrite length_app, length_rev in Hp. rewrite length_app in L2. simpl in L2. lia.
Qed.

Lemma is_eol_ws c : is_eol c = true -> is_ws1 (byte_val c) = true.
Proof.
  unfold is_eol. destruct (Ascii.eqb_spec c LF) as [->|]; [done|].
  by destruct (Ascii.eqb_spec c CR) as [->|].
Qed.

(** A command the decoder can read back. *)
Definition command_ok (c : string) : Prop :=
  str_valid c /\ c <> ""%string /\ (LF ∉ as_bytes c) /\ trim c = c.

Lemma command_ok_bytes c :
  command_ok c ->
  as_bytes c <> [] /\ last (as_bytes c) <> Some CR /\
  (forall a s', as_bytes c = a :: s' -> is_eol a = false).
Proof.
  intros (_ & Hne & _ & Ht).
  assert (Hb : trim_bytes (as_bytes c) = as_bytes c)
    by (rewrite <- (as_of_bytes (trim_bytes (as_bytes c))); by f_equal).
  destruct (trimmed_ends _ Hb) as [Hs He]. split_and!.
  - intros E. apply Hne. by rewrite <- (of_as_bytes c), E.
  - intros Hl. apply last_Some in Hl as [l Hl]. specialize (He _ _ Hl). done.
  - intros a s' E. destruct (is_eol a) eqn:Ha; [|done]. apply is_eol_ws in Ha. apply Hs in E. congruence.
Qed.

(** ** Skipping heartbeats *)

Lemma rest_compact d : rest (compact d) = rest d.
Proof. unfold compact, rest. by destruct (_ && _). Qed.

Lemma rest_drop b n : rest (mkDecoder b n) = drop n b.
Proof. done. Qed.

Lemma length_compact d : (length (buf (compact d)) <= length (buf d))%nat.
Proof. unfold compact. destruct (_ && _); simpl; [rewrite length_drop|]; lia. Qed.

Definition decoder_wf (d : Decoder) : Prop := (pos d <= length (buf d))%nat.

Lemma compact_wf d : decoder_wf d -> decoder_wf (compact d).
Proof. unfold compact, decoder_wf. destruct (_ && _); simpl; lia. Qed.

Lemma count_eols_le s : (count_eols s <= length s)%nat.
Proof. induction s as [|c s IH]; simpl; [lia|]. destruct (is_eol c); lia. Qed.

Lemma skip_heartbeats_spec d :
  decoder_wf d ->
  decoder_wf (skip_heartbeats d) /\ rest (skip_heartbeats d) = drop (count_eols (rest d)) (rest d) /\
  (length (buf (skip_heartbeats d)) <= length (buf d))%nat.
Proof.
  intros Hd. unfold skip_heartbeats. split_and!.
  - apply compact_wf. unfold decoder_wf in *. simpl. pose proof (count_eols_le (rest d)) as Hc.
    unfold rest in Hc. rewrite length_drop in Hc. unfold rest. lia.
  - rewrite rest_compact. unfold rest. simpl. by rewrite drop_drop.
  - apply (length_compact (mkDecoder (buf d) (pos d + count_eols (rest d)))).
Qed.

Lemma drop_count_eols s a s' : drop (count_eols s) s = a :: s' -> is_eol a = false.
Proof. induction s as [|c s IH]; simpl; [done|]. destruct (is_eol c) eqn:E; simpl; [done|]. by intros [= <- _]. Qed.

Lemma count_eols_app e s :
  Forall (fun c => is_eol c = true) e -> (forall a s', s = a :: s' -> is_eol a = false) ->
  count_eols (e ++ s) = length e.
Proof.
  intros He Hs. induction He as [|c e Hc He IH]; simpl; [|by rewrite Hc, IH].
  destruct s as [|a s']; simpl; [done|]. by rewrite (Hs a s').
Qed.

(** After the skip the command line is never empty, so the recursion is not
    taken and the fuel does not matter. *)
Lemma strip_cr_nil l : strip_cr l = [] -> l = [] \/ l = [CR].
Proof.
  unfold strip_cr. destruct l as [|c l _] using rev_ind; [by left|].
  rewrite rev_app_distr. simpl. destruct (Ascii.eqb_spec c CR) as [->|].
  - intros Hr. right. rewrite rev_involutive in Hr. by subst.
  - intros Hn. by destruct l.
Qed.

Lemma next_frame_fuel_eq fuel d :
  decoder_wf d ->
  next_frame_fuel (S fuel) d =
    let d := skip_heartbeats d in
    match position LF (rest d) with
    | None => (d, NeedMore)
    | Some nl => decode_at d nl (strip_cr (take nl (rest d)))
    end.
Proof.
  intros Hd. cbn [next_frame_fuel]. cbv zeta.
  destruct (skip_heartbeats_spec d Hd) as (_ & Hrest & _).
  destruct (position LF (rest (skip_heartbeats d))) as [nl|] eqn:Hnl; [|done].
  rewrite bool_decide_eq_false_2; [done|]. intros Hnil.
  apply position_Some in Hnl as (l & r & Hl & <- & _). rewrite Hl, take_app_length in Hnil.
  assert (Hhead : forall a s', l ++ LF :: r = a :: s' -> is_eol a = false).
  { intros a s' E. apply (drop_count_eols (rest d) a s'). by rewrite <- Hrest, Hl. }
  apply strip_cr_nil in Hnil as [-> | ->]; simpl in Hhead; by specialize (Hhead _ _ eq_refl).
Qed.

Lemma next_frame_eq d :
  decoder_wf d ->
  next_frame d =
    let d := skip_heartbeats d in
    match position LF (rest d) with
    | None => (d, NeedMore)
    | Some nl => decode_at d nl (strip_cr (take nl (rest d)))
    end.
Proof. apply next_frame_fuel_eq. Qed.

(** ** Whole frames *)

(** A frame that survives the wire: the body is announced by a matching
    [content-length], or free of NULL and of a trailing EOL. *)
Definition body_ok (f : Frame) : Prop :=
  match content_length f with
  | Some n => n = Z.of_nat (length (body f))
  | None => (NULL ∉ body f) /\ trim_eol (body f) = body f
  end.

Definition frame_ok (f : Frame) : Prop :=
  command_ok (command f) /\ Forall header_valid (headers f) /\ body_ok f.

Lemma length_headers hs : (length hs <= length (hs ≫= encode_line))%nat.
Proof.
  induction hs as [|kv hs IH]; [done|]. rewrite lines_cons, length_app, encode_line_eq, length_app.
  simpl. lia.
Qed.

Lemma length_rest d : decoder_wf d -> length (buf d) = (pos d + length (rest d))%nat.
Proof. intros Hd. unfold rest, decoder_wf in *. rewrite length_drop. lia. Qed.

Lemma decode_body_done b cursor f tail :
  body_ok f -> (cursor <= length b)%nat -> Z.of_nat (length b) <= U64_MAX ->
  drop cursor b = body f ++ NULL :: tail ->
  decode_body b cursor (headers f) = BDone (body f) (cursor + length (body f) + 1).
Proof.
  intros Hf Hc Hmax Hb. unfold decode_body, body_ok, content_length in *.
  assert (Hlen : length b = (cursor + length (body f) + 1 + length tail)%nat).
  { apply (f_equal length) in Hb. rewrite length_drop, length_app in Hb. simpl in Hb. lia. }
  destruct (headers_content_length (headers f)) as [n|].
  - subst n. unfold usize_add. rewrite wrap64_small by (unfold in_u64; lia).
    rewrite <- Nat2Z.inj_add, Nat2Z.id.
    destruct (Z.leb_spec (Z.of_nat (length b)) (Z.of_nat (cursor + length (body f)))); [lia|].
    rewrite bool_decide_eq_true_2.
    2: { rewrite <- lookup_drop, Hb, lookup_app_r by lia. by rewrite Nat.sub_diag. }
    cbn [negb]. destruct (Z.ltb_spec (Z.of_nat (cursor + length (body f))) (Z.of_nat cursor)); [lia|].
    f_equal. rewrite Hb. replace (cursor + length (body f) - cursor)%nat with (length (body f)) by lia.
    apply take_app_length.
  - destruct Hf as [Hn Ht]. rewrite Hb, position_app, take_app_length, Ht by done. done.
Qed.

Lemma decode_body_partial b cursor f t q :
  body_ok f -> (cursor <= length b)%nat -> Z.of_nat (cursor + length (body f)) <= U64_MAX ->
  drop cursor b = t -> t ++ q = body f ++ [NULL] -> q <> [] ->
  decode_body b cursor (headers f) = BMore.
Proof.
  intros Hf Hc Hmax Hb Htq Hq. unfold decode_body, body_ok, content_length in *.
  assert (Hpre : exists q', body f = t ++ q').
  { destruct (prefix_cases _ _ _ _ Htq) as [(l2 & -> & _)|(p2 & -> & Hp)]; [by eexists|].
    destruct p2 as [|x p2]; [exists []; by rewrite !app_nil_r|]. simpl in Hp. injection Hp as _ Hp.
    by apply app_eq_nil in Hp as [_ ?]. }
  destruct Hpre as [q' Hbody].
  assert (Hlen : (length b <= cursor + length (body f))%nat).
  { apply (f_equal length) in Hb. rewrite length_drop in Hb. rewrite Hbody, length_app. lia. }
  destruct (headers_content_length (headers f)) as [n|].
  - subst n. unfold usize_add. rewrite wrap64_small by (unfold in_u64; lia).
    destruct (Z.leb_spec (Z.of_nat (length b)) (Z.of_nat cursor + Z.of_nat (length (body f)))); [done|lia].
  - destruct Hf as [Hn _]. rewrite Hb, (proj2 (position_None NULL t)); [done|].
    intros Hin. apply Hn. rewrite Hbody. apply elem_of_app. by left.
Qed.

(** Where the header block starts. *)
Lemma rest_after_command d c tail :
  rest d = as_bytes c ++ LF :: tail -> drop (pos d + length (as_bytes c) + 1) (buf d) = tail.
Proof.
  intros Hr. replace (pos d + length (as_bytes c) + 1)%nat with (pos d + (length (as_bytes c) + 1))%nat by lia.
  rewrite <- drop_drop. fold (rest d). rewrite Hr, drop_app_ge by lia.
  by replace (length (as_bytes c) + 1 - length (as_bytes c))%nat with 1%nat by lia.
Qed.

Lemma decode_at_full d f tail :
  decoder_wf d -> frame_ok f -> Z.of_nat (length (buf d)) <= U64_MAX ->
  rest d = encode f ++ tail ->
  let '(d', o) := decode_at d (length (as_bytes (command f))) (as_bytes (command f)) in
  o = Decoded f /\ rest d' = tail /\ decoder_wf d' /\ (length (buf d') <= length (buf d))%nat.
Proof.
  intros Hd (Hc & Hh & Hbody) Hmax Hr. pose proof (length_rest d Hd) as Hlen.
  unfold encode in Hr. rewrite <- !app_assoc in Hr. simpl in Hr.
  pose proof (rest_after_command d _ _ Hr) as Hcur. destruct Hc as (Hv & _ & _ & Ht).
  unfold decode_at. rewrite Hv. cbn [negb]. rewrite of_as_bytes, Ht. cbv zeta.
  set (cur := (pos d + length (as_bytes (command f)) + 1)%nat) in *.
  rewrite (header_loop_done (headers f) _ _ _ _ (body f ++ NULL :: tail)); [|done| |].
  2: { pose proof (length_headers (headers f)). rewrite Hlen, Hr. rewrite !length_app. simpl.
       rewrite length_app. lia. }
  2: { by rewrite Hcur. }
  rewrite app_nil_l. set (cur2 := (cur + length (headers f ≫= encode_line) + 1)%nat).
  assert (Hlen2 : length (buf d) = (cur2 + length (body f) + 1 + length tail)%nat).
  { rewrite Hlen, Hr. rewrite length_app. simpl. rewrite length_app. simpl. rewrite !length_app. simpl.
    unfold cur2, cur. lia. }
  assert (Hcur2 : drop cur2 (buf d) = body f ++ NULL :: tail).
  { unfold cur2. rewrite <- Nat.add_assoc, <- drop_drop, Hcur, drop_app_ge by lia.
    replace (length (headers f ≫= encode_line) + 1 - length (headers f ≫= encode_line))%nat
      with 1%nat by lia. done. }
  rewrite (decode_body_done _ _ f tail) by (done || lia). split_and!.
  - by destruct f.
  - rewrite rest_compact, rest_drop. rewrite <- Nat.add_assoc, <- drop_drop, Hcur2, drop_app_ge by lia.
    by replace (length (body f) + 1 - length (body f))%nat with 1%nat by lia.
  - apply compact_wf. unfold decoder_wf. simpl. lia.
  - apply (length_compact (mkDecoder (buf d) (cur2 + length (body f) + 1))).
Qed.

Lemma decode_at_partial d f p q :
  decoder_wf d -> frame_ok f -> Z.of_nat (length (buf d) + length q) <= U64_MAX ->
  rest d = as_bytes (command f) ++ LF :: p ->
  (as_bytes (command f) ++ LF :: p) ++ q = encode f -> q <> [] ->
  decode_at d (length (as_bytes (command f))) (as_bytes (command f)) = (d, NeedMore).
Proof.
  intros Hd (Hc & Hh & Hbody) Hmax Hr Hpq Hq. pose proof (length_rest d Hd) as Hlen.
  pose proof (rest_after_command d _ _ Hr) as Hcur.
  unfold encode in Hpq. rewrite <- app_assoc in Hpq. apply app_inv_head in Hpq. simpl in Hpq.
  injection Hpq as Hpq. destruct Hc as (Hv & _ & _ & Ht).
  unfold decode_at. rewrite Hv. cbn [negb]. rewrite of_as_bytes, Ht. cbv zeta.
  set (cur := (pos d + length (as_bytes (command f)) + 1)%nat) in *.
  assert (Hlenp : length (buf d) = (cur + length p)%nat).
  { rewrite Hlen, Hr, length_app. simpl. unfold cur. lia. }
  assert (Hfuel : header_loop (S (length (buf d))) (buf d) cur [] = HMore \/
    exists t, p = (headers f ≫= encode_line) ++ LF :: t /\ t ++ q = body f ++ [NULL]).
  { apply (header_loop_prefix _ _ _ _ _ p q); [done|lia|done|]. by rewrite Hpq. }
  destruct Hfuel as [->|(t & Hp & Htq)]; [done|].
  rewrite (header_loop_done (headers f) _ _ _ _ t); [|done| |by rewrite Hcur].
  2: { pose proof (length_headers (headers f)). rewrite Hlenp, Hp, length_app. simpl. lia. }
  rewrite app_nil_l. set (cur2 := (cur + length (headers f ≫= encode_line) + 1)%nat).
  assert (Hlen2 : length (buf d) = (cur2 + length t)%nat).
  { rewrite Hlenp, Hp, length_app. simpl. unfold cur2. lia. }
  assert (Hcur2 : drop cur2 (buf d) = t).
  { unfold cur2. rewrite <- Nat.add_assoc, <- drop_drop, Hcur, Hp, drop_app_ge by lia.
    by replace (length (headers f ≫= encode_line) + 1 - length (headers f ≫= encode_line))%nat
      with 1%nat by lia. }
  assert (Hlq : (length t + length q = length (body f) + 1)%nat).
  { apply (f_equal length) in Htq. rewrite !length_app in Htq. simpl in Htq. lia. }
  by rewrite (decode_body_partial _ _ f t q) by (done || lia).
Qed.

Definition eols (e : bytes) : Prop := Forall (fun c => is_eol c = true) e.

Lemma encode_command f : encode f = as_bytes (command f) ++ LF :: (headers f ≫= encode_line) ++ LF :: body f ++ [NULL].
Proof. done. Qed.

Lemma encode_head f a s' tail : frame_ok f -> encode f ++ tail = a :: s' -> is_eol a = false.
Proof.
  intros (Hc & _) E. destruct (command_ok_bytes _ Hc) as (Hne & _ & Hh).
  rewrite encode_command in E. destruct (as_bytes (command f)) as [|b l] eqn:Hb; [done|].
  simpl in E. injection E as <- _. by apply (Hh b l).
Qed.

Lemma position_command f tail :
  frame_ok f -> position LF (as_bytes (command f) ++ LF :: tail) = Some (length (as_bytes (command f))) /\
  strip_cr (as_bytes (command f)) = as_bytes (command f).
Proof.
  intros (Hc & _). split; [|by apply strip_cr_id, command_ok_bytes].
  destruct Hc as (_ & _ & Hlf & _). by apply position_app.
Qed.

(** A buffered frame is decoded, after any heartbeats. *)
Lemma next_frame_full d e f tail :
  decoder_wf d -> frame_ok f -> eols e -> Z.of_nat (length (buf d)) <= U64_MAX ->
  rest d = e ++ encode f ++ tail ->
  let '(d', o) := next_frame d in
  o = Decoded f /\ rest d' = tail /\ decoder_wf d' /\ (length (buf d') <= length (buf d))%nat.
Proof.
  intros Hd Hf He Hmax Hr. rewrite next_frame_eq by done. cbv zeta.
  destruct (skip_heartbeats_spec d Hd) as (Hd1 & Hr1 & Hl1).
  rewrite Hr, (count_eols_app e), drop_app_length in Hr1 by (done || (intros; by eapply encode_head)).
  destruct (position_command f ((headers f ≫= encode_line) ++ LF :: body f ++ NULL :: tail) Hf) as [Hp Hs].
  assert (Hr2 : rest (skip_heartbeats d) = as_bytes (command f) ++ LF ::
                  (headers f ≫= encode_line) ++ LF :: body f ++ NULL :: tail).
  { rewrite Hr1, encode_command, <- !app_assoc. simpl. rewrite <- !app_assoc. simpl. by rewrite <- app_assoc. }
  rewrite Hr2, Hp, take_app_length, Hs.
  pose proof (decode_at_full _ f tail Hd1 Hf ltac:(lia) Hr1) as Hfull.
  destruct (decode_at _ _ _) as [d' o]. destruct Hfull as (-> & ? & ? & ?). split_and!; try done. lia.
Qed.

(** A partial frame is waited for, and only heartbeats are consumed. *)
Lemma next_frame_partial d e f after more :
  decoder_wf d -> frame_ok f -> eols e -> Z.of_nat (length (buf d) + length more) <= U64_MAX ->
  rest d ++ more = e ++ encode f ++ after -> (length (rest d) < length e + length (encode f))%nat ->
  exists d' e', next_frame d = (d', NeedMore) /\ eols e' /\ rest d' ++ more = e' ++ encode f ++ after /\
    decoder_wf d' /\ (length (buf d') <= length (buf d))%nat.
Proof.
  intros Hd Hf He Hmax Hr Hlt. rewrite next_frame_eq by done. cbv zeta.
  destruct (skip_heartbeats_spec d Hd) as (Hd1 & Hr1 & Hl1). exists (skip_heartbeats d).
  destruct (prefix_cases _ _ _ _ Hr) as [(l2 & Hl & _ & Hmore)|(p & Hp & Hpm)].
  - assert (He' : eols (rest d) /\ eols l2) by (unfold eols in *; by rewrite Hl, Forall_app in He).
    pose proof (count_eols_app (rest d) [] (proj1 He') ltac:(done)) as Hcount.
    rewrite app_nil_r in Hcount. rewrite Hcount, drop_all in Hr1. exists l2. rewrite Hr1. simpl.
    split_and!; try done. by apply He'.
  - assert (Hhead : forall a s', p = a :: s' -> is_eol a = false).
    { intros a s' ->. eapply (encode_head f a _ after Hf). by rewrite <- Hpm. }
    rewrite Hp, (count_eols_app e), drop_app_length in Hr1 by done. exists []. rewrite Hr1.
    split_and!; try done; [|constructor].
    destruct (prefix_cases _ _ _ _ Hpm) as [(q & Hq & Hqne & Hmore)|(p2 & -> & _)].
    2: { rewrite Hp, !length_app in Hlt. lia. }
    destruct (position_command f [] Hf) as [_ Hs]. pose proof Hq as Hq'. rewrite encode_command in Hq'.
    assert (Hnolf : LF ∉ as_bytes (command f)) by (by destruct Hf as ((_ & _ & ? & _) & _)).
    destruct (prefix_cases _ _ _ _ (eq_sym Hq')) as [(l2 & Hl2 & _)|(p3 & -> & Hp3)].
    { rewrite (proj2 (position_None LF p)); [done|]. intros Hin. apply Hnolf. rewrite Hl2.
      apply elem_of_app. by left. }
    destruct p3 as [|x p3]; [rewrite app_nil_r; by rewrite (proj2 (position_None LF _) Hnolf)|].
    simpl in Hp3. injection Hp3 as -> Hp3.
    rewrite (proj1 (position_command f p3 Hf)), take_app_length, Hs.
    apply (decode_at_partial _ f p3 q); try done. rewrite Hmore, length_app in Hmax. lia.
Qed.

(** ** Streams *)

(** Pull frames until none is complete. *)
Fixpoint drain (fuel : nat) (d : Decoder) : Decoder * list Frame * DecodeOutcome :=
  match fuel with
  | O => (d, [], NeedMore)
  | S fuel =>
      match next_frame d with
      | (d', Decoded f) => let '(d'', fs, o) := drain fuel d' in (d'', f :: fs, o)
      | (d', o) => (d', [], o)
      end
  end.

(** Receive a stream in chunks; [None] when a frame fails to decode.  A chunk
    holds fewer frames than bytes, so its length is enough fuel. *)
Fixpoint feed (d : Decoder) (chunks : list bytes) : option (Decoder * list Frame) :=
  match chunks with
  | [] => Some (d, [])
  | c :: chunks =>
      match drain (S (length (rest (push c d)))) (push c d) with
      | (d', fs, NeedMore) => r ← feed d' chunks; Some (r.1, fs ++ r.2)
      | _ => None
      end
  end.

(** Frames on the wire, each preceded by heartbeats, and trailing heartbeats. *)
Definition stream (items : list (bytes * Frame)) (tail : bytes) : bytes :=
  (items ≫= (fun ef => ef.1 ++ encode ef.2)) ++ tail.

Definition items_ok (items : list (bytes * Frame)) : Prop :=
  Forall (fun ef => eols ef.1 /\ frame_ok ef.2) items.

Lemma stream_cons e f items tail : stream ((e, f) :: items) tail = e ++ encode f ++ stream items tail.
Proof. unfold stream. csimpl. by rewrite <- !app_assoc. Qed.

Lemma encode_length f : (2 <= length (encode f))%nat.
Proof. rewrite encode_command, length_app. simpl. rewrite length_app. simpl. lia. Qed.

(** What draining achieves on a stream of which only a part has arrived. *)
Lemma drain_spec items tail fuel d more :
  decoder_wf d -> items_ok items -> eols tail -> Z.of_nat (length (buf d) + length more) <= U64_MAX ->
  rest d ++ more = stream items tail -> (length (rest d) < fuel)%nat ->
  exists d' fs items' tail', drain fuel d = (d', fs, NeedMore) /\
    items.*2 = fs ++ items'.*2 /\ items_ok items' /\ eols tail' /\ rest d' ++ more = stream items' tail' /\
    decoder_wf d' /\ (length (buf d') <= length (buf d))%nat /\ (more = [] -> items' = [] /\ rest d' = []).
Proof.
  intros Hd Hi Ht. revert fuel d Hd. induction Hi as [|[e f] items [He Hf] Hi IH]; intros fuel d Hd Hmax Hr Hfuel;
    (destruct fuel as [|fuel]; [lia|]).
  - unfold stream in Hr. simpl in Hr. cbn [drain]. rewrite next_frame_eq by done. cbv zeta.
    destruct (skip_heartbeats_spec d Hd) as (Hd1 & Hr1 & Hl1).
    unfold eols in Ht. rewrite <- Hr, Forall_app in Ht. destruct Ht as [Ht1 Ht2].
    pose proof (count_eols_app (rest d) [] Ht1 ltac:(done)) as Hc. rewrite app_nil_r in Hc.
    rewrite Hc, drop_all in Hr1. rewrite Hr1. simpl. exists (skip_heartbeats d), [], [], more.
    rewrite Hr1. split_and!; try done. constructor.
  - simpl in He, Hf. rewrite stream_cons in Hr. cbn [drain].
    destruct (decide (length (rest d) < length e + length (encode f))%nat) as [Hlt|Hge].
    + destruct (next_frame_partial d e f _ more Hd Hf He Hmax Hr Hlt)
        as (d' & e' & -> & He' & Hr' & Hd' & Hl').
      exists d', [], ((e', f) :: items), tail. rewrite stream_cons. split_and!; try done.
      * by constructor.
      * intros ->. rewrite app_nil_r in Hr. rewrite Hr in Hlt. rewrite !length_app in Hlt. lia.
    + rewrite app_assoc in Hr. destruct (prefix_cases _ _ _ _ Hr) as [(l2 & Hl & Hne & _)|(p2 & Hp & Hpm)].
      { apply (f_equal length) in Hl. rewrite !length_app in Hl. destruct l2; [done|]. simpl in Hl. lia. }
      rewrite <- app_assoc in Hp. pose proof (next_frame_full d e f p2 Hd Hf He ltac:(lia) Hp) as Hfull.
      destruct (next_frame d) as [d' o]. destruct Hfull as (-> & Hr' & Hd' & Hl').
      destruct (IH fuel d' Hd') as (d'' & fs & items' & tail' & Hdr & Hfs & Hok & Ht' & Hr'' & Hd'' & Hl'' & Hend).
      { lia. } { by rewrite Hr'. }
      { rewrite Hr'. rewrite Hp, !length_app in Hfuel. pose proof (encode_length f). lia. }
      rewrite Hdr. exists d'', (f :: fs), items', tail'. csimpl. rewrite Hfs. split_and!; try done; [lia|..];
        by apply Hend.
Qed.

Lemma feed_spec chunks items tail d :
  decoder_wf d -> items_ok items -> eols tail -> Z.of_nat (length (buf d) + length (concat chunks)) <= U64_MAX ->
  rest d ++ concat chunks = stream items tail -> (chunks = [] -> items = [] /\ rest d = []) ->
  exists d', feed d chunks = Some (d', items.*2) /\ rest d' = [].
Proof.
  revert items tail d. induction chunks as [|c chunks IH]; intros items tail d Hd Hi Ht Hmax Hr Hend.
  - destruct (Hend eq_refl) as [-> Hn]. by exists d.
  - simpl in Hmax, Hr. cbn [feed].
    assert (Hrp : rest (push c d) = rest d ++ c) by (unfold rest, push; simpl; by apply drop_app_le).
    destruct (drain_spec items tail (S (length (rest (push c d)))) (push c d) (concat chunks))
      as (d' & fs & items' & tail' & -> & Hfs & Hok & Ht' & Hr' & Hd' & Hl' & Hmore); try done.
    { unfold decoder_wf, push in *. simpl. rewrite length_app. lia. }
    { simpl. rewrite length_app in *. lia. }
    { by rewrite Hrp, <- app_assoc. }
    { lia. }
    destruct (IH items' tail' d') as (d'' & -> & Hr''); try done.
    { simpl in Hl'. rewrite length_app in *. lia. }
    { intros ->. by apply Hmore. }
    exists d''. simpl. by rewrite Hfs.
Qed.

(** ** Any input *)

Lemma header_loop_cursor fuel b cursor hs hs' cursor' :
  (cursor <= length b)%nat -> header_loop fuel b cursor hs = HDone hs' cursor' ->
  (cursor <= cursor' <= length b)%nat.
Proof.
  revert cursor hs. induction fuel as [|fuel IH]; intros cursor hs Hc; [done|].
  rewrite header_loop_S. destruct (position LF (drop cursor b)) as [nl|] eqn:Hnl; [|done].
  assert (Hb : (cursor + nl + 1 <= length b)%nat).
  { apply position_Some in Hnl as (l & r & Hl & <- & _). apply (f_equal length) in Hl.
    rewrite length_drop, length_app in Hl. simpl in Hl. lia. }
  destruct (strip_cr _); [intros [= <- <-]; lia|]. destruct (decode_line _); [|done].
  intros Hd. specialize (IH _ _ Hb Hd). lia.
Qed.

Lemma decode_body_end b cursor hs bd fin :
  (cursor <= length b)%nat -> decode_body b cursor hs = BDone bd fin ->
  (cursor < fin <= length b)%nat.
Proof.
  intros Hc. unfold decode_body. destruct (headers_content_length hs) as [n|].
  - destruct (Z.leb_spec (Z.of_nat (length b)) (usize_add (Z.of_nat cursor) n)); [done|].
    destruct (negb _); [done|].
    destruct (Z.ltb_spec (usize_add (Z.of_nat cursor) n) (Z.of_nat cursor)); [done|].
    intros [= <- <-]. lia.
  - destruct (position NULL (drop cursor b)) as [k|] eqn:Hk; [|done]. intros [= <- <-].
    apply position_Some in Hk as (l & r & Hl & <- & _). apply (f_equal length) in Hl.
    rewrite length_drop, length_app in Hl. simpl in Hl. lia.
Qed.

Lemma decode_at_state d nl cmd :
  ((decode_at d nl cmd).1 = d /\ forall f, (decode_at d nl cmd).2 <> Decoded f) \/
  exists f fin, (pos d + nl + 1 <= length (buf d) -> pos d + nl + 1 < fin <= length (buf d))%nat /\
    decode_at d nl cmd = (compact (mkDecoder (buf d) fin), Decoded f).
Proof.
  unfold decode_at. destruct (negb _); [by left|].
  destruct (header_loop _ _ _ _) as [hs cursor| |] eqn:Hh; [|by left|by left]. cbv zeta.
  destruct (decode_body _ _ _) as [bd fin| | |] eqn:Hb; [|by left..]. right. eexists _, fin.
  split; [|done]. intros Hc. apply header_loop_cursor in Hh; [|done].
  apply decode_body_end in Hb; lia.
Qed.

Lemma parse_digits_nonneg acc s n : 0 <= acc -> parse_digits acc s = Some n -> 0 <= n.
Proof.
  revert acc. induction s as [|c s IH]; intros acc Ha; cbn [parse_digits]; [by intros [= <-]|].
  destruct (Z.leb_spec 0 (byte_val c - 48)); [|done]. simpl.
  destruct (byte_val c - 48 <=? 9); [|done]. destruct (_ <=? U64_MAX); [|done]. apply IH. lia.
Qed.

Lemma content_length_nonneg hs n : headers_content_length hs = Some n -> 0 <= n.
Proof.
  unfold headers_content_length. destruct (find_header _ _) as [v|]; [|done]. simpl.
  unfold parse_usize. destruct (as_bytes (trim v)) as [|c r]; [done|].
  destruct (byte_val c =? 43); [destruct r; [done|]|]; by apply parse_digits_nonneg.
Qed.

(** Header components survive escaping: decoding the encoded form of any
    string gives it back, and the encoded form contains no line feed, carriage
    return or colon, so it cannot break the line it is in. *)
Theorem header_roundtrip s :
  str_valid s ->
  decode_header (encode_header s) = Ok s /\
  Forall (fun c => c <> LF /\ c <> CR /\ c <> COLON) (encode_header s).
Proof.
  intros Hs. split; [by apply decode_encode_header|]. apply Forall_forall.
  intros c Hc. by apply (escaped_clean (as_bytes s)).
Qed.

(** C6. Frames survive the wire: a frame whose command is non-empty, trimmed and
    on one line, and whose body is announced by a matching [content-length] (any
    bytes, NULL included) or is free of NULL and of a trailing EOL, is decoded
    exactly as it was encoded, whatever heartbeats precede it; precisely its
    bytes are consumed and what follows stays buffered. *)
Theorem frame_roundtrip d e f tail :
  decoder_wf d -> frame_ok f -> eols e -> Z.of_nat (length (buf d)) <= U64_MAX ->
  rest d = e ++ encode f ++ tail ->
  let '(d', o) := next_frame d in o = Decoded f /\ rest d' = tail /\ decoder_wf d'.
Proof.
  intros Hd Hf He Hmax Hr. pose proof (next_frame_full d e f tail Hd Hf He Hmax Hr) as Hfull.
  destruct (next_frame d). naive_solver.
Qed.

(** C7. Reassembly: however a stream of frames and heartbeats is cut into
    chunks (in the middle of commands, headers, escapes or bodies, or many
    frames at once), pushing the chunks and pulling frames after each yields
    exactly the frames sent, in order, without error, and leaves no byte
    behind. *)
Theorem stream_reassembly chunks items tail :
  items_ok items -> eols tail -> Z.of_nat (length (concat chunks)) <= U64_MAX ->
  concat chunks = stream items tail ->
  exists d', feed Decoder_new chunks = Some (d', items.*2) /\ rest d' = [].
Proof.
  intros Hi Ht Hmax Hc. apply (feed_spec chunks items tail Decoder_new); try done.
  - unfold decoder_wf. simpl. lia.
  - intros ->. split; [|done]. simpl in Hc. destruct items as [|[e f] items]; [done|].
    rewrite stream_cons in Hc. apply (f_equal length) in Hc. rewrite !length_app in Hc.
    pose proof (encode_length f). simpl in Hc. lia.
Qed.

(** What one call of [next_frame] does to the pending bytes. *)
Lemma next_frame_state d :
  decoder_wf d ->
  let '(d', o) := next_frame d in
  decoder_wf d' /\ exists used, rest d = used ++ rest d' /\
    match o with Decoded _ => used <> [] | _ => eols used end.
Proof.
  intros Hd. rewrite next_frame_eq by done. cbv zeta.
  destruct (skip_heartbeats_spec d Hd) as (Hd1 & Hr1 & Hl1). set (d1 := skip_heartbeats d) in *.
  assert (Hskip : exists used, rest d = used ++ rest d1 /\ eols used).
  { exists (take (count_eols (rest d)) (rest d)). rewrite Hr1, take_drop. split; [done|].
    clear. induction (rest d) as [|c s IH]; simpl; [constructor|].
    destruct (is_eol c) eqn:E; [by constructor|constructor]. }
  destruct (position LF (rest d1)) as [nl|] eqn:Hnl; [|by split].
  destruct (decode_at_state d1 nl (strip_cr (take nl (rest d1)))) as [[Hs Ho]|(f & fin & Hfin & ->)].
  - destruct (decode_at d1 nl _) as [d' o] eqn:E. simpl in Hs. subst d'. split; [done|].
    destruct Hskip as (used & Hu & He). exists used. split; [done|].
    destruct o as [f| | |]; try done. by destruct (Ho f).
  - assert (Hb : (pos d1 + nl + 1 <= length (buf d1))%nat).
    { apply position_Some in Hnl as (l & r & Hl & <- & _). apply (f_equal length) in Hl.
      rewrite (length_rest d1 Hd1). rewrite length_app in Hl. simpl in Hl. lia. }
    specialize (Hfin Hb). split; [apply compact_wf; unfold decoder_wf; simpl; lia|].
    destruct Hskip as (used & Hu & He). exists (used ++ take (fin - pos d1) (rest d1)).
    rewrite rest_compact, rest_drop. split.
    + rewrite Hu, <- app_assoc. f_equal. rewrite <- (take_drop (fin - pos d1) (rest d1)) at 1. f_equal.
      unfold rest. rewrite drop_drop. f_equal. lia.
    + intros [_ Hn]%app_eq_nil. apply (f_equal length) in Hn. rewrite length_take in Hn.
      rewrite (length_rest d1 Hd1) in Hb. simpl in Hn. lia.
Qed.

(** The decoder is safe on any input: its cursor stays inside the buffer, it
    consumes a prefix of the pending bytes, and unless it returns a frame that
    prefix consists of heartbeats, so neither waiting nor an error loses data;
    a returned frame consumes at least one byte. *)
Theorem next_frame_consumes d :
  decoder_wf d ->
  let '(d', o) := next_frame d in
  decoder_wf d' /\ exists used, rest d = used ++ rest d' /\
    match o with Decoded _ => used <> [] | _ => eols used end.
Proof. apply next_frame_state. Qed.

(** The only panic: [next_frame] panics only on a frame whose
    [content-length], added to the offset of its body, exceeds 2^64 - 1; and
    such a frame exists: with a [content-length] of 2^64 - 3 and a header value
    that is a NULL, the wrapped end of the body is that NULL. *)
Theorem next_frame_panic_iff :
  (forall d, decoder_wf d -> (next_frame d).2 = Panic ->
     exists hs n cursor, headers_content_length hs = Some n /\
       (cursor <= length (buf d))%nat /\ U64_MAX < Z.of_nat cursor + n) /\
  (next_frame (push (as_bytes "A" ++ [LF] ++ as_bytes "content-length:18446744073709551613" ++ [LF]
                     ++ as_bytes "a:" ++ [NULL; LF; LF]) Decoder_new)).2 = Panic.
Proof.
  split; [|by vm_compute]. intros d Hd. rewrite next_frame_eq by done. cbv zeta.
  destruct (skip_heartbeats_spec d Hd) as (Hd1 & _ & Hl1). set (d1 := skip_heartbeats d) in *.
  destruct (position LF (rest d1)) as [nl|] eqn:Hnl; [|done].
  assert (Hb : (pos d1 + nl + 1 <= length (buf d1))%nat).
  { apply position_Some in Hnl as (l & r & Hl & <- & _). apply (f_equal length) in Hl.
    rewrite (length_rest d1 Hd1). rewrite length_app in Hl. simpl in Hl. lia. }
  unfold decode_at. destruct (negb _); [done|].
  destruct (header_loop _ _ _ _) as [hs cursor| |] eqn:Hh; [|done|done]. cbv zeta.
  apply header_loop_cursor in Hh; [|done].
  unfold decode_body. destruct (headers_content_length hs) as [n|] eqn:Hn.
  2: { destruct (position NULL (drop cursor (buf d1))); cbn; intros [=]. }
  destruct (Z.of_nat (length (buf d1)) <=? _); [done|]. destruct (negb _); [done|].
  destruct (Z.ltb_spec (usize_add (Z.of_nat cursor) n) (Z.of_nat cursor)) as [Hlt|]; [|done].
  intros _. exists hs, n, cursor. split_and!; [done|lia|].
  destruct (decide (Z.of_nat cursor + n <= U64_MAX)); [|lia].
  assert (0 <= n) by (eapply content_length_nonneg; exact Hn).
  unfold usize_add in Hlt. rewrite wrap64_small in Hlt by (unfold in_u64; lia). lia.
Qed.

(** Headers behave as a case-insensitive map: after [set_header] the name
    reads back the new value and every other name is unchanged. *)
Theorem set_header_lookup name value f other :
  header name (set_header name value f) = Some value /\
  (eq_ignore_ascii_case name other = false -> header other (set_header name value f) = header other f).
Proof.
  unfold header, find_header, set_header. simpl. split.
  - induction (headers f) as [|[k v] hs IH]; csimpl.
    + rewrite decide_True by (unfold eq_ignore_ascii_case; by apply bool_decide_eq_true). done.
    + destruct (eq_ignore_ascii_case k name) eqn:E; csimpl.
      * rewrite decide_True by done. done.
      * rewrite decide_False by congruence. rewrite <- IH.
        by destruct (list_find _ (set_header_list name value hs)) as [[]|].
  - intros Hne. induction (headers f) as [|[k v] hs IH]; csimpl.
    + rewrite decide_False by congruence. done.
    + destruct (eq_ignore_ascii_case k name) eqn:E; csimpl.
      * assert (Hk : eq_ignore_ascii_case k other = false).
        { unfold eq_ignore_ascii_case in *. apply bool_decide_eq_true in E. by rewrite E. }
        rewrite !decide_False by congruence.
        by destruct (list_find _ hs) as [[]|].
      * case_decide; [done|]. destruct (list_find _ (set_header_list name value hs)) as [[]|],
          (list_find _ hs) as [[]|]; simpl in *; congruence.
Qed.

(** ** Witnesses *)

Definition sample_frame : Frame :=
  mkFrame "SEND" [("destination", "/queue/a:b"); ("content-length", "3")]%string
    ["h"%char; NULL; "i"%char].

Lemma sample_frame_ok : frame_ok sample_frame.
Proof.
  split_and!.
  - split_and!; [by vm_compute|done| |by vm_compute].
    apply (bool_decide_unpack _). by vm_compute.
  - apply Forall_cons. split; [by split; vm_compute|]. apply Forall_singleton. by split; vm_compute.
  - by vm_compute.
Qed.

Lemma header_roundtrip_witness :
  decode_header (encode_header "a:b\"%string) = Ok "a:b\"%string.
Proof. apply (header_roundtrip "a:b\"%string). by vm_compute. Defined.

Lemma frame_roundtrip_witness :
  let '(d', o) := next_frame (push ([LF] ++ encode sample_frame ++ as_bytes "REC") Decoder_new) in
  o = Decoded sample_frame /\ rest d' = as_bytes "REC".
Proof.
  pose proof (frame_roundtrip (push ([LF] ++ encode sample_frame ++ as_bytes "REC") Decoder_new)
                [LF] sample_frame (as_bytes "REC")) as Hf.
  destruct (next_frame _) as [d' o] eqn:E.
  destruct Hf as (Ho & Hr & _); [|apply sample_frame_ok| |by vm_compute|done|by split].
  - unfold decoder_wf. simpl. lia.
  - apply Forall_singleton. done.
Defined.

Lemma stream_reassembly_witness :
  exists d', feed Decoder_new [take 20 (encode sample_frame); drop 20 (encode sample_frame) ++ [LF]]
             = Some (d', [sample_frame]) /\ rest d' = [].
Proof.
  apply (stream_reassembly _ [([], sample_frame)] [LF]).
  - apply Forall_singleton. split; [constructor|apply sample_frame_ok].
  - by apply Forall_singleton.
  - by vm_compute.
  - by vm_compute.
Defined.

Lemma next_frame_consumes_witness :
  let '(d', o) := next_frame (push (as_bytes "SEND") Decoder_new) in
  decoder_wf d' /\ exists used, as_bytes "SEND" = used ++ rest d'.
Proof.
  pose proof (next_frame_consumes (push (as_bytes "SEND") Decoder_new)) as Hc.
  destruct (next_frame _) as [d' o]. destruct Hc as (Hd & used & Hu & _).
  - unfold decoder_wf. simpl. lia.
  - split; [done|]. by exists used.
Defined.
