(* ===== verification/StompEngine.v ===== *)
(** The STOMP engine and its worker session: [protocols/stomp.rs], on top of the
    frame codec.

    The network is a script ([Net]): what each connect, write and read of the
    session will answer, the clock readings, and the log of the bytes put on each
    connection.  Session code runs in a monad over the session and the script.
    When the script has no answer left, the call is pending, which is where the
    caller's deadline drops it; a write dropped half-way leaves a prefix of its
    bytes on the wire. *)

From coqutil Require Import Datatypes.RecordSetters.
From S2P Require Import Prelude RustStr Float Json Chaos Samples StompCodec LoadProfile Config LocalRun.
Import DoubleBraceUpdate.

#[local] Open Scope Z_scope.
#[local] Open Scope rust_scope.

(** ** Construction *)

Definition DEFAULT_STOMP_PORT : Z := 61613.
Definition MAX_FRAME_BYTES : Z := 16 * 1024 * 1024.

(** [s.split(['/', '?']).next()]. *)
Fixpoint before_path (s : bytes) : bytes :=
  match s with
  | c :: s => if Ascii.eqb c "/"%char || Ascii.eqb c "?"%char then [] else c :: before_path s
  | [] => []
  end.

(** [s.rsplit('@').next()]. *)
Fixpoint after_last_at (s : bytes) : bytes :=
  match s with
  | [] => []
  | c :: rest =>
      if Ascii.eqb c "@"%char then after_last_at rest
      else if bool_decide ("@"%char ∈ rest) then after_last_at rest
      else s
  end.

Definition parse_authority (url : string) : result string string :=
  rest ← match strip_prefix (as_bytes "stomp://") (as_bytes url) with
         | Some rest => Ok rest
         | None =>
             if str_starts_with "stomps://" url
             then Err "STOMP TLS (stomps://) is not yet supported; use stomp://"
             else Err ("unsupported STOMP URL scheme: " ++ url)
         end%string;
  let authority := after_last_at (before_path rest) in
  match authority with
  | [] => Err "STOMP URL is missing a host"
  | _ => Ok (if bool_decide (":"%char ∈ authority) then of_bytes authority
             else of_bytes authority ++ ":" ++ u64_to_string DEFAULT_STOMP_PORT)%string
  end.

Record StompEngine := mkStompEngine {
  se_authority : string;
  se_destination : string;
  se_mode : StompMode;
  se_ack : StompAck;
  se_receipt : bool;
  se_payload : bytes;
  se_headers : list (string * string);
  se_timeout : duration;
  se_chaos : ChaosEngine;
}.

Definition StompEngine_new (url destination : string) (mode : StompMode) (ack : StompAck)
    (receipt : bool) (payload : bytes) (headers : list (string * string)) (chaos : ChaosEngine)
    (timeout_secs : Z) : result string StompEngine :=
  if is_blank destination then Err "STOMP destination must not be empty" else
  authority ← parse_authority url;
  Ok {| se_authority := authority;
        se_destination := destination;
        se_mode := mode;
        se_ack := ack;
        se_receipt := receipt;
        se_payload := payload;
        se_headers := headers;
        se_timeout := from_secs (Z.max timeout_secs 1);
        se_chaos := chaos |}.

(** A persistent, per-worker session.  The stream is the number of the
    connection it stands for. *)
Record StompSession := mkStompSession {
  ss_authority : string;
  ss_destination : string;
  ss_ack : StompAck;
  ss_receipt : bool;
  ss_payload : bytes;
  ss_headers : list (string * string);
  ss_timeout : duration;
  ss_stream : option nat;
  ss_decoder : Decoder;
  ss_connected : bool;
  ss_subscribed : bool;
  ss_ever_connected : bool;
  ss_reconnected_this_iteration : bool;
  ss_subscribed_at : option Z;
  ss_last_message_at : option Z;
  ss_saw_first_message : bool;
  ss_receipt_seq : Z;
}.

Definition new_session (e : StompEngine) : StompSession := {|
  ss_authority := se_authority e;
  ss_destination := se_destination e;
  ss_ack := se_ack e;
  ss_receipt := se_receipt e;
  ss_payload := se_payload e;
  ss_headers := se_headers e;
  ss_timeout := se_timeout e;
  ss_stream := None;
  ss_decoder := Decoder_new;
  ss_connected := false;
  ss_subscribed := false;
  ss_ever_connected := false;
  ss_reconnected_this_iteration := false;
  ss_subscribed_at := None;
  ss_last_message_at := None;
  ss_saw_first_message := false;
  ss_receipt_seq := 0;
|}.

Definition ack_frame (id : string) : Frame := with_header "id" id (Frame_new "ACK").

Definition reset (s : StompSession) : StompSession :=
  s{{ ss_stream := None; ss_decoder := Decoder_new; ss_connected := false; ss_subscribed := false;
      ss_subscribed_at := None; ss_last_message_at := None; ss_saw_first_message := false }}.

(** ** The network script *)

(** An awaited operation under [tokio::time::timeout]. *)
Inductive IoResult (A : Type) :=
  | IoOk (a : A)
  | IoTimeout
  | IoErr (e : string).
Arguments IoOk {A} a.
Arguments IoTimeout {A}.
Arguments IoErr {A} e.

(** A write completes, or stops with [n] bytes on the wire: at its own timeout,
    at a socket error, or because the caller dropped it. *)
Inductive WriteAnswer :=
  | WriteOk
  | WriteTimedOut (n : nat)
  | WriteFailed (n : nat) (e : string)
  | WriteDropped (n : nat).

Record Net := mkNet {
  nt_connects : list (IoResult ());
  nt_writes : list WriteAnswer;
  nt_reads : list (IoResult bytes);
  nt_clock : nat -> Z;
  nt_ticks : nat;
  nt_conns : nat;
  nt_wire : list (nat * bytes);
}.

Inductive Run (A : Type) :=
  | Ret (a : A)
  | Fail (e : string)
  | Pending
  | Panicked.
Arguments Ret {A} a.
Arguments Fail {A} e.
Arguments Pending {A}.
Arguments Panicked {A}.

Record World := mkWorld { w_sess : StompSession; w_net : Net }.

Definition M (A : Type) : Type := World -> Run A * World.

#[export] Instance M_ret : MRet M := fun _ a w => (Ret a, w).
#[export] Instance M_bind : MBind M := fun _ _ k m w =>
  match m w with
  | (Ret a, w) => k a w
  | (Fail e, w) => (Fail e, w)
  | (Pending, w) => (Pending, w)
  | (Panicked, w) => (Panicked, w)
  end.

Definition throw {A} (e : string) : M A := fun w => (Fail e, w).
Definition get_session : M StompSession := fun w => (Ret (w_sess w), w).
Definition modify (f : StompSession -> StompSession) : M () :=
  fun w => (Ret (), mkWorld (f (w_sess w)) (w_net w)).

(** [Instant::now()]. *)
Definition now : M Z := fun w =>
  let n := w_net w in
  (Ret (nt_clock n (nt_ticks n)), mkWorld (w_sess w) (n{{ nt_ticks := S (nt_ticks n) }})).

(** [start.elapsed()], saturating at zero. *)
Definition elapsed (start : Z) : M duration := t ← now; mret (u_saturating_sub t start).

(** [match self.op().await { Err(e) => on_error, Ok(v) => v }]. *)
Definition catch {A B} (m : M A) (on_ok : A -> M B) (on_error : string -> M B) : M B := fun w =>
  match m w with
  | (Ret a, w) => on_ok a w
  | (Fail e, w) => on_error e w
  | (Pending, w) => (Pending, w)
  | (Panicked, w) => (Panicked, w)
  end.

(** ** Session operations *)

(** The rest of the wire after writing on connection [c]. *)
Definition put_wire (c : nat) (b : bytes) (n : Net) : Net := n{{ nt_wire := nt_wire n ++ [(c, b)] }}.

Definition write_frame (b : bytes) : M () := fun w =>
  let s := w_sess w in
  let n := w_net w in
  match ss_stream s with
  | None => (Fail "STOMP session not connected", w)
  | Some c =>
      match nt_writes n with
      | [] => (Pending, w)
      | answer :: rest =>
          let n := n{{ nt_writes := rest }} in
          match answer with
          | WriteOk => (Ret (), mkWorld s (put_wire c b n))
          | WriteTimedOut k =>
              (Fail "STOMP write timed out", mkWorld s (put_wire c (take k b) n))
          | WriteFailed k e =>
              (Fail ("STOMP write failed: " ++ e)%string, mkWorld s (put_wire c (take k b) n))
          | WriteDropped k => (Pending, mkWorld s (put_wire c (take k b) n))
          end
      end
  end.

Definition set_decoder (d : Decoder) (s : StompSession) : StompSession := s{{ ss_decoder := d }}.

(** The loop of [read_frame] over the reads of the script. *)
Fixpoint read_loop (connected : bool) (reads : list (IoResult bytes)) (d : Decoder)
  : Run Frame * Decoder * list (IoResult bytes) :=
  match next_frame d with
  | (d, Decoded frame) => (Ret frame, d, reads)
  | (d, DecodeError e) =>
      (Fail ("STOMP protocol error: " ++ CodecError_to_string e)%string, d, reads)
  | (d, Panic) => (Panicked, d, reads)
  | (d, NeedMore) =>
      if MAX_FRAME_BYTES <? pending d then (Fail "STOMP frame exceeds maximum size", d, reads)
      else if negb connected then (Fail "STOMP session not connected", d, reads)
      else match reads with
           | [] => (Pending, d, [])
           | IoTimeout :: reads => (Fail "STOMP read timed out", d, reads)
           | IoErr e :: reads => (Fail ("STOMP read failed: " ++ e)%string, d, reads)
           | IoOk [] :: reads => (Fail "STOMP connection closed by broker", d, reads)
           | IoOk chunk :: reads => read_loop connected reads (push chunk d)
           end
  end.

Definition read_frame : M Frame := fun w =>
  let '(r, d, reads) :=
    read_loop (is_some (ss_stream (w_sess w))) (nt_reads (w_net w)) (ss_decoder (w_sess w)) in
  (r, mkWorld (set_decoder d (w_sess w)) ((w_net w){{ nt_reads := reads }})).

(** The bytes the session may still decode; every frame consumes some. *)
Definition unread (w : World) : nat :=
  length (rest (ss_decoder (w_sess w))) +
  sum_list_with (fun r => match r with IoOk b => length b | _ => 0%nat end) (nt_reads (w_net w)).

(** The receive loops of [connect], [await_receipt] and [await_message]: read
    frames until [select] settles on one. *)
Fixpoint read_until_fuel {A} (fuel : nat) (select : Frame -> option (M A)) : M A :=
  match fuel with
  | O => fun w => (Pending, w)
  | S fuel =>
      frame ← read_frame;
      match select frame with
      | Some k => k
      | None => read_until_fuel fuel select
      end
  end.

Definition read_until {A} (select : Frame -> option (M A)) : M A :=
  fun w => read_until_fuel (S (unread w)) select w.

(** The message of an ERROR frame. *)
Definition error_message (otherwise : string) (frame : Frame) : string :=
  default otherwise (header "message" frame).

Definition open_stream : M () := fun w =>
  let n := w_net w in
  match nt_connects n with
  | [] => (Pending, w)
  | IoTimeout :: rest =>
      (Fail "STOMP connect timed out", mkWorld (w_sess w) (n{{ nt_connects := rest }}))
  | IoErr e :: rest =>
      (Fail ("STOMP connect failed: " ++ e)%string, mkWorld (w_sess w) (n{{ nt_connects := rest }}))
  | IoOk _ :: rest =>
      (Ret (), mkWorld ((w_sess w){{ ss_stream := Some (nt_conns n); ss_decoder := Decoder_new }})
                 (n{{ nt_connects := rest; nt_conns := S (nt_conns n) }}))
  end.

Definition connect_frame : Frame :=
  with_header "heart-beat" "0,0" (with_header "host" "/" (with_header "accept-version" "1.2"
    (Frame_new "CONNECT"))).

Definition mark_connected (s : StompSession) : StompSession :=
  s{{ ss_reconnected_this_iteration := ss_ever_connected s || ss_reconnected_this_iteration s;
      ss_ever_connected := true; ss_connected := true }}.

Definition on_connect_frame (frame : Frame) : option (M ()) :=
  if String.eqb (command frame) "CONNECTED" then Some (modify mark_connected)
  else if String.eqb (command frame) "ERROR"
  then Some (_ ← modify reset; throw (error_message "broker rejected CONNECT" frame))
  else None.

Definition connect : M () :=
  _ ← open_stream;
  _ ← write_frame (encode connect_frame);
  read_until on_connect_frame.

Definition ensure_connected : M () :=
  s ← get_session;
  if ss_connected s then mret () else connect.

Definition subscribe_frame (s : StompSession) : Frame :=
  with_header "ack" (StompAck_as_str (ss_ack s)) (with_header "destination" (ss_destination s)
    (with_header "id" "sub-0" (Frame_new "SUBSCRIBE"))).

Definition ensure_subscribed : M () :=
  s ← get_session;
  if ss_subscribed s then mret () else
  _ ← write_frame (encode (subscribe_frame s));
  t ← now;
  modify (fun s => s{{ ss_subscribed := true; ss_subscribed_at := Some t;
                       ss_last_message_at := None; ss_saw_first_message := false }}).

Definition on_receipt_frame (receipt_id : string) (frame : Frame) : option (M ()) :=
  if String.eqb (command frame) "RECEIPT" && bool_decide (header "receipt-id" frame = Some receipt_id)
  then Some (mret ())
  else if String.eqb (command frame) "RECEIPT" then None
  else if String.eqb (command frame) "ERROR"
  then Some (throw (error_message "broker returned ERROR" frame))
  else None.

Definition await_receipt (receipt_id : string) : M () := read_until (on_receipt_frame receipt_id).

Definition on_message_frame (frame : Frame) : option (M (Z * option string)) :=
  if String.eqb (command frame) "MESSAGE"
  then Some (mret (Z.of_nat (length (body frame)),
                   match header "ack" frame with
                   | Some id => Some id
                   | None => header "message-id" frame
                   end))
  else if String.eqb (command frame) "ERROR"
  then Some (throw (error_message "broker returned ERROR" frame))
  else None.

Definition await_message : M (Z * option string) := read_until on_message_frame.

(** The payload, its first byte incremented by the chaos fault. *)
Definition input_payload (s : StompSession) (fault : option ChaosFault) : bytes :=
  match fault, ss_payload s with
  | Some CorruptedPayload, first :: rest => ch ((byte_val first + 1) mod 256) :: rest
  | _, payload => payload
  end.

Definition stomp_sample (sent received bytes_sent bytes_received errors reconnects : Z)
  (send_latency interval ttfm : option Z) : StompSample :=
  mkStompSample sent received bytes_sent bytes_received errors reconnects send_latency interval ttfm.

Definition reconnects_of (s : StompSession) : Z := if ss_reconnected_this_iteration s then 1 else 0.

Definition micros_u64 (d : duration) : Z := wrap64 (as_micros d).

(** [self.error_metric(start, chaos_fault)]. *)
Definition stomp_error_metric (start : Z) (fault : option ChaosFault) : M RequestMetric :=
  s ← get_session;
  d ← elapsed start;
  mret (b_stomp (Some (stomp_sample 0 0 0 0 1 (reconnects_of s) None None None))
          (b_status 0 (builder (as_micros d) fault))).

(** [self.reset(); return self.error_metric(..)]. *)
Definition fail_iteration (start : Z) (fault : option ChaosFault) : M RequestMetric :=
  _ ← modify reset; stomp_error_metric start fault.

(** The SEND frame: destination, user headers, chaos mark, then the length of
    the body; a receipt is asked for last. *)
Definition send_frame (s : StompSession) (fault : option ChaosFault) (receipt_id : option string)
  : Frame :=
  let bd := input_payload s fault in
  let f := with_header "destination" (ss_destination s) (Frame_new "SEND") in
  let f := foldl (fun f '(name, value) => set_header name value f) f (ss_headers s) in
  let f := match fault with
           | Some MetadataCorruption => set_header "x-chaos" "metadata-corruption" f
           | _ => f
           end in
  let f := set_header "content-length" (u64_to_string (Z.of_nat (length bd))) f in
  let f := with_body bd f in
  match receipt_id with Some id => set_header "receipt" id f | None => f end.

(** [self.receipt_seq += 1; format!("r-{}", self.receipt_seq)], if enabled. *)
Definition next_receipt : M (option string) :=
  s ← get_session;
  if ss_receipt s then
    let seq := ss_receipt_seq s +! 1 in
    _ ← modify (fun s => s{{ ss_receipt_seq := seq }});
    mret (Some ("r-" ++ u64_to_string seq)%string)
  else mret None.

Definition produce (fault : option ChaosFault) : M RequestMetric :=
  start ← now;
  catch ensure_connected (fun _ =>
    receipt_id ← next_receipt;
    s ← get_session;
    let b := encode (send_frame s fault receipt_id) in
    let bytes_sent := Z.of_nat (length b) in
    write_start ← now;
    catch (write_frame b) (fun _ =>
      catch (match receipt_id with
             | Some id => _ ← await_receipt id; elapsed start
             | None => elapsed write_start
             end) (fun latency =>
        s ← get_session;
        d ← elapsed start;
        mret (b_stomp (Some (stomp_sample 1 0 bytes_sent 0 0 (reconnects_of s)
                               (Some (micros_u64 latency)) None None))
                (b_status 200 (builder (as_micros d) fault))))
      (fun _ => fail_iteration start fault))
    (fun _ => fail_iteration start fault))
  (fun _ => fail_iteration start fault).

(** [now.duration_since(t).as_micros() as u64]. *)
Definition micros_between (t now : Z) : Z := micros_u64 (u_saturating_sub now t).

(** The two timings of a received message, and the session that remembers it. *)
Definition message_timings (now : Z) (s : StompSession) : option Z * option Z * StompSession :=
  let ttfm := if ss_saw_first_message s then None
              else (fun t => micros_between t now) <$> ss_subscribed_at s in
  let interval := (fun t => micros_between t now) <$> ss_last_message_at s in
  (ttfm, interval, s{{ ss_saw_first_message := true; ss_last_message_at := Some now }}).

Definition send_ack (ack_id : option string) : M () :=
  s ← get_session;
  match ss_ack s, ack_id with
  | AckAuto, _ | _, None => mret ()
  | _, Some id => write_frame (encode (ack_frame id))
  end.

Definition consume (fault : option ChaosFault) : M RequestMetric :=
  start ← now;
  catch ensure_connected (fun _ =>
    catch ensure_subscribed (fun _ =>
      catch await_message (fun '(body_len, ack_id) =>
        t ← now;
        s ← get_session;
        let '(ttfm, interval, s') := message_timings t s in
        _ ← modify (fun _ => s');
        catch (send_ack ack_id) (fun _ =>
          s ← get_session;
          d ← elapsed start;
          mret (b_stomp (Some (stomp_sample 0 1 0 body_len 0 (reconnects_of s) None interval ttfm))
                  (b_bytes body_len (b_status 200 (builder (as_micros d) fault)))))
        (fun _ => fail_iteration start fault))
      (fun _ => fail_iteration start fault))
    (fun _ => fail_iteration start fault))
  (fun _ => fail_iteration start fault).

(** One iteration, with the chaos draws of the engine. *)
Definition stomp_run_iteration (e : StompEngine) (draw : f32) (pick : Z) : M RequestMetric :=
  let fault := select_fault (se_chaos e) draw pick in
  match fault with
  | Some ConnectionDrop => _ ← modify reset; mret (error_metric 0 fault)
  | _ =>
      _ ← modify (fun s => s{{ ss_reconnected_this_iteration := false }});
      match se_mode e with
      | Produce => produce fault
      | Consume => consume fault
      end
  end.

(** [shutdown]: DISCONNECT if connected, then drop the stream whatever the
    outcome of the write. *)
Definition stomp_shutdown : M () :=
  s ← get_session;
  _ ← (if ss_connected s && is_some (ss_stream s)
       then catch (write_frame (encode (Frame_new "DISCONNECT"))) (fun _ => mret ()) (fun _ => mret ())
       else mret ());
  modify (fun s => s{{ ss_stream := None; ss_connected := false }}).

(** The engine behind the interface of the workers: a call runs on a script and
    the chaos draws. *)
Definition call_result (r : Run RequestMetric) : CallResult :=
  match r with
  | Ret m => Returned m
  | Fail _ | Pending => NotFinished
  | Panicked => Crashed
  end.

#[export] Instance stomp_engine (e : StompEngine) : ProtocolEngine | 10 := {|
  pe_session := StompSession;
  pe_io := Net * f32 * Z;
  execute_iteration := fun _ '(net, draw, pick) =>
    call_result (stomp_run_iteration e draw pick (mkWorld (new_session e) net)).1;
  create_worker_context := fun _ => Some (new_session e);
  iteration_with_context := fun _ '(net, draw, pick) s =>
    let '(r, w) := stomp_run_iteration e draw pick (mkWorld s net) in (call_result r, w_sess w);
|}.

(** ** Lemmas: reading frames *)

Definition unread_of (d : Decoder) (reads : list (IoResult bytes)) : nat :=
  length (rest d) +
  sum_list_with (fun r => match r with IoOk b => length b | _ => 0%nat end) reads.

Lemma rest_push c d : decoder_wf d -> rest (push c d) = rest d ++ c.
Proof. intros Hd. unfold rest, push, decoder_wf in *. simpl. apply drop_app_le. lia. Qed.

Lemma push_wf c d : decoder_wf d -> decoder_wf (push c d).
Proof. unfold decoder_wf, push. simpl. rewrite length_app. lia. Qed.

(** Reading keeps the decoder well-formed and consumes bytes for every frame. *)
Lemma read_loop_state connected reads d :
  decoder_wf d ->
  let '(r, d', reads') := read_loop connected reads d in
  decoder_wf d' /\ (unread_of d' reads' <= unread_of d reads)%nat /\
  match r with Ret _ => (unread_of d' reads' < unread_of d reads)%nat | _ => True end.
Proof.
  revert d. induction reads as [|x reads IH]; intros d Hd; simpl;
    pose proof (next_frame_state d Hd) as Hn; destruct (next_frame d) as [d1 o];
    destruct Hn as (Hd1 & used & Hu & Ho);
    assert (Hlen : length (rest d) = (length used + length (rest d1))%nat)
      by (by rewrite Hu, length_app);
    unfold unread_of.
  - destruct o as [f| |e|]; simpl; try (split_and!; [done|lia|done]).
    + destruct used; [done|]. simpl in *. split_and!; [done|lia|lia].
    + destruct (MAX_FRAME_BYTES <? pending d1); [split_and!; [done|simpl; lia|done]|].
      destruct (negb connected); split_and!; done || (simpl; lia).
  - destruct o as [f| |e|]; simpl; try (split_and!; [done|lia|done]).
    { destruct used; [done|]. simpl in *. split_and!; [done|lia|lia]. }
    destruct (MAX_FRAME_BYTES <? pending d1); [split_and!; [done|simpl; lia|done]|].
    destruct (negb connected); [split_and!; [done|simpl; lia|done]|].
    destruct x as [b| |e]; try (split_and!; [done|simpl; lia|done]).
    destruct b as [|a b]; [split_and!; [done|simpl; lia|done]|].
    specialize (IH (push (a :: b) d1) (push_wf _ _ Hd1)).
    destruct (read_loop connected reads (push (a :: b) d1)) as [[r d'] reads'].
    destruct IH as (Hd' & Hle & Hr). unfold unread_of in *.
    rewrite (rest_push (a :: b) d1 Hd1), length_app in Hle, Hr. split_and!; [done|lia|].
    destruct r; try done. lia.
Qed.

(** The session a read leaves differs only in the decoder. *)
Lemma read_frame_state w :
  decoder_wf (ss_decoder (w_sess w)) ->
  let '(r, w') := read_frame w in
  decoder_wf (ss_decoder (w_sess w')) /\
  w_sess w' = set_decoder (ss_decoder (w_sess w')) (w_sess w) /\
  w_net w' = (w_net w){{ nt_reads := nt_reads (w_net w') }} /\
  match r with Ret _ => (unread w' < unread w)%nat | _ => True end.
Proof.
  intros Hd. unfold read_frame.
  pose proof (read_loop_state (is_some (ss_stream (w_sess w))) (nt_reads (w_net w)) _ Hd) as Hl.
  destruct (read_loop _ _ _) as [[r d'] reads']. destruct Hl as (Hd' & _ & Hr).
  split_and!; try done.
Qed.

(** Frames read one after the other. *)
Inductive frames_read : World -> list Frame -> World -> Prop :=
  | fr_nil w : frames_read w [] w
  | fr_cons w f w1 fs w2 :
      read_frame w = (Ret f, w1) -> frames_read w1 fs w2 -> frames_read w (f :: fs) w2.

Definition world_wf (w : World) : Prop := decoder_wf (ss_decoder (w_sess w)).

Lemma read_frame_wf w r w' : world_wf w -> read_frame w = (r, w') -> world_wf w'.
Proof. intros Hw E. pose proof (read_frame_state w Hw) as Hs. rewrite E in Hs. by destruct Hs. Qed.

Lemma read_frame_unread w f w' :
  world_wf w -> read_frame w = (Ret f, w') -> (unread w' < unread w)%nat.
Proof. intros Hw E. pose proof (read_frame_state w Hw) as Hs. rewrite E in Hs. by destruct Hs as (_&_&_&?). Qed.

(** Any fuel beyond the unread bytes gives the same run. *)
Lemma read_until_fuel_enough {A} (select : Frame -> option (M A)) n m w :
  world_wf w -> (unread w < n)%nat -> (unread w < m)%nat ->
  read_until_fuel n select w = read_until_fuel m select w.
Proof.
  revert m w. induction n as [|n IH]; intros m w Hw Hn Hm; [lia|].
  destruct m as [|m]; [lia|]. simpl. unfold mbind, M_bind.
  destruct (read_frame w) as [[f| | |] w1] eqn:E; try done.
  destruct (select f); [done|].
  pose proof (read_frame_unread _ _ _ Hw E). apply IH; [by eapply read_frame_wf|lia|lia].
Qed.

(** The loop without fuel. *)
Lemma read_until_eq {A} (select : Frame -> option (M A)) w :
  world_wf w ->
  read_until select w =
  (frame ← read_frame; match select frame with Some k => k | None => read_until select end) w.
Proof.
  intros Hw. unfold read_until at 1. cbn [read_until_fuel]. unfold mbind, M_bind.
  destruct (read_frame w) as [[f| | |] w1] eqn:E; try done.
  destruct (select f); [done|]. unfold read_until.
  pose proof (read_frame_unread _ _ _ Hw E).
  apply read_until_fuel_enough; [by eapply read_frame_wf|lia|lia].
Qed.

(** The frames skipped, then the one settled on or the reason reading stopped. *)
Lemma read_until_spec {A} (select : Frame -> option (M A)) w :
  world_wf w ->
  exists skipped w1 r w2,
    frames_read w skipped w1 /\ Forall (fun f => select f = None) skipped /\
    read_frame w1 = (r, w2) /\
    match r with
    | Ret f => exists k, select f = Some k /\ read_until select w = k w2
    | Fail e => read_until select w = (Fail e, w2)
    | Pending => read_until select w = (Pending, w2)
    | Panicked => read_until select w = (Panicked, w2)
    end.
Proof.
  remember (unread w) as n eqn:Hn. revert w Hn.
  induction (lt_wf n) as [n _ IH]. intros w -> Hw. rewrite read_until_eq by done.
  unfold mbind, M_bind. destruct (read_frame w) as [r w1] eqn:E.
  destruct r as [f|e| |].
  2-4: exists []; exists w; eexists; exists w1; rewrite E; split_and!; try constructor; reflexivity.
  destruct (select f) as [k|] eqn:Ek.
  { exists [], w, (Ret f), w1. split_and!; try done; [constructor|]. by exists k. }
  destruct (IH (unread w1) (read_frame_unread _ _ _ Hw E) w1 eq_refl (read_frame_wf _ _ _ Hw E))
    as (sk & w2 & r & w3 & Hfr & Hsk & Hr & Hres).
  exists (f :: sk), w2, r, w3. split_and!; try done.
  - by econstructor.
  - by constructor.
Qed.
