(* ===== verification/StompSession.v ===== *)
(** Properties of STOMP sessions ([StompEngine]): the session invariant on every
    path, dropped calls included; errors reset the session; receipts.  What is
    on the wire, and what the broker makes of it, is in [StompWire]. *)

From coqutil Require Import Datatypes.RecordSetters.
From S2P Require Import Prelude RustStr Float Json Chaos Samples StompCodec LoadProfile Config LocalRun.
From S2P Require Import StompEngine.
Import DoubleBraceUpdate.

#[local] Open Scope Z_scope.
#[local] Open Scope rust_scope.

#[local] Arguments constant {_} _ /.

(** ** A Hoare logic for session code

    [hoare P m Q E D]: from a world in [P], a returned value satisfies [Q], a
    failure leaves [E], a pending or panicked call leaves [D]. *)

Definition hoare {A} (P : World -> Prop) (m : M A) (Q : A -> World -> Prop) (E D : World -> Prop)
  : Prop :=
  forall w, P w ->
  match m w with
  | (Ret a, w') => Q a w'
  | (Fail _, w') => E w'
  | (Pending, w') | (Panicked, w') => D w'
  end.

Section rules.
Implicit Types (P E D : World -> Prop).

Lemma hoare_ret {A} (a : A) P Q E D : (forall w, P w -> Q a w) -> hoare P (mret a) Q E D.
Proof. intros HQ w Hw. simpl. auto. Qed.

Lemma hoare_bind {A B} (m : M A) (k : A -> M B) P R Q E D :
  hoare P m R E D -> (forall a, hoare (R a) (k a) Q E D) -> hoare P (m ≫= k) Q E D.
Proof.
  intros Hm Hk w Hw. specialize (Hm w Hw). unfold mbind, M_bind.
  destruct (m w) as [[] w']; try done. by apply Hk.
Qed.

Lemma hoare_catch {A B} (m : M A) (k : A -> M B) h P R Q E E' D :
  hoare P m R E' D -> (forall a, hoare (R a) (k a) Q E D) -> (forall e, hoare E' (h e) Q E D) ->
  hoare P (catch m k h) Q E D.
Proof.
  intros Hm Hk Hh w Hw. specialize (Hm w Hw). unfold catch.
  destruct (m w) as [[] w']; try done; [by apply Hk|by apply Hh].
Qed.

Lemma hoare_weaken {A} (m : M A) P P' Q Q' E E' D D' :
  hoare P m Q E D -> (forall w, P' w -> P w) -> (forall a w, Q a w -> Q' a w) ->
  (forall w, E w -> E' w) -> (forall w, D w -> D' w) -> hoare P' m Q' E' D'.
Proof.
  intros Hm HP HQ HE HD w Hw. specialize (Hm w (HP w Hw)).
  destruct (m w) as [[] w']; auto.
Qed.

Lemma hoare_pre {A} (m : M A) P P' Q E D :
  hoare P m Q E D -> (forall w, P' w -> P w) -> hoare P' m Q E D.
Proof. intros Hm HP w Hw. by apply Hm, HP. Qed.

Lemma hoare_get P Q E D :
  (forall w, P w -> Q (w_sess w) w) -> hoare P get_session Q E D.
Proof. intros HQ w Hw. by apply HQ. Qed.

Lemma hoare_modify f P Q E D :
  (forall w, P w -> Q () (mkWorld (f (w_sess w)) (w_net w))) -> hoare P (modify f) Q E D.
Proof. intros HQ w Hw. by apply HQ. Qed.

Lemma hoare_throw {A} (msg : string) P (Q : A -> World -> Prop) E D :
  (forall w, P w -> E w) -> hoare P (throw msg) Q E D.
Proof. intros HE w Hw. by apply HE. Qed.

(** Reading until a frame is settled on, when the precondition survives reads. *)
Lemma hoare_read_until {A} (select : Frame -> option (M A)) P Q E D :
  (forall w r w', P w -> read_frame w = (r, w') -> P w') ->
  (forall w, P w -> world_wf w /\ E w /\ D w) ->
  (forall f k, select f = Some k -> hoare P k Q E D) ->
  hoare P (read_until select) Q E D.
Proof.
  intros HP HE Hk w Hw.
  destruct (read_until_spec select w) as (sk & w1 & r & w2 & Hfr & _ & Hr & Hres); [by apply HE|].
  assert (Hw1 : P w1).
  { clear -Hfr HP Hw. induction Hfr; [done|]. eauto. }
  assert (Hw2 : P w2) by eauto.
  destruct r as [f|e| |].
  - destruct Hres as (k & Hsel & ->). by apply (Hk f).
  - rewrite Hres. by apply HE.
  - rewrite Hres. by apply HE.
  - rewrite Hres. by apply HE.
Qed.
End rules.

(** ** The invariant *)

(** What was written on connection [c], in order. *)
Definition written (c : nat) (wire : list (nat * bytes)) : list bytes :=
  snd <$> filter (fun p => p.1 = c) wire.

Arguments written : simpl never.

Lemma written_app c l k : written c (l ++ k) = written c l ++ written c k.
Proof. unfold written. by rewrite filter_app, fmap_app. Qed.

Lemma written_one c c' b : written c [(c', b)] = if decide (c' = c) then [b] else [].
Proof. unfold written. rewrite filter_cons. simpl. case_decide; done. Qed.

(** Nothing, an unfinished CONNECT, or a complete CONNECT and then the rest. *)
Definition handshake_first (log : list bytes) : Prop :=
  log = [] \/ (exists k, log = [take k (encode connect_frame)]) \/
  (exists rest, log = encode connect_frame :: rest).

Definition handshaken (log : list bytes) : Prop := exists rest, log = encode connect_frame :: rest.

(** The log only names connections that were opened, and each starts with the
    handshake. *)
Definition wire_ok (n : Net) : Prop :=
  Forall (fun p => (p.1 < nt_conns n)%nat) (nt_wire n) /\
  (forall c, handshake_first (written c (nt_wire n))).

Record session_inv (e : StompEngine) (w : World) : Prop := {
  si_wf : world_wf w;
  si_wire : wire_ok (w_net w);
  si_stream : forall c, ss_stream (w_sess w) = Some c -> (c < nt_conns (w_net w))%nat;
  si_connected : ss_connected (w_sess w) = true ->
    exists c, ss_stream (w_sess w) = Some c /\ handshaken (written c (nt_wire (w_net w)));
  si_subscribed : ss_subscribed (w_sess w) = true ->
    ss_connected (w_sess w) = true /\ is_Some (ss_subscribed_at (w_sess w));
  si_first : ss_saw_first_message (w_sess w) = true -> ss_subscribed (w_sess w) = true;
  si_last : is_Some (ss_last_message_at (w_sess w)) <-> ss_saw_first_message (w_sess w) = true;
  si_config : ss_destination (w_sess w) = se_destination e /\ ss_headers (w_sess w) = se_headers e /\
    ss_payload (w_sess w) = se_payload e /\ ss_receipt (w_sess w) = se_receipt e /\
    ss_ack (w_sess w) = se_ack e;
}.

(** A session as [reset] leaves it. *)
Definition is_reset (s : StompSession) : Prop :=
  ss_stream s = None /\ ss_decoder s = Decoder_new /\ ss_connected s = false /\
  ss_subscribed s = false /\ ss_subscribed_at s = None /\ ss_last_message_at s = None /\
  ss_saw_first_message s = false.

Lemma reset_is_reset s : is_reset (reset s).
Proof. by split_and!. Qed.

Lemma inv_reset e w : session_inv e w -> session_inv e (mkWorld (reset (w_sess w)) (w_net w)).
Proof.
  intros [Hwf Hwire Hs Hc Hsub Hf Hl Hcfg]. constructor; simpl; try done.
  all: first [by split; [intros [? [=]]|] | unfold world_wf, decoder_wf; simpl; lia].
Qed.

(** Reads only touch the decoder and the script. *)
Lemma inv_read e w r w' :
  session_inv e w -> read_frame w = (r, w') ->
  session_inv e w' /\ ss_connected (w_sess w') = ss_connected (w_sess w) /\
  ss_stream (w_sess w') = ss_stream (w_sess w) /\ ss_subscribed (w_sess w') = ss_subscribed (w_sess w) /\
  nt_wire (w_net w') = nt_wire (w_net w) /\ nt_conns (w_net w') = nt_conns (w_net w) /\
  ss_receipt_seq (w_sess w') = ss_receipt_seq (w_sess w) /\
  ss_ever_connected (w_sess w') = ss_ever_connected (w_sess w).
Proof.
  intros [Hwf Hwire Hs Hc Hsub Hf Hl Hcfg] E. pose proof (read_frame_state w Hwf) as Hr.
  rewrite E in Hr. destruct Hr as (Hwf' & Hsess & Hnet & _).
  destruct w' as [s' n']. simpl in *. rewrite Hnet, Hsess. simpl. split_and!; done.
Qed.

(** Time only moves the clock. *)
Lemma inv_now e w a w' :
  session_inv e w -> now w = (a, w') -> session_inv e w' /\ w_sess w' = w_sess w /\
  nt_wire (w_net w') = nt_wire (w_net w) /\ exists t, a = Ret t.
Proof.
  intros [Hwf Hwire Hs Hc Hsub Hf Hl Hcfg] [= <- <-]. simpl. split_and!; try done. eauto.
Qed.

Arguments put_wire : simpl never.

Lemma wire_put c b n : nt_wire (put_wire c b n) = nt_wire n ++ [(c, b)].
Proof. done. Qed.
Lemma conns_put c b n : nt_conns (put_wire c b n) = nt_conns n.
Proof. done. Qed.

(** Appending to a connection that completed its handshake. *)
Lemma handshake_append c b n :
  wire_ok n -> (c < nt_conns n)%nat -> handshaken (written c (nt_wire n)) ->
  wire_ok (put_wire c b n) /\ handshaken (written c (nt_wire (put_wire c b n))).
Proof.
  intros [Hlt Hhs] Hc [rest Hr]. unfold wire_ok. rewrite wire_put, conns_put. split; [split|].
  - apply Forall_app. split; [done|]. by constructor.
  - intros c'. rewrite written_app, written_one. case_decide as Hd; [subst c'|].
    + rewrite Hr. right. right. by eexists.
    + rewrite app_nil_r. apply Hhs.
  - rewrite written_app, written_one, decide_True, Hr by done. by eexists.
Qed.

(** ** Each operation keeps the invariant *)

Section operations.
Context (e : StompEngine).

Definition connected_inv (w : World) : Prop := session_inv e w /\ ss_connected (w_sess w) = true.

(** The last write went out in full on the session's stream. *)
Definition just_wrote (b : bytes) (w : World) : Prop :=
  exists c, ss_stream (w_sess w) = Some c /\ last (nt_wire (w_net w)) = Some (c, b).

Lemma inv_wire w n :
  session_inv e w -> wire_ok n -> nt_conns n = nt_conns (w_net w) ->
  (forall c, handshaken (written c (nt_wire (w_net w))) -> handshaken (written c (nt_wire n))) ->
  session_inv e (mkWorld (w_sess w) n).
Proof.
  intros [Hwf Hwire Hs Hc Hsub Hf Hl Hcfg] Hn Hconns Hhs. constructor; try done.
  - intros c Hst. simpl. rewrite Hconns. by apply Hs.
  - intros Hcon. destruct (Hc Hcon) as (c & ? & ?). exists c. split; [done|]. by apply Hhs.
Qed.

(** Writing on a connected session, completely or not. *)
Lemma put_connected w c b n :
  connected_inv w -> ss_stream (w_sess w) = Some c ->
  nt_wire n = nt_wire (w_net w) -> nt_conns n = nt_conns (w_net w) ->
  connected_inv (mkWorld (w_sess w) (put_wire c b n)).
Proof.
  intros [Hinv Hcon] Hst Hw Hn. pose proof Hinv as [Hwf Hwire Hs Hc Hsub Hf Hl Hcfg].
  destruct (Hc Hcon) as (c' & Hst' & Hhs). rewrite Hst in Hst'. injection Hst' as <-.
  assert (Hwn : wire_ok n) by (unfold wire_ok in *; by rewrite Hw, Hn).
  destruct (handshake_append c b n Hwn) as [Hok Hhs']; [rewrite Hn; by apply Hs|by rewrite Hw|].
  split; [|done]. apply inv_wire; try done.
  intros c'' [r Hr]. rewrite wire_put, written_app, Hw, Hr. by eexists.
Qed.

Lemma write_spec b P :
  (forall w, P w -> connected_inv w) ->
  (forall w n, P w -> connected_inv (mkWorld (w_sess w) n) -> P (mkWorld (w_sess w) n)) ->
  hoare P (write_frame b) (fun _ w => P w /\ just_wrote b w) (session_inv e) (session_inv e).
Proof.
  intros HP Hn w Hw. pose proof (HP w Hw) as [Hinv Hcon]. unfold write_frame.
  destruct (si_connected _ _ Hinv Hcon) as (c & Hst & _). rewrite Hst.
  destruct (nt_writes (w_net w)) as [|a rest]; [done|].
  set (n := (w_net w){{ nt_writes := rest }}).
  assert (Hput : forall b, connected_inv (mkWorld (w_sess w) (put_wire c b n)))
    by (intros; by apply put_connected).
  destruct a as [|k|k msg|k]; try apply Hput.
  split; [by apply Hn|]. exists c. split; [done|]. cbn [w_net]. rewrite wire_put. by rewrite last_snoc.
Qed.

Lemma inv_open w :
  session_inv e w -> ss_connected (w_sess w) = false ->
  match open_stream w with
  | (Ret _, w') => session_inv e w' /\ ss_connected (w_sess w') = false /\
      exists c, ss_stream (w_sess w') = Some c /\ written c (nt_wire (w_net w')) = []
  | (_, w') => session_inv e w'
  end.
Proof.
  intros Hinv Hcon. pose proof Hinv as [Hwf [Hlt Hhs] Hs Hc Hsub Hf Hl Hcfg]. unfold open_stream.
  destruct (nt_connects (w_net w)) as [|[[]| |msg] rest]; try (by constructor).
  assert (Hsub' : ss_subscribed (w_sess w) = false)
    by (destruct (ss_subscribed (w_sess w)) eqn:E; [destruct (Hsub eq_refl); congruence|done]).
  split_and!; [|done|].
  - constructor; simpl; try done.
    + unfold world_wf, decoder_wf. simpl. lia.
    + split; [|done]. eapply Forall_impl; [exact Hlt|]. simpl. lia.
    + intros c [= <-]. lia.
    + destruct (w_sess w); simpl in *; congruence.
  - exists (nt_conns (w_net w)). split; [done|]. simpl. unfold written.
    rewrite filter_none; [done|]. intros p Hp E. rewrite Forall_forall in Hlt.
    specialize (Hlt p Hp). lia.
Qed.

(** Between CONNECT and CONNECTED. *)
Definition connecting (w : World) : Prop :=
  session_inv e w /\ ss_connected (w_sess w) = false /\
  exists c, ss_stream (w_sess w) = Some c /\ handshaken (written c (nt_wire (w_net w))).

Lemma handshake_spec :
  hoare (fun w => session_inv e w /\ ss_connected (w_sess w) = false /\
           exists c, ss_stream (w_sess w) = Some c /\ written c (nt_wire (w_net w)) = [])
    (write_frame (encode connect_frame)) (fun _ => connecting) (session_inv e) (session_inv e).
Proof.
  intros w (Hinv & Hcon & c & Hst & Hnil). unfold write_frame. rewrite Hst.
  destruct (nt_writes (w_net w)) as [|a rest]; [done|].
  set (n := (w_net w){{ nt_writes := rest }}).
  assert (Hput : forall b, (exists k, b = take k (encode connect_frame)) ->
            session_inv e (mkWorld (w_sess w) (put_wire c b n))).
  { intros b Hb. pose proof Hinv as [_ [Hlt Hhs] Hs _ _ _ _ _]. apply inv_wire; try done.
    - split; rewrite wire_put, ?conns_put.
      + apply Forall_app. split; [done|]. constructor; [by apply Hs|constructor].
      + intros c'. rewrite written_app, written_one. change (nt_wire n) with (nt_wire (w_net w)).
        case_decide as Hd; [subst c'|rewrite app_nil_r; apply Hhs].
        rewrite Hnil. destruct Hb as [k ->]. right. left. by exists k.
    - intros c' [r Hr]. rewrite wire_put, written_app. change (nt_wire n) with (nt_wire (w_net w)).
      rewrite Hr. by eexists. }
  destruct a as [|k|k msg|k]; try (apply Hput; by eexists).
  split; [|split; [done|]].
  - apply Hput. exists (length (encode connect_frame)). by rewrite firstn_all.
  - exists c. split; [done|]. cbn [w_net]. rewrite wire_put, written_app, written_one, decide_True by done.
    change (nt_wire n) with (nt_wire (w_net w)). rewrite Hnil. by eexists.
Qed.

Lemma connecting_read w r w' : connecting w -> read_frame w = (r, w') -> connecting w'.
Proof.
  intros (Hinv & Hcon & c & Hst & Hhs) E. destruct (inv_read e w r w' Hinv E) as (H1 & H2 & H3 & _ & H5 & _).
  split; [done|]. split; [congruence|]. exists c. by rewrite H3, H5.
Qed.

Lemma mark_connected_inv w :
  connecting w -> connected_inv (mkWorld (mark_connected (w_sess w)) (w_net w)).
Proof.
  intros ([Hwf Hwire Hs Hc Hsub Hf Hl Hcfg] & Hcon & c & Hst & Hhs). split; [|done].
  constructor; try done.
  - intros _. by exists c.
  - intros E. split; [done|]. by apply Hsub.
Qed.

Lemma connect_spec :
  hoare (fun w => session_inv e w /\ ss_connected (w_sess w) = false) connect
    (fun _ => connected_inv) (session_inv e) (session_inv e).
Proof.
  unfold connect. eapply hoare_bind.
  { intros w [Hinv Hcon]. pose proof (inv_open w Hinv Hcon) as Ho.
    destruct (open_stream w) as [[] w']; exact Ho. }
  intros []. eapply hoare_bind; [apply handshake_spec|]. intros [].
  apply hoare_read_until.
  - apply connecting_read.
  - intros w (Hinv & _). split_and!; [apply (si_wf _ _ Hinv)|done|done].
  - intros f k Hk. unfold on_connect_frame in Hk. repeat case_match; simplify_eq.
    + apply hoare_modify, mark_connected_inv.
    + eapply (hoare_bind _ _ _ (fun _ => session_inv e)).
      * apply hoare_modify. intros w (Hinv & _). by apply inv_reset.
      * intros []. by apply hoare_throw.
Qed.

Lemma ensure_connected_spec :
  hoare (session_inv e) ensure_connected (fun _ => connected_inv) (session_inv e) (session_inv e).
Proof.
  intros w Hinv. unfold ensure_connected, get_session, mbind, M_bind.
  destruct (ss_connected (w_sess w)) eqn:E; [by split|]. by apply (connect_spec w).
Qed.

Lemma fail_iteration_spec start fault (D : World -> Prop) :
  hoare (session_inv e) (fail_iteration start fault)
    (fun m w => session_inv e w /\ is_reset (w_sess w) /\ status_code m = 0) (fun _ => False) D.
Proof.
  intros w Hinv. cbn. split; [|by split].
  exact (proj1 (inv_now e _ _ _ (inv_reset e w Hinv) eq_refl)).
Qed.

Lemma now_keeps (P : World -> Prop) :
  (forall w n, P w -> nt_wire n = nt_wire (w_net w) -> nt_conns n = nt_conns (w_net w) ->
     P (mkWorld (w_sess w) n)) ->
  forall (E D : World -> Prop), hoare P now (fun _ => P) E D.
Proof. intros HP E D w Hw. unfold now. by apply HP. Qed.

Lemma inv_same_wire w n :
  session_inv e w -> nt_wire n = nt_wire (w_net w) -> nt_conns n = nt_conns (w_net w) ->
  session_inv e (mkWorld (w_sess w) n).
Proof.
  intros Hinv Hw Hn. apply inv_wire; try done; [|intros c; by rewrite Hw].
  unfold wire_ok. rewrite Hw, Hn. apply Hinv.
Qed.

Lemma connected_same_wire w n :
  connected_inv w -> nt_wire n = nt_wire (w_net w) -> nt_conns n = nt_conns (w_net w) ->
  connected_inv (mkWorld (w_sess w) n).
Proof. intros [Hinv Hc] Hw Hn. split; [by apply inv_same_wire|done]. Qed.

Lemma connected_read w r w' : connected_inv w -> read_frame w = (r, w') -> connected_inv w'.
Proof.
  intros [Hinv Hc] E. destruct (inv_read e w r w' Hinv E) as (H1 & H2 & _). split; [done|congruence].
Qed.

(** *** One produce iteration *)

Lemma send_frame_config s fault rid :
  ss_destination s = se_destination e -> ss_headers s = se_headers e -> ss_payload s = se_payload e ->
  send_frame s fault rid = send_frame (new_session e) fault rid.
Proof. unfold send_frame, input_payload. simpl. by intros -> -> ->. Qed.

Definition receipt_of (rid : option string) : Prop :=
  is_some rid = se_receipt e /\
  forall id, rid = Some id -> exists n, id = ("r-" ++ u64_to_string n)%string.

Definition sent_frame (fault : option ChaosFault) (rid : option string) (w : World) : Prop :=
  just_wrote (encode (send_frame (new_session e) fault rid)) w.

Definition produce_post (fault : option ChaosFault) (m : RequestMetric) (w : World) : Prop :=
  session_inv e w /\
  (status_code m = 0 /\ is_reset (w_sess w) \/
   status_code m = 200 /\ is_error m = false /\ ss_connected (w_sess w) = true /\
   exists rid s, receipt_of rid /\ sent_frame fault rid w /\
     rm_stomp m = Some s /\ sts_messages_sent s = 1 /\
     sts_bytes_sent s = Z.of_nat (length (encode (send_frame (new_session e) fault rid)))).

Lemma failed_post fault m w :
  session_inv e w /\ is_reset (w_sess w) /\ status_code m = 0 -> produce_post fault m w.
Proof. intros (? & ? & ?). split; auto. Qed.

Lemma on_error_spec fault start (D : World -> Prop) (msg : string) :
  hoare (session_inv e) (fail_iteration start fault) (produce_post fault) (fun _ => False) D.
Proof.
  eapply hoare_weaken; [apply fail_iteration_spec| | | |]; try done.
  intros m w. apply failed_post.
Qed.

Lemma next_receipt_spec (E D : World -> Prop) :
  hoare connected_inv next_receipt (fun rid w => connected_inv w /\ receipt_of rid) E D.
Proof.
  intros w [Hinv Hc]. unfold next_receipt, get_session, mbind, M_bind.
  pose proof (si_config _ _ Hinv) as (_ & _ & _ & Hr & _). rewrite Hr. unfold receipt_of.
  destruct (se_receipt e) eqn:Er; [|by split]. split; [|split; [done|]].
  - split; [|done]. destruct Hinv. by constructor.
  - intros id [= <-]. by eexists.
Qed.

Lemma sent_read fault rid w r w' :
  (connected_inv w /\ sent_frame fault rid w) -> read_frame w = (r, w') ->
  connected_inv w' /\ sent_frame fault rid w'.
Proof.
  intros [[Hinv Hc] (c & Hst & Hl)] E.
  destruct (inv_read e w r w' Hinv E) as (H1 & H2 & H3 & _ & H5 & _).
  split; [split; [done|congruence]|]. exists c. by rewrite H3, H5.
Qed.

Lemma sent_same_wire fault rid w n :
  (connected_inv w /\ sent_frame fault rid w) ->
  nt_wire n = nt_wire (w_net w) -> nt_conns n = nt_conns (w_net w) ->
  connected_inv (mkWorld (w_sess w) n) /\ sent_frame fault rid (mkWorld (w_sess w) n).
Proof.
  intros [Hc (c & Hst & Hl)] Hw Hn. split; [by apply connected_same_wire|].
  exists c. simpl. by rewrite Hw.
Qed.

Lemma elapsed_keeps (P : World -> Prop) start (E D : World -> Prop) :
  (forall w n, P w -> nt_wire n = nt_wire (w_net w) -> nt_conns n = nt_conns (w_net w) ->
     P (mkWorld (w_sess w) n)) ->
  hoare P (elapsed start) (fun _ => P) E D.
Proof.
  intros HP. unfold elapsed. eapply hoare_bind; [by apply now_keeps|].
  intros t. by apply hoare_ret.
Qed.

Lemma await_receipt_spec fault rid id :
  hoare (fun w => connected_inv w /\ sent_frame fault rid w) (await_receipt id)
    (fun _ w => connected_inv w /\ sent_frame fault rid w) (session_inv e) (session_inv e).
Proof.
  apply hoare_read_until.
  - intros w r w'. apply sent_read.
  - intros w [[Hinv _] _]. split_and!; [apply (si_wf _ _ Hinv)|done|done].
  - intros f k Hk. unfold on_receipt_frame in Hk. repeat case_match; simplify_eq.
    + by apply hoare_ret.
    + apply hoare_throw. by intros w [[? _] _].
Qed.

Lemma produce_spec fault :
  hoare (session_inv e) (produce fault) (produce_post fault) (fun _ => False) (session_inv e).
Proof.
  unfold produce. eapply hoare_bind; [apply now_keeps, inv_same_wire|]. intros start.
  eapply hoare_catch; [apply ensure_connected_spec| |intros msg; by apply on_error_spec]. intros [].
  eapply hoare_bind; [apply next_receipt_spec|]. intros rid.
  eapply (hoare_bind _ _ _ (fun s w => (connected_inv w /\ receipt_of rid) /\ s = w_sess w)).
  { by apply hoare_get. }
  intros s. eapply (hoare_bind _ _ _ (fun _ w => (connected_inv w /\ receipt_of rid) /\ s = w_sess w)).
  { apply now_keeps. intros w n [[Hc Hr] Hs] Hw Hn. split; [|done]. split; [|done].
    by apply connected_same_wire. }
  intros ws.
  eapply (hoare_catch _ _ _ _ (fun _ w => ((connected_inv w /\ receipt_of rid) /\ s = w_sess w) /\
    just_wrote (encode (send_frame s fault rid)) w)); [|intros []|intros msg; by apply on_error_spec].
  { apply write_spec; [by intros w [[? _] _]|].
    intros w n [[_ Hr] Hs] Hc. split; [|done]. by split. }
  apply (hoare_pre _ (fun w => (connected_inv w /\ sent_frame fault rid w) /\
    receipt_of rid /\ send_frame s fault rid = send_frame (new_session e) fault rid)).
  2: { intros w [[[Hc Hr] Hs] (c & Hst & Hl)].
       assert (Hsf : send_frame s fault rid = send_frame (new_session e) fault rid).
       { subst s. destruct Hc as [Hinv _]. destruct (si_config _ _ Hinv) as (H1 & H2 & H3 & _).
         by apply send_frame_config. }
       split; [|done]. split; [done|]. exists c. by rewrite Hl, Hsf. }
  intros w (Hw & Hrid & Hsf). rewrite Hsf. clear Hsf s. revert w Hw.
  eapply hoare_catch; [|intros latency|intros msg; by apply on_error_spec].
  { destruct rid as [id|].
    - eapply hoare_bind; [apply await_receipt_spec|]. intros []. apply elapsed_keeps, sent_same_wire.
    - apply elapsed_keeps, sent_same_wire. }
  eapply (hoare_bind _ _ _ (fun _ w => connected_inv w /\ sent_frame fault rid w));
    [by apply hoare_get|]. intros s'.
  eapply hoare_bind; [apply elapsed_keeps, sent_same_wire|]. intros d. apply hoare_ret.
  intros w [[Hinv Hc] Hsent]. split; [done|]. right. split_and!; try done. by eexists rid, _.
Qed.

(** *** One consume iteration *)

Definition subscribed_inv (w : World) : Prop :=
  connected_inv w /\ ss_subscribed (w_sess w) = true.

Lemma subscribed_same_wire w n :
  subscribed_inv w -> nt_wire n = nt_wire (w_net w) -> nt_conns n = nt_conns (w_net w) ->
  subscribed_inv (mkWorld (w_sess w) n).
Proof. intros [Hc Hs] Hw Hn. split; [by apply connected_same_wire|done]. Qed.

Lemma subscribed_read w r w' : subscribed_inv w -> read_frame w = (r, w') -> subscribed_inv w'.
Proof.
  intros [[Hinv Hc] Hs] E. destruct (inv_read e w r w' Hinv E) as (H1 & H2 & _ & H4 & _).
  split; [split; [done|]|]; congruence.
Qed.

Lemma ensure_subscribed_spec :
  hoare connected_inv ensure_subscribed (fun _ => subscribed_inv) (session_inv e) (session_inv e).
Proof.
  unfold ensure_subscribed.
  eapply (hoare_bind _ _ _ (fun s w => connected_inv w /\ s = w_sess w)); [by apply hoare_get|].
  intros s. destruct (ss_subscribed s) eqn:E.
  { apply hoare_ret. intros w [Hc ->]. by split. }
  eapply (hoare_bind _ _ _ (fun _ => connected_inv)).
  { eapply hoare_weaken; [apply (write_spec _ connected_inv)| | | |]; try done.
    - by intros w [? _].
    - by intros [] w [? _]. }
  intros []. eapply (hoare_bind _ _ _ (fun _ => connected_inv)); [apply now_keeps, connected_same_wire|].
  intros t. apply hoare_modify. intros w [[Hwf Hwire Hs Hc Hsub Hf Hl Hcfg] Hcon].
  split; [|done]. split; [|done]. constructor; simpl; done || (by split; [intros [? [=]]|]).
Qed.

Lemma await_message_spec :
  hoare subscribed_inv await_message (fun _ => subscribed_inv) (session_inv e) (session_inv e).
Proof.
  apply hoare_read_until; [apply subscribed_read| |].
  - intros w [[Hinv _] _]. split_and!; [apply (si_wf _ _ Hinv)|done|done].
  - intros f k Hk. unfold on_message_frame in Hk. repeat case_match; simplify_eq.
    1,2: by apply hoare_ret.
    apply hoare_throw. by intros w [[? _] _].
Qed.

(** Exactly one of the two timings is reported: the time to the first message
    of the subscription, or the interval since the previous one. *)
Definition one_timing (ttfm interval : option Z) : Prop := is_some ttfm = negb (is_some interval).

Lemma message_timings_spec t w :
  subscribed_inv w ->
  let '(ttfm, interval, s) := message_timings t (w_sess w) in
  one_timing ttfm interval /\ subscribed_inv (mkWorld s (w_net w)).
Proof.
  intros [[[Hwf Hwire Hs Hc Hsub Hf Hl Hcfg] Hcon] Hss]. unfold message_timings, one_timing. split.
  - destruct (Hsub Hss) as [_ [t0 ->]].
    destruct (ss_saw_first_message (w_sess w)) eqn:E.
    + destruct (proj2 Hl eq_refl) as [t1 ->]. done.
    + destruct (ss_last_message_at (w_sess w)) eqn:E'; [|done].
      by discriminate (proj1 Hl ltac:(eauto)).
  - split; [|done]. split; [|done]. by constructor.
Qed.

Definition consume_post (m : RequestMetric) (w : World) : Prop :=
  session_inv e w /\
  (status_code m = 0 /\ is_reset (w_sess w) \/
   status_code m = 200 /\ is_error m = false /\ ss_subscribed (w_sess w) = true /\
   exists s, rm_stomp m = Some s /\ sts_messages_received s = 1 /\
     sts_bytes_received s = rm_bytes_received m /\
     one_timing (sts_ttfm_us s) (sts_receive_interval_us s)).

Lemma on_consume_error fault start (D : World -> Prop) (msg : string) :
  hoare (session_inv e) (fail_iteration start fault) consume_post (fun _ => False) D.
Proof.
  eapply hoare_weaken; [apply fail_iteration_spec| | | |]; try done.
  intros m w (? & ? & ?). split; auto.
Qed.

Lemma send_ack_spec id :
  hoare subscribed_inv (send_ack id) (fun _ => subscribed_inv) (session_inv e) (session_inv e).
Proof.
  unfold send_ack. eapply (hoare_bind _ _ _ (fun _ => subscribed_inv)); [by apply hoare_get|].
  intros s.
  assert (Hw : forall b, hoare subscribed_inv (write_frame b) (fun _ => subscribed_inv)
                 (session_inv e) (session_inv e)).
  { intros b. eapply hoare_weaken; [apply (write_spec b subscribed_inv)| | | |]; try done.
    - by intros w [? _].
    - by intros w n [_ ?].
    - by intros [] w [? _]. }
  destruct (ss_ack s), id; auto; by apply hoare_ret.
Qed.

Lemma consume_spec fault :
  hoare (session_inv e) (consume fault) consume_post (fun _ => False) (session_inv e).
Proof.
  unfold consume. eapply hoare_bind; [apply now_keeps, inv_same_wire|]. intros start.
  eapply hoare_catch; [apply ensure_connected_spec| |intros msg; by apply on_consume_error]. intros [].
  eapply hoare_catch; [apply ensure_subscribed_spec| |intros msg; by apply on_consume_error]. intros [].
  eapply hoare_catch; [apply await_message_spec| |intros msg; by apply on_consume_error].
  intros [len id]. eapply hoare_bind; [apply now_keeps, subscribed_same_wire|]. intros t.
  eapply (hoare_bind _ _ _ (fun s w => subscribed_inv w /\ s = w_sess w)); [by apply hoare_get|].
  intros s. destruct (message_timings t s) as [[ttfm interval] s'] eqn:Et.
  apply (hoare_pre _ (fun w => (subscribed_inv (mkWorld s' (w_net w))) /\ one_timing ttfm interval)).
  2: { intros w [Hw ->]. pose proof (message_timings_spec t w Hw) as Hm. rewrite Et in Hm. naive_solver. }
  intros w [Hw Hone]. revert w Hw.
  eapply (hoare_bind _ _ _ (fun _ => subscribed_inv)); [by apply hoare_modify|]. intros [].
  eapply hoare_catch; [apply send_ack_spec| |intros msg; by apply on_consume_error]. intros [].
  eapply (hoare_bind _ _ _ (fun _ => subscribed_inv)); [by apply hoare_get|]. intros s1.
  eapply hoare_bind; [apply elapsed_keeps, subscribed_same_wire|]. intros d. apply hoare_ret.
  intros w [[Hinv Hc] Hs]. split; [done|]. right. split_and!; try done. by eexists.
Qed.

(** *** One iteration *)

Definition iteration_post (fault : option ChaosFault) (m : RequestMetric) (w : World) : Prop :=
  session_inv e w /\
  (is_error m = true /\ is_reset (w_sess w) \/
   is_error m = false /\ status_code m = 200 /\ ss_connected (w_sess w) = true).

Lemma iteration_spec draw pick :
  hoare (session_inv e) (stomp_run_iteration e draw pick)
    (iteration_post (select_fault (se_chaos e) draw pick)) (fun _ => False) (session_inv e).
Proof.
  unfold stomp_run_iteration. set (fault := select_fault _ _ _). clearbody fault.
  assert (Hrun : hoare (session_inv e)
    (_ ← modify (fun s => s{{ ss_reconnected_this_iteration := false }});
     match se_mode e with Produce => produce fault | Consume => consume fault end)
    (iteration_post fault) (fun _ => False) (session_inv e)).
  { eapply (hoare_bind _ _ _ (fun _ => session_inv e)).
    { apply hoare_modify. intros w [Hwf Hwire Hs Hc Hsub Hf Hl Hcfg]. by constructor. }
    intros []. destruct (se_mode e).
    - eapply hoare_weaken; [apply produce_spec| | | |]; try done.
      intros m w [Hinv [[H0 Hr]|(H2 & He & Hc & _)]]; (split; [done|]); [left|right; done].
      unfold is_error. by rewrite H0.
    - eapply hoare_weaken; [apply consume_spec| | | |]; try done.
      intros m w [Hinv [[H0 Hr]|(H2 & He & Hs & _)]]; (split; [done|]); [left|right].
      + unfold is_error. by rewrite H0.
      + split_and!; try done. by apply (si_subscribed _ _ Hinv). }
  destruct fault as [[]|]; try exact Hrun.
  intros w Hinv. split; [by apply (inv_reset e w)|]. left. by split_and!.
Qed.
End operations.

(** ** The SEND frame *)

Lemma set_header_valid name value hs :
  str_valid name -> str_valid value -> Forall header_valid hs ->
  Forall header_valid (set_header_list name value hs).
Proof.
  intros Hn Hv. induction 1 as [|[k v] hs [Hk Hkv] Hhs IH]; simpl.
  - constructor; [by split|constructor].
  - destruct (eq_ignore_ascii_case k name); constructor; done || by split.
Qed.

Definition engine_valid (e : StompEngine) : Prop :=
  str_valid (se_destination e) /\ Forall header_valid (se_headers e).

(** The frame before the length and the receipt. *)
Lemma user_headers_valid e (f : Frame) :
  Forall header_valid (se_headers e) -> Forall header_valid (headers f) ->
  Forall header_valid (headers (foldl (fun f '(name, value) => set_header name value f) f (se_headers e))).
Proof.
  intros He. revert f. induction He as [|[k v] hs [Hk Hv] Hhs IH]; intros f Hf; simpl; [done|].
  apply IH. by apply set_header_valid.
Qed.

Lemma user_headers_command hs (f : Frame) :
  command (foldl (fun f '(name, value) => set_header name value f) f hs) = command f.
Proof. revert f. induction hs as [|[k v] hs IH]; intros f; simpl; [done|]. by rewrite IH. Qed.

Lemma digits_valid s : Forall is_digit (as_bytes s) -> str_valid s.
Proof.
  unfold str_valid. generalize (as_bytes s) as b. induction 1 as [|c b Hc Hb IH]; [done|].
  unfold is_digit in Hc. rewrite utf8_valid_ascii by lia. done.
Qed.

Definition receipt_valid (rid : option string) : Prop := forall id, rid = Some id -> str_valid id.

(** The headers the engine sets itself cannot be overridden by the user's. *)
Lemma send_frame_facts e fault rid :
  let f := send_frame (new_session e) fault rid in
  command f = "SEND"%string /\
  body f = input_payload (new_session e) fault /\
  header "content-length" f = Some (u64_to_string (Z.of_nat (length (body f)))) /\
  (forall id, rid = Some id -> header "receipt" f = Some id).
Proof.
  intros f.
  assert (Hb : body f = input_payload (new_session e) fault) by (unfold f, send_frame; by destruct rid).
  split; [|split; [done|split]].
  - unfold f, send_frame. destruct rid; simpl; destruct fault as [[]|]; simpl;
      by rewrite user_headers_command.
  - rewrite Hb. unfold f, send_frame.
    set (g := set_header "content-length" _ _).
    assert (Hg : header "content-length" (with_body (input_payload (new_session e) fault) g) =
      Some (u64_to_string (Z.of_nat (length (input_payload (new_session e) fault)))))
      by exact (proj1 (set_header_lookup "content-length" _ _ "")).
    destruct rid as [id|]; [|done].
    rewrite (proj2 (set_header_lookup "receipt" id _ "content-length")); done.
  - intros id ->. exact (proj1 (set_header_lookup "receipt" id _ "")).
Qed.

Lemma send_frame_ok e fault rid :
  engine_valid e -> receipt_valid rid -> Z.of_nat (length (se_payload e)) <= U64_MAX ->
  frame_ok (send_frame (new_session e) fault rid).
Proof.
  intros [Hd Hh] Hrid Hlen. destruct (send_frame_facts e fault rid) as (Hc & Hb & Hcl & _).
  set (f := send_frame (new_session e) fault rid) in *. split; [|split].
  - rewrite Hc. split_and!; [done|done| |done]. vm_compute. set_solver.
  - unfold f, send_frame. set (g := foldl _ _ _).
    assert (Hg : Forall header_valid (headers g)).
    { apply user_headers_valid; [done|]. apply set_header_valid; done. }
    set (h := match fault with Some MetadataCorruption => _ | _ => g end).
    assert (Hh' : Forall header_valid (headers h)).
    { unfold h. destruct fault as [[]|]; try done. by apply set_header_valid. }
    assert (Hl : Forall header_valid (set_header_list "content-length"
        (u64_to_string (Z.of_nat (length (input_payload (new_session e) fault)))) (headers h))).
    { apply set_header_valid; [done|apply digits_valid, u64_to_string_digits|done]. }
    destruct rid as [id|]; [apply set_header_valid; auto; done|done].
  - unfold body_ok, content_length, headers_content_length.
    change (find_header "content-length" (headers f)) with (header "content-length" f).
    rewrite Hcl. simpl. rewrite parse_u64_to_string; [done|].
    rewrite Hb. unfold input_payload, in_u64. simpl.
    destruct fault as [[]|], (se_payload e); simpl in *; lia.
Qed.

(** ** Delivery: the broker's frames reach the session *)

Definition oks (chunks : list bytes) : list (IoResult bytes) := IoOk <$> chunks.

(** A frame spread over the buffer and the coming reads is returned, and what
    follows it is left for later. *)
Lemma read_loop_delivers chunks d h f after :
  decoder_wf d -> frame_ok f -> eols h -> Forall (fun c => c <> []) chunks ->
  rest d ++ concat chunks = h ++ encode f ++ after ->
  Z.of_nat (length (buf d) + length (concat chunks)) <= MAX_FRAME_BYTES ->
  exists d' chunks', read_loop true (oks chunks) d = (Ret f, d', oks chunks') /\
    decoder_wf d' /\ Forall (fun c => c <> []) chunks' /\ rest d' ++ concat chunks' = after /\
    Z.of_nat (length (buf d') + length (concat chunks')) <= MAX_FRAME_BYTES.
Proof.
  revert d h. induction chunks as [|c chunks IH]; intros d h Hd Hf Hh Hne Hr Hmax.
  - simpl in *. rewrite app_nil_r in Hr.
    pose proof (next_frame_full d h f after Hd Hf Hh) as Hn.
    destruct (next_frame d) as [d1 o]. destruct Hn as (-> & Hr1 & Hd1 & Hl1);
      [unfold U64_MAX, MAX_FRAME_BYTES in *; lia|done|].
    exists d1, []. split_and!; try done; simpl; [by rewrite app_nil_r|lia].
  - apply Forall_cons in Hne as [Hc Hne]. rewrite concat_cons in Hr, Hmax. rewrite length_app in Hmax.
    destruct (decide (length h + length (encode f) <= length (rest d))%nat) as [Hfull|Hpart].
    + assert (Hrd : exists t, rest d = h ++ encode f ++ t /\ t ++ c ++ concat chunks = after).
      { rewrite (app_assoc h) in Hr. destruct (prefix_cases _ _ _ _ Hr) as [(l2 & Hl & Hl2 & _)|(t & Ht & Ht2)].
        - exfalso. apply (f_equal length) in Hl. rewrite !length_app in Hl. destruct l2; [done|].
          simpl in Hl. lia.
        - exists t. by rewrite Ht, <- app_assoc. }
      destruct Hrd as (t & Ht & Hafter).
      pose proof (next_frame_full d h f t Hd Hf Hh) as Hn. cbn [oks fmap list_fmap read_loop].
      destruct (next_frame d) as [d1 o]. destruct Hn as (-> & Hr1 & Hd1 & Hl1);
        [unfold U64_MAX, MAX_FRAME_BYTES in *; lia|done|].
      exists d1, (c :: chunks). rewrite concat_cons, length_app, Hr1. split_and!; try done; [by constructor|lia].
    + destruct (next_frame_partial d h f after (c ++ concat chunks) Hd Hf Hh) as (d1 & h' & Hn & Hh' & Hr1 & Hd1 & Hl1);
        [rewrite length_app; unfold U64_MAX, MAX_FRAME_BYTES in *; lia|done|lia|].
      cbn [oks fmap list_fmap read_loop]. rewrite Hn. cbn [negb].
      assert (Hp : MAX_FRAME_BYTES <? pending d1 = false).
      { apply Z.ltb_ge. unfold pending. lia. }
      rewrite Hp. destruct c as [|a c]; [done|].
      destruct (IH (push (a :: c) d1) h') as (d' & chunks' & Hl & Hrest); try done.
      * by apply push_wf.
      * by rewrite rest_push, <- app_assoc.
      * unfold push. simpl in *. rewrite length_app. simpl. lia.
      * exists d', chunks'. by rewrite <- Hl.
Qed.

(** A world in which the broker's bytes are still to be read. *)
Record incoming (w : World) (chunks : list bytes) (pending_bytes : bytes) : Prop := {
  ic_wf : world_wf w;
  ic_stream : is_some (ss_stream (w_sess w)) = true;
  ic_reads : nt_reads (w_net w) = oks chunks;
  ic_chunks : Forall (fun c => c <> []) chunks;
  ic_bytes : rest (ss_decoder (w_sess w)) ++ concat chunks = pending_bytes;
  ic_size : Z.of_nat (length (buf (ss_decoder (w_sess w))) + length (concat chunks)) <= MAX_FRAME_BYTES;
}.

Lemma read_frame_delivers w chunks h f after :
  incoming w chunks (h ++ encode f ++ after) -> frame_ok f -> eols h ->
  exists w' chunks', read_frame w = (Ret f, w') /\ incoming w' chunks' after.
Proof.
  intros [Hwf Hst Hreads Hne Hb Hsize] Hf Hh.
  destruct (read_loop_delivers chunks _ h f after Hwf Hf Hh Hne Hb Hsize)
    as (d' & chunks' & Hl & Hd' & Hne' & Hb' & Hsize').
  unfold read_frame. rewrite Hst, Hreads, Hl. eexists _, chunks'. split; [done|]. by constructor.
Qed.

(** Reading a stream of frames settles on the first one selected. *)
Lemma read_until_delivers {A} (select : Frame -> option (M A)) skipped h f k items tail w chunks :
  incoming w chunks (stream (skipped ++ (h, f) :: items) tail) ->
  items_ok (skipped ++ (h, f) :: items) ->
  Forall (fun i => select i.2 = None) skipped -> select f = Some k ->
  exists w' chunks', read_until select w = k w' /\ incoming w' chunks' (stream items tail).
Proof.
  revert w chunks. induction skipped as [|[h0 f0] skipped IH]; intros w chunks Hin Hok Hsk Hf.
  - simpl in *. rewrite stream_cons in Hin. apply Forall_cons in Hok as [[Hh Hfo] _].
    destruct (read_frame_delivers _ _ _ _ _ Hin Hfo Hh) as (w' & chunks' & Hr & Hin').
    exists w', chunks'. split; [|done]. rewrite read_until_eq by apply Hin.
    unfold mbind, M_bind. by rewrite Hr, Hf.
  - simpl in *. rewrite stream_cons in Hin. apply Forall_cons in Hok as [[Hh Hfo] Hok].
    apply Forall_cons in Hsk as [Hs0 Hsk]. simpl in Hs0.
    destruct (read_frame_delivers _ _ _ _ _ Hin Hfo Hh) as (w1 & chunks1 & Hr & Hin1).
    destruct (IH w1 chunks1 Hin1 Hok Hsk Hf) as (w' & chunks' & Hk & Hin').
    exists w', chunks'. split; [|done]. rewrite read_until_eq by apply Hin.
    unfold mbind, M_bind. by rewrite Hr, Hs0.
Qed.

(** ** Properties *)

(** Every world a worker's session can reach: a fresh session, then iterations
    whose connects, reads, writes and clock answer anything at all, each
    completed, dropped by the deadline at any await, or panicked.  The worker calls
    [shutdown] last, after its loop, and then drops the session, so it is not a
    step here. *)
Inductive reachable (e : StompEngine) : World -> Prop :=
  | reach_new net :
      nt_wire net = [] -> nt_conns net = 0%nat -> reachable e (mkWorld (new_session e) net)
  | reach_iteration w net draw pick :
      reachable e w -> nt_wire net = nt_wire (w_net w) -> nt_conns net = nt_conns (w_net w) ->
      reachable e (stomp_run_iteration e draw pick (mkWorld (w_sess w) net)).2.

Lemma reachable_inv e w : reachable e w -> session_inv e w.
Proof.
  induction 1 as [net Hw Hn|w net draw pick Hr IH Hw Hn].
  - constructor; simpl; try done.
    + unfold world_wf, decoder_wf. simpl. lia.
    + split; [by rewrite Hw|]. intros c. rewrite Hw. by left.
  - pose proof (iteration_spec e draw pick (mkWorld (w_sess w) net) (inv_same_wire e w net IH Hw Hn)) as Hi.
    destruct (stomp_run_iteration e draw pick (mkWorld (w_sess w) net)) as [[m| | |] w']; simpl; try done.
    by destruct Hi.
Qed.

(** C13. Session invariant: in every reachable state, whatever the broker did and
    wherever a call was dropped, a connected session has a stream whose bytes
    start with a complete CONNECT; a subscribed one is connected and knows since
    when; message state only exists under a subscription; no connection ever
    carries anything before its CONNECT; and the decoder is well-formed. *)
Theorem stomp_session_invariant (e : StompEngine) (w : World) : reachable e w -> session_inv e w.
Proof. apply reachable_inv. Qed.

(** The outcome of an iteration from any reachable state: it never fails without
    a metric, a metric is an error exactly when the session was reset (no stream,
    no subscription, an empty decoder, so the next iteration reconnects), and
    otherwise the status is 200 and the session stays connected. *)
Theorem stomp_iteration_outcome (e : StompEngine) draw pick (w w' : World) r :
  reachable e w -> stomp_run_iteration e draw pick w = (r, w') ->
  match r with
  | Ret m =>
      (is_error m = true <-> is_reset (w_sess w')) /\
      (is_error m = false -> status_code m = 200 /\ ss_connected (w_sess w') = true)
  | Fail _ => False
  | Pending | Panicked => session_inv e w'
  end.
Proof.
  intros Hr E. pose proof (iteration_spec e draw pick w (reachable_inv e w Hr)) as Hi. rewrite E in Hi.
  destruct r as [m| | |]; try done.
  destruct Hi as [Hinv [[He Hreset]|(He & Hs & Hc)]]; rewrite He.
  - done.
  - split; [|done]. split; [done|]. intros (_ & _ & Hc' & _). congruence.
Qed.

(** C25. Receipts and deliveries: when the broker's bytes, cut into any non-empty
    reads, contain a RECEIPT with the awaited id before any ERROR frame,
    [await_receipt] returns, having skipped exactly the frames before it (stale
    receipts of dropped calls and unsolicited messages included), and what
    follows is kept for the next call. *)
Theorem await_receipt_completes id skipped h f items tail (w : World) chunks :
  incoming w chunks (stream (skipped ++ (h, f) :: items) tail) ->
  items_ok (skipped ++ (h, f) :: items) ->
  Forall (fun i => command i.2 <> "ERROR" /\
            (command i.2 = "RECEIPT" -> header "receipt-id" i.2 <> Some id))%string skipped ->
  command f = "RECEIPT"%string -> header "receipt-id" f = Some id ->
  exists w' chunks', await_receipt id w = (Ret (), w') /\ incoming w' chunks' (stream items tail).
Proof.
  intros Hin Hok Hsk Hc Hid. unfold await_receipt.
  destruct (read_until_delivers (on_receipt_frame id) skipped h f (mret ()) items tail w chunks Hin Hok)
    as (w' & chunks' & Hr & Hin').
  - eapply Forall_impl; [exact Hsk|]. intros [h0 f0] [He Hi]. simpl in *. unfold on_receipt_frame.
    destruct (String.eqb_spec (command f0) "RECEIPT") as [Hcr|].
    + simpl. rewrite bool_decide_eq_false_2 by auto. done.
    + simpl. by rewrite (proj2 (String.eqb_neq _ _) He).
  - unfold on_receipt_frame. rewrite Hc. simpl. by rewrite bool_decide_eq_true_2.
  - exists w', chunks'. split; [|done]. by rewrite Hr.
Qed.

(** ** A broker, for the witnesses *)

Definition demo_engine (receipt : bool) : StompEngine :=
  mkStompEngine "h:61613" "/queue/a" Produce AckAuto receipt (as_bytes "hello")
    [("x-user", "a:b")]%string (from_secs 5) (ChaosEngine_new false f64_zero).

Definition connected_bytes : bytes := encode (with_header "version" "1.2" (Frame_new "CONNECTED")).
Definition receipt_bytes (id : string) : bytes := encode (with_header "receipt-id" id (Frame_new "RECEIPT")).

Definition demo_net (writes : list WriteAnswer) (reads : list bytes) (n : Net) : Net :=
  mkNet [IoOk ()] writes (oks reads) (fun i => Z.of_nat i * 1000000) 0 (nt_conns n) (nt_wire n).

Definition fresh_net : Net := mkNet [] [] [] (fun _ => 0) 0 0 [].

(** A stale receipt arrives first, the awaited one is cut in two reads. *)
Definition demo_world : World :=
  mkWorld (new_session (demo_engine true))
    (demo_net [WriteOk; WriteOk]
       [connected_bytes; receipt_bytes "r-0" ++ take 9 (receipt_bytes "r-1"); drop 9 (receipt_bytes "r-1")]
       fresh_net).

Lemma demo_reachable : reachable (demo_engine true) demo_world.
Proof. by constructor. Qed.

Definition demo_outcome : Run RequestMetric * World :=
  stomp_run_iteration (demo_engine true) f64_zero 0 demo_world.

Lemma stomp_session_invariant_witness :
  ss_connected (w_sess demo_outcome.2) = true /\ session_inv (demo_engine true) demo_outcome.2.
Proof.
  split; [vm_compute; reflexivity|]. apply stomp_session_invariant.
  by apply (reach_iteration (demo_engine true) demo_world (w_net demo_world) f64_zero 0 demo_reachable).
Defined.

Lemma stomp_iteration_outcome_witness :
  exists m w', demo_outcome = (Ret m, w') /\ status_code m = 200 /\
    ss_connected (w_sess w') = true.
Proof.
  unfold demo_outcome.
  destruct (stomp_run_iteration (demo_engine true) f64_zero 0 demo_world) as [r w'] eqn:E.
  pose proof (stomp_iteration_outcome _ _ _ _ _ _ demo_reachable E) as H.
  assert (Hm : exists m, r = Ret m /\ is_error m = false).
  { apply (f_equal fst) in E. vm_compute in E. subst r. by eexists. }
  destruct Hm as (m & -> & Hm). exists m, w'. split; [done|]. by apply H.
Defined.

Lemma await_receipt_completes_witness :
  let w := mkWorld ((new_session (demo_engine true)){{ ss_stream := Some 0%nat }})
    (demo_net [] [receipt_bytes "r-0" ++ take 9 (receipt_bytes "r-1"); drop 9 (receipt_bytes "r-1")] fresh_net) in
  exists w', await_receipt "r-1" w = (Ret (), w').
Proof.
  intros w.
  destruct (await_receipt_completes "r-1"
    [([], with_header "receipt-id" "r-0" (Frame_new "RECEIPT"))] []
    (with_header "receipt-id" "r-1" (Frame_new "RECEIPT")) [] [] w
    [receipt_bytes "r-0" ++ take 9 (receipt_bytes "r-1"); drop 9 (receipt_bytes "r-1")]) as (w' & _ & H & _).
  - constructor.
    + unfold world_wf, decoder_wf. simpl. lia.
    + reflexivity.
    + reflexivity.
    + repeat (apply Forall_cons; split; [vm_compute; congruence|]). constructor.
    + vm_compute. reflexivity.
    + vm_compute. congruence.
  - assert (Hok : forall id, str_valid id -> frame_ok (with_header "receipt-id" id (Frame_new "RECEIPT"))).
    { intros id Hid. split; [|split].
      - split_and!; [done|done| |done]. vm_compute. set_solver.
      - by repeat constructor.
      - split; [set_solver|done]. }
    repeat (apply Forall_cons; split; [split; [constructor|by apply Hok]|]). constructor.
  - apply Forall_cons. split; [|constructor]. split; [done|]. vm_compute. congruence.
  - done.
  - done.
  - by exists w'.
Defined.

