(* ===== verification/StompWire.v ===== *)
(** What STOMP sessions ([StompEngine], [StompSession]) put on the wire in
    produce mode, and what the broker's decoder ([StompCodec]) makes of it: as
    long as no write is dropped half-way, a connection carries whole frames and
    decodes to exactly the frames sent; after a SEND that was dropped half-way the
    next one is written behind the stump and read as part of it. *)

From coqutil Require Import Datatypes.RecordSetters.
From S2P Require Import Prelude RustStr Float Json Chaos Samples StompCodec LoadProfile Config LocalRun.
From S2P Require Import StompEngine StompSession.
Import DoubleBraceUpdate.

#[local] Open Scope Z_scope.
#[local] Open Scope rust_scope.

#[local] Arguments constant {_} _ /.

Lemma hoare_conj {A} (m : M A) P P' Q Q' E E' D D' :
  hoare P m Q E D -> hoare P' m Q' E' D' ->
  hoare (fun w => P w /\ P' w) m (fun a w => Q a w /\ Q' a w) (fun w => E w /\ E' w) (fun w => D w /\ D' w).
Proof. intros H1 H2 w [Hw Hw']. specialize (H1 w Hw). specialize (H2 w Hw'). by destruct (m w) as [[] w']. Qed.

(** ** Connections of whole frames *)

(** The caller's deadline does not fall into this write. *)
Definition undropped (a : WriteAnswer) : Prop :=
  match a with WriteDropped _ => False | _ => True end.

Definition script_whole (w : World) : Prop := Forall undropped (nt_writes (w_net w)).

Section whole.
Context (e : StompEngine).

(** A SEND of this engine: some fault drawn, some receipt asked for. *)
Definition is_send (f : Frame) : Prop :=
  exists fault rid, receipt_of e rid /\ f = send_frame (new_session e) fault rid.

(** The session's connection carries CONNECT and the frames [fs], whole. *)
Definition carries (fs : list Frame) (w : World) : Prop :=
  exists c, ss_stream (w_sess w) = Some c /\
    written c (nt_wire (w_net w)) = encode <$> (connect_frame :: fs) /\ Forall is_send fs.

Definition whole (w : World) : Prop :=
  session_inv e w /\ script_whole w /\ (ss_connected (w_sess w) = true -> exists fs, carries fs w).

(** The ways an operation ends early: a failure, which the iteration answers with
    a reset, leaves at least the script; a dropped call leaves the session whole. *)
Definition failed (w : World) : Prop := session_inv e w /\ script_whole w.

Definition ready (w : World) : Prop := connected_inv e w /\ script_whole w /\ exists fs, carries fs w.

Lemma ready_whole w : ready w -> whole w.
Proof. intros ([Hi _] & Hs & Hc). by split_and!. Qed.

Lemma whole_reset w : failed w -> whole (mkWorld (reset (w_sess w)) (w_net w)).
Proof. intros [Hi Hs]. split_and!; [by apply inv_reset|done|done]. Qed.

Lemma carries_same fs w s n :
  carries fs w -> ss_stream s = ss_stream (w_sess w) -> nt_wire n = nt_wire (w_net w) ->
  carries fs (mkWorld s n).
Proof. intros (c & Hs & Hw & Hf) Hss Hn. exists c. simpl. by rewrite Hss, Hn. Qed.

(** Reading touches neither the script of writes nor the wire. *)
Lemma read_whole w r w' :
  session_inv e w -> script_whole w -> read_frame w = (r, w') ->
  script_whole w' /\ ss_connected (w_sess w') = ss_connected (w_sess w) /\
  forall fs, carries fs w -> carries fs w'.
Proof.
  intros Hi Hs E. destruct (inv_read e w r w' Hi E) as (_ & Hc & Hst & _ & Hw & _).
  pose proof (read_frame_state w (si_wf _ _ Hi)) as Hr. rewrite E in Hr. destruct Hr as (_ & _ & Hn & _).
  split; [unfold script_whole; by rewrite Hn|]. split; [done|].
  intros fs Hf. destruct w' as [s' n']. by apply (carries_same fs w).
Qed.

(** Writing a whole frame on a connection of whole frames. *)
Lemma write_whole fs f :
  hoare (fun w => script_whole w /\ carries fs w /\ is_send f) (write_frame (encode f))
    (fun _ w => script_whole w /\ carries (fs ++ [f]) w) script_whole
    (fun w => script_whole w /\ carries fs w).
Proof.
  intros w (Hs & (c & Hst & Hw & Hfs) & Hf). unfold write_frame, script_whole in *. rewrite Hst.
  destruct (nt_writes (w_net w)) as [|a l] eqn:E; [split; [by rewrite E|by exists c]|].
  apply Forall_cons in Hs as [Ha Hs]. destruct a; simpl; try done. split; [done|].
  exists c. split; [done|]. cbn [w_net]. rewrite wire_put, written_app, written_one, decide_True by done.
  split; [|apply Forall_app; by repeat constructor].
  change (written c (nt_wire (w_net w)) ++ [encode f] = encode <$> connect_frame :: (fs ++ [f])).
  rewrite Hw. by csimpl; rewrite fmap_app.
Qed.

(** *** Connecting *)

Definition connecting_whole (w : World) : Prop := connecting e w /\ script_whole w /\ carries [] w.

(** A stream without a byte on it. *)
Definition opened (w : World) : Prop :=
  (session_inv e w /\ ss_connected (w_sess w) = false /\
   exists c, ss_stream (w_sess w) = Some c /\ written c (nt_wire (w_net w)) = []) /\ script_whole w.

Lemma connect_write_whole :
  hoare opened (write_frame (encode connect_frame)) (fun _ => connecting_whole) failed whole.
Proof.
  intros w [Hw Hs]. pose proof (handshake_spec e w Hw) as Hh. destruct Hw as (Hi & Hcon & c & Hst & Hnil).
  revert Hh. unfold write_frame, connecting_whole, failed, whole, script_whole in *. rewrite Hst.
  destruct (nt_writes (w_net w)) as [|a l] eqn:E; [intros _; rewrite E; split_and!; [done|done|congruence]|].
  apply Forall_cons in Hs as [Ha Hs]. destruct a; simpl; try done. intros Hc. split_and!; [done|done|].
  exists c. split; [done|]. cbn [w_net]. rewrite wire_put, written_app, written_one, decide_True by done.
  split; [|constructor]. change (written c (nt_wire (w_net w)) ++ [encode connect_frame] = [encode connect_frame]).
  by rewrite Hnil.
Qed.

Lemma connect_whole :
  hoare (fun w => whole w /\ ss_connected (w_sess w) = false) connect (fun _ => ready) failed whole.
Proof.
  unfold connect. eapply (hoare_bind _ _ _ (fun _ => opened)); [|intros []; eapply hoare_bind; [apply connect_write_whole|intros []]].
  - intros w [(Hi & Hs & _) Hcon]. pose proof (inv_open e w Hi Hcon) as Ho. revert Ho.
    unfold open_stream, failed, whole, opened, script_whole in *.
    destruct (nt_connects (w_net w)) as [|[[]| |msg] l]; simpl; intros Ho; split_and!;
      try done; try apply Ho; simpl; congruence.
  - apply hoare_read_until.
    + intros w r w' (Hc & Hs & Hf) E. destruct (read_whole w r w' (proj1 Hc) Hs E) as (Hs' & _ & Hf').
      split_and!; [by eapply connecting_read|done|by apply Hf'].
    + intros w ((Hi & Hcon & _) & Hs & _). split; [apply (si_wf _ _ Hi)|]. split; [done|].
      split_and!; [done|done|]. by rewrite Hcon.
    + intros f k Hk. unfold on_connect_frame in Hk. repeat case_match; simplify_eq.
      * apply hoare_modify. intros w (Hc & Hs & Hf). split_and!; [by apply mark_connected_inv|done|].
        exists []. by apply (carries_same [] w).
      * eapply (hoare_bind _ _ _ (fun _ => failed)); [|intros []; by apply hoare_throw].
        apply hoare_modify. intros w ((Hi & _) & Hs & _). split; [by apply inv_reset|done].
Qed.

Lemma ensure_connected_whole : hoare whole ensure_connected (fun _ => ready) failed whole.
Proof.
  intros w Hw. unfold ensure_connected, get_session, mbind, M_bind.
  destruct (ss_connected (w_sess w)) eqn:E; [|by apply (connect_whole w)].
  destruct Hw as (Hi & Hs & Hc). split_and!; [by split|done|by apply Hc].
Qed.

(** *** One produce iteration *)

Lemma tick_keeps (P : World -> Prop) :
  (forall w t, P w -> P (mkWorld (w_sess w) ((w_net w){{ nt_ticks := t }}))) ->
  (forall (E D : World -> Prop), hoare P now (fun _ => P) E D) /\
  (forall start (E D : World -> Prop), hoare P (elapsed start) (fun _ => P) E D).
Proof.
  intros HP. assert (Hn : forall (E D : World -> Prop), hoare P now (fun _ => P) E D)
    by (intros E D w Hw; by apply HP).
  split; [done|]. intros start E D. unfold elapsed. eapply hoare_bind; [apply Hn|]. intros t. by apply hoare_ret.
Qed.

Lemma whole_tick w t : whole w -> whole (mkWorld (w_sess w) ((w_net w){{ nt_ticks := t }})).
Proof.
  intros (Hi & Hs & Hc). split_and!; [by apply inv_same_wire|done|].
  intros Hcon. destruct (Hc Hcon) as [fs Hf]. exists fs. by apply (carries_same fs w).
Qed.

(** The frames [fs] and then [f] are on the connection. *)
Definition sent_after (fs : list Frame) (f : Frame) (w : World) : Prop :=
  connected_inv e w /\ script_whole w /\ carries (fs ++ [f]) w.

Lemma sent_after_tick fs f w t : sent_after fs f w -> sent_after fs f (mkWorld (w_sess w) ((w_net w){{ nt_ticks := t }})).
Proof.
  intros (Hi & Hs & Hf). split_and!; [by apply connected_same_wire|done|]. by apply (carries_same _ w).
Qed.

Lemma sent_after_whole fs f w : sent_after fs f w -> whole w.
Proof. intros (Hi & Hs & Hf). apply ready_whole. split_and!; [done|done|by eexists]. Qed.

Lemma await_receipt_whole fs f id :
  hoare (sent_after fs f) (await_receipt id) (fun _ => sent_after fs f) failed whole.
Proof.
  apply hoare_read_until.
  - intros w r w' (Hc & Hs & Hf) E. destruct (read_whole w r w' (proj1 Hc) Hs E) as (Hs' & _ & Hf').
    split_and!; [by eapply connected_read|done|by apply Hf'].
  - intros w Hw. pose proof (sent_after_whole _ _ _ Hw) as Hwh. destruct Hw as ([Hi _] & Hs & _).
    split_and!; [apply (si_wf _ _ Hi)|done|done|apply Hwh..].
  - intros g k Hk. unfold on_receipt_frame in Hk. repeat case_match; simplify_eq; [by apply hoare_ret|].
    apply hoare_throw. intros w ([Hi _] & Hs & _). by split.
Qed.

Definition produced (fault : option ChaosFault) (m : RequestMetric) (w : World) : Prop :=
  whole w /\
  (status_code m = 0 /\ is_reset (w_sess w) \/
   is_error m = false /\
   exists fs rid s, receipt_of e rid /\ carries (fs ++ [send_frame (new_session e) fault rid]) w /\
     rm_stomp m = Some s /\ sts_messages_sent s = 1 /\
     sts_bytes_sent s = Z.of_nat (length (encode (send_frame (new_session e) fault rid)))).

Lemma fail_iteration_whole start fault (D : World -> Prop) (msg : string) :
  hoare failed (fail_iteration start fault) (produced fault) (fun _ => False) D.
Proof.
  intros w Hw. cbn. split; [|left; by split]. exact (whole_tick _ _ (whole_reset w Hw)).
Qed.

(** Drawing the receipt id touches only the sequence number. *)
Lemma next_receipt_whole (E D : World -> Prop) :
  hoare ready next_receipt (fun rid w => ready w /\ receipt_of e rid) E D.
Proof.
  intros w (Hc & Hs & fs & Hf). pose proof (next_receipt_spec e E D w Hc) as Hn. revert Hn.
  unfold next_receipt, get_session, mbind, M_bind.
  destruct (ss_receipt (w_sess w)); simpl; intros [H1 H2]; (split; [split_and!; [done|done|]|done]);
    exists fs; by apply (carries_same fs w).
Qed.

Lemma send_whole fault rid :
  hoare (fun w => ready w /\ receipt_of e rid) (write_frame (encode (send_frame (new_session e) fault rid)))
    (fun _ w => exists fs, sent_after fs (send_frame (new_session e) fault rid) w) failed whole.
Proof.
  intros w [(Hc & Hs & fs & Hf) Hr].
  pose proof (write_spec e (encode (send_frame (new_session e) fault rid)) (connected_inv e)
    ltac:(done) ltac:(done) w Hc) as H1.
  pose proof (write_whole fs (send_frame (new_session e) fault rid) w) as H2.
  specialize (H2 ltac:(split_and!; [done|done|by exists fault, rid])).
  destruct (write_frame _ w) as [[] w'] eqn:E; simpl in *.
  - exists fs. by destruct H1, H2.
  - by split.
  - destruct H2. split_and!; [done|done|by exists fs].
  - destruct H2. split_and!; [done|done|by exists fs].
Qed.

Lemma ready_tick w t : ready w -> ready (mkWorld (w_sess w) ((w_net w){{ nt_ticks := t }})).
Proof.
  intros (Hc & Hs & fs & Hf). split; [by apply connected_same_wire|]. split; [done|].
  exists fs. by apply (carries_same fs w).
Qed.

Lemma produce_whole fault : hoare whole (produce fault) (produced fault) (fun _ => False) whole.
Proof.
  unfold produce. eapply hoare_bind; [apply tick_keeps, whole_tick|]. intros start.
  eapply hoare_catch; [apply ensure_connected_whole| |intros msg; by apply fail_iteration_whole]. intros [].
  eapply hoare_bind; [apply next_receipt_whole|]. intros rid.
  eapply (hoare_bind _ _ _ (fun s w => (ready w /\ receipt_of e rid) /\
    send_frame s fault rid = send_frame (new_session e) fault rid)).
  { apply hoare_get. intros w [Hw Hr]. split; [done|].
    destruct (si_config _ _ (proj1 (proj1 Hw))) as (? & ? & ? & _). by apply send_frame_config. }
  intros s w [Hw Hsf]. rewrite Hsf. revert w Hw.
  eapply hoare_bind; [apply tick_keeps; intros w t [? ?]; split; [by apply ready_tick|done]|]. intros ws w Hw.
  pose proof (proj2 Hw) as Hr. revert w Hw.
  eapply hoare_catch; [apply send_whole|intros [] w [fs Hw]|intros msg; by apply fail_iteration_whole].
  revert w Hw. set (f := send_frame (new_session e) fault rid).
  eapply (hoare_catch _ _ _ _ (fun _ => sent_after fs f)); [|intros latency|intros msg; by apply fail_iteration_whole].
  { destruct rid as [id|]; [eapply hoare_bind; [apply await_receipt_whole|intros []]|];
      apply tick_keeps, sent_after_tick. }
  eapply (hoare_bind _ _ _ (fun _ => sent_after fs f)); [by apply hoare_get|]. intros s'.
  eapply hoare_bind; [apply tick_keeps, sent_after_tick|]. intros d. apply hoare_ret.
  intros w Hw'. split; [by eapply sent_after_whole|]. right. split; [done|].
  eexists fs, rid, _. split_and!; try done. apply Hw'.
Qed.

Lemma produce_iteration_whole draw pick :
  se_mode e = Produce ->
  hoare whole (stomp_run_iteration e draw pick) (produced (select_fault (se_chaos e) draw pick)) (fun _ => False) whole.
Proof.
  intros Hm. unfold stomp_run_iteration. rewrite Hm. set (fault := select_fault _ _ _). clearbody fault.
  assert (Hrun : hoare whole
    (_ ← modify (fun s => s{{ ss_reconnected_this_iteration := false }}); produce fault)
    (produced fault) (fun _ => False) whole).
  { eapply (hoare_bind _ _ _ (fun _ => whole)); [|intros []; apply produce_whole].
    apply hoare_modify. intros w (Hi & Hs & Hc). split_and!; [by destruct Hi; constructor|done|].
    intros Hcon. destruct (Hc Hcon) as [fs Hf]. exists fs. by apply (carries_same fs w). }
  destruct fault as [[]|]; try exact Hrun.
  intros w (Hi & Hs & Hc). split; [by apply (whole_reset w)|]. left. by split_and!.
Qed.
End whole.

(** A worker's session in produce mode, none of whose writes was dropped by the
    caller's deadline; connects and reads answer anything, and calls may be
    dropped there. *)
Inductive undropped_history (e : StompEngine) : World -> Prop :=
  | undropped_new net :
      nt_wire net = [] -> nt_conns net = 0%nat -> undropped_history e (mkWorld (new_session e) net)
  | undropped_iteration w net draw pick :
      undropped_history e w -> nt_wire net = nt_wire (w_net w) -> nt_conns net = nt_conns (w_net w) ->
      Forall undropped (nt_writes net) ->
      undropped_history e (stomp_run_iteration e draw pick (mkWorld (w_sess w) net)).2.

Lemma whole_net e w net :
  whole e w -> nt_wire net = nt_wire (w_net w) -> nt_conns net = nt_conns (w_net w) ->
  Forall undropped (nt_writes net) -> whole e (mkWorld (w_sess w) net).
Proof.
  intros (Hi & _ & Hc) Hw Hn Hs. split_and!; [by apply inv_same_wire|done|].
  intros Hcon. destruct (Hc Hcon) as [fs Hf]. exists fs. by apply (carries_same e fs w).
Qed.

Lemma history_whole e w net :
  se_mode e = Produce -> undropped_history e w ->
  nt_wire net = nt_wire (w_net w) -> nt_conns net = nt_conns (w_net w) -> Forall undropped (nt_writes net) ->
  whole e (mkWorld (w_sess w) net).
Proof.
  intros Hm Hr. revert net. induction Hr as [net0 Hw Hn|w net0 draw pick Hr IH Hw Hn Hs]; intros net Hw' Hn' Hs'.
  - simpl in *. split_and!; [|done|done].
    apply (reachable_inv e (mkWorld (new_session e) net)). constructor; congruence.
  - pose proof (produce_iteration_whole e draw pick Hm _ (IH net0 Hw Hn Hs)) as Hi.
    destruct (stomp_run_iteration e draw pick (mkWorld (w_sess w) net0)) as [[m| | |] w']; simpl in *;
      [destruct Hi as [Hi _]|done|..]; by apply whole_net.
Qed.

(** *** Decoding a connection *)

Definition plain (f : Frame) : bytes * Frame := ([], f).

Lemma stream_plain fs : stream (plain <$> fs) [] = concat (encode <$> fs).
Proof. induction fs as [|f fs IH]; [done|]. csimpl. unfold plain at 1. by rewrite stream_cons, IH. Qed.

Lemma connect_frame_ok : frame_ok connect_frame.
Proof.
  split; [|split].
  - split_and!; [done|done| |done]. vm_compute. set_solver.
  - by repeat constructor.
  - split; [set_solver|done].
Qed.

Lemma is_send_ok e f :
  engine_valid e -> Z.of_nat (length (se_payload e)) <= U64_MAX -> is_send e f -> frame_ok f.
Proof.
  intros Hv Hl (fault & rid & [_ Hid] & ->). apply send_frame_ok; try done. intros id Hid'.
  destruct (Hid id Hid') as [n ->].
  unfold str_valid. change (as_bytes ("r-" ++ u64_to_string n)%string)
    with ("r"%char :: "-"%char :: as_bytes (u64_to_string n)).
  rewrite !utf8_valid_ascii by (vm_compute; done). apply digits_valid, u64_to_string_digits.
Qed.

Lemma carried_decodes e fs bs chunks :
  engine_valid e -> Z.of_nat (length (se_payload e)) <= U64_MAX -> Forall (is_send e) fs ->
  bs = encode <$> (connect_frame :: fs) -> concat chunks = concat bs ->
  Z.of_nat (length (concat chunks)) <= U64_MAX ->
  exists d, feed Decoder_new chunks = Some (d, connect_frame :: fs) /\ rest d = [].
Proof.
  intros Hv Hl Hfs -> Hc Hmax. rewrite <- stream_plain in Hc.
  destruct (feed_spec chunks (plain <$> (connect_frame :: fs)) [] Decoder_new) as (d & Hd & Hr); try done.
  - unfold decoder_wf. simpl. lia.
  - apply Forall_fmap. constructor; [split; [constructor|apply connect_frame_ok]|].
    eapply Forall_impl; [exact Hfs|]. intros f Hf. split; [constructor|by eapply is_send_ok].
  - constructor.
  - intros ->. rewrite stream_plain in Hc. apply (f_equal length) in Hc. rewrite fmap_cons in Hc.
    cbn [concat] in Hc. rewrite length_app in Hc. pose proof (encode_length connect_frame). simpl length in Hc. lia.
  - exists d. split; [|done]. rewrite Hd, <- list_fmap_compose. f_equal. f_equal. apply list_fmap_id.
Qed.

(** C14. What a successful produce iteration means on the wire, as long as no write of
    the session was dropped by the worker's deadline (connects and reads may be
    dropped, time out or fail; writes may time out or fail): however the bytes of
    the session's connection are cut into chunks, the decoder of [stomp_codec.rs]
    reads from them CONNECT, the SEND frames of the earlier iterations on this
    connection and, last, the SEND of this iteration, with no byte left over,
    whatever the user's headers and payload (NULL bytes and header separators
    included).  That SEND carries the payload, its true length, and the
    receipt asked for; and the metric counts one message and its bytes.  What
    happens after a dropped write is [interrupted_send_corrupts]. *)
Theorem stomp_send_decodes (e : StompEngine) draw pick (w : World) net (w' : World) m :
  undropped_history e w -> nt_wire net = nt_wire (w_net w) -> nt_conns net = nt_conns (w_net w) ->
  Forall undropped (nt_writes net) ->
  engine_valid e -> Z.of_nat (length (se_payload e)) <= U64_MAX -> se_mode e = Produce ->
  stomp_run_iteration e draw pick (mkWorld (w_sess w) net) = (Ret m, w') -> is_error m = false ->
  exists c fs f rid s,
    ss_stream (w_sess w') = Some c /\ last (written c (nt_wire (w_net w'))) = Some (encode f) /\
    (forall chunks, concat chunks = concat (written c (nt_wire (w_net w'))) ->
       Z.of_nat (length (concat chunks)) <= U64_MAX ->
       exists d, feed Decoder_new chunks = Some (d, connect_frame :: fs ++ [f]) /\ rest d = []) /\
    Forall (fun g => command g = "SEND"%string) fs /\ command f = "SEND"%string /\
    body f = input_payload (new_session e) (select_fault (se_chaos e) draw pick) /\
    header "content-length" f = Some (u64_to_string (Z.of_nat (length (body f)))) /\
    is_some rid = se_receipt e /\ (forall id, rid = Some id -> header "receipt" f = Some id) /\
    rm_stomp m = Some s /\ sts_messages_sent s = 1 /\ sts_bytes_sent s = Z.of_nat (length (encode f)).
Proof.
  intros Hr Hw Hn Hs Hv Hlen Hmode E Hok.
  pose proof (produce_iteration_whole e draw pick Hmode _ (history_whole e w net Hmode Hr Hw Hn Hs)) as Hp.
  rewrite E in Hp.
  destruct Hp as [_ [[H0 _]|(_ & fs & rid & s & Hrid & (c & Hst & Hwr & Hfs) & Hm & H1 & Hb)]].
  { unfold is_error in Hok. by rewrite H0 in Hok. }
  set (fault := select_fault (se_chaos e) draw pick) in *.
  destruct (send_frame_facts e fault rid) as (Hcmd & Hbody & Hcl & Hrec).
  exists c, fs, (send_frame (new_session e) fault rid), rid, s. split_and!; try done; [| | |apply Hrid].
  - rewrite Hwr, app_comm_cons, fmap_app. apply last_snoc.
  - intros chunks Hc Hmax. by eapply carried_decodes.
  - apply Forall_app in Hfs as [Hfs _]. eapply Forall_impl; [exact Hfs|].
    intros g (fault' & rid' & _ & ->). by destruct (send_frame_facts e fault' rid').
Qed.

(** ** A SEND dropped half-way *)

(** The decoder only looks at the bytes it consumes: a frame that ends within the
    first [m] bytes of the buffer is decoded the same from those alone. *)
Lemma position_take x l n k : position x l = Some n -> (n < k)%nat -> position x (take k l) = Some n.
Proof.
  intros (l1 & l2 & -> & <- & Hx)%position_Some Hk. rewrite take_app_ge by lia.
  replace (k - length l1)%nat with (S (k - length l1 - 1)) by lia. simpl. by rewrite position_app.
Qed.

Lemma drop_take {A} (l : list A) i m : drop i (take m l) = take (m - i) (drop i l).
Proof. revert l m. induction i as [|i IH]; intros [|x l] [|m]; simpl; rewrite ?take_nil; auto. Qed.

Lemma take_take_le {A} (l : list A) i m : (i <= m)%nat -> take i (take m l) = take i l.
Proof. intros Hi. by rewrite take_take, Nat.min_l. Qed.

Lemma header_loop_local fuel fuel' b m cursor hs hs' c :
  header_loop fuel b cursor hs = HDone hs' c -> (c <= m)%nat -> (c <= cursor + fuel')%nat ->
  header_loop fuel' (take m b) cursor hs = HDone hs' c.
Proof.
  revert fuel' cursor hs. induction fuel as [|fuel IH]; intros fuel' cursor hs; [done|].
  rewrite header_loop_S. destruct (position LF (drop cursor b)) as [nl|] eqn:Hnl; [|done].
  assert (Hstep : forall hs1 c1, header_loop fuel b (cursor + nl + 1) hs1 = HDone hs' c1 ->
    (cursor + nl + 1 <= c1)%nat).
  { intros hs1 c1 Hh. apply header_loop_cursor in Hh; [lia|].
    apply position_Some in Hnl as (l & r & Hl & <- & _). apply (f_equal length) in Hl.
    rewrite length_drop, length_app in Hl. simpl in Hl. lia. }
  intros Hh Hm Hf. assert (Hle : (cursor + nl + 1 <= c)%nat).
  { destruct (strip_cr _); [by injection Hh as _ <-|]. destruct (decode_line _); [|done]. by eapply Hstep. }
  destruct fuel' as [|fuel']; [lia|]. rewrite header_loop_S, drop_take, (position_take _ _ nl) by (done || lia).
  rewrite take_take_le by lia. destruct (strip_cr _); [done|]. destruct (decode_line _); [|done].
  apply IH; [done|done|lia].
Qed.

Lemma decode_body_local b m cursor hs bd fin :
  (cursor <= length b)%nat -> (m <= length b)%nat -> decode_body b cursor hs = BDone bd fin -> (fin <= m)%nat ->
  decode_body (take m b) cursor hs = BDone bd fin.
Proof.
  intros Hc Hmb Hb Hm. pose proof (decode_body_end _ _ _ _ _ Hc Hb) as Hfin. revert Hb.
  unfold decode_body. rewrite length_take, Nat.min_l, drop_take by done.
  destruct (headers_content_length hs) as [n|].
  - set (z := usize_add _ _). destruct (Z.leb_spec (Z.of_nat (length b)) z); [done|].
    destruct (negb _) eqn:Hz; [done|]. destruct (Z.ltb_spec z (Z.of_nat cursor)); [done|].
    intros [= <- <-]. rewrite (proj2 (Z.leb_gt _ _)) by lia. rewrite lookup_take_lt, Hz by lia.
    by rewrite take_take_le by lia.
  - destruct (position NULL (drop cursor b)) as [k|] eqn:Hk; [|done]. intros [= <- <-].
    by rewrite (position_take _ _ k), take_take_le by (done || lia).
Qed.

Lemma decode_at_local d m nl cmd d' f :
  (pos d + nl + 1 <= length (buf d))%nat -> (m <= length (buf d))%nat ->
  decode_at d nl cmd = (d', Decoded f) -> (length (buf d) - m <= length (rest d'))%nat ->
  exists d'', decode_at (mkDecoder (take m (buf d)) (pos d)) nl cmd = (d'', Decoded f).
Proof.
  intros Hp Hmb. unfold decode_at. destruct (negb _); [done|]. cbn [buf pos]. cbv zeta.
  destruct (header_loop _ _ _ _) as [hs c| |] eqn:Hh; try done.
  destruct (decode_body _ _ _) as [bd fin| | |] eqn:Hb; try done. intros [= <- <-] Hr.
  pose proof (header_loop_cursor _ _ _ _ _ _ Hp Hh) as Hc.
  assert (Hfin : (c < fin <= length (buf d))%nat) by (eapply decode_body_end; [apply Hc|done]).
  rewrite rest_compact, rest_drop, length_drop in Hr.
  rewrite (header_loop_local _ (S (length (take m (buf d)))) _ m _ _ _ _ Hh)
    by (rewrite ?length_take; lia).
  rewrite (decode_body_local _ m _ _ _ _ (proj2 Hc) Hmb Hb) by lia. eauto.
Qed.

Lemma compact_settled d : (pos (compact d) = 0 \/ pos (compact d) < 4096)%nat.
Proof.
  unfold compact. destruct (Nat.ltb_spec 0 (pos d)), (Nat.eqb (pos d) (length (buf d))),
    (Nat.leb_spec 4096 (pos d)); cbn [andb orb pos]; lia.
Qed.

Lemma compact_id d : (pos d = 0 \/ pos d < 4096)%nat -> (pos d < length (buf d))%nat -> compact d = d.
Proof.
  intros Hp Hl. unfold compact. destruct (Nat.ltb_spec 0 (pos d)); [|done].
  by rewrite (proj2 (Nat.eqb_neq _ _)), (proj2 (Nat.leb_gt _ _)) by lia.
Qed.

(** The frame decoded from a stump and what follows ends in what follows. *)
Lemma stump_swallows d f k after d' g :
  decoder_wf d -> frame_ok f -> (0 < k < length (encode f))%nat -> rest d = take k (encode f) ++ after ->
  Z.of_nat (length (buf d) + length (encode f)) <= U64_MAX ->
  next_frame d = (d', Decoded g) -> (length (rest d') < length after)%nat.
Proof.
  intros Hd Hf Hk Hr Hmax Hn. rewrite next_frame_eq in Hn by done. cbv zeta in Hn.
  destruct (skip_heartbeats_spec d Hd) as (Hd1 & Hr1 & Hl1).
  assert (Hhead : forall a s, take k (encode f) ++ after = a :: s -> is_eol a = false).
  { intros a s E. destruct (encode f) as [|x l] eqn:Ex; [simpl in Hk; lia|]. destruct k; [lia|].
    injection E as -> _. eapply (encode_head f a l [] Hf). by rewrite Ex, app_nil_r. }
  assert (Hc0 : count_eols (rest d) = 0%nat).
  { rewrite Hr. apply (count_eols_app [] _); [constructor|done]. }
  assert (Hpos1 : pos (skip_heartbeats d) = 0%nat \/ (pos (skip_heartbeats d) < 4096)%nat) by apply compact_settled.
  rewrite Hc0, drop_0, Hr in Hr1. set (d1 := skip_heartbeats d) in *.
  destruct (position LF (rest d1)) as [nl|] eqn:Hnl; [|done].
  assert (Hlt : (k <= length (rest d1))%nat) by (rewrite Hr1, length_app, length_take; lia).
  pose proof (length_rest d1 Hd1) as Hlen.
  destruct (decide (length (rest d') < length after)%nat) as [|Hge]; [done|exfalso].
  set (m := (pos d1 + k)%nat). set (d2 := mkDecoder (take m (buf d1)) (pos d1)).
  assert (Hr2 : rest d2 = take k (encode f)).
  { unfold d2, m. rewrite rest_drop, drop_take. replace (pos d1 + k - pos d1)%nat with k by lia.
    change (drop (pos d1) (buf d1)) with (rest d1). rewrite Hr1, take_app_le, take_take_le by (rewrite ?length_take; lia).
    done. }
  assert (Hl2 : length (buf d2) = m) by (unfold d2; simpl; rewrite length_take; lia).
  assert (Hd2 : decoder_wf d2) by (unfold decoder_wf, d2, m in *; simpl pos; lia).
  assert (Hs2 : skip_heartbeats d2 = d2).
  { assert (He : count_eols (take k (encode f)) = 0%nat).
    { apply (count_eols_app [] _); [constructor|]. intros a s E. apply (Hhead a (s ++ after)).
      by rewrite (E : take k (encode f) = a :: s). }
    unfold skip_heartbeats. rewrite Hr2, He, Nat.add_0_r.
    unfold d2. apply compact_id; [done|]. fold d2. rewrite Hl2. simpl. lia. }
  destruct (next_frame_partial d2 [] f [] (drop k (encode f)) Hd2 Hf) as (d3 & e3 & Hnf & _).
  { constructor. }
  { rewrite length_drop. lia. }
  { simpl. by rewrite Hr2, take_drop, app_nil_r. }
  { rewrite Hr2, length_take. simpl. lia. }
  rewrite next_frame_eq, Hs2 in Hnf by done. cbv zeta in Hnf.
  pose proof (decode_at_state d1 nl (strip_cr (take nl (rest d1)))) as Hst. rewrite Hn in Hst.
  destruct Hst as [[_ Hno]|(f' & fin & Hfin & Hd')]; [by destruct (Hno g)|].
  assert (Hb : (pos d1 + nl + 1 <= length (buf d1))%nat).
  { apply position_Some in Hnl as (l & r & Hl & <- & _). apply (f_equal length) in Hl.
    rewrite length_app in Hl. simpl in Hl. lia. }
  specialize (Hfin Hb). injection Hd' as Hd' _.
  assert (Hrl : length (rest d') = (length (buf d1) - fin)%nat)
    by (rewrite Hd', rest_compact, rest_drop; apply length_drop).
  rewrite Hr1, length_app, length_take in Hlen.
  assert (Hnlk : (nl < k)%nat) by lia.
  assert (Ht : rest d2 = take k (rest d1)) by (rewrite Hr1, Hr2, take_app_le, take_take_le by (rewrite ?length_take; lia); done).
  destruct (decode_at_local d1 m nl (strip_cr (take nl (rest d1))) d' g Hb) as [d4 Hd4]; [lia|done|lia|].
  rewrite Ht, (position_take _ _ nl), take_take_le in Hnf by (done || lia).
  fold d2 in Hd4. rewrite Hd4 in Hnf. done.
Qed.

Lemma drain_wf fuel d : decoder_wf d -> decoder_wf (drain fuel d).1.1.
Proof.
  revert d. induction fuel as [|fuel IH]; intros d Hd; [done|]. cbn [drain].
  pose proof (next_frame_state d Hd) as Hs. destruct (next_frame d) as [d' []]; destruct Hs as [Hw _]; try done.
  specialize (IH d' Hw). by destruct (drain fuel d') as [[]].
Qed.

Lemma feed_wf chunks d d' fs : decoder_wf d -> feed d chunks = Some (d', fs) -> decoder_wf d'.
Proof.
  revert d fs. induction chunks as [|c chunks IH]; intros d fs Hd; [by intros [= <- _]|]. cbn [feed].
  pose proof (drain_wf (S (length (rest (push c d)))) (push c d) (push_wf _ _ Hd)) as Hw.
  destruct (drain _ _) as [[d1 fs1] []]; try done. simpl in Hw.
  destruct (feed d1 chunks) as [[d2 fs2]|] eqn:E; [|done]. intros [= <- _]. by eapply IH.
Qed.

(** The worker's deadline has the length of the session's own timeouts; it starts
    before the iteration, so it is the one that cuts a blocked write. *)
Lemma session_timeout_is_deadline url destination mode ack receipt payload headers chaos secs e :
  StompEngine_new url destination mode ack receipt payload headers chaos secs = Ok e ->
  1 <= secs -> se_timeout e = iteration_timeout secs.
Proof.
  intros E Hs. revert E. unfold StompEngine_new. destruct (is_blank destination); [done|]. unfold mbind, result_bind.
  destruct (parse_authority url); [|done]. intros [= <-]. simpl. unfold iteration_timeout.
  rewrite Z.max_l, (proj2 (Z.ltb_lt _ _)) by lia. done.
Qed.

#[local] Arguments send_frame : simpl never.
#[local] Arguments encode : simpl never.

(** What an iteration of a connected session does that asks for no receipt, by
    the answer to its one write. *)
Definition one_write (c : nat) (b : bytes) (a : WriteAnswer) (w : World) (o : Run RequestMetric * World) : Prop :=
  let '(r, w') := o in
  match a with
  | WriteOk => (exists m, r = Ret m /\ is_error m = false /\ status_code m = 200) /\
      nt_wire (w_net w') = nt_wire (w_net w) ++ [(c, b)]
  | WriteDropped k => r = Pending /\ nt_wire (w_net w') = nt_wire (w_net w) ++ [(c, take k b)] /\
      nt_conns (w_net w') = nt_conns (w_net w) /\ ss_connected (w_sess w') = true /\ ss_stream (w_sess w') = Some c
  | _ => True
  end.

Lemma produce_one_write e fault w c a l :
  session_inv e w -> se_receipt e = false -> ss_connected (w_sess w) = true ->
  ss_stream (w_sess w) = Some c -> nt_writes (w_net w) = a :: l ->
  one_write c (encode (send_frame (new_session e) fault None)) a w (produce fault w).
Proof.
  intros Hi Hrec Hcon Hst Hw. destruct (si_config _ _ Hi) as (H1 & H2 & H3 & H4 & _).
  destruct w as [s []]. simpl in *. unfold produce, next_receipt, ensure_connected, get_session, modify, now, catch, mbind, M_bind.
  simpl. rewrite Hcon. simpl. rewrite H4, Hrec. simpl. unfold write_frame. simpl.
  rewrite Hst, Hw, (send_frame_config e s) by done.
  destruct a; simpl; try done. split; [by eexists|done].
Qed.

Lemma connected_iteration e draw pick w c a l :
  session_inv e w -> se_mode e = Produce -> se_receipt e = false -> ss_connected (w_sess w) = true ->
  ss_stream (w_sess w) = Some c -> nt_writes (w_net w) = a :: l ->
  select_fault (se_chaos e) draw pick <> Some ConnectionDrop ->
  one_write c (encode (send_frame (new_session e) (select_fault (se_chaos e) draw pick) None)) a w
    (stomp_run_iteration e draw pick w).
Proof.
  intros Hi Hm Hrec Hcon Hst Hw Hf. unfold stomp_run_iteration. rewrite Hm.
  set (fault := select_fault _ _ _) in *. clearbody fault.
  set (w1 := mkWorld ((w_sess w){{ ss_reconnected_this_iteration := false }}) (w_net w)).
  assert (H1 : one_write c (encode (send_frame (new_session e) fault None)) a w1 (produce fault w1)).
  { apply (produce_one_write e fault w1 c a l); try done. by destruct Hi; constructor. }
  destruct fault as [[]|]; try done; exact H1.
Qed.

(** C34. A dropped write corrupts the connection.  The worker's deadline has the
    length of the session's own write timeout ([session_timeout_is_deadline]) and starts earlier, so a
    SEND that blocks half-way is dropped by the worker and never reaches the error
    path that resets the session.  For every connected produce session without receipts, every
    configured payload and headers, and every point [k] inside the SEND at which it is
    dropped: the session stays connected on the same connection; the next
    iteration writes its SEND behind the stump and reports success; and the
    broker's decoder, which has read every frame before the stump, finds no frame
    that ends before the second SEND begins: a frame it decodes has swallowed
    bytes of the second SEND. *)
Theorem interrupted_send_corrupts (e : StompEngine) (c k : nat) (w : World) net net' draw pick draw' pick' :
  let f1 := send_frame (new_session e) (select_fault (se_chaos e) draw pick) None in
  let f2 := send_frame (new_session e) (select_fault (se_chaos e) draw' pick') None in
  let sent := written c (nt_wire (w_net w)) in
  undropped_history e w -> engine_valid e -> Z.of_nat (length (se_payload e)) <= U64_MAX ->
  se_mode e = Produce -> se_receipt e = false ->
  ss_connected (w_sess w) = true -> ss_stream (w_sess w) = Some c -> Z.of_nat (length (concat sent)) <= U64_MAX ->
  (0 < k < length (encode f1))%nat ->
  select_fault (se_chaos e) draw pick <> Some ConnectionDrop ->
  select_fault (se_chaos e) draw' pick' <> Some ConnectionDrop ->
  nt_wire net = nt_wire (w_net w) -> nt_conns net = nt_conns (w_net w) -> head (nt_writes net) = Some (WriteDropped k) ->
  let first := stomp_run_iteration e draw pick (mkWorld (w_sess w) net) in
  nt_wire net' = nt_wire (w_net first.2) -> nt_conns net' = nt_conns (w_net first.2) ->
  head (nt_writes net') = Some WriteOk ->
  let second := stomp_run_iteration e draw' pick' (mkWorld (w_sess first.2) net') in
  first.1 = Pending /\ ss_connected (w_sess first.2) = true /\ ss_stream (w_sess first.2) = Some c /\
  (exists m, second.1 = Ret m /\ is_error m = false /\ status_code m = 200) /\
  written c (nt_wire (w_net second.2)) = sent ++ [take k (encode f1); encode f2] /\
  exists d fs, feed Decoder_new sent = Some (d, connect_frame :: fs) /\ rest d = [] /\
    forall d' g, Z.of_nat (length (buf d) + 2 * length (encode f1) + length (encode f2)) <= U64_MAX ->
      next_frame (push (take k (encode f1) ++ encode f2) d) = (d', Decoded g) ->
      (length (rest d') < length (encode f2))%nat.
Proof.
  intros f1 f2 sent Hh Hv Hl Hmode Hrec Hcon Hst Hmax Hk Hf1 Hf2 Hw Hn Hw1 first Hw' Hn' Hw2 second.
  assert (Hwh : whole e (mkWorld (w_sess w) ((w_net w){{ nt_writes := [] }}))) by (by apply (history_whole e w)).
  destruct Hwh as (Hi & _ & Hc). destruct (Hc Hcon) as (fs & c' & Hst' & Hwr & Hfs).
  simpl in Hst', Hwr. rewrite Hst in Hst'. injection Hst' as <-.
  pose proof (inv_same_wire e _ net Hi Hw Hn) as Hi1. simpl in Hi1.
  destruct (nt_writes net) as [|a l] eqn:Ea; [done|]. injection Hw1 as ->.
  pose proof (connected_iteration e draw pick (mkWorld (w_sess w) net) c _ l Hi1 Hmode Hrec Hcon Hst Ea Hf1) as H1.
  pose proof (iteration_spec e draw pick (mkWorld (w_sess w) net) Hi1) as Hinv.
  fold first in H1, Hinv. clearbody first. destruct first as [r1 w1]. simpl in *.
  destruct H1 as (-> & Hwire & Hconns & Hcon1 & Hst1).
  pose proof (inv_same_wire e w1 net' Hinv Hw' Hn') as Hi2.
  destruct (nt_writes net') as [|a l'] eqn:Ea'; [done|]. injection Hw2 as ->.
  pose proof (connected_iteration e draw' pick' (mkWorld (w_sess w1) net') c _ l' Hi2 Hmode Hrec Hcon1 Hst1 Ea' Hf2) as H2.
  fold second in H2. clearbody second. destruct second as [r2 w2]. simpl in *. destruct H2 as (Hm & Hwire2).
  split_and!; try done.
  { rewrite Hwire2, Hw', Hwire, Hw, !written_app, !written_one, !decide_True by done. by rewrite <- app_assoc. }
  destruct (carried_decodes e fs sent sent Hv Hl Hfs Hwr eq_refl Hmax) as (d & Hd & Hr).
  exists d, fs. split_and!; [done|done|]. intros d' g Hb Hg.
  assert (Hd0 : decoder_wf d) by (eapply feed_wf; [|exact Hd]; unfold decoder_wf; simpl; lia).
  eapply (stump_swallows _ f1 k (encode f2)); [by apply push_wf| |done| | |exact Hg].
  - by apply send_frame_ok.
  - unfold rest, push in *. simpl. rewrite drop_app_le, Hr by (unfold decoder_wf in Hd0; lia). done.
  - simpl. rewrite !length_app, length_take. lia.
Qed.

(** ** Witnesses *)

(** An iteration of the session of [StompSession]'s witnesses: a stale receipt
    arrives first, the awaited one is cut in two reads. *)
Lemma demo_history receipt : undropped_history (demo_engine receipt) (mkWorld (new_session (demo_engine receipt)) fresh_net).
Proof. by constructor. Qed.

Lemma demo_engine_valid receipt : engine_valid (demo_engine receipt).
Proof. by split; [|repeat constructor]. Qed.

Lemma demo_facts :
  match demo_outcome with (Ret m, w') => is_error m = false /\ ss_stream (w_sess w') = Some 0%nat | _ => False end /\
  Z.of_nat (length (concat (written 0 (nt_wire (w_net demo_outcome.2))))) <= U64_MAX.
Proof. split; vm_compute; [done|congruence]. Qed.

Lemma stomp_send_decodes_witness :
  exists m w', demo_outcome = (Ret m, w') /\
  exists d fs f, feed Decoder_new (written 0 (nt_wire (w_net w'))) = Some (d, connect_frame :: fs ++ [f]) /\
    body f = as_bytes "hello" /\ command f = "SEND"%string.
Proof.
  destruct demo_facts as [Ho Hl]. destruct demo_outcome as [[m| | |] w'] eqn:E; [|destruct Ho..].
  exists m, w'. split; [reflexivity|]. destruct Ho as [Hm Hst0].
  destruct (stomp_send_decodes (demo_engine true) f64_zero 0 (mkWorld (new_session (demo_engine true)) fresh_net)
    (w_net demo_world) w' m (demo_history true) eq_refl eq_refl
    ltac:(by repeat constructor) (demo_engine_valid true) ltac:(vm_compute; congruence) eq_refl E Hm)
    as (c & fs & f & rid & s & Hst & Hlast & Hd & _ & Hcmd & Hb & _).
  rewrite Hst0 in Hst. injection Hst as <-. destruct (Hd _ eq_refl Hl) as (d & Hf & _).
  exists d, fs, f. split; [exact Hf|]. split; [exact Hb|exact Hcmd].
Defined.

(** A connected session, a SEND dropped after 20 bytes, and the next one. *)
Definition demo_connected : World :=
  (stomp_run_iteration (demo_engine false) f64_zero 0 (mkWorld (new_session (demo_engine false))
     (demo_net [WriteOk; WriteOk] [connected_bytes] fresh_net))).2.

Lemma interrupted_send_corrupts_witness :
  let e := demo_engine false in
  let first := stomp_run_iteration e f64_zero 0 (mkWorld (w_sess demo_connected)
    (demo_net [WriteDropped 20] [] (w_net demo_connected))) in
  let second := stomp_run_iteration e f64_zero 0 (mkWorld (w_sess first.2) (demo_net [WriteOk] [] (w_net first.2))) in
  first.1 = Pending /\ exists m, second.1 = Ret m /\ is_error m = false /\ status_code m = 200.
Proof.
  intros e first second.
  destruct (interrupted_send_corrupts e 0 20 demo_connected (demo_net [WriteDropped 20] [] (w_net demo_connected))
    (demo_net [WriteOk] [] (w_net first.2)) f64_zero 0 f64_zero 0) as (H1 & _ & _ & H2 & _).
  - by apply (undropped_iteration e _ _ f64_zero 0 (demo_history false)); [..|repeat constructor].
  - apply demo_engine_valid.
  - vm_compute. congruence.
  - done.
  - done.
  - vm_compute. reflexivity.
  - vm_compute. reflexivity.
  - vm_compute. congruence.
  - vm_compute. lia.
  - vm_compute. congruence.
  - vm_compute. congruence.
  - done.
  - done.
  - done.
  - done.
  - done.
  - done.
  - by split.
Defined.

(** There the broker decodes one SEND out of the last two, addressed to a
    destination that was never configured. *)
Example interrupted_send_redirected :
  let e := demo_engine false in
  let first := stomp_run_iteration e f64_zero 0 (mkWorld (new_session e)
    (demo_net [WriteOk; WriteDropped 20] [connected_bytes] fresh_net)) in
  let second := stomp_run_iteration e f64_zero 0 (mkWorld (w_sess first.2) (demo_net [WriteOk] [] (w_net first.2))) in
  exists d f, feed Decoder_new (written 0 (nt_wire (w_net second.2))) = Some (d, [connect_frame; f]) /\
    command f = "SEND"%string /\ header "destination" f = Some "/quSEND"%string /\
    se_destination e = "/queue/a"%string.
Proof. eexists _, _. split; [vm_compute; reflexivity|]. split_and!; vm_compute; reflexivity. Qed.
