(* ===== verification/Sse.v ===== *)
(** Server-Sent Events ([src/protocols/sse.rs]): the incremental event-stream
    parser and the persistent and stateless iterations of the engine.

    The connection attempt and the chunks a response body will deliver are the
    inputs of an iteration: a connection is its status code and the list of
    results of [stream.next()], whose end is the end of the stream.  Instants are
    nanoseconds of a monotonic clock; the readings an iteration makes are the
    fields of [IterClock]. *)

From S2P Require Import Prelude RustStr Chaos Samples Histogram Aggregate.

#[local] Open Scope Z_scope.
#[local] Open Scope rust_scope.

(** ** The parser *)

Record SseEvent := mkSseEvent {
  ev_event_type : bytes;
  ev_data : bytes;
  ev_id : option bytes;
}.

Definition CRLF2 : bytes := [CR; LF; CR; LF].
Definition LF2 : bytes := [LF; LF].

Definition find_frame_end (buffer : bytes) : option nat :=
  match find_sub CRLF2 buffer, find_sub LF2 buffer with
  | Some c, Some l => Some (Nat.min c l)
  | Some c, None => Some c
  | None, Some l => Some l
  | None, None => None
  end.

(** One optional space after the colon is dropped. *)
Definition strip_space (value : bytes) : bytes := default value (strip_prefix [" "%char] value).

(** One line of a frame, on the accumulated (event type, data lines, id). *)
Definition parse_line (st : bytes * list bytes * option bytes) (line : bytes)
  : bytes * list bytes * option bytes :=
  let '(event_type, data_lines, id) := st in
  if bytes_prefix [":"%char] line then st
  else match strip_prefix (as_bytes "data:") line with
  | Some value => (event_type, data_lines ++ [strip_space value], id)
  | None =>
      match strip_prefix (as_bytes "event:") line with
      | Some value => (strip_space value, data_lines, id)
      | None =>
          match strip_prefix (as_bytes "id:") line with
          | Some value => (event_type, data_lines, Some (strip_space value))
          | None => st
          end
      end
  end.

Definition parse_frame (frame : bytes) : option SseEvent :=
  let '(event_type, data_lines, id) := foldl parse_line ([], [], None) (lines frame) in
  match data_lines with
  | [] => None
  | _ => Some (mkSseEvent event_type (join_bytes [LF] data_lines) id)
  end.

(** The loop of [parse_sse_chunk]; every round drops at least two bytes, so the
    length of the buffer is enough fuel ([frames_eq]). *)
Fixpoint frames_loop (fuel : nat) (buffer : bytes) : list SseEvent * bytes :=
  match fuel with
  | O => ([], buffer)
  | S fuel =>
      match find_frame_end buffer with
      | None => ([], buffer)
      | Some frame_end =>
          let frame := take frame_end buffer in
          let delim_len := if bytes_prefix CRLF2 (drop frame_end buffer) then 4%nat else 2%nat in
          let (events, buffer) := frames_loop fuel (drop (frame_end + delim_len) buffer) in
          (option_list (parse_frame frame) ++ events, buffer)
      end
  end.

Definition parse_sse_chunk (buffer chunk : bytes) : list SseEvent * bytes :=
  frames_loop (S (length (buffer ++ chunk))) (buffer ++ chunk).

(** ** The engine *)

Record SseSession := mkSseSession {
  ss_stream : option (list (result string bytes));
  ss_status_code : Z;
  ss_events_received : Z;
  ss_first_event_time : option Z;
  ss_last_event_time : option Z;
  ss_buffer : bytes;
  ss_max_events : option Z;
}.

Definition SseSession_new (max_events : option Z) : SseSession :=
  mkSseSession None 0 0 None None [] max_events.

Definition is_max_reached (s : SseSession) : bool :=
  match ss_max_events s with Some max => max <=? ss_events_received s | None => false end.

Definition build_headers (headers : list (string * string)) : list (string * string) :=
  let has name l := existsb (fun kv : string * string => eq_ignore_ascii_case kv.1 name) l in
  let merged := if has "accept"%string headers then headers
                else headers ++ [("accept", "text/event-stream")%string] in
  if has "cache-control"%string merged then merged
  else merged ++ [("cache-control", "no-cache")%string].

Definition normalize_url (url : bytes) : bytes :=
  match strip_prefix (as_bytes "sse://") url with
  | Some rest => as_bytes "http://" ++ rest
  | None => match strip_prefix (as_bytes "sses://") url with
            | Some rest => as_bytes "https://" ++ rest
            | None => url
            end
  end.

Record IterClock := mkIterClock {
  ic_start : Z;        (** when the iteration begins *)
  ic_connect : Z;      (** when it begins to connect *)
  ic_connected : Z;    (** when a dropped or failed connection attempt is measured *)
  ic_read : Z;         (** when it begins to read *)
  ic_event : Z;        (** when the first event of the iteration was parsed *)
  ic_end : Z;          (** when the result is measured *)
}.

Definition micros_between (t t' : Z) : Z := Z.max 0 (t' - t) / 1000.

(** What an iteration meets outside: the fault drawn for it, the outcome of
    connecting and the clock. *)
Record Iteration := mkIteration {
  it_fault : option ChaosFault;
  it_connect : result string (Z * list (result string bytes));
  it_clock : IterClock;
}.

(** [apply_chaos]: only a dropped connection ends the iteration (a latency spike
    sleeps, which the clock readings show). *)
Definition apply_chaos (fault : option ChaosFault) : option RequestMetric :=
  match fault with
  | Some ConnectionDrop => Some (error_metric 0 fault)
  | _ => None
  end.

Definition with_latency (us : Z) (m : RequestMetric) : RequestMetric :=
  mkRequestMetric us (status_code m) (rm_bytes_received m) (is_reconnect m)
    (connection m) (protocol m) (chaos_fault m).

Inductive ReadOutcome :=
  | ReadEvents (count : Z)
  | ReadEof
  | ReadError.

(** One chunk of the body: its text replaces what is not UTF-8 in this chunk alone. *)
Definition receive_chunk (buffer chunk : bytes) : list SseEvent * bytes :=
  parse_sse_chunk buffer (from_utf8_lossy chunk).

(** Read chunks until one completes an event: outcome, remaining stream, buffer
    and bytes read. *)
Fixpoint read_events (chunks : list (result string bytes)) (buffer : bytes) (total_bytes : Z)
  : ReadOutcome * list (result string bytes) * bytes * Z :=
  match chunks with
  | [] => (ReadEof, [], buffer, total_bytes)
  | Err _ :: rest => (ReadError, rest, buffer, total_bytes)
  | Ok chunk :: rest =>
      let total_bytes := total_bytes +! Z.of_nat (length chunk) in
      let (events, buffer) := receive_chunk buffer chunk in
      match events with
      | [] => read_events rest buffer total_bytes
      | _ => (ReadEvents (Z.of_nat (length events)), rest, buffer, total_bytes)
      end
  end.

Definition is_http_error (status : Z) : bool := (400 <=? status) && (status <=? 599).

(** The stateless mode. *)
Definition execute_iteration (it : Iteration) : RequestMetric :=
  let clk := it_clock it in
  let fault := it_fault it in
  match apply_chaos fault with
  | Some metric => with_latency (micros_between (ic_start clk) (ic_connected clk)) metric
  | None =>
      match it_connect it with
      | Err _ => error_metric (micros_between (ic_start clk) (ic_connected clk)) fault
      | Ok (status, chunks) =>
          let latency := micros_between (ic_start clk) (ic_end clk) in
          if is_http_error status then
            b_sse_events (Some 0) None None (b_status status (builder latency fault))
          else
            match read_events chunks [] 0 with
            | (ReadEvents n, _, _, total_bytes) =>
                b_sse_events (Some n) (Some (wrap64 latency)) None
                  (b_bytes total_bytes (b_status status (builder latency fault)))
            | (ReadError, _, _, _) => error_metric latency fault
            | (ReadEof, _, _, total_bytes) =>
                b_sse_events (Some 0) None None
                  (b_bytes total_bytes (b_status status (builder latency fault)))
            end
      end
  end.

(** The read phase of the persistent mode, on a connected session. *)
Definition read_phase (it : Iteration) (was_connected : bool) (fault : option ChaosFault)
    (chunks : list (result string bytes)) (s : SseSession) : SseSession * RequestMetric :=
  let clk := it_clock it in
  let latency := micros_between (ic_read clk) (ic_end clk) in
  let status := ss_status_code s in
  match read_events chunks (ss_buffer s) 0 with
  | (ReadEvents _, rest, buffer, total_bytes) =>
      let received := ss_events_received s +! 1 in
      let now := ic_event clk in
      let first_event_us := match ss_first_event_time s with
                            | None => Some (wrap64 (micros_between (ic_start clk) now))
                            | Some _ => None
                            end in
      let interval_us := (fun last => wrap64 (micros_between last now)) <$> ss_last_event_time s in
      (mkSseSession (Some rest) status received
         (match ss_first_event_time s with None => Some now | t => t end) (Some now)
         buffer (ss_max_events s),
       b_sse_events (Some received) first_event_us interval_us
         (b_socket_reused was_connected (b_bytes total_bytes (b_status status (builder latency fault)))))
  | (outcome, _, _, total_bytes) =>
      (mkSseSession None status (ss_events_received s) (ss_first_event_time s)
         (ss_last_event_time s) [] (ss_max_events s),
       match outcome with
       | ReadError => error_metric latency fault
       | _ => b_sse_events (Some (ss_events_received s)) None None
                (b_socket_reused was_connected
                   (b_bytes total_bytes (b_status status (builder latency fault))))
       end)
  end.

(** The persistent mode. *)
Definition execute_iteration_with_context (it : Iteration) (s : SseSession)
  : SseSession * RequestMetric :=
  let clk := it_clock it in
  let was_connected := match ss_stream s with Some _ => true | None => false end in
  if is_max_reached s then
    (s, b_sse_events (Some (ss_events_received s)) None None
          (b_socket_reused was_connected (b_status (ss_status_code s) (builder 0 None))))
  else
    match ss_stream s with
    | Some chunks => read_phase it was_connected None chunks s
    | None =>
        match apply_chaos (it_fault it) with
        | Some metric =>
            (s, with_latency (micros_between (ic_connect clk) (ic_connected clk)) metric)
        | None =>
            match it_connect it with
            | Err _ =>
                (s, error_metric (micros_between (ic_connect clk) (ic_connected clk)) (it_fault it))
            | Ok (status, chunks) =>
                read_phase it was_connected (it_fault it) chunks
                  (mkSseSession (Some chunks) status 0 None (ss_last_event_time s)
                     (ss_buffer s) (ss_max_events s))
            end
        end
    end.

(** A worker runs iterations on its session. *)
Fixpoint sse_run (s : SseSession) (its : list Iteration) : SseSession * list RequestMetric :=
  match its with
  | [] => (s, [])
  | it :: its =>
      let (s, m) := execute_iteration_with_context it s in
      let (s, ms) := sse_run s its in (s, m :: ms)
  end.

Example sse_parses :
  parse_sse_chunk (as_bytes "data: x" ++ [CR; LF; CR]) ([LF] ++ as_bytes "id:7" ++ [LF] ++ as_bytes "data: y" ++ LF2)
  = ([mkSseEvent [] (as_bytes "x") None; mkSseEvent [] (as_bytes "y") (Some (as_bytes "7"))], []).
Proof. reflexivity. Qed.

(** ** Frames *)

Definition is_delim (s : bytes) : bool := bytes_prefix CRLF2 s || bytes_prefix LF2 s.

Lemma find_frame_end_eq s :
  find_frame_end s =
    if is_delim s then Some O
    else match s with [] => None | _ :: s => S <$> find_frame_end s end.
Proof.
  unfold find_frame_end, is_delim. destruct s as [|c s]; [done|].
  cbn [find_sub]. destruct (bytes_prefix CRLF2 (c :: s)), (bytes_prefix LF2 (c :: s)); cbn [orb].
  - done.
  - by destruct (find_sub LF2 s).
  - by destruct (find_sub CRLF2 s).
  - by destruct (find_sub CRLF2 s), (find_sub LF2 s).
Qed.

Lemma bytes_prefix_app p s t : bytes_prefix p s = true -> bytes_prefix p (s ++ t) = true.
Proof.
  revert s. induction p as [|a p IH]; intros [|b s]; simpl; try done.
  rewrite !andb_true_iff. naive_solver.
Qed.

(** A prefix test is decided by as many bytes as the prefix has. *)
Lemma bytes_prefix_short p s t :
  (length p <= length s)%nat -> bytes_prefix p (s ++ t) = bytes_prefix p s.
Proof.
  revert s. induction p as [|a p IH]; intros [|b s]; simpl; try done; [lia|].
  intros. rewrite IH by lia. done.
Qed.

Lemma is_delim_app s t : is_delim s = true -> is_delim (s ++ t) = true.
Proof. unfold is_delim. rewrite !orb_true_iff. intros [?|?]; auto using bytes_prefix_app. Qed.

Lemma find_frame_end_single a i : find_frame_end [a] <> Some i.
Proof.
  rewrite find_frame_end_eq. unfold is_delim, CRLF2, LF2. cbn [bytes_prefix].
  by rewrite !andb_false_r.
Qed.

(** No delimiter can appear in front of a complete one. *)
Lemma is_delim_stable c s t i :
  find_frame_end s = Some i -> is_delim (c :: s) = false -> is_delim (c :: s ++ t) = false.
Proof.
  intros Hf Hd. destruct s as [|a [|b s]]; [done|by apply find_frame_end_single in Hf|].
  destruct s as [|d s].
  - unfold is_delim in *. apply orb_false_iff in Hd as [_ Hd]. apply orb_false_iff. split; [|exact Hd].
    unfold CRLF2. cbn [bytes_prefix app].
    destruct (Ascii.eqb_spec CR c) as [_|]; [|done]. destruct (Ascii.eqb_spec LF a) as [<-|]; [|done].
    destruct (Ascii.eqb_spec CR b) as [<-|]; [|done]. by vm_compute in Hf.
  - rewrite <- Hd. unfold is_delim. change (c :: (a :: b :: d :: s) ++ t) with ((c :: a :: b :: d :: s) ++ t).
    rewrite !bytes_prefix_short by (simpl; lia). done.
Qed.

Lemma find_frame_end_app s t i : find_frame_end s = Some i -> find_frame_end (s ++ t) = Some i.
Proof.
  revert i. induction s as [|c s IH]; intros i; [done|].
  rewrite (find_frame_end_eq (c :: s)), (find_frame_end_eq ((c :: s) ++ t)).
  destruct (is_delim (c :: s)) eqn:Hd; [by rewrite is_delim_app|].
  intros (j & Hj & ->)%fmap_Some. simpl app. rewrite (is_delim_stable _ _ _ _ Hj Hd).
  by rewrite (IH _ Hj).
Qed.

Definition delim_len (s : bytes) : nat := if bytes_prefix CRLF2 s then 4%nat else 2%nat.

(** What follows the end of a frame starts with its delimiter, all of it. *)
Lemma find_frame_end_delim s i :
  find_frame_end s = Some i ->
  is_delim (drop i s) = true /\ (i + delim_len (drop i s) <= length s)%nat.
Proof.
  revert i. induction s as [|c s IH]; intros i; [done|].
  rewrite find_frame_end_eq. destruct (is_delim (c :: s)) eqn:Hd.
  - intros [= <-]. split; [done|]. unfold is_delim, delim_len in *. cbn [drop].
    destruct (bytes_prefix CRLF2 (c :: s)) eqn:Hc.
    + revert Hc. destruct s as [|? [|? [|? ?]]]; simpl; rewrite ?andb_false_r; try done. lia.
    + revert Hd. destruct s as [|? ?]; simpl; rewrite ?andb_false_r; try done. lia.
  - intros (j & (Hj & Hl)%IH & ->)%fmap_Some. simpl. split; [done|lia].
Qed.

Lemma delim_len_app s t : is_delim s = true -> delim_len (s ++ t) = delim_len s.
Proof.
  unfold is_delim, delim_len. destruct (bytes_prefix CRLF2 s) eqn:Hc.
  - by rewrite (bytes_prefix_app _ _ _ Hc).
  - destruct s as [|a s]; [done|]. unfold LF2, CRLF2. cbn [bytes_prefix orb app].
    rewrite andb_true_iff, Ascii.eqb_eq. by intros [<- _].
Qed.

(** The next frame and what follows its delimiter. *)
Definition cut (s : bytes) : option (bytes * bytes) :=
  i ← find_frame_end s; Some (take i s, drop (i + delim_len (drop i s)) s).

Lemma cut_app s t fr r : cut s = Some (fr, r) -> cut (s ++ t) = Some (fr, r ++ t).
Proof.
  unfold cut. intros (i & Hi & E)%bind_Some. injection E as <- <-.
  destruct (find_frame_end_delim _ _ Hi) as [Hd Hl].
  rewrite (find_frame_end_app _ _ _ Hi). cbn [mbind option_bind]. do 2 f_equal.
  - rewrite take_app_le by lia. done.
  - rewrite (drop_app_le s t i) by lia. rewrite delim_len_app by done.
    by rewrite drop_app_le by lia.
Qed.

Lemma cut_shorter s fr r : cut s = Some (fr, r) -> (length r < length s)%nat.
Proof.
  unfold cut. intros (i & Hi & E)%bind_Some. injection E as <- <-.
  apply find_frame_end_delim in Hi as [_ Hl]. rewrite length_drop.
  unfold delim_len in *. destruct (bytes_prefix _ _); lia.
Qed.

Definition frames (s : bytes) : list SseEvent * bytes := frames_loop (S (length s)) s.

Lemma frames_loop_S fuel s :
  frames_loop (S fuel) s =
    match cut s with
    | None => ([], s)
    | Some (fr, r) =>
        let (es, b) := frames_loop fuel r in (option_list (parse_frame fr) ++ es, b)
    end.
Proof. unfold cut, delim_len. simpl. by destruct (find_frame_end s). Qed.

Lemma frames_loop_fuel n m s :
  (length s < n)%nat -> (length s < m)%nat -> frames_loop n s = frames_loop m s.
Proof.
  revert m s. induction n as [|n IH]; intros [|m] s; try lia. intros Hn Hm.
  rewrite !frames_loop_S. destruct (cut s) as [[fr r]|] eqn:Hc; [|done].
  apply cut_shorter in Hc. by rewrite (IH m r) by lia.
Qed.

(** The fuel is enough: the loop satisfies its equation without fuel. *)
Lemma frames_eq s :
  frames s =
    match cut s with
    | None => ([], s)
    | Some (fr, r) => let (es, b) := frames r in (option_list (parse_frame fr) ++ es, b)
    end.
Proof.
  unfold frames at 1. rewrite frames_loop_S. destruct (cut s) as [[fr r]|] eqn:Hc; [|done].
  apply cut_shorter in Hc. unfold frames. by rewrite (frames_loop_fuel (length s) (S (length r)) r) by lia.
Qed.

(** Frames of an extended buffer: those already complete, then the rest. *)
Lemma frames_app s t :
  frames (s ++ t) =
    let (es, b) := frames s in let (es', b') := frames (b ++ t) in (es ++ es', b').
Proof.
  remember (length s) as n eqn:Hn. revert s Hn. induction n as [n IH] using lt_wf_ind. intros s ->.
  rewrite (frames_eq s). destruct (cut s) as [[fr r]|] eqn:Hc.
  - rewrite frames_eq, (cut_app _ _ _ _ Hc), (IH _ (cut_shorter _ _ _ Hc) r eq_refl).
    destruct (frames r) as [es b]. destruct (frames (b ++ t)). by rewrite app_assoc.
  - by destruct (frames (s ++ t)).
Qed.

(** The parser leaves no complete frame behind. *)
Lemma frames_rest s : find_frame_end (frames s).2 = None.
Proof.
  remember (length s) as n eqn:Hn. revert s Hn. induction n as [n IH] using lt_wf_ind. intros s ->.
  rewrite frames_eq. destruct (cut s) as [[fr r]|] eqn:Hc.
  - specialize (IH _ (cut_shorter _ _ _ Hc) r eq_refl). by destruct (frames r).
  - simpl. unfold cut in Hc. by destruct (find_frame_end s).
Qed.

(** The parser over pieces of text. *)
Fixpoint sse_feed (buffer : bytes) (chunks : list bytes) : list SseEvent * bytes :=
  match chunks with
  | [] => ([], buffer)
  | c :: chunks =>
      let (es, buffer) := parse_sse_chunk buffer c in
      let (es', buffer) := sse_feed buffer chunks in (es ++ es', buffer)
  end.

Lemma parse_sse_chunk_frames b c : parse_sse_chunk b c = frames (b ++ c).
Proof. done. Qed.

Lemma sse_feed_frames b chunks :
  find_frame_end b = None -> sse_feed b chunks = frames (b ++ concat chunks).
Proof.
  revert b. induction chunks as [|c chunks IH]; intros b Hb; simpl.
  - rewrite app_nil_r, frames_eq. unfold cut. by rewrite Hb.
  - rewrite parse_sse_chunk_frames, app_assoc, (frames_app (b ++ c)).
    pose proof (frames_rest (b ++ c)) as Hr. destruct (frames (b ++ c)) as [es b']. simpl in Hr.
    by rewrite IH.
Qed.

(** The session over chunks of the body, each decoded on its own. *)
Fixpoint sse_receive (buffer : bytes) (chunks : list bytes) : list SseEvent * bytes :=
  match chunks with
  | [] => ([], buffer)
  | c :: chunks =>
      let (es, buffer) := receive_chunk buffer c in
      let (es', buffer) := sse_receive buffer chunks in (es ++ es', buffer)
  end.







(** ** Serialised events *)


(** A frame as it is sent: its lines, then a blank line. *)
Definition wire (ls : list bytes) : bytes := (ls ≫= fun l => l ++ [LF]) ++ [LF].

(** The event stream format of an event. *)
Definition event_lines (e : SseEvent) : list bytes :=
  (if decide (ev_event_type e = []) then [] else [as_bytes "event: " ++ ev_event_type e]) ++
  (match ev_id e with Some i => [as_bytes "id: " ++ i] | None => [] end) ++
  ((fun l => as_bytes "data: " ++ l) <$> split_lf (ev_data e)).

Definition encode_event (e : SseEvent) : bytes := wire (event_lines e).














(** ** Sessions *)

Definition session_ok (max : option Z) (s : SseSession) : Prop :=
  ss_max_events s = max /\ 0 <= ss_events_received s /\
  (forall m, max = Some m -> ss_events_received s <= m) /\
  (ss_stream s = None -> ss_buffer s = []) /\ find_frame_end (ss_buffer s) = None.

Lemma session_ok_new max :
  (forall m, max = Some m -> 0 <= m) -> session_ok max (SseSession_new max).
Proof. intros Hm. by split_and!. Qed.

Lemma read_events_buffer chunks b total o rest b' total' :
  find_frame_end b = None -> read_events chunks b total = (o, rest, b', total') ->
  find_frame_end b' = None.
Proof.
  revert b total. induction chunks as [|[c|e] chunks IH]; intros b total Hb; simpl; try naive_solver.
  unfold receive_chunk. rewrite parse_sse_chunk_frames. pose proof (frames_rest (b ++ from_utf8_lossy c)) as Hr.
  destruct (frames _) as [[|e es] b1]; naive_solver.
Qed.

(** The events an iteration reports, and whether it reports a time to the first
    event. *)
Definition reported (m : RequestMetric) : option Z := s ← rm_sse m; sses_events_received s.
Definition reports_ttfb (m : RequestMetric) : bool :=
  match rm_sse m with Some (mkSseSample _ (Some _) _) => true | _ => false end.

(** Whether an iteration opens a connection. *)
Definition opens (it : Iteration) (s : SseSession) : bool :=
  negb (is_max_reached s) && bool_decide (ss_stream s = None) &&
  bool_decide (it_fault it <> Some ConnectionDrop) && is_ok (it_connect it).

Fixpoint sse_opens (s : SseSession) (its : list Iteration) : Z :=
  match its with
  | [] => 0
  | it :: its => (if opens it s then 1 else 0) + sse_opens (execute_iteration_with_context it s).1 its
  end.

(** A read phase keeps the session sound and reports at most the cap. *)
Lemma read_phase_ok max it wc fault chunks s :
  (forall m, max = Some m -> 0 <= m <= U64_MAX) ->
  session_ok max s -> is_max_reached s = false -> ss_stream s = Some chunks ->
  let (s', m) := read_phase it wc fault chunks s in
  session_ok max s' /\
  (forall n, reported m = Some n -> 0 <= n /\ forall x, max = Some x -> n <= x) /\
  (if reports_ttfb m then 1 else 0) +
  (if decide (ss_stream s' <> None /\ ss_first_event_time s' = None) then 1 else 0)
  <= (if decide (ss_first_event_time s = None) then 1 else 0).
Proof.
  intros Hmax (Hm & H0 & Hcap & _ & Hb) Hr Hs. unfold read_phase.
  destruct (read_events chunks (ss_buffer s) 0) as [[[o rest] b'] total] eqn:E.
  pose proof (read_events_buffer _ _ _ _ _ _ _ Hb E) as Hb'.
  assert (Hw : 0 <= ss_events_received s +! 1) by apply wrap64_range.
  assert (Hw' : forall x, max = Some x -> ss_events_received s +! 1 <= x).
  { intros x Hx. unfold is_max_reached in Hr. rewrite Hm, Hx in Hr. apply Z.leb_gt in Hr.
    specialize (Hmax x Hx). rewrite u64_add_small by (unfold in_u64; lia). lia. }
  destruct o as [n| |]; (split_and!; [by split_and!| |]).
  - intros ? [= <-]. done.
  - simpl. unfold reports_ttfb. simpl. destruct (ss_first_event_time s); simpl; repeat case_decide; naive_solver lia.
  - intros ? [= <-]. done.
  - repeat case_decide; simpl; naive_solver lia.
  - done.
  - repeat case_decide; simpl; naive_solver lia.
Qed.

Lemma apply_chaos_spec f :
  (f = Some ConnectionDrop /\ apply_chaos f = Some (error_metric 0 f)) \/
  (f <> Some ConnectionDrop /\ apply_chaos f = None).
Proof. destruct f as [[]|]; naive_solver. Qed.

Lemma iteration_ok max it s :
  (forall m, max = Some m -> 0 <= m <= U64_MAX) -> session_ok max s ->
  let (s', m) := execute_iteration_with_context it s in
  session_ok max s' /\
  (forall n, reported m = Some n -> 0 <= n /\ forall x, max = Some x -> n <= x) /\
  (if reports_ttfb m then 1 else 0) +
  (if decide (ss_stream s' <> None /\ ss_first_event_time s' = None) then 1 else 0)
  <= (if decide (ss_stream s <> None /\ ss_first_event_time s = None) then 1 else 0) +
     (if opens it s then 1 else 0).
Proof.
  intros Hmax Hok. unfold execute_iteration_with_context, opens.
  destruct (is_max_reached s) eqn:Hr.
  { split_and!; [done| |simpl; lia]. intros ? [= <-]. destruct Hok as (_ & ? & ? & _). auto. }
  destruct (ss_stream s) as [chunks|] eqn:Hs.
  { pose proof (read_phase_ok max it true None chunks s Hmax Hok Hr Hs) as Hp.
    destruct (read_phase _ _ _ _ _) as [s' m]. destruct Hp as (? & ? & Hp). split_and!; [done..|].
    revert Hp. repeat case_decide; simpl; naive_solver lia. }
  rewrite bool_decide_eq_true_2 by done. cbn [negb andb].
  destruct (apply_chaos_spec (it_fault it)) as [[Hf ->]|[Hf ->]].
  { rewrite bool_decide_eq_false_2 by naive_solver. split_and!; [done|done|].
    unfold reports_ttfb. cbn [rm_sse protocol with_latency error_metric builder]. repeat case_decide; naive_solver lia. }
  rewrite bool_decide_eq_true_2 by done. cbn [andb].
  destruct (it_connect it) as [[status chunks]|e]; cbn [is_ok];
    [|split_and!; [done|done|]; unfold reports_ttfb; cbn [rm_sse protocol error_metric builder]; repeat case_decide; naive_solver lia].
  destruct Hok as (Hm & H0 & Hcap & Hbuf & Hb). specialize (Hbuf Hs).
  set (s0 := mkSseSession (Some chunks) status 0 None (ss_last_event_time s) (ss_buffer s) (ss_max_events s)).
  assert (Hok0 : session_ok max s0) by (split_and!; [done|done| |done|done]; intros m Hx; by apply Hmax in Hx as []).
  assert (Hr0 : is_max_reached s0 = false).
  { revert Hr. unfold is_max_reached. simpl. destruct (ss_max_events s) as [m|]; [|done]. rewrite !Z.leb_gt. lia. }
  pose proof (read_phase_ok max it false (it_fault it) chunks s0 Hmax Hok0 Hr0 eq_refl) as Hp.
  destruct (read_phase _ _ _ _ _) as [s' m]. destruct Hp as (? & ? & Hp). split_and!; [done..|].
  revert Hp. repeat case_decide; simpl; naive_solver lia.
Qed.

Lemma sse_run_ok max its s :
  (forall m, max = Some m -> 0 <= m <= U64_MAX) -> session_ok max s ->
  let (s', ms) := sse_run s its in
  session_ok max s' /\
  Forall (fun m => forall n, reported m = Some n -> 0 <= n /\ forall x, max = Some x -> n <= x) ms /\
  count_if reports_ttfb ms +
  (if decide (ss_stream s' <> None /\ ss_first_event_time s' = None) then 1 else 0)
  <= (if decide (ss_stream s <> None /\ ss_first_event_time s = None) then 1 else 0) + sse_opens s its.
Proof.
  intros Hmax. revert s. induction its as [|it its IH]; intros s Hok; cbn [sse_run sse_opens].
  - split_and!; [done|done|]. unfold count_if. simpl. lia.
  - pose proof (iteration_ok max it s Hmax Hok) as Hi.
    destruct (execute_iteration_with_context it s) as [s1 m]. destruct Hi as (Hok1 & Hn & Hc).
    specialize (IH s1 Hok1). destruct (sse_run s1 its) as [s2 ms]. destruct IH as (Hok2 & Hns & Hcs).
    split_and!; [done|by constructor|]. unfold count_if in *. csimpl. lia.
Qed.

(** ** What the aggregation makes of the reports *)

Definition sse_total (ms : list RequestMetric) : Z :=
  ssem_total_events_received (ssea_stats
    (foldl (fun a s => sse_record s a) SseAccumulator_default (omap rm_sse ms))).

Lemma sse_total_sum ms : sse_total ms = wrap64 (Zsum (omap reported ms)).
Proof.
  unfold sse_total.
  assert (Hg : forall a, in_u64 (ssem_total_events_received (ssea_stats a)) ->
    ssem_total_events_received (ssea_stats (foldl (fun a s => sse_record s a) a (omap rm_sse ms)))
    = wrap64 (ssem_total_events_received (ssea_stats a) + Zsum (omap reported ms)));
    [|by rewrite Hg].
  induction ms as [|m ms IH]; intros a Ha; csimpl; [by rewrite Z.add_0_r, wrap64_small|].
  unfold reported at 1. destruct (rm_sse m) as [s|]; csimpl; [|by apply IH].
  destruct (sses_events_received s) as [n|] eqn:E; csimpl.
  - rewrite IH; unfold sse_record; rewrite E; simpl; [|apply u64_add_range].
    unfold u64_add. rewrite wrap64_add_l. f_equal. lia.
  - rewrite IH; unfold sse_record; rewrite E; done.
Qed.

Lemma Zsum_seqZ a n : 2 * Zsum (seqZ a (Z.of_nat n)) = Z.of_nat n * (2 * a + Z.of_nat n - 1).
Proof.
  revert a. induction n as [|n IH]; intros a; [done|].
  rewrite seqZ_cons by lia. csimpl. replace (Z.pred (Z.of_nat (S n))) with (Z.of_nat n) by lia.
  specialize (IH (Z.succ a)). lia.
Qed.

(** A budget-spent session reports its cap again in every iteration. *)
Lemma sse_run_spent n its s :
  is_max_reached s = true -> ss_events_received s = n ->
  omap reported (sse_run s its).2 = replicate (length its) n.
Proof.
  intros Hr Hn. induction its as [|it its IH]; [done|]. cbn [sse_run length replicate].
  unfold execute_iteration_with_context. rewrite Hr.
  destruct (sse_run s its) as [s' ms]. simpl in IH. csimpl. by rewrite IH, Hn.
Qed.

Section overcount.
Context (c : bytes) (e : SseEvent) (rest : list (result string bytes)) (n : nat).
Context (Hc : parse_sse_chunk [] (from_utf8_lossy c) = ([e], [])).
Context (Hn : Z.of_nat n <= U64_MAX).

(** Reading one event counts one more. *)
Lemma read_one it wc fault j s :
  (j < n)%nat -> ss_buffer s = [] -> ss_events_received s = Z.of_nat (n - S j) ->
  let (s', m) := read_phase it wc fault (replicate (S j) (Ok c) ++ rest) s in
  reported m = Some (Z.of_nat (n - j)) /\ ss_stream s' = Some (replicate j (Ok c) ++ rest) /\
  ss_buffer s' = [] /\ ss_events_received s' = Z.of_nat (n - j) /\ ss_max_events s' = ss_max_events s.
Proof using Hc Hn.
  intros Hj Hb Hr. unfold read_phase. rewrite Hb. cbn [replicate app read_events]. unfold receive_chunk. rewrite Hc. simpl.
  unfold reported. simpl. rewrite Hr, u64_add_small by (unfold in_u64; lia).
  split_and!; try done; try f_equal; lia.
Qed.

(** A connected session with [j] events to come, of a budget of [n]. *)
Lemma sse_run_counts j k its s :
  (j <= n)%nat -> length its = (j + k)%nat -> ss_buffer s = [] ->
  ss_stream s = Some (replicate j (Ok c) ++ rest) ->
  ss_events_received s = Z.of_nat (n - j) -> ss_max_events s = Some (Z.of_nat n) ->
  omap reported (sse_run s its).2
  = seqZ (Z.of_nat (n - j) + 1) (Z.of_nat j) ++ replicate k (Z.of_nat n).
Proof using Hc Hn.
  revert its s. induction j as [|j IH]; intros its s Hj Hl Hb Hs Hr Hm.
  - rewrite (sse_run_spent (Z.of_nat n)); [by rewrite Hl| |rewrite Hr; f_equal; lia].
    unfold is_max_reached. rewrite Hm, Hr. apply Z.leb_le. lia.
  - destruct its as [|it its]; [done|]. cbn [sse_run]. unfold execute_iteration_with_context.
    assert (is_max_reached s = false) as ->.
    { unfold is_max_reached. rewrite Hm, Hr. apply Z.leb_gt. lia. }
    rewrite Hs. pose proof (read_one it true None j s Hj Hb Hr) as Hp.
    destruct (read_phase _ _ _ _ _) as [s1 m]. destruct Hp as (Hrep & Hs1 & Hb1 & Hr1 & Hm1).
    specialize (IH its s1 ltac:(lia) ltac:(simpl in Hl; lia) Hb1 Hs1 Hr1 ltac:(congruence)).
    destruct (sse_run s1 its) as [s2 ms]. simpl in IH. csimpl. rewrite Hrep, IH.
    rewrite (seqZ_cons _ (Z.of_nat (S j))) by lia. simpl. f_equal; [lia|]. f_equal. f_equal; lia.
Qed.
End overcount.

(** ** Theorems *)

(** C16. The parser does not see chunk boundaries: feeding an event stream in
    any chunks (cut inside lines, fields or a CRLF delimiter) gives the events
    and the pending buffer of feeding it at once, and the pending buffer never
    holds a complete frame. *)
Theorem sse_chunking_irrelevant (chunks : list bytes) :
  sse_feed [] chunks = parse_sse_chunk [] (concat chunks) /\
  find_frame_end (sse_feed [] chunks).2 = None.
Proof.
  rewrite sse_feed_frames by done. split; [done|]. apply frames_rest.
Qed.


(** A chunk boundary inside a character corrupts the event: the two halves of the
    euro sign are replaced separately. *)
Example sse_split_character :
  let e := mkSseEvent (as_bytes "price") ([ch 226; ch 130; ch 172] ++ as_bytes "5") None in
  let w := encode_event e in
  sse_receive [] [w] = ([e], []) /\
  sse_receive [] [take 21 w; drop 21 w] =
    ([mkSseEvent (as_bytes "price") (REPLACEMENT ++ REPLACEMENT ++ as_bytes "5") None], []).
Proof. split; vm_compute; reflexivity. Qed.

(** The event budget holds: over any sequence of iterations (faults,
    failed connections, errors and ends of streams included) a session with a
    budget of [m] events never counts or reports more than [m]; a closed
    session has an empty buffer; and the time to the first event is reported
    at most once per opened connection. *)
Theorem sse_session_capped (m : Z) (its : list Iteration) :
  0 <= m <= U64_MAX ->
  let (s, ms) := sse_run (SseSession_new (Some m)) its in
  session_ok (Some m) s /\
  Forall (fun mt => forall n, reported mt = Some n -> 0 <= n <= m) ms /\
  count_if reports_ttfb ms <= sse_opens (SseSession_new (Some m)) its.
Proof.
  intros Hm.
  assert (Hmax : forall x, Some m = Some x -> 0 <= x <= U64_MAX) by naive_solver.
  pose proof (sse_run_ok (Some m) its _ Hmax (session_ok_new _ ltac:(naive_solver))) as Hr.
  destruct (sse_run _ _) as [s ms]. destruct Hr as (Hok & Hn & Hc). split_and!; [done| |].
  - apply (Forall_impl _ _ _ Hn). intros mt Hmt n Hrep. destruct (Hmt n Hrep) as [? Hx]. by specialize (Hx m eq_refl).
  - rewrite (decide_False (P := ss_stream (SseSession_new (Some m)) <> None /\ _)) in Hc by (by intros [[] _]).
    revert Hc. case_decide; lia.
Qed.

(** The event total is not the number of events: every iteration of a
    persistent session reports the running count of its connection, and the
    aggregation adds the reports up.  A session that receives its budget of [n]
    events one by one and then runs [k] more iterations is credited with
    [n (n + 1) / 2 + k n] events instead of [n]. *)
Theorem sse_total_overcounts c e rest n k status it its :
  parse_sse_chunk [] (from_utf8_lossy c) = ([e], []) ->
  (1 <= n)%nat -> Z.of_nat n <= U64_MAX -> length its = (n - 1 + k)%nat ->
  it_fault it = None -> it_connect it = Ok (status, replicate n (Ok c) ++ rest) ->
  sse_total (sse_run (SseSession_new (Some (Z.of_nat n))) (it :: its)).2
  = wrap64 (Z.of_nat n * (Z.of_nat n + 1) / 2 + Z.of_nat k * Z.of_nat n).
Proof.
  intros Hc H1 Hn Hl Hf Hcon. rewrite sse_total_sum. f_equal.
  pose proof (read_one c e rest n Hc Hn it false None (n - 1)
    (mkSseSession (Some (replicate n (Ok c) ++ rest)) status 0 None None [] (Some (Z.of_nat n)))
    ltac:(lia) eq_refl ltac:(simpl; lia)) as Hp.
  replace (S (n - 1)) with n in Hp by lia.
  cbn [sse_run]. unfold execute_iteration_with_context.
  assert (is_max_reached (SseSession_new (Some (Z.of_nat n))) = false) as -> by (apply Z.leb_gt; simpl; lia).
  cbn [ss_stream SseSession_new]. rewrite Hf, Hcon. cbn [apply_chaos ss_last_event_time ss_buffer ss_max_events].
  destruct (read_phase _ _ _ _ _) as [s1 m]. destruct Hp as (Hrep & Hs1 & Hb1 & Hr1 & Hm1).
  pose proof (sse_run_counts c e rest n Hc Hn (n - 1) k its s1 ltac:(lia) Hl Hb1 Hs1 Hr1 Hm1) as Hcnt.
  destruct (sse_run s1 its) as [s2 ms]. simpl in Hcnt. csimpl. rewrite Hrep, Hcnt. csimpl.
  rewrite Zsum_app.   assert (Hrepl : forall x j, Zsum (replicate j x) = Z.of_nat j * x).
  { intros x j. induction j as [|j IH]; [done|]. csimpl. rewrite IH. lia. }
  rewrite Hrepl. replace (Z.of_nat n * (Z.of_nat n + 1) / 2) with (1 + Zsum (seqZ (Z.of_nat (n - (n - 1)) + 1) (Z.of_nat (n - 1))));
    [lia|].
  apply Z.div_unique_exact; [done|].
  pose proof (Zsum_seqZ (Z.of_nat (n - (n - 1)) + 1) (n - 1)) as Hseq.
  generalize dependent (Zsum (seqZ (Z.of_nat (n - (n - 1)) + 1) (Z.of_nat (n - 1)))).
  intros x Hx. replace (Z.of_nat (n - (n - 1))) with 1 in Hx by lia.
  rewrite Nat2Z.inj_sub in Hx by lia. lia.
Qed.

(** ** Witnesses *)


Definition sample_clock : IterClock := mkIterClock 0 1000 2000 3000 4000 5000.

Definition sample_chunk : bytes := as_bytes "data: x" ++ LF2.

Definition sample_iteration (n : nat) : Iteration :=
  mkIteration None (Ok (200, replicate n (Ok sample_chunk))) sample_clock.


Lemma sse_session_capped_witness :
  let (s, ms) := sse_run (SseSession_new (Some 2)) (replicate 5 (sample_iteration 3)) in
  session_ok (Some 2) s /\
  Forall (fun mt => forall n, reported mt = Some n -> 0 <= n <= 2) ms /\
  count_if reports_ttfb ms <= sse_opens (SseSession_new (Some 2)) (replicate 5 (sample_iteration 3)).
Proof. apply (sse_session_capped 2 (replicate 5 (sample_iteration 3))). unfold U64_MAX. lia. Defined.

(** Three events and one more iteration are reported as nine. *)
Lemma sse_total_overcounts_witness :
  sse_total (sse_run (SseSession_new (Some 3)) (replicate 4 (sample_iteration 3))).2 = 9.
Proof.
  refine (eq_trans (sse_total_overcounts sample_chunk (mkSseEvent [] (as_bytes "x") None) [] 3 1 200
    (sample_iteration 3) (replicate 3 (sample_iteration 3)) _ _ _ _ _ _) _); try reflexivity.
  - lia.
  - unfold U64_MAX. lia.
Defined.
