(* ===== verification/DbEngine.v ===== *)
(** The SQL database engine: [protocols/db.rs].

    [sqlx] is third-party code: connecting the pool, acquiring a connection and
    running a statement are arguments ([DbIo]).  The engine is shared by the
    workers; its only state is the [OnceCell] of the pool. *)

From S2P Require Import Prelude RustStr Float Chaos Samples Config LocalRun.

#[local] Open Scope Z_scope.
#[local] Open Scope rust_scope.

Definition DEFAULT_MAX_ROWS : Z := 10000.

Inductive DbDriver := Postgres | MySql | Sqlite.

Definition driver_from_url (url : string) : option DbDriver :=
  if str_starts_with "postgres://" url || str_starts_with "postgresql://" url then Some Postgres
  else if str_starts_with "mysql://" url || str_starts_with "mariadb://" url then Some MySql
  else if str_starts_with "sqlite:" url then Some Sqlite
  else None.

Definition driver_as_str (d : DbDriver) : string :=
  match d with Postgres => "postgres" | MySql => "mysql" | Sqlite => "sqlite" end.

Definition is_db_url (url : string) : bool := is_some (driver_from_url url).

Definition run_info (url : string) (pool_max : Z) (fetch : bool) : option DbRunInfo :=
  (fun driver => mkDbRunInfo (driver_as_str driver) pool_max (if fetch then "fetch" else "execute")%string)
    <$> driver_from_url url.

Record DbEngine := mkDbEngine {
  de_url : string;
  de_driver : DbDriver;
  de_query : string;
  de_params : list string;
  de_fetch : bool;
  de_max_rows : Z;
  de_pool_max : Z;
  de_timeout : duration;
  de_chaos : ChaosEngine;
}.

Definition DbEngine_new (url query : string) (params : list string) (fetch : bool)
    (max_rows pool_max : Z) (chaos : ChaosEngine) (timeout_secs : Z) : result string DbEngine :=
  driver ← ok_or ("unsupported database URL scheme: " ++ url)%string (driver_from_url url);
  if is_blank query then Err "database URL requires a non-empty db_query"%string else
  Ok {| de_url := url;
        de_driver := driver;
        de_query := query;
        de_params := params;
        de_fetch := fetch;
        de_max_rows := max_rows;
        de_pool_max := Z.max pool_max 1;
        de_timeout := from_secs (Z.max timeout_secs 1);
        de_chaos := chaos |}.

(** What the database answers to a statement and its bound parameters: a
    stream of rows that may fail, and the rows an execution affects. *)
Record DbAnswer := mkDbAnswer {
  da_rows : list (result string ());
  da_affected : result string Z;
}.

(** What an iteration reads. *)
Record DbIo := mkDbIo {
  dbi_draw : f32;
  dbi_pick : Z;
  dbi_connect : Z -> result string ();             (** by [max_connections] *)
  dbi_acquire : result string duration;            (** the time it took *)
  dbi_run : string -> list string -> DbAnswer;
  dbi_query_time : duration;
  dbi_pool_size : Z;
  dbi_pool_idle : Z;
  dbi_elapsed : duration;
}.

(** [get_or_try_init]: a failed attempt leaves the cell empty. *)
Definition db_pool (e : DbEngine) (cell : bool) (io : DbIo) : result string () * bool :=
  if cell then (Ok (), true)
  else match dbi_connect io (wrap32 (de_pool_max e)) with
       | Ok _ => (Ok (), true)
       | Err err => (Err err, false)
       end.

Definition effective_query (e : DbEngine) (fault : option ChaosFault) : string :=
  match fault with
  | Some CorruptedPayload => (de_query e ++ " __strobengine_chaos__")%string
  | _ => de_query e
  end.

(** The row loop, with its cap ([0] disables it). *)
Fixpoint count_rows (max_rows : Z) (stream : list (result string ())) (rows : Z) : result string Z :=
  match stream with
  | [] => Ok rows
  | Err e :: _ => Err e
  | Ok _ :: stream =>
      let rows := rows +! 1 in
      if negb (max_rows =? 0) && (max_rows <=? rows) then Ok rows else count_rows max_rows stream rows
  end.

Definition run_query (e : DbEngine) (run : string -> list string -> DbAnswer) (sql : string)
  (fault : option ChaosFault) : result string Z :=
  let binds := de_params e ++
    match fault with Some MetadataCorruption => ["__strobengine_chaos__"%string] | _ => [] end in
  let answer := run sql binds in
  if de_fetch e then count_rows (de_max_rows e) (da_rows answer) 0 else da_affected answer.

(** [error_metric]. *)
Definition db_error_metric (micros : Z) (fault : option ChaosFault) (acquire_us : option Z)
  (pool : option (Z * Z)) : RequestMetric :=
  let sample := mkDbSample 0 1 acquire_us None
    (match pool with Some (size, _) => size | None => 0 end)
    (match pool with Some (_, idle) => idle | None => 0 end) in
  b_db (Some sample) (b_status 0 (builder micros fault)).

Definition execute_with_fault (e : DbEngine) (fault : option ChaosFault) (cell : bool) (io : DbIo)
  : RequestMetric * bool :=
  let micros := as_micros (dbi_elapsed io) in
  match fault with
  | Some ConnectionDrop => (error_metric micros fault, cell)
  | _ =>
      let sql := effective_query e fault in
      match db_pool e cell io with
      | (Err _, cell) => (db_error_metric micros fault None None, cell)
      | (Ok _, cell) =>
          match dbi_acquire io with
          | Err _ =>
              (db_error_metric micros fault None (Some (dbi_pool_size io, dbi_pool_idle io)), cell)
          | Ok acquire =>
              let acquire_us := wrap64 (as_micros acquire) in
              let query_us := wrap64 (as_micros (dbi_query_time io)) in
              match run_query e (dbi_run io) sql fault with
              | Ok rows =>
                  (b_db (Some (mkDbSample rows 0 (Some acquire_us) (Some query_us)
                                 (dbi_pool_size io) (dbi_pool_idle io)))
                     (b_status 200 (builder micros fault)), cell)
              | Err _ =>
                  (b_db (Some (mkDbSample 0 1 (Some acquire_us) (Some query_us)
                                 (dbi_pool_size io) (dbi_pool_idle io)))
                     (b_status 0 (builder micros fault)), cell)
              end
          end
      end
  end.

Definition db_iteration (e : DbEngine) (cell : bool) (io : DbIo) : RequestMetric * bool :=
  execute_with_fault e (select_fault (de_chaos e) (dbi_draw io) (dbi_pick io)) cell io.

(** The iterations of a run share the cell, in some order. *)
Fixpoint db_run_all (e : DbEngine) (cell : bool) (ios : list DbIo) : list RequestMetric * bool :=
  match ios with
  | [] => ([], cell)
  | io :: ios =>
      let '(m, cell) := db_iteration e cell io in
      let '(ms, cell) := db_run_all e cell ios in (m :: ms, cell)
  end.

(** ** Lemmas *)

(** Rows before the first failure of the stream. *)
Fixpoint rows_before_error (stream : list (result string ())) : nat * bool :=
  match stream with
  | [] => (O, false)
  | Err _ :: _ => (O, true)
  | Ok _ :: stream => let '(n, e) := rows_before_error stream in (S n, e)
  end.

Lemma count_rows_spec max_rows stream rows :
  0 <= rows -> rows + Z.of_nat (length stream) <= U64_MAX ->
  0 <= max_rows -> (max_rows = 0 \/ rows < max_rows) ->
  let '(n, failed) := rows_before_error stream in
  count_rows max_rows stream rows =
    (if negb (max_rows =? 0) && (max_rows <=? rows + Z.of_nat n) then Ok max_rows
     else if failed then match list_find (fun r => is_ok r = false) stream with
                         | Some (_, Err e) => Err e | _ => Ok 0 end
     else Ok (rows + Z.of_nat n)).
Proof.
  revert rows. induction stream as [|[[]|e] stream IH]; intros rows H0 Hmax Hm Hlt; cbn [rows_before_error count_rows].
  - rewrite Z.add_0_r. destruct (Z.eqb_spec max_rows 0); simpl; [done|].
    by rewrite (proj2 (Z.leb_gt max_rows rows)) by lia.
  - rewrite u64_add_small by (unfold in_u64; simpl in Hmax; lia). cbn [length] in Hmax.
    destruct (Z.eqb_spec max_rows 0) as [->|Hne]; cbn [negb andb].
    + specialize (IH (rows + 1) ltac:(lia) ltac:(lia) Hm ltac:(auto)).
      destruct (rows_before_error stream) as [n failed]. rewrite IH. cbn.
      destruct failed; [by destruct (list_find _ stream) as [[? []]|]|]. f_equal. lia.
    + destruct (Z.leb_spec max_rows (rows + 1)) as [Hle|Hgt].
      * destruct (rows_before_error stream) as [n failed].
        rewrite (proj2 (Z.leb_le _ _)) by lia. f_equal. lia.
      * specialize (IH (rows + 1) ltac:(lia) ltac:(lia) Hm ltac:(lia)).
        destruct (rows_before_error stream) as [n failed]. rewrite IH.
        rewrite ?(proj2 (Z.eqb_neq _ _) Hne). cbn [negb andb].
        replace (rows + 1 + Z.of_nat n) with (rows + Z.of_nat (S n)) by lia.
        destruct (Z.leb_spec max_rows (rows + Z.of_nat (S n))); [done|].
        destruct failed; [|done]. cbn. by destruct (list_find _ stream) as [[? []]|].
  - rewrite Z.add_0_r. destruct (Z.eqb_spec max_rows 0); simpl; [done|].
    by rewrite (proj2 (Z.leb_gt max_rows rows)) by lia.
Qed.

(** ** Properties *)

(** The row cap: fetching counts the rows of the stream up to the cap and stops
    there (a failure beyond the cap is never seen), a cap of 0 counts them all,
    and a failure before the cap fails the query; in particular a capped query
    never reports more rows than the cap. *)
Theorem db_fetch_capped (e : DbEngine) run sql fault :
  let stream := da_rows (run sql (de_params e ++
    match fault with Some MetadataCorruption => ["__strobengine_chaos__"%string] | _ => [] end)) in
  de_fetch e = true -> 0 <= de_max_rows e -> Z.of_nat (length stream) <= U64_MAX ->
  let '(n, failed) := rows_before_error stream in
  match run_query e run sql fault with
  | Ok rows =>
      rows = (if de_max_rows e =? 0 then Z.of_nat n else Z.min (Z.of_nat n) (de_max_rows e)) /\
      (failed = true -> 0 < de_max_rows e <= Z.of_nat n)
  | Err _ => failed = true /\ (de_max_rows e = 0 \/ Z.of_nat n < de_max_rows e)
  end.
Proof.
  intros stream Hf Hm Hlen. unfold run_query. rewrite Hf. fold stream.
  pose proof (count_rows_spec (de_max_rows e) stream 0 ltac:(lia) ltac:(lia) Hm ltac:(lia)) as Hc.
  assert (Hfind : (rows_before_error stream).2 = true ->
    exists i err, list_find (fun r => is_ok r = false) stream = Some (i, Err err)).
  { clear. induction stream as [|[[]|err] stream IH]; simpl; [done| |by eexists 0%nat, err].
    destruct (rows_before_error stream) as [n b]; simpl in *. intros Hb.
    destruct (IH Hb) as (i & err & ->). by exists (S i), err. }
  destruct (rows_before_error stream) as [n failed]. rewrite Hc, Z.add_0_l. simpl in *.
  destruct (Z.eqb_spec (de_max_rows e) 0) as [E0|Hne]; simpl.
  - destruct failed; [|done]. destruct (Hfind eq_refl) as (i & err & ->). auto.
  - destruct (Z.leb_spec (de_max_rows e) (Z.of_nat n)); simpl; [split; lia|].
    destruct failed; [|split; [lia|done]]. destruct (Hfind eq_refl) as (i & err & ->). simpl. auto.
Qed.

(** An iteration is reported as an error exactly when one of its steps failed
    (an injected connection drop, the pool, the connection or the statement);
    every iteration that reached the pool carries a database sample with its
    error count; and the pool cell is never un-initialised, is set by the first
    successful connect only, and a failed connect is retried by the next
    iteration. *)
Theorem db_iteration_outcome (e : DbEngine) (cell : bool) (io : DbIo) :
  let fault := select_fault (de_chaos e) (dbi_draw io) (dbi_pick io) in
  let '(m, cell') := db_iteration e cell io in
  let dropped := match fault with Some ConnectionDrop => true | _ => false end in
  let pool_ok := cell || is_ok (dbi_connect io (wrap32 (de_pool_max e))) in
  (is_error m = false <->
     dropped = false /\ pool_ok = true /\ is_ok (dbi_acquire io) = true /\
     is_ok (run_query e (dbi_run io) (effective_query e fault) fault) = true) /\
  (dropped = false -> exists s, rm_db m = Some s /\ dbs_errors s = (if is_error m then 1 else 0)) /\
  cell' = (if dropped then cell else pool_ok).
Proof.
  intros fault. unfold db_iteration. fold fault. clearbody fault. unfold execute_with_fault, db_pool.
  destruct fault as [[]|], cell; simpl;
    repeat (destruct (dbi_connect io _); simpl); try (destruct (dbi_acquire io); simpl);
    try (destruct (run_query _ _ _ _); simpl);
    (split; [split; intros; naive_solver|split; [intros; by eauto|done]]).
Qed.

(** ** Witness *)

(** Three rows and then a failure, capped at two: the failure is never seen. *)
Definition demo_db : DbEngine :=
  mkDbEngine "sqlite::memory:" Sqlite "SELECT 1" [] true 2 1 (from_secs 5) (ChaosEngine_new false f64_zero).

Definition demo_answer (_ : string) (_ : list string) : DbAnswer :=
  mkDbAnswer [Ok (); Ok (); Ok (); Err "gone"%string] (Ok 0).

Lemma db_fetch_capped_witness : run_query demo_db demo_answer "SELECT 1" None = Ok 2.
Proof.
  pose proof (db_fetch_capped demo_db demo_answer "SELECT 1" None eq_refl ltac:(vm_compute; congruence)
    ltac:(vm_compute; congruence)) as H.
  cbn [rows_before_error da_rows demo_answer] in H.
  destruct (run_query demo_db demo_answer "SELECT 1" None) as [rows|] eqn:E; [|discriminate E].
  by rewrite (proj1 H).
Defined.
