(* ===== verification/GrpcEngine.v ===== *)
(** The unary gRPC engine: [protocols/grpc.rs], with the error type of
    [protocols/grpc_parser.rs].

    URI parsing, hex and base64 decoding, proto compilation and the tonic
    transport are third-party code and arguments of the definitions. *)

From S2P Require Import Prelude RustStr Float Chaos Samples LocalRun.

#[local] Open Scope Z_scope.
#[local] Open Scope rust_scope.

(** ** [grpc_parser.rs] *)

Inductive ProtoError :=
  | CompilationError (e : string)
  | ServiceNotFound (s : string)
  | MethodNotFound (m : string)
  | MessageNotFound (m : string)
  | JsonError (e : string)
  | EncodeError (e : string)
  | ConnectionError (e : string)
  | ReflectionError (e : string).

Definition ProtoError_to_string (e : ProtoError) : string :=
  match e with
  | CompilationError e => "proto compilation failed: " ++ e
  | ServiceNotFound s => "service not found: " ++ s
  | MethodNotFound m => "method not found: " ++ m
  | MessageNotFound m => "message not found: " ++ m
  | JsonError e => "JSON error: " ++ e
  | EncodeError e => "protobuf encode error: " ++ e
  | ConnectionError e => "connection error: " ++ e
  | ReflectionError e => "reflection error: " ++ e
  end%string.

(** ** Status codes *)

Definition grpc_to_http_status (code : Z) : Z :=
  match code with
  | 0 => 200 | 1 => 499 | 2 => 500 | 3 => 400 | 4 => 504 | 5 => 404 | 6 => 409 | 7 => 403
  | 8 => 429 | 9 => 412 | 10 => 409 | 11 => 416 | 12 => 501 | 13 => 500 | 14 => 503
  | 15 => 500 | 16 => 401 | _ => 500
  end.

(** [status.code() as u16] is the code the status carries. *)
Definition tonic_status_to_http (code : Z) : Z := grpc_to_http_status code.

(** ** Payload *)

Class GrpcCodecs : Type := {
  (** [ProtoSchema::new(path, service, method)?.json_to_protobuf(json)] *)
  json_to_protobuf : string -> string -> string -> string -> result ProtoError bytes;
  hex_decode : bytes -> result string bytes;
  base64_decode : bytes -> result string bytes;
}.

Definition decode_grpc_payload `{GrpcCodecs} (grpc_payload proto_path : option string)
    (service method : string) : result ProtoError bytes :=
  match proto_path, grpc_payload with
  | Some path, Some json => json_to_protobuf path service method json
  | _, None => Ok []
  | _, Some s =>
      match strip_prefix (as_bytes "0x") (as_bytes s) with
      | Some hex_str =>
          map_err (fun e => EncodeError ("invalid hex payload '" ++ of_bytes hex_str ++ "': " ++ e)%string)
            (hex_decode hex_str)
      | None =>
          map_err (fun e => EncodeError ("invalid base64 payload: " ++ e)%string)
            (base64_decode (as_bytes s))
      end
  end.

(** ** The engine *)

Record GrpcEngine := mkGrpcEngine {
  gr_endpoint : string;
  gr_headers : list (string * string);
  gr_chaos : ChaosEngine;
  gr_service : string;
  gr_method : string;
  gr_payload : bytes;
  gr_grpc_payload : option string;
  gr_deadline_ms : option Z;
}.

(** [endpoint url] is [Endpoint::new(url.parse()?)], with the two error texts. *)
Definition GrpcEngine_new `{GrpcCodecs} (endpoint : string -> result ProtoError string) (url : string)
    (headers : list (string * string)) (chaos : ChaosEngine) (service method grpc_payload : option string)
    (deadline_ms : option Z) (proto_path : option string) : result ProtoError GrpcEngine :=
  ep ← endpoint url;
  let svc := default "" service in
  let mth := default "" method in
  payload ← decode_grpc_payload grpc_payload proto_path svc mth;
  Ok {| gr_endpoint := ep;
        gr_headers := headers;
        gr_chaos := chaos;
        gr_service := svc;
        gr_method := mth;
        gr_payload := payload;
        gr_grpc_payload := grpc_payload;
        gr_deadline_ms := deadline_ms |}.

(** The request of a unary call. *)
Record GrpcRequest := mkGrpcRequest {
  grq_path : string;
  grq_payload : bytes;
  grq_metadata : list (string * string);
}.

(** What the call answers: the reply's [grpc-status] metadata as text and its
    bytes, a status, or nothing before the deadline. *)
Inductive GrpcReply :=
  | GrpcOk (status_header : option string) (message : bytes)
  | GrpcStatus (code : Z).

Record GrpcIo := mkGrpcIo {
  gri_draw : f32;
  gri_pick : Z;
  gri_connected : bool;
  gri_path_ok : string -> bool;                    (** [PathAndQuery::from_maybe_shared] *)
  gri_call : GrpcRequest -> duration * GrpcReply;  (** how long it takes, and the reply *)
  gri_elapsed : duration;
}.

Definition GRPC_CORRUPTED : bytes := ch <$> [255; 254; 189; 239].

(** [s.parse::<u16>().ok()]. *)
Definition parse_u16 (s : string) : option Z :=
  n ← parse_usize s; if n <=? 65535 then Some n else None.

Definition grpc_request (e : GrpcEngine) (fault : option ChaosFault) : GrpcRequest :=
  {| grq_path := "/" ++ gr_service e ++ "/" ++ gr_method e;
     grq_payload := match fault with Some CorruptedPayload => GRPC_CORRUPTED | _ => gr_payload e end;
     grq_metadata := match fault with
                     | Some MetadataCorruption => [("x-chaos-fault", "corrupted_value")]
                     | _ => []
                     end |}%string.

Definition reply_metric (r : GrpcReply) : Z * Z :=
  match r with
  | GrpcOk header message =>
      let grpc_status := default 0 (header ≫= parse_u16) in
      (grpc_to_http_status grpc_status, Z.of_nat (length message))
  | GrpcStatus code => (tonic_status_to_http code, 0)
  end.

Definition grpc_iteration (e : GrpcEngine) (io : GrpcIo) : RequestMetric :=
  let fault := select_fault (gr_chaos e) (gri_draw io) (gri_pick io) in
  let micros := as_micros (gri_elapsed io) in
  match fault with
  | Some ConnectionDrop => error_metric micros fault
  | _ =>
      if negb (gri_connected io) then b_status 503 (builder micros fault)
      else
        let request := grpc_request e fault in
        if negb (gri_path_ok io (grq_path request)) then error_metric micros fault
        else
          let '(took, reply) := gri_call io request in
          let timed_out := match gr_deadline_ms e with
                           | Some ms => from_millis ms <? took
                           | None => false
                           end in
          if timed_out then b_status 504 (builder micros fault)
          else
            let '(status, bytes_received) := reply_metric reply in
            b_bytes bytes_received (b_status status (builder micros fault))
  end.

(** ** Properties *)

(** Status mapping: a gRPC code becomes 200 exactly when it is OK, and every
    other code becomes a client or server error, so no failed call can be
    counted as a success and no successful one as a failure. *)
Theorem grpc_status_faithful (code : Z) :
  (grpc_to_http_status code = 200 <-> code = 0) /\
  (code <> 0 -> 400 <= grpc_to_http_status code <= 504).
Proof.
  assert (H : code = 0 /\ grpc_to_http_status code = 200 \/ code <> 0 /\ 400 <= grpc_to_http_status code <= 504); [|lia].
  destruct (decide (0 <= code <= 16)) as [Hr|Hr].
  - assert (code = 0 \/ code = 1 \/ code = 2 \/ code = 3 \/ code = 4 \/ code = 5 \/ code = 6 \/ code = 7 \/
      code = 8 \/ code = 9 \/ code = 10 \/ code = 11 \/ code = 12 \/ code = 13 \/ code = 14 \/ code = 15 \/
      code = 16) by lia.
    destruct_or!; subst code; simpl; lia.
  - right. split; [lia|]. assert (grpc_to_http_status code = 500) as ->; [|lia].
    destruct code as [|p|p]; [lia| |done].
    do 5 (destruct p as [p|p|]; try reflexivity; try lia).
Qed.

(** A gRPC metric is an error exactly when the call did not end with status OK:
    the connection was dropped by chaos or refused, the path is invalid, the
    deadline passed, or the status (in the reply's metadata or of the failed
    call) is not 0. *)
Theorem grpc_error_iff (e : GrpcEngine) (io : GrpcIo) :
  let fault := select_fault (gr_chaos e) (gri_draw io) (gri_pick io) in
  let request := grpc_request e fault in
  is_error (grpc_iteration e io) = false <->
  fault <> Some ConnectionDrop /\ gri_connected io = true /\ gri_path_ok io (grq_path request) = true /\
  (forall ms, gr_deadline_ms e = Some ms -> (gri_call io request).1 <= from_millis ms) /\
  match (gri_call io request).2 with
  | GrpcOk header _ => default 0 (header ≫= parse_u16) = 0
  | GrpcStatus code => code = 0
  end.
Proof.
  intros fault request. unfold grpc_iteration. cbv zeta. fold fault. fold request.
  clearbody request. assert (Hst : forall code n, is_error (b_bytes n (b_status (grpc_to_http_status code)
                  (builder (as_micros (gri_elapsed io)) fault))) = false <-> code = 0).
  { intros code n. destruct (grpc_status_faithful code) as [H1 H2]. unfold is_error. simpl.
    destruct (decide (code = 0)) as [->|Hne]; [done|]. specialize (H2 Hne).
    rewrite (proj2 (Z.eqb_neq _ 0)) by lia. rewrite Z.geb_leb, (proj2 (Z.leb_le 400 _)) by lia. naive_solver. }
  assert (Hcall : is_error
    (if negb (gri_connected io) then b_status 503 (builder (as_micros (gri_elapsed io)) fault)
     else if negb (gri_path_ok io (grq_path request)) then error_metric (as_micros (gri_elapsed io)) fault
     else let '(took, reply) := gri_call io request in
       if match gr_deadline_ms e with Some ms => from_millis ms <? took | None => false end
       then b_status 504 (builder (as_micros (gri_elapsed io)) fault)
       else let '(status, n) := reply_metric reply in
            b_bytes n (b_status status (builder (as_micros (gri_elapsed io)) fault))) = false <->
    gri_connected io = true /\ gri_path_ok io (grq_path request) = true /\
    (forall ms, gr_deadline_ms e = Some ms -> (gri_call io request).1 <= from_millis ms) /\
    match (gri_call io request).2 with
    | GrpcOk header _ => default 0 (header ≫= parse_u16) = 0
    | GrpcStatus code => code = 0
    end).
  { destruct (gri_connected io); simpl; [|split; [intros Hf; discriminate Hf|by intros [? _]]].
    destruct (gri_path_ok io (grq_path request)); simpl; [|split; [intros Hf; discriminate Hf|by intros (_ & ? & _)]].
    destruct (gri_call io request) as [took reply]; simpl.
    assert (Hd : match gr_deadline_ms e with Some ms => from_millis ms <? took | None => false end = false <->
      forall ms, gr_deadline_ms e = Some ms -> took <= from_millis ms).
    { destruct (gr_deadline_ms e) as [ms|]; [rewrite Z.ltb_ge|]; naive_solver. }
    destruct (match gr_deadline_ms e with Some ms => from_millis ms <? took | None => false end).
    - split; [intros Hf; discriminate Hf|]. intros (_ & _ & H & _). by apply Hd in H.
    - rewrite <- Hd. destruct reply as [header msg|code]; simpl; unfold tonic_status_to_http; rewrite Hst; naive_solver. }
  destruct (decide (fault = Some ConnectionDrop)) as [E|Hne].
  { rewrite E. split; [intros Hf; discriminate Hf|]. by intros [? _]. }
  assert (Hb : forall a b : RequestMetric, match fault with Some ConnectionDrop => a | _ => b end = b)
    by (intros; destruct fault as [[]|]; done).
  rewrite Hb, Hcall. naive_solver.
Qed.
