(* ===== verification/ProtoSchema.v ===== *)
(** Protobuf schemas for gRPC payloads ([src/protocols/grpc_parser.rs]) and the
    pass-through codec of the unary engine ([src/protocols/grpc.rs], [RawCodec]).

    The compiler of .proto files and the descriptors are protox and
    prost-reflect: [Reflection] is their interface, with the documented facts the
    schema relies on.  [schema_codecs] discharges the JSON operation of the
    [GrpcCodecs] interface the engines are built on. *)

From S2P Require Import Prelude RustStr GrpcEngine.

#[local] Open Scope Z_scope.

(** ** Descriptors *)

Record MethodDescriptor := mkMethodDescriptor { md_name : string; md_input_full_name : string }.
Record ServiceDescriptor := mkServiceDescriptor {
  sd_name : string;
  sd_full_name : string;
  sd_methods : list MethodDescriptor;
}.

Definition DOT : ascii := ch 46.
Definition SLASH : ascii := ch 47.

Class Reflection := {
  Pool : Type;
  Message : Type;
  Dynamic : Type;
  (** [protox::compile([path], [dir])], encoded and decoded into a pool *)
  compile : string -> string -> result string Pool;
  services : Pool -> list ServiceDescriptor;
  get_service_by_name : Pool -> string -> option ServiceDescriptor;
  get_message_by_name : Pool -> string -> option Message;
  deserialize : Message -> string -> result string Dynamic;
  encode_message : Dynamic -> result string bytes;
  (** services are found by their fully qualified name *)
  service_by_full_name : forall p n d,
    get_service_by_name p n = Some d -> d ∈ services p /\ sd_full_name d = n;
  (** the name of a service is the last component of its full name *)
  service_short_name : forall p d, d ∈ services p -> DOT ∉ as_bytes (sd_name d);
}.

(** [s.trim_start_matches(c)] and [s.split(c)]. *)
Fixpoint trim_start_matches (c : ascii) (s : bytes) : bytes :=
  match s with
  | x :: s' => if bool_decide (x = c) then trim_start_matches c s' else s
  | [] => []
  end.

Fixpoint split_on (c : ascii) (s : bytes) : list bytes :=
  match s with
  | [] => [[]]
  | x :: s =>
      if bool_decide (x = c) then [] :: split_on c s
      else match split_on c s with
           | piece :: pieces => (x :: piece) :: pieces
           | [] => [[x]]
           end
  end.

Section schema.
Context `{Reflection}.

Record ProtoSchema := mkProtoSchema {
  ps_pool : Pool;
  ps_service_name : string;
  ps_method_name : string;
  ps_message_name : string;
}.

Definition from_parts (pool : Pool) (service_name method_name message_name : string) : ProtoSchema :=
  mkProtoSchema pool service_name method_name message_name.

Definition clean_method (method : string) : string :=
  default method (of_bytes <$> last (split_on SLASH (trim_start_matches SLASH (as_bytes method)))).

Definition str_ends_with (suffix s : string) : bool :=
  bytes_prefix (rev (as_bytes suffix)) (rev (as_bytes s)).

Definition find_service (pool : Pool) (service : string) : option ServiceDescriptor :=
  match get_service_by_name pool service with
  | Some d => Some d
  | None =>
      snd <$> list_find (fun d => str_ends_with ("." ++ service) (sd_name d) = true \/ sd_name d = service)
                (services pool)
  end.

(** [proto_dir] is the parent directory of the path, a function of the standard
    library's path type. *)
Definition ProtoSchema_new (proto_dir : string -> string) (proto_path service method : string)
  : result ProtoError ProtoSchema :=
  pool ← map_err CompilationError (compile proto_path (proto_dir proto_path));
  service_desc ← ok_or (ServiceNotFound service) (find_service pool service);
  let clean := clean_method method in
  method_desc ← ok_or (MethodNotFound clean)
    (snd <$> list_find (fun m => md_name m = clean) (sd_methods service_desc));
  let input_name := md_input_full_name method_desc in
  _ ← ok_or (MessageNotFound input_name) (get_message_by_name pool input_name);
  Ok (mkProtoSchema pool (sd_name service_desc) clean input_name).

Definition grpc_path (s : ProtoSchema) : string := ("/" ++ ps_service_name s ++ "/" ++ ps_method_name s)%string.

Definition schema_json_to_protobuf (s : ProtoSchema) (json_str : string) : result ProtoError bytes :=
  message_desc ← ok_or (MessageNotFound (ps_message_name s)) (get_message_by_name (ps_pool s) (ps_message_name s));
  dynamic_msg ← map_err JsonError (deserialize message_desc json_str);
  map_err EncodeError (encode_message dynamic_msg).

(** The operation the engines are parameterised by. *)
Definition schema_codecs (proto_dir : string -> string) (hex b64 : bytes -> result string bytes) : GrpcCodecs := {|
  json_to_protobuf := fun path service method json =>
    schema ← ProtoSchema_new proto_dir path service method; schema_json_to_protobuf schema json;
  hex_decode := hex;
  base64_decode := b64;
|}.
End schema.

(** ** The pass-through codec *)

(** [RawEncoder] appends the item to the buffer; [RawDecoder] takes the whole
    buffer, which holds exactly one message, and yields nothing when it is empty. *)
Definition raw_encode (item dst : bytes) : bytes := dst ++ item.

Definition raw_decode (src : bytes) : option bytes * bytes :=
  match src with [] => (None, []) | _ => (Some src, []) end.

(** ** Properties *)

Lemma split_on_whole c s : c ∉ s -> split_on c s = [s].
Proof.
  induction s as [|x s IH]; intros Hn; simpl; [done|]. apply not_elem_of_cons in Hn as [Hx Hn].
  rewrite bool_decide_false by congruence. by rewrite IH.
Qed.

Lemma split_on_app c a b : split_on c (a ++ c :: b) = split_on c a ++ split_on c b.
Proof.
  induction a as [|x a IH]; simpl; [by rewrite bool_decide_true|]. rewrite IH.
  case_bool_decide; [done|]. destruct (split_on c a) eqn:E; [|done].
  destruct a as [|y a]; simpl in E; [done|]. case_bool_decide; [done|]. by destruct (split_on c a).
Qed.

Lemma trim_start_matches_spec c s : exists n, s = replicate n c ++ trim_start_matches c s.
Proof.
  induction s as [|x s [n Hn]]; simpl; [by exists 0%nat|]. case_bool_decide; [|by exists 0%nat].
  subst x. exists (S n). simpl. by rewrite <- Hn.
Qed.

(** The method of a request is what follows the last slash of what the user gave:
    [Execute], [/Execute] and [/package.Service/Execute] name the same method. *)
Theorem clean_method_spec pre m :
  SLASH ∉ as_bytes m -> clean_method (pre ++ "/" ++ m) = m /\ clean_method m = m.
Proof.
  intros Hm. assert (Hlast : forall s, (as_bytes s = as_bytes m \/ exists l, as_bytes s = l ++ SLASH :: as_bytes m) ->
    clean_method s = m).
  { intros s Hs. unfold clean_method. destruct (trim_start_matches_spec SLASH (as_bytes s)) as [n Hn].
    set (t := trim_start_matches SLASH (as_bytes s)) in *.
    assert (t = as_bytes m \/ exists l, t = l ++ SLASH :: as_bytes m) as [->|[l ->]].
    { destruct Hs as [Hs|[l Hs]].
      - left. rewrite Hs in Hn. destruct n as [|n]; [done|]. simpl in Hn. rewrite Hn in Hm. set_solver.
      - revert l Hs Hn. generalize (as_bytes s). induction n as [|n IH]; intros bs l Hs Hn; simpl in Hn.
        + right. exists l. by rewrite <- Hn.
        + rewrite Hn in Hs. destruct l as [|x l]; simplify_eq/=.
          * left. destruct n as [|n]; [done|]. exfalso. apply Hm. rewrite <- Hs. simpl. set_solver.
          * by eapply IH. }
    - by rewrite split_on_whole by done; simpl; rewrite of_as_bytes.
    - rewrite split_on_app, (split_on_whole _ _ Hm), last_snoc. simpl. by rewrite of_as_bytes. }
  split; apply Hlast; [right|by left]. exists (as_bytes pre). by rewrite !as_bytes_append.
Qed.

Lemma str_ends_with_app suffix s :
  str_ends_with suffix s = true -> exists pre, as_bytes s = pre ++ as_bytes suffix.
Proof.
  unfold str_ends_with. generalize (as_bytes suffix) (as_bytes s). intros p l. 
  assert (Hpre : forall p l, bytes_prefix p l = true -> exists r, l = p ++ r).
  { clear. induction p as [|x p IH]; intros l; simpl; [by exists l|]. destruct l as [|y l]; [done|].
    intros [->%Ascii.eqb_eq [r ->]%IH]%andb_true_iff. by exists r. }
  intros [r Hr]%Hpre. exists (rev r). rewrite <- (rev_involutive l), Hr, rev_app_distr. by rewrite rev_involutive.
Qed.

Section claims.
Context `{Reflection}.

(** Which service a schema uses: the one with exactly this qualified name, else
    the first whose short name it is; the suffix test never applies, since a short
    name has no dot. *)
Theorem find_service_spec pool service :
  find_service pool service =
  match get_service_by_name pool service with
  | Some d => Some d
  | None => snd <$> list_find (fun d => sd_name d = service) (services pool)
  end.
Proof.
  unfold find_service. destruct (get_service_by_name pool service) as [d|]; [done|]. f_equal.
  assert (Hnd : Forall (fun d => DOT ∉ as_bytes (sd_name d)) (services pool)).
  { apply Forall_forall. apply service_short_name. }
  induction Hnd as [|d l Hd Hl IH]; [done|]. simpl. rewrite IH.
  assert (Hs : str_ends_with ("." ++ service) (sd_name d) = true -> False).
  { intros [pre Hp]%str_ends_with_app. apply Hd. rewrite Hp, as_bytes_append. set_solver. }
  repeat case_decide; naive_solver.
Qed.

(** A schema that could be built knows its message: converting JSON can only fail
    in the JSON or in the encoding, and fails for each method and service that the
    compiled file does not have with the name that was looked up. *)
Theorem schema_errors proto_dir path service method :
  match ProtoSchema_new proto_dir path service method with
  | Ok s =>
      is_Some (get_message_by_name (ps_pool s) (ps_message_name s)) /\
      (exists d m, find_service (ps_pool s) service = Some d /\ m ∈ sd_methods d /\
         md_name m = clean_method method /\ md_input_full_name m = ps_message_name s) /\
      forall json e, schema_json_to_protobuf s json = Err e -> exists t, e = JsonError t \/ e = EncodeError t
  | Err e =>
      (exists t, compile path (proto_dir path) = Err t /\ e = CompilationError t) \/
      exists pool, compile path (proto_dir path) = Ok pool /\
        ((find_service pool service = None /\ e = ServiceNotFound service) \/
         exists d, find_service pool service = Some d /\
           ((Forall (fun m => md_name m <> clean_method method) (sd_methods d) /\
             e = MethodNotFound (clean_method method)) \/
            exists m, m ∈ sd_methods d /\ md_name m = clean_method method /\
              get_message_by_name pool (md_input_full_name m) = None /\
              e = MessageNotFound (md_input_full_name m)))
  end.
Proof.
  unfold ProtoSchema_new. destruct (compile path _) as [pool|t]; simpl; [|by left; eauto].
  destruct (find_service pool service) as [d|] eqn:Hf; simpl; [|right; eauto 10].
  destruct (list_find _ (sd_methods d)) as [[i m]|] eqn:Hm; simpl.
  2: { right. exists pool. split; [done|]. right. exists d. split; [done|]. left. split; [|done].
       by apply list_find_None in Hm. }
  apply list_find_Some in Hm as (Hi & Hname & _). apply list_elem_of_lookup_2 in Hi.
  destruct (get_message_by_name pool _) as [msg|] eqn:Hg; simpl; [|right; eauto 15].
  split_and!; [by eexists|by eauto 10|]. unfold schema_json_to_protobuf. simpl. rewrite Hg. simpl. intros json e.
  destruct (deserialize msg json) as [dm|x]; simpl; [|intros [= <-]; eauto].
  destruct (encode_message dm); simpl; [done|]. intros [= <-]. eauto.
Qed.

(** The path of a schema is never qualified: for a service looked up by a name
    with a package it is not [/package.Service/Method]. *)
Theorem schema_path_unqualified proto_dir path service method s :
  ProtoSchema_new proto_dir path service method = Ok s -> DOT ∈ as_bytes service ->
  exists d, get_service_by_name (ps_pool s) service = Some d /\ sd_full_name d = service /\
    grpc_path s = ("/" ++ sd_name d ++ "/" ++ clean_method method)%string /\ sd_name d <> service.
Proof.
  unfold ProtoSchema_new. destruct (compile path _) as [pool|]; simpl; [|done].
  destruct (find_service pool service) as [d|] eqn:Hf; simpl; [|done].
  destruct (list_find _ (sd_methods d)) as [[i m]|]; simpl; [|done].
  destruct (get_message_by_name pool _); simpl; [|done]. intros [= <-] Hd. simpl.
  unfold find_service in Hf. destruct (get_service_by_name pool service) as [d'|] eqn:Hg.
  - injection Hf as ->. destruct (service_by_full_name pool service d Hg) as [Hin Hfull].
    exists d. split_and!; try done. intros Hn. apply (service_short_name pool d Hin). by rewrite Hn.
  - exfalso. destruct (list_find _ (services pool)) as [[j d']|] eqn:Hl; simplify_eq/=.
    apply list_find_Some in Hl as (Hj & Hn & _). apply list_elem_of_lookup_2 in Hj.
    apply (service_short_name pool d Hj). destruct Hn as [[pre Hp]%str_ends_with_app| ->]; [|done].
    rewrite Hp, as_bytes_append. set_solver.
Qed.

End claims.

(** The codec passes messages through unchanged, except the empty one: an empty
    message is a valid protobuf message, but decodes to no message. *)
Theorem raw_codec_roundtrip item :
  raw_decode (raw_encode item []) = (if bool_decide (item = []) then None else Some item, []).
Proof. by destruct item. Qed.

(** ** A concrete pool *)

Definition greeter : ServiceDescriptor :=
  mkServiceDescriptor "Greeter" "hello.Greeter" [mkMethodDescriptor "SayHello" "hello.Request"].

#[export] Program Instance one_service : Reflection | 100 := {
  Pool := unit;
  Message := unit;
  Dynamic := string;
  compile := fun _ _ => Ok tt;
  services := fun _ => [greeter];
  get_service_by_name := fun _ n => if decide (n = "hello.Greeter"%string) then Some greeter else None;
  get_message_by_name := fun _ n => if decide (n = "hello.Request"%string) then Some tt else None;
  deserialize := fun _ s => Ok s;
  encode_message := fun s => Ok (as_bytes s);
}.
Next Obligation. intros [] n d. case_decide; [|done]. intros [= <-]. split; [by left|done]. Qed.
Next Obligation. intros [] d Hd. apply list_elem_of_singleton in Hd as ->. vm_compute. set_solver. Qed.

Lemma clean_method_spec_witness : clean_method "/hello.Greeter/SayHello" = "SayHello"%string.
Proof. apply (clean_method_spec "/hello.Greeter" "SayHello"). vm_compute. set_solver. Defined.

Lemma schema_path_unqualified_witness :
  exists s, ProtoSchema_new (fun _ => ""%string) "a.proto" "hello.Greeter" "SayHello" = Ok s /\
    grpc_path s = "/Greeter/SayHello"%string.
Proof.
  eexists. split; [vm_compute; reflexivity|].
  destruct (schema_path_unqualified (fun _ => ""%string) "a.proto" "hello.Greeter" "SayHello"
    (@mkProtoSchema one_service tt "Greeter" "SayHello" "hello.Request")) as (d & _ & _ & Hp & _).
  - by vm_compute.
  - vm_compute. set_solver.
  - reflexivity.
Defined.
