(* ===== verification/GrpcH2.v ===== *)
(** The multiplexed gRPC engine: [protocols/grpc_h2.rs].

    One HTTP/2 connection is shared by all workers.  The h2 crate, the socket and
    URI parsing are inputs: what each poll answered, in the order of the calls.
    The length-prefixed framing, the credit-driven send loop, the response reader,
    the shared connection slot and the gauge of open streams are modelled.  An
    iteration is modelled twice: run by itself ([h2_iteration]), and as the
    program of its accesses to what the workers share, with its awaits and the
    drops of its guard ([h2_program]), which is interleaved with those of the other
    workers; [h2_program_alone] relates the two. *)

From S2P Require Import Prelude RustStr Float Histogram Chaos Samples LocalRun GrpcEngine.

#[local] Open Scope Z_scope.
#[local] Open Scope rust_scope.

(** ** Framing *)

(** [put_u32] and [u32::from_be_bytes] are big endian. *)
Definition build_frame (payload : bytes) : bytes :=
  [ch 0] ++ to_be_bytes 4 (wrap32 (Z.of_nat (length payload))) ++ payload.

(** ** Status *)

(** The text of the first value under a name, when it has one that is text:
    [map.get(name)?.to_str().ok()?]. *)
Definition HeaderText : Type := string -> option string.

Definition grpc_status_from (map : option HeaderText) : option Z :=
  m ← map; s ← m "grpc-status"; parse_u16 s.

Definition resolve_grpc_status (trailers : result string (option HeaderText)) (head : HeaderText) : option Z :=
  match trailers with
  | Ok t =>
      Some (match grpc_status_from t with
            | Some code => code
            | None => default 0 (grpc_status_from (Some head))
            end)
  | Err _ => None
  end.

(** ** Sending under flow control *)

(** One turn of the send loop: what [poll_capacity] answered, whether it had to
    wait and for how long, and whether the [send_data] that follows is accepted. *)
Record CapacityPoll := mkCapacityPoll {
  cp_stalled : bool;
  cp_wait_us : Z;
  cp_answer : option (result string nat);
  cp_send_ok : bool;
}.

Record SendStats := mkSendStats {
  sd_events : Z;
  sd_stall_us : Z;
  sd_cap_min : Z;
  sd_has_cap : bool;
}.

Inductive SendResult :=
  | Sent (s : SendStats)
  | SendFailed
  | SendPending.      (** the peer has granted no further credit yet *)

Definition count_stall (p : CapacityPoll) (idx : nat) (s : SendStats) : SendStats :=
  if cp_stalled p && Nat.ltb 0 idx
  then mkSendStats (sd_events s +! 1) (sd_stall_us s +! cp_wait_us p) (sd_cap_min s) (sd_has_cap s)
  else s.

Definition count_credit (n : nat) (s : SendStats) : SendStats :=
  mkSendStats (sd_events s) (sd_stall_us s) (Z.min (sd_cap_min s) (Z.of_nat n)) true.

(** [while idx < frame.len()]: the result, and the DATA frames handed to h2 with
    their end-of-stream flags. *)
Fixpoint drive_loop (frame : bytes) (polls : list CapacityPoll) (idx : nat) (s : SendStats)
  : SendResult * list (bytes * bool) :=
  if Nat.ltb idx (length frame) then
    match polls with
    | [] => (SendPending, [])
    | p :: polls =>
        match cp_answer p with
        | Some (Ok n) =>
            let s := count_stall p idx s in
            if Nat.eqb n 0 then drive_loop frame polls idx s
            else
              let s := count_credit n s in
              let len := Nat.min n (length frame - idx) in
              let is_last := Nat.leb (length frame) (idx + len) in
              let chunk := take len (drop idx frame) in
              if negb (cp_send_ok p) then (SendFailed, [])
              else if is_last then (Sent s, [(chunk, true)])
              else
                let '(r, chunks) := drive_loop frame polls (idx + len) s in
                (r, (chunk, false) :: chunks)
        | Some (Err _) => (SendFailed, [])
        | None => (SendFailed, [])
        end
    end
  else (Sent s, []).

(** [empty_ok]: the answer of [send_data] for an empty frame. *)
Definition drive_send (frame : bytes) (empty_ok : bool) (polls : list CapacityPoll)
  : SendResult * list (bytes * bool) :=
  match frame with
  | [] => if empty_ok then (Sent (mkSendStats 0 0 0 false), [([], true)]) else (SendFailed, [])
  | _ => drive_loop frame polls 0 (mkSendStats 0 0 U64_MAX false)
  end.

(** ** Reading the response *)

Record H2Response := mkH2Response {
  hr_status : Z;
  hr_head : HeaderText;
  hr_data : list (result string bytes);
  hr_trailers : result string (option HeaderText);
}.

(** The DATA loop; [None] on a transport error. *)
Fixpoint collect_data (l : list (result string bytes)) (body : bytes) : option bytes :=
  match l with
  | [] => Some body
  | Ok d :: l => collect_data l (body ++ d)
  | Err _ :: _ => None
  end.

Definition message_length (body : bytes) : Z :=
  match body with
  | _ :: a :: b :: c :: d :: _ => from_be_bytes [a; b; c; d]
  | _ => 0
  end.

Definition read_response (resp : result string H2Response) : option (Z * Z) :=
  match resp with
  | Err _ => None
  | Ok r =>
      if negb (hr_status r =? 200) then Some (2, 0)
      else
        body ← collect_data (hr_data r) [];
        grpc_status ← resolve_grpc_status (hr_trailers r) (hr_head r);
        Some (grpc_status, message_length body)
  end.

(** ** The engine *)

Record GrpcH2Engine := mkGrpcH2Engine {
  h2_authority : string;
  h2_service : string;
  h2_method : string;
  h2_payload : bytes;
  h2_headers : list (string * string);
  h2_deadline : option duration;
  h2_chaos : ChaosEngine;
}.

(** [authority url] is [url.parse::<Uri>()?.authority()]. *)
Definition GrpcH2Engine_new `{GrpcCodecs} (authority : string -> result string (option string)) (url : string)
    (headers : list (string * string)) (chaos : ChaosEngine) (service method grpc_payload : option string)
    (deadline_ms : option Z) (proto_path : option string) : result ProtoError GrpcH2Engine :=
  uri ← map_err (fun e => ConnectionError ("invalid gRPC URL: " ++ e)%string) (authority url);
  authority ← ok_or (ConnectionError ("gRPC URL missing authority: " ++ url)%string) uri;
  let svc := default "" service in
  let mth := default "" method in
  payload ← decode_grpc_payload grpc_payload proto_path svc mth;
  Ok {| h2_authority := authority;
        h2_service := svc;
        h2_method := mth;
        h2_payload := payload;
        h2_headers := headers;
        h2_deadline := from_millis <$> deadline_ms;
        h2_chaos := chaos |}.

(** What the workers share: the connection handle, by the number of the
    connection, and the gauge of open streams. *)
Record H2Shared := mkH2Shared {
  sh_send : option nat;
  sh_active : Z;
}.

Definition H2Shared_new : H2Shared := mkH2Shared None 0.

(** [get_send] runs under the mutex: the handle, the connection latency and
    whether the connection was reused. *)
Definition get_send (connected : result string nat) (conn_us : Z) (s : H2Shared)
  : result string (nat * Z * bool) * H2Shared :=
  match sh_send s with
  | Some c => (Ok (c, 0, true), s)
  | None =>
      match connected with
      | Ok c => (Ok (c, conn_us, false), mkH2Shared (Some c) (sh_active s))
      | Err e => (Err e, s)
      end
  end.

Definition clear_send (s : H2Shared) : H2Shared := mkH2Shared None (sh_active s).

(** [ActiveGuard::new] and its [drop]. *)
Definition guard_new (s : H2Shared) : H2Shared := mkH2Shared (sh_send s) (sh_active s +! 1).
Definition guard_drop (s : H2Shared) : H2Shared := mkH2Shared (sh_send s) (wrap64 (sh_active s - 1)).

(** The request of an RPC.  [valid_header] is
    [HeaderName::from_lowercase(k.to_lowercase())] with [HeaderValue::from_str]. *)
Record H2Request := mkH2Request {
  hq_uri : string;
  hq_path : string;
  hq_headers : list (string * string);
}.

Definition h2_request (valid_header : string * string -> option (string * string)) (e : GrpcH2Engine)
    (fault : option ChaosFault) : H2Request :=
  let path := ("/" ++ h2_service e ++ h2_method e)%string in
  {| hq_uri := ("http://" ++ h2_authority e ++ path)%string;
     hq_path := path;
     hq_headers :=
       [("content-type", "application/grpc"); ("te", "trailers")] ++
       omap valid_header (h2_headers e) ++
       match fault with Some MetadataCorruption => [("x-chaos-fault", "corrupted_value")] | _ => [] end |}.

(** What one iteration reads: [hi_others] is how far the other iterations move
    the gauge before this one's stream is open. *)
Record H2Io := mkH2Io {
  hi_draw : f32;
  hi_pick : Z;
  hi_connected : result string nat;
  hi_conn_us : Z;
  hi_ready : bool;
  hi_valid_header : string * string -> option (string * string);
  hi_request_ok : H2Request -> bool;
  hi_opened : bool;
  hi_others : Z;
  hi_max_streams : Z;
  hi_polls : list CapacityPoll;
  hi_response : bytes -> result string H2Response;   (** the answer to the bytes sent *)
  hi_read_time : duration;
  hi_elapsed : duration;
}.

Definition h2_sample (active max_concurrent : Z) (st : SendStats) : GrpcSample :=
  {| gs_active_streams := active;
     gs_max_concurrent_streams := max_concurrent;
     gs_utilization := if 0 <? max_concurrent
                       then f64_div (f64_of_Z active) (f64_of_Z max_concurrent) else f64_zero;
     gs_window_exhaustion_events := sd_events st;
     gs_window_stall_us := sd_stall_us st;
     gs_send_capacity_bytes := sd_cap_min st;
     gs_has_send_capacity := sd_has_cap st |}.

(** [timeout(d, read_fut)] elapses first. *)
Definition h2_late (e : GrpcH2Engine) (io : H2Io) : bool :=
  match h2_deadline e with Some d => d <? hi_read_time io | None => false end.

(** The metric of a finished RPC. *)
Definition h2_metric (io : H2Io) (fault : option ChaosFault) (conn_us : Z) (reused : bool) (active : Z) (st : SendStats)
    (grpc_status body_len : Z) : RequestMetric :=
  b_grpc (Some (h2_sample active (hi_max_streams io) st))
    (b_socket_reused reused
      (b_connection_latency_us (if 0 <? conn_us then Some conn_us else None)
        (b_bytes body_len
          (b_status (grpc_to_http_status grpc_status) (builder (as_micros (hi_elapsed io)) fault))))).

(** The part of an iteration that holds the guard; [None] when the stream never
    gets the credit it waits for. *)
Definition h2_exchange (e : GrpcH2Engine) (io : H2Io) (fault : option ChaosFault) (conn_us : Z) (reused : bool)
    (active : Z) : option RequestMetric :=
  let micros := as_micros (hi_elapsed io) in
  let frame := build_frame (match fault with Some CorruptedPayload => GRPC_CORRUPTED | _ => h2_payload e end) in
  match drive_send frame true (hi_polls io) with
  | (SendPending, _) => None
  | (SendFailed, _) => Some (error_metric micros fault)
  | (Sent st, chunks) =>
      let outcome := if h2_late e io then None else read_response (hi_response io (concat chunks.*1)) in
      Some
        (match outcome with
         | None => error_metric micros fault
         | Some (grpc_status, body_len) => h2_metric io fault conn_us reused active st grpc_status body_len
         end)
  end.

Definition h2_iteration (e : GrpcH2Engine) (io : H2Io) (s : H2Shared) : option RequestMetric * H2Shared :=
  let fault := select_fault (h2_chaos e) (hi_draw io) (hi_pick io) in
  let failed := error_metric (as_micros (hi_elapsed io)) fault in
  match fault with
  | Some ConnectionDrop => (Some failed, s)
  | _ =>
      match get_send (hi_connected io) (hi_conn_us io) s with
      | (Err _, s) => (Some failed, s)
      | (Ok (_, conn_us, reused), s) =>
          if negb (hi_ready io) then (Some failed, clear_send s)
          else if negb (hi_request_ok io (h2_request (hi_valid_header io) e fault)) then (Some failed, s)
          else if negb (hi_opened io) then (Some failed, clear_send s)
          else
            let s := guard_new (mkH2Shared (sh_send s) (wrap64 (sh_active s + hi_others io))) in
            (h2_exchange e io fault conn_us reused (sh_active s), guard_drop s)
      end
  end.

(** ** An iteration among others

    What an iteration does to the state the workers share, one access at a time.
    At an await the iteration goes on or its future is dropped; a drop runs the
    destructors of what is alive there. *)
Inductive H2Prog :=
  | HDone (m : RequestMetric)                                (** the iteration returns *)
  | HDropped                                                 (** its future is gone *)
  | HAwait (dropped resumed : H2Prog)
  | HGetSend (connected : result string nat) (conn_us : Z)
      (k : result string (nat * Z * bool) -> H2Prog)         (** under the mutex *)
  | HClear (p : H2Prog)                                      (** under the mutex *)
  | HAdd (p : H2Prog)                                        (** [fetch_add(1)] *)
  | HLoad (k : Z -> H2Prog)                                  (** [load] *)
  | HSub (p : H2Prog).                                       (** [fetch_sub(1)] *)

(** The scope of a live [ActiveGuard]: its [drop] runs on every way out. *)
Fixpoint with_guard (p : H2Prog) : H2Prog :=
  match p with
  | HDone m => HSub (HDone m)
  | HDropped => HSub HDropped
  | HAwait d k => HAwait (with_guard d) (with_guard k)
  | HGetSend c us k => HGetSend c us (fun r => with_guard (k r))
  | HClear p => HClear (with_guard p)
  | HAdd p => HAdd (with_guard p)
  | HLoad k => HLoad (fun v => with_guard (k v))
  | HSub p => HSub (with_guard p)
  end.

(** An await that holds nothing to clean up. *)
Definition await (p : H2Prog) : H2Prog := HAwait HDropped p.

(** The body of the RPC, from the snapshot of the gauge on. *)
Definition h2_streaming (e : GrpcH2Engine) (io : H2Io) (fault : option ChaosFault) (conn_us : Z) (reused : bool)
  : H2Prog :=
  let failed := HDone (error_metric (as_micros (hi_elapsed io)) fault) in
  let frame := build_frame (match fault with Some CorruptedPayload => GRPC_CORRUPTED | _ => h2_payload e end) in
  HLoad (fun active_streams =>
    await match drive_send frame true (hi_polls io) with
          | (SendPending, _) => HDropped
          | (SendFailed, _) => failed
          | (Sent st, chunks) =>
              await match (if h2_late e io then None else read_response (hi_response io (concat chunks.*1))) with
                    | None => failed
                    | Some (grpc_status, body_len) =>
                        HDone (h2_metric io fault conn_us reused active_streams st grpc_status body_len)
                    end
          end).

(** From [get_send] on. *)
Definition h2_rpc (e : GrpcH2Engine) (io : H2Io) (fault : option ChaosFault) : H2Prog :=
  let failed := HDone (error_metric (as_micros (hi_elapsed io)) fault) in
  await (HGetSend (hi_connected io) (hi_conn_us io) (fun sent =>
    match sent with
    | Err _ => failed
    | Ok (_, conn_us, reused) =>
        await (if negb (hi_ready io) then await (HClear failed)
               else if negb (hi_request_ok io (h2_request (hi_valid_header io) e fault)) then failed
               else if negb (hi_opened io) then await (HClear failed)
               else HAdd (with_guard (h2_streaming e io fault conn_us reused)))
    end)).

(** [execute_iteration]. *)
Definition h2_program (e : GrpcH2Engine) (io : H2Io) : H2Prog :=
  let fault := select_fault (h2_chaos e) (hi_draw io) (hi_pick io) in
  match fault with
  | Some ConnectionDrop => HDone (error_metric (as_micros (hi_elapsed io)) fault)
  | Some (LatencySpike _) => await (h2_rpc e io fault)
  | _ => h2_rpc e io fault
  end.

(** Without other workers, and never dropped. *)
Fixpoint run_alone (p : H2Prog) (s : H2Shared) : option RequestMetric * H2Shared :=
  match p with
  | HDone m => (Some m, s)
  | HDropped => (None, s)
  | HAwait _ k => run_alone k s
  | HGetSend c us k => let '(r, s) := get_send c us s in run_alone (k r) s
  | HClear p => run_alone p (clear_send s)
  | HAdd p => run_alone p (guard_new s)
  | HLoad k => run_alone (k (sh_active s)) s
  | HSub p => run_alone p (guard_drop s)
  end.

Lemma h2_program_alone e io s :
  hi_others io = 0 -> in_u64 (sh_active s) -> run_alone (h2_program e io) s = h2_iteration e io s.
Proof.
  intros Ho Ha. unfold h2_program, h2_rpc, h2_iteration. rewrite Ho. set (fault := select_fault _ _ _). clearbody fault.
  assert (HG : forall conn_us reused s1, in_u64 (sh_active s1) ->
    run_alone (HAdd (with_guard (h2_streaming e io fault conn_us reused))) s1 =
    (h2_exchange e io fault conn_us reused (sh_active (guard_new (mkH2Shared (sh_send s1) (wrap64 (sh_active s1 + 0))))),
     guard_drop (guard_new (mkH2Shared (sh_send s1) (wrap64 (sh_active s1 + 0)))))).
  { intros conn_us reused s1 H1. rewrite Z.add_0_r, wrap64_small by done. unfold h2_streaming, h2_exchange.
    destruct s1 as [c g]. cbn [run_alone with_guard await sh_send sh_active].
    destruct (drive_send _ true _) as [[] chunks]; try done. cbn [run_alone with_guard await].
    destruct (if h2_late e io then _ else _) as [[]|]; done. }
  assert (HC : sh_active (get_send (hi_connected io) (hi_conn_us io) s).2 = sh_active s).
  { unfold get_send. destruct (sh_send s); [done|]. by destruct (hi_connected io). }
  destruct fault as [[ms| | |]|]; try done; cbn [run_alone await];
    destruct (get_send _ _ s) as [[[[c us] r]|err] s1]; try done; simpl in HC;
    destruct (hi_ready io); try done; cbn [negb];
    destruct (hi_request_ok io _); try done; cbn [negb]; destruct (hi_opened io); try done; cbn [negb];
    apply HG; by rewrite HC.
Qed.

(** ** Framing round trip *)

Lemma message_length_frame payload rest :
  message_length (build_frame payload ++ rest) = wrap32 (Z.of_nat (length payload)).
Proof.
  pose proof (from_to_be_bytes 4 (wrap32 (Z.of_nat (length payload)))) as V.
  rewrite Z.mod_small in V by (unfold wrap32; apply Z.mod_pos_bound; lia).
  pose proof (length_to_be_bytes 4 (wrap32 (Z.of_nat (length payload)))) as L.
  unfold build_frame. destruct (to_be_bytes 4 _) as [|a [|b [|c [|d [|]]]]]; try done.
Qed.

Lemma collect_data_ok chunks body : collect_data (Ok <$> chunks) body = Some (body ++ concat chunks).
Proof.
  revert body. induction chunks as [|c chunks IH]; intros body; csimpl; [by rewrite app_nil_r|].
  by rewrite IH, (assoc_L (++)).
Qed.

(** Reply round trip: whatever the DATA frames a message built by [build_frame]
    arrives in, the reader reports the length of the message (modulo the 32 bits
    of the prefix) and the status of the trailers, else of the head, else OK. *)
Theorem h2_reply_roundtrip payload chunks head trailers :
  concat chunks = build_frame payload ->
  read_response (Ok (mkH2Response 200 head (Ok <$> chunks) (Ok trailers))) =
  Some (match grpc_status_from trailers with
        | Some code => code
        | None => default 0 (grpc_status_from (Some head))
        end, wrap32 (Z.of_nat (length payload))).
Proof.
  intros E. unfold read_response. cbn [hr_status hr_data hr_trailers hr_head].
  rewrite collect_data_ok, E. pose proof (message_length_frame payload []) as L. rewrite app_nil_r in L.
  rewrite <- L. reflexivity.
Qed.

(** ** The send loop *)

Definition poll_grants (p : CapacityPoll) : nat :=
  match cp_answer p with Some (Ok n) => n | _ => 0%nat end.

Definition cooperative (p : CapacityPoll) : bool :=
  match cp_answer p with Some (Ok _) => cp_send_ok p | _ => false end.

(** What the DATA frames of [drive_loop] must be, from [rest] on. *)
Definition sent_exactly (rest : bytes) (r : SendResult) (chunks : list (bytes * bool)) : Prop :=
  Forall (fun c => c.1 <> []) chunks /\
  match r with
  | Sent _ => exists body final, chunks = body ++ [(final, true)] /\ Forall (fun c => c.2 = false) body /\
                concat chunks.*1 = rest
  | _ => Forall (fun c => c.2 = false) chunks /\ exists unsent, unsent <> [] /\ concat chunks.*1 ++ unsent = rest
  end.

Definition stats_ok (s : SendStats) : Prop := 0 < sd_cap_min s <= U64_MAX.

Lemma count_stall_ok p idx s : stats_ok s -> stats_ok (count_stall p idx s).
Proof. unfold count_stall. by destruct (_ && _). Qed.

Lemma count_credit_ok n s : n <> 0%nat -> stats_ok s -> stats_ok (count_credit n s).
Proof. unfold stats_ok. simpl. lia. Qed.

Lemma sent_exactly_cons (chunk rest : bytes) r chunks :
  chunk <> [] -> sent_exactly rest r chunks -> sent_exactly (chunk ++ rest) r ((chunk, false) :: chunks).
Proof.
  intros Hc [Hne Hr]. split; [by constructor|]. destruct r.
  - destruct Hr as (body & final & -> & Hb & <-). exists ((chunk, false) :: body), final.
    split_and!; [done|by constructor|done].
  - destruct Hr as (Hb & unsent & Hu & <-). split; [by constructor|]. exists unsent.
    split; [done|]. csimpl. by rewrite <- (assoc_L (++)).
  - destruct Hr as (Hb & unsent & Hu & <-). split; [by constructor|]. exists unsent.
    split; [done|]. csimpl. by rewrite <- (assoc_L (++)).
Qed.

Lemma nothing_sent (rest : bytes) r :
  rest <> [] -> (forall s, r <> Sent s) -> sent_exactly rest r [].
Proof.
  intros Hr Hs. split; [constructor|]. destruct r as [s| |]; [by destruct (Hs s)| |];
    (split; [constructor|exists rest; by split]).
Qed.

Lemma drive_loop_exact frame polls idx s :
  (idx < length frame)%nat -> stats_ok s ->
  let '(r, chunks) := drive_loop frame polls idx s in
  sent_exactly (drop idx frame) r chunks /\
  match r with Sent st => sd_has_cap st = true /\ stats_ok st | _ => True end.
Proof.
  revert idx s. induction polls as [|p polls IH]; intros idx s Hi Hs.
  - simpl. rewrite (proj2 (Nat.ltb_lt _ _)) by done. split; [|done]. apply nothing_sent; [|done].
    intros E. apply (f_equal length) in E. rewrite length_drop in E. simpl in E. lia.
  - assert (Hd : drop idx frame <> []).
    { intros E. apply (f_equal length) in E. rewrite length_drop in E. simpl in E. lia. }
    cbn [drive_loop]. rewrite (proj2 (Nat.ltb_lt _ _)) by done.
    destruct (cp_answer p) as [[n|e]|]; try by (split; [by apply nothing_sent|]).
    destruct (Nat.eqb_spec n 0) as [->|Hn]; [by apply IH, count_stall_ok|].
    destruct (cp_send_ok p); [|by split; [apply nothing_sent|]]. cbn [negb].
    set (len := Nat.min n (length frame - idx)). assert (Hl : (0 < len)%nat) by lia.
    assert (Hc : take len (drop idx frame) <> []).
    { intros E. apply (f_equal length) in E. rewrite length_take, length_drop in E. simpl in E. lia. }
    pose proof (count_credit_ok n _ Hn (count_stall_ok p idx s Hs)) as Hs'.
    destruct (Nat.leb_spec (length frame) (idx + len)) as [Hlast|Hmore].
    + split; [|by split]. split; [by repeat constructor|].
      exists [], (take len (drop idx frame)). split_and!; [done|constructor|].
      csimpl. rewrite app_nil_r, take_ge by (rewrite length_drop; lia). done.
    + specialize (IH (idx + len)%nat _ Hmore Hs'). destruct (drive_loop _ _ _ _) as [r chunks].
      destruct IH as [IH IHs]. split; [|done].
      rewrite <- (take_drop len (drop idx frame)) at 1. rewrite drop_drop. by apply sent_exactly_cons.
Qed.

Lemma drive_loop_completes frame polls idx s :
  (idx < length frame)%nat -> Forall (fun p => cooperative p = true) polls ->
  (length frame - idx <= sum_list (poll_grants <$> polls))%nat ->
  exists st, (drive_loop frame polls idx s).1 = Sent st.
Proof.
  revert idx s. induction polls as [|p polls IH]; intros idx s Hi Hp Hg; csimpl in *; [lia|].
  rewrite (proj2 (Nat.ltb_lt _ _)) by done. inversion_clear Hp as [|?? Hc Hp'].
  unfold cooperative in Hc. unfold poll_grants in Hg at 1. destruct (cp_answer p) as [[n|e]|]; try done.
  destruct (Nat.eqb_spec n 0) as [->|Hn]; [apply IH; [done|done|lia]|]. rewrite Hc. cbn [negb].
  destruct (Nat.leb_spec (length frame) (idx + Nat.min n (length frame - idx))) as [Hl|Hm]; [by eexists|].
  destruct (IH (idx + Nat.min n (length frame - idx))%nat (count_credit n (count_stall p idx s)))
    as [st E]; [done|done|lia|].
  destruct (drive_loop _ _ _ _) as [r cs]. simpl in *. by exists st.
Qed.

Lemma build_frame_nonempty payload : (0 < length (build_frame payload))%nat.
Proof. unfold build_frame. simpl. lia. Qed.

(** C19. The send loop under flow control: the DATA frames are non-empty pieces of the
    message in order; END_STREAM is set on the last one exactly when the whole
    message was sent and on none otherwise; success reports a positive minimum of
    the credits seen; and a peer that keeps granting credit, in whatever
    portions, always gets the whole message. *)
Theorem h2_send_exact payload polls :
  let '(r, chunks) := drive_send (build_frame payload) true polls in
  Forall (fun c => c.1 <> []) chunks /\
  match r with
  | Sent st =>
      (exists body final, chunks = body ++ [(final, true)] /\ Forall (fun c => c.2 = false) body /\
         concat chunks.*1 = build_frame payload) /\
      sd_has_cap st = true /\ 0 < sd_cap_min st <= U64_MAX
  | _ => Forall (fun c => c.2 = false) chunks /\
      exists unsent, unsent <> [] /\ concat chunks.*1 ++ unsent = build_frame payload
  end /\
  (Forall (fun p => cooperative p = true) polls ->
   (length (build_frame payload) <= sum_list (poll_grants <$> polls))%nat ->
   exists st, r = Sent st).
Proof.
  assert (Hs : stats_ok (mkSendStats 0 0 U64_MAX false)) by (unfold stats_ok; by simpl).
  pose proof (drive_loop_exact _ polls 0 _ (build_frame_nonempty payload) Hs) as HE.
  pose proof (fun Hp Hg => drive_loop_completes _ polls 0 (mkSendStats 0 0 U64_MAX false)
                             (build_frame_nonempty payload) Hp Hg) as HC.
  assert (E : drive_send (build_frame payload) true polls =
              drive_loop (build_frame payload) polls 0 (mkSendStats 0 0 U64_MAX false)) by reflexivity.
  rewrite E. destruct (drive_loop _ _ _ _) as [r chunks]. destruct HE as [[H1 H2] H3].
  rewrite drop_0 in H2. rewrite Nat.sub_0_r in HC. split_and!; [done| |exact HC].
  destruct r; [|exact H2|exact H2]. split; [exact H2|exact H3].
Qed.

(** ** One iteration *)

Lemma guard_restores s : in_u64 (sh_active s) -> sh_active (guard_drop (guard_new s)) = sh_active s.
Proof.
  intros H. simpl. unfold u64_add, wrap64. rewrite Zminus_mod_idemp_l.
  replace (sh_active s + 1 - 1) with (sh_active s) by lia. apply wrap64_small, H.
Qed.

(** The connection handle is usable by this iteration: it is reused, or a new
    connection is made. *)
Definition h2_connected (io : H2Io) (s : H2Shared) : bool := is_some (sh_send s) || is_ok (hi_connected io).

(** The RPC ended with status OK before the deadline. *)
Definition h2_replied (e : GrpcH2Engine) (io : H2Io) (sent : bytes) (code len : Z) : Prop :=
  read_response (hi_response io sent) = Some (code, len) /\
  h2_late e io = false.

Definition h2_sent_payload (e : GrpcH2Engine) (fault : option ChaosFault) : bytes :=
  match fault with Some CorruptedPayload => GRPC_CORRUPTED | _ => h2_payload e end.

Lemma drive_send_sent payload polls st chunks :
  drive_send (build_frame payload) true polls = (Sent st, chunks) -> concat chunks.*1 = build_frame payload.
Proof.
  intros E. change (drive_loop (build_frame payload) polls 0 (mkSendStats 0 0 U64_MAX false) = (Sent st, chunks)) in E.
  pose proof (drive_loop_exact _ polls 0 (mkSendStats 0 0 U64_MAX false) (build_frame_nonempty payload)) as HE.
  rewrite E in HE. destruct HE as [[_ (body & final & _ & _ & HE)] _]; [by unfold stats_ok; simpl|].
  by rewrite drop_0 in HE.
Qed.

Lemma http_status_ok code : (grpc_to_http_status code =? 0) || (grpc_to_http_status code >=? 400) = false <-> code = 0.
Proof.
  destruct (grpc_status_faithful code) as [H1 H2]. destruct (decide (code = 0)) as [->|Hc]; [done|].
  specialize (H2 Hc). split; [|done]. rewrite orb_false_iff, Z.geb_leb, Z.leb_gt. lia.
Qed.

Lemma h2_exchange_ok e io fault conn_us reused active m :
  h2_exchange e io fault conn_us reused active = Some m ->
  is_error m = false <->
  exists st chunks len,
    drive_send (build_frame (h2_sent_payload e fault)) true (hi_polls io) = (Sent st, chunks) /\
    h2_replied e io (build_frame (h2_sent_payload e fault)) 0 len.
Proof.
  unfold h2_exchange. fold (h2_sent_payload e fault).
  destruct (drive_send _ _ _) as [[st| |] chunks] eqn:ES; intros [= <-].
  2: { split; [done|]. by intros (? & ? & ? & [=] & _). }
  rewrite (drive_send_sent _ _ _ _ ES). unfold h2_replied.
  destruct (h2_late e io); [by split; [|intros (? & ? & ? & _ & _ & ?)]|].
  destruct (read_response _) as [[code len]|] eqn:ER; [|by split; [|intros (? & ? & ? & _ & [=] & _)]].
  assert (Hb : is_error (h2_metric io fault conn_us reused active st code len) =
    (grpc_to_http_status code =? 0) || (grpc_to_http_status code >=? 400)).
  { unfold is_error. simpl. by destruct (_ || _). }
  rewrite Hb, http_status_ok. split; [intros ->; by eauto 10|]. by intros (? & ? & ? & _ & [= -> _] & _).
Qed.

(** When a multiplexed iteration succeeds, and what it leaves behind: a metric is
    not an error exactly when no chaos drop was drawn, a connection was available,
    the stream opened, the whole message was sent and the reply carried status OK
    in time; the shared handle is dropped exactly when h2 refused it (so that the
    next iteration connects anew) and is kept or established otherwise. *)
Theorem h2_iteration_outcome e io s :
  let fault := select_fault (h2_chaos e) (hi_draw io) (hi_pick io) in
  let request_ok := hi_request_ok io (h2_request (hi_valid_header io) e fault) in
  let frame := build_frame (h2_sent_payload e fault) in
  let usable := hi_ready io && (negb request_ok || hi_opened io) in
  let '(outcome, s') := h2_iteration e io s in
  (forall m, outcome = Some m ->
     (is_error m = false <->
      fault <> Some ConnectionDrop /\ h2_connected io s = true /\
      hi_ready io = true /\ request_ok = true /\ hi_opened io = true /\
      exists st chunks len, drive_send frame true (hi_polls io) = (Sent st, chunks) /\ h2_replied e io frame 0 len)) /\
  (fault = Some ConnectionDrop -> s' = s) /\
  (fault <> Some ConnectionDrop ->
     is_some (sh_send s') = h2_connected io s && usable).
Proof.
  cbv zeta. unfold h2_iteration.
  set (fault := select_fault _ _ _). set (req := h2_request _ _ _).
  assert (Hfail : forall P : Prop, ~ P -> forall m, Some (error_metric (as_micros (hi_elapsed io)) fault) = Some m ->
    is_error m = false <-> P) by (by intros P HP m [= <-]).
  destruct (decide (fault = Some ConnectionDrop)) as [Hf|Hf].
  { rewrite Hf. rewrite Hf in Hfail. split_and!; [|done|done]. apply Hfail. by intros [? _]. }
  rewrite not_dropped by done. unfold get_send, h2_connected.
  destruct (sh_send s) as [c|] eqn:ES; [|destruct (hi_connected io) as [c|err] eqn:EC];
    [| |split_and!; [apply Hfail; by intros (_ & ? & _)|done|by rewrite ES]].
  all: destruct (hi_ready io); [|split_and!; [apply Hfail; by intros (_ & _ & ? & _)|done|by simpl]].
  all: destruct (hi_request_ok io req); [|split_and!; [apply Hfail; by intros (_ & _ & _ & ? & _)|done|]].
  2,4: by simpl; rewrite ?ES.
  all: destruct (hi_opened io); [|split_and!; [apply Hfail; by intros (_ & _ & _ & _ & ? & _)|done|by simpl]].
  all: split_and!; [|done|by simpl; rewrite ?ES].
  all: intros m Hm; apply h2_exchange_ok in Hm; rewrite Hm; naive_solver.
Qed.

(** ** Many iterations on one connection *)

(** A worker is between iterations, or has the rest of one to run, with the
    increments of the gauge it has not taken back and the place in the gauge's
    modification order it has seen. *)
Inductive H2Worker :=
  | WIdle
  | WRuns (p : H2Prog) (balance : Z) (seen : nat).

(** The gauge is the sequence of the values it took: [Ordering::Relaxed] lets a
    [load] return any of them that is not older than what its thread has seen, and
    a read-modify-write takes the latest. *)
Record H2State := mkH2State {
  st_send : option nat;
  st_gauge : list Z;
  st_workers : list H2Worker;
  st_reported : list RequestMetric;
}.

Definition gauge_now (g : list Z) : Z := default 0 (last g).

(** One access of a running worker. *)
Inductive h2_access : option nat * list Z -> H2Worker -> option nat * list Z -> H2Worker -> Prop :=
  | acc_get_send send g connected conn_us k b seen r s' :
      get_send connected conn_us (mkH2Shared send (gauge_now g)) = (r, s') ->
      h2_access (send, g) (WRuns (HGetSend connected conn_us k) b seen) (sh_send s', g) (WRuns (k r) b seen)
  | acc_clear send g p b seen :
      h2_access (send, g) (WRuns (HClear p) b seen) (sh_send (clear_send (mkH2Shared send (gauge_now g))), g)
        (WRuns p b seen)
  | acc_add send g p b seen :
      h2_access (send, g) (WRuns (HAdd p) b seen)
        (send, g ++ [sh_active (guard_new (mkH2Shared send (gauge_now g)))]) (WRuns p (b + 1) (length g))
  | acc_sub send g p b seen :
      h2_access (send, g) (WRuns (HSub p) b seen)
        (send, g ++ [sh_active (guard_drop (mkH2Shared send (gauge_now g)))]) (WRuns p (b - 1) (length g))
  | acc_load send g k b seen j v :
      (seen <= j)%nat -> g !! j = Some v ->
      h2_access (send, g) (WRuns (HLoad k) b seen) (send, g) (WRuns (k v) b j)
  | acc_resume send g d p b seen :
      h2_access (send, g) (WRuns (HAwait d p) b seen) (send, g) (WRuns p b seen)
  | acc_drop send g d p b seen :
      h2_access (send, g) (WRuns (HAwait d p) b seen) (send, g) (WRuns d b seen).

(** Any worker takes a step: it begins an iteration whose answers are anything at
    all, makes an access, or has finished. *)
Inductive h2_step (e : GrpcH2Engine) : H2State -> H2State -> Prop :=
  | step_begin c g ws rep i io :
      ws !! i = Some WIdle ->
      h2_step e (mkH2State c g ws rep) (mkH2State c g (<[i := WRuns (h2_program e io) 0 0]> ws) rep)
  | step_access c g ws rep i w c' g' w' :
      ws !! i = Some w -> h2_access (c, g) w (c', g') w' ->
      h2_step e (mkH2State c g ws rep) (mkH2State c' g' (<[i := w']> ws) rep)
  | step_done c g ws rep i m b seen :
      ws !! i = Some (WRuns (HDone m) b seen) ->
      h2_step e (mkH2State c g ws rep) (mkH2State c g (<[i := WIdle]> ws) (m :: rep))
  | step_dropped c g ws rep i b seen :
      ws !! i = Some (WRuns HDropped b seen) ->
      h2_step e (mkH2State c g ws rep) (mkH2State c g (<[i := WIdle]> ws) rep).

Definition h2_start (workers : nat) : H2State := mkH2State None [0] (replicate workers WIdle) [].

(** What a worker has added to the gauge and not taken back. *)
Definition balance (w : H2Worker) : Z := match w with WIdle => 0 | WRuns _ b _ => b end.

(** *** Every way through an iteration is balanced *)

Definition reports_within (n : Z) (m : RequestMetric) : Prop :=
  forall x, rm_grpc m = Some x -> 1 <= gs_active_streams x <= n.

(** From balance [b], [p] adds at most one, reads the gauge only while it counts,
    ends every way with balance [x], and reports values from 1 to [n] if it read
    such values. *)
Fixpoint prog_ok (n b x : Z) (p : H2Prog) : Prop :=
  match p with
  | HDone m => b = x /\ reports_within n m
  | HDropped => b = x
  | HAwait d k => prog_ok n b x d /\ prog_ok n b x k
  | HGetSend _ _ k => forall r, prog_ok n b x (k r)
  | HClear p => prog_ok n b x p
  | HAdd p => b = 0 /\ prog_ok n 1 x p
  | HLoad k => b = 1 /\ forall v, 1 <= v <= n -> prog_ok n b x (k v)
  | HSub p => b = 1 /\ prog_ok n 0 x p
  end.

(** The guard gives back its increment on every way out of its scope. *)
Lemma with_guard_ok n b p : prog_ok n b 1 p -> prog_ok n b 0 (with_guard p).
Proof.
  revert b. induction p; intros b; simpl; naive_solver.
Qed.

Lemma error_within n micros fault : reports_within n (error_metric micros fault).
Proof. by intros x [=]. Qed.

Lemma h2_streaming_ok n e io fault conn_us reused : prog_ok n 1 1 (h2_streaming e io fault conn_us reused).
Proof.
  unfold h2_streaming. cbn [prog_ok await]. split; [done|]. intros v Hv. split; [done|].
  destruct (drive_send _ true _) as [[st| |] chunks]; simpl; [|by split; [|apply error_within]|done].
  split; [done|]. destruct (if h2_late e io then _ else _) as [[status len]|]; simpl;
    [|by split; [|apply error_within]].
  split; [done|]. by intros x [= <-].
Qed.

Lemma h2_program_ok n e io : prog_ok n 0 0 (h2_program e io).
Proof.
  unfold h2_program. set (fault := select_fault _ _ _). clearbody fault.
  assert (HF : reports_within n (error_metric (as_micros (hi_elapsed io)) fault)) by apply error_within.
  assert (HC : prog_ok n 0 0 (h2_rpc e io fault)).
  { unfold h2_rpc. cbn [prog_ok await]. split; [done|]. intros [[[c conn_us] reused]|err]; [|done].
    cbn [prog_ok await]. split; [done|]. destruct (hi_ready io); [|done]. destruct (hi_request_ok io _); [|done].
    destruct (hi_opened io); [|done]. cbn [negb prog_ok]. split; [done|]. apply with_guard_ok, h2_streaming_ok. }
  destruct fault as [[]|]; simpl; auto.
Qed.

(** *** The invariant *)

Lemma count_if_insert {A} (p : A -> bool) (l : list A) i x y :
  l !! i = Some x ->
  count_if p (<[i := y]> l) = count_if p l - (if p x then 1 else 0) + (if p y then 1 else 0).
Proof.
  intros Hx. rewrite insert_take_drop by (by eapply lookup_lt_Some).
  rewrite <- (take_drop_middle l i x) at 3 by done. rewrite !count_if_app, !count_if_cons. lia.
Qed.

Definition is_open (w : H2Worker) : bool := balance w =? 1.

(** An open worker has only seen values from 1 to [n] since it counts. *)
Definition worker_ok (n : Z) (g : list Z) (w : H2Worker) : Prop :=
  match w with
  | WIdle => True
  | WRuns p b seen => prog_ok n b 0 p /\
      (b = 0 \/ b = 1 /\ forall j v, (seen <= j)%nat -> g !! j = Some v -> 1 <= v <= n)
  end.

Definition gauge_inv (n : nat) (s : H2State) : Prop :=
  length (st_workers s) = n /\ st_gauge s <> [] /\ gauge_now (st_gauge s) = count_if is_open (st_workers s) /\
  Forall (worker_ok (Z.of_nat n) (st_gauge s)) (st_workers s) /\
  Forall (reports_within (Z.of_nat n)) (st_reported s).

Lemma worker_ok_balance n g w : worker_ok n g w -> balance w = if is_open w then 1 else 0.
Proof. destruct w as [|p b seen]; [done|]. unfold is_open. intros [_ [Hb|[Hb _]]]; simpl in *; by rewrite Hb. Qed.

(** Appending a value within range keeps every worker sound. *)
Lemma worker_ok_append n g v w : 1 <= v <= n \/ balance w = 0 -> worker_ok n g w -> worker_ok n (g ++ [v]) w.
Proof.
  intros Hv. destruct w as [|p b seen]; [done|]. intros [Hp Hb]. split; [done|].
  destruct Hb as [Hb|[Hb Hs]]; [by left|right]. destruct Hv as [Hv|Hv]; [|simpl in Hv; lia]. split; [done|].
  intros j x Hj [Hx|[_ Hx]]%lookup_app_Some; [by eapply Hs|]. by apply list_lookup_singleton_Some in Hx as [_ <-].
Qed.

Lemma gauge_now_app g v : gauge_now (g ++ [v]) = v.
Proof. unfold gauge_now. by rewrite last_snoc. Qed.

(** An access that leaves the gauge and the worker's balance alone. *)
Lemma gauge_same n c g ws rep i w c' w' :
  gauge_inv n (mkH2State c g ws rep) -> ws !! i = Some w -> balance w' = balance w ->
  worker_ok (Z.of_nat n) g w' -> gauge_inv n (mkH2State c' g (<[i := w']> ws) rep).
Proof.
  intros (Hl & Hne & Hg & Hw & Hr) Hi Hb Hw'. unfold gauge_inv. simpl in *. rewrite length_insert.
  rewrite (count_if_insert _ _ _ _ _ Hi). unfold is_open in *. rewrite Hb.
  split_and!; [done|done|lia|by apply Forall_insert|done].
Qed.

(** Adding to the gauge and taking back. *)
Lemma gauge_move n c g ws rep i p p' b b' seen :
  Z.of_nat n <= U64_MAX ->
  gauge_inv n (mkH2State c g ws rep) -> ws !! i = Some (WRuns p b seen) -> prog_ok (Z.of_nat n) b' 0 p' ->
  (b = 0 /\ b' = 1) \/ (b = 1 /\ b' = 0) ->
  gauge_inv n (mkH2State c (g ++ [gauge_now g + (b' - b)]) (<[i := WRuns p' b' (length g)]> ws) rep) /\
  in_u64 (gauge_now g + (b' - b)).
Proof.
  intros Hn (Hl & Hne & Hg & Hw & Hr) Hi Hp Hb. unfold gauge_inv. simpl in *.
  set (v := gauge_now g + (b' - b)).
  pose proof (count_if_insert is_open ws i _ (WRuns p' b' (length g)) Hi) as Hc.
  pose proof (count_if_bounds is_open (<[i := WRuns p' b' (length g)]> ws)) as Hbd.
  rewrite length_insert, Hl in Hbd.
  assert (Ho : forall q x k, is_open (WRuns q x k) = (x =? 1)) by done. rewrite !Ho in Hc.
  assert (Hv : v = count_if is_open (<[i := WRuns p' b' (length g)]> ws)).
  { unfold v. rewrite Hc, Hg. destruct Hb as [[-> ->]|[-> ->]]; simpl; lia. }
  assert (Hin : forall l k w, l !! k = Some w -> is_open w = true -> 1 <= count_if is_open l).
  { intros l k w Hk Hw'. rewrite <- (take_drop_middle l k w Hk), count_if_app, count_if_cons, Hw'.
    pose proof (count_if_bounds is_open (take k l)). pose proof (count_if_bounds is_open (drop (S k) l)). lia. }
  split; [|unfold in_u64; lia]. rewrite length_insert, gauge_now_app. split_and!; try done.
  { by intros [_ ?]%app_nil. }
  apply Forall_lookup. intros j w Hj. destruct (decide (j = i)) as [->|Hji].
  - rewrite list_lookup_insert_eq in Hj by (by eapply lookup_lt_Some). injection Hj as <-.
    split; [done|]. destruct Hb as [[_ ->]|[_ ->]]; [right|by left]. split; [done|].
    intros k x Hk [Hx|[_ Hx]]%lookup_app_Some; [apply lookup_lt_Some in Hx; lia|].
    apply list_lookup_singleton_Some in Hx as [_ <-].
    split; [|lia]. rewrite Hv. eapply (Hin _ i); [apply list_lookup_insert_eq; by eapply lookup_lt_Some|done].
  - rewrite list_lookup_insert_ne in Hj by done. pose proof (Forall_lookup_1 _ _ _ _ Hw Hj) as Hwj.
    apply worker_ok_append; [|done]. rewrite (worker_ok_balance _ _ _ Hwj).
    destruct (is_open w) eqn:Ew; [left|by right]. split; [|lia]. rewrite Hv.
    eapply (Hin _ j); [by rewrite list_lookup_insert_ne|done].
Qed.

Lemma gauge_access n c g ws rep i w c' g' w' :
  Z.of_nat n <= U64_MAX -> gauge_inv n (mkH2State c g ws rep) -> ws !! i = Some w ->
  h2_access (c, g) w (c', g') w' -> gauge_inv n (mkH2State c' g' (<[i := w']> ws) rep).
Proof.
  intros Hn Hinv Hi Ha. pose proof Hinv as (_ & _ & _ & Hw & _).
  pose proof (Forall_lookup_1 _ _ _ _ Hw Hi) as Hwi. simpl in Hwi.
  inversion Ha; subst; destruct Hwi as [Hp Hb]; simpl in Hp.
  - apply (gauge_same n c g' ws rep i _ _ _ Hinv Hi); [done|]. by split.
  - apply (gauge_same n c g' ws rep i _ _ _ Hinv Hi); [done|]. by split.
  - destruct Hp as [-> Hp].
    destruct (gauge_move n c' g ws rep i _ p 0 1 seen Hn Hinv Hi Hp) as [HM HU]; [by left|].
    cbn [guard_new sh_active]. unfold u64_add. rewrite wrap64_small by exact HU. exact HM.
  - destruct Hp as [-> Hp].
    destruct (gauge_move n c' g ws rep i _ p 1 0 seen Hn Hinv Hi Hp) as [HM HU]; [by right|].
    cbn [guard_drop sh_active]. rewrite wrap64_small by exact HU. exact HM.
  - destruct Hp as [-> Hp]. destruct Hb as [[=]|[_ Hs]].
    apply (gauge_same n c' g' ws rep i _ _ _ Hinv Hi); [done|]. split; [by eapply Hp, Hs|].
    right. split; [done|]. intros j' v' Hj'. apply Hs. lia.
  - apply (gauge_same n c' g' ws rep i _ _ _ Hinv Hi); [done|]. by split; [apply Hp|].
  - apply (gauge_same n c' g' ws rep i _ _ _ Hinv Hi); [done|]. by split; [apply Hp|].
Qed.

Lemma gauge_step e n s s' : Z.of_nat n <= U64_MAX -> gauge_inv n s -> h2_step e s s' -> gauge_inv n s'.
Proof.
  intros Hn Hinv Hs.
  destruct Hs as [c g ws rep i io Hi|c g ws rep i w c' g' w' Hi Ha|c g ws rep i m b seen Hi|c g ws rep i b seen Hi].
  - apply (gauge_same n c g ws rep i _ _ _ Hinv Hi); [done|]. split; [apply h2_program_ok|by left].
  - by eapply gauge_access.
  - pose proof Hinv as (_ & _ & _ & Hw & _). pose proof (Forall_lookup_1 _ _ _ _ Hw Hi) as [Hp _].
    destruct Hp as [-> Hm]. destruct (gauge_same n c g ws rep i _ c WIdle Hinv Hi) as (H1 & H2 & H3 & H4 & H5); try done.
    split_and!; try done. by constructor.
  - pose proof Hinv as (_ & _ & _ & Hw & _). pose proof (Forall_lookup_1 _ _ _ _ Hw Hi) as [Hp _].
    simpl in Hp. subst b. by apply (gauge_same n c g ws rep i _ c WIdle Hinv Hi).
Qed.

(** C20. The stream gauge is exact under every interleaving of the workers' accesses,
    each iteration running [execute_iteration] with any answers and ending anywhere:
    on any of its return paths, or dropped at any of its awaits.  The gauge
    always equals the number of workers that are between their own [fetch_add] and
    [fetch_sub]; no worker counts more than once, and one between iterations does
    not count, so the gauge is zero when all are idle; and every number of active
    streams that a metric reports lies between 1 and the number of workers, although
    the relaxed [load] may return an outdated value. *)
Theorem h2_gauge_exact e (workers : nat) (s : H2State) :
  Z.of_nat workers <= U64_MAX ->
  rtc (h2_step e) (h2_start workers) s ->
  gauge_now (st_gauge s) = Zsum (balance <$> st_workers s) /\
  Forall (fun w => 0 <= balance w <= 1) (st_workers s) /\
  (Forall (fun w => w = WIdle) (st_workers s) -> gauge_now (st_gauge s) = 0) /\
  (forall m x, m ∈ st_reported s -> rm_grpc m = Some x -> 1 <= gs_active_streams x <= Z.of_nat workers).
Proof.
  intros Hn Hr.
  assert (H0 : gauge_inv workers (h2_start workers)).
  { split_and!; [by simpl; rewrite length_replicate|done| |by apply Forall_replicate|constructor].
    simpl. clear. induction workers as [|n IH]; [done|]. simpl. rewrite count_if_cons. simpl. lia. }
  assert (H : gauge_inv workers s).
  { revert H0. induction Hr as [|x y z Hxy _ IH]; [done|]. intros Hx. apply IH. by eapply gauge_step. }
  destruct H as (_ & _ & Hg & Hw & Hrep).
  assert (Hz : gauge_now (st_gauge s) = Zsum (balance <$> st_workers s)).
  { rewrite Hg. clear -Hw. unfold count_if. f_equal. apply list_fmap_ext. intros i w Hi. symmetry.
    eapply worker_ok_balance, Forall_lookup_1; done. }
  split_and!; [done| | |].
  - eapply Forall_impl; [exact Hw|]. intros w Ho%worker_ok_balance. rewrite Ho. destruct (is_open w); lia.
  - intros Hidle. rewrite Hz. clear -Hidle. induction Hidle as [|w ws -> _ IH]; [done|]. csimpl. lia.
  - intros m x Hm. rewrite Forall_forall in Hrep. by apply Hrep.
Qed.

(** ** The path of the request *)

(** The two gRPC engines disagree: for the same service and method the
    multiplexed engine never requests the path [/service/method] that the unary
    engine requests (and its own comment names); it leaves out the separator. *)
Theorem h2_path_differs (valid_header : string * string -> option (string * string))
    (h : GrpcH2Engine) (g : GrpcEngine) (fault : option ChaosFault) :
  h2_service h = gr_service g -> h2_method h = gr_method g ->
  grq_path (grpc_request g fault) = ("/" ++ h2_service h ++ "/" ++ h2_method h)%string /\
  hq_path (h2_request valid_header h fault) = ("/" ++ h2_service h ++ h2_method h)%string /\
  hq_path (h2_request valid_header h fault) <> grq_path (grpc_request g fault).
Proof.
  intros Hs Hm. simpl. rewrite <- Hs, <- Hm. split_and!; [done|done|].
  intros E. apply (f_equal (length ∘ as_bytes)) in E. simpl in E.
  rewrite !as_bytes_append, !length_app in E. simpl in E. lia.
Qed.

(** ** Witnesses *)

Definition demo_h2 : GrpcH2Engine := mkGrpcH2Engine "host:50051" "pkg.Svc" "Call" (as_bytes "hi") [] None
  (mkChaosEngine false f64_zero).

Lemma h2_reply_roundtrip_witness :
  read_response (Ok (mkH2Response 200 (fun _ => None)
    (Ok <$> [take 3 (build_frame (as_bytes "hello")); drop 3 (build_frame (as_bytes "hello"))])
    (Ok (Some (fun _ => Some "5"))))) = Some (5, 5).
Proof. apply (h2_reply_roundtrip (as_bytes "hello")). reflexivity. Defined.

Definition demo_h2_io : H2Io :=
  mkH2Io f64_zero 0 (Ok 0%nat) 7 true Some (fun _ => true) true 0 100
    [mkCapacityPoll false 0 (Some (Ok 64%nat)) true]
    (fun sent => Ok (mkH2Response 200 (fun _ => None) [Ok sent] (Ok None))) 1 5000.

(** Runs of given schedules. *)
Inductive H2Move :=
  | MBegin (i : nat) (io : H2Io)
  | MLoad (i j : nat)           (** load the [j]-th value of the gauge *)
  | MDrop (i : nat)             (** drop the iteration at its await *)
  | MStep (i : nat).            (** the one other thing the worker can do *)

Definition h2_exec (e : GrpcH2Engine) (m : H2Move) (s : H2State) : option H2State :=
  let '(mkH2State c g ws rep) := s in
  match m with
  | MBegin i io =>
      match ws !! i with
      | Some WIdle => Some (mkH2State c g (<[i := WRuns (h2_program e io) 0 0]> ws) rep)
      | _ => None
      end
  | MLoad i j =>
      match ws !! i, g !! j with
      | Some (WRuns (HLoad k) b seen), Some v =>
          if decide (seen <= j)%nat then Some (mkH2State c g (<[i := WRuns (k v) b j]> ws) rep) else None
      | _, _ => None
      end
  | MDrop i =>
      match ws !! i with
      | Some (WRuns (HAwait d _) b seen) => Some (mkH2State c g (<[i := WRuns d b seen]> ws) rep)
      | _ => None
      end
  | MStep i =>
      match ws !! i with
      | Some (WRuns (HDone m) _ _) => Some (mkH2State c g (<[i := WIdle]> ws) (m :: rep))
      | Some (WRuns HDropped _ _) => Some (mkH2State c g (<[i := WIdle]> ws) rep)
      | Some (WRuns (HAwait _ p) b seen) => Some (mkH2State c g (<[i := WRuns p b seen]> ws) rep)
      | Some (WRuns (HGetSend connected us k) b seen) =>
          let '(r, s') := get_send connected us (mkH2Shared c (gauge_now g)) in
          Some (mkH2State (sh_send s') g (<[i := WRuns (k r) b seen]> ws) rep)
      | Some (WRuns (HClear p) b seen) =>
          Some (mkH2State (sh_send (clear_send (mkH2Shared c (gauge_now g)))) g (<[i := WRuns p b seen]> ws) rep)
      | Some (WRuns (HAdd p) b _) =>
          Some (mkH2State c (g ++ [sh_active (guard_new (mkH2Shared c (gauge_now g)))])
                  (<[i := WRuns p (b + 1) (length g)]> ws) rep)
      | Some (WRuns (HSub p) b _) =>
          Some (mkH2State c (g ++ [sh_active (guard_drop (mkH2Shared c (gauge_now g)))])
                  (<[i := WRuns p (b - 1) (length g)]> ws) rep)
      | _ => None
      end
  end.

Lemma h2_exec_sound e m s s' : h2_exec e m s = Some s' -> h2_step e s s'.
Proof.
  destruct s as [c g ws rep], m as [i io|i j|i|i]; simpl; destruct (ws !! i) as [[|p b seen]|] eqn:Hi; try done.
  - intros [= <-]. by constructor.
  - destruct p; try done. destruct (g !! j) as [v|] eqn:Hj; [|done]. case_decide; [|done]. intros [= <-].
    eapply step_access; [done|by constructor].
  - destruct p; try done. intros [= <-]. eapply step_access; [done|constructor].
  - destruct p; try done; try (intros [= <-]; by econstructor); try (intros [= <-]; eapply step_access; [done|constructor]).
    destruct (get_send _ _ _) as [r s1] eqn:E. intros [= <-]. eapply step_access; [done|by econstructor].
Qed.

Definition h2_exec_all (e : GrpcH2Engine) (ms : list H2Move) (s : H2State) : option H2State :=
  foldl (fun o m => o ≫= h2_exec e m) (Some s) ms.

Lemma h2_exec_all_sound e ms s s' : h2_exec_all e ms s = Some s' -> rtc (h2_step e) s s'.
Proof.
  unfold h2_exec_all. revert s. induction ms as [|m ms IH]; intros s; simpl; [by intros [= <-]; apply rtc_refl|].
  destruct (h2_exec e m s) as [s1|] eqn:E.
  - intros Hr. eapply rtc_l; [by eapply h2_exec_sound|by apply IH].
  - intros Hr. exfalso. revert Hr. clear. induction ms as [|m ms IH]; simpl; [done|exact IH].
Qed.

(** Two workers open their streams; the first loads the gauge after the second has
    added to it and reports 2; the second is dropped while it sends. *)
Definition demo_moves : list H2Move :=
  [MBegin 0 demo_h2_io; MBegin 1 demo_h2_io] ++ replicate 4 (MStep 0) ++ replicate 4 (MStep 1) ++
  [MLoad 0 2; MLoad 1 2; MDrop 1; MStep 1; MStep 1] ++ replicate 4 (MStep 0).

Definition demo_end : option H2State := h2_exec_all demo_h2 demo_moves (h2_start 2).

Lemma h2_gauge_exact_witness :
  exists s, demo_end = Some s /\ ((fun m => gs_active_streams <$> rm_grpc m) <$> st_reported s) = [Some 2] /\
    gauge_now (st_gauge s) = 0.
Proof.
  assert (Hd : match demo_end with
    | Some s => ((fun m => gs_active_streams <$> rm_grpc m) <$> st_reported s) = [Some 2] /\
        st_workers s = [WIdle; WIdle]
    | None => False
    end) by (vm_compute; by split).
  destruct demo_end as [s|] eqn:E; [|destruct Hd]. destruct Hd as [Hr Hw].
  exists s. split; [reflexivity|]. split; [exact Hr|].
  apply (h2_gauge_exact demo_h2 2 s ltac:(vm_compute; discriminate) (h2_exec_all_sound _ _ _ _ E)).
  rewrite Hw. by repeat constructor.
Defined.

Lemma h2_path_differs_witness :
  hq_path (h2_request Some demo_h2 None) = "/pkg.SvcCall"%string /\
  hq_path (h2_request Some demo_h2 None) <> "/pkg.Svc/Call"%string.
Proof.
  split; [reflexivity|].
  apply (h2_path_differs Some demo_h2
    (mkGrpcEngine "" [] (mkChaosEngine false f64_zero) "pkg.Svc" "Call" [] None None) None); reflexivity.
Defined.

Example h2_send_demo :
  drive_send (build_frame (as_bytes "hi")) true
    [mkCapacityPoll false 0 (Some (Ok 3%nat)) true; mkCapacityPoll true 40 (Some (Ok 0%nat)) true;
     mkCapacityPoll true 2 (Some (Ok 9%nat)) true] =
  (Sent (mkSendStats 2 42 3 true), [(ch <$> [0; 0; 0], false); (ch <$> [0; 2; 104; 105], true)]).
Proof. reflexivity. Qed.
