(* ===== verification/Http3.v ===== *)
(** The HTTP/3 engine: [protocols/http3.rs].

    QUIC and HTTP/3 (quinn, h3), TLS, DNS and URI parsing are third-party code:
    what they answer is an input.  The set-up of the engine, the authority
    parser, the stateless and the persistent iteration with its reconnect,
    migration and loss accounting are modelled. *)

From S2P Require Import Prelude RustStr Float Chaos Samples Aggregate LocalRun GrpcEngine.

#[local] Open Scope Z_scope.
#[local] Open Scope rust_scope.

(** ** Authorities *)

Definition COLON : ascii := ch 58.
Definition LBRACKET : ascii := ch 91.
Definition RBRACKET : ascii := ch 93.

(** [s.split_once(c)] and [s.rsplit_once(c)] on bytes. *)
Definition split_first (c : ascii) (s : bytes) : option (bytes * bytes) :=
  i ← position c s; Some (take i s, drop (S i) s).

Definition split_last (c : ascii) (s : bytes) : option (bytes * bytes) :=
  i ← position c (rev s); Some (take (length s - S i) s, drop (length s - i) s).

(** [s.parse::<u16>()], with the messages of [ParseIntError]. *)
Fixpoint parse_u16_digits (acc : Z) (s : bytes) : result string Z :=
  match s with
  | [] => Ok acc
  | c :: s =>
      let d := byte_val c - 48 in
      if (0 <=? d) && (d <=? 9) then
        if acc * 10 + d <=? 65535 then parse_u16_digits (acc * 10 + d) s
        else Err "number too large to fit in target type"
      else Err "invalid digit found in string"
  end.

Definition parse_u16_result (s : bytes) : result string Z :=
  match s with
  | [] => Err "cannot parse integer from empty string"
  | [c] => if (byte_val c =? 43) || (byte_val c =? 45) then Err "invalid digit found in string"
           else parse_u16_digits 0 [c]
  | c :: rest => parse_u16_digits 0 (if byte_val c =? 43 then rest else s)
  end.

Definition split_authority (authority : string) : result string (string * Z) :=
  let bad_port e := ("invalid port in authority " ++ authority ++ ": " ++ e)%string in
  match strip_prefix [LBRACKET] (as_bytes authority) with
  | Some rest =>
      hr ← ok_or ("invalid IPv6 authority: " ++ authority)%string (split_first RBRACKET rest);
      let '(host, rest) := hr in
      match rest with
      | [] => Ok (of_bytes host, 443)
      | _ =>
          p ← ok_or ("invalid authority: " ++ authority)%string (strip_prefix [COLON] rest);
          port ← map_err bad_port (parse_u16_result p);
          Ok (of_bytes host, port)
      end
  | None =>
      match split_last COLON (as_bytes authority) with
      | Some (host, port) =>
          port ← map_err bad_port (parse_u16_result port);
          Ok (of_bytes host, port)
      | None => Ok (authority, 443)
      end
  end.

(** ** The engine *)

Inductive H3Method := M_GET | M_POST | M_PUT | M_DELETE | M_PATCH | M_HEAD | M_OPTIONS.

(** What [http::Uri] answers for a parsed URL. *)
Record UriParts := mkUriParts {
  uri_host : option string;
  uri_port_u16 : option Z;
  uri_path_and_query : option string;
}.

(** [uri_parse] is [Uri::from_maybe_shared]; [to_uppercase] is [str::to_uppercase]. *)
Class Http3Env : Type := {
  uri_parse : string -> result string UriParts;
  to_uppercase : string -> string;
}.

Record Http3Engine := mkHttp3Engine {
  h3_server_name : string;
  h3_authority : string;
  h3_path : string;
  h3_method : H3Method;
  h3_headers : list (string * string);
  h3_body : option bytes;
  h3_chaos : ChaosEngine;
  h3_max_idle_timeout_ms : option Z;
  h3_zero_rtt : bool;
  h3_migrate : bool;
  h3_migrate_every : Z;
}.

(** [url.replacen(scheme, "https://", 1)] when the URL starts with it. *)
Definition rewrite_scheme (scheme url : string) : option string :=
  rest ← strip_prefix (as_bytes scheme) (as_bytes url);
  Some ("https://" ++ of_bytes rest)%string.

Definition rewrite_url (url : string) : string :=
  match rewrite_scheme "h3://" url with
  | Some u => u
  | None => default url (rewrite_scheme "http3://" url)
  end.

(** [host.strip_prefix('[').and_then(|h| h.strip_suffix(']')).unwrap_or(&host)]. *)
Definition strip_suffix (c : ascii) (s : bytes) : option bytes :=
  match rev s with
  | x :: r => if Ascii.eqb x c then Some (rev r) else None
  | [] => None
  end.

Definition server_name_of (host : string) : string :=
  match strip_prefix [LBRACKET] (as_bytes host) ≫= strip_suffix RBRACKET with
  | Some name => of_bytes name
  | None => host
  end.

Definition h3_method_of (upper : string) : option H3Method :=
  if String.eqb upper "GET" then Some M_GET
  else if String.eqb upper "POST" then Some M_POST
  else if String.eqb upper "PUT" then Some M_PUT
  else if String.eqb upper "DELETE" then Some M_DELETE
  else if String.eqb upper "PATCH" then Some M_PATCH
  else if String.eqb upper "HEAD" then Some M_HEAD
  else if String.eqb upper "OPTIONS" then Some M_OPTIONS
  else None.

Definition Http3Engine_new `{Http3Env} (url : string) (headers : list (string * string)) (method : string)
    (body : option bytes) (chaos : ChaosEngine) (max_idle_timeout_ms : option Z) (zero_rtt : bool)
  : result string Http3Engine :=
  parsed ← map_err (fun e => "invalid HTTP/3 URL: " ++ e)%string (uri_parse (rewrite_url url));
  host ← ok_or "URL missing host"%string (uri_host parsed);
  let port := default 443 (uri_port_u16 parsed) in
  let path := default "/" (uri_path_and_query parsed) in
  m ← ok_or ("invalid HTTP method: " ++ method)%string (h3_method_of (to_uppercase method));
  Ok {| h3_server_name := server_name_of host;
        h3_authority := host ++ ":" ++ u64_to_string port;
        h3_path := path;
        h3_method := m;
        h3_headers := headers;
        h3_body := body;
        h3_chaos := chaos;
        h3_max_idle_timeout_ms := max_idle_timeout_ms;
        h3_zero_rtt := zero_rtt;
        h3_migrate := false;
        h3_migrate_every := 50 |}%string.

Definition with_migration (migrate : bool) (every : Z) (e : Http3Engine) : Http3Engine :=
  mkHttp3Engine (h3_server_name e) (h3_authority e) (h3_path e) (h3_method e) (h3_headers e) (h3_body e)
    (h3_chaos e) (h3_max_idle_timeout_ms e) (h3_zero_rtt e) migrate (Z.max every 1).

(** The QUIC idle timeout [ensure_endpoint] configures, in milliseconds. *)
Definition idle_timeout (e : Http3Engine) : Z := Z.min (default 30000 (h3_max_idle_timeout_ms e)) 16383.

(** ** Connecting *)

(** A connection attempt: whether 0-RTT keys were available and, if so, whether
    the server accepted them; and the handshake, which a 5 s timeout bounds. *)
Record Connecting := mkConnecting {
  cn_0rtt : option bool;
  cn_handshake : option (result string ());     (** [None]: timed out *)
}.

Record QuicIo := mkQuicIo {
  qi_endpoint : result string ();
  qi_lookup : string -> Z -> result string nat;  (** the number of addresses found *)
  qi_dns_us : Z;
  qi_connect : string -> result string Connecting;
  qi_setup : result string ();                   (** [setup_h3] *)
}.

Definition connect_quic_connecting (e : Http3Engine) (q : QuicIo) : result string (Connecting * Z) :=
  _ ← qi_endpoint q;
  hp ← split_authority (h3_authority e);
  let '(host, port) := hp in
  n ← map_err (fun x => "DNS resolution failed: " ++ x)%string (qi_lookup q host port);
  match n with
  | O => Err "no addresses found for host"%string
  | S _ =>
      connecting ← map_err (fun x => "QUIC connect error: " ++ x)%string (qi_connect q (h3_server_name e));
      Ok (connecting, qi_dns_us q)
  end.

Definition handshake (c : Connecting) : result string () :=
  match cn_handshake c with
  | None => Err "QUIC handshake timed out"%string
  | Some r => map_err (fun x => "QUIC handshake failed: " ++ x)%string r
  end.

Definition connect_quic (e : Http3Engine) (q : QuicIo) : result string Z :=
  c ← connect_quic_connecting e q;
  let '(connecting, dns_us) := c in
  _ ← handshake connecting; Ok dns_us.

(** The acceptance the session keeps and the flag [is_0rtt]. *)
Definition connect_with_0rtt (e : Http3Engine) (c : Connecting) : result string (option bool * bool) :=
  match (if h3_zero_rtt e then cn_0rtt c else None) with
  | Some accepted => Ok (Some accepted, true)
  | None => _ ← handshake c; Ok (None, false)
  end.

(** ** Requests *)

Record H3Request := mkH3Request {
  rq3_method : H3Method;
  rq3_uri : string;
  rq3_headers : list (string * string);
}.

(** The stream of one request: what each call on it answers. *)
Record H3Stream := mkH3Stream {
  hs_open : result string ();
  hs_send : result string ();
  hs_finish : result string ();
  hs_response : result string Z;
  hs_data : list (result string Z);    (** chunk lengths *)
}.

(** One connection as seen by the client: [valid_header] is the test of
    [build_request], [build_ok] its last step, [serve] the peer. *)
Record H3Peer := mkH3Peer {
  pr_valid_header : string * string -> bool;
  pr_build_ok : H3Request -> result string ();
  pr_serve : H3Request -> option bytes -> H3Stream;
}.

Definition build_request (e : Http3Engine) (p : H3Peer) : result string H3Request :=
  let r := mkH3Request (h3_method e) ("https://" ++ h3_authority e ++ h3_path e)%string
             (filter (fun h => pr_valid_header p h = true) (h3_headers e)) in
  _ ← map_err (fun x => "failed to build request: " ++ x)%string (pr_build_ok p r); Ok r.

Fixpoint recv_all (l : list (result string Z)) (total_bytes : Z) : result string Z :=
  match l with
  | [] => Ok total_bytes
  | Ok n :: l => recv_all l (total_bytes +! n)
  | Err e :: _ => Err ("failed to receive H3 data: " ++ e)%string
  end.

(** The steps after the body is sent. *)
Definition finish_and_receive (what : string) (st : H3Stream) : result string (Z * Z) :=
  _ ← map_err (fun x => "failed to finish " ++ what ++ " stream: " ++ x)%string (hs_finish st);
  status ← map_err (fun x => "failed to receive H3 response: " ++ x)%string (hs_response st);
  total ← recv_all (hs_data st) 0;
  Ok (status, total).

Definition send_request_on_conn (e : Http3Engine) (p : H3Peer) : result string (Z * Z) :=
  request ← build_request e p;
  let st := pr_serve p request (h3_body e) in
  _ ← map_err (fun x => "failed to open H3 stream: " ++ x)%string (hs_open st);
  _ ← (match h3_body e with
       | Some _ => map_err (fun x => "failed to send H3 body: " ++ x)%string (hs_send st)
       | None => Ok ()
       end);
  finish_and_receive "H3" st.

Definition H3_CORRUPTED : bytes := ch <$> [255; 254; 189; 239].

Definition send_corrupted_request (e : Http3Engine) (p : H3Peer) : result string (Z * Z) :=
  request ← build_request e p;
  let st := pr_serve p request (Some H3_CORRUPTED) in
  _ ← map_err (fun x => "failed to open H3 stream: " ++ x)%string (hs_open st);
  _ ← map_err (fun x => "failed to send corrupted H3 body: " ++ x)%string (hs_send st);
  finish_and_receive "corrupted H3" st.

(** [Ok(v) => v, Err(_) => (0, 0)]. *)
Definition or_failed (r : result string (Z * Z)) : Z * Z :=
  match r with Ok v => v | Err _ => (0, 0) end.

(** ** The stateless iteration *)

(** [QuicConnection::stats().path] as the code reads it. *)
Record PathStats := mkPathStats {
  ps_cwnd : Z;
  ps_lost_packets : Z;
}.

Record H3Io := mkH3Io {
  i3_draw : f32;
  i3_pick : Z;
  i3_quic : QuicIo;
  i3_connect_us : Z;
  i3_peer : H3Peer;
  i3_stats : PathStats;
  i3_elapsed : duration;
}.

Definition connect_stateless (e : Http3Engine) (q : QuicIo) : result string (Z * bool) :=
  if h3_zero_rtt e then
    c ← connect_quic_connecting e q;
    let '(connecting, dns_us) := c in
    z ← connect_with_0rtt e connecting;
    Ok (dns_us, z.2)
  else dns_us ← connect_quic e q; Ok (dns_us, false).

Definition http3_iteration (e : Http3Engine) (io : H3Io) : RequestMetric :=
  let micros := as_micros (i3_elapsed io) in
  let fault := select_fault (h3_chaos e) (i3_draw io) (i3_pick io) in
  match fault with
  | Some ConnectionDrop => error_metric micros fault
  | _ =>
      match connect_stateless e (i3_quic io) with
      | Err _ => error_metric micros fault
      | Ok (dns_us, used_0rtt) =>
          match qi_setup (i3_quic io) with
          | Err _ => error_metric micros fault
          | Ok _ =>
              let '(status, bytes) :=
                match fault with
                | Some CorruptedPayload => or_failed (send_corrupted_request e (i3_peer io))
                | _ => or_failed (send_request_on_conn e (i3_peer io))
                end in
              b_http3 (Some (mkHttp3Sample (ps_cwnd (i3_stats io)) 0 0))
                (b_quic (Some (wrap64 (i3_connect_us io))) used_0rtt (Some (ps_lost_packets (i3_stats io)))
                  (b_dns_resolution_us (Some dns_us)
                    (b_connection_latency_us (Some (i3_connect_us io))
                      (b_bytes bytes (b_status status (builder micros fault))))))
          end
      end
  end.

(** ** The persistent session *)

Record Http3Session := mkHttp3Session {
  s3_conn : nat;                         (** which connection it is on *)
  s3_zero_rtt_accepted : option bool;
  s3_prev_lost_packets : Z;
  s3_initial_dns_resolution_us : Z;
  s3_iterations : Z;
}.

Definition http3_create_worker_context (e : Http3Engine) (q : QuicIo) : option Http3Session :=
  match connect_quic_connecting e q with
  | Err _ => None
  | Ok (connecting, dns_us) =>
      match connect_with_0rtt e connecting, qi_setup q with
      | Ok (accepted, _), Ok _ => Some (mkHttp3Session 0 accepted 0 dns_us 0)
      | _, _ => None
      end
  end.

(** What a persistent iteration observes. *)
Record SessionIo := mkSessionIo {
  x3_draw : f32;
  x3_pick : Z;
  x3_endpoint : bool;                    (** [self.endpoint.get().is_some()] *)
  x3_rebind : bool;                      (** a fresh socket was bound and [rebind] accepted it *)
  x3_peer : H3Peer;                      (** the connection of the session *)
  x3_quic : QuicIo;                      (** the reconnect *)
  x3_handshake_us : Z;
  x3_new_peer : H3Peer;                  (** the new connection *)
  x3_stats : PathStats;                  (** of the connection the session is on at the end *)
  x3_elapsed : duration;
}.

(** What the request phase leaves: status and bytes, whether it reconnected, the
    handshake time and the 0-RTT flag, and the session. *)
Record Attempt := mkAttempt {
  at_result : Z * Z;
  at_reconnect : bool;
  at_handshake_us : option Z;
  at_used_0rtt : bool;
  at_session : Http3Session;
}.

Definition reconnect_and_send (e : Http3Engine) (io : SessionIo) (s : Http3Session) : Attempt :=
  match connect_quic_connecting e (x3_quic io) with
  | Err _ => mkAttempt (0, 0) false None false s
  | Ok (connecting, _) =>
      match connect_with_0rtt e connecting with
      | Err _ => mkAttempt (0, 0) false None false s
      | Ok (zero_rtt, is_0rtt) =>
          match qi_setup (x3_quic io) with
          | Err _ => mkAttempt (0, 0) false (Some (x3_handshake_us io)) is_0rtt s
          | Ok _ =>
              mkAttempt (or_failed (send_request_on_conn e (x3_new_peer io))) true
                (Some (x3_handshake_us io)) is_0rtt
                (mkHttp3Session (S (s3_conn s)) zero_rtt 0 (s3_initial_dns_resolution_us s) (s3_iterations s))
          end
      end
  end.

Definition attempt (e : Http3Engine) (io : SessionIo) (s : Http3Session) : Attempt :=
  match send_request_on_conn e (x3_peer io) with
  | Ok v => mkAttempt v false None false s
  | Err _ => reconnect_and_send e io s
  end.

Definition is_multiple_of (n m : Z) : bool := if m =? 0 then n =? 0 else n mod m =? 0.

(** The iteration once the fault is drawn and its delay, if any, is over. *)
Definition http3_session_iteration (e : Http3Engine) (io : SessionIo) (fault : option ChaosFault)
    (s : Http3Session) : RequestMetric * Http3Session :=
  let s := mkHttp3Session (s3_conn s) (s3_zero_rtt_accepted s) (s3_prev_lost_packets s)
             (s3_initial_dns_resolution_us s) (s3_iterations s +! 1) in
  let mig_att := if h3_migrate e && is_multiple_of (s3_iterations s) (h3_migrate_every e) &&
                    x3_endpoint io && x3_rebind io then 1 else 0 in
  let a := attempt e io s in
  let s := at_session a in
  let lost := ps_lost_packets (x3_stats io) in
  let retransmits := u_saturating_sub lost (s3_prev_lost_packets s) in
  let mig_succ := if (mig_att =? 1) && negb (at_reconnect a) && negb ((at_result a).1 =? 0) then 1 else 0 in
  let used_0rtt := if at_used_0rtt a then true else default false (s3_zero_rtt_accepted s) in
  (b_http3 (Some (mkHttp3Sample (ps_cwnd (x3_stats io)) mig_att mig_succ))
    (b_quic (at_handshake_us a) used_0rtt (Some retransmits)
      (b_socket_reused (negb (at_reconnect a))
        (b_reconnect (at_reconnect a)
          (b_bytes (at_result a).2 (b_status (at_result a).1
            (builder (as_micros (x3_elapsed io)) fault)))))),
   mkHttp3Session (s3_conn s) (s3_zero_rtt_accepted s) lost (s3_initial_dns_resolution_us s) (s3_iterations s)).

Definition http3_iteration_with_context (e : Http3Engine) (io : SessionIo) (s : Http3Session)
  : RequestMetric * Http3Session :=
  let fault := select_fault (h3_chaos e) (x3_draw io) (x3_pick io) in
  match fault with
  | Some ConnectionDrop => (error_metric (as_micros (x3_elapsed io)) fault, s)
  | _ => http3_session_iteration e io fault s
  end.

Fixpoint session_run (e : Http3Engine) (ios : list SessionIo) (s : Http3Session)
  : list RequestMetric * Http3Session :=
  match ios with
  | [] => ([], s)
  | io :: ios =>
      let '(m, s) := http3_iteration_with_context e io s in
      let '(ms, s) := session_run e ios s in (m :: ms, s)
  end.

#[export] Instance http3_engine (e : Http3Engine) : ProtocolEngine | 10 := {
  pe_session := Http3Session;
  pe_io := H3Io + SessionIo + QuicIo;
  execute_iteration := fun _ io =>
    match io with inl (inl io) => Returned (http3_iteration e io) | _ => NotFinished end;
  create_worker_context := fun io =>
    match io with inr q => http3_create_worker_context e q | _ => None end;
  iteration_with_context := fun _ io s =>
    match io with
    | inl (inr io) => let '(m, s) := http3_iteration_with_context e io s in (Returned m, s)
    | _ => (NotFinished, s)
    end;
}.

(** ** Authority round trip *)

Lemma parse_digits_ge s acc n : 0 <= acc -> parse_digits acc s = Some n -> acc <= n.
Proof.
  revert acc. induction s as [|c s IH]; cbn [parse_digits]; intros acc Ha E; [by simplify_eq|].
  destruct (_ && _) eqn:Hd; [|done]. destruct (_ <=? U64_MAX); [|done].
  apply andb_true_iff in Hd as [Hd%Z.leb_le _]. pose proof (fun H => IH _ H E). lia.
Qed.

Lemma parse_u16_digits_of s acc n :
  0 <= acc -> n <= 65535 -> parse_digits acc s = Some n -> parse_u16_digits acc s = Ok n.
Proof.
  revert acc. induction s as [|c s IH]; cbn [parse_digits parse_u16_digits]; intros acc Ha Hn E; [congruence|].
  destruct (_ && _) eqn:Hd; [|done]. destruct (_ <=? U64_MAX); [|done].
  apply andb_true_iff in Hd as [Hd%Z.leb_le _].
  pose proof (fun H => parse_digits_ge _ _ _ H E). rewrite (proj2 (Z.leb_le _ _)) by lia.
  apply IH; [lia|done|done].
Qed.

Lemma parse_u16_of_string n : 0 <= n <= 65535 -> parse_u16_result (as_bytes (u64_to_string n)) = Ok n.
Proof.
  intros Hn. pose proof (u64_to_string_digits n) as Hd.
  pose proof (parse_u64_to_string n) as Hp. rewrite trim_digits in Hp by done.
  specialize (Hp ltac:(unfold in_u64, U64_MAX; lia)). unfold parse_usize in Hp.
  destruct (as_bytes (u64_to_string n)) as [|c rest]; [done|].
  apply Forall_cons in Hd as [Hc _]. unfold is_digit in Hc.
  rewrite (proj2 (Z.eqb_neq (byte_val c) 43)) in Hp by lia.
  apply parse_u16_digits_of in Hp; [|lia|lia].
  unfold parse_u16_result.
  rewrite (proj2 (Z.eqb_neq (byte_val c) 43)), (proj2 (Z.eqb_neq (byte_val c) 45)) by lia.
  by destruct rest.
Qed.

Lemma split_first_app c s t : c ∉ s -> split_first c (s ++ c :: t) = Some (s, t).
Proof.
  intros Hc. unfold split_first. rewrite position_app by done. simpl.
  rewrite take_app_length. f_equal. f_equal.
  rewrite drop_app_ge by lia. by replace (S (length s) - length s)%nat with 1%nat by lia.
Qed.

Lemma split_last_app c s t : c ∉ t -> split_last c (s ++ c :: t) = Some (s, t).
Proof.
  intros Hc. unfold split_last. rewrite rev_app_distr. simpl rev. rewrite <- (assoc_L (++)). simpl.
  rewrite position_app by (intros Hr; apply Hc; by apply list_elem_of_In, in_rev, list_elem_of_In).
  simpl. rewrite length_rev, length_app. simpl.
  replace (length s + S (length t) - S (length t))%nat with (length s) by lia.
  replace (length s + S (length t) - length t)%nat with (length s + 1)%nat by lia.
  rewrite take_app_length, drop_app_ge by lia. by replace (length s + 1 - length s)%nat with 1%nat by lia.
Qed.

#[local] Arguments parse_u16_result : simpl never.
#[local] Arguments u64_to_string : simpl never.
#[local] Arguments as_bytes : simpl never.

Lemma colon_not_digit n : COLON ∉ as_bytes (u64_to_string n).
Proof.
  intros Hc. pose proof (u64_to_string_digits n) as Hd.
  rewrite Forall_forall in Hd. specialize (Hd _ Hc). unfold is_digit in Hd.
  change (byte_val COLON) with 58 in Hd. lia.
Qed.

Lemma split_authority_plain host port :
  bytes_prefix [LBRACKET] (as_bytes host) = false -> 0 <= port <= 65535 ->
  split_authority (host ++ ":" ++ u64_to_string port) = Ok (host, port).
Proof.
  intros Hh Hp. unfold split_authority. rewrite !as_bytes_append. change (as_bytes ":") with [COLON].
  assert (strip_prefix [LBRACKET] (as_bytes host ++ [COLON] ++ as_bytes (u64_to_string port)) = None) as ->.
  { unfold strip_prefix. destruct (as_bytes host) as [|c h]; [done|]. simpl in *. by rewrite Hh. }
  simpl app. rewrite split_last_app by apply colon_not_digit.
  rewrite parse_u16_of_string by done. simpl. by rewrite of_as_bytes.
Qed.

Lemma split_authority_ipv6 x host port :
  as_bytes host = [LBRACKET] ++ x ++ [RBRACKET] -> RBRACKET ∉ x -> 0 <= port <= 65535 ->
  split_authority (host ++ ":" ++ u64_to_string port) = Ok (of_bytes x, port).
Proof.
  intros Hh Hx Hp. unfold split_authority. rewrite !as_bytes_append. change (as_bytes ":") with [COLON].
  rewrite Hh, <- !(assoc_L (++)), strip_prefix_app. simpl app. rewrite split_first_app by done.
  simpl. rewrite drop_0, parse_u16_of_string by done. done.
Qed.

Lemma server_name_ipv6 x host :
  as_bytes host = [LBRACKET] ++ x ++ [RBRACKET] -> server_name_of host = of_bytes x.
Proof.
  intros Hh. unfold server_name_of. rewrite Hh, strip_prefix_app. simpl. unfold strip_suffix.
  rewrite rev_app_distr. simpl. by rewrite rev_involutive.
Qed.

Lemma server_name_plain host : bytes_prefix [LBRACKET] (as_bytes host) = false -> server_name_of host = host.
Proof. intros Hh. unfold server_name_of, strip_prefix. by rewrite Hh. Qed.

(** Authority round trip: for the host and port the URI parser found, a name, an
    IPv4 address or a bracketed IPv6 address, the authority the engine stores
    splits back into the server name used for TLS (without brackets) and the same
    port, 443 when the URL has none; so every connection goes to the URL's host. *)
Theorem http3_authority_roundtrip `{Http3Env} url headers method body chaos idle zero_rtt parts host e :
  uri_parse (rewrite_url url) = Ok parts -> uri_host parts = Some host ->
  0 <= default 443 (uri_port_u16 parts) <= 65535 ->
  bytes_prefix [LBRACKET] (as_bytes host) = false \/
  (exists x, as_bytes host = [LBRACKET] ++ x ++ [RBRACKET] /\ RBRACKET ∉ x) ->
  Http3Engine_new url headers method body chaos idle zero_rtt = Ok e ->
  split_authority (h3_authority e) = Ok (h3_server_name e, default 443 (uri_port_u16 parts)).
Proof.
  intros Hu Hh Hp Hs E. unfold Http3Engine_new in E. rewrite Hu in E. simpl in E. rewrite Hh in E. simpl in E.
  destruct (h3_method_of _) as [m|]; [|done]. simpl in E. injection E as <-. cbn [h3_authority h3_server_name].
  destruct Hs as [Hs|(x & Hx & Hn)].
  - rewrite split_authority_plain, server_name_plain by done. done.
  - erewrite split_authority_ipv6, server_name_ipv6 by done. done.
Qed.

(** ** Persistent runs *)

Definition dropped (e : Http3Engine) (io : SessionIo) : bool :=
  match select_fault (h3_chaos e) (x3_draw io) (x3_pick io) with
  | Some ConnectionDrop => true
  | _ => false
  end.

Definition served (e : Http3Engine) (io : SessionIo) : bool := negb (dropped e io).

Definition attempted (m : RequestMetric) : Z := match rm_http3 m with Some s => h3s_migrations_attempted s | None => 0 end.
Definition successful (m : RequestMetric) : Z := match rm_http3 m with Some s => h3s_migrations_successful s | None => 0 end.

Lemma iteration_cases e io s :
  dropped e io = true /\
    http3_iteration_with_context e io s =
      (error_metric (as_micros (x3_elapsed io)) (select_fault (h3_chaos e) (x3_draw io) (x3_pick io)), s) \/
  dropped e io = false /\
    http3_iteration_with_context e io s =
      http3_session_iteration e io (select_fault (h3_chaos e) (x3_draw io) (x3_pick io)) s.
Proof.
  unfold dropped, http3_iteration_with_context. destruct (select_fault _ _ _) as [[]|]; eauto.
Qed.

Lemma attempt_iterations e io s : s3_iterations (at_session (attempt e io s)) = s3_iterations s.
Proof.
  unfold attempt, reconnect_and_send. destruct (send_request_on_conn _ _); [done|].
  destruct (connect_quic_connecting _ _) as [[c d]|]; [|done].
  destruct (connect_with_0rtt _ _) as [[z i]|]; [|done]. by destruct (qi_setup _).
Qed.

(** Whether this iteration rebinds the socket. *)
Definition rebinds (e : Http3Engine) (io : SessionIo) (count : Z) : bool :=
  h3_migrate e && is_multiple_of count (h3_migrate_every e) && x3_endpoint io && x3_rebind io.

Lemma session_iteration_migrations e io fault s :
  let '(m, s') := http3_session_iteration e io fault s in
  s3_iterations s' = s3_iterations s +! 1 /\
  attempted m = (if rebinds e io (s3_iterations s +! 1) then 1 else 0) /\
  0 <= successful m <= attempted m.
Proof.
  unfold http3_session_iteration, rebinds. cbv zeta. cbn [s3_iterations]. rewrite attempt_iterations.
  unfold attempted, successful, rm_http3. cbn [b_http3 b_quic b_socket_reused set_protocol protocol
    h3s_migrations_attempted h3s_migrations_successful s3_iterations].
  destruct (_ && x3_rebind io); cbn [set_connection protocol b_reconnect b_bytes b_status builder]; simpl;
    split_and!; try done; destruct (_ && _); simpl; lia.
Qed.

Lemma div_step k every :
  1 <= every -> 0 <= k ->
  (k + 1) / every = k / every + (if is_multiple_of (k + 1) every then 1 else 0).
Proof.
  intros He Hk. unfold is_multiple_of. rewrite (proj2 (Z.eqb_neq _ _)) by lia.
  destruct (Z.eqb_spec ((k + 1) mod every) 0) as [E|E].
  - apply Z.div_exact in E; [|lia]. set (q := (k + 1) / every) in *.
    assert (k / every = q - 1) as ->; [|lia]. symmetry. apply (Z.div_unique k every (q - 1) (every - 1)); nia.
  - pose proof (Z.mod_pos_bound (k + 1) every ltac:(lia)). pose proof (Z.div_mod (k + 1) every ltac:(lia)).
    assert (k / every = (k + 1) / every) as ->; [|lia].
    symmetry. apply (Z.div_unique k every _ ((k + 1) mod every - 1)); lia.
Qed.

Lemma session_run_migrations e ios s :
  1 <= h3_migrate_every e -> 0 <= s3_iterations s -> s3_iterations s + count_if (served e) ios <= U64_MAX ->
  let '(ms, s') := session_run e ios s in
  s3_iterations s' = s3_iterations s + count_if (served e) ios /\
  0 <= Zsum (successful <$> ms) <= Zsum (attempted <$> ms) /\
  Zsum (attempted <$> ms) <= s3_iterations s' / h3_migrate_every e - s3_iterations s / h3_migrate_every e /\
  (h3_migrate e = true -> Forall (fun io => x3_endpoint io && x3_rebind io = true) ios ->
   Zsum (attempted <$> ms) = s3_iterations s' / h3_migrate_every e - s3_iterations s / h3_migrate_every e).
Proof.
  intros He. revert s. induction ios as [|io ios IH]; intros s Hs Hb; csimpl.
  { unfold count_if. simpl. split_and!; intros; lia. }
  rewrite count_if_cons in Hb |- *. unfold served at 1 in Hb. unfold served at 1.
  pose proof (count_if_bounds (served e) ios) as Hc.
  destruct (iteration_cases e io s) as [[Hd E]|[Hd E]]; rewrite E; rewrite Hd in Hb |- *; simpl in Hb.
  - specialize (IH s Hs ltac:(lia)). destruct (session_run e ios s) as [ms s'].
    destruct IH as (I1 & I2 & I3 & I4). csimpl. change (attempted (error_metric _ _)) with 0.
    change (successful (error_metric _ _)) with 0.
    split_and!; [lia|lia|lia|lia|]. intros Hm [_ HF]%Forall_cons. specialize (I4 Hm HF). lia.
  - pose proof (session_iteration_migrations e io (select_fault (h3_chaos e) (x3_draw io) (x3_pick io)) s) as HM.
    destruct (http3_session_iteration _ _ _ _) as [m s1]. destruct HM as (M1 & M2 & M3).
    rewrite u64_add_small in M1, M2 by (unfold in_u64; lia).
    specialize (IH s1 ltac:(lia) ltac:(lia)). destruct (session_run e ios s1) as [ms s'].
    destruct IH as (I1 & I2 & I3 & I4). csimpl. rewrite M1 in *.
    pose proof (div_step (s3_iterations s) (h3_migrate_every e) He Hs) as HD.
    assert (Hle : attempted m <= if is_multiple_of (s3_iterations s + 1) (h3_migrate_every e) then 1 else 0).
    { rewrite M2. unfold rebinds. destruct (h3_migrate e), (is_multiple_of _ _), (x3_endpoint io), (x3_rebind io); simpl; lia. }
    split_and!; [lia|lia|lia|lia|]. intros Hm [Hr HF]%Forall_cons. specialize (I4 Hm HF).
    rewrite M2. unfold rebinds. rewrite Hm. simpl. rewrite <- andb_assoc, Hr, andb_true_r. lia.
Qed.

(** Migration cadence of a persistent session: it attempts at most one rebind per
    [migrate_every] iterations (those dropped by chaos not counted), precisely one
    when rebinding always works, and never counts more successes than attempts. *)
Theorem http3_migration_cadence e ios s :
  1 <= h3_migrate_every e -> s3_iterations s = 0 -> count_if (served e) ios <= U64_MAX ->
  let '(ms, s') := session_run e ios s in
  let n := count_if (served e) ios in
  s3_iterations s' = n /\
  0 <= Zsum (successful <$> ms) <= Zsum (attempted <$> ms) /\
  Zsum (attempted <$> ms) <= n / h3_migrate_every e /\
  (h3_migrate e = true -> Forall (fun io => x3_endpoint io && x3_rebind io = true) ios ->
   Zsum (attempted <$> ms) = n / h3_migrate_every e).
Proof.
  intros He Hs Hb. pose proof (session_run_migrations e ios s He ltac:(lia) ltac:(lia)) as H.
  destruct (session_run e ios s) as [ms s']. destruct H as (H1 & H2 & H3 & H4). rewrite Hs, Z.div_0_l in * by lia.
  assert (Hn : s3_iterations s' = count_if (served e) ios) by lia. rewrite Hn in *.
  split_and!; [done|lia|lia|lia|]. intros Hm HF. specialize (H4 Hm HF). lia.
Qed.

(** ** Loss accounting *)







(** ** What the metrics say of 0-RTT and of corrupted payloads *)

Definition quic_samples (ms : list RequestMetric) : list QuicSample := omap rm_quic ms.

Lemma zero_rtt_iteration e io s :
  s3_zero_rtt_accepted s = Some true -> dropped e io = false -> is_ok (send_request_on_conn e (x3_peer io)) = true ->
  let '(m, s') := http3_iteration_with_context e io s in
  s3_conn s' = s3_conn s /\ s3_zero_rtt_accepted s' = Some true /\
  exists q, rm_quic m = Some q /\ qs_used_0rtt q = true.
Proof.
  intros Hz Hd Ho. destruct (iteration_cases e io s) as [[Hd' _]|[_ E]]; [congruence|]. rewrite E.
  unfold http3_session_iteration, attempt. destruct (send_request_on_conn _ _); [|done].
  cbv zeta. cbn [at_session at_used_0rtt s3_conn s3_zero_rtt_accepted]. rewrite Hz. by eauto.
Qed.

Lemma quic_record_0rtt q a :
  qs_used_0rtt q = true ->
  qm_zero_rtt_accepted_count (qa_stats (quic_record q a)) = qm_zero_rtt_accepted_count (qa_stats a) +! 1.
Proof.
  intros Hq. unfold quic_record, quic_is_significant. rewrite Hq. destruct (qs_handshake_us q); simpl; done.
Qed.

Lemma zero_rtt_run e ios s a :
  s3_zero_rtt_accepted s = Some true -> in_u64 (qm_zero_rtt_accepted_count (qa_stats a)) ->
  Forall (fun io => dropped e io = false /\ is_ok (send_request_on_conn e (x3_peer io)) = true) ios ->
  let '(ms, s') := session_run e ios s in
  s3_conn s' = s3_conn s /\
  qm_zero_rtt_accepted_count (qa_stats (foldl (fun a q => quic_record q a) a (quic_samples ms))) =
  wrap64 (qm_zero_rtt_accepted_count (qa_stats a) + Z.of_nat (length ios)).
Proof.
  intros Hz Ha HF. revert s a Hz Ha. induction HF as [|io ios [Hd Ho] HF IH]; intros s a Hz Ha.
  { simpl. rewrite Z.add_0_r, wrap64_small by done. done. }
  cbn [session_run]. pose proof (zero_rtt_iteration e io s Hz Hd Ho) as H1.
  destruct (http3_iteration_with_context e io s) as [m s1]. destruct H1 as (Hc & Hz1 & q & Hq & Hu).
  specialize (IH s1 (quic_record q a) Hz1). rewrite quic_record_0rtt in IH by done.
  specialize (IH (u64_add_range _ _)). destruct (session_run e ios s1) as [ms s'].
  unfold quic_samples in *. csimpl. rewrite Hq. csimpl. destruct IH as [Hc' ->]. split; [congruence|].
  unfold u64_add. rewrite wrap64_add_l. f_equal. lia.
Qed.

(** What the report credits a persistent session with: a session that resumed
    ONE connection with 0-RTT and then makes [n] requests on it is counted [n]
    times by the aggregation, although it never leaves that connection. *)
Theorem http3_zero_rtt_overcounts e ios s :
  s3_zero_rtt_accepted s = Some true -> Z.of_nat (length ios) <= U64_MAX ->
  Forall (fun io => dropped e io = false /\ is_ok (send_request_on_conn e (x3_peer io)) = true) ios ->
  let '(ms, s') := session_run e ios s in
  s3_conn s' = s3_conn s /\
  qm_zero_rtt_accepted_count
    (qa_stats (foldl (fun a q => quic_record q a) QuicAccumulator_default (quic_samples ms))) =
  Z.of_nat (length ios).
Proof.
  intros Hz Hn HF.
  assert (H0 : in_u64 (qm_zero_rtt_accepted_count (qa_stats QuicAccumulator_default))) by done.
  pose proof (zero_rtt_run e ios s QuicAccumulator_default Hz H0 HF) as H.
  destruct (session_run e ios s) as [ms s']. destruct H as [H1 H2].
  split; [done|]. rewrite H2. simpl. apply wrap64_small. unfold in_u64. lia.
Qed.

(** A stateless iteration reports 0-RTT as used even when the server rejected it. *)
Theorem http3_rejected_0rtt_reported e io c dns_us :
  h3_zero_rtt e = true ->
  select_fault (h3_chaos e) (i3_draw io) (i3_pick io) <> Some ConnectionDrop ->
  connect_quic_connecting e (i3_quic io) = Ok (c, dns_us) -> cn_0rtt c = Some false ->
  is_ok (qi_setup (i3_quic io)) = true ->
  exists q, rm_quic (http3_iteration e io) = Some q /\ qs_used_0rtt q = true.
Proof.
  intros Hz Hf Hc Hr Hs. unfold http3_iteration, connect_stateless, connect_with_0rtt.
  rewrite Hz, Hc. simpl. rewrite Hr. simpl. destruct (qi_setup _); [|done].
  destruct (select_fault _ _ _) as [[]|]; try done; destruct (or_failed _); eexists; split; reflexivity.
Qed.

(** A corrupted-payload fault drawn by a persistent session changes nothing but
    the label of the metric: the request sent is the healthy one. *)
Theorem http3_session_ignores_corruption e io s :
  let relabel m := mkRequestMetric (latency_micros m) (status_code m) (rm_bytes_received m) (is_reconnect m)
                     (connection m) (protocol m) (Some CorruptedPayload) in
  http3_session_iteration e io (Some CorruptedPayload) s =
  (relabel (http3_session_iteration e io None s).1, (http3_session_iteration e io None s).2).
Proof. reflexivity. Qed.

(** ** Witnesses *)

#[local] Instance demo_env : Http3Env := {
  uri_parse := fun u =>
    if String.eqb u "https://[::1]:8443/x" then Ok (mkUriParts (Some "[::1]"%string) (Some 8443) (Some "/x"%string))
    else Err "bad"%string;
  to_uppercase := fun s => s;
}.

Definition demo_h3 : Http3Engine :=
  mkHttp3Engine "::1" "[::1]:8443" "/x" M_GET [] None (mkChaosEngine false f64_zero) None true true 2.

Lemma http3_authority_roundtrip_witness :
  split_authority "[::1]:8443" = Ok ("::1"%string, 8443).
Proof.
  apply (http3_authority_roundtrip "h3://[::1]:8443/x" [] "GET" None (mkChaosEngine false f64_zero) None true
    (mkUriParts (Some "[::1]"%string) (Some 8443) (Some "/x"%string)) "[::1]"
    (mkHttp3Engine "::1" "[::1]:8443" "/x" M_GET [] None (mkChaosEngine false f64_zero) None true false 50)).
  - reflexivity.
  - reflexivity.
  - simpl. lia.
  - right. exists (as_bytes "::1"). split; [reflexivity|]. apply (bool_decide_unpack _). reflexivity.
  - reflexivity.
Defined.

Definition demo_stream : H3Stream := mkH3Stream (Ok ()) (Ok ()) (Ok ()) (Ok 200) [Ok 10].
Definition demo_peer (up : bool) : H3Peer :=
  mkH3Peer (fun _ => true) (fun _ => Ok ())
    (fun _ _ => if up then demo_stream else mkH3Stream (Err "gone"%string) (Ok ()) (Ok ()) (Ok 200) []).
Definition demo_quic (accepted : option bool) : QuicIo :=
  mkQuicIo (Ok ()) (fun _ _ => Ok 1%nat) 7 (fun _ => Ok (mkConnecting accepted (Some (Ok ())))) (Ok ()).
Definition demo_turn (up : bool) (lost : Z) : SessionIo :=
  mkSessionIo f64_zero 0 true true (demo_peer up) (demo_quic None) 900 (demo_peer true) (mkPathStats 12000 lost) 5000.
Definition demo_session : Http3Session := mkHttp3Session 0 (Some true) 0 7 0.

Lemma http3_migration_cadence_witness :
  s3_iterations (session_run demo_h3 (replicate 5 (demo_turn true 0)) demo_session).2 = 5 /\
  Zsum (attempted <$> (session_run demo_h3 (replicate 5 (demo_turn true 0)) demo_session).1) = 2.
Proof.
  assert (Hc : count_if (served demo_h3) (replicate 5 (demo_turn true 0)) = 5) by reflexivity.
  pose proof (http3_migration_cadence demo_h3 (replicate 5 (demo_turn true 0)) demo_session
    ltac:(simpl; lia) eq_refl ltac:(rewrite Hc; unfold U64_MAX; lia)) as H.
  destruct (session_run _ _ _) as [ms s']. rewrite Hc in H. destruct H as (H1 & _ & _ & H4).
  split; [exact H1|]. apply H4; [reflexivity|]. by apply Forall_replicate.
Defined.


Lemma http3_zero_rtt_overcounts_witness :
  (session_run demo_h3 (replicate 3 (demo_turn true 0)) demo_session).2.(s3_conn) = 0%nat /\
  qm_zero_rtt_accepted_count (qa_stats (foldl (fun a q => quic_record q a) QuicAccumulator_default
    (quic_samples (session_run demo_h3 (replicate 3 (demo_turn true 0)) demo_session).1))) = 3.
Proof.
  pose proof (http3_zero_rtt_overcounts demo_h3 (replicate 3 (demo_turn true 0)) demo_session
    eq_refl ltac:(vm_compute; discriminate) ltac:(by apply Forall_replicate)) as H.
  destruct (session_run _ _ _) as [ms s']. exact H.
Defined.

Lemma http3_rejected_0rtt_reported_witness :
  exists q, rm_quic (http3_iteration demo_h3
    (mkH3Io f64_zero 0 (demo_quic (Some false)) 900 (demo_peer true) (mkPathStats 12000 0) 5000)) = Some q /\
  qs_used_0rtt q = true.
Proof.
  apply (http3_rejected_0rtt_reported _ _ (mkConnecting (Some false) (Some (Ok ()))) 7);
    [reflexivity|discriminate|reflexivity|reflexivity|reflexivity].
Defined.
