(* ===== verification/WebSocket.v ===== *)
(** The WebSocket engine: [protocols/websocket.rs].

    The tungstenite stream is an input: the frames that arrive before the read
    timeout, in order, and whether each write is accepted.  The write-buffer
    accounting, the three read loops, the stateless iteration and the persistent,
    publisher and subscriber sessions are modelled. *)

From S2P Require Import Prelude RustStr Float Histogram Chaos Samples Aggregate Config LocalRun GrpcEngine.

#[local] Open Scope Z_scope.
#[local] Open Scope rust_scope.

(** ** Frames *)

Inductive Message :=
  | Text (b : bytes)
  | Binary (b : bytes)
  | Ping (b : bytes)
  | Pong (b : bytes)
  | Close
  | RawFrame (b : bytes).

Definition byte_len (b : bytes) : Z := Z.of_nat (length b).

Definition message_payload_len (m : Message) : Z :=
  match m with
  | Text b | Binary b | Ping b | Pong b | RawFrame b => byte_len b
  | Close => 0
  end.

(** What [stream.next()] yields: a frame, an error, or the end. *)
Definition WsIn : Type := option (result string Message).

Definition WsSample_of (pings_sent pings_received pongs_solicited pongs_unsolicited : Z) : WsSample :=
  mkWsSample pings_sent pings_received pongs_solicited pongs_unsolicited 0 0 0 0.

Definition ws_sample (pings_sent pings_received pongs_solicited pongs_unsolicited : Z) : option WsSample :=
  let sample := WsSample_of pings_sent pings_received pongs_solicited pongs_unsolicited in
  if ws_is_significant sample then Some sample else None.

(** ** [CountingSink] *)

Record CountingSink := mkCountingSink {
  cs_written : Z;
  cs_flushed : Z;
  cs_max_in_flight : Z;
  cs_warn_bytes : Z;
  cs_over_threshold : bool;
}.

Definition CountingSink_new (warn_bytes : Z) : CountingSink := mkCountingSink 0 0 0 warn_bytes false.

Definition in_flight (s : CountingSink) : Z := u_saturating_sub (cs_written s) (cs_flushed s).

Definition u64_saturating_add (a b : Z) : Z := Z.min U64_MAX (a + b).

(** The new sink and whether the warning is logged. *)
Definition start_send (item : Message) (s : CountingSink) : CountingSink * bool :=
  let written := u64_saturating_add (cs_written s) (message_payload_len item) in
  let depth := u_saturating_sub written (cs_flushed s) in
  let max_in_flight := if cs_max_in_flight s <? depth then depth else cs_max_in_flight s in
  let '(over, warned) :=
    if 0 <? cs_warn_bytes s then
      if (cs_warn_bytes s <=? depth) && negb (cs_over_threshold s) then (true, true)
      else if depth <? cs_warn_bytes s then (false, false)
      else (cs_over_threshold s, false)
    else (cs_over_threshold s, false) in
  (mkCountingSink written (cs_flushed s) max_in_flight (cs_warn_bytes s) over, warned).

(** [poll_flush] that answered [Ready]; a pending one changes nothing. *)
Definition flush_ready (s : CountingSink) : CountingSink :=
  mkCountingSink (cs_written s) (cs_written s) (cs_max_in_flight s) (cs_warn_bytes s) (cs_over_threshold s).

(** ** The engine *)

Record WebSocketEngine := mkWebSocketEngine {
  we_headers : list (string * string);
  we_mode : WsMode;
  we_payload : option string;
  we_chaos : ChaosEngine;
  we_timeout_secs : Z;
  we_persistent : bool;
  we_keepalive_secs : option Z;
  we_max_messages : option Z;
  we_role : option string;
  we_publish_interval_ms : option Z;
  we_max_buffer_bytes : Z;
  we_backpressure_warn_ratio : f32;
}.

Definition WebSocketEngine_new (headers : list (string * string)) (ws_mode : WsMode) (payload : option string)
    (chaos : ChaosEngine) (timeout_secs : Z) (ws_persistent : bool) (ws_keepalive_secs ws_max_messages : option Z)
  : WebSocketEngine :=
  mkWebSocketEngine headers ws_mode payload chaos timeout_secs ws_persistent ws_keepalive_secs ws_max_messages
    None None 1048576 (f32_div (f32_of_Z 8) (f32_of_Z 10)).

Definition with_role (role : option string) (publish_interval_ms : option Z) (e : WebSocketEngine) : WebSocketEngine :=
  mkWebSocketEngine (we_headers e) (we_mode e) (we_payload e) (we_chaos e) (we_timeout_secs e) (we_persistent e)
    (we_keepalive_secs e) (we_max_messages e) role publish_interval_ms (we_max_buffer_bytes e)
    (we_backpressure_warn_ratio e).

Definition with_backpressure (max_buffer_bytes : Z) (warn_ratio : f32) (e : WebSocketEngine) : WebSocketEngine :=
  mkWebSocketEngine (we_headers e) (we_mode e) (we_payload e) (we_chaos e) (we_timeout_secs e) (we_persistent e)
    (we_keepalive_secs e) (we_max_messages e) (we_role e) (we_publish_interval_ms e) max_buffer_bytes warn_ratio.

Definition warn_bytes (e : WebSocketEngine) : Z :=
  if f64_leb (we_backpressure_warn_ratio e) f64_zero then 0
  else f64_as_u64 (f64_max
         (f32_mul (f32_of_Z (we_max_buffer_bytes e)) (we_backpressure_warn_ratio e)) (f32_of_Z 1)).

Definition is_publisher (e : WebSocketEngine) : bool := bool_decide (we_role e = Some "publisher"%string).
Definition is_subscriber (e : WebSocketEngine) : bool := bool_decide (we_role e = Some "subscriber"%string).

Definition effective_timeout (e : WebSocketEngine) : duration :=
  from_secs (if 0 <? we_timeout_secs e then we_timeout_secs e else 5).

Inductive ReadStatus := RS_Data | RS_Pong | RS_Close | RS_Eof | RS_Error | RS_Timeout.

#[export] Instance ReadStatus_eq_dec : EqDecision ReadStatus.
Proof. solve_decision. Defined.

Record ReadOutcome := mkReadOutcome {
  ro_status : ReadStatus;
  ro_bytes : Z;
  ro_pings_received : Z;
  ro_pongs_received : Z;
}.

(** [read_with_timeout] over the frames that arrive in time. *)
Fixpoint read_frames (l : list WsIn) (bytes pings : Z) : ReadOutcome :=
  match l with
  | [] => mkReadOutcome RS_Timeout 0 0 0
  | None :: _ => mkReadOutcome RS_Eof bytes pings 0
  | Some (Err _) :: _ => mkReadOutcome RS_Error bytes pings 0
  | Some (Ok m) :: l =>
      match m with
      | Text b | Binary b => mkReadOutcome RS_Data (bytes +! byte_len b) pings 0
      | Ping b => read_frames l (bytes +! byte_len b) (pings +! 1)
      | Pong b => mkReadOutcome RS_Pong (bytes +! byte_len b) pings 1
      | Close => mkReadOutcome RS_Close bytes pings 0
      | RawFrame _ => read_frames l bytes pings
      end
  end.

Definition read_with_timeout (l : list WsIn) : ReadOutcome := read_frames l 0 0.

Definition WS_CORRUPTED : bytes := ch <$> [255; 254; 189; 239].

(** ** The stateless iteration *)

(** [wi_reply sent ok] are the frames that arrive in time after [sent]; [ok] is
    whether the write was accepted. *)
Record WsIo := mkWsIo {
  wi_draw : f32;
  wi_pick : Z;
  wi_request_ok : bool;
  wi_connected : bool;
  wi_sent_ok : bool;
  wi_reply : Message -> list WsIn;
  wi_elapsed : duration;
}.

Definition answered (o : ReadOutcome) : bool :=
  bool_decide (ro_status o = RS_Data) || bool_decide (ro_status o = RS_Pong).

Definition ws_exchange (e : WebSocketEngine) (fault : option ChaosFault) (io : WsIo) : Z * Z * option WsSample :=
  match fault with
  | Some CorruptedPayload =>
      let o := read_with_timeout (wi_reply io (Binary WS_CORRUPTED)) in
      let ws := ws_sample 0 (ro_pings_received o) 0 (ro_pongs_received o) in
      if answered o then (200, ro_bytes o, ws) else (0, 0, ws)
  | _ =>
      match we_mode e with
      | Handshake => (200, 0, None)
      | PingPong =>
          let pings_sent := if wi_sent_ok io then 1 else 0 in
          let o := read_with_timeout (wi_reply io (Ping [])) in
          let solicited := Z.min (ro_pongs_received o) pings_sent in
          let unsolicited := u_saturating_sub (ro_pongs_received o) solicited in
          let ws := ws_sample pings_sent (ro_pings_received o) solicited unsolicited in
          if bool_decide (ro_status o = RS_Pong) then (200, ro_bytes o, ws) else (0, 0, ws)
      | Stream =>
          let o := read_with_timeout (wi_reply io (Text (as_bytes (default "ping" (we_payload e))))) in
          let ws := ws_sample 0 (ro_pings_received o) 0 (ro_pongs_received o) in
          if answered o then (200, ro_bytes o, ws) else (0, 0, ws)
      end
  end.

Definition ws_iteration (e : WebSocketEngine) (io : WsIo) : RequestMetric :=
  let fault := select_fault (we_chaos e) (wi_draw io) (wi_pick io) in
  let micros := as_micros (wi_elapsed io) in
  match fault with
  | Some ConnectionDrop => error_metric micros fault
  | _ =>
      if negb (wi_request_ok io) then error_metric micros fault
      else
        let '(status, bytes, ws) := if wi_connected io then ws_exchange e fault io else (0, 0, None) in
        b_ws ws (b_bytes bytes (b_status status (builder micros fault)))
  end.

(** ** The persistent session *)

Inductive EngineError :=
  | NotConnected
  | ConnectionFailed (msg : string)
  | MaxMessagesReached.

Definition EngineError_to_string (e : EngineError) : string :=
  match e with
  | NotConnected => "not connected"
  | ConnectionFailed msg => "connection failed: " ++ msg
  | MaxMessagesReached => "max messages reached"
  end%string.

(** An open stream is given by the frames that have arrived and are not read yet. *)
Record PersistentWsSession := mkPersistentWsSession {
  pw_stream : option (list WsIn);
  pw_messages_sent : Z;
  pw_max_messages : option Z;
  pw_headers : list (string * string);
  pw_timeout_secs : Z;
  pw_last_pings_received : Z;
  pw_last_pongs_received : Z;
}.

Definition PersistentWsSession_new (headers : list (string * string)) (max_messages : option Z) (timeout_secs : Z)
  : PersistentWsSession := mkPersistentWsSession None 0 max_messages headers timeout_secs 0 0.

Definition ws_max_reached (s : PersistentWsSession) : bool :=
  match pw_max_messages s with Some max => max <=? pw_messages_sent s | None => false end.

Definition set_stream (st : option (list WsIn)) (s : PersistentWsSession) : PersistentWsSession :=
  mkPersistentWsSession st (pw_messages_sent s) (pw_max_messages s) (pw_headers s) (pw_timeout_secs s)
    (pw_last_pings_received s) (pw_last_pongs_received s).

Definition set_sent (n : Z) (s : PersistentWsSession) : PersistentWsSession :=
  mkPersistentWsSession (pw_stream s) n (pw_max_messages s) (pw_headers s) (pw_timeout_secs s)
    (pw_last_pings_received s) (pw_last_pongs_received s).

Definition set_control (pings pongs : Z) (s : PersistentWsSession) : PersistentWsSession :=
  mkPersistentWsSession (pw_stream s) (pw_messages_sent s) (pw_max_messages s) (pw_headers s) (pw_timeout_secs s)
    pings pongs.

(** The outcome of [connect_async] under its timeout; [Ok us] is the time taken. *)
Definition ws_ensure_connected (connect : result string Z) (s : PersistentWsSession)
  : result EngineError Z * PersistentWsSession :=
  if is_some (pw_stream s) && negb (ws_max_reached s) then (Ok 0, s)
  else
    match connect with
    | Ok us => (Ok us, set_sent 0 (set_stream (Some []) s))
    | Err e => (Err (ConnectionFailed e), s)
    end.

(** The read loop of [send_and_receive]: the response, the control frames, how
    it ended, and the frames left in the stream; [None] at the timeout. *)
Fixpoint receive_loop (l : list WsIn) (pings pongs : Z) : option (bytes * Z * Z * ReadStatus) * list WsIn :=
  match l with
  | [] => (None, [])
  | None :: l => (Some ([], pings, pongs, RS_Eof), l)
  | Some (Err _) :: l => (Some ([], pings, pongs, RS_Error), l)
  | Some (Ok m) :: l =>
      match m with
      | Text b | Binary b => (Some (b, pings, pongs, RS_Data), l)
      | Ping _ => receive_loop l (pings +! 1) pongs
      | Pong _ => receive_loop l pings (pongs +! 1)
      | Close => (Some ([], pings, pongs, RS_Close), l)
      | RawFrame _ => receive_loop l pings pongs
      end
  end.

Definition ReadStatus_debug (s : ReadStatus) : string :=
  match s with
  | RS_Data => "Data" | RS_Pong => "Pong" | RS_Close => "Close"
  | RS_Eof => "Eof" | RS_Error => "Error" | RS_Timeout => "Timeout"
  end.

(** [arrivals sent] are the frames that arrive before the timeout once [sent]
    has been written (the text frame of the payload, made valid UTF-8). *)
Definition send_and_receive (payload : bytes) (send_ok : bool) (arrivals : bytes -> list WsIn)
    (s : PersistentWsSession) : result EngineError bytes * PersistentWsSession :=
  match pw_stream s with
  | None => (Err NotConnected, s)
  | Some queue =>
      if negb send_ok then (Err (ConnectionFailed "send"), set_stream None s)
      else
        let s := set_control 0 0 (set_sent (pw_messages_sent s +! 1) s) in
        match receive_loop (queue ++ arrivals (from_utf8_lossy payload)) 0 0 with
        | (Some (response, pings, pongs, RS_Data), rest) =>
            (Ok response, set_control pings pongs (set_stream (Some rest) s))
        | (Some (_, pings, pongs, status), _) =>
            (Err (ConnectionFailed ("read terminated: " ++ ReadStatus_debug status)%string),
             set_stream None (set_control pings pongs s))
        | (None, rest) => (Err (ConnectionFailed "read timed out"), set_stream (Some rest) s)
        end
  end.

Definition ws_close (s : PersistentWsSession) : PersistentWsSession := set_stream None s.

Record PersistentIo := mkPersistentIo {
  pi_draw : f32;
  pi_pick : Z;
  pi_connect : result string Z;
  pi_send_ok : bool;
  pi_arrivals : bytes -> list WsIn;
  pi_elapsed : duration;
}.

Definition ws_payload (e : WebSocketEngine) (fault : option ChaosFault) : bytes :=
  match fault with
  | Some CorruptedPayload => WS_CORRUPTED
  | _ => match we_payload e with Some s => as_bytes s | None => as_bytes "ping" end
  end.

Definition ws_persistent_iteration (e : WebSocketEngine) (io : PersistentIo) (s : PersistentWsSession)
  : RequestMetric * PersistentWsSession :=
  let fault := select_fault (we_chaos e) (pi_draw io) (pi_pick io) in
  let micros := as_micros (pi_elapsed io) in
  match fault with
  | Some ConnectionDrop => (error_metric micros fault, s)
  | _ =>
      match ws_ensure_connected (pi_connect io) s with
      | (Err _, s) => (error_metric 0 fault, s)
      | (Ok lat, s) =>
          let '(r, s) := send_and_receive (ws_payload e fault) (pi_send_ok io) (pi_arrivals io) s in
          let base := match r with
                      | Ok response => b_bytes (byte_len response) (b_status 200 (builder micros fault))
                      | Err _ => builder micros fault
                      end in
          let ws := ws_sample 0 (pw_last_pings_received s) 0 (pw_last_pongs_received s) in
          (b_ws ws (b_socket_reused (lat =? 0) (b_connection_latency_us (Some lat) (b_reconnect (0 <? lat) base))), s)
      end
  end.

(** ** Publishers *)

Record PublisherSession := mkPublisherSession {
  pub_write : option CountingSink;
  pub_user_payload : bytes;
}.

(** [None] for a write or a flush that is still pending when the worker's
    deadline drops the iteration. *)
Record PublisherIo := mkPublisherIo {
  pb_connected : bool;
  pb_draw : f32;
  pb_pick : Z;
  pb_now_ns : Z;                          (** [wallclock_ns()] for the payload *)
  pb_ready : option (result string ());
  pb_start : result string ();
  pb_flush : option (result string ());
  pb_sent_ns : Z;                         (** [wallclock_ns()] for the metric *)
  pb_elapsed : duration;
}.

Definition publisher_payload (fault : option ChaosFault) (now_ns : Z) (user_payload : bytes) : bytes :=
  match fault with
  | Some CorruptedPayload => WS_CORRUPTED
  | _ => create_pubsub_payload now_ns user_payload
  end.

(** [write.feed(..).await; write.in_flight(); write.flush().await]: the depth and
    the joint result, [None] when it never completes; and the sink. *)
Definition feed_and_flush (item : Message) (io : PublisherIo) (w : CountingSink)
  : option (Z * result string ()) * CountingSink :=
  match pb_ready io with
  | None => (None, w)
  | Some ready =>
      let '(fed, w) := match ready with
                       | Err e => (Err e, w)
                       | Ok _ => (pb_start io, (start_send item w).1)
                       end in
      let depth := in_flight w in
      match pb_flush io with
      | None => (None, w)
      | Some flushed =>
          (Some (depth, match fed with Ok _ => flushed | Err e => Err e end), flush_ready w)
      end
  end.

Definition publisher_metric (e : WebSocketEngine) (fault : option ChaosFault) (depth payload_len : Z)
    (io : PublisherIo) : RequestMetric :=
  let breach := (0 <? warn_bytes e) && (warn_bytes e <=? depth) in
  b_ws (Some (mkWsSample 0 0 0 0 depth depth 1 (if breach then 1 else 0)))
    (b_socket_reused true
      (b_timestamp_sent_ns (Some (pb_sent_ns io))
        (b_bytes payload_len (b_status 200 (builder (as_micros (pb_elapsed io)) fault))))).

Definition publisher_iteration (e : WebSocketEngine) (io : PublisherIo) (s : PublisherSession)
  : option RequestMetric * PublisherSession :=
  let micros := as_micros (pb_elapsed io) in
  let write := match pub_write s with
               | Some w => Some w
               | None => if pb_connected io then Some (CountingSink_new (warn_bytes e)) else None
               end in
  match write with
  | None => (Some (error_metric micros None), s)
  | Some w =>
      let s := mkPublisherSession (Some w) (pub_user_payload s) in
      let fault := select_fault (we_chaos e) (pb_draw io) (pb_pick io) in
      match fault with
      | Some ConnectionDrop => (Some (error_metric micros fault), s)
      | _ =>
          let payload := publisher_payload fault (pb_now_ns io) (pub_user_payload s) in
          match feed_and_flush (Binary payload) io w with
          | (None, w) => (None, mkPublisherSession (Some w) (pub_user_payload s))
          | (Some (depth, Ok _), w) =>
              (Some (publisher_metric e fault depth (byte_len payload) io),
               mkPublisherSession (Some w) (pub_user_payload s))
          | (Some (_, Err _), _) =>
              (Some (error_metric micros fault), mkPublisherSession None (pub_user_payload s))
          end
      end
  end.

(** ** Subscribers *)

Record SubscriberSession := mkSubscriberSession {
  sub_read : option (list WsIn);
  sub_received_count : Z;
}.

Record SubscriberIo := mkSubscriberIo {
  sb_connected : bool;
  sb_draw : f32;
  sb_pick : Z;
  sb_arrivals : list WsIn;
  sb_now_ns : Z;
  sb_elapsed : duration;
}.

(** The loop of the subscriber: the data frame, or [Some None] when the stream is
    dead; [None] at the timeout; with the control frames and what is left. *)
Fixpoint subscribe_loop (l : list WsIn) (pings pongs : Z) : option (option bytes) * Z * Z * list WsIn :=
  match l with
  | [] => (None, pings, pongs, [])
  | None :: l => (Some None, pings, pongs, l)
  | Some (Err _) :: l => (Some None, pings, pongs, l)
  | Some (Ok m) :: l =>
      match m with
      | Text b | Binary b => (Some (Some b), pings, pongs, l)
      | Ping _ => subscribe_loop l (pings +! 1) pongs
      | Pong _ => subscribe_loop l pings (pongs +! 1)
      | Close => (Some None, pings, pongs, l)
      | RawFrame _ => subscribe_loop l pings pongs
      end
  end.

Definition e2e_latency (now_ns : Z) (data : bytes) : option Z :=
  match parse_pubsub_payload data with
  | Some (sent_ns, _) => Some (u_saturating_sub now_ns sent_ns / 1000)
  | None => None
  end.

Definition subscriber_iteration (e : WebSocketEngine) (io : SubscriberIo) (s : SubscriberSession)
  : RequestMetric * SubscriberSession :=
  let micros := as_micros (sb_elapsed io) in
  let read := match sub_read s with
              | Some q => Some q
              | None => if sb_connected io then Some [] else None
              end in
  match read with
  | None => (error_metric micros None, s)
  | Some queue =>
      let fault := select_fault (we_chaos e) (sb_draw io) (sb_pick io) in
      match fault with
      | Some ConnectionDrop => (error_metric micros fault, mkSubscriberSession (Some queue) (sub_received_count s))
      | _ =>
          match subscribe_loop (queue ++ sb_arrivals io) 0 0 with
          | (Some (Some data), pings, pongs, rest) =>
              let ws := if (0 <? pings) || (0 <? pongs) then Some (WsSample_of 0 pings 0 pongs) else None in
              (b_ws ws
                (b_socket_reused true
                  (b_e2e_latency_us (e2e_latency (sb_now_ns io) data)
                    (b_bytes (byte_len data) (b_status 200 (builder micros fault))))),
               mkSubscriberSession (Some rest) (sub_received_count s +! 1))
          | (Some None, _, _, _) => (error_metric micros fault, mkSubscriberSession None (sub_received_count s))
          | (None, _, _, rest) => (error_metric micros fault, mkSubscriberSession (Some rest) (sub_received_count s))
          end
      end
  end.

(** ** Sessions of a worker *)

Inductive WsSession :=
  | WsPublisher (s : PublisherSession)
  | WsSubscriber (s : SubscriberSession)
  | WsPersistent (s : PersistentWsSession).

Definition ws_create_worker_context (e : WebSocketEngine) : option WsSession :=
  if is_publisher e then Some (WsPublisher (mkPublisherSession None (as_bytes (default "" (we_payload e)))))
  else if is_subscriber e then Some (WsSubscriber (mkSubscriberSession None 0))
  else if we_persistent e
       then Some (WsPersistent (PersistentWsSession_new (we_headers e) (we_max_messages e) (we_timeout_secs e)))
       else None.

Definition ws_shutdown (s : WsSession) : WsSession :=
  match s with WsPersistent p => WsPersistent (ws_close p) | _ => s end.

Record WsSessionIo := mkWsSessionIo {
  wx_publisher : PublisherIo;
  wx_subscriber : SubscriberIo;
  wx_persistent : PersistentIo;
}.

Definition ws_iteration_with_context (e : WebSocketEngine) (io : WsSessionIo) (s : WsSession)
  : option RequestMetric * WsSession :=
  match s with
  | WsPublisher p => let '(m, p) := publisher_iteration e (wx_publisher io) p in (m, WsPublisher p)
  | WsSubscriber r => let '(m, r) := subscriber_iteration e (wx_subscriber io) r in (Some m, WsSubscriber r)
  | WsPersistent p => let '(m, p) := ws_persistent_iteration e (wx_persistent io) p in (Some m, WsPersistent p)
  end.

#[export] Instance ws_engine (e : WebSocketEngine) : ProtocolEngine | 10 := {
  pe_session := WsSession;
  pe_io := WsIo + WsSessionIo;
  execute_iteration := fun _ io =>
    match io with inl io => Returned (ws_iteration e io) | inr _ => NotFinished end;
  create_worker_context := fun _ => ws_create_worker_context e;
  iteration_with_context := fun _ io s =>
    match io with
    | inr io =>
        let '(m, s) := ws_iteration_with_context e io s in
        (match m with Some m => Returned m | None => NotFinished end, s)
    | inl _ => (NotFinished, s)
    end;
}.

(** ** The write-buffer gauge *)

Inductive SinkOp :=
  | OpSend (m : Message)
  | OpFlush.

Definition sink_apply (s : CountingSink) (op : SinkOp) : CountingSink :=
  match op with OpSend m => (start_send m s).1 | OpFlush => flush_ready s end.

Definition op_size (op : SinkOp) : Z := match op with OpSend m => message_payload_len m | OpFlush => 0 end.

(** The bytes queued since the last completed flush, and the depth right after
    each frame was queued. *)
Definition pending_after (d : Z) (op : SinkOp) : Z := match op with OpSend m => d + message_payload_len m | OpFlush => 0 end.

Fixpoint send_depths (d : Z) (ops : list SinkOp) : list Z :=
  match ops with
  | [] => []
  | OpSend m :: ops => (d + message_payload_len m) :: send_depths (d + message_payload_len m) ops
  | OpFlush :: ops => send_depths 0 ops
  end.

Lemma message_payload_len_nonneg m : 0 <= message_payload_len m.
Proof. destruct m; unfold message_payload_len, byte_len; lia. Qed.

Lemma sizes_nonneg ops : 0 <= Zsum (op_size <$> ops).
Proof.
  apply Zsum_nonneg, Forall_fmap, Forall_true. intros [m|]; simpl; [apply message_payload_len_nonneg|lia].
Qed.

Lemma sink_run ops s :
  0 <= cs_flushed s <= cs_written s -> cs_written s + Zsum (op_size <$> ops) <= U64_MAX ->
  let s' := foldl sink_apply s ops in
  0 <= cs_flushed s' <= cs_written s' /\
  cs_written s' = cs_written s + Zsum (op_size <$> ops) /\
  cs_written s' - cs_flushed s' = foldl pending_after (cs_written s - cs_flushed s) ops /\
  cs_max_in_flight s' = foldl Z.max (cs_max_in_flight s) (send_depths (cs_written s - cs_flushed s) ops) /\
  cs_warn_bytes s' = cs_warn_bytes s.
Proof.
  cbv zeta. revert s. induction ops as [|op ops IH]; intros s Hs Hb; csimpl in *; [split_and!; [lia..|done|done]|].
  pose proof (sizes_nonneg ops) as Hn. destruct op as [m|]; simpl in Hb |- *.
  - pose proof (message_payload_len_nonneg m) as Hm.
    set (s1 := (start_send m s).1).
    assert (E1 : cs_written s1 = cs_written s + message_payload_len m /\ cs_flushed s1 = cs_flushed s /\
                 cs_max_in_flight s1 = Z.max (cs_max_in_flight s) (cs_written s + message_payload_len m - cs_flushed s) /\
                 cs_warn_bytes s1 = cs_warn_bytes s).
    { unfold s1, start_send, u64_saturating_add, u_saturating_sub.
      rewrite Z.min_r by lia. destruct (if 0 <? cs_warn_bytes s then _ else _). simpl. split_and!; [done|done| |done].
      destruct (Z.ltb_spec (cs_max_in_flight s) (Z.max 0 (cs_written s + message_payload_len m - cs_flushed s))); lia. }
    destruct E1 as (E1 & E2 & E3 & E4). specialize (IH s1). rewrite E1, E2, E3, E4 in IH.
    destruct IH as (I1 & I2 & I3 & I4 & I5); [lia|lia|].
    replace (cs_written s - cs_flushed s + message_payload_len m)
      with (cs_written s + message_payload_len m - cs_flushed s) by lia.
    split_and!; [lia|lia|lia|done|done|done].
  - specialize (IH (flush_ready s)). simpl in IH. rewrite Z.sub_diag in IH.
    destruct IH as (I1 & I2 & I3 & I4 & I5); [lia|lia|]. split_and!; [lia|lia|lia|done|done|done].
Qed.

(** The write-buffer gauge is exact: after any sequence of frames and completed
    flushes its depth is the number of payload bytes queued since the last flush,
    and its high-water mark is the largest depth any frame reached. *)
Theorem counting_sink_exact warn ops :
  Zsum (op_size <$> ops) <= U64_MAX ->
  let s := foldl sink_apply (CountingSink_new warn) ops in
  cs_written s = Zsum (op_size <$> ops) /\
  in_flight s = foldl pending_after 0 ops /\
  cs_max_in_flight s = foldl Z.max 0 (send_depths 0 ops).
Proof.
  intros Hb. cbv zeta. destruct (sink_run ops (CountingSink_new warn)) as (I1 & I2 & I3 & I4 & _); [simpl; lia|simpl; lia|].
  change (0 - 0) with 0 in *. unfold in_flight, u_saturating_sub. split_and!; [exact I2| |exact I4].
  transitivity (cs_written (foldl sink_apply (CountingSink_new warn) ops) -
    cs_flushed (foldl sink_apply (CountingSink_new warn) ops)); [lia|exact I3].
Qed.

Lemma counting_sink_exact_witness :
  let s := foldl sink_apply (CountingSink_new 4) [OpSend (Text (as_bytes "abc")); OpSend (Ping (as_bytes "xy")); OpFlush;
             OpSend (Binary (as_bytes "z"))] in
  in_flight s = 1 /\ cs_max_in_flight s = 5.
Proof. cbv zeta. destruct (counting_sink_exact 4 [OpSend (Text (as_bytes "abc")); OpSend (Ping (as_bytes "xy")); OpFlush;
             OpSend (Binary (as_bytes "z"))]) as (_ & H1 & H2); [vm_compute; discriminate|].
  rewrite H1, H2. split; reflexivity.
Defined.

(** ** Publishers and subscribers *)

(** Nothing is queued on the sink. *)
Definition settled (s : PublisherSession) : Prop :=
  match pub_write s with
  | Some w => 0 <= cs_written w /\ cs_flushed w = cs_written w
  | None => True
  end.

Definition written_so_far (s : PublisherSession) : Z :=
  match pub_write s with Some w => cs_written w | None => 0 end.

(** The write either fails or completes; it is not cut short by the deadline. *)
Definition completes (io : PublisherIo) : Prop := is_Some (pb_ready io) /\ is_Some (pb_flush io).

Definition depth_of (m : RequestMetric) : option Z := wss_backpressure_max_bytes <$> rm_ws m.

Lemma feed_and_flush_settled item io w r w' :
  0 <= cs_written w -> cs_flushed w = cs_written w -> cs_written w + message_payload_len item <= U64_MAX ->
  completes io -> feed_and_flush item io w = (r, w') ->
  cs_flushed w' = cs_written w' /\ 0 <= cs_written w' <= cs_written w + message_payload_len item /\
  (forall depth, r = Some (depth, Ok ()) -> depth = message_payload_len item).
Proof.
  intros Hw Hf Hb [[ready Hr] [fl Hl]]. unfold feed_and_flush. rewrite Hr, Hl.
  pose proof (message_payload_len_nonneg item) as Hm.
  assert (E1 : cs_written (start_send item w).1 = cs_written w + message_payload_len item /\
               cs_flushed (start_send item w).1 = cs_flushed w).
  { unfold start_send, u64_saturating_add. rewrite Z.min_r by lia.
    destruct (if 0 <? cs_warn_bytes w then _ else _). done. }
  destruct E1 as [E1 E2]. destruct ready as [[]|err]; intros [= <- <-]; simpl.
  - rewrite E1. split_and!; [done|lia|lia|]. intros depth [= <- _]. unfold in_flight, u_saturating_sub.
    rewrite E1, E2. lia.
  - split_and!; [done|lia|lia|]. by intros depth [= _ ?].
Qed.

(** The number of bytes a publisher queues for one message: 16 of time stamp and
    the payload, or the four corrupted bytes. *)
Definition publish_len (fault : option ChaosFault) (user_payload : bytes) : Z :=
  match fault with Some CorruptedPayload => 4 | _ => 16 + byte_len user_payload end.

Lemma publisher_payload_len fault now_ns p : byte_len (publisher_payload fault now_ns p) = publish_len fault p.
Proof.
  assert (H : byte_len (create_pubsub_payload now_ns p) = 16 + byte_len p).
  { unfold create_pubsub_payload, byte_len. rewrite length_app, length_to_be_bytes. lia. }
  destruct fault as [[]|]; simpl; done.
Qed.

(** What the backpressure gauge can show: on a publisher whose writes complete,
    every depth reported is the size of the one message just queued (time stamp
    included), whatever was sent before; the queue is empty again afterwards. *)
Theorem publisher_depth_is_message e io s :
  settled s -> completes io -> written_so_far s + 16 + byte_len (pub_user_payload s) <= U64_MAX ->
  let '(m, s') := publisher_iteration e io s in
  settled s' /\
  (forall m', m = Some m' -> is_error m' = false ->
     depth_of m' = Some (publish_len (chaos_fault m') (pub_user_payload s)) /\
     rm_bytes_received m' = publish_len (chaos_fault m') (pub_user_payload s) /\
     is_socket_reused (connection m') = true).
Proof.
  intros Hs Hc Hb. unfold publisher_iteration.
  set (write := match pub_write s with Some w => Some w | None => _ end).
  assert (Hw : match write with
               | Some w => 0 <= cs_written w /\ cs_flushed w = cs_written w /\
                           cs_written w + 16 + byte_len (pub_user_payload s) <= U64_MAX
               | None => True end).
  { unfold write. unfold settled, written_so_far in *. destruct (pub_write s) as [w|]; [naive_solver|].
    destruct (pb_connected io); [|done]. simpl. split_and!; [lia|lia|lia]. }
  destruct write as [w|]; [|by split; [|intros m' [= <-]]]. destruct Hw as (Hw & Hf & Hb'). cbn [pub_user_payload].
  set (fault := select_fault _ _ _). clearbody fault.
  destruct (decide (fault = Some ConnectionDrop)) as [->|Hd].
  { split; [by simpl|]. by intros m' [= <-]. }
  rewrite not_dropped by done. clear Hd.
  pose proof (publisher_payload_len fault (pb_now_ns io) (pub_user_payload s)) as HL.
  set (payload := publisher_payload _ _ _) in *.
  destruct (feed_and_flush (Binary payload) io w) as [r w'] eqn:EF.
  assert (HB : cs_written w + message_payload_len (Binary payload) <= U64_MAX).
  { simpl. rewrite HL. unfold publish_len. unfold byte_len in *. destruct fault as [[]|]; lia. }
  destruct (feed_and_flush_settled _ _ _ _ _ Hw Hf HB Hc EF) as (F1 & F2 & F3). simpl in F3, F2.
  destruct r as [[depth [[]|err]]|].
  - split; [by simpl; split; [lia|]|]. intros m' [= <-] _. rewrite (F3 _ eq_refl), HL. done.
  - split; [done|]. by intros m' [= <-].
  - split; [by simpl; split; [lia|]|]. done.
Qed.

Lemma from_to_128 z : 0 <= z < 2 ^ 128 -> from_be_bytes (to_be_bytes 16 z) = z.
Proof. intros Hz. rewrite from_to_be_bytes. apply Z.mod_small. exact Hz. Qed.

Lemma e2e_of_published now_ns sent_ns p :
  0 <= sent_ns < 2 ^ 128 ->
  e2e_latency now_ns (create_pubsub_payload sent_ns p) = Some (u_saturating_sub now_ns sent_ns / 1000).
Proof.
  intros Hs. unfold e2e_latency, parse_pubsub_payload, create_pubsub_payload.
  rewrite length_app, length_to_be_bytes. rewrite (proj2 (Nat.ltb_ge _ _)) by lia.
  rewrite take_app_length' by (by rewrite length_to_be_bytes). by rewrite from_to_128.
Qed.

Definition frame_in (m : Message) : WsIn := Some (Ok m).

(** End to end: a message a publisher reports as sent is, when it is the next
    data frame a subscriber reads, reported there with the same number of bytes
    and with the time from the publisher's stamp to the reading, in microseconds. *)
Theorem pubsub_end_to_end pe pio ps ps' pm se sio ss controls :
  publisher_iteration pe pio ps = (Some pm, ps') -> is_error pm = false ->
  chaos_fault pm <> Some CorruptedPayload -> 0 <= pb_now_ns pio < 2 ^ 128 ->
  sub_read ss = Some [] -> select_fault (we_chaos se) (sb_draw sio) (sb_pick sio) <> Some ConnectionDrop ->
  Forall (fun m => match m with Ping _ | Pong _ | RawFrame _ => True | _ => False end) controls ->
  sb_arrivals sio = frame_in <$>
    (controls ++ [Binary (create_pubsub_payload (pb_now_ns pio) (pub_user_payload ps))]) ->
  let sm := (subscriber_iteration se sio ss).1 in
  status_code sm = 200 /\ rm_bytes_received sm = rm_bytes_received pm /\
  e2e_latency_us (connection sm) = Some (u_saturating_sub (sb_now_ns sio) (pb_now_ns pio) / 1000) /\
  sub_received_count (subscriber_iteration se sio ss).2 = sub_received_count ss +! 1.
Proof.
  intros HP HE HC Hn HR HD HF HA.
  assert (Hbytes : rm_bytes_received pm = byte_len (create_pubsub_payload (pb_now_ns pio) (pub_user_payload ps))).
  { unfold publisher_iteration in HP.
    destruct (match pub_write ps with Some w => Some w | None => _ end) as [w|]; [|by simplify_eq].
    cbn [pub_user_payload] in HP. set (fault := select_fault _ _ _) in HP. clearbody fault.
    destruct fault as [[]|]; try by simplify_eq.
    all: destruct (feed_and_flush _ _ _) as [[[depth [[]|]]|] w']; simplify_eq; simpl in *; done. }
  assert (HL : forall l pings pongs tail,
    Forall (fun m => match m with Ping _ | Pong _ | RawFrame _ => True | _ => False end) l ->
    exists a b, subscribe_loop ((frame_in <$> l) ++ tail) pings pongs = subscribe_loop tail a b).
  { clear. induction l as [|m l IH]; intros pings pongs tail HF; [by eexists _, _|].
    apply Forall_cons in HF as [Hm HF]. destruct m; try done; csimpl; by apply IH. }
  unfold subscriber_iteration. rewrite HR. cbv zeta. cbn [app].
  set (fault := select_fault _ _ _) in *. clearbody fault.
  rewrite not_dropped, HA, fmap_app by done.
  destruct (HL controls 0 0 (frame_in <$> [Binary (create_pubsub_payload (pb_now_ns pio) (pub_user_payload ps))]) HF)
    as (a & b & ->).
  csimpl. rewrite Hbytes.
  assert (HW : forall (ws : option WsSample) m, status_code (b_ws ws m) = status_code m /\
    rm_bytes_received (b_ws ws m) = rm_bytes_received m /\ connection (b_ws ws m) = connection m) by (by intros []).
  destruct (HW (if (0 <? a) || (0 <? b) then Some (WsSample_of 0 a 0 b) else None)
    (b_socket_reused true (b_e2e_latency_us (e2e_latency (sb_now_ns sio)
       (create_pubsub_payload (pb_now_ns pio) (pub_user_payload ps)))
      (b_bytes (byte_len (create_pubsub_payload (pb_now_ns pio) (pub_user_payload ps)))
        (b_status 200 (builder (as_micros (sb_elapsed sio)) fault)))))) as (H1 & H2 & H3).
  rewrite H1, H2, H3. simpl. rewrite e2e_of_published by done. done.
Qed.

(** ** The stateless iteration *)

Definition is_control (x : WsIn) : bool :=
  match x with Some (Ok (Ping _ | RawFrame _)) => true | _ => false end.

(** The first frame that is neither a ping nor a raw frame. *)
Fixpoint first_terminal (l : list WsIn) : option WsIn :=
  match l with
  | [] => None
  | x :: l => if is_control x then first_terminal l else Some x
  end.

Lemma read_frames_status l bytes pings :
  ro_status (read_frames l bytes pings) =
  match first_terminal l with
  | None => RS_Timeout
  | Some None => RS_Eof
  | Some (Some (Err _)) => RS_Error
  | Some (Some (Ok (Text _ | Binary _))) => RS_Data
  | Some (Some (Ok (Pong _))) => RS_Pong
  | Some (Some (Ok _)) => RS_Close
  end.
Proof.
  revert bytes pings. induction l as [|x l IH]; intros bytes pings; [done|].
  destruct x as [[[]|]|]; simpl; try done; apply IH.
Qed.

(** What counts as an answer in each mode. *)
Definition expected (e : WebSocketEngine) (fault : option ChaosFault) (x : option WsIn) : bool :=
  let data_or_pong := match x with Some (Some (Ok (Text _ | Binary _ | Pong _))) => true | _ => false end in
  match fault with
  | Some CorruptedPayload => data_or_pong
  | _ => match we_mode e with
         | Handshake => true
         | PingPong => match x with Some (Some (Ok (Pong _))) => true | _ => false end
         | Stream => data_or_pong
         end
  end.

Definition first_sent (e : WebSocketEngine) (fault : option ChaosFault) : Message :=
  match fault with
  | Some CorruptedPayload => Binary WS_CORRUPTED
  | _ => match we_mode e with
         | PingPong => Ping []
         | _ => Text (as_bytes (default "ping" (we_payload e)))
         end
  end.

Lemma ws_exchange_status e fault io :
  (ws_exchange e fault io).1.1 =
  if expected e fault (first_terminal (wi_reply io (first_sent e fault))) then 200 else 0.
Proof.
  assert (HA : forall l, answered (read_with_timeout l) =
    match first_terminal l with Some (Some (Ok (Text _ | Binary _ | Pong _))) => true | _ => false end).
  { intros l. unfold answered, read_with_timeout. rewrite read_frames_status.
    by destruct (first_terminal l) as [[[[]|]|]|]. }
  assert (HP : forall l, bool_decide (ro_status (read_with_timeout l) = RS_Pong) =
    match first_terminal l with Some (Some (Ok (Pong _))) => true | _ => false end).
  { intros l. unfold read_with_timeout. rewrite read_frames_status. by destruct (first_terminal l) as [[[[]|]|]|]. }
  unfold ws_exchange, expected, first_sent. destruct fault as [[]|]; destruct (we_mode e);
    rewrite ?HA, ?HP; try done; match goal with |- (if ?b then _ else _).1.1 = _ => by destruct b end.
Qed.

(** A stateless WebSocket iteration is an error exactly when chaos dropped it,
    the URL or the handshake failed, or the first frame that is neither a ping
    nor a raw frame is not what the mode waits for: a pong for ping-pong, data or
    a pong for a stream, anything for a bare handshake. *)
Theorem ws_iteration_outcome e io :
  let fault := select_fault (we_chaos e) (wi_draw io) (wi_pick io) in
  is_error (ws_iteration e io) = false <->
  fault <> Some ConnectionDrop /\ wi_request_ok io = true /\ wi_connected io = true /\
  expected e fault (first_terminal (wi_reply io (first_sent e fault))) = true.
Proof.
  cbv zeta. unfold ws_iteration. set (fault := select_fault _ _ _). clearbody fault.
  destruct (decide (fault = Some ConnectionDrop)) as [->|Hd]; [by split; [|intros [? _]]|].
  rewrite not_dropped by done. destruct (wi_request_ok io); simpl negb; [|by split; [|intros (_ & ? & _)]].
  assert (HS : forall s b (ws : option WsSample), s = 200 \/ s = 0 ->
    is_error (b_ws ws (b_bytes b (b_status s (builder (as_micros (wi_elapsed io)) fault)))) = (s =? 0)).
  { by intros s b [ws|] [-> | ->]. }
  pose proof (ws_exchange_status e fault io) as HX.
  destruct (wi_connected io); [|by split; [|intros (_ & _ & ? & _)]].
  destruct (ws_exchange e fault io) as [[status bytes] ws]. simpl in HX. rewrite HX.
  destruct (expected _ _ _); rewrite HS by auto; naive_solver.
Qed.

(** ** The persistent session *)

Inductive ws_reachable (e : WebSocketEngine) : PersistentWsSession -> Prop :=
  | wsr_new : ws_reachable e (PersistentWsSession_new (we_headers e) (we_max_messages e) (we_timeout_secs e))
  | wsr_step s io : ws_reachable e s -> ws_reachable e (ws_persistent_iteration e io s).2.

Lemma send_and_receive_sent p ok arr s :
  let s' := (send_and_receive p ok arr s).2 in
  pw_max_messages s' = pw_max_messages s /\
  (pw_messages_sent s' = pw_messages_sent s \/ pw_messages_sent s' = pw_messages_sent s +! 1).
Proof.
  cbv zeta. unfold send_and_receive. destruct (pw_stream s); [|by auto]. destruct ok; [|by auto].
  cbn [negb]. destruct (receive_loop _ 0 0) as [[[[[r a] b] []]|] rest]; simpl; auto.
Qed.

(** Message budget of a persistent session: on no connection are more than
    [max_messages] messages sent (one, for a budget of zero): the session
    reconnects before the message that would exceed it. *)
Theorem ws_session_capped e s max :
  we_max_messages e = Some max -> 0 <= max < U64_MAX -> ws_reachable e s ->
  0 <= pw_messages_sent s <= Z.max max 1.
Proof.
  intros Hm Hr H.
  assert (Hinv : pw_max_messages s = Some max /\ 0 <= pw_messages_sent s <= Z.max max 1); [|by destruct Hinv].
  induction H as [|s io _ [IHm IHs]]; [simpl; split; [done|lia]|].
  unfold ws_persistent_iteration. set (fault := select_fault _ _ _). clearbody fault.
  destruct (decide (fault = Some ConnectionDrop)) as [->|Hd]; [done|].
  rewrite not_dropped by done. unfold ws_ensure_connected.
  destruct (is_some (pw_stream s) && negb (ws_max_reached s)) eqn:EC.
  - apply andb_true_iff in EC as [_ EM%negb_true_iff]. unfold ws_max_reached in EM. rewrite IHm in EM.
    apply Z.leb_gt in EM.
    pose proof (send_and_receive_sent (ws_payload e fault) (pi_send_ok io) (pi_arrivals io) s) as [S1 S2].
    destruct (send_and_receive _ _ _ _) as [r s']. cbn [snd] in *. split; [congruence|].
    rewrite u64_add_small in S2 by (unfold in_u64; lia). destruct S2; lia.
  - destruct (pi_connect io) as [us|]; [|done].
    pose proof (send_and_receive_sent (ws_payload e fault) (pi_send_ok io) (pi_arrivals io)
      (set_sent 0 (set_stream (Some []) s))) as [S1 S2].
    destruct (send_and_receive _ _ _ _) as [r s']. cbn [snd] in *. split; [by rewrite S1|].
    simpl in S2. rewrite u64_add_small in S2 by (unfold in_u64; vm_compute; by split). destruct S2; lia.
Qed.

(** A healthy turn of a persistent session: no fault drawn, the write accepted,
    the budget not reached. *)
Definition healthy (e : WebSocketEngine) (io : PersistentIo) : Prop :=
  select_fault (we_chaos e) (pi_draw io) (pi_pick io) = None /\ pi_send_ok io = true.

Fixpoint persistent_run (e : WebSocketEngine) (ios : list PersistentIo) (s : PersistentWsSession)
  : list RequestMetric * PersistentWsSession :=
  match ios with
  | [] => ([], s)
  | io :: ios =>
      let '(m, s) := ws_persistent_iteration e io s in
      let '(ms, s) := persistent_run e ios s in (m :: ms, s)
  end.

Lemma persistent_healthy e io s queue :
  healthy e io -> pw_stream s = Some queue -> pw_max_messages s = None ->
  ws_persistent_iteration e io s =
  let '(r, s') := send_and_receive (ws_payload e None) true (pi_arrivals io) s in
  (b_ws (ws_sample 0 (pw_last_pings_received s') 0 (pw_last_pongs_received s'))
    (b_socket_reused true (b_connection_latency_us (Some 0) (b_reconnect false
      (match r with
       | Ok response => b_bytes (byte_len response) (b_status 200 (builder (as_micros (pi_elapsed io)) None))
       | Err _ => builder (as_micros (pi_elapsed io)) None
       end)))), s').
Proof.
  intros [Hf Ho] Hq Hm. unfold ws_persistent_iteration. rewrite Hf, Ho. unfold ws_ensure_connected, ws_max_reached.
  rewrite Hq, Hm. simpl. done.
Qed.

(** The frame read first decides the turn, and what follows it stays queued. *)
Lemma turn_replied e io s queue r rest :
  healthy e io -> pw_stream s = Some queue -> pw_max_messages s = None ->
  (forall p, queue ++ pi_arrivals io p = Some (Ok (Text r)) :: rest) ->
  exists m s', ws_persistent_iteration e io s = (m, s') /\
    status_code m = 200 /\ rm_bytes_received m = byte_len r /\
    pw_stream s' = Some rest /\ pw_max_messages s' = None.
Proof.
  intros Hh Hq Hm Ha. rewrite (persistent_healthy _ _ _ _ Hh Hq Hm).
  unfold send_and_receive. rewrite Hq, Ha. simpl. by do 2 eexists.
Qed.

Lemma turn_timed_out e io s :
  healthy e io -> pw_stream s = Some [] -> pw_max_messages s = None -> (forall p, pi_arrivals io p = []) ->
  exists m s', ws_persistent_iteration e io s = (m, s') /\
    status_code m = 0 /\ rm_bytes_received m = 0 /\ pw_stream s' = Some [] /\ pw_max_messages s' = None.
Proof.
  intros Hh Hq Hm Ha. rewrite (persistent_healthy _ _ _ _ Hh Hq Hm).
  unfold send_and_receive. rewrite Hq, Ha. simpl. by do 2 eexists.
Qed.

Lemma replies_shift e ios rs r s :
  Forall2 (fun io r' => healthy e io /\ forall p, pi_arrivals io p = [Some (Ok (Text r'))]) ios rs ->
  pw_stream s = Some [Some (Ok (Text r))] -> pw_max_messages s = None ->
  status_code <$> (persistent_run e ios s).1 = replicate (length ios) 200 /\
  rm_bytes_received <$> (persistent_run e ios s).1 = take (length ios) (byte_len <$> (r :: rs)).
Proof.
  intros HF. revert r s. induction HF as [|io r' ios rs [Hh Ha] _ IH]; intros r s Hq Hm; [done|].
  destruct (turn_replied e io s _ r [Some (Ok (Text r'))] Hh Hq Hm) as (m & s1 & E & H1 & H2 & H3 & H4).
  { intros p. by rewrite Ha. }
  cbn [persistent_run]. rewrite E. destruct (IH r' s1 H3 H4) as [I1 I2].
  destruct (persistent_run e ios s1) as [ms s']. csimpl in *. by rewrite H1, H2, I1, I2.
Qed.

(** A reply that comes late is credited to the next request: when a request times
    out and its reply arrives afterwards, the session keeps the connection, and
    from then on every iteration reports, as a success, the reply to the request
    before it. *)
Theorem ws_late_reply_shifts e io0 io1 ios r0 r1 rs s :
  pw_stream s = Some [] -> pw_max_messages s = None ->
  healthy e io0 -> (forall p, pi_arrivals io0 p = []) ->
  healthy e io1 -> (forall p, pi_arrivals io1 p = [Some (Ok (Text r0)); Some (Ok (Text r1))]) ->
  Forall2 (fun io r => healthy e io /\ forall p, pi_arrivals io p = [Some (Ok (Text r))]) ios rs ->
  let ms := (persistent_run e (io0 :: io1 :: ios) s).1 in
  status_code <$> ms = 0 :: replicate (S (length ios)) 200 /\
  rm_bytes_received <$> ms = 0 :: take (S (length ios)) (byte_len <$> (r0 :: r1 :: rs)).
Proof.
  intros Hq Hm H0 A0 H1 A1 HF. cbv zeta.
  destruct (turn_timed_out e io0 s H0 Hq Hm A0) as (m0 & s0 & E0 & S0 & B0 & Q0 & M0).
  destruct (turn_replied e io1 s0 [] r0 [Some (Ok (Text r1))] H1 Q0 M0) as (m1 & s1 & E1 & S1 & B1 & Q1 & M1).
  { intros p. by rewrite A1. }
  destruct (replies_shift e ios rs r1 s1 HF Q1 M1) as [I1 I2].
  cbn [persistent_run]. rewrite E0, E1. destruct (persistent_run e ios s1) as [ms s']. csimpl in *.
  by rewrite S0, S1, B0, B1, I1, I2.
Qed.

(** Pings are counted twice when a write fails: the metric of an iteration whose
    send was refused repeats the control frames of the iteration before it,
    although nothing was read. *)
Theorem ws_stale_control_frames e io s queue :
  select_fault (we_chaos e) (pi_draw io) (pi_pick io) = None -> pi_send_ok io = false ->
  pw_stream s = Some queue -> ws_max_reached s = false -> 0 < pw_last_pings_received s ->
  exists ws, rm_ws (ws_persistent_iteration e io s).1 = Some ws /\
    wss_pings_received ws = pw_last_pings_received s.
Proof.
  intros Hf Ho Hq Hm Hp. unfold ws_persistent_iteration, ws_ensure_connected. rewrite Hf, Ho, Hq, Hm.
  simpl. unfold send_and_receive. rewrite Hq. simpl. unfold ws_sample, ws_is_significant. simpl.
  assert ((pw_last_pings_received s >? 0) = true) as -> by (apply Z.gtb_lt; lia). simpl. by eexists.
Qed.

(** ** Witnesses *)

Definition demo_ws (role : option string) (max : option Z) : WebSocketEngine :=
  with_role role None
    (WebSocketEngine_new [] Stream (Some "hi"%string) (mkChaosEngine false f64_zero) 5 true None max).

Definition demo_pub_io : PublisherIo :=
  mkPublisherIo true f64_zero 0 5000000 (Some (Ok ())) (Ok ()) (Some (Ok ())) 5000100 9000.

Lemma publisher_depth_is_message_witness :
  exists m s', publisher_iteration (demo_ws (Some "publisher"%string) None) demo_pub_io
                 (mkPublisherSession None (as_bytes "hi")) = (Some m, s') /\
    depth_of m = Some 18 /\ is_socket_reused (connection m) = true.
Proof.
  pose proof (publisher_depth_is_message (demo_ws (Some "publisher"%string) None) demo_pub_io
    (mkPublisherSession None (as_bytes "hi"))) as H.
  destruct (publisher_iteration _ _ _) as [m s'] eqn:E.
  destruct H as [_ H]; [done|by split; eexists|vm_compute; discriminate|].
  destruct m as [m|]; [|discriminate E]. exists m, s'. split; [done|].
  assert (Em : is_error m = false /\ chaos_fault m = None) by (injection E as <- _; done).
  destruct Em as [Em Ef]. destruct (H m eq_refl Em) as (H1 & _ & H3). rewrite Ef in H1. by split.
Defined.

Lemma pubsub_end_to_end_witness :
  let sio := mkSubscriberIo true f64_zero 0
    (frame_in <$> [Ping []; Binary (create_pubsub_payload 5000000 (as_bytes "hi"))]) 7500000 9000 in
  e2e_latency_us (connection (subscriber_iteration (demo_ws None None) sio (mkSubscriberSession (Some []) 0)).1)
    = Some 2500.
Proof.
  cbv zeta.
  destruct (publisher_iteration (demo_ws (Some "publisher"%string) None) demo_pub_io
              (mkPublisherSession None (as_bytes "hi"))) as [[pm|] ps'] eqn:E; [|discriminate E].
  assert (Em : is_error pm = false /\ chaos_fault pm = None) by (injection E as <- _; done).
  destruct Em as [Em Ef].
  refine (proj1 (proj2 (proj2 (pubsub_end_to_end _ _ _ _ pm (demo_ws None None)
    (mkSubscriberIo true f64_zero 0
      (frame_in <$> [Ping []; Binary (create_pubsub_payload 5000000 (as_bytes "hi"))]) 7500000 9000)
    (mkSubscriberSession (Some []) 0) [Ping []] E Em _ _ eq_refl _ _ eq_refl)))).
  - by rewrite Ef.
  - vm_compute. by split.
  - discriminate.
  - by repeat constructor.
Defined.

Definition demo_turn (arrivals : list WsIn) (send_ok : bool) : PersistentIo :=
  mkPersistentIo f64_zero 0 (Ok 40) send_ok (fun _ => arrivals) 9000.

Lemma ws_session_capped_witness :
  let e := demo_ws None (Some 2) in
  let turn := demo_turn [Some (Ok (Text (as_bytes "ok")))] true in
  0 <= pw_messages_sent (ws_persistent_iteration e turn (ws_persistent_iteration e turn
         (PersistentWsSession_new [] (Some 2) 5)).2).2 <= 2.
Proof.
  cbv zeta. apply (ws_session_capped (demo_ws None (Some 2)) _ 2 eq_refl); [unfold U64_MAX; lia|].
  do 2 apply wsr_step. apply wsr_new.
Defined.

Lemma ws_late_reply_shifts_witness :
  let reply s := Some (Ok (Text (as_bytes s))) in
  let s := set_stream (Some []) (PersistentWsSession_new [] None 5) in
  rm_bytes_received <$> (persistent_run (demo_ws None None)
    [demo_turn [] true; demo_turn [reply "a"; reply "bb"] true; demo_turn [reply "ccc"] true] s).1 = [0; 1; 2].
Proof.
  cbv zeta.
  apply (ws_late_reply_shifts (demo_ws None None) (demo_turn [] true)
    (demo_turn [Some (Ok (Text (as_bytes "a"))); Some (Ok (Text (as_bytes "bb")))] true)
    [demo_turn [Some (Ok (Text (as_bytes "ccc")))] true] (as_bytes "a") (as_bytes "bb") [as_bytes "ccc"]);
    try done.
  by repeat constructor.
Defined.

Lemma ws_stale_control_frames_witness :
  exists ws, rm_ws (ws_persistent_iteration (demo_ws None None) (demo_turn [] false)
    (set_control 3 0 (set_stream (Some []) (PersistentWsSession_new [] None 5)))).1 = Some ws /\
    wss_pings_received ws = 3.
Proof.
  apply (ws_stale_control_frames _ _ (set_control 3 0 (set_stream (Some []) (PersistentWsSession_new [] None 5))) []);
    try reflexivity.
Defined.
