(* ===== verification/GraphqlWs.v ===== *)
(** GraphQL subscriptions over WebSocket: [protocols/graphql_ws.rs].

    The stream and the JSON codec are inputs.  Frames are decoded, the handshake,
    the (re)subscription and the reading of one event per iteration are modelled
    with the session they share.  Every await can be the one at which the worker's
    deadline drops the iteration.  A session carries, beside the source's fields,
    the frames it has written on the current connection and how many of them when
    the server's acknowledgement was read. *)

From S2P Require Import Prelude RustStr Json Float Histogram Chaos Samples Aggregate Config LocalRun GrpcEngine WebSocket.

#[local] Open Scope Z_scope.
#[local] Open Scope rust_scope.

Definition SUBPROTOCOL : string := "graphql-transport-ws".
Definition SUBSCRIPTION_ID : string := "1".

Record SubscriptionPayload := mkSubscriptionPayload {
  sp_query : string;
  sp_variables : option string;
  sp_operation_name : option string;
}.

Definition CONNECTION_INIT : bytes := as_bytes ("{" ++ quoted "type" ++ ":" ++ quoted "connection_init" ++ "}")%string.
Definition PONG_REPLY : bytes := as_bytes ("{" ++ quoted "type" ++ ":" ++ quoted "pong" ++ "}")%string.

Section graphql_ws.
Context `{Json}.

Definition subscription_frame (p : SubscriptionPayload) : result string bytes :=
  let payload := json_insert "query" (JString (sp_query p)) [] in
  payload ← match sp_variables p with
            | Some raw =>
                parsed ← map_err (fun e => ("graphql_variables is not valid JSON: " ++ e)%string)
                           (json_parse (as_bytes raw));
                Ok (json_insert "variables" parsed payload)
            | None => Ok payload
            end;
  let payload := match sp_operation_name p with
                 | Some name => json_insert "operationName" (JString name) payload
                 | None => payload
                 end in
  let msg := json_insert "id" (JString SUBSCRIPTION_ID) [] in
  let msg := json_insert "type" (JString "subscribe") msg in
  let msg := json_insert "payload" (JObject payload) msg in
  Ok (json_print (JObject msg)).

(** ** Server frames *)

Inductive ServerFrame :=
  | SF_Next
  | SF_Error (n : Z)
  | SF_Complete
  | SF_Ping
  | SF_Pong
  | SF_Ack
  | SF_ConnectionError
  | SF_Other.

Definition frame_of_type (t : string) (value : list (string * json_value)) : ServerFrame :=
  if String.eqb t "next" then SF_Next
  else if String.eqb t "error" then
    SF_Error (match json_get "payload" value with
              | Some (JArray a) => Z.of_nat (length a)
              | _ => 1
              end)
  else if String.eqb t "complete" then SF_Complete
  else if String.eqb t "ping" then SF_Ping
  else if String.eqb t "pong" then SF_Pong
  else if String.eqb t "connection_ack" then SF_Ack
  else if String.eqb t "connection_error" then SF_ConnectionError
  else SF_Other.

Definition decode_frame (text : bytes) : ServerFrame :=
  match json_parse text with
  | Ok (JObject value) =>
      match json_get "type" value with
      | Some (JString t) => frame_of_type t value
      | _ => SF_Other
      end
  | _ => SF_Other
  end.

Inductive ReadEvent :=
  | RE_Next (bytes : Z)
  | RE_Error (errors bytes : Z)
  | RE_Complete
  | RE_Ack
  | RE_ConnectionError
  | RE_Timeout
  | RE_Closed.

(** ** The session *)

Record GraphqlWsSession := mkGraphqlWsSession {
  gw_stream : option (list WsIn);       (** open, with the frames not read yet *)
  gw_wire : list Message;               (** written on this connection, oldest first *)
  gw_initialized : bool;
  gw_subscribed : bool;
  gw_subscribe_sent_at : option Z;
  gw_last_message_at : option Z;
  gw_ttfm_recorded : bool;
  gw_acked_at : option nat;             (** written before the acknowledgement was read *)
}.

Definition GraphqlWsSession_new : GraphqlWsSession := mkGraphqlWsSession None [] false false None None false None.

Definition gw_reset (s : GraphqlWsSession) : GraphqlWsSession :=
  mkGraphqlWsSession None [] false false None None false None.

Definition set_queue (q : list WsIn) (s : GraphqlWsSession) : GraphqlWsSession :=
  mkGraphqlWsSession (Some q) (gw_wire s) (gw_initialized s) (gw_subscribed s) (gw_subscribe_sent_at s)
    (gw_last_message_at s) (gw_ttfm_recorded s) (gw_acked_at s).

Definition write_wire (m : Message) (s : GraphqlWsSession) : GraphqlWsSession :=
  mkGraphqlWsSession (gw_stream s) (gw_wire s ++ [m]) (gw_initialized s) (gw_subscribed s) (gw_subscribe_sent_at s)
    (gw_last_message_at s) (gw_ttfm_recorded s) (gw_acked_at s).

(** The acknowledgement was read. *)
Definition mark_acked (s : GraphqlWsSession) : GraphqlWsSession :=
  mkGraphqlWsSession (gw_stream s) (gw_wire s) (gw_initialized s) (gw_subscribed s) (gw_subscribe_sent_at s)
    (gw_last_message_at s) (gw_ttfm_recorded s) (Some (length (gw_wire s))).

Definition set_initialized (s : GraphqlWsSession) : GraphqlWsSession :=
  mkGraphqlWsSession (gw_stream s) (gw_wire s) true (gw_subscribed s) (gw_subscribe_sent_at s)
    (gw_last_message_at s) (gw_ttfm_recorded s) (gw_acked_at s).

Definition set_subscribed (at_ : Z) (s : GraphqlWsSession) : GraphqlWsSession :=
  mkGraphqlWsSession (gw_stream s) (gw_wire s) (gw_initialized s) true (Some at_) None false (gw_acked_at s).

Definition clear_subscribed (s : GraphqlWsSession) : GraphqlWsSession :=
  mkGraphqlWsSession (gw_stream s) (gw_wire s) (gw_initialized s) false (gw_subscribe_sent_at s)
    (gw_last_message_at s) (gw_ttfm_recorded s) (gw_acked_at s).

(** The outcome of [connect_async]: the subprotocol the server negotiated. *)
Definition gw_connect (answer : result string (option string)) (s : GraphqlWsSession)
  : result string GraphqlWsSession :=
  negotiated ← answer;
  if bool_decide (negotiated = Some SUBPROTOCOL)
  then Ok (mkGraphqlWsSession (Some []) [] (gw_initialized s) (gw_subscribed s) (gw_subscribe_sent_at s)
             (gw_last_message_at s) (gw_ttfm_recorded s) None)
  else Err ("server did not negotiate " ++ SUBPROTOCOL ++ " (got " ++
            match negotiated with Some p => "Some(" ++ quoted p ++ ")" | None => "None" end ++ ")")%string.

(** How a [send] ends: done, failed, or dropped by the worker's deadline, with the
    message already handed to the stream ([queued], and then part of what goes out)
    or not. *)
Inductive SendAnswer :=
  | Sent
  | SendFailed
  | SendCut (queued : bool).

(** A step of an iteration: it goes on, fails, or is dropped there. *)
Inductive Ready :=
  | IsReady (s : GraphqlWsSession)
  | NotReady (s : GraphqlWsSession)
  | CutOff (s : GraphqlWsSession).

(** [send_text] and [send_binary]. *)
Definition gw_send (m : Message) (a : SendAnswer) (s : GraphqlWsSession) : Ready :=
  match gw_stream s with
  | None => NotReady s
  | Some _ =>
      match a with
      | Sent => IsReady (write_wire m s)
      | SendFailed => NotReady s
      | SendCut queued => CutOff (if queued then write_wire m s else s)
      end
  end.

(** What [next_frame] does with one incoming frame: return an event, answer a
    ping and go on, or just go on. *)
Inductive FrameAction :=
  | Deliver (e : ReadEvent)
  | AnswerPing
  | Skip.

Definition on_frame (x : WsIn) : FrameAction :=
  match x with
  | None => Deliver RE_Closed
  | Some (Err _) => Deliver RE_Closed
  | Some (Ok (Text text)) =>
      match decode_frame text with
      | SF_Next => Deliver (RE_Next (byte_len text))
      | SF_Error errors => Deliver (RE_Error errors (byte_len text))
      | SF_Complete => Deliver RE_Complete
      | SF_Ack => Deliver RE_Ack
      | SF_ConnectionError => Deliver RE_ConnectionError
      | SF_Ping => AnswerPing
      | SF_Pong | SF_Other => Skip
      end
  | Some (Ok (Binary b)) => Deliver (RE_Next (byte_len b))
  | Some (Ok Close) => Deliver RE_Closed
  | Some (Ok _) => Skip
  end.

(** [next_frame] over the frames that arrive before the deadline: the session's,
    or the worker's when it is the first ([cut]), which drops the read (no event).
    Each pong is a [send] whose result is ignored, but it too can be dropped. *)
Fixpoint gw_read (cut : bool) (pongs : list SendAnswer) (l : list WsIn) (s : GraphqlWsSession)
  : option ReadEvent * GraphqlWsSession :=
  match l with
  | [] => (if cut then None else Some RE_Timeout, set_queue [] s)
  | x :: l =>
      match on_frame x with
      | Deliver e => (Some e, set_queue l s)
      | AnswerPing =>
          match gw_send (Text PONG_REPLY) (hd Sent pongs) s with
          | IsReady s | NotReady s => gw_read cut (tl pongs) l s
          | CutOff s => (None, set_queue l s)
          end
      | Skip => gw_read cut pongs l s
      end
  end.

Definition gw_next_frame (cut : bool) (pongs : list SendAnswer) (arrivals : list WsIn) (s : GraphqlWsSession)
  : option ReadEvent * GraphqlWsSession :=
  match gw_stream s with
  | None => (Some RE_Closed, s)
  | Some q => gw_read cut pongs (q ++ arrivals) s
  end.

(** The loop of [initialize] after [connection_init] was written: its result, or
    [None] when it was dropped. *)
Fixpoint await_ack (cut : bool) (pongs : list SendAnswer) (l : list WsIn) (s : GraphqlWsSession)
  : option (result string ()) * GraphqlWsSession :=
  let failed := Some (Err "connection init not acknowledged"%string) in
  match l with
  | [] => (if cut then None else failed, set_queue [] s)
  | x :: l =>
      match on_frame x with
      | Deliver RE_Ack => (Some (Ok ()), mark_acked (set_queue l s))
      | Deliver (RE_Next _ | RE_Error _ _ | RE_Complete) => await_ack cut pongs l s
      | Deliver _ => (failed, set_queue l s)
      | AnswerPing =>
          match gw_send (Text PONG_REPLY) (hd Sent pongs) s with
          | IsReady s | NotReady s => await_ack cut (tl pongs) l s
          | CutOff s => (None, set_queue l s)
          end
      | Skip => await_ack cut pongs l s
      end
  end.

(** ** One iteration *)

Record GraphqlWsEngine := mkGraphqlWsEngine {
  gwe_payload : SubscriptionPayload;
  gwe_headers : list (string * string);
  gwe_chaos : ChaosEngine;
  gwe_timeout_secs : Z;
}.

(** What an iteration meets.  Its awaits are the latency spike, the connect ([None]
    when dropped), the sends, and the reads with their pongs; [gi_cut] says that the
    worker's deadline, which is as long as the session's timeout and starts earlier,
    is what ends a read during which nothing more arrives. *)
Record GraphqlWsIo := mkGraphqlWsIo {
  gi_draw : f32;
  gi_pick : Z;
  gi_spike_cut : bool;
  gi_connect : option (result string (option string));
  gi_init_sent : SendAnswer;
  gi_init_arrivals : list WsIn;
  gi_init_pongs : list SendAnswer;
  gi_corrupt_sent : SendAnswer;
  gi_subscribe_sent : SendAnswer;
  gi_subscribed_at : Z;
  gi_arrivals : list WsIn;
  gi_pongs : list SendAnswer;
  gi_now : Z;
  gi_elapsed : duration;
  gi_cut : bool;
}.

Definition gw_initialize (io : GraphqlWsIo) (s : GraphqlWsSession) : Ready :=
  match gw_send (Text CONNECTION_INIT) (gi_init_sent io) s with
  | NotReady s => NotReady (gw_reset s)
  | CutOff s => CutOff s
  | IsReady s =>
      match gw_stream s with
      | None => NotReady (gw_reset s)
      | Some q =>
          match await_ack (gi_cut io) (gi_init_pongs io) (q ++ gi_init_arrivals io) s with
          | (Some (Ok _), s) => IsReady (set_initialized s)
          | (Some (Err _), s) => NotReady (gw_reset s)
          | (None, s) => CutOff s
          end
      end
  end.

Definition gw_make_ready (io : GraphqlWsIo) (s : GraphqlWsSession) : Ready :=
  match (if is_some (gw_stream s) then Some (Ok s) else (fun a => gw_connect a s) <$> gi_connect io) with
  | None => CutOff s
  | Some (Err _) => NotReady (gw_reset s)
  | Some (Ok s) => if gw_initialized s then IsReady s else gw_initialize io s
  end.

Definition gw_subscribe (e : GraphqlWsEngine) (io : GraphqlWsIo) (s : GraphqlWsSession) : Ready * option Z :=
  if gw_subscribed s then (IsReady s, None)
  else
    match subscription_frame (gwe_payload e) with
    | Err _ => (NotReady s, None)
    | Ok frame =>
        match gw_send (Text frame) (gi_subscribe_sent io) s with
        | NotReady s => (NotReady (gw_reset s), None)
        | CutOff s => (CutOff s, None)
        | IsReady s => (IsReady (set_subscribed (gi_subscribed_at io) s), Some 1)
        end
    end.

Definition gw_timings (now : Z) (s : GraphqlWsSession) : option Z * option Z * GraphqlWsSession :=
  let since t := wrap64 (as_micros (Z.max 0 (now - t))) in
  let ttfm := if gw_ttfm_recorded s then None else since <$> gw_subscribe_sent_at s in
  let interval := since <$> gw_last_message_at s in
  (ttfm, interval,
   mkGraphqlWsSession (gw_stream s) (gw_wire s) (gw_initialized s) (gw_subscribed s) (gw_subscribe_sent_at s)
     (Some now) true (gw_acked_at s)).

Definition gw_deliver (micros : Z) (fault : option ChaosFault) (ops : option Z) (now : Z)
    (ev : option ReadEvent) (s : GraphqlWsSession) : option RequestMetric * GraphqlWsSession :=
  let ok := b_status 200 (builder micros fault) in
  let failed := error_metric micros fault in
  match ev with
  | Some (RE_Next bytes) =>
      let '(ttfm, interval, s) := gw_timings now s in
      (Some (b_graphql_ws ops ttfm interval None (b_bytes bytes ok)), s)
  | Some (RE_Error errors bytes) =>
      (Some (b_graphql_ws ops None None (Some errors) (b_bytes bytes ok)), clear_subscribed s)
  | Some RE_Complete => (Some (b_graphql_ws ops None None None ok), clear_subscribed s)
  | Some RE_Ack => (Some (b_graphql_ws ops None None None ok), s)
  | Some RE_ConnectionError => (Some failed, gw_reset s)
  | Some RE_Timeout => (Some failed, s)
  | Some RE_Closed => (Some failed, gw_reset s)
  | None => (None, s)
  end.

(** The corrupted frame sent in place of a subscription. *)
Definition gw_corrupted (io : GraphqlWsIo) (fault : option ChaosFault) (s : GraphqlWsSession)
  : option RequestMetric * GraphqlWsSession :=
  let micros := as_micros (gi_elapsed io) in
  match gw_send (Binary WS_CORRUPTED) (gi_corrupt_sent io) s with
  | NotReady s => (Some (error_metric micros fault), gw_reset s)
  | CutOff s => (None, s)
  | IsReady s =>
      let '(ev, s) := gw_next_frame (gi_cut io) (gi_pongs io) (gi_arrivals io) s in
      match ev with
      | Some (RE_Next bytes) => (Some (b_bytes bytes (b_status 200 (builder micros fault))), s)
      | Some _ => (Some (error_metric micros fault), s)
      | None => (None, s)
      end
  end.

(** After the chaos draw and its sleep. *)
Definition gw_connected_turn (e : GraphqlWsEngine) (io : GraphqlWsIo) (fault : option ChaosFault)
    (s : GraphqlWsSession) : option RequestMetric * GraphqlWsSession :=
  let micros := as_micros (gi_elapsed io) in
  let failed := error_metric micros fault in
  match gw_make_ready io s with
  | NotReady s => (Some failed, s)
  | CutOff s => (None, s)
  | IsReady s =>
      match fault with
      | Some CorruptedPayload => gw_corrupted io fault s
      | _ =>
          match gw_subscribe e io s with
          | (NotReady s, _) => (Some failed, s)
          | (CutOff s, _) => (None, s)
          | (IsReady s, ops) =>
              let '(ev, s) := gw_next_frame (gi_cut io) (gi_pongs io) (gi_arrivals io) s in
              gw_deliver micros fault ops (gi_now io) ev s
          end
      end
  end.

Definition gw_iteration (e : GraphqlWsEngine) (io : GraphqlWsIo) (s : GraphqlWsSession)
  : option RequestMetric * GraphqlWsSession :=
  let fault := select_fault (gwe_chaos e) (gi_draw io) (gi_pick io) in
  match fault with
  | Some ConnectionDrop => (Some (error_metric (as_micros (gi_elapsed io)) fault), s)
  | Some (LatencySpike _) => if gi_spike_cut io then (None, s) else gw_connected_turn e io fault s
  | _ => gw_connected_turn e io fault s
  end.

(** [execute_iteration] makes a session of its own. *)
Definition gw_stateless_iteration (e : GraphqlWsEngine) (io : GraphqlWsIo) : option RequestMetric :=
  (gw_iteration e io GraphqlWsSession_new).1.

(** [shutdown]: the stream is taken and closed. *)
Definition gw_shutdown (s : GraphqlWsSession) : GraphqlWsSession :=
  mkGraphqlWsSession None (gw_wire s) (gw_initialized s) (gw_subscribed s) (gw_subscribe_sent_at s)
    (gw_last_message_at s) (gw_ttfm_recorded s) (gw_acked_at s).

#[export] Instance graphql_ws_engine (e : GraphqlWsEngine) : ProtocolEngine | 10 := {
  pe_session := GraphqlWsSession;
  pe_io := GraphqlWsIo;
  execute_iteration := fun _ io =>
    match gw_stateless_iteration e io with Some m => Returned m | None => NotFinished end;
  create_worker_context := fun _ => Some GraphqlWsSession_new;
  iteration_with_context := fun _ io s =>
    let '(m, s) := gw_iteration e io s in
    (match m with Some m => Returned m | None => NotFinished end, s);
}.

(** ** The session invariant *)

(** What may be written before the acknowledgement. *)
Definition handshake_message (m : Message) : Prop := m = Text CONNECTION_INIT \/ m = Text PONG_REPLY.

(** A session is closed and as new; or open and not acknowledged, with nothing but
    [connection_init] and pongs written and no subscription; or open and
    acknowledged on this connection, with [connection_init] first and nothing else
    but [connection_init] and pongs before the acknowledgement, and a subscription
    it believes active sent after it on this very connection. *)
Definition gw_inv (e : GraphqlWsEngine) (s : GraphqlWsSession) : Prop :=
  match gw_stream s with
  | None => s = GraphqlWsSession_new
  | Some _ =>
      if gw_initialized s then
        exists before after, gw_wire s = Text CONNECTION_INIT :: before ++ after /\
          gw_acked_at s = Some (S (length before)) /\ Forall handshake_message before /\
          (gw_subscribed s = true ->
           exists frame, subscription_frame (gwe_payload e) = Ok frame /\ Text frame ∈ after)
      else gw_subscribed s = false /\ gw_acked_at s = None /\
        (gw_wire s = [] \/ exists rest, gw_wire s = Text CONNECTION_INIT :: rest /\ Forall handshake_message rest)
  end.

Lemma gw_reset_inv e s : gw_inv e (gw_reset s).
Proof. done. Qed.

(** A send leaves the session alone but for the message. *)
Lemma gw_send_cases m a s :
  match gw_send m a s with
  | IsReady s' => s' = write_wire m s /\ is_Some (gw_stream s)
  | NotReady s' => s' = s
  | CutOff s' => is_Some (gw_stream s) /\ (s' = s \/ s' = write_wire m s)
  end.
Proof. unfold gw_send. destruct (gw_stream s); [|done]. destruct a as [| |[]]; eauto. Qed.

(** [s'] is [s] after reading: only the queue and, by pongs, the wire changed. *)
Definition read_from (s s' : GraphqlWsSession) : Prop :=
  is_Some (gw_stream s') /\
  (exists pongs, gw_wire s' = gw_wire s ++ pongs /\ Forall (fun m => m = Text PONG_REPLY) pongs) /\
  gw_initialized s' = gw_initialized s /\ gw_subscribed s' = gw_subscribed s /\
  gw_subscribe_sent_at s' = gw_subscribe_sent_at s /\ gw_last_message_at s' = gw_last_message_at s /\
  gw_ttfm_recorded s' = gw_ttfm_recorded s /\ gw_acked_at s' = gw_acked_at s.

Lemma read_from_queue l s : read_from s (set_queue l s).
Proof. split_and!; try done. exists []. by rewrite app_nil_r. Qed.

Lemma read_from_pong s s1 s' :
  s1 = s \/ s1 = write_wire (Text PONG_REPLY) s -> read_from s1 s' -> read_from s s'.
Proof.
  intros [-> | ->]; [done|]. intros (Hs & (pongs & Hw & Hp) & Hr). split_and!; try done; try apply Hr.
  exists (Text PONG_REPLY :: pongs). split; [|by constructor]. rewrite Hw. simpl. by rewrite <- (assoc_L (++)).
Qed.

Lemma gw_read_from cut pongs l s : read_from s (gw_read cut pongs l s).2.
Proof.
  revert pongs s. induction l as [|x l IH]; intros pongs s; simpl; [apply read_from_queue|].
  destruct (on_frame x); simpl; [apply read_from_queue| |apply IH].
  pose proof (gw_send_cases (Text PONG_REPLY) (hd Sent pongs) s) as Hc. destruct (gw_send _ _ _) as [s1|s1|s1].
  - eapply read_from_pong; [right; apply Hc|apply IH].
  - subst s1. apply IH.
  - eapply read_from_pong; [apply Hc|apply read_from_queue].
Qed.

(** Waiting for the acknowledgement is reading, and marks when it came. *)
Lemma await_ack_from cut pongs l s :
  match await_ack cut pongs l s with
  | (Some (Ok _), s') => exists s1, read_from s s1 /\ s' = mark_acked s1
  | (_, s') => read_from s s'
  end.
Proof.
  revert pongs s. induction l as [|x l IH]; intros pongs s; simpl.
  { destruct cut; apply read_from_queue. }
  destruct (on_frame x) as [[]| |]; simpl; try apply read_from_queue; try apply IH.
  - eexists. split; [apply read_from_queue|done].
  - pose proof (gw_send_cases (Text PONG_REPLY) (hd Sent pongs) s) as Hc.
    assert (HP : forall s1, s1 = s \/ s1 = write_wire (Text PONG_REPLY) s ->
      match await_ack cut (tl pongs) l s1 with
      | (Some (Ok _), s') => exists s1, read_from s s1 /\ s' = mark_acked s1
      | (_, s') => read_from s s'
      end).
    { intros s1 H1. specialize (IH (tl pongs) s1). destruct (await_ack _ _ _ _) as [[[[]|]|] s'].
      - destruct IH as (s2 & H2 & ->). exists s2. split; [by eapply read_from_pong|done].
      - by eapply read_from_pong.
      - by eapply read_from_pong. }
    destruct (gw_send _ _ _) as [s1|s1|s1].
    + apply HP. right. apply Hc.
    + apply HP. by left.
    + eapply read_from_pong; [apply Hc|apply read_from_queue].
Qed.

Lemma gw_next_from cut pongs l s : is_Some (gw_stream s) -> read_from s (gw_next_frame cut pongs l s).2.
Proof. intros [q Hq]. unfold gw_next_frame. rewrite Hq. apply gw_read_from. Qed.

Lemma pongs_handshake l : Forall (fun m => m = Text PONG_REPLY) l -> Forall handshake_message l.
Proof. intros Hl. eapply Forall_impl; [exact Hl|]. intros m ->. by right. Qed.

Lemma read_from_inv e s s' :
  read_from s s' -> is_Some (gw_stream s) -> gw_initialized s = true -> gw_inv e s -> gw_inv e s'.
Proof.
  intros ([q Hq] & (pongs & Hw & Hp) & Hi & Hs & _ & _ & _ & Ha) [q' Hq'] Hini. unfold gw_inv.
  rewrite Hq, Hq', Hi, Hini, Hw, Hs, Ha. intros (before & after & -> & Hk & Hb & Hr).
  exists before, (after ++ pongs). split; [by simpl; rewrite <- (assoc_L (++))|].
  split_and!; [done|done|]. intros Hsub. destruct (Hr Hsub) as (frame & Hf & Hin).
  exists frame. split; [done|]. by apply elem_of_app; left.
Qed.

(** Outcome of the set-up of an iteration: the session it leaves is sound, and
    open and acknowledged when the iteration goes on. *)
Definition ready_inv (e : GraphqlWsEngine) (r : Ready) : Prop :=
  match r with
  | IsReady s => gw_inv e s /\ is_Some (gw_stream s) /\ gw_initialized s = true
  | NotReady s | CutOff s => gw_inv e s
  end.

(** The messages of an unfinished handshake. *)
Definition unacked (w : list Message) : Prop :=
  w = [] \/ exists rest, w = Text CONNECTION_INIT :: rest /\ Forall handshake_message rest.

Lemma unacked_init w : unacked w -> exists rest, w ++ [Text CONNECTION_INIT] = Text CONNECTION_INIT :: rest /\ Forall handshake_message rest.
Proof.
  intros [-> | (rest & -> & Hr)]; [by exists []|]. exists (rest ++ [Text CONNECTION_INIT]). split; [done|].
  apply Forall_app. split; [done|]. constructor; [by left|constructor].
Qed.

Lemma gw_initialize_inv e io s :
  is_Some (gw_stream s) -> gw_initialized s = false -> gw_subscribed s = false -> gw_acked_at s = None ->
  unacked (gw_wire s) -> ready_inv e (gw_initialize io s).
Proof.
  intros [q Hq] Hi Hs Ha Hw. unfold gw_initialize.
  pose proof (gw_send_cases (Text CONNECTION_INIT) (gi_init_sent io) s) as Hc.
  assert (Hopen : forall s1, s1 = s \/ s1 = write_wire (Text CONNECTION_INIT) s -> gw_inv e s1).
  { intros s1 [-> | ->]; unfold gw_inv; simpl; rewrite Hq, Hi; split_and!; try done. right. by apply unacked_init. }
  destruct (gw_send _ _ _) as [s1|s1|s1]; [|apply gw_reset_inv|by apply Hopen, Hc].
  destruct Hc as [-> _]. cbn [gw_stream write_wire]. rewrite Hq.
  pose proof (await_ack_from (gi_cut io) (gi_init_pongs io) (q ++ gi_init_arrivals io)
    (write_wire (Text CONNECTION_INIT) s)) as HA.
  destruct (unacked_init _ Hw) as (rest & Hr & Hrest).
  destruct (await_ack _ _ _ _) as [[[[]|]|] s1]; [|apply gw_reset_inv|].
  - destruct HA as (s2 & ([q2 Hq2] & (pongs & Hw2 & Hp) & _ & Hs2 & _) & ->). simpl in Hw2, Hs2.
    unfold ready_inv, gw_inv. simpl. rewrite Hq2. split; [|done]. exists (rest ++ pongs), []. rewrite app_nil_r.
    rewrite Hw2, Hr. split_and!; [done|done| |congruence]. apply Forall_app. split; [done|by apply pongs_handshake].
  - destruct HA as ([q2 Hq2] & (pongs & Hw2 & Hp) & Hi2 & Hs2 & _ & _ & _ & Ha2). simpl in Hw2, Hi2, Hs2, Ha2.
    unfold ready_inv, gw_inv. rewrite Hq2, Hi2, Hi, Hs2, Ha2, Hw2, Hr. split_and!; [done|done|].
    right. exists (rest ++ pongs). split; [done|]. apply Forall_app. split; [done|by apply pongs_handshake].
Qed.

Lemma gw_make_ready_inv e io s : gw_inv e s -> ready_inv e (gw_make_ready io s).
Proof.
  intros Hs. unfold gw_make_ready. destruct (gw_stream s) as [q|] eqn:Hq; cbn [is_some].
  - destruct (gw_initialized s) eqn:Hi; [by split_and!; [|rewrite Hq|]|].
    unfold gw_inv in Hs. rewrite Hq, Hi in Hs. destruct Hs as (H1 & H2 & H3). by apply gw_initialize_inv; eauto.
  - unfold gw_inv in Hs. rewrite Hq in Hs. subst s. destruct (gi_connect io) as [[neg|]|]; simpl; [|done|done].
    unfold gw_connect. simpl. case_bool_decide; [|done]. simpl. apply gw_initialize_inv; try done. by left.
Qed.

(** An open, acknowledged session stays sound when a message is written. *)
Lemma write_inv e m s :
  gw_inv e s -> is_Some (gw_stream s) -> gw_initialized s = true -> gw_inv e (write_wire m s).
Proof.
  intros Hs [q Hq] Hi. unfold gw_inv in *. simpl. rewrite Hq, Hi in *. destruct Hs as (before & after & Hw & Hk & Hb & Hr).
  exists before, (after ++ [m]). rewrite Hw. split; [by simpl; rewrite <- (assoc_L (++))|]. split_and!; [done|done|].
  intros Hsub. destruct (Hr Hsub) as (f & Hf & Hin). exists f. split; [done|]. apply elem_of_app. by left.
Qed.

Lemma send_inv e m a s :
  gw_inv e s -> is_Some (gw_stream s) -> gw_initialized s = true ->
  match gw_send m a s with IsReady s' | NotReady s' | CutOff s' => gw_inv e s' end.
Proof.
  intros Hs Hq Hi. pose proof (gw_send_cases m a s) as Hc. destruct (gw_send m a s) as [s1|s1|s1].
  - destruct Hc as [-> _]. by apply write_inv.
  - by subst.
  - destruct Hc as [_ [-> | ->]]; [done|by apply write_inv].
Qed.

Lemma gw_subscribe_inv e io s :
  gw_inv e s -> is_Some (gw_stream s) -> gw_initialized s = true -> ready_inv e (gw_subscribe e io s).1.
Proof.
  intros Hs Hq Hi. unfold gw_subscribe. destruct (gw_subscribed s) eqn:Hb; [by simpl; eauto|].
  destruct (subscription_frame _) as [frame|] eqn:Ef; [|done].
  pose proof (send_inv e (Text frame) (gi_subscribe_sent io) s Hs Hq Hi) as Hsi.
  pose proof (gw_send_cases (Text frame) (gi_subscribe_sent io) s) as Hc.
  destruct (gw_send _ _ _) as [s1|s1|s1]; [|apply gw_reset_inv|done].
  destruct Hc as [-> _]. split; [|done]. destruct Hq as [q Hq]. unfold gw_inv in *. simpl in *. rewrite Hq, Hi in *.
  destruct Hs as (before & after & Hw & Hk & Hbf & _). exists before, (after ++ [Text frame]). rewrite Hw.
  split; [by simpl; rewrite <- (assoc_L (++))|]. split_and!; [done|done|]. intros _. exists frame. split; [done|].
  apply elem_of_app. right. by apply list_elem_of_singleton.
Qed.

Lemma gw_deliver_inv e micros fault ops now ev s :
  gw_inv e s -> is_Some (gw_stream s) -> gw_initialized s = true ->
  gw_inv e (gw_deliver micros fault ops now ev s).2.
Proof.
  intros Hs [q Hq] Hi. destruct ev as [[]|]; simpl; try done; unfold gw_inv in *; simpl; rewrite Hq, Hi in *;
    destruct Hs as (before & after & Hw & Hk & Hbf & Hr); exists before, after; by split_and!.
Qed.

(** Reading in an open, acknowledged session. *)
Lemma next_inv e cut pongs l s :
  gw_inv e s -> is_Some (gw_stream s) -> gw_initialized s = true ->
  gw_inv e (gw_next_frame cut pongs l s).2 /\ is_Some (gw_stream (gw_next_frame cut pongs l s).2) /\
  gw_initialized (gw_next_frame cut pongs l s).2 = true.
Proof.
  intros Hs Hq Hi. pose proof (gw_next_from cut pongs l s Hq) as HF.
  split; [by eapply read_from_inv|]. destruct HF as (? & _ & H2 & _). by rewrite H2.
Qed.

Lemma gw_corrupted_inv e io fault s :
  gw_inv e s -> is_Some (gw_stream s) -> gw_initialized s = true -> gw_inv e (gw_corrupted io fault s).2.
Proof.
  intros Hs Hq Hi. unfold gw_corrupted.
  pose proof (send_inv e (Binary WS_CORRUPTED) (gi_corrupt_sent io) s Hs Hq Hi) as Hsi.
  pose proof (gw_send_cases (Binary WS_CORRUPTED) (gi_corrupt_sent io) s) as Hc.
  destruct (gw_send _ _ _) as [s1|s1|s1]; [|apply gw_reset_inv|done].
  destruct Hc as [-> _]. destruct (next_inv e (gi_cut io) (gi_pongs io) (gi_arrivals io) _ Hsi Hq Hi) as [H2 _].
  destruct (gw_next_frame _ _ _ _) as [[[]|] s2]; done.
Qed.

Lemma gw_iteration_inv e io s : gw_inv e s -> gw_inv e (gw_iteration e io s).2.
Proof.
  intros Hs. unfold gw_iteration. set (fault := select_fault _ _ _). clearbody fault.
  assert (HT : gw_inv e (gw_connected_turn e io fault s).2).
  { unfold gw_connected_turn. pose proof (gw_make_ready_inv e io s Hs) as HR.
    destruct (gw_make_ready io s) as [s1|s1|s1]; [|done|done]. destruct HR as (H1 & Hq1 & Hi1).
    destruct (decide (fault = Some CorruptedPayload)) as [->|Hn]; [by apply gw_corrupted_inv|].
    assert (HS : gw_inv e (match gw_subscribe e io s1 with
        | (NotReady s, _) => (Some (error_metric (as_micros (gi_elapsed io)) fault), s)
        | (CutOff s, _) => (None, s)
        | (IsReady s, ops) =>
            let '(ev, s) := gw_next_frame (gi_cut io) (gi_pongs io) (gi_arrivals io) s in
            gw_deliver (as_micros (gi_elapsed io)) fault ops (gi_now io) ev s
        end).2).
    { pose proof (gw_subscribe_inv e io s1 H1 Hq1 Hi1) as H2.
      destruct (gw_subscribe e io s1) as [[s2|s2|s2] ops]; try done. destruct H2 as (H2 & Hq2 & Hi2).
      destruct (next_inv e (gi_cut io) (gi_pongs io) (gi_arrivals io) s2 H2 Hq2 Hi2) as (H3 & Hq3 & Hi3).
      destruct (gw_next_frame _ _ _ _) as [ev s3]. by apply gw_deliver_inv. }
    destruct fault as [[]|]; exact HS || done. }
  destruct fault as [[ms| | |]|]; try exact HT; [|done]. by destruct (gi_spike_cut io).
Qed.

(** Every session a worker can hold: new, then after any iterations, each completed
    or dropped at any of its awaits.  The worker calls [shutdown] last, after its
    loop, and drops the session, so it is not a step. *)
Inductive gw_reachable (e : GraphqlWsEngine) : GraphqlWsSession -> Prop :=
  | gwr_new : gw_reachable e GraphqlWsSession_new
  | gwr_step s io : gw_reachable e s -> gw_reachable e (gw_iteration e io s).2.

(** C18. The subscription session between iterations, whatever the server sends and
    wherever the worker's deadline drops an iteration: it is closed and as new; or
    open without an acknowledgement, unsubscribed, with nothing but
    [connection_init] and pongs written; or open and acknowledged on this very
    connection, with [connection_init] written first and nothing but
    [connection_init] and pongs before the acknowledgement, and, if it believes a
    subscription active, with the subscribe frame sent on this connection after the
    acknowledgement. *)
Theorem graphql_ws_session_invariant e s : gw_reachable e s -> gw_inv e s.
Proof. induction 1 as [|s io _ IH]; [done|]. by apply gw_iteration_inv. Qed.

(** ** What an iteration reports *)

Definition no_fault (e : GraphqlWsEngine) (io : GraphqlWsIo) : Prop :=
  select_fault (gwe_chaos e) (gi_draw io) (gi_pick io) = None.

(** The steady state: an open, acknowledged session. *)
Lemma gw_steady e io s q :
  no_fault e io -> gw_stream s = Some q -> gw_initialized s = true ->
  gw_iteration e io s =
  match gw_subscribe e io s with
  | (NotReady s, _) => (Some (error_metric (as_micros (gi_elapsed io)) None), s)
  | (CutOff s, _) => (None, s)
  | (IsReady s, ops) =>
      let '(ev, s) := gw_next_frame (gi_cut io) (gi_pongs io) (gi_arrivals io) s in
      gw_deliver (as_micros (gi_elapsed io)) None ops (gi_now io) ev s
  end.
Proof.
  intros Hf Hq Hi. unfold no_fault in Hf. unfold gw_iteration, gw_connected_turn, gw_make_ready.
  rewrite Hf, Hq. cbn [is_some]. rewrite Hi. destruct (gw_subscribe e io s) as [[] ?]; reflexivity.
Qed.

Fixpoint gw_run (e : GraphqlWsEngine) (ios : list GraphqlWsIo) (s : GraphqlWsSession)
  : list (option RequestMetric) * GraphqlWsSession :=
  match ios with
  | [] => ([], s)
  | io :: ios =>
      let '(m, s) := gw_iteration e io s in
      let '(ms, s) := gw_run e ios s in (m :: ms, s)
  end.

(** A turn in which nothing arrives. *)
Definition silent (e : GraphqlWsEngine) (io : GraphqlWsIo) : Prop :=
  no_fault e io /\ gi_arrivals io = [] /\ gi_cut io = false.

Lemma silent_turn e io s :
  silent e io -> gw_stream s = Some [] -> gw_initialized s = true -> gw_subscribed s = true ->
  gw_iteration e io s = (Some (error_metric (as_micros (gi_elapsed io)) None), s).
Proof.
  intros (Hf & Ha & Hc) Hq Hi Hs. rewrite (gw_steady e io s [] Hf Hq Hi). unfold gw_subscribe. rewrite Hs.
  unfold gw_next_frame. rewrite Hq, Ha. simpl. rewrite Hc. destruct s; simpl in *; by subst.
Qed.

Lemma silent_run e ios s :
  Forall (silent e) ios -> gw_stream s = Some [] -> gw_initialized s = true -> gw_subscribed s = true ->
  gw_run e ios s = ((fun io => Some (error_metric (as_micros (gi_elapsed io)) None)) <$> ios, s).
Proof.
  intros HF Hq Hi Hs. induction HF as [|io ios Hio _ IH]; [done|]. cbn [gw_run].
  rewrite (silent_turn e io s Hio Hq Hi Hs), IH. done.
Qed.

(** A subscription that ends during a corrupted-payload turn is never renewed:
    the [complete] is read but the session goes on believing in a subscription
    the server has ended, so as long as the server stays silent every later
    iteration fails and no new [subscribe] is ever written. *)
Theorem graphql_ws_complete_lost e io ios text s s1 m :
  gw_stream s = Some [] -> gw_initialized s = true -> gw_subscribed s = true ->
  select_fault (gwe_chaos e) (gi_draw io) (gi_pick io) = Some CorruptedPayload ->
  gi_corrupt_sent io = Sent -> gi_arrivals io = [Some (Ok (Text text))] -> decode_frame text = SF_Complete ->
  gw_iteration e io s = (m, s1) -> Forall (silent e) ios ->
  gw_subscribed s1 = true /\
  Forall (fun r => exists m', r = Some m' /\ is_error m' = true) (gw_run e ios s1).1 /\
  gw_wire (gw_run e ios s1).2 = gw_wire s ++ [Binary WS_CORRUPTED].
Proof.
  intros Hq Hi Hs Hf Ho Ha Hd E HF. unfold gw_iteration, gw_connected_turn, gw_make_ready in E. rewrite Hf, Hq in E. simpl in E.
  rewrite Hi in E. unfold gw_corrupted, gw_send in E. rewrite Hq, Ho in E.
  unfold gw_next_frame in E. cbn [gw_stream write_wire] in E. rewrite Hq, Ha in E. simpl in E. rewrite Hd in E.
  injection E as <- <-. rewrite silent_run by done. split_and!; [done| |done].
  simpl. apply Forall_fmap, Forall_true. intros io'. by eexists.
Qed.

(** Operations that are not counted: when the first read after a [subscribe]
    times out, its metric carries no sample, and the first message, reported by a
    later iteration with its time since the [subscribe], comes without an
    operation; so a subscription was started and none is counted. *)
Theorem graphql_ws_operation_lost e io1 io2 b s frame :
  gw_stream s = Some [] -> gw_initialized s = true -> gw_subscribed s = false ->
  subscription_frame (gwe_payload e) = Ok frame -> gi_subscribe_sent io1 = Sent -> silent e io1 ->
  no_fault e io2 -> gi_arrivals io2 = [Some (Ok (Binary b))] ->
  exists m1 m2 ttfm s', gw_run e [io1; io2] s = ([Some m1; Some m2], s') /\
    Text frame ∈ gw_wire s' /\ rm_graphql_ws m1 = None /\
    rm_graphql_ws m2 = Some (mkGraphqlWsSample None (Some ttfm) None None).
Proof.
  intros Hq Hi Hs Hfr Ho (Hf1 & Ha1 & Hc1) Hf2 Ha2. cbn [gw_run].
  rewrite (gw_steady e io1 s [] Hf1 Hq Hi). unfold gw_subscribe. rewrite Hs, Hfr.
  unfold gw_send. rewrite Hq, Ho. unfold gw_next_frame. cbn [gw_stream set_subscribed write_wire]. rewrite Hq, Ha1.
  cbn [app gw_read]. rewrite Hc1. cbn [gw_deliver set_queue write_wire set_subscribed gw_wire gw_initialized gw_subscribed gw_subscribe_sent_at gw_last_message_at gw_ttfm_recorded gw_acked_at].
  match goal with |- context [gw_iteration e io2 ?x] => rewrite (gw_steady e io2 x [] Hf2 eq_refl Hi) end. unfold gw_subscribe, gw_next_frame. simpl. rewrite Ha2. simpl.
  do 4 eexists. split; [reflexivity|]. split_and!; [|done|done].
  simpl. apply elem_of_app. right. by apply list_elem_of_singleton.
Qed.

(** *** Dropped iterations *)

(** A [connection_init] is repeated on the same connection: an iteration dropped
    while it waits for the acknowledgement leaves the connection open and
    unacknowledged, and the next one sends [connection_init] again instead of
    waiting for the answer to the first. *)
Theorem graphql_ws_init_repeated e io1 io2 text :
  no_fault e io1 -> gi_connect io1 = Some (Ok (Some SUBPROTOCOL)) -> gi_init_sent io1 = Sent ->
  gi_init_arrivals io1 = [] -> gi_cut io1 = true ->
  gi_init_sent io2 = Sent -> gi_init_arrivals io2 = [Some (Ok (Text text))] -> decode_frame text = SF_Ack ->
  exists s1 s2, gw_iteration e io1 GraphqlWsSession_new = (None, s1) /\ gw_make_ready io2 s1 = IsReady s2 /\
    gw_wire s2 = [Text CONNECTION_INIT; Text CONNECTION_INIT].
Proof.
  intros Hf Hc Hi Ha Hcut Hi2 Ha2 Hd. unfold no_fault in Hf.
  unfold gw_iteration, gw_connected_turn, gw_make_ready, gw_initialize, gw_connect. rewrite Hf, Hc, Hi, Ha, Hcut.
  simpl. eexists _, _. split; [reflexivity|]. rewrite Hi2, Ha2. simpl. rewrite Hd. simpl. by split.
Qed.

(** A subscription is started twice under the same id: an iteration dropped while
    its [subscribe] is being flushed leaves the frame with the stream, and the next
    one, which finds the session unsubscribed, sends it again. *)
Theorem graphql_ws_subscribe_repeated e io1 io2 s q frame :
  no_fault e io1 -> gw_stream s = Some q -> gw_initialized s = true -> gw_subscribed s = false ->
  subscription_frame (gwe_payload e) = Ok frame ->
  gi_subscribe_sent io1 = SendCut true -> gi_subscribe_sent io2 = Sent ->
  exists s1 s2, gw_iteration e io1 s = (None, s1) /\ gw_subscribe e io2 s1 = (IsReady s2, Some 1) /\
    gw_wire s2 = gw_wire s ++ [Text frame; Text frame].
Proof.
  intros Hf Hq Hi Hs Hfr H1 H2. rewrite (gw_steady e io1 s q Hf Hq Hi). unfold gw_subscribe at 1. rewrite Hs, Hfr.
  unfold gw_send. rewrite Hq, H1. eexists _, _. split; [reflexivity|]. unfold gw_subscribe, gw_send. simpl.
  rewrite Hs, Hfr, Hq, H2. split; [reflexivity|]. simpl. by rewrite <- (assoc_L (++)).
Qed.

(** *** Time to first message *)

(** A subscription is open whose first message has not been reported. *)
Definition awaiting_first (s : GraphqlWsSession) : Z :=
  if is_some (gw_subscribe_sent_at s) && negb (gw_ttfm_recorded s) then 1 else 0.

(** This iteration writes a [subscribe]. *)
Definition subscribes (e : GraphqlWsEngine) (io : GraphqlWsIo) (s : GraphqlWsSession) : Z :=
  match select_fault (gwe_chaos e) (gi_draw io) (gi_pick io) with
  | Some ConnectionDrop | Some CorruptedPayload => 0
  | fault =>
      if match fault with Some (LatencySpike _) => gi_spike_cut io | _ => false end then 0 else
      match gw_make_ready io s with
      | IsReady s => match gw_subscribe e io s with (IsReady _, Some _) => 1 | _ => 0 end
      | _ => 0
      end
  end.

Definition reports_ttfm (r : option RequestMetric) : Z :=
  match r ≫= rm_graphql_ws with
  | Some x => if is_some (gqws_ttfm_us x) then 1 else 0
  | None => 0
  end.

Lemma awaiting_bounds s : 0 <= awaiting_first s <= 1.
Proof. unfold awaiting_first. destruct (_ && _); lia. Qed.

Lemma awaiting_reset s : awaiting_first (gw_reset s) = 0.
Proof. done. Qed.

#[local] Ltac awaits := rewrite ?awaiting_reset; unfold reports_ttfm; cbn; rewrite ?awaiting_reset; lia.

Lemma read_from_awaiting s s' : read_from s s' -> awaiting_first s' = awaiting_first s.
Proof. intros (_ & _ & _ & _ & H1 & _ & H2 & _). unfold awaiting_first. by rewrite H1, H2. Qed.

Lemma gw_make_ready_awaiting io s :
  match gw_make_ready io s with IsReady s' | NotReady s' | CutOff s' => awaiting_first s' <= awaiting_first s end.
Proof.
  pose proof (awaiting_bounds s) as Hb.
  assert (HI : forall s0, awaiting_first s0 = awaiting_first s ->
    match gw_initialize io s0 with IsReady s' | NotReady s' | CutOff s' => awaiting_first s' <= awaiting_first s end).
  { intros s0 H0. unfold gw_initialize.
    pose proof (gw_send_cases (Text CONNECTION_INIT) (gi_init_sent io) s0) as Hc.
    destruct (gw_send _ _ _) as [s1|s1|s1]; [|awaits|].
    2: { destruct Hc as [_ [-> | ->]]; [lia|]. change (awaiting_first (write_wire _ s0)) with (awaiting_first s0). lia. }
    destruct Hc as [-> [q Hq]]. cbn [gw_stream write_wire]. rewrite Hq.
    pose proof (await_ack_from (gi_cut io) (gi_init_pongs io) (q ++ gi_init_arrivals io)
      (write_wire (Text CONNECTION_INIT) s0)) as HA.
    destruct (await_ack _ _ _ _) as [[[[]|]|] s1]; [|awaits|].
    - destruct HA as (s2 & HA%read_from_awaiting & ->).
      change (awaiting_first (write_wire (Text CONNECTION_INIT) s0)) with (awaiting_first s0) in HA.
      change (awaiting_first (set_initialized (mark_acked s2))) with (awaiting_first s2). lia.
    - apply read_from_awaiting in HA.
      change (awaiting_first (write_wire (Text CONNECTION_INIT) s0)) with (awaiting_first s0) in HA. lia. }
  unfold gw_make_ready. destruct (gw_stream s) as [q|] eqn:Hq; simpl.
  - destruct (gw_initialized s); [lia|by apply HI].
  - destruct (gi_connect io) as [[neg|]|]; unfold gw_connect; simpl; [|awaits|lia]. case_bool_decide; [|awaits].
    destruct (gw_initialized s); simpl; [unfold awaiting_first; simpl; lia|]. by apply HI.
Qed.

Lemma gw_deliver_ttfm micros fault ops now ev s :
  let '(m, s') := gw_deliver micros fault ops now ev s in
  reports_ttfm m + awaiting_first s' <= awaiting_first s.
Proof.
  pose proof (awaiting_bounds s) as Hb. unfold gw_deliver. destruct ev as [[]|]; simpl.
  - unfold reports_ttfm, awaiting_first in *. simpl.
    destruct (gw_ttfm_recorded s), (gw_subscribe_sent_at s); simpl in *; lia.
  - change (awaiting_first (clear_subscribed s)) with (awaiting_first s). unfold reports_ttfm. simpl. lia.
  - change (awaiting_first (clear_subscribed s)) with (awaiting_first s). unfold reports_ttfm. simpl. lia.
  - unfold reports_ttfm. simpl. lia.
  - unfold reports_ttfm, awaiting_first at 1. simpl. lia.
  - unfold reports_ttfm. simpl. lia.
  - unfold reports_ttfm, awaiting_first at 1. simpl. lia.
  - unfold reports_ttfm. simpl. lia.
Qed.

Lemma next_awaiting cut pongs l s : awaiting_first (gw_next_frame cut pongs l s).2 = awaiting_first s.
Proof. unfold gw_next_frame. destruct (gw_stream s); [|done]. apply read_from_awaiting, gw_read_from. Qed.

Lemma gw_subscribe_ttfm e io fault s1 :
  let '(m, s') := match gw_subscribe e io s1 with
    | (NotReady s, _) => (Some (error_metric (as_micros (gi_elapsed io)) fault), s)
    | (CutOff s, _) => (None, s)
    | (IsReady s, ops) =>
        let '(ev, s) := gw_next_frame (gi_cut io) (gi_pongs io) (gi_arrivals io) s in
        gw_deliver (as_micros (gi_elapsed io)) fault ops (gi_now io) ev s
    end in
  reports_ttfm m + awaiting_first s' <=
  match gw_subscribe e io s1 with (IsReady _, Some _) => 1 | _ => 0 end + awaiting_first s1.
Proof.
  pose proof (awaiting_bounds s1) as Hb. unfold gw_subscribe.
  assert (HD : forall ops s2, let '(m, s') :=
    let '(ev, s) := gw_next_frame (gi_cut io) (gi_pongs io) (gi_arrivals io) s2 in
    gw_deliver (as_micros (gi_elapsed io)) fault ops (gi_now io) ev s in
    reports_ttfm m + awaiting_first s' <= awaiting_first s2).
  { intros ops s2. pose proof (next_awaiting (gi_cut io) (gi_pongs io) (gi_arrivals io) s2) as HN.
    destruct (gw_next_frame _ _ _ _) as [ev s3]. simpl in HN.
    pose proof (gw_deliver_ttfm (as_micros (gi_elapsed io)) fault ops (gi_now io) ev s3) as HD.
    destruct (gw_deliver _ _ _ _ _ _). lia. }
  destruct (gw_subscribed s1); [specialize (HD None s1); destruct (let '(ev, s) := _ in _); lia|].
  destruct (subscription_frame _) as [frame|]; [|awaits].
  pose proof (gw_send_cases (Text frame) (gi_subscribe_sent io) s1) as Hc.
  destruct (gw_send _ _ _) as [s2|s2|s2]; [|awaits|].
  - specialize (HD (Some 1) (set_subscribed (gi_subscribed_at io) s2)).
    change (awaiting_first (set_subscribed _ s2)) with 1 in HD. destruct (let '(ev, s) := _ in _). lia.
  - unfold reports_ttfm. simpl. destruct Hc as [_ [-> | ->]]; [lia|].
    change (awaiting_first (write_wire _ s1)) with (awaiting_first s1). lia.
Qed.

Lemma gw_corrupted_ttfm io fault s1 :
  let '(m, s') := gw_corrupted io fault s1 in reports_ttfm m + awaiting_first s' <= awaiting_first s1.
Proof.
  pose proof (awaiting_bounds s1) as Hb. unfold gw_corrupted.
  pose proof (gw_send_cases (Binary WS_CORRUPTED) (gi_corrupt_sent io) s1) as Hc.
  destruct (gw_send _ _ _) as [s2|s2|s2]; [|awaits|].
  - destruct Hc as [-> _]. pose proof (next_awaiting (gi_cut io) (gi_pongs io) (gi_arrivals io)
      (write_wire (Binary WS_CORRUPTED) s1)) as HN.
    change (awaiting_first (write_wire _ s1)) with (awaiting_first s1) in HN.
    destruct (gw_next_frame _ _ _ _) as [ev s3]. simpl in HN.
    destruct ev as [[]|]; unfold reports_ttfm; simpl; lia.
  - unfold reports_ttfm. simpl. destruct Hc as [_ [-> | ->]]; [lia|].
    change (awaiting_first (write_wire _ s1)) with (awaiting_first s1). lia.
Qed.

Lemma gw_iteration_ttfm e io s :
  let '(m, s') := gw_iteration e io s in
  reports_ttfm m + awaiting_first s' <= subscribes e io s + awaiting_first s.
Proof.
  pose proof (awaiting_bounds s) as Hb. unfold gw_iteration, subscribes, gw_connected_turn.
  set (fault := select_fault _ _ _). clearbody fault.
  pose proof (gw_make_ready_awaiting io s) as HR.
  destruct fault as [[ms| | |]|]; try destruct (gi_spike_cut io); try awaits;
    destruct (gw_make_ready io s) as [s1|s1|s1]; try awaits.
  all: try (pose proof (gw_corrupted_ttfm io (Some CorruptedPayload) s1) as HC; destruct (gw_corrupted _ _ _); lia).
  all: match goal with |- context [error_metric _ ?f] => pose proof (gw_subscribe_ttfm e io f s1) as HS end;
    destruct (match gw_subscribe e io s1 with (NotReady s, _) => _ | (CutOff s, _) => _ | (IsReady s, ops) => _ end); lia.
Qed.

Fixpoint total_subscribes (e : GraphqlWsEngine) (ios : list GraphqlWsIo) (s : GraphqlWsSession) : Z :=
  match ios with
  | [] => 0
  | io :: ios => subscribes e io s + total_subscribes e ios (gw_iteration e io s).2
  end.

(** The time to the first message is reported at most once per subscription: over
    any sequence of iterations, cut off or not, across errors and reconnects, no
    more such times are reported than [subscribe] frames were written. *)
Theorem graphql_ws_ttfm_once e ios :
  Zsum (reports_ttfm <$> (gw_run e ios GraphqlWsSession_new).1) <= total_subscribes e ios GraphqlWsSession_new.
Proof.
  assert (HR : forall s, Zsum (reports_ttfm <$> (gw_run e ios s).1) + awaiting_first (gw_run e ios s).2 <=
    total_subscribes e ios s + awaiting_first s).
  { induction ios as [|io ios IH]; intros s; [simpl; lia|]. cbn [gw_run total_subscribes].
    pose proof (gw_iteration_ttfm e io s) as H1. destruct (gw_iteration e io s) as [m s1]. cbn [snd] in *.
    specialize (IH s1). destruct (gw_run e ios s1) as [ms s']. csimpl in *. lia. }
  specialize (HR GraphqlWsSession_new). pose proof (awaiting_bounds (gw_run e ios GraphqlWsSession_new).2).
  change (awaiting_first GraphqlWsSession_new) with 0 in HR. lia.
Qed.
End graphql_ws.

(** ** Witnesses *)

(** A codec that knows the two frames used below. *)
#[local] Instance demo_json : Json := {
  json_parse := fun b =>
    if bool_decide (b = as_bytes "complete") then Ok (JObject [("type"%string, JString "complete")])
    else if bool_decide (b = as_bytes "ack") then Ok (JObject [("type"%string, JString "connection_ack")])
    else Err "?"%string;
  json_print := fun _ => as_bytes "frame";
}.

Definition demo_gw (chaos : bool) : GraphqlWsEngine :=
  mkGraphqlWsEngine (mkSubscriptionPayload "subscription { x }" None None) []
    (mkChaosEngine chaos (f32_of_Z 1)) 5.

Definition demo_gw_io (pick : Z) (arrivals : list WsIn) : GraphqlWsIo :=
  mkGraphqlWsIo f64_zero pick false (Some (Ok (Some SUBPROTOCOL))) Sent [Some (Ok (Text (as_bytes "ack")))] []
    Sent Sent 1000 arrivals [] 5000 9000 false.

Definition demo_open (subscribed : bool) : GraphqlWsSession :=
  mkGraphqlWsSession (Some []) [Text CONNECTION_INIT] true subscribed None None false (Some 1%nat).

Lemma graphql_ws_session_invariant_witness :
  gw_inv (demo_gw false) (gw_iteration (demo_gw false) (demo_gw_io 0 [Some (Ok (Binary (as_bytes "x")))])
    GraphqlWsSession_new).2.
Proof. apply graphql_ws_session_invariant, gwr_step, gwr_new. Defined.

Lemma graphql_ws_complete_lost_witness :
  let io := demo_gw_io 1 [Some (Ok (Text (as_bytes "complete")))] in
  gw_subscribed (gw_iteration (demo_gw true) io (demo_open true)).2 = true.
Proof.
  cbv zeta.
  destruct (gw_iteration (demo_gw true) (demo_gw_io 1 [Some (Ok (Text (as_bytes "complete")))])
    (demo_open true)) as [m s1] eqn:E.
  refine (proj1 (graphql_ws_complete_lost (demo_gw true)
    (demo_gw_io 1 [Some (Ok (Text (as_bytes "complete")))]) [] (as_bytes "complete") (demo_open true) s1 m
    eq_refl eq_refl eq_refl _ eq_refl eq_refl _ E (Forall_nil_2 _))).
  - vm_compute. reflexivity.
  - vm_compute. reflexivity.
Defined.

Lemma graphql_ws_operation_lost_witness :
  exists m1 m2 ttfm s', gw_run (demo_gw false)
      [demo_gw_io 0 []; demo_gw_io 0 [Some (Ok (Binary (as_bytes "x")))]] (demo_open false) = ([Some m1; Some m2], s') /\
    Text (as_bytes "frame") ∈ gw_wire s' /\ rm_graphql_ws m1 = None /\
    rm_graphql_ws m2 = Some (mkGraphqlWsSample None (Some ttfm) None None).
Proof.
  apply (graphql_ws_operation_lost (demo_gw false) _ _ (as_bytes "x") (demo_open false) (as_bytes "frame"));
    try reflexivity. by split_and!.
Defined.

Definition demo_gw_cut (init subscribe : SendAnswer) (acks : list WsIn) : GraphqlWsIo :=
  mkGraphqlWsIo f64_zero 0 false (Some (Ok (Some SUBPROTOCOL))) init acks [] Sent subscribe 1000 [] [] 5000 9000 true.

Lemma graphql_ws_init_repeated_witness :
  exists s1 s2, gw_iteration (demo_gw false) (demo_gw_cut Sent Sent []) GraphqlWsSession_new = (None, s1) /\
    gw_make_ready (demo_gw_cut Sent Sent [Some (Ok (Text (as_bytes "ack")))]) s1 = IsReady s2 /\
    gw_wire s2 = [Text CONNECTION_INIT; Text CONNECTION_INIT].
Proof. by apply (graphql_ws_init_repeated (demo_gw false) _ _ (as_bytes "ack")). Defined.

Lemma graphql_ws_subscribe_repeated_witness :
  exists s1 s2, gw_iteration (demo_gw false) (demo_gw_cut Sent (SendCut true) []) (demo_open false) = (None, s1) /\
    gw_subscribe (demo_gw false) (demo_gw_cut Sent Sent []) s1 = (IsReady s2, Some 1) /\
    gw_wire s2 = [Text CONNECTION_INIT; Text (as_bytes "frame"); Text (as_bytes "frame")].
Proof. by apply (graphql_ws_subscribe_repeated (demo_gw false) _ _ (demo_open false) [] (as_bytes "frame")). Defined.
