(* ===== verification/Proto.v ===== *)
(** Wire types of the control plane
    ([proto/loadtesting/v1/load_test_controller.proto]) and the error types of
    the two daemons.  Enumerations travel as [i32]: each has its number
    ([*_to_i32]) and the partial inverse ([*_try_from]) that prost generates. *)

From S2P Require Import Prelude RustStr Float.

#[local] Open Scope Z_scope.

(** ** Enumerations *)

Inductive ProtoWorkerState :=
  | PWS_Unspecified | PWS_Ready | PWS_Running | PWS_Draining | PWS_Error | PWS_Unregistered.

#[export] Instance ProtoWorkerState_eq_dec : EqDecision ProtoWorkerState.
Proof. solve_decision. Defined.

Definition ProtoWorkerState_to_i32 (s : ProtoWorkerState) : Z :=
  match s with
  | PWS_Unspecified => 0 | PWS_Ready => 1 | PWS_Running => 2
  | PWS_Draining => 3 | PWS_Error => 4 | PWS_Unregistered => 5
  end.

Definition ProtoWorkerState_try_from (n : Z) : option ProtoWorkerState :=
  match n with
  | 0 => Some PWS_Unspecified | 1 => Some PWS_Ready | 2 => Some PWS_Running
  | 3 => Some PWS_Draining | 4 => Some PWS_Error | 5 => Some PWS_Unregistered
  | _ => None
  end.

Inductive CommandType := CT_Unspecified | CT_Start | CT_Stop | CT_Abort.

#[export] Instance CommandType_eq_dec : EqDecision CommandType.
Proof. solve_decision. Defined.

Definition CommandType_to_i32 (c : CommandType) : Z :=
  match c with CT_Unspecified => 0 | CT_Start => 1 | CT_Stop => 2 | CT_Abort => 3 end.

Definition CommandType_try_from (n : Z) : option CommandType :=
  match n with
  | 0 => Some CT_Unspecified | 1 => Some CT_Start | 2 => Some CT_Stop | 3 => Some CT_Abort
  | _ => None
  end.

Inductive HeartbeatDirective := HD_Unspecified | HD_Continue | HD_Synchronize | HD_Abort.

Definition HeartbeatDirective_to_i32 (d : HeartbeatDirective) : Z :=
  match d with HD_Unspecified => 0 | HD_Continue => 1 | HD_Synchronize => 2 | HD_Abort => 3 end.

Definition HeartbeatDirective_try_from (n : Z) : option HeartbeatDirective :=
  match n with
  | 0 => Some HD_Unspecified | 1 => Some HD_Continue | 2 => Some HD_Synchronize
  | 3 => Some HD_Abort
  | _ => None
  end.

Inductive CommandStatus :=
  | CS_Unspecified | CS_Acknowledged | CS_Completed | CS_Failed | CS_Rejected.

#[export] Instance CommandStatus_eq_dec : EqDecision CommandStatus.
Proof. solve_decision. Defined.

Definition CommandStatus_to_i32 (s : CommandStatus) : Z :=
  match s with
  | CS_Unspecified => 0 | CS_Acknowledged => 1 | CS_Completed => 2 | CS_Failed => 3 | CS_Rejected => 4
  end.

(** [RegistrationStatus::Accepted as i32]. *)
Definition REGISTRATION_ACCEPTED : Z := 1.

Inductive ErrorClass :=
  | EC_Unspecified | EC_Timeout | EC_ConnectionRefused | EC_ConnectionReset | EC_DnsFailure
  | EC_TlsError | EC_Http4xx | EC_Http5xx | EC_ProtocolError | EC_PayloadError | EC_Other.

#[export] Instance ErrorClass_eq_dec : EqDecision ErrorClass.
Proof. solve_decision. Defined.

Definition ErrorClass_to_i32 (c : ErrorClass) : Z :=
  match c with
  | EC_Unspecified => 0 | EC_Timeout => 1 | EC_ConnectionRefused => 2 | EC_ConnectionReset => 3
  | EC_DnsFailure => 4 | EC_TlsError => 5 | EC_Http4xx => 6 | EC_Http5xx => 7
  | EC_ProtocolError => 8 | EC_PayloadError => 9 | EC_Other => 10
  end.

Definition ErrorClass_try_from (n : Z) : option ErrorClass :=
  match n with
  | 0 => Some EC_Unspecified | 1 => Some EC_Timeout | 2 => Some EC_ConnectionRefused
  | 3 => Some EC_ConnectionReset | 4 => Some EC_DnsFailure | 5 => Some EC_TlsError
  | 6 => Some EC_Http4xx | 7 => Some EC_Http5xx | 8 => Some EC_ProtocolError
  | 9 => Some EC_PayloadError | 10 => Some EC_Other
  | _ => None
  end.

(** [format!("{c:?}")]. *)
Definition ErrorClass_debug (c : ErrorClass) : string :=
  match c with
  | EC_Unspecified => "Unspecified" | EC_Timeout => "Timeout"
  | EC_ConnectionRefused => "ConnectionRefused" | EC_ConnectionReset => "ConnectionReset"
  | EC_DnsFailure => "DnsFailure" | EC_TlsError => "TlsError" | EC_Http4xx => "Http4xx"
  | EC_Http5xx => "Http5xx" | EC_ProtocolError => "ProtocolError"
  | EC_PayloadError => "PayloadError" | EC_Other => "Other"
  end%string.

Lemma ErrorClass_try_from_to_i32 c : ErrorClass_try_from (ErrorClass_to_i32 c) = Some c.
Proof. by destruct c. Qed.

Lemma ProtoWorkerState_try_from_to_i32 s :
  ProtoWorkerState_try_from (ProtoWorkerState_to_i32 s) = Some s.
Proof. by destruct s. Qed.

Lemma CommandType_try_from_to_i32 c : CommandType_try_from (CommandType_to_i32 c) = Some c.
Proof. by destruct c. Qed.

(** ** Messages *)

Record Timestamp := mkTimestamp { ts_seconds : Z; ts_nanos : Z }.
(** [prost_types::Duration]: signed seconds and nanoseconds. *)
Record ProtoDuration := mkProtoDuration { pd_seconds : Z; pd_nanos : Z }.

Record ResourceCapacity := mkResourceCapacity {
  rc_cpu_cores : Z;
  rc_total_memory_bytes : Z;
  rc_available_memory_bytes : Z;
  rc_available_cpu_percent : f32;
}.

Record RegisterWorkerRequest := mkRegisterWorkerRequest {
  rw_worker_id : string;
  rw_hostname : string;
  rw_ip_address : string;
  rw_max_concurrency_vus : Z;
  rw_capacity : option ResourceCapacity;
  rw_agent_version : string;
  rw_labels : gmap string string;
  rw_registered_at : option Timestamp;
}.

Record ClusterConfiguration := mkClusterConfiguration {
  cc_cluster_id : string;
  cc_master_endpoint : string;
  cc_heartbeat_interval_ms : Z;
  cc_metric_flush_interval_ms : Z;
  cc_max_batch_size : Z;
  cc_tls_required : bool;
  cc_histogram_bucket_count : Z;
  cc_cluster_labels : gmap string string;
}.
Definition ClusterConfiguration_default : ClusterConfiguration :=
  mkClusterConfiguration "" "" 0 0 0 false 0 ∅.

Record RegisterWorkerResponse := mkRegisterWorkerResponse {
  rr_status : Z;
  rr_acknowledgment_id : string;
  rr_cluster_config : option ClusterConfiguration;
  rr_message : string;
}.

Record HeartbeatRequest := mkHeartbeatRequest {
  hb_worker_id : string;
  hb_state : Z;
  hb_active_vus : Z;
  hb_test_run_id : string;
}.

Record HeartbeatResponse := mkHeartbeatResponse {
  hr_directive : Z;
  hr_next_heartbeat_interval_ms : Z;
  hr_message : string;
  hr_pending_command_id : string;
}.

Record Header := mkHeader { hd_name : string; hd_value : string }.
Record TargetEndpoint := mkTargetEndpoint { te_url : string; te_method : string; te_weight : f32 }.
Record PayloadTemplate := mkPayloadTemplate {
  pt_name : string;
  pt_content_type : string;
  pt_body : bytes;
  pt_weight : f32;
  pt_headers : list Header;
}.

(** The [ramp_up] schedule is carried on the wire and read by no daemon. *)
Record TestConfiguration := mkTestConfiguration {
  tc_test_run_id : string;
  tc_targets : list TargetEndpoint;
  tc_duration : option ProtoDuration;
  tc_virtual_users : Z;
  tc_request_timeout_ms : Z;
  tc_headers : list Header;
  tc_payloads : list PayloadTemplate;
  tc_http_method : string;
}.

Record CommandRequest := mkCommandRequest {
  cr_command : Z;
  cr_command_id : string;
  cr_test_run_id : string;
  cr_config : option TestConfiguration;
  cr_command_timeout_ms : Z;
}.

Record CommandResponse := mkCommandResponse {
  cp_command_id : string;
  cp_worker_id : string;
  cp_status : Z;
  cp_error_message : string;
}.

Record ErrorBreakdown := mkErrorBreakdown {
  eb_error_class : Z;
  eb_count : Z;
  eb_detail : string;
}.

Record LatencySummary := mkLatencySummary {
  ls_p50_ms : f32;
  ls_p90_ms : f32;
  ls_p95_ms : f32;
  ls_p99_ms : f32;
  ls_min_ms : f32;
  ls_max_ms : f32;
  ls_mean_ms : f32;
  ls_std_dev_ms : f64;
  ls_sample_count : Z;
  ls_bucket_counts : list Z;
}.

Record MetricBatch := mkMetricBatch {
  mb_worker_id : string;
  mb_test_run_id : string;
  mb_batch_id : string;
  mb_window_start_unix_ms : Z;
  mb_window_duration_ms : Z;
  mb_total_requests : Z;
  mb_success_count : Z;
  mb_failure_count : Z;
  mb_bytes_received : Z;
  mb_bytes_sent : Z;
  mb_active_vus : Z;
  mb_latency : option LatencySummary;
  mb_errors : list ErrorBreakdown;
  mb_requests_per_second : f64;
}.

Record StreamAcknowledgment := mkStreamAcknowledgment {
  sa_worker_id : string;
  sa_accepted_batches : Z;
  sa_accepted_requests : Z;
  sa_resync_required : bool;
  sa_message : string;
  sa_last_batch_id : string;
}.

(** ** Errors *)

Inductive WorkerError :=
  | WE_Config (msg : string)
  | WE_StateTransition (from to : string)
  | WE_Transport (msg : string)
  | WE_Rpc (msg : string)
  | WE_Io (msg : string)
  | WE_Disconnected (msg : string).

Inductive MasterError :=
  | ME_Config (msg : string)
  | ME_Registry (msg : string)
  | ME_BarrierTimeout (expected ready : Z)
  | ME_Run (msg : string)
  | ME_Transport (msg : string)
  | ME_Rpc (msg : string)
  | ME_Io (msg : string).
