(* ===== verification/Registry.v ===== *)
(** Cluster registry ([src/distributed/master/registry.rs]): worker records,
    heartbeats, command-stream attach/detach and the health sweep.

    [Instant]s are nanosecond readings of one monotonic clock, passed in as
    [now].  A [CommandSender] is the identity of its channel; the channels
    themselves live in the master state. *)

From S2P Require Import Prelude RustStr Float Proto.

#[local] Open Scope Z_scope.

Inductive WorkerStatus := Registered | Ready | Running | Disconnected | Failed.

#[export] Instance WorkerStatus_eq_dec : EqDecision WorkerStatus.
Proof. solve_decision. Defined.

Definition WorkerStatus_as_str (s : WorkerStatus) : string :=
  match s with
  | Registered => "REGISTERED"
  | Ready => "READY"
  | Running => "RUNNING"
  | Disconnected => "DISCONNECTED"
  | Failed => "FAILED"
  end%string.

Definition from_wire (s : ProtoWorkerState) : WorkerStatus :=
  match s with
  | PWS_Ready => Ready
  | PWS_Running | PWS_Draining => Running
  | PWS_Error => Failed
  | PWS_Unregistered => Disconnected
  | PWS_Unspecified => Registered
  end.

Abbreviation CommandSender := Z (only parsing).

Record WorkerRecord := mkWorkerRecord {
  wr_worker_id : string;
  wr_hostname : string;
  wr_ip_address : string;
  wr_agent_version : string;
  wr_max_vus : Z;
  wr_capacity : option ResourceCapacity;
  wr_labels : gmap string string;
  wr_status : WorkerStatus;
  wr_active_vus : Z;
  wr_test_run_id : string;
  wr_last_heartbeat : Z;
  wr_command_tx : option CommandSender;
}.

Record WorkerSnapshot := mkWorkerSnapshot {
  wsn_worker_id : string;
  wsn_hostname : string;
  wsn_ip_address : string;
  wsn_max_vus : Z;
  wsn_active_vus : Z;
  wsn_status : WorkerStatus;
  wsn_labels : gmap string string;
  wsn_last_heartbeat_ms_ago : Z;
}.

Record Registry := mkRegistry { workers : gmap string WorkerRecord }.

Definition Registry_new : Registry := mkRegistry ∅.
Definition registry_len (r : Registry) : Z := Z.of_nat (size (workers r)).
Definition registry_is_empty (r : Registry) : bool := bool_decide (workers r = ∅).

(** [now.duration_since(earlier)] saturates at zero. *)
Definition duration_since (now earlier : Z) : duration := Z.max 0 (now - earlier).

Definition register (now : Z) (request : RegisterWorkerRequest) (r : Registry)
  : result MasterError Registry :=
  if is_blank (rw_worker_id request)
  then Err (ME_Registry "worker_id must not be empty")
  else if rw_max_concurrency_vus request =? 0
  then Err (ME_Registry "max_concurrency_vus must be greater than zero")
  else
    let record := {|
      wr_worker_id := rw_worker_id request;
      wr_hostname := rw_hostname request;
      wr_ip_address := rw_ip_address request;
      wr_agent_version := rw_agent_version request;
      wr_max_vus := rw_max_concurrency_vus request;
      wr_capacity := rw_capacity request;
      wr_labels := rw_labels request;
      wr_status := Registered;
      wr_active_vus := 0;
      wr_test_run_id := "";
      wr_last_heartbeat := now;
      wr_command_tx := None |} in
    Ok (mkRegistry (<[rw_worker_id request := record]> (workers r))).

Definition unknown_worker (worker_id : string) : MasterError :=
  ME_Registry ("unknown worker '" ++ worker_id ++ "'").

Definition set_heartbeat (now : Z) (state : ProtoWorkerState) (active_vus : Z) (run_id : string)
    (w : WorkerRecord) : WorkerRecord :=
  mkWorkerRecord (wr_worker_id w) (wr_hostname w) (wr_ip_address w) (wr_agent_version w)
    (wr_max_vus w) (wr_capacity w) (wr_labels w) (from_wire state) active_vus run_id now
    (wr_command_tx w).

Definition set_command_tx (tx : option CommandSender) (w : WorkerRecord) : WorkerRecord :=
  mkWorkerRecord (wr_worker_id w) (wr_hostname w) (wr_ip_address w) (wr_agent_version w)
    (wr_max_vus w) (wr_capacity w) (wr_labels w) (wr_status w) (wr_active_vus w)
    (wr_test_run_id w) (wr_last_heartbeat w) tx.

Definition set_record_status (s : WorkerStatus) (w : WorkerRecord) : WorkerRecord :=
  mkWorkerRecord (wr_worker_id w) (wr_hostname w) (wr_ip_address w) (wr_agent_version w)
    (wr_max_vus w) (wr_capacity w) (wr_labels w) s (wr_active_vus w)
    (wr_test_run_id w) (wr_last_heartbeat w) (wr_command_tx w).

Definition record_heartbeat (now : Z) (worker_id : string) (state : ProtoWorkerState)
    (active_vus : Z) (test_run_id : string) (r : Registry) : result MasterError Registry :=
  match workers r !! worker_id with
  | None => Err (unknown_worker worker_id)
  | Some w =>
      Ok (mkRegistry (<[worker_id := set_heartbeat now state active_vus test_run_id w]> (workers r)))
  end.

Definition attach_commands (worker_id : string) (tx : CommandSender) (r : Registry)
  : result MasterError Registry :=
  match workers r !! worker_id with
  | None => Err (unknown_worker worker_id)
  | Some w => Ok (mkRegistry (<[worker_id := set_command_tx (Some tx) w]> (workers r)))
  end.

Definition detach_commands (worker_id : string) (r : Registry) : Registry :=
  mkRegistry (alter (set_command_tx None) worker_id (workers r)).

Definition command_sender (worker_id : string) (r : Registry) : option CommandSender :=
  w ← workers r !! worker_id; wr_command_tx w.

Definition set_status (worker_id : string) (status : WorkerStatus) (r : Registry) : Registry :=
  mkRegistry (alter (set_record_status status) worker_id (workers r)).

Definition registry_get (worker_id : string) (r : Registry) : option WorkerRecord :=
  workers r !! worker_id.

(** A worker the master can dispatch a run to. *)
Definition is_allocatable (w : WorkerRecord) : Prop :=
  wr_status w = Ready /\ is_Some (wr_command_tx w).

Section listing.
Context `{MapOrder}.

Definition ready_workers (r : Registry) : list string :=
  wr_worker_id <$> filter (fun w => wr_status w = Ready) (map_values (workers r)).

Definition allocatable_workers (r : Registry) : list string :=
  wr_worker_id <$> filter (fun w => wr_status w = Ready /\ is_Some (wr_command_tx w))
    (map_values (workers r)).

Definition running_workers (r : Registry) : list string :=
  wr_worker_id <$> filter (fun w => wr_status w = Running) (map_values (workers r)).

Definition snapshot (now : Z) (r : Registry) : list WorkerSnapshot :=
  (fun w => mkWorkerSnapshot (wr_worker_id w) (wr_hostname w) (wr_ip_address w) (wr_max_vus w)
     (wr_active_vus w) (wr_status w) (wr_labels w)
     (wrap64 (as_millis (duration_since now (wr_last_heartbeat w)))))
  <$> map_values (workers r).

(** The records the sweep evicts, and what it makes of them. *)
Definition is_stale (now timeout : Z) (w : WorkerRecord) : Prop :=
  wr_status w <> Disconnected /\ duration_since now (wr_last_heartbeat w) > timeout.

#[export] Instance is_stale_dec now timeout w : Decision (is_stale now timeout w).
Proof. unfold is_stale. apply _. Defined.

Definition evict (w : WorkerRecord) : WorkerRecord :=
  set_command_tx None (set_record_status Disconnected w).

Definition sweep_record (now timeout : Z) (w : WorkerRecord) : WorkerRecord :=
  if decide (wr_status w = Disconnected) then w
  else if decide (duration_since now (wr_last_heartbeat w) > timeout) then evict w
  else w.

(** The swept registry and the newly evicted ids, in iteration order. *)
Definition sweep (now timeout : Z) (r : Registry) : Registry * list string :=
  (mkRegistry (sweep_record now timeout <$> workers r),
   wr_worker_id <$> filter (is_stale now timeout) (map_values (workers r))).
End listing.

(** ** Operations, one worker at a time

    The handlers and the sweep drive the registry through [RegistryOp]s; a
    failed operation leaves it untouched (the error is returned before any
    mutation). *)

Inductive RegistryOp :=
  | OpRegister (now : Z) (request : RegisterWorkerRequest)
  | OpHeartbeat (now : Z) (worker_id : string) (state : ProtoWorkerState) (active_vus : Z)
      (test_run_id : string)
  | OpAttach (worker_id : string) (tx : CommandSender)
  | OpDetach (worker_id : string)
  | OpSetStatus (worker_id : string) (status : WorkerStatus)
  | OpSweep (now timeout : Z).

Definition or_unchanged {E A} (a : A) (x : result E A) : A :=
  match x with Ok y => y | Err _ => a end.

Definition registry_step `{MapOrder} (r : Registry) (op : RegistryOp) : Registry :=
  match op with
  | OpRegister now request => or_unchanged r (register now request r)
  | OpHeartbeat now k s v run => or_unchanged r (record_heartbeat now k s v run r)
  | OpAttach k tx => or_unchanged r (attach_commands k tx r)
  | OpDetach k => detach_commands k r
  | OpSetStatus k s => set_status k s r
  | OpSweep now timeout => (sweep now timeout r).1
  end.

(** The effect of an operation on the record of worker [k]: only operations that
    name [k] and the sweep matter. *)
Definition record_step (k : string) (o : option WorkerRecord) (op : RegistryOp)
  : option WorkerRecord :=
  match op with
  | OpRegister now q =>
      if decide (rw_worker_id q = k) then
        if is_blank k || (rw_max_concurrency_vus q =? 0) then o
        else Some (mkWorkerRecord k (rw_hostname q) (rw_ip_address q) (rw_agent_version q)
               (rw_max_concurrency_vus q) (rw_capacity q) (rw_labels q) Registered 0 "" now None)
      else o
  | OpHeartbeat now k' s v run =>
      if decide (k' = k) then set_heartbeat now s v run <$> o else o
  | OpAttach k' tx => if decide (k' = k) then set_command_tx (Some tx) <$> o else o
  | OpDetach k' => if decide (k' = k) then set_command_tx None <$> o else o
  | OpSetStatus k' s => if decide (k' = k) then set_record_status s <$> o else o
  | OpSweep now timeout => sweep_record now timeout <$> o
  end.

Lemma registry_step_lookup `{MapOrder} r op k :
  workers (registry_step r op) !! k = record_step k (workers r !! k) op.
Proof.
  destruct op as [now q|now k' s v run|k' tx|k'|k' s|now timeout]; simpl.
  - unfold register.
    destruct (decide (rw_worker_id q = k)) as [<-|Hne];
      destruct (is_blank (rw_worker_id q)), (rw_max_concurrency_vus q =? 0); simpl; by simplify_map_eq.
  - unfold record_heartbeat. destruct (decide (k' = k)) as [->|Hne].
    + destruct (workers r !! k) eqn:E; simpl; by simplify_map_eq.
    + destruct (workers r !! k'); simpl; by simplify_map_eq.
  - unfold attach_commands. destruct (decide (k' = k)) as [->|Hne].
    + destruct (workers r !! k) eqn:E; simpl; by simplify_map_eq.
    + destruct (workers r !! k'); simpl; by simplify_map_eq.
  - destruct (decide (k' = k)) as [->|Hne]; by simplify_map_eq.
  - destruct (decide (k' = k)) as [->|Hne]; by simplify_map_eq.
  - by rewrite lookup_fmap.
Qed.

Lemma registry_steps_lookup `{MapOrder} ops r k :
  workers (foldl registry_step r ops) !! k = foldl (record_step k) (workers r !! k) ops.
Proof.
  apply (foldl_project (fun r => workers r !! k)). intros. apply registry_step_lookup.
Qed.

(** ** What the registry promises about one worker

    The specification: what the history of operations says about worker [k],
    whatever the registry stores.  It is unknown until a registration with a
    non-blank id and a positive ceiling is accepted. *)

Record WorkerView := mkWorkerView {
  v_request : RegisterWorkerRequest;      (** the last accepted registration *)
  v_status : WorkerStatus;
  v_vus : Z;
  v_run : string;
  v_seen : Z;                             (** last registration or heartbeat *)
  v_stream : option CommandSender;        (** the attached command stream *)
}.

Definition worker_view (k : string) (view : option WorkerView) (op : RegistryOp) : option WorkerView :=
  match op, view with
  | OpRegister now q, _ =>
      if bool_decide (rw_worker_id q = k) && negb (is_blank k) && negb (rw_max_concurrency_vus q =? 0)
      then Some (mkWorkerView q Registered 0 "" now None) else view
  | OpHeartbeat now k' state vus run, Some v =>
      if bool_decide (k' = k) then
        Some (mkWorkerView (v_request v)
          (match state with
           | PWS_Ready => Ready
           | PWS_Running => Running
           | PWS_Draining => Running
           | PWS_Error => Failed
           | PWS_Unregistered => Disconnected
           | PWS_Unspecified => Registered
           end) vus run now (v_stream v))
      else view
  | OpAttach k' tx, Some v =>
      if bool_decide (k' = k)
      then Some (mkWorkerView (v_request v) (v_status v) (v_vus v) (v_run v) (v_seen v) (Some tx)) else view
  | OpDetach k', Some v =>
      if bool_decide (k' = k)
      then Some (mkWorkerView (v_request v) (v_status v) (v_vus v) (v_run v) (v_seen v) None) else view
  | OpSetStatus k' status, Some v =>
      if bool_decide (k' = k)
      then Some (mkWorkerView (v_request v) status (v_vus v) (v_run v) (v_seen v) (v_stream v)) else view
  | OpSweep now timeout, Some v =>
      if bool_decide (v_status v <> Disconnected /\ timeout < Z.max 0 (now - v_seen v))
      then Some (mkWorkerView (v_request v) Disconnected (v_vus v) (v_run v) (v_seen v) None) else view
  | _, None => None
  end.

(** The record [w] of worker [k] says what [v] says, field by field. *)
Definition shows (k : string) (v : WorkerView) (w : WorkerRecord) : Prop :=
  wr_worker_id w = k /\ wr_hostname w = rw_hostname (v_request v) /\
  wr_ip_address w = rw_ip_address (v_request v) /\ wr_agent_version w = rw_agent_version (v_request v) /\
  wr_max_vus w = rw_max_concurrency_vus (v_request v) /\ wr_capacity w = rw_capacity (v_request v) /\
  wr_labels w = rw_labels (v_request v) /\ wr_status w = v_status v /\ wr_active_vus w = v_vus v /\
  wr_test_run_id w = v_run v /\ wr_last_heartbeat w = v_seen v /\ wr_command_tx w = v_stream v.

(** The record that says so. *)
Definition view_record (k : string) (v : WorkerView) : WorkerRecord :=
  mkWorkerRecord k (rw_hostname (v_request v)) (rw_ip_address (v_request v)) (rw_agent_version (v_request v))
    (rw_max_concurrency_vus (v_request v)) (rw_capacity (v_request v)) (rw_labels (v_request v))
    (v_status v) (v_vus v) (v_run v) (v_seen v) (v_stream v).

(** One operation, in the registry and in the specification. *)
Lemma record_step_view k view op :
  record_step k (view_record k <$> view) op = view_record k <$> worker_view k view op.
Proof.
  destruct op as [now q|now k' st v run|k' tx|k'|k' st|now timeout], view as [v0|]; simpl;
    try (by case_bool_decide; case_decide).
  - case_bool_decide; case_decide; try done.
    destruct (is_blank k), (rw_max_concurrency_vus q =? 0); simpl; try done.
  - case_bool_decide; case_decide; try done.
    destruct (is_blank k), (rw_max_concurrency_vus q =? 0); simpl; try done.
  - by case_decide.
  - by case_decide.
  - by case_decide.
  - by case_decide.
  - unfold sweep_record, evict, duration_since. simpl.
    case_decide; case_bool_decide as Hb; try done; [by destruct Hb|case_decide as Ht; [done|]|case_decide as Ht; [|done]].
    + destruct Hb as [_ Hb]. lia.
    + destruct Hb. split; [done|lia].
  - done.
Qed.

Lemma view_simulates k ops view :
  foldl (record_step k) (view_record k <$> view) ops = view_record k <$> foldl (worker_view k) view ops.
Proof.
  revert view. induction ops as [|op ops IH]; intros view; simpl; [done|]. by rewrite record_step_view, IH.
Qed.

(** Every record sits under its own id, which is not blank, and advertises at
    least one virtual user. *)
Definition record_wf (k : string) (w : WorkerRecord) : Prop :=
  wr_worker_id w = k /\ is_blank k = false /\ wr_max_vus w <> 0.

Definition registry_wf (r : Registry) : Prop := map_Forall record_wf (workers r).

Lemma sweep_record_wf now timeout k w : record_wf k w -> record_wf k (sweep_record now timeout w).
Proof. unfold sweep_record. intros Hw. by repeat case_decide. Qed.

Lemma record_step_wf k o op :
  (forall w, o = Some w -> record_wf k w) ->
  forall w, record_step k o op = Some w -> record_wf k w.
Proof.
  intros Ho w. destruct op as [now q|now k' s v run|k' tx|k'|k' s|now timeout]; simpl;
    repeat case_decide; rewrite ?fmap_Some.
  1: { destruct (is_blank k) eqn:Hb, (rw_max_concurrency_vus q =? 0) eqn:Hv; simpl; intros Hw; auto.
       injection Hw as <-. split_and!; [done|done|]. apply Z.eqb_neq, Hv. }
  all: try (by auto).
  1-4: by intros (w0 & Hw0 & ->); apply Ho in Hw0.
  intros (w0 & Hw0 & ->). by apply sweep_record_wf, Ho.
Qed.

Lemma registry_step_wf `{MapOrder} r op : registry_wf r -> registry_wf (registry_step r op).
Proof.
  intros Hr k w. rewrite registry_step_lookup. apply record_step_wf, Hr.
Qed.

Lemma registry_new_wf : registry_wf Registry_new.
Proof. apply map_Forall_empty. Qed.

Lemma registry_steps_wf `{MapOrder} ops r : registry_wf r -> registry_wf (foldl registry_step r ops).
Proof. revert r. induction ops; simpl; auto using registry_step_wf. Qed.

(** ** Listings *)

Section listing_lemmas.
Context `{MapOrder}.

(** Selecting records of a well-formed registry and naming them gives each
    selected id once. *)
Lemma elem_of_selected (P : WorkerRecord -> Prop) `{forall w, Decision (P w)} r k :
  registry_wf r ->
  k ∈ wr_worker_id <$> filter P (map_values (workers r)) <->
  exists w, workers r !! k = Some w /\ P w.
Proof.
  intros Hr. rewrite list_elem_of_fmap. setoid_rewrite list_elem_of_filter.
  setoid_rewrite elem_of_map_values. split.
  - intros (w & -> & HP & k' & Hk'). destruct (Hr k' w Hk') as (-> & _). eauto.
  - intros (w & Hw & HP). exists w. destruct (Hr k w Hw) as (-> & _). eauto.
Qed.

Lemma map_values_ids r :
  registry_wf r -> wr_worker_id <$> map_values (workers r) = map_keys (workers r).
Proof.
  intros Hr. unfold map_values, map_keys. rewrite <- list_fmap_compose.
  apply list_fmap_ext. intros i [k w] Hi.
  apply list_elem_of_lookup_2, elem_of_map_iter in Hi. by apply Hr in Hi as (? & _).
Qed.

Lemma NoDup_selected (P : WorkerRecord -> Prop) `{forall w, Decision (P w)} r :
  registry_wf r -> NoDup (wr_worker_id <$> filter P (map_values (workers r))).
Proof.
  intros Hr. eapply sublist_NoDup; [|apply fmap_sublist, sublist_filter].
  rewrite map_values_ids by done. apply NoDup_map_keys.
Qed.

Lemma elem_of_allocatable r k :
  registry_wf r ->
  k ∈ allocatable_workers r <-> exists w, workers r !! k = Some w /\ is_allocatable w.
Proof. apply elem_of_selected. Qed.

Lemma NoDup_allocatable r : registry_wf r -> NoDup (allocatable_workers r).
Proof. apply NoDup_selected. Qed.

Lemma elem_of_sweep_ids now timeout r k :
  registry_wf r ->
  k ∈ (sweep now timeout r).2 <-> exists w, workers r !! k = Some w /\ is_stale now timeout w.
Proof. apply elem_of_selected. Qed.
End listing_lemmas.

(** A listing is the same up to order whatever the map's iteration order. *)
Lemma allocatable_workers_order (o1 o2 : MapOrder) r :
  @allocatable_workers o1 r ≡ₚ @allocatable_workers o2 r.
Proof.
  unfold allocatable_workers, map_values. by rewrite !map_iter_perm.
Qed.

Lemma sweep_record_spec now timeout w :
  (is_stale now timeout w /\ sweep_record now timeout w = evict w) \/
  (~ is_stale now timeout w /\ sweep_record now timeout w = w).
Proof.
  unfold sweep_record, is_stale. repeat case_decide; [right|left|right]; (split; [tauto|done]).
Qed.

Section sweep_lemmas.
Context `{MapOrder}.

Lemma sweep_lookup now timeout r k :
  workers (sweep now timeout r).1 !! k = sweep_record now timeout <$> workers r !! k.
Proof. apply lookup_fmap. Qed.

Lemma sweep_record_not_stale now timeout w : ~ is_stale now timeout (sweep_record now timeout w).
Proof.
  destruct (sweep_record_spec now timeout w) as [[_ ->]|[? ->]]; [|done]. by intros [[] _].
Qed.

Lemma sweep_idempotent now timeout r :
  sweep now timeout (sweep now timeout r).1 = ((sweep now timeout r).1, []).
Proof.
  unfold sweep; simpl. f_equal.
  - f_equal. rewrite <- map_fmap_compose. apply map_fmap_ext. intros k w _. simpl.
    pose proof (sweep_record_not_stale now timeout w).
    by destruct (sweep_record_spec now timeout (sweep_record now timeout w)) as [[? _]|[_ ->]].
  - rewrite filter_none; [done|].
    intros w [k Hk]%elem_of_map_values. rewrite lookup_fmap, fmap_Some in Hk.
    destruct Hk as (w0 & _ & ->). apply sweep_record_not_stale.
Qed.

Lemma sweep_allocatable now timeout r :
  registry_wf r -> allocatable_workers (sweep now timeout r).1 ⊆ allocatable_workers r.
Proof.
  intros Hr k. assert (Hr' : registry_wf (sweep now timeout r).1)
    by apply (registry_step_wf r (OpSweep now timeout)), Hr.
  rewrite !elem_of_allocatable by done. intros (w & Hw & Hal).
  rewrite sweep_lookup, fmap_Some in Hw. destruct Hw as (w0 & Hw0 & ->).
  destruct (sweep_record_spec now timeout w0) as [[_ Hs]|[_ Hs]]; rewrite Hs in Hal; [|by eauto].
  by destruct Hal as [[=] _].
Qed.
End sweep_lemmas.

(** ** Properties *)

Section claims.
Context `{MapOrder}.

(** C9. The registry promises what [worker_view] says: after any sequence of
    operations and sweeps from the empty registry, every field of the record of
    worker [k] is the one its own history determines (registration data, status,
    load, run, time of the last sign of life, command stream), and there is no
    record without an accepted registration; the registry then answers
    accordingly: it can dispatch to [k] exactly when [k] is ready with an attached
    stream, [k] is evicted by the next sweep exactly when it is not disconnected
    and has been silent for longer than the timeout, a heartbeat or a stream of an
    unknown worker is refused; and every record has a non-blank id and a positive
    ceiling. *)
Theorem registry_refines_workers ops k :
  let r := foldl registry_step Registry_new ops in
  let view := foldl (worker_view k) None ops in
  registry_wf r /\
  match view, registry_get k r with
  | Some v, Some w => shows k v w
  | None, None => True
  | _, _ => False
  end /\
  command_sender k r = (v ← view; v_stream v) /\
  (k ∈ allocatable_workers r <-> exists v, view = Some v /\ v_status v = Ready /\ is_Some (v_stream v)) /\
  (forall now timeout, k ∈ (sweep now timeout r).2 <->
     exists v, view = Some v /\ v_status v <> Disconnected /\ timeout < Z.max 0 (now - v_seen v)) /\
  (forall now state vus run, is_ok (record_heartbeat now k state vus run r) = is_some view) /\
  (forall tx, is_ok (attach_commands k tx r) = is_some view).
Proof.
  intros r view. assert (Hwf : registry_wf r) by apply registry_steps_wf, registry_new_wf.
  assert (Hv : workers r !! k = view_record k <$> view).
  { unfold r, view. rewrite registry_steps_lookup. apply (view_simulates k ops None). }
  split; [done|]. unfold registry_get, command_sender, record_heartbeat, attach_commands.
  rewrite elem_of_allocatable, Hv by done. setoid_rewrite (fun now timeout => elem_of_sweep_ids now timeout r k Hwf).
  rewrite Hv. split_and!; destruct view as [v|]; simpl; try done.
  - unfold is_allocatable. split; [|naive_solver]. intros (w & [= <-] & Ha). exists v. naive_solver.
  - naive_solver.
  - intros now timeout. unfold is_stale, duration_since. split; [|naive_solver lia].
    intros (w & [= <-] & Hn & Ht). exists v. simpl in *. split_and!; [done|done|lia].
  - naive_solver.
Qed.

(** The sweep evicts exactly the stale workers: the returned ids are the
    workers that were not yet disconnected and whose last heartbeat is older
    than the timeout, each once; those become [Disconnected] and lose their
    command channel, every other record is untouched, and sweeping again at
    the same instant evicts nobody and changes nothing. *)
Theorem sweep_evicts_stale now timeout r :
  registry_wf r ->
  let (r', evicted) := sweep now timeout r in
  NoDup evicted /\
  (forall k, k ∈ evicted <-> exists w, registry_get k r = Some w /\ is_stale now timeout w) /\
  (forall k w, registry_get k r = Some w ->
     registry_get k r' = Some (if bool_decide (k ∈ evicted) then evict w else w)) /\
  (forall k, registry_get k r = None -> registry_get k r' = None) /\
  allocatable_workers r' ⊆ allocatable_workers r /\
  sweep now timeout r' = (r', []).
Proof.
  intros Hr. pose proof (elem_of_sweep_ids now timeout r) as Hev.
  pose proof (sweep_lookup now timeout r) as Hlook.
  pose proof (sweep_idempotent now timeout r) as Hidem.
  pose proof (NoDup_selected (is_stale now timeout) r Hr) as Hnd.
  pose proof (sweep_allocatable now timeout r Hr) as Hal.
  change (wr_worker_id <$> _) with (sweep now timeout r).2 in Hnd.
  destruct (sweep now timeout r) as [r' evicted]; simpl in *. unfold registry_get.
  split_and!; auto.
  - intros k w Hw. rewrite Hlook, Hw. simpl. f_equal.
    destruct (sweep_record_spec now timeout w) as [[Hs ->]|[Hs ->]]; case_bool_decide as Hin;
      try done; exfalso; [apply Hin, Hev; eauto|].
    apply Hev in Hin as (w' & Hw' & Hs'); [|done]. simplify_eq. done.
  - intros k Hk. by rewrite Hlook, Hk.
Qed.

(** A worker is allocatable exactly when its record is [Ready] with an
    attached command channel; re-registering a worker always takes it out of
    the allocatable set (status reset, channel dropped), and it comes back only
    after both a [Ready] heartbeat and a new command stream. *)
Theorem reregistration_resets now now' q r r' v run tx :
  registry_wf r -> register now q r = Ok r' ->
  let k := rw_worker_id q in
  (k ∉ allocatable_workers r') /\
  (k ∉ allocatable_workers (registry_step r' (OpHeartbeat now' k PWS_Ready v run))) /\
  (k ∉ allocatable_workers (registry_step r' (OpAttach k tx))) /\
  k ∈ allocatable_workers
        (foldl registry_step r' [OpHeartbeat now' k PWS_Ready v run; OpAttach k tx]) /\
  k ∈ allocatable_workers
        (foldl registry_step r' [OpAttach k tx; OpHeartbeat now' k PWS_Ready v run]).
Proof.
  intros Hr Hreg k.
  assert (Hr' : r' = registry_step r (OpRegister now q)) by (simpl; by rewrite Hreg).
  assert (Hwf : registry_wf r') by (rewrite Hr'; by apply registry_step_wf).
  assert (Hw : exists w, workers r' !! k = Some w /\ wr_status w = Registered /\ wr_command_tx w = None).
  { clear Hr' Hwf. unfold register in Hreg.
    destruct (is_blank _), (rw_max_concurrency_vus q =? 0); simplify_eq; simpl.
    eexists. split; [apply lookup_insert_eq|done]. }
  destruct Hw as (w & Hw & Hs & Ht).
  split_and!; rewrite elem_of_allocatable by auto using registry_steps_wf, registry_step_wf;
    rewrite ?registry_steps_lookup, ?registry_step_lookup; simpl; rewrite Hw; simpl;
    rewrite ?decide_True by done; simpl.
  - intros (? & [= <-] & Ha & _). congruence.
  - intros (? & [= <-] & _ & [? Ha]). simpl in Ha. congruence.
  - intros (? & [= <-] & Ha & _). simpl in Ha. congruence.
  - eexists. split; [done|]. split; [done|]. by eexists.
  - eexists. split; [done|]. split; [done|]. by eexists.
Qed.
End claims.

(** ** Witnesses *)

Definition sample_request (k : string) : RegisterWorkerRequest :=
  mkRegisterWorkerRequest k "host" "10.0.0.1" 8 None "1.0" ∅ None.

Definition sample_ops : list RegistryOp :=
  [OpRegister 0 (sample_request "w1"); OpRegister 5 (sample_request "w2");
   OpHeartbeat 10 "w1" PWS_Ready 0 ""; OpAttach "w1" 1;
   OpHeartbeat 90 "w2" PWS_Ready 0 ""; OpAttach "w2" 2].

Example sample_allocatable :
  allocatable_workers (foldl registry_step Registry_new sample_ops) ≡ₚ ["w1"; "w2"]%string.
Proof.
  assert (Hd : bool_decide (allocatable_workers (foldl registry_step Registry_new sample_ops)
                            ≡ₚ ["w1"; "w2"]%string) = true) by by vm_compute.
  by apply bool_decide_eq_true in Hd.
Qed.

Lemma sweep_evicts_stale_witness :
  let r := foldl registry_step Registry_new sample_ops in
  let (r', evicted) := sweep 100 50 r in
  (forall k, k ∈ evicted <-> exists w, registry_get k r = Some w /\ is_stale 100 50 w) /\
  evicted = ["w1"]%string.
Proof.
  pose proof (sweep_evicts_stale 100 50 (foldl registry_step Registry_new sample_ops)
                (registry_steps_wf sample_ops Registry_new registry_new_wf)) as Hs.
  cbv zeta. destruct (sweep 100 50 _) as [r' evicted] eqn:E.
  split; [apply Hs|]. vm_compute in E. by injection E as <- <-.
Defined.

Lemma reregistration_resets_witness :
  let r := foldl registry_step Registry_new sample_ops in
  let r' := registry_step r (OpRegister 120 (sample_request "w1")) in
  ("w1"%string ∉ allocatable_workers r') /\ "w1"%string ∈ allocatable_workers r.
Proof.
  intros r r'. split.
  - assert (Hreg : register 120 (sample_request "w1") r = Ok r') by by vm_compute.
    exact (proj1 (reregistration_resets 120 130 _ r r' 0 "" 9
             (registry_steps_wf sample_ops _ registry_new_wf) Hreg)).
  - unfold r. rewrite sample_allocatable. by left.
Defined.
