(* ===== verification/Barrier.v ===== *)
(** Start barrier ([src/distributed/master/barrier.rs]).

    The barrier polls the shared registry, which the service handlers change
    concurrently.  Its environment is the list of observations the loop makes:
    at each iteration the registry it locks and the clock it then reads (in
    nanoseconds).  Sleeping and notification only decide when the next
    observation happens. *)

From S2P Require Import Prelude RustStr Float Proto Registry.

#[local] Open Scope Z_scope.

(** What the master allocates out of the sorted ready list. *)
Definition allocate (expected : nat) (ready : list string) : list string :=
  if Nat.eqb expected 0 then ready else take (Nat.max expected 1) ready.

Inductive barrier_poll := Satisfied (allocated : list string) | TimedOut (e : MasterError) | Waiting.

Section barrier.
Context `{MapOrder}.

(** One iteration of the loop. *)
Definition poll (expected : nat) (deadline : Z) (r : Registry) (now : Z) : barrier_poll :=
  let required := Nat.max expected 1 in
  let ready := sort_strings (allocatable_workers r) in
  if Nat.leb required (length ready) then Satisfied (allocate expected ready)
  else if duration_since deadline now =? 0
  then TimedOut (ME_BarrierTimeout (Z.of_nat required) (Z.of_nat (length ready)))
  else Waiting.

Fixpoint wait_loop (expected : nat) (deadline : Z) (obs : list (Registry * Z))
  : option (result MasterError (list string)) :=
  match obs with
  | [] => None
  | (r, now) :: obs =>
      match poll expected deadline r now with
      | Satisfied ids => Some (Ok ids)
      | TimedOut e => Some (Err e)
      | Waiting => wait_loop expected deadline obs
      end
  end.

(** [None]: still waiting after the given observations. *)
Definition wait_for_ready (expected : nat) (start timeout : Z) (obs : list (Registry * Z))
  : option (result MasterError (list string)) :=
  wait_loop expected (start + timeout) obs.

Lemma length_ready r : length (sort_strings (allocatable_workers r)) = length (allocatable_workers r).
Proof. by rewrite sort_strings_perm. Qed.

Lemma allocate_prefix expected l : exists rest, l = allocate expected l ++ rest.
Proof.
  unfold allocate. destruct (Nat.eqb expected 0); [exists []; by rewrite app_nil_r|].
  exists (drop (Nat.max expected 1) l). by rewrite take_drop.
Qed.

Lemma StronglySorted_prefix {A} (R : relation A) l1 l2 :
  StronglySorted R (l1 ++ l2) ->
  StronglySorted R l1 /\ forall x y, x ∈ l1 -> y ∈ l2 -> R x y.
Proof.
  induction l1 as [|a l1 IH]; simpl; intros Hs; [by split; [constructor|intros ?? ?%elem_of_nil]|].
  apply StronglySorted_inv in Hs as [Hs Ha]. destruct (IH Hs) as [H1 H2].
  rewrite Forall_forall in Ha. split.
  - constructor; [done|]. apply Forall_forall. intros x Hx. apply Ha, elem_of_app. by left.
  - intros x y [->|Hx]%elem_of_cons Hy; [apply Ha, elem_of_app; by right|by apply H2].
Qed.

(** The loop stops at its first decisive observation. *)
Lemma wait_loop_stops expected deadline obs res :
  wait_loop expected deadline obs = Some res ->
  exists before r now after, obs = before ++ (r, now) :: after /\
    Forall (fun o => poll expected deadline o.1 o.2 = Waiting) before /\
    match poll expected deadline r now with
    | Satisfied ids => res = Ok ids | TimedOut e => res = Err e | Waiting => False
    end.
Proof.
  induction obs as [|[r now] obs IH]; simpl; [done|].
  destruct (poll expected deadline r now) eqn:E.
  1, 2: intros [= <-]; exists [], r, now, obs; rewrite E; auto.
  intros (before & r' & now' & after & -> & Hb & Hp)%IH.
  exists ((r, now) :: before), r', now', after. auto.
Qed.

Lemma poll_waiting expected deadline r now :
  poll expected deadline r now = Waiting <->
  (length (allocatable_workers r) < Nat.max expected 1)%nat /\ now < deadline.
Proof.
  unfold poll, duration_since. rewrite length_ready.
  destruct (Nat.leb_spec (Nat.max expected 1) (length (allocatable_workers r))); [split; [done|lia]|].
  destruct (Z.eqb_spec (Z.max 0 (deadline - now)) 0); split; try done; lia.
Qed.

(** C37. When the barrier opens, the allocated ids are the lexicographically
    first [expected] allocatable workers (all of them for [expected = 0]) of the
    registry it last saw: sorted, without duplicates, each [Ready] with a
    command channel, never fewer than required; and it opened at the first
    poll that saw enough workers. *)
Theorem barrier_allocates expected start timeout obs ids :
  Forall (fun o => registry_wf o.1) obs ->
  wait_for_ready expected start timeout obs = Some (Ok ids) ->
  exists before r now after, obs = before ++ (r, now) :: after /\
    Forall (fun o => (length (allocatable_workers o.1) < Nat.max expected 1)%nat /\
                     o.2 < start + timeout) before /\
    StronglySorted str_le ids /\ NoDup ids /\
    (forall k, k ∈ ids -> exists w, registry_get k r = Some w /\ is_allocatable w) /\
    (forall k k', k ∈ ids -> k' ∈ allocatable_workers r -> (k' ∉ ids) -> str_le k k') /\
    length ids = (if Nat.eqb expected 0 then length (allocatable_workers r) else expected) /\
    (1 <= length ids)%nat.
Proof.
  intros Hwf (before & r & now & after & -> & Hb & Hp)%wait_loop_stops.
  exists before, r, now, after. rewrite Forall_app, Forall_cons in Hwf. destruct Hwf as (_ & Hr & _).
  split; [done|]. split.
  { eapply Forall_impl; [exact Hb|]. intros o. apply poll_waiting. }
  unfold poll in Hp. rewrite length_ready in Hp.
  destruct (Nat.leb_spec (Nat.max expected 1) (length (allocatable_workers r))) as [Hlen|];
    [|by destruct (_ =? 0)].
  injection Hp as ->.
  destruct (allocate_prefix expected (sort_strings (allocatable_workers r))) as [rest Hrest].
  pose proof (sort_strings_sorted (allocatable_workers r)) as Hs.
  pose proof (sort_strings_perm (allocatable_workers r)) as Hperm.
  rewrite Hrest in Hs. apply StronglySorted_prefix in Hs as [Hs1 Hs2].
  split; [done|]. split.
  { pose proof (NoDup_allocatable r Hr) as Hn. rewrite <- Hperm, Hrest in Hn. by apply NoDup_app in Hn as (? & _). }
  split_and!.
  - intros k Hk. apply elem_of_allocatable; [done|]. rewrite <- Hperm, Hrest. apply elem_of_app. by left.
  - intros k k' Hk Hk' Hn. apply Hs2; [done|].
    rewrite <- Hperm, Hrest in Hk'. by apply elem_of_app in Hk' as [?|?].
  - unfold allocate. destruct (Nat.eqb_spec expected 0); [by rewrite length_ready|].
    rewrite length_take, length_ready. lia.
  - unfold allocate. destruct (Nat.eqb_spec expected 0); rewrite ?length_take, length_ready; lia.
Qed.

(** A barrier timeout is reported only at or after the deadline, with too
    few allocatable workers at that poll and at every earlier one, and the error
    carries the required and the available number. *)
Theorem barrier_timeout_justified expected start timeout obs e :
  wait_for_ready expected start timeout obs = Some (Err e) ->
  exists before r now after, obs = before ++ (r, now) :: after /\ start + timeout <= now /\
    e = ME_BarrierTimeout (Z.of_nat (Nat.max expected 1)) (Z.of_nat (length (allocatable_workers r))) /\
    Forall (fun o => (length (allocatable_workers o.1) < Nat.max expected 1)%nat)
      (before ++ [(r, now)]).
Proof.
  intros (before & r & now & after & -> & Hb & Hp)%wait_loop_stops.
  exists before, r, now, after. unfold poll, duration_since in Hp. rewrite length_ready in Hp.
  destruct (Nat.leb_spec (Nat.max expected 1) (length (allocatable_workers r))); [done|].
  destruct (Z.eqb_spec (Z.max 0 (start + timeout - now)) 0); [|done]. injection Hp as ->.
  split_and!; [done|lia|done|].
  apply Forall_app. split; [|by constructor].
  eapply Forall_impl; [exact Hb|]. intros o Ho. by apply poll_waiting in Ho as [? _].
Qed.

(** The barrier never stalls: it has returned once the clock has reached
    the deadline or enough workers were seen, whatever else was observed. *)
Theorem barrier_terminates expected start timeout obs :
  Exists (fun o => start + timeout <= o.2 \/
                   (Nat.max expected 1 <= length (allocatable_workers o.1))%nat) obs <->
  is_Some (wait_for_ready expected start timeout obs).
Proof.
  unfold wait_for_ready. induction obs as [|[r now] obs IH]; simpl.
  - rewrite Exists_nil. split; [done|by intros []].
  - rewrite Exists_cons, IH. simpl. pose proof (poll_waiting expected (start + timeout) r now) as Hp.
    destruct (poll expected (start + timeout) r now) eqn:E.
    1, 2: split; [by eauto|intros _; left];
      destruct (decide (start + timeout <= now)); [by left|right];
      destruct (decide (Nat.max expected 1 <= length (allocatable_workers r))%nat); [done|];
      exfalso; discriminate (proj2 Hp ltac:(lia)).
    destruct (proj1 Hp eq_refl). split; [|auto]. intros [[?|?]|?]; [lia|lia|done].
Qed.
End barrier.

(** The outcome of the barrier does not depend on the iteration order of
    the registry's hash map. *)
Theorem barrier_order_independent (o1 o2 : MapOrder) expected start timeout obs :
  @wait_for_ready o1 expected start timeout obs = @wait_for_ready o2 expected start timeout obs.
Proof.
  unfold wait_for_ready. induction obs as [|[r now] obs IH]; simpl; [done|].
  rewrite IH. unfold poll.
  by rewrite (sort_strings_proper _ _ (allocatable_workers_order o1 o2 r)).
Qed.

Lemma barrier_allocates_witness :
  let r := foldl registry_step Registry_new sample_ops in
  exists before r0 now after, [(Registry_new, 1); (r, 2)] = before ++ (r0, now) :: after /\
    NoDup ["w1"; "w2"]%string.
Proof.
  intros r. destruct (barrier_allocates 2 0 100 [(Registry_new, 1); (r, 2)] ["w1"; "w2"]%string)
    as (before & r0 & now & after & Hobs & _ & _ & Hn & _).
  - apply Forall_cons; split; [apply registry_new_wf|]. apply Forall_singleton.
    apply registry_steps_wf, registry_new_wf.
  - by vm_compute.
  - exists before, r0, now, after. by split.
Defined.

Lemma barrier_timeout_justified_witness :
  exists before r now after, [(Registry_new, 1); (Registry_new, 100)] = before ++ (r, now) :: after /\
    100 <= now.
Proof.
  destruct (barrier_timeout_justified 2 0 100 [(Registry_new, 1); (Registry_new, 100)]
              (ME_BarrierTimeout 2 0)) as (before & r & now & after & Hobs & Hnow & _).
  - by vm_compute.
  - exists before, r, now, after. by split.
Defined.
