(* ===== verification/WorkerState.v ===== *)
(** Worker lifecycle state machine ([src/distributed/state.rs]). *)

From S2P Require Import Prelude RustStr Float Proto.

#[local] Open Scope Z_scope.

Inductive WorkerState := WS_Ready | WS_Running | WS_Draining | WS_Error.

#[export] Instance WorkerState_eq_dec : EqDecision WorkerState.
Proof. solve_decision. Defined.

Definition as_proto (s : WorkerState) : ProtoWorkerState :=
  match s with
  | WS_Ready => PWS_Ready
  | WS_Running => PWS_Running
  | WS_Draining => PWS_Draining
  | WS_Error => PWS_Error
  end.

Definition WorkerState_as_str (s : WorkerState) : string :=
  match s with
  | WS_Ready => "READY"
  | WS_Running => "RUNNING"
  | WS_Draining => "DRAINING"
  | WS_Error => "ERROR"
  end%string.

Definition can_transition_to (self next : WorkerState) : bool :=
  match self, next with
  | WS_Ready, WS_Running
  | WS_Ready, WS_Draining
  | WS_Ready, WS_Error
  | WS_Running, WS_Draining
  | WS_Running, WS_Ready
  | WS_Running, WS_Error
  | WS_Draining, WS_Ready
  | WS_Draining, WS_Error
  | WS_Error, WS_Ready
  | WS_Error, WS_Draining => true
  | _, _ => false
  end.

Record WorkerStateMachine := mkWorkerStateMachine { sm_state : WorkerState }.
Definition WorkerStateMachine_new : WorkerStateMachine := mkWorkerStateMachine WS_Ready.

(** The machine after the attempt, and its result. *)
Definition transition (next : WorkerState) (m : WorkerStateMachine)
  : WorkerStateMachine * result WorkerError unit :=
  if bool_decide (next = sm_state m) || can_transition_to (sm_state m) next
  then (mkWorkerStateMachine next, Ok ())
  else (m, Err (WE_StateTransition (WorkerState_as_str (sm_state m)) (WorkerState_as_str next))).

(** ** Runs of the machine *)

(** The states visited while attempting a list of transitions, the start
    excluded. *)
Fixpoint trace (m : WorkerStateMachine) (requests : list WorkerState) : list WorkerState :=
  match requests with
  | [] => []
  | next :: requests =>
      let m' := (transition next m).1 in sm_state m' :: trace m' requests
  end.

(** The states from which a run may not start. *)
Definition blocked (s : WorkerState) : Prop := s = WS_Draining \/ s = WS_Error.

Lemma blocked_step next m :
  blocked (sm_state m) ->
  let s := sm_state (transition next m).1 in s = WS_Ready \/ blocked s.
Proof. unfold blocked. destruct m as [[]], next; simpl; intuition discriminate. Qed.

(** A transition either succeeds and moves to the requested state, or
    fails, reports both states and leaves the machine as it was; it fails
    exactly on [Draining -> Running] and [Error -> Running]. *)
Theorem transition_spec next m :
  match transition next m with
  | (m', Ok _) => sm_state m' = next /\ ~ (next = WS_Running /\ blocked (sm_state m))
  | (m', Err e) => m' = m /\ next = WS_Running /\ blocked (sm_state m) /\
      e = WE_StateTransition (WorkerState_as_str (sm_state m)) "RUNNING"
  end.
Proof. unfold blocked. destruct m as [[]], next; simpl; intuition discriminate. Qed.

(** A worker that is draining or faulted starts a run only after it has
    been ready again: on every sequence of transition attempts that reaches
    [Running], [Ready] is visited first. *)
Theorem running_needs_ready m requests :
  blocked (sm_state m) -> WS_Running ∈ trace m requests ->
  exists before after, trace m requests = before ++ WS_Ready :: after /\ (WS_Running ∉ before).
Proof.
  revert m. induction requests as [|next requests IH]; intros m Hm; simpl.
  { by intros ?%elem_of_nil. }
  destruct (blocked_step next m Hm) as [Hs|Hs].
  - intros _. exists [], (trace (transition next m).1 requests). rewrite Hs.
    split; [done|]. by intros ?%elem_of_nil.
  - intros [Hr|Hr]%elem_of_cons; [by destruct Hs as [Hs|Hs]; rewrite Hs in Hr|].
    destruct (IH _ Hs Hr) as (before & after & -> & Hn).
    exists (sm_state (transition next m).1 :: before), after. split; [done|].
    intros [Hb|Hb]%elem_of_cons; [by destruct Hs as [Hs|Hs]; rewrite Hs in Hb|done].
Qed.

Lemma running_needs_ready_witness :
  exists before after,
    trace (mkWorkerStateMachine WS_Error) [WS_Running; WS_Draining; WS_Ready; WS_Running]
    = before ++ WS_Ready :: after.
Proof.
  destruct (running_needs_ready (mkWorkerStateMachine WS_Error)
              [WS_Running; WS_Draining; WS_Ready; WS_Running]) as (b & a & Ht & _).
  - by right.
  - vm_compute. do 3 right. left.
  - by exists b, a.
Defined.
