(* ===== verification/Backoff.v ===== *)
(** Reconnect backoff ([src/distributed/backoff.rs]).  The random factor of the
    jitter is an argument. *)

From S2P Require Import Prelude Float.

#[local] Open Scope Z_scope.

Record Backoff := mkBackoff {
  bo_base : duration;
  bo_max : duration;
  bo_factor : f64;
  bo_jitter : bool;
  bo_attempt : Z;
}.

Definition Backoff_new (base max : duration) : Backoff :=
  mkBackoff base max (f64_of_Z 2) true 0.

Definition with_factor (factor : f64) (b : Backoff) : Backoff :=
  mkBackoff (bo_base b) (bo_max b) (f64_max factor f64_one) (bo_jitter b) (bo_attempt b).

Definition with_jitter (jitter : bool) (b : Backoff) : Backoff :=
  mkBackoff (bo_base b) (bo_max b) (bo_factor b) jitter (bo_attempt b).

Definition attempt (b : Backoff) : Z := bo_attempt b.

Definition backoff_reset (b : Backoff) : Backoff :=
  mkBackoff (bo_base b) (bo_max b) (bo_factor b) (bo_jitter b) 0.

(** [None] is the panic of [Duration::from_secs_f64]. *)
Definition delay_for (b : Backoff) (attempt : Z) : option duration :=
  let base := as_secs_f64 (bo_base b) in
  let max := as_secs_f64 (bo_max b) in
  let scaled := f64_mul base (f64_powi (bo_factor b) (Z.min attempt 32)) in
  let secs := f64_min scaled max in
  from_secs_f64 secs.

Definition next_delay (random : f64) (b : Backoff) : Backoff * option duration :=
  let delay := delay_for b (bo_attempt b) in
  let b' := mkBackoff (bo_base b) (bo_max b) (bo_factor b) (bo_jitter b)
              (u32_saturating_add (bo_attempt b) 1) in
  (b', if bo_jitter b
       then d ← delay; from_secs_f64 (f64_mul (as_secs_f64 d) random)
       else delay).

(** The schedule the worker uses to reconnect ([Worker::run]). *)
Definition reconnect_backoff : Backoff := Backoff_new (from_millis 500) (from_secs 30).

(** ** Properties *)

(** Checking a decidable statement on the first [n] naturals by evaluation. *)
Lemma Z_enum_lt (p : Z -> bool) (n : nat) :
  forallb p (Z.of_nat <$> seq 0 n) = true -> forall z, 0 <= z < Z.of_nat n -> p z = true.
Proof.
  intros Hp z Hz. rewrite forallb_forall in Hp.
  apply Hp. apply list_elem_of_In, list_elem_of_fmap.
  exists (Z.to_nat z). split; [lia|]. apply elem_of_seq. lia.
Qed.

Lemma reconnect_delay_small n :
  0 <= n < 33 ->
  delay_for reconnect_backoff n = Some (Z.min (from_millis 500 * 2 ^ n) (from_secs 30)).
Proof.
  intros Hn.
  pose proof (Z_enum_lt (fun n => bool_decide (delay_for reconnect_backoff n
           = Some (Z.min (from_millis 500 * 2 ^ n) (from_secs 30)))) 33) as He.
  eapply bool_decide_eq_true_1, He; [by vm_compute|done].
Qed.

Lemma reconnect_delay_cap n : 6 <= n -> from_secs 30 <= from_millis 500 * 2 ^ n.
Proof.
  intros Hn. pose proof (Z.pow_le_mono_r 2 6 n). unfold from_secs, from_millis, NANOS_PER_SEC, NANOS_PER_MILLI. lia.
Qed.

Lemma reconnect_delay n :
  0 <= n -> delay_for reconnect_backoff n = Some (Z.min (from_millis 500 * 2 ^ n) (from_secs 30)).
Proof.
  intros Hn. destruct (decide (n < 33)); [by apply reconnect_delay_small|].
  rewrite (Z.min_r (_ * 2 ^ n)) by (apply reconnect_delay_cap; lia).
  transitivity (delay_for reconnect_backoff 32); [|by vm_compute].
  unfold delay_for. by rewrite Z.min_r by lia.
Qed.

(** Each call to [next_delay] advances the attempt counter by one,
    saturating at [u32::MAX], and touches nothing else of the schedule, so
    after [k] calls the next deterministic delay is that of attempt
    [min (a + k) u32::MAX]; [reset] goes back to attempt zero. *)
Theorem next_delay_counts (rs : list f64) b :
  0 <= bo_attempt b <= U32_MAX ->
  let b' := foldl (fun b r => (next_delay r b).1) b rs in
  attempt b' = Z.min (bo_attempt b + Z.of_nat (length rs)) U32_MAX /\
  backoff_reset b' = backoff_reset b /\
  (forall n, delay_for b' n = delay_for b n) /\
  delay_for (backoff_reset b') (bo_attempt (backoff_reset b')) = delay_for b 0.
Proof.
  revert b. induction rs as [|r rs IH]; intros b Hb; simpl.
  - split_and!; [unfold attempt; lia|done..].
  - destruct (IH (next_delay r b).1) as (Ha & Hreset & Hd & Hz).
    { simpl. unfold u32_saturating_add, U32_MAX in *. lia. }
    simpl in *. split_and!; [|done..].
    rewrite Ha. unfold u32_saturating_add, U32_MAX in *. lia.
Qed.

Lemma next_delay_counts_witness :
  attempt (foldl (fun b r => (next_delay r b).1) reconnect_backoff [f64_one; f64_zero]) = 2.
Proof.
  destruct (next_delay_counts [f64_one; f64_zero] reconnect_backoff) as [Ha _].
  - unfold U32_MAX. simpl. lia.
  - rewrite Ha. reflexivity.
Defined.
