(* ===== verification/WorkerConfig.v ===== *)
(** Worker daemon configuration ([src/distributed/config.rs]).  Readings of the
    host (its name, its parallelism, its memory) are arguments. *)

From S2P Require Import Prelude RustStr Float Proto.

#[local] Open Scope Z_scope.

Definition DEFAULT_HEARTBEAT_INTERVAL_MS : Z := 2000.
Definition DEFAULT_METRIC_WINDOW_MS : Z := 1000.
Definition DEFAULT_REQUEST_TIMEOUT_MS : Z := 10000.
Definition VUS_PER_CORE : Z := 100.

Record WorkerConfig := mkWorkerConfig {
  wc_master_endpoint : string;
  wc_worker_id : option string;
  wc_hostname : option string;
  wc_ip_address : option string;
  wc_max_vus : Z;
  wc_labels : list string;
  wc_heartbeat_interval_ms : Z;
  wc_metric_window_ms : Z;
  wc_request_timeout_ms : Z;
  wc_tls : bool;
}.

(** The command line with nothing but [--master-endpoint]. *)
Definition WorkerConfig_defaults (master_endpoint : string) : WorkerConfig :=
  mkWorkerConfig master_endpoint None None None 0 [] DEFAULT_HEARTBEAT_INTERVAL_MS DEFAULT_METRIC_WINDOW_MS
    DEFAULT_REQUEST_TIMEOUT_MS false.

(** One label, [key=value]. *)
Definition parse_label (entry : string) : result WorkerError (string * string) :=
  match split_once "=" entry with
  | None => Err (WE_Config ("invalid label '" ++ entry ++ "' (want key=value)"))
  | Some (key, value) =>
      if str_is_empty key then Err (WE_Config ("label '" ++ entry ++ "' has an empty key"))
      else Ok (key, value)
  end.

Fixpoint labels_loop (labels : list string) (map : gmap string string)
  : result WorkerError (gmap string string) :=
  match labels with
  | [] => Ok map
  | entry :: labels => kv ← parse_label entry; labels_loop labels (<[kv.1 := kv.2]> map)
  end.

Definition labels_map (c : WorkerConfig) : result WorkerError (gmap string string) :=
  labels_loop (wc_labels c) ∅.

Definition endpoint_uri (c : WorkerConfig) : string :=
  if str_contains (wc_master_endpoint c) "://" then wc_master_endpoint c
  else
    let scheme := (if wc_tls c then "https" else "http")%string in
    (scheme ++ "://" ++ wc_master_endpoint c)%string.

Definition resolved_hostname (system_host_name : option string) (c : WorkerConfig) : string :=
  match wc_hostname c with
  | Some h => h
  | None => default "unknown-host"%string system_host_name
  end.

Definition resolved_worker_id (system_host_name : option string) (c : WorkerConfig) : string :=
  match wc_worker_id c with
  | Some id => id
  | None => resolved_hostname system_host_name c
  end.

Definition resolved_ip_address (c : WorkerConfig) : string :=
  default "127.0.0.1"%string (wc_ip_address c).

(** [available_parallelism] is an error or a non-zero [usize]. *)
Definition resolved_max_vus (available_parallelism : option Z) (c : WorkerConfig) : Z :=
  if 0 <? wc_max_vus c then wc_max_vus c
  else
    let cores := match available_parallelism with Some n => wrap32 n | None => 1 end in
    Z.max (u32_saturating_mul cores VUS_PER_CORE) VUS_PER_CORE.

Definition capacity (cpus total_memory available_memory : Z) : ResourceCapacity :=
  mkResourceCapacity (wrap32 cpus) total_memory available_memory (S754_zero false).

Definition validate (c : WorkerConfig) : result WorkerError unit :=
  if is_blank (wc_master_endpoint c) then Err (WE_Config "master endpoint must not be empty")
  else if wc_heartbeat_interval_ms c =? 0
  then Err (WE_Config "heartbeat interval must be greater than zero")
  else if wc_metric_window_ms c =? 0
  then Err (WE_Config "metric window must be greater than zero")
  else _ ← labels_map c; Ok ().

(** ** Properties *)

(** What the labels mean: the last well-formed entry for a key wins. *)
Definition label_value (labels : list string) (k : string) : option string :=
  foldl (fun acc entry => match parse_label entry with
                          | Ok (k', v) => if decide (k' = k) then Some v else acc
                          | Err _ => acc
                          end) None labels.

Lemma labels_loop_spec labels m :
  match labels_loop labels m with
  | Ok m' => Forall (fun e => is_ok (parse_label e) = true) labels /\
      forall k, m' !! k = foldl (fun acc entry => match parse_label entry with
                            | Ok (k', v) => if decide (k' = k) then Some v else acc
                            | Err _ => acc end) (m !! k) labels
  | Err e => exists before entry after, labels = before ++ entry :: after /\
      Forall (fun e => is_ok (parse_label e) = true) before /\ parse_label entry = Err e
  end.
Proof.
  revert m. induction labels as [|entry labels IH]; intros m; simpl.
  { split; [constructor|done]. }
  destruct (parse_label entry) as [[k v]|e] eqn:E; simpl.
  - specialize (IH (<[k:=v]> m)). destruct (labels_loop labels _) as [m'|e].
    + destruct IH as [Hok Hm]. split; [constructor; [by rewrite E|done]|].
      intros k'. rewrite Hm. f_equal. destruct (decide (k = k')) as [->|]; by simplify_map_eq.
    + destruct IH as (before & entry' & after & -> & Hb & He).
      exists (entry :: before), entry', after. split_and!; [done| |done].
      constructor; [by rewrite E|done].
  - by exists [], entry, labels.
Qed.

(** Labels are parsed faithfully: either every entry is [key=value] with a
    non-empty key and the map holds, for each key, the value of its last entry
    and nothing else, or the error is the one of the first malformed entry. *)
Theorem labels_map_spec c :
  match labels_map c with
  | Ok m => Forall (fun e => is_ok (parse_label e) = true) (wc_labels c) /\
            forall k, m !! k = label_value (wc_labels c) k
  | Err e => exists before entry after, wc_labels c = before ++ entry :: after /\
            Forall (fun e => is_ok (parse_label e) = true) before /\ parse_label entry = Err e
  end.
Proof.
  pose proof (labels_loop_spec (wc_labels c) ∅) as Hl. unfold labels_map.
  destruct (labels_loop _ _); [|done]. destruct Hl as [Hok Hm]. split; [done|].
  intros k. by rewrite Hm, lookup_empty.
Qed.

(** A validated worker configuration can register: for any host, the VU
    ceiling it advertises is a positive [u32] (at least 100 when derived from
    the cores), the intervals are positive and the labels parse. *)
Theorem validated_config_registers parallelism c :
  0 <= wc_max_vus c <= U32_MAX -> validate c = Ok () ->
  0 < resolved_max_vus parallelism c <= U32_MAX /\
  (wc_max_vus c = 0 -> VUS_PER_CORE <= resolved_max_vus parallelism c) /\
  wc_heartbeat_interval_ms c <> 0 /\ wc_metric_window_ms c <> 0 /\
  is_blank (wc_master_endpoint c) = false /\
  (exists m, labels_map c = Ok m).
Proof.
  intros Hv. unfold validate.
  destruct (is_blank _); [done|]. destruct (Z.eqb_spec (wc_heartbeat_interval_ms c) 0); [done|].
  destruct (Z.eqb_spec (wc_metric_window_ms c) 0); [done|].
  destruct (labels_map c) as [m|] eqn:E; [|done]. intros _.
  unfold resolved_max_vus, u32_saturating_mul, VUS_PER_CORE, U32_MAX in *.
  destruct (Z.ltb_spec 0 (wc_max_vus c)); split_and!; eauto; try lia;
    destruct parallelism; unfold wrap32; pose proof (Z.mod_pos_bound z (2 ^ 32)); lia.
Qed.

Definition sample_config : WorkerConfig :=
  mkWorkerConfig "127.0.0.1:50051" None None None 0 ["zone=a"; "zone=b=c"] 2000 1000 10000 false.

Lemma validated_config_registers_witness :
  0 < resolved_max_vus (Some 8) sample_config <= U32_MAX.
Proof.
  apply (validated_config_registers (Some 8) sample_config).
  - unfold U32_MAX. simpl. lia.
  - reflexivity.
Defined.

Example sample_labels :
  labels_map sample_config = Ok {[ "zone" := "b=c" ]}%string /\
  endpoint_uri sample_config = "http://127.0.0.1:50051"%string.
Proof. split; by vm_compute. Qed.
