(* ===== verification/Executor.v ===== *)
(** Run plans and virtual users ([src/distributed/executor.rs]).

    The [http] crate (methods, header names, values and maps) is a parameter,
    [HttpTypes]; its parsers return an error text or a value.  A virtual user
    is a loop over what it observes at each iteration: the cancellation token,
    the elapsed time, and whether its metric could be sent. *)

From S2P Require Import Prelude RustStr Float Proto.

#[local] Open Scope Z_scope.

Class HttpTypes := {
  Method : Type;
  HeaderName : Type;
  HeaderValue : Type;
  HeaderMap : Type;
  method_GET : Method;
  method_from_bytes : bytes -> result string Method;
  header_name_from_bytes : bytes -> result string HeaderName;
  header_value_from_str : string -> result string HeaderValue;
  header_value_from_static : string -> HeaderValue;
  CONTENT_TYPE : HeaderName;
  header_map_new : HeaderMap;
  header_append : HeaderName -> HeaderValue -> HeaderMap -> HeaderMap;
  header_entry_or_insert : HeaderName -> HeaderValue -> HeaderMap -> HeaderMap;
}.

Record ExecutionPlan `{HttpTypes} := mkExecutionPlan {
  ep_targets : list string;
  ep_method : Method;
  ep_body : option bytes;
  ep_headers : HeaderMap;
  ep_timeout : duration;
  ep_virtual_users : Z;
  ep_duration : option duration;
}.

Section executor.
Context `{HttpTypes}.

Definition plan_targets (config : TestConfiguration) : list string :=
  filter (fun u => str_is_empty u = false) ((fun t => trim (te_url t)) <$> tc_targets config).

Definition plan_method (config : TestConfiguration) : result WorkerError Method :=
  if is_blank (tc_http_method config) then Ok method_GET
  else map_err (fun e => WE_Config ("invalid HTTP method: " ++ e))
         (method_from_bytes (as_bytes (trim (tc_http_method config)))).

Fixpoint plan_headers (headers : list Header) (map : HeaderMap) : result WorkerError HeaderMap :=
  match headers with
  | [] => Ok map
  | h :: headers =>
      name ← map_err (fun e => WE_Config ("invalid header name: " ++ e))
               (header_name_from_bytes (as_bytes (trim (hd_name h))));
      value ← map_err (fun e => WE_Config ("invalid header value: " ++ e))
               (header_value_from_str (hd_value h));
      plan_headers headers (header_append name value map)
  end.

Definition content_type_value (content_type : string) : HeaderValue :=
  match header_value_from_str content_type with
  | Ok v => v
  | Err _ => header_value_from_static "application/octet-stream"
  end.

(** The body of the first non-empty payload template; it also supplies the
    content type unless a header already did. *)
Definition plan_body (payloads : list PayloadTemplate) (map : HeaderMap)
  : option bytes * HeaderMap :=
  match list_find (fun p => pt_body p <> []) payloads with
  | None => (None, map)
  | Some (_, p) =>
      (Some (pt_body p),
       if str_is_empty (pt_content_type p) then map
       else header_entry_or_insert CONTENT_TYPE (content_type_value (pt_content_type p)) map)
  end.

Definition plan_duration (d : option ProtoDuration) : option duration :=
  d ← d;
  let secs := Z.max (pd_seconds d) 0 in
  let nanos := Z.max (pd_nanos d) 0 in
  if (secs =? 0) && (nanos =? 0) then None else Some (secs * NANOS_PER_SEC + nanos).

Definition from_proto (config : TestConfiguration) (max_vus : Z) (default_timeout : duration)
  : result WorkerError ExecutionPlan :=
  let targets := plan_targets config in
  if bool_decide (targets = []) then Err (WE_Config "test configuration has no target endpoints")
  else
    method ← plan_method config;
    headers ← plan_headers (tc_headers config) header_map_new;
    let (body, headers) := plan_body (tc_payloads config) headers in
    let requested_vus := Z.max (tc_virtual_users config) 1 in
    let ceiling := if max_vus =? 0 then requested_vus else max_vus in
    let timeout := if 0 <? tc_request_timeout_ms config
                   then from_millis (tc_request_timeout_ms config) else default_timeout in
    Ok (mkExecutionPlan _ targets method body headers timeout
          (Z.max (Z.min requested_vus ceiling) 1)
          (plan_duration (tc_duration config))).

(** ** Virtual users *)

Record VuTick := mkVuTick {
  vt_cancelled : bool;
  vt_elapsed : duration;
  vt_sent : bool;
}.

(** The URLs a virtual user requests, in order; [None] is the panic of
    [targets[index % targets.len()]] on an empty target list. *)
Fixpoint vu_loop (targets : list string) (limit : option duration) (index : Z)
    (ticks : list VuTick) : option (list string) :=
  match ticks with
  | [] => Some []
  | t :: ticks =>
      if vt_cancelled t then Some []
      else if match limit with Some l => l <=? vt_elapsed t | None => false end then Some []
      else
        url ← (if bool_decide (targets = []) then None
               else targets !! Z.to_nat (index mod Z.of_nat (length targets)));
        if vt_sent t then
          urls ← vu_loop targets limit (wrap64 (index + 1)) ticks;
          Some (url :: urls)
        else Some [url]
  end.

(** Virtual user [vu] of a plan. *)
Definition virtual_user (plan : ExecutionPlan) (vu : Z) (ticks : list VuTick) : option (list string) :=
  vu_loop (ep_targets plan) (ep_duration plan) vu ticks.

(** ** Properties *)

Lemma plan_targets_spec config u :
  u ∈ plan_targets config <->
  str_is_empty u = false /\ exists t, t ∈ tc_targets config /\ u = trim (te_url t).
Proof.
  unfold plan_targets. rewrite list_elem_of_filter, list_elem_of_fmap. naive_solver.
Qed.

(** A plan built from a wire configuration has at least one target, every
    target being a trimmed, non-empty URL of the configuration; its virtual
    users number [max 1 requested] capped by the worker's ceiling (and at
    least one); its timeout is the requested one or the default; and it runs
    forever only when the requested duration is absent or not positive. *)
Theorem from_proto_plan config max_vus default_timeout plan :
  0 <= tc_virtual_users config -> 0 <= max_vus ->
  from_proto config max_vus default_timeout = Ok plan ->
  ep_targets plan <> [] /\
  (forall u, u ∈ ep_targets plan <-> str_is_empty u = false /\
     exists t, t ∈ tc_targets config /\ u = trim (te_url t)) /\
  ep_virtual_users plan =
    (if max_vus =? 0 then Z.max 1 (tc_virtual_users config)
     else Z.min (Z.max 1 (tc_virtual_users config)) max_vus) /\
  1 <= ep_virtual_users plan /\
  ep_timeout plan = (if 0 <? tc_request_timeout_ms config
                     then from_millis (tc_request_timeout_ms config) else default_timeout) /\
  (ep_duration plan = None <->
     forall d, tc_duration config = Some d -> pd_seconds d <= 0 /\ pd_nanos d <= 0) /\
  (forall d, ep_duration plan = Some d -> 0 < d).
Proof.
  intros Hvu Hmax. unfold from_proto. case_bool_decide as Hne; [done|].
  destruct (plan_method config) as [m|]; [|done]. simpl.
  destruct (plan_headers _ _) as [hs|]; [|done]. simpl.
  destruct (plan_body _ _) as [body hs']. intros [= <-]. simpl.
  split_and!; [done|apply plan_targets_spec| | |done| |].
  - destruct (Z.eqb_spec max_vus 0); lia.
  - apply Z.le_max_r.
  - unfold plan_duration. destruct (tc_duration config) as [d|]; simpl; [|split; [done|done]].
    destruct (Z.eqb_spec (Z.max (pd_seconds d) 0) 0), (Z.eqb_spec (Z.max (pd_nanos d) 0) 0); simpl;
      split; try done; try (intros _ ? [= <-]); try (intros Hd; specialize (Hd d eq_refl)); lia.
  - unfold plan_duration. destruct (tc_duration config) as [d|]; simpl; [|done].
    destruct (Z.eqb_spec (Z.max (pd_seconds d) 0) 0), (Z.eqb_spec (Z.max (pd_nanos d) 0) 0); simpl;
      [done|..]; intros ? [= <-]; unfold NANOS_PER_SEC; lia.
Qed.

(** The header loop fails exactly when some header does. *)
Lemma plan_headers_ok hs m :
  is_ok (plan_headers hs m) = true <->
  Forall (fun h => is_ok (header_name_from_bytes (as_bytes (trim (hd_name h)))) = true /\
                   is_ok (header_value_from_str (hd_value h)) = true) hs.
Proof.
  revert m. induction hs as [|h hs IH]; intros m; simpl; [by split; [constructor|]|].
  rewrite Forall_cons.
  destruct (header_name_from_bytes _), (header_value_from_str _); simpl; rewrite ?IH; naive_solver.
Qed.

(** Building a plan fails exactly when the configuration names no non-blank
    target, or its method, a header name or a header value is rejected by the
    HTTP types. *)
Theorem from_proto_ok_iff config max_vus default_timeout :
  is_ok (from_proto config max_vus default_timeout) = true <->
  (exists t, t ∈ tc_targets config /\ is_blank (te_url t) = false) /\
  (is_blank (tc_http_method config) = true \/
   is_ok (method_from_bytes (as_bytes (trim (tc_http_method config)))) = true) /\
  Forall (fun h => is_ok (header_name_from_bytes (as_bytes (trim (hd_name h)))) = true /\
                   is_ok (header_value_from_str (hd_value h)) = true) (tc_headers config).
Proof.
  assert (Ht : plan_targets config <> [] <->
               exists t, t ∈ tc_targets config /\ is_blank (te_url t) = false).
  { split.
    - intros Hne. destruct (plan_targets config) as [|u us] eqn:E; [done|].
      assert (Hu : u ∈ plan_targets config) by (rewrite E; left).
      apply plan_targets_spec in Hu as (Hu & t & Hin & ->). eauto.
    - intros (t & Hin & Hb) E.
      assert (Hu : trim (te_url t) ∈ plan_targets config) by (apply plan_targets_spec; eauto).
      rewrite E in Hu. by apply elem_of_nil in Hu. }
  rewrite <- Ht, <- (plan_headers_ok _ header_map_new). unfold from_proto, plan_method.
  case_bool_decide; [naive_solver|].
  destruct (is_blank _); simpl; [|destruct (method_from_bytes _); simpl; [|naive_solver]];
    (destruct (plan_headers _ _); simpl; [destruct (plan_body _ _)|]; simpl; naive_solver).
Qed.

Lemma vu_loop_urls targets limit index ticks urls :
  targets <> [] -> 0 <= index -> index + Z.of_nat (length ticks) <= U64_MAX ->
  vu_loop targets limit index ticks = Some urls ->
  forall i url, urls !! i = Some url ->
    targets !! Z.to_nat ((index + Z.of_nat i) mod Z.of_nat (length targets)) = Some url.
Proof.
  intros Hne. revert index urls. induction ticks as [|t ticks IH]; intros index urls Hi Hb; simpl.
  { by intros [= <-]. }
  destruct (vt_cancelled t); [by intros [= <-]|].
  destruct (match limit with Some l => _ | None => _ end); [by intros [= <-]|].
  rewrite bool_decide_eq_false_2 by done. simpl in Hb.
  destruct (targets !! _) as [url|] eqn:Hu; simpl; [|done].
  destruct (vt_sent t).
  - destruct (vu_loop _ _ _ ticks) as [urls'|] eqn:Hl; simpl; [|done]. intros [= <-] [|i] url' Hurl.
    + simpl in Hurl. simplify_eq. by rewrite Z.add_0_r.
    + simpl in Hurl. rewrite wrap64_small in Hl by (unfold in_u64; lia).
      rewrite <- (IH (index + 1) urls' ltac:(lia) ltac:(lia) Hl i url' Hurl). do 3 f_equal. lia.
  - intros [= <-] [|i] url' Hurl; simpl in Hurl; simplify_eq. by rewrite Z.add_0_r.
Qed.

Lemma vu_loop_total targets limit index ticks :
  targets <> [] -> is_Some (vu_loop targets limit index ticks).
Proof.
  intros Hne. revert index. induction ticks as [|t ticks IH]; intros index; simpl; [eauto|].
  destruct (vt_cancelled t); [eauto|]. destruct (match limit with Some l => _ | None => _ end); [eauto|].
  rewrite bool_decide_eq_false_2 by done.
  assert (0 < length targets)%nat by (destruct targets; simpl; [done|lia]).
  destruct (lookup_lt_is_Some_2 targets (Z.to_nat (index mod Z.of_nat (length targets)))) as [url ->].
  { pose proof (Z.mod_pos_bound index (Z.of_nat (length targets))). lia. }
  simpl. destruct (vt_sent t); [|eauto]. destruct (IH (wrap64 (index + 1))) as [urls ->]. simpl. eauto.
Qed.

(** Virtual users of a plan never panic and go round-robin: the [i]-th
    request of user [vu] goes to target [(vu + i) mod n] of the [n] targets. *)
Theorem virtual_user_round_robin config max_vus default_timeout plan vu ticks :
  from_proto config max_vus default_timeout = Ok plan ->
  0 <= vu -> vu + Z.of_nat (length ticks) <= U64_MAX ->
  exists urls, virtual_user plan vu ticks = Some urls /\
    forall i url, urls !! i = Some url ->
      ep_targets plan !! Z.to_nat ((vu + Z.of_nat i) mod Z.of_nat (length (ep_targets plan)))
      = Some url.
Proof.
  intros Hp Hvu Hb. assert (Hne : ep_targets plan <> []).
  { unfold from_proto in Hp. case_bool_decide as Hne; [done|].
    destruct (plan_method config); [|done]. simpl in Hp.
    destruct (plan_headers _ _); [|done]. simpl in Hp. destruct (plan_body _ _). by injection Hp as <-. }
  destruct (vu_loop_total (ep_targets plan) (ep_duration plan) vu ticks Hne) as [urls Hu].
  exists urls. split; [done|]. eauto using vu_loop_urls.
Qed.

(** A virtual user stops: after an iteration at which the token is
    cancelled or the duration has elapsed, it sends nothing more. *)
Theorem virtual_user_stops plan vu before t after :
  vt_cancelled t = true \/ (exists d, ep_duration plan = Some d /\ d <= vt_elapsed t) ->
  virtual_user plan vu (before ++ t :: after) = virtual_user plan vu before.
Proof.
  intros Ht. unfold virtual_user. revert vu. induction before as [|b before IH]; intros vu; simpl.
  - destruct Ht as [->|(d & -> & Hd)]; [done|]. destruct (vt_cancelled t); [done|].
    by rewrite (proj2 (Z.leb_le d (vt_elapsed t)) Hd).
  - destruct (vt_cancelled b); [done|]. destruct (match ep_duration plan with Some l => _ | None => _ end); [done|].
    destruct (if bool_decide _ then None else _); simpl; [|done]. by destruct (vt_sent b); rewrite ?IH.
Qed.
End executor.

(** ** A concrete set of HTTP types for the witnesses: tokens without control
    characters are accepted. *)

Definition printable (b : bytes) : bool := forallb (fun c => 31 <? byte_val c) b && negb (bool_decide (b = [])).

Definition simple_parse (b : bytes) : result string string :=
  if printable b then Ok (of_bytes b) else Err "invalid"%string.

#[export] Instance simple_http : HttpTypes | 100 := {
  Method := string;
  HeaderName := string;
  HeaderValue := string;
  HeaderMap := list (string * string);
  method_GET := "GET"%string;
  method_from_bytes := simple_parse;
  header_name_from_bytes := simple_parse;
  header_value_from_str := fun s => simple_parse (as_bytes s);
  header_value_from_static := fun s => s;
  CONTENT_TYPE := "content-type"%string;
  header_map_new := [];
  header_append := fun n v m => m ++ [(n, v)];
  header_entry_or_insert := fun n v m =>
    if decide (n ∈ m.*1) then m else m ++ [(n, v)];
}.

Definition sample_test : TestConfiguration :=
  mkTestConfiguration "run" [mkTargetEndpoint " http://a " "" (S754_zero false);
                             mkTargetEndpoint "  " "" (S754_zero false);
                             mkTargetEndpoint "http://b" "" (S754_zero false)]
    (Some (mkProtoDuration 2 5)) 50 0 [mkHeader "x-id" "7"] [] " POST ".

Definition sample_plan : ExecutionPlan :=
  mkExecutionPlan _ ["http://a"; "http://b"]%string "POST"%string None [("x-id", "7")]%string
    (from_secs 10) 8 (Some 2000000005).

Lemma from_proto_plan_witness :
  from_proto sample_test 8 (from_secs 10) = Ok sample_plan /\ 1 <= ep_virtual_users sample_plan.
Proof.
  assert (Hp : from_proto sample_test 8 (from_secs 10) = Ok sample_plan) by by vm_compute.
  split; [done|]. apply (from_proto_plan sample_test 8 (from_secs 10) sample_plan); simpl; [lia|lia|done].
Defined.

Lemma virtual_user_round_robin_witness :
  exists urls, virtual_user sample_plan 1 [mkVuTick false 0 true; mkVuTick false 1 true] = Some urls.
Proof.
  destruct (virtual_user_round_robin sample_test 8 (from_secs 10) sample_plan 1
              [mkVuTick false 0 true; mkVuTick false 1 true]) as (urls & Hu & _).
  - by vm_compute.
  - lia.
  - unfold U64_MAX. simpl. lia.
  - by exists urls.
Defined.

Lemma virtual_user_stops_witness :
  virtual_user sample_plan 0 ([mkVuTick false 0 true] ++ mkVuTick false 3000000000 true :: [])
  = Some ["http://a"]%string.
Proof.
  rewrite (virtual_user_stops sample_plan 0 [mkVuTick false 0 true] (mkVuTick false 3000000000 true) []).
  - reflexivity.
  - right. exists 2000000005. simpl. split; [done|lia].
Defined.
