(* ===== verification/HttpEngines.v ===== *)
(** The engines that are one HTTP exchange per iteration: [protocols/http.rs],
    [protocols/graphql.rs] and [protocols/soap.rs].

    The server is a function from the request sent to what comes back: an error,
    or a status and the chunks of the body.  URL, JSON and XML parsing are
    third-party code: [url_parse], [Json], and the event stream of [quick_xml]
    are arguments. *)

From S2P Require Import Prelude RustStr Float Json Chaos Samples Config LocalRun Executor.

#[local] Open Scope Z_scope.
#[local] Open Scope rust_scope.

(** ** Requests and responses *)

(** A request as [reqwest::RequestBuilder] accumulates it. *)
Record HttpRequest {Meth U : Type} := mkHttpRequest {
  rq_method : Meth;
  rq_url : U;
  rq_headers : list (string * string);
  rq_body : option bytes;
  rq_timeout : option duration;
}.
Arguments HttpRequest : clear implicits.

Definition rq_header {Me U} (name value : string) (r : HttpRequest Me U) : HttpRequest Me U :=
  mkHttpRequest Me U (rq_method r) (rq_url r) (rq_headers r ++ [(name, value)]) (rq_body r) (rq_timeout r).
Definition rq_with_body {Me U} (b : bytes) (r : HttpRequest Me U) : HttpRequest Me U :=
  mkHttpRequest Me U (rq_method r) (rq_url r) (rq_headers r) (Some b) (rq_timeout r).
Definition rq_with_timeout {Me U} (d : duration) (r : HttpRequest Me U) : HttpRequest Me U :=
  mkHttpRequest Me U (rq_method r) (rq_url r) (rq_headers r) (rq_body r) (Some d).

(** The body arrives in chunks; an [Err] chunk is a read failure. *)
Record HttpResponse := mkHttpResponse {
  hr_status : Z;
  hr_chunks : list (result string bytes);
}.

(** What an iteration reads: the chaos draws, the server, and the clock when it
    is done. *)
Record HttpIo {Me U : Type} := mkHttpIo {
  hi_draw : f32;
  hi_pick : Z;
  hi_send : HttpRequest Me U -> result string HttpResponse;
  hi_elapsed : duration;
}.
Arguments HttpIo : clear implicits.
Arguments mkHttpIo {Me U} _ _ _ _.

Definition CHAOS_HEADER : string := "x-chaos-fault".
Definition BAD_HEADER_VALUE : string := "invalid-header-value".
(** The bytes of the literal of [CORRUPTED_BODY] in [http.rs] and [graphql.rs]. *)
Definition CORRUPTED_BODY : bytes :=
  as_bytes ("{" ++ DQUOTE ++ "payload" ++ DQUOTE ++ ": " ++ DQUOTE ++ "\xff\xfe\xbd\xef" ++ DQUOTE ++ "}")%string.
(** ... and in [soap.rs]. *)
Definition SOAP_CORRUPTED_BODY : bytes :=
  as_bytes "<Envelope><Body><Corrupted/></Body></Envelope>".

(** The chaos branches the three engines share: [base] is the plain request,
    [bare] the one without a body, [corrupted] the replacement body. *)
Definition chaos_request {Me U} (fault : option ChaosFault) (corrupted : bytes)
  (base bare : HttpRequest Me U) : HttpRequest Me U :=
  match fault with
  | Some (LatencySpike _) => base
  | Some CorruptedPayload => rq_with_body corrupted (rq_header CHAOS_HEADER "corrupted-payload" bare)
  | Some MetadataCorruption => rq_header CHAOS_HEADER BAD_HEADER_VALUE base
  | Some ConnectionDrop => rq_with_timeout 1 base
  | None => base
  end.

(** ** [http.rs] *)

(** [drain_body]: the bytes received, and whether a read failed. *)
Fixpoint drain_body (chunks : list (result string bytes)) (total_bytes : Z) : Z * option string :=
  match chunks with
  | [] => (total_bytes, None)
  | Ok chunk :: chunks => drain_body chunks (total_bytes +! Z.of_nat (length chunk))
  | Err e :: _ => (total_bytes, Some e)
  end.

Section http.
Context `{HttpTypes} {Url : Type} (url_parse : string -> result string Url).

Record HttpEngine := mkHttpEngine {
  he_method : Method;
  he_body : option bytes;
  he_chaos : ChaosEngine;
}.

Definition HttpEngine_new : HttpEngine := mkHttpEngine method_GET None (ChaosEngine_new false f64_zero).
Definition with_method (m : Method) (e : HttpEngine) : HttpEngine :=
  mkHttpEngine m (he_body e) (he_chaos e).
Definition with_body (b : option bytes) (e : HttpEngine) : HttpEngine :=
  mkHttpEngine (he_method e) b (he_chaos e).
Definition with_chaos (c : ChaosEngine) (e : HttpEngine) : HttpEngine :=
  mkHttpEngine (he_method e) (he_body e) c.

(** Worker-local cache of parsed target URLs. *)
Record HttpSession := mkHttpSession { hs_urls : gmap string Url }.
Definition HttpSession_default : HttpSession := mkHttpSession ∅.

Definition resolve (target : string) (s : HttpSession) : result string Url * HttpSession :=
  match hs_urls s !! target with
  | Some url => (Ok url, s)
  | None =>
      match url_parse target with
      | Ok url => (Ok url, mkHttpSession (<[target := url]> (hs_urls s)))
      | Err e => (Err e, s)
      end
  end.

Definition http_request (e : HttpEngine) (fault : option ChaosFault) (url : Url) : HttpRequest Method Url :=
  let bare := mkHttpRequest _ _ (he_method e) url [] None None in
  let base := match he_body e with Some b => rq_with_body b bare | None => bare end in
  chaos_request fault CORRUPTED_BODY base bare.

Definition execute_with_url (e : HttpEngine) (io : HttpIo Method Url) (url : Url) : RequestMetric :=
  let fault := select_fault (he_chaos e) (hi_draw io) (hi_pick io) in
  let micros := as_micros (hi_elapsed io) in
  match hi_send io (http_request e fault url) with
  | Err _ => error_metric micros fault
  | Ok response =>
      let '(bytes_received, body_error) := drain_body (hr_chunks response) 0 in
      match body_error with
      | Some _ => b_bytes bytes_received (b_status 0 (builder micros fault))
      | None => b_bytes bytes_received (b_status (hr_status response) (builder micros fault))
      end
  end.

Definition http_iteration (e : HttpEngine) (target : string) (io : HttpIo Method Url) : RequestMetric :=
  match url_parse target with
  | Err _ => error_metric (as_micros (hi_elapsed io)) None
  | Ok url => execute_with_url e io url
  end.

Definition http_iteration_with_context (e : HttpEngine) (target : string) (io : HttpIo Method Url)
  (s : HttpSession) : RequestMetric * HttpSession :=
  match resolve target s with
  | (Ok url, s) => (execute_with_url e io url, s)
  | (Err _, s) => (error_metric (as_micros (hi_elapsed io)) None, s)
  end.

#[export] Instance http_engine (e : HttpEngine) : ProtocolEngine | 10 := {|
  pe_session := HttpSession;
  pe_io := HttpIo Method Url;
  execute_iteration := fun url io => Returned (http_iteration e url io);
  create_worker_context := fun _ => Some HttpSession_default;
  iteration_with_context := fun url io s =>
    let '(m, s) := http_iteration_with_context e url io s in (Returned m, s);
|}.
End http.

(** ** [graphql.rs] and [soap.rs] *)

Definition MAX_PARSE_BYTES : Z := 4 * 1024 * 1024.

(** [drain_body] of the two engines: also buffers a bounded prefix of the body. *)
Fixpoint drain_bounded (limit : Z) (chunks : list (result string bytes)) (total_bytes : Z)
  (buffered : bytes) : Z * option bytes * option string :=
  match chunks with
  | [] => (total_bytes, Some buffered, None)
  | Ok chunk :: chunks =>
      let total_bytes := total_bytes +! Z.of_nat (length chunk) in
      let buffered :=
        if Z.of_nat (length buffered) <? limit then
          let remaining := limit - Z.of_nat (length buffered) in
          buffered ++ take (Z.to_nat (Z.min (Z.of_nat (length chunk)) remaining)) chunk
        else buffered in
      drain_bounded limit chunks total_bytes buffered
  | Err e :: _ => (total_bytes, None, Some e)
  end.

Definition drain_body_buffered (chunks : list (result string bytes)) : Z * option bytes * option string :=
  drain_bounded MAX_PARSE_BYTES chunks 0 [].

Section post.
Context `{HttpTypes} (method_POST : Method).

(** The iteration the two engines share; [inspect] counts the logical errors of
    the body and [stamp] puts them on the metric. *)
Definition post_iteration (chaos : ChaosEngine) (payload corrupted : bytes)
    (inspect : bytes -> option Z) (stamp : option Z -> RequestMetric -> RequestMetric)
    (target : string) (io : HttpIo Method string) : RequestMetric :=
  let fault := select_fault chaos (hi_draw io) (hi_pick io) in
  let micros := as_micros (hi_elapsed io) in
  let bare := mkHttpRequest _ _ method_POST target [] None None in
  match hi_send io (chaos_request fault corrupted (rq_with_body payload bare) bare) with
  | Err _ => error_metric micros fault
  | Ok response =>
      let '(bytes_received, body, body_error) := drain_body_buffered (hr_chunks response) in
      match body_error with
      | Some _ => b_bytes bytes_received (b_status 0 (builder micros fault))
      | None =>
          stamp (body ≫= inspect)
            (b_bytes bytes_received (b_status (hr_status response) (builder micros fault)))
      end
  end.

(** *** GraphQL *)

Definition build_payload `{Json} (query : string) (variables operation_name : option string)
  : result string bytes :=
  let obj := json_insert "query" (JString query) [] in
  obj ← match variables with
        | Some raw =>
            parsed ← map_err (fun e => ("graphql_variables is not valid JSON: " ++ e)%string)
                       (json_parse (as_bytes raw));
            if is_object parsed then Ok (json_insert "variables" parsed obj)
            else Err "graphql_variables must be a JSON object"%string
        | None => Ok obj
        end;
  let obj := match operation_name with
             | Some name => json_insert "operationName" (JString name) obj
             | None => obj
             end in
  Ok (json_print (JObject obj)).

Definition is_ascii_alphabetic (c : ascii) : bool :=
  in_range 65 90 (byte_val c) || in_range 97 122 (byte_val c).

Fixpoint take_while (p : ascii -> bool) (s : bytes) : bytes :=
  match s with c :: s => if p c then c :: take_while p s else [] | [] => [] end.

(** The comment loop; a round drops at least the [#], so the length is enough
    fuel ([skip_comments_eq]).  [None]: a comment runs to the end. *)
Fixpoint skip_comments_fuel (fuel : nat) (rest : bytes) : option bytes :=
  match fuel with
  | O => None
  | S fuel =>
      match trim_start_bytes rest with
      | c :: comment =>
          if Ascii.eqb c "#"%char then
            match position LF comment with
            | Some i => skip_comments_fuel fuel (drop (S i) comment)
            | None => None
            end
          else Some (c :: comment)
      | [] => Some []
      end
  end.
Definition skip_comments (rest : bytes) : option bytes := skip_comments_fuel (S (length rest)) rest.

Definition parse_operation_type (query : string) : string :=
  match skip_comments (as_bytes query) with
  | None => "query"
  | Some rest =>
      let token := of_bytes (take_while is_ascii_alphabetic rest) in
      if String.eqb token "mutation" then "mutation"
      else if String.eqb token "subscription" then "subscription"
      else "query"
  end%string.

Definition count_graphql_errors `{Json} (body : bytes) : option Z :=
  match json_parse body with
  | Ok (JObject obj) =>
      if negb (is_some (json_get "data" obj)) && negb (is_some (json_get "errors" obj)) then None
      else match json_get "errors" obj with
           | None | Some JNull => Some 0
           | Some (JArray errors) => Some (Z.of_nat (length errors))
           | Some _ => Some 1
           end
  | _ => None
  end.

Record GraphqlEngine := mkGraphqlEngine { ge_payload : bytes; ge_chaos : ChaosEngine }.

Definition graphql_iteration `{Json} (e : GraphqlEngine) : string -> HttpIo Method string -> RequestMetric :=
  post_iteration (ge_chaos e) (ge_payload e) CORRUPTED_BODY count_graphql_errors b_graphql.

(** *** SOAP *)

Record SoapRequestHeaders := mkSoapHeaders { sh_content_type : string; sh_soap_action : option string }.

Definition request_headers (version : SoapVersion) (action : option string) : SoapRequestHeaders :=
  match version with
  | Soap11 => mkSoapHeaders "text/xml; charset=utf-8" (Some (default "" action))
  | Soap12 =>
      mkSoapHeaders
        (match action with
         | Some a =>
             if str_is_empty a then "application/soap+xml; charset=utf-8"
             else "application/soap+xml; charset=utf-8; action=" ++ DQUOTE ++ a ++ DQUOTE
         | None => "application/soap+xml; charset=utf-8"
         end) None
  end%string.

(** The events [quick_xml] yields on a body. *)
Inductive XmlEvent :=
  | XmlStart (local_name : string)
  | XmlEmpty (local_name : string)
  | XmlEof
  | XmlOther
  | XmlError.

(** The event loop; the reader ends with [Eof] or an error, so running out of
    events is treated as the end. *)
Fixpoint count_faults (events : list XmlEvent) (saw_element : bool) : option Z :=
  match events with
  | [] | XmlEof :: _ => if saw_element then Some 0 else None
  | XmlStart name :: events | XmlEmpty name :: events =>
      if String.eqb name "Fault" then Some 1 else count_faults events true
  | XmlOther :: events => count_faults events saw_element
  | XmlError :: _ => None
  end.

Definition count_soap_faults (read_events : bytes -> list XmlEvent) (body : bytes) : option Z :=
  count_faults (read_events body) false.

Record SoapEngine := mkSoapEngine { soe_payload : bytes; soe_chaos : ChaosEngine }.

Definition soap_iteration (read_events : bytes -> list XmlEvent) (e : SoapEngine)
  : string -> HttpIo Method string -> RequestMetric :=
  post_iteration (soe_chaos e) (soe_payload e) SOAP_CORRUPTED_BODY (count_soap_faults read_events) b_soap.
End post.

(** ** Lemmas *)

(** The chunks received before the first read failure. *)
Fixpoint good_chunks (chunks : list (result string bytes)) : list bytes * option string :=
  match chunks with
  | [] => ([], None)
  | Ok c :: chunks => let '(l, e) := good_chunks chunks in (c :: l, e)
  | Err e :: _ => ([], Some e)
  end.

Definition received_bytes (chunks : list (result string bytes)) : bytes := concat (good_chunks chunks).1.

Lemma drain_body_spec chunks n :
  in_u64 n ->
  drain_body chunks n =
  (wrap64 (n + Z.of_nat (length (received_bytes chunks))), (good_chunks chunks).2).
Proof.
  unfold received_bytes. revert n. induction chunks as [|[c|e] chunks IH]; intros n Hn; simpl.
  - by rewrite Z.add_0_r, wrap64_small.
  - rewrite IH by apply u64_add_range. destruct (good_chunks chunks) as [l e]; simpl.
    unfold u64_add. rewrite wrap64_add_l, length_app. do 2 f_equal. lia.
  - by rewrite Z.add_0_r, wrap64_small.
Qed.

(** The buffer is the bounded prefix of the body, however it is cut. *)
Lemma take_snoc_bounded (m : Z) (b c : bytes) :
  0 <= m ->
  (if Z.of_nat (length (take (Z.to_nat m) b)) <? m
   then take (Z.to_nat m) b ++
        take (Z.to_nat (Z.min (Z.of_nat (length c)) (m - Z.of_nat (length (take (Z.to_nat m) b))))) c
   else take (Z.to_nat m) b) = take (Z.to_nat m) (b ++ c).
Proof.
  intros Hm. rewrite length_take, take_app.
  destruct (Z.ltb_spec (Z.of_nat (Nat.min (Z.to_nat m) (length b))) m) as [Hlt|Hge].
  - f_equal. destruct (decide (Z.to_nat m - length b <= length c)%nat).
    + f_equal. lia.
    + rewrite !take_ge by lia. done.
  - replace (Z.to_nat m - length b)%nat with 0%nat by lia. by rewrite app_nil_r.
Qed.

Lemma drain_bounded_spec limit chunks n pre :
  in_u64 n -> 0 <= limit ->
  drain_bounded limit chunks n (take (Z.to_nat limit) pre) =
  (wrap64 (n + Z.of_nat (length (received_bytes chunks))),
   match (good_chunks chunks).2 with
   | None => Some (take (Z.to_nat limit) (pre ++ received_bytes chunks))
   | Some _ => None
   end,
   (good_chunks chunks).2).
Proof.
  unfold received_bytes. intros Hn Hl. revert n Hn pre.
  induction chunks as [|[c|e] chunks IH]; intros n Hn pre; simpl.
  - by rewrite Z.add_0_r, wrap64_small, app_nil_r.
  - rewrite (take_snoc_bounded limit pre c) by done.
    rewrite IH by apply u64_add_range. destruct (good_chunks chunks) as [l e]; simpl.
    unfold u64_add. by rewrite wrap64_add_l, length_app, Nat2Z.inj_add, Z.add_assoc, <- app_assoc.
  - by rewrite Z.add_0_r, wrap64_small.
Qed.

(** The inspected part of a body. *)
Definition inspected (chunks : list (result string bytes)) : bytes :=
  take (Z.to_nat MAX_PARSE_BYTES) (received_bytes chunks).

Lemma drain_buffered_spec chunks :
  drain_body_buffered chunks =
  (wrap64 (Z.of_nat (length (received_bytes chunks))),
   match (good_chunks chunks).2 with None => Some (inspected chunks) | Some _ => None end,
   (good_chunks chunks).2).
Proof.
  unfold drain_body_buffered, inspected. generalize MAX_PARSE_BYTES (eq_refl : 0 <=? MAX_PARSE_BYTES = true).
  intros limit Hl%Z.leb_le. pose proof (drain_bounded_spec limit chunks 0 [] ltac:(done) Hl) as Hd.
  rewrite take_nil in Hd. by rewrite Hd.
Qed.

(** The comment loop without fuel. *)
Lemma trim_start_length s : (length (trim_start_bytes s) <= length s)%nat.
Proof.
  remember (length s) as n eqn:Hn. revert s Hn.
  induction (lt_wf n) as [n _ IH]. intros [|a s1] ->; simpl; [lia|].
  destruct (is_ws1 _); [pose proof (IH (length s1) ltac:(simpl; lia) s1 eq_refl); lia|].
  destruct s1 as [|b s2]; simpl; [lia|].
  destruct (is_ws2 _ _); [pose proof (IH (length s2) ltac:(simpl; lia) s2 eq_refl); lia|].
  destruct s2 as [|c s3]; simpl; [lia|].
  destruct (is_ws3 _ _ _); [pose proof (IH (length s3) ltac:(simpl; lia) s3 eq_refl); lia|simpl; lia].
Qed.

Lemma skip_comments_enough n m rest :
  (length rest < n)%nat -> (length rest < m)%nat ->
  skip_comments_fuel n rest = skip_comments_fuel m rest.
Proof.
  revert m rest. induction n as [|n IH]; intros m rest Hn Hm; [lia|]. destruct m as [|m]; [lia|]. simpl.
  pose proof (trim_start_length rest) as Ht.
  destruct (trim_start_bytes rest) as [|c comment]; [done|]. destruct (Ascii.eqb c "#"); [|done].
  destruct (position LF comment) as [i|]; [|done]. simpl in Ht.
  apply IH; rewrite length_drop; lia.
Qed.

Lemma skip_comments_eq rest :
  skip_comments rest =
  match trim_start_bytes rest with
  | c :: comment =>
      if Ascii.eqb c "#"%char then
        match position LF comment with
        | Some i => skip_comments (drop (S i) comment)
        | None => None
        end
      else Some (c :: comment)
  | [] => Some []
  end.
Proof.
  unfold skip_comments at 1. cbn [skip_comments_fuel]. pose proof (trim_start_length rest) as Ht.
  destruct (trim_start_bytes rest) as [|c comment]; [done|]. destruct (Ascii.eqb c "#"); [|done].
  destruct (position LF comment) as [i|]; [|done]. simpl in Ht. unfold skip_comments.
  apply skip_comments_enough; rewrite length_drop; lia.
Qed.

(** ** Properties *)

Section http_properties.
Context `{HttpTypes} {Url : Type} (url_parse : string -> result string Url).

(** The cache only holds what parsing gives. *)
Definition cache_ok (s : HttpSession (Url:=Url)) : Prop :=
  forall target url, hs_urls s !! target = Some url -> url_parse target = Ok url.

Lemma resolve_spec target s :
  cache_ok s -> (resolve url_parse target s).1 = url_parse target /\ cache_ok (resolve url_parse target s).2.
Proof.
  intros Hs. unfold resolve. destruct (hs_urls s !! target) as [url|] eqn:E.
  { simpl. split; [by rewrite (Hs _ _ E)|done]. }
  destruct (url_parse target) as [url|e] eqn:Ep; [|done]. simpl. split; [done|].
  intros t u. simpl. destruct (decide (t = target)) as [->|Hne].
  - rewrite lookup_insert_eq. by intros [= <-].
  - rewrite lookup_insert_ne by done. apply Hs.
Qed.

(** Iterations of one worker, its session threaded through. *)
Fixpoint run_with_context (e : HttpEngine) (l : list (string * HttpIo Method Url)) (s : HttpSession)
  : list RequestMetric :=
  match l with
  | [] => []
  | (target, io) :: l =>
      let '(m, s) := http_iteration_with_context url_parse e target io s in
      m :: run_with_context e l s
  end.

(** The URL cache is transparent: for every sequence of targets (the
    distributed executor round-robins several), whatever the server, faults and
    clock, the iterations of a worker with its session report exactly the metrics
    of the stateless iterations. *)
Theorem http_cache_transparent (e : HttpEngine) (l : list (string * HttpIo Method Url)) :
  run_with_context e l HttpSession_default =
  (fun '(target, io) => http_iteration url_parse e target io) <$> l.
Proof.
  assert (Hgen : forall s, cache_ok s ->
    run_with_context e l s = (fun '(target, io) => http_iteration url_parse e target io) <$> l).
  { induction l as [|[target io] l IH]; intros s Hs; [done|]. csimpl.
    destruct (resolve_spec target s Hs) as [H1 H2]. unfold http_iteration_with_context, http_iteration.
    destruct (resolve url_parse target s) as [[url|err] s'] eqn:E; simpl in *; rewrite <- H1;
      by rewrite IH. }
  apply Hgen. intros t u. simpl. by rewrite lookup_empty.
Qed.

(** The metric of an HTTP iteration: the body is always drained to its end or
    its first failure and exactly the bytes received are counted (modulo 2^64);
    the status is the server's when the body was complete and 0 when it was
    truncated; a request that was never answered is an error with no bytes. *)
Theorem http_metric_accounts (e : HttpEngine) (io : HttpIo Method Url) (url : Url) :
  let m := execute_with_url e io url in
  match hi_send io (http_request e (select_fault (he_chaos e) (hi_draw io) (hi_pick io)) url) with
  | Err _ => status_code m = 0 /\ rm_bytes_received m = 0 /\ is_error m = true
  | Ok r =>
      rm_bytes_received m = wrap64 (Z.of_nat (length (received_bytes (hr_chunks r)))) /\
      status_code m = (if is_some (good_chunks (hr_chunks r)).2 then 0 else hr_status r)
  end.
Proof.
  unfold execute_with_url. destruct (hi_send io _) as [r|err]; [|done].
  rewrite drain_body_spec by done. by destruct (good_chunks (hr_chunks r)) as [l [err|]].
Qed.
End http_properties.

Section post_properties.
Context `{HttpTypes} (method_POST : Method).

(** GraphQL and SOAP iterations: the bytes are those received, whatever the
    chunking; the logical errors are those found in the first 4 MiB of a complete
    body, and a metric whose body was inspected is an error exactly when the
    HTTP status says so or a logical error was found on it; a truncated body is
    an error, and nothing is inspected. *)
Theorem post_metric_accounts chaos payload corrupted inspect target (io : HttpIo Method string) r :
  let fault := select_fault chaos (hi_draw io) (hi_pick io) in
  let bare := mkHttpRequest _ _ method_POST target [] None None in
  hi_send io (chaos_request fault corrupted (rq_with_body payload bare) bare) = Ok r ->
  let m := post_iteration method_POST chaos payload corrupted inspect b_graphql target io in
  rm_bytes_received m = wrap64 (Z.of_nat (length (received_bytes (hr_chunks r)))) /\
  match (good_chunks (hr_chunks r)).2 with
  | Some _ => status_code m = 0 /\ protocol m = None /\ is_error m = true
  | None =>
      status_code m = hr_status r /\
      match inspect (inspected (hr_chunks r)) with
      | Some n => rm_graphql m = Some (mkGraphqlSample n) /\
          is_error m = ((hr_status r =? 0) || (hr_status r >=? 400) || (n >? 0))
      | None => protocol m = None
      end
  end.
Proof.
  intros fault bare Hsend m. subst m. unfold post_iteration. fold fault bare. rewrite Hsend.
  rewrite drain_buffered_spec. destruct (good_chunks (hr_chunks r)) as [l [err|]] eqn:Eg; simpl.
  - done.
  - destruct (inspect (inspected (hr_chunks r))) as [n|]; [|done].
    split_and!; done.
Qed.

(** GraphQL documents: leading white space and any number of comment lines do
    not change the detected operation, and an unterminated comment is a query. *)
Theorem operation_type_skips_comments (comment : bytes) (query : string) :
  LF ∉ comment ->
  parse_operation_type (of_bytes ("#"%char :: comment ++ LF :: as_bytes query)) =
    parse_operation_type query /\
  parse_operation_type (of_bytes ("#"%char :: comment)) = "query"%string.
Proof.
  intros Hc. unfold parse_operation_type. rewrite !as_of_bytes, !(skip_comments_eq ("#"%char :: _)).
  assert (Htrim : forall s, trim_start_bytes ("#"%char :: s) = "#"%char :: s).
  { intros [|b [|c s]]; done. }
  rewrite !Htrim. cbn [Ascii.eqb eqb]. change (Ascii.eqb "#" "#") with true. cbv iota.
  rewrite (position_app LF comment) by done.
  rewrite (proj2 (position_None LF comment) Hc). split; [|done].
  by rewrite drop_app_ge, Nat.sub_succ_l, Nat.sub_diag by lia.
Qed.
End post_properties.

#[local] Arguments json_insert : simpl never.

(** The GraphQL body: the serialised object has exactly the members [query],
    [variables] and [operationName] that were given, with the variables as parsed;
    building it fails exactly when the variables are not a JSON object. *)
Theorem graphql_payload `{Json} (query : string) (variables name : option string) :
  match build_payload query variables name with
  | Ok b => exists obj, b = json_print (JObject obj) /\
      json_get "query" obj = Some (JString query) /\
      json_get "operationName" obj = (JString <$> name) /\
      (forall other, other <> "query" -> other <> "variables" -> other <> "operationName" ->
         json_get other obj = None)%string /\
      match variables with
      | None => json_get "variables" obj = None
      | Some raw => exists ms, json_parse (as_bytes raw) = Ok (JObject ms) /\
          json_get "variables" obj = Some (JObject ms)
      end
  | Err _ => exists raw, variables = Some raw /\ forall ms, json_parse (as_bytes raw) <> Ok (JObject ms)
  end.
Proof.
  unfold build_payload. set (obj0 := json_insert "query" (JString query) []).
  assert (H0 : json_get "query" obj0 = Some (JString query)) by apply json_get_insert.
  assert (Hn0 : forall other, other <> "query"%string -> json_get other obj0 = None)
    by (intros; unfold obj0; by rewrite json_get_insert_ne).
  assert (Hobj : forall obj, json_get "query" obj = Some (JString query) ->
    (forall other, other <> "query" -> other <> "variables" -> json_get other obj = None)%string ->
    exists obj', json_print (JObject (match name with
        | Some n => json_insert "operationName" (JString n) obj | None => obj end)) = json_print (JObject obj') /\
      json_get "query" obj' = Some (JString query) /\ json_get "operationName" obj' = (JString <$> name) /\
      (forall other, other <> "query" -> other <> "variables" -> other <> "operationName" ->
         json_get other obj' = None)%string /\
      json_get "variables" obj' = json_get "variables" obj).
  { intros obj Hq Hother. destruct name as [n|]; eexists; (split; [done|]); simpl.
    - rewrite json_get_insert, !json_get_insert_ne by done. split_and!; try done.
      intros. rewrite json_get_insert_ne by done. auto.
    - split_and!; auto. }
  destruct variables as [raw|]; cbn [mbind result_bind].
  - destruct (json_parse (as_bytes raw)) as [v|err] eqn:Ep; simpl; [|exists raw; by rewrite Ep].
    destruct v as [| | | | |ms]; simpl; try (exists raw; rewrite Ep; by split).
    destruct (Hobj (json_insert "variables" (JObject ms) obj0)) as (obj' & -> & H1 & H2 & H3 & H4).
    + by rewrite json_get_insert_ne.
    + intros. rewrite json_get_insert_ne by done. auto.
    + exists obj'. split_and!; try done. exists ms. by rewrite H4, json_get_insert.
  - destruct (Hobj obj0 H0) as (obj' & -> & H1 & H2 & H3 & H4); [auto|].
    exists obj'. split_and!; done.
Qed.

(** ** Witnesses *)

#[local] Instance demo_types : HttpTypes := {|
  Method := string; HeaderName := string; HeaderValue := string;
  HeaderMap := list (string * string);
  method_GET := "GET"%string;
  method_from_bytes := fun b => Ok (of_bytes b);
  header_name_from_bytes := fun b => Ok (of_bytes b);
  header_value_from_str := fun s => Ok s;
  header_value_from_static := fun s => s;
  CONTENT_TYPE := "content-type"%string;
  header_map_new := [];
  header_append := fun k v m => m ++ [(k, v)];
  header_entry_or_insert := fun k v m => m;
|}.

Definition demo_post : @Method demo_types := "POST"%string.

(** A server that answers 200 with a body in two chunks. *)
Definition demo_io : HttpIo (@Method demo_types) string :=
  mkHttpIo f64_zero 0 (fun _ => Ok (mkHttpResponse 200 [Ok (as_bytes "{}"); Ok (as_bytes "xyz")]))
    (from_millis 3).

Lemma post_metric_accounts_witness :
  let m := post_iteration demo_post (ChaosEngine_new false f64_zero) [] CORRUPTED_BODY
    (fun b => Some (Z.of_nat (length b))) b_graphql "http://x" demo_io in
  rm_bytes_received m = 5 /\ rm_graphql m = Some (mkGraphqlSample 5) /\ is_error m = true.
Proof.
  destruct (post_metric_accounts demo_post (ChaosEngine_new false f64_zero) [] CORRUPTED_BODY
    (fun b => Some (Z.of_nat (length b))) "http://x" demo_io
    (mkHttpResponse 200 [Ok (as_bytes "{}"); Ok (as_bytes "xyz")]) eq_refl) as (H1 & H2 & H3 & H4).
  intros m. unfold m. rewrite H1. split; [vm_compute; reflexivity|].
  rewrite H3, H4. vm_compute. done.
Defined.

Lemma operation_type_skips_comments_witness :
  parse_operation_type (of_bytes ("#"%char :: as_bytes " counts" ++ LF :: as_bytes " mutation { inc }")) =
  "mutation"%string.
Proof.
  destruct (operation_type_skips_comments (as_bytes " counts") " mutation { inc }") as [H _].
  - vm_compute. set_solver.
  - rewrite H. reflexivity.
Defined.
