(* ===== verification/Connect.v ===== *)
(** Opening connections: the WebSocket handshake ([protocols/websocket.rs],
    [connect_ws] and [ensure_connected]), the shared HTTP/2 connection
    ([protocols/grpc_h2.rs], [connect]), the QUIC endpoint of the HTTP/3 engine
    ([protocols/http3.rs], [ensure_endpoint], [setup_h3],
    [bind_migration_socket]), the event stream ([protocols/sse.rs], [connect]) and
    [HttpEngine::prewarm].

    What the operating system and the libraries answer is an argument: each step
    that can fail is a [result].  The models of the engines take the outcome of
    these functions as an input; the lemmas here connect the two. *)

From S2P Require Import Prelude RustStr Float Chaos Samples Executor HttpEngines Sse GrpcEngine GrpcH2 Http3 WebSocket.

#[local] Open Scope Z_scope.
#[local] Open Scope rust_scope.

(** ** WebSocket handshakes *)

Section websocket.
(** [parse_header] parses a name and a value; it yields the name as the header map
    keys it. *)
Context (parse_header : string * string -> option (string * string)).

(** [headers_mut().insert(name, val)] of every header that parses. *)
Definition ws_headers (headers : list (string * string)) (request : gmap string string) : gmap string string :=
  foldl (fun m h => match parse_header h with Some (name, val) => <[name := val]> m | None => m end) request headers.

(** [into_client_request] yields the headers of the plain upgrade request;
    [connect_async] runs under the timeout ([None]). *)
Definition connect_ws {A} (headers : list (string * string)) (request : result string (gmap string string))
    (connect_async : gmap string string -> option (result string A)) : result EngineError A :=
  request ← map_err ConnectionFailed request;
  match connect_async (ws_headers headers request) with
  | Some (Ok stream) => Ok stream
  | Some (Err e) => Err (ConnectionFailed e)
  | None => Err (ConnectionFailed "connection timed out")
  end.

(** The headers of the handshake: for every name the last configured header
    that parses to it, and the upgrade request's own value where there is none.  A
    configured header replaces the upgrade request's. *)
Theorem ws_headers_last_wins headers request name :
  ws_headers headers request !! name =
  match last (filter (fun v => v.1 = name) (omap parse_header headers)) with
  | Some (_, val) => Some val
  | None => request !! name
  end.
Proof.
  unfold ws_headers. induction headers as [|h headers IH] using rev_ind; [done|].
  rewrite foldl_app, omap_app, filter_app. simpl. destruct (parse_header h) as [[k v]|]; simpl.
  - destruct (decide (k = name)) as [->|Hne].
    + by rewrite lookup_insert_eq, filter_cons_True, filter_nil, last_snoc.
    + by rewrite lookup_insert_ne, filter_cons_False, filter_nil, app_nil_r.
  - by rewrite filter_nil, app_nil_r.
Qed.

(** [PersistentWsSession::ensure_connected] opens its connection the same way. *)
Definition ensure_connected_io (headers : list (string * string)) (request : result string (gmap string string))
    (connect_async : gmap string string -> option (result string Z)) (s : PersistentWsSession)
  : result EngineError Z * PersistentWsSession :=
  if is_some (pw_stream s) && negb (ws_max_reached s) then (Ok 0, s)
  else match connect_ws headers request connect_async with
       | Ok us => (Ok us, set_sent 0 (set_stream (Some []) s))
       | Err e => (Err e, s)
       end.

Lemma connect_ws_error {A} headers request (connect_async : gmap string string -> option (result string A)) e :
  connect_ws headers request connect_async = Err e -> exists msg, e = ConnectionFailed msg.
Proof.
  unfold connect_ws. destruct request as [r|m]; simpl; [|by intros [= <-]; eauto].
  destruct (connect_async _) as [[a|m]|]; intros [= <-]; eauto.
Qed.

(** The session of [WebSocket] is driven by what this handshake yields. *)
Lemma ensure_connected_refines headers request connect_async s :
  exists outcome, ensure_connected_io headers request connect_async s = ws_ensure_connected outcome s.
Proof.
  unfold ensure_connected_io, ws_ensure_connected.
  destruct (connect_ws headers request connect_async) as [us|e] eqn:E.
  - exists (Ok us). done.
  - destruct (connect_ws_error _ _ _ _ E) as [msg ->]. by exists (Err msg).
Qed.
End websocket.

(** ** The shared HTTP/2 connection *)

(** [TcpStream::connect] and the HTTP/2 handshake; the connection is then driven by
    a task of its own. *)
Definition h2_connect (tcp : result string unit) (handshake : result string nat) : result ProtoError nat :=
  _ ← map_err (fun e => ConnectionError ("h2 connect failed: " ++ e)%string) tcp;
  map_err (fun e => ConnectionError ("h2 handshake failed: " ++ e)%string) handshake.

(** [get_send] with its connection. *)
Definition get_send_io (tcp : result string unit) (handshake : result string nat) (conn_us : Z) (s : H2Shared)
  : result string (nat * Z * bool) * H2Shared :=
  get_send (map_err ProtoError_to_string (h2_connect tcp handshake)) conn_us s.

(** The connection is opened once: after a success every caller gets the same
    handle without dialling, until a failure of the handle clears it. *)
Lemma get_send_once tcp handshake conn_us tcp' handshake' conn_us' s c lat reused s' :
  get_send_io tcp handshake conn_us s = (Ok (c, lat, reused), s') ->
  get_send_io tcp' handshake' conn_us' s' = (Ok (c, 0, true), s').
Proof.
  unfold get_send_io, get_send. destruct (sh_send s) as [k|] eqn:Hk.
  - intros [= <- <- <- <-]. by rewrite Hk.
  - destruct (map_err _ _) as [k|e]; [|done]. by intros [= <- <- <- <-].
Qed.

(** ** The QUIC endpoint *)

Record QuicEndpoint := mkQuicEndpoint {
  qe_socket : nat;
  qe_roots : list bytes;
  qe_alpn : list bytes;
  qe_resumption : Z;
  qe_early_data : bool;
  qe_idle_timeout : Z;
  qe_bidi_streams : Z;
  qe_uni_streams : Z;
}.

(** What the operating system and the TLS library answer. *)
Record EndpointIo := mkEndpointIo {
  ep_bind : result string nat;
  ep_nonblocking : result string unit;
  ep_endpoint : result string unit;
  ep_webpki_roots : list bytes;
  ep_parsable : bytes -> bool;          (** [add_parsable_certificates] skips the others *)
  ep_idle : Z -> result string Z;       (** milliseconds as a QUIC variable-length integer *)
  ep_quic_tls : result string unit;
}.

Definition init_endpoint (e : Http3Engine) (extra_roots_der : option bytes) (io : EndpointIo)
  : result string QuicEndpoint :=
  socket ← map_err (fun x => "failed to bind UDP socket: " ++ x)%string (ep_bind io);
  _ ← map_err (fun x => "failed to set nonblocking: " ++ x)%string (ep_nonblocking io);
  _ ← map_err (fun x => "failed to create QUIC endpoint: " ++ x)%string (ep_endpoint io);
  let roots := ep_webpki_roots io
    ++ match extra_roots_der with Some der => if ep_parsable io der then [der] else [] | None => [] end in
  idle ← map_err (fun x => "invalid idle timeout: " ++ x)%string (ep_idle io (idle_timeout e));
  _ ← map_err (fun x => "TLS config error: " ++ x)%string (ep_quic_tls io);
  Ok {| qe_socket := socket; qe_roots := roots; qe_alpn := [as_bytes "h3"]; qe_resumption := 256;
        qe_early_data := h3_zero_rtt e; qe_idle_timeout := idle; qe_bidi_streams := 100; qe_uni_streams := 100 |}.

(** [OnceCell::get_or_try_init]: a failure leaves the cell empty. *)
Definition ensure_endpoint (e : Http3Engine) (extra_roots_der : option bytes) (io : EndpointIo)
    (cell : option QuicEndpoint) : result string QuicEndpoint * option QuicEndpoint :=
  match cell with
  | Some endpoint => (Ok endpoint, cell)
  | None =>
      match init_endpoint e extra_roots_der io with
      | Ok endpoint => (Ok endpoint, Some endpoint)
      | Err x => (Err x, None)
      end
  end.

(** The calls of an engine's iterations, in the order they get the cell. *)
Fixpoint ensure_all (e : Http3Engine) (extra_roots_der : option bytes) (ios : list EndpointIo)
    (cell : option QuicEndpoint) : list (result string QuicEndpoint) * option QuicEndpoint :=
  match ios with
  | [] => ([], cell)
  | io :: ios =>
      let (r, cell) := ensure_endpoint e extra_roots_der io cell in
      let (rs, cell) := ensure_all e extra_roots_der ios cell in (r :: rs, cell)
  end.

Definition setup_h3 (build : result string unit) : result string unit :=
  map_err (fun x => "H3 connection setup failed: " ++ x)%string build.

Definition bind_migration_socket (bind : result string nat) (nonblocking : result string unit) : result string nat :=
  socket ← map_err (fun x => "failed to bind migration socket: " ++ x)%string bind;
  _ ← map_err (fun x => "failed to set nonblocking: " ++ x)%string nonblocking;
  Ok socket.

(** The set-up as the connection code of [Http3] sees it. *)
Definition quic_io (e : Http3Engine) (extra_roots_der : option bytes) (io : EndpointIo) (cell : option QuicEndpoint)
    (build : result string unit) (lookup : string -> Z -> result string nat) (dns_us : Z)
    (dial : QuicEndpoint -> string -> result string Connecting) : QuicIo * option QuicEndpoint :=
  let (r, cell) := ensure_endpoint e extra_roots_der io cell in
  (mkQuicIo (_ ← r; Ok ()) lookup dns_us (fun name => endpoint ← r; dial endpoint name) (setup_h3 build), cell).

Lemma ensure_all_some e der ios endpoint :
  ensure_all e der ios (Some endpoint) = ((fun _ => Ok endpoint) <$> ios, Some endpoint).
Proof. induction ios as [|io ios IH]; csimpl; [done|]. by rewrite IH. Qed.

(** The endpoint is created once and configured by the engine: of the calls of
    any number of iterations, those before the first that can build it fail and
    leave the cell empty for the next to retry, and from then on every call
    returns that one endpoint, whatever the system would answer.  It offers the h3
    protocol only, sends early data only when 0-RTT is configured, and its idle
    timeout is at most 16383 ms. *)
Theorem endpoint_created_once e der ios :
  let (rs, cell) := ensure_all e der ios None in
  exists before after, rs = before ++ after /\
    Forall (fun r => is_ok r = false) before /\
    match cell with
    | None => after = []
    | Some endpoint =>
        (exists io, ios !! length before = Some io /\ init_endpoint e der io = Ok endpoint) /\
        after <> [] /\ Forall (fun r => r = Ok endpoint) after /\
        qe_early_data endpoint = h3_zero_rtt e /\ qe_alpn endpoint = [as_bytes "h3"] /\
        (exists io, ep_idle io (idle_timeout e) = Ok (qe_idle_timeout endpoint)) /\ idle_timeout e <= 16383
    end.
Proof.
  induction ios as [|io ios IH]; simpl; [exists [], []; done|].
  destruct (init_endpoint e der io) as [endpoint|x] eqn:E; simpl.
  - rewrite ensure_all_some. exists [], (Ok endpoint :: ((fun _ => Ok endpoint) <$> ios)). split; [done|].
    split; [constructor|]. split; [by exists io|]. split; [done|].
    split; [constructor; [done|]; by apply Forall_fmap, Forall_true|].
    unfold init_endpoint in E. destruct (ep_bind io), (ep_nonblocking io), (ep_endpoint io); try discriminate.
    simpl in E. destruct (ep_idle io (idle_timeout e)) as [idle|] eqn:Ei; [|discriminate].
    destruct (ep_quic_tls io); [|discriminate]. injection E as <-. simpl.
    split_and!; [done|done|by exists io|unfold idle_timeout; lia].
  - destruct (ensure_all e der ios None) as [rs cell]. destruct IH as (before & after & -> & Hb & Hc).
    exists (Err x :: before), after. split; [done|]. split; [by constructor|]. by destruct cell.
Qed.

(** ** Event streams *)

(** The request [connect] sends. *)
Definition sse_request (headers : list (string * string)) (url : bytes) : HttpRequest string bytes :=
  foldl (fun r h => rq_header h.1 h.2 r) (mkHttpRequest _ _ "GET"%string (normalize_url url) [] None None)
    (build_headers headers).

Definition sse_connect {A} (headers : list (string * string)) (url : bytes)
    (send : HttpRequest string bytes -> result string A) : result string A := send (sse_request headers url).

(** The configured headers are sent as they are, in order, before the defaults. *)
Lemma sse_request_headers headers url : rq_headers (sse_request headers url) = build_headers headers.
Proof.
  unfold sse_request. assert (Hf : forall l r, rq_headers (foldl (fun (r : HttpRequest string bytes) h => rq_header h.1 h.2 r) r l)
    = rq_headers r ++ l).
  { induction l as [|[k v] l IH]; intros r; simpl; [by rewrite app_nil_r|]. rewrite IH. simpl. by rewrite <- app_assoc. }
  by rewrite Hf.
Qed.

(** ** Prewarming *)

Section prewarm.
Context `{HttpTypes} {Url : Type}.

(** The request [prewarm] sends and forgets. *)
Definition prewarm_request (e : HttpEngine) (url : Url) : HttpRequest Method Url :=
  let req := mkHttpRequest _ _ (he_method e) url [] None None in
  match he_body e with Some b => rq_with_body b req | None => req end.

(** It is the request of an iteration without a fault. *)
Lemma prewarm_is_plain_request e url : prewarm_request e url = http_request e None url.
Proof. done. Qed.
End prewarm.
