(* ===== verification/VirtualUsers.v ===== *)
(** The virtual users of a worker with their engine ([src/distributed/executor.rs],
    [build_engine] and [run_virtual_users]; [src/protocols/http.rs]).

    [Executor] models the plan and which URLs a virtual user requests; here the
    engine built from the plan performs the requests, with the session of the
    virtual user threaded through, and yields the metrics that are sent.  The HTTP
    client is the function from requests to responses of [HttpIo]. *)

From S2P Require Import Prelude RustStr Float Chaos Samples Proto Executor LocalRun HttpEngines.

#[local] Open Scope Z_scope.

Section users.
Context `{HttpTypes} {Url : Type} (url_parse : string -> result string Url).

(** [build_engine]: [client] is what the builder of the HTTP client returns. *)
Definition plan_engine (plan : ExecutionPlan) (client : result string unit) : result WorkerError HttpEngine :=
  _ ← map_err (fun e => WE_Config ("failed to build HTTP client: " ++ e)) client;
  Ok (with_chaos ChaosEngine_default (with_body (ep_body plan) (with_method (ep_method plan) HttpEngine_new))).

(** One virtual user: the metrics it sends, in order.  [None] is the panic of the
    target index, as in [vu_loop]. *)
Fixpoint vu_metrics (e : HttpEngine) (targets : list string) (limit : option duration) (index : Z)
    (session : HttpSession) (ticks : list (VuTick * HttpIo Method Url)) : option (list RequestMetric) :=
  match ticks with
  | [] => Some []
  | (t, io) :: ticks =>
      if vt_cancelled t then Some []
      else if match limit with Some l => l <=? vt_elapsed t | None => false end then Some []
      else
        url ← (if bool_decide (targets = []) then None
               else targets !! Z.to_nat (index mod Z.of_nat (length targets)));
        let '(metric, session) := http_iteration_with_context url_parse e url io session in
        if vt_sent t then
          metrics ← vu_metrics e targets limit (wrap64 (index + 1)) session ticks;
          Some (metric :: metrics)
        else Some []
  end.

(** [run_virtual_users]: every virtual user of the plan, or none when the engine
    cannot be built. *)
Definition run_virtual_users (plan : ExecutionPlan) (client : result string unit)
    (ticks : list (list (VuTick * HttpIo Method Url))) : result WorkerError (list (option (list RequestMetric))) :=
  e ← plan_engine plan client;
  Ok ((fun vu => vu_metrics e (ep_targets plan) (ep_duration plan) (Z.of_nat vu) HttpSession_default
                   (default [] (ticks !! vu)))
      <$> seq 0 (Z.to_nat (ep_virtual_users plan))).

(** ** Properties *)

(** The metrics of a virtual user are those of stateless iterations at the URLs of
    [vu_loop]; an iteration whose metric could not be sent is the last. *)
Lemma vu_metrics_stateless e targets limit index session ticks :
  cache_ok url_parse session -> targets <> [] ->
  exists urls metrics, vu_loop targets limit index ticks.*1 = Some urls /\
    vu_metrics e targets limit index session ticks = Some metrics /\
    metrics `prefix_of` zip_with (http_iteration url_parse e) urls ticks.*2 /\
    (length urls <= S (length metrics))%nat /\
    (Forall (fun t => vt_sent t = true) ticks.*1 -> length metrics = length urls).
Proof.
  intros Hc Hne. revert index session Hc. induction ticks as [|[t io] ticks IH]; intros index session Hc; csimpl.
  { exists [], []. split_and!; try done. simpl. lia. }
  destruct (vt_cancelled t); [by exists [], []; split_and!; simpl; auto|].
  destruct (match limit with Some l => _ | None => _ end); [by exists [], []; split_and!; simpl; auto|].
  rewrite bool_decide_false by done.
  assert (0 < length targets)%nat by (destruct targets; simpl; [done|lia]).
  destruct (lookup_lt_is_Some_2 targets (Z.to_nat (index mod Z.of_nat (length targets)))) as [url Hu].
  { pose proof (Z.mod_pos_bound index (Z.of_nat (length targets))). lia. }
  rewrite Hu. csimpl. destruct (resolve_spec url_parse url session Hc) as [H1 H2].
  assert (Hit : http_iteration_with_context url_parse e url io session =
    (http_iteration url_parse e url io, (resolve url_parse url session).2)).
  { unfold http_iteration_with_context, http_iteration. rewrite <- H1.
    by destruct (resolve url_parse url session) as [[u|err] s']. }
  rewrite Hit. destruct (vt_sent t) eqn:Hs.
  - destruct (IH (wrap64 (index + 1)) _ H2) as (urls & metrics & -> & -> & Hp & Hl & Ha). csimpl.
    exists (url :: urls), (http_iteration url_parse e url io :: metrics). split_and!; try done.
    + by apply prefix_cons.
    + simpl. lia.
    + intros [_ Hall]%Forall_cons. simpl. by rewrite Ha.
  - exists [url], []. split_and!; try done; [apply prefix_nil|]. intros [Ht _]%Forall_cons. congruence.
Qed.

Lemma plan_engine_fields plan client e :
  plan_engine plan client = Ok e ->
  he_method e = ep_method plan /\ he_body e = ep_body plan /\ he_chaos e = ChaosEngine_default.
Proof. unfold plan_engine. destruct client as [[]|]; simpl; [|done]. by intros [= <-]. Qed.

(** The engine of a distributed run never injects a fault. *)
Lemma default_no_fault draw pick : select_fault ChaosEngine_default draw pick = None.
Proof. done. Qed.

(** One fault-free exchange, and the metric that reports it. *)
Definition plain_exchange (method : Method) (body : option bytes) (url : string) (io : HttpIo Method Url)
  : RequestMetric :=
  let micros := as_micros (hi_elapsed io) in
  match url_parse url with
  | Err _ => error_metric micros None
  | Ok u =>
      match hi_send io (mkHttpRequest _ _ method u [] body None) with
      | Err _ => error_metric micros None
      | Ok r =>
          let '(n, failed) := drain_body (hr_chunks r) 0 in
          b_bytes n (b_status (match failed with Some _ => 0 | None => hr_status r end) (builder micros None))
      end
  end.

Lemma plan_engine_exchange plan client e url io :
  plan_engine plan client = Ok e ->
  http_iteration url_parse e url io = plain_exchange (ep_method plan) (ep_body plan) url io.
Proof.
  intros (Hm & Hb & Hc)%plan_engine_fields. unfold http_iteration, execute_with_url, plain_exchange, http_request.
  rewrite Hm, Hb, Hc, default_no_fault. destruct (url_parse url) as [u|]; [|done]. simpl.
  destruct (ep_body plan); simpl; (destruct (hi_send io _) as [r|]; [|done]);
    by destruct (drain_body (hr_chunks r) 0) as [n [|]].
Qed.

Lemma from_proto_targets config max_vus timeout plan :
  from_proto config max_vus timeout = Ok plan -> ep_targets plan <> [].
Proof.
  unfold from_proto. case_bool_decide as Hne; [done|]. destruct (plan_method config); [|done]. simpl.
  destruct (plan_headers _ _); [|done]. simpl. destruct (plan_body _ _). by intros [= <-].
Qed.

(** C12. What a distributed run requests.  The virtual users of a plan built from a
    wire configuration never panic, and there are as many as the plan says.  The
    [i]-th metric virtual user [vu] sends is that of one exchange with target
    [(vu + i) mod n]: the request carries the method and the body of the plan and
    nothing else, no fault is injected, and the metric reports the status and the
    bytes of the response, or an error when the URL, the exchange or the body
    failed. *)
Theorem distributed_requests config max_vus default_timeout plan ticks all :
  from_proto config max_vus default_timeout = Ok plan ->
  run_virtual_users plan (Ok ()) ticks = Ok all ->
  Forall (fun l => Z.of_nat (length all) + Z.of_nat (length l) <= U64_MAX) ticks ->
  length all = Z.to_nat (ep_virtual_users plan) /\
  forall vu ms, all !! vu = Some ms -> exists metrics, ms = Some metrics /\
    forall i m, metrics !! i = Some m ->
      exists url t io, (ticks !! vu ≫= fun l => l !! i) = Some (t, io) /\
        ep_targets plan !! Z.to_nat ((Z.of_nat vu + Z.of_nat i) mod Z.of_nat (length (ep_targets plan))) = Some url /\
        m = plain_exchange (ep_method plan) (ep_body plan) url io.
Proof.
  intros Hp%from_proto_targets Hr Hb. unfold run_virtual_users in Hr.
  destruct (plan_engine plan (Ok ())) as [e|] eqn:He; [|done]. simpl in Hr. injection Hr as <-.
  split; [by rewrite length_fmap, length_seq|]. intros vu ms Hms.
  rewrite list_lookup_fmap in Hms. apply fmap_Some in Hms as (k & Hk & ->). apply lookup_seq in Hk as [-> Hvu].
  destruct (vu_metrics_stateless e (ep_targets plan) (ep_duration plan) (Z.of_nat (0 + vu)) HttpSession_default
    (default [] (ticks !! (0 + vu)%nat))) as (urls & metrics & Hu & Hm & [rest Hpre] & _ & _); [by intros ? ?|done|].
  exists metrics. split; [done|]. intros i m Hi.
  assert (Hz : zip_with (http_iteration url_parse e) urls (default [] (ticks !! (0 + vu)%nat)).*2 !! i = Some m)
    by (rewrite Hpre; by apply lookup_app_l_Some).
  apply lookup_zip_with_Some in Hz as (url & io & -> & Hurl & Hio).
  rewrite list_lookup_fmap in Hio. apply fmap_Some in Hio as ([t io'] & Hio & ->). simpl in Hio.
  destruct (ticks !! vu) as [l|] eqn:Hl; [|done]. simpl in *.
  exists url, t, io'. split_and!; [done| |by eapply plan_engine_exchange].
  eapply (vu_loop_urls (ep_targets plan)); [done|lia| |exact Hu|exact Hurl].
  rewrite length_fmap. pose proof (proj1 (Forall_lookup _ _) Hb vu l Hl) as Hle. cbv beta in Hle.
  rewrite length_fmap, length_seq in Hle. rewrite Hl. simpl. lia.
Qed.
End users.

(** ** Witness *)

Definition sample_io : HttpIo string string :=
  mkHttpIo (S754_zero false) 0 (fun r => Ok (mkHttpResponse 200 [Ok (as_bytes (rq_url r))])) 5000.

Lemma distributed_requests_witness :
  exists all, run_virtual_users (fun s => Ok s) sample_plan (Ok ())
    [[(mkVuTick false 0 true, sample_io); (mkVuTick true 1 true, sample_io)]] = Ok all /\
  length all = 8%nat.
Proof.
  eexists. split; [vm_compute; reflexivity|].
  eapply (distributed_requests (fun s => Ok s) sample_test 8 (from_secs 10) sample_plan
    [[(mkVuTick false 0 true, sample_io); (mkVuTick true 1 true, sample_io)]]).
  - by vm_compute.
  - by vm_compute.
  - constructor; [|constructor]. by vm_compute.
Defined.
