(* ===== verification/EngineSetup.v ===== *)
(** From a configuration to a running engine: the set-up half of [lib.rs]
    ([parse_method], [parse_body], [parse_form], [parse_headers], [build_client],
    [build_engine], [run_load_test], [run_load_profiles]) and of
    [protocols/mod.rs] ([SetupError], [is_protocol_url], [detect_protocol]).

    Header maps and methods of the http crate, the HTTP client, URI parsing and
    form encoding are third-party code and arguments. *)

From S2P Require Import Prelude RustStr Json Float Histogram Chaos Samples Aggregate Summary LoadProfile Config.
From S2P Require Import LocalRun StompCodec StompEngine DbEngine GrpcEngine GrpcH2 Http3 WebSocket GraphqlWs Executor HttpEngines.

#[local] Open Scope Z_scope.
#[local] Open Scope rust_scope.

(** ** [protocols/mod.rs] *)

Inductive SetupError :=
  | SE_Grpc (e : ProtoError)
  | SE_Http3 (e : string)
  | SE_Stomp (e : string)
  | SE_Db (e : string).

Definition SetupError_to_string (e : SetupError) : string :=
  match e with
  | SE_Grpc e => "gRPC setup failed: " ++ ProtoError_to_string e
  | SE_Http3 e => "HTTP/3 setup failed: " ++ e
  | SE_Stomp e => "STOMP setup failed: " ++ e
  | SE_Db e => "database setup failed: " ++ e
  end%string.

Definition is_ws_url (url : string) : bool := str_starts_with "ws://" url || str_starts_with "wss://" url.
Definition is_grpc_url (url : string) : bool := str_starts_with "grpc://" url || str_starts_with "grpcs://" url.
Definition is_http3_url (url : string) : bool := str_starts_with "http3://" url || str_starts_with "h3://" url.
Definition is_sse_url (url : string) : bool := str_starts_with "sse://" url || str_starts_with "sses://" url.

Definition is_protocol_url (url : string) : bool :=
  is_ws_url url || is_grpc_url url || is_http3_url url || is_sse_url url || is_stomp_url url || is_db_url url.

(** The warnings of [warn_reserved_options], in order. *)
Definition warn_reserved_options (config : TestConfig) : list string :=
  (if cfg_grpc_use_reflection config
   then ["--grpc-use-reflection is recognized for forward-compatibility but not yet functional; ignoring"] else []) ++
  (if cfg_http3_enabled config
   then ["--http3 is recognized for forward-compatibility but not yet functional; use an http3:// URL scheme instead"]
   else []) ++
  (if is_some (cfg_ws_subscribers config)
   then ["--ws-subscribers is recognized for forward-compatibility but not yet functional; ignoring"] else []).

(** [reqwest::Client::builder()] as [build_client] configures it. *)
Record ClientConfig `{HttpTypes} := mkClientConfig {
  cl_pool_max_idle_per_host : Z;
  cl_timeout : duration;
  cl_connect_timeout : duration;
  cl_tcp_nodelay : bool;
  cl_keep_alive_interval : duration;
  cl_keep_alive_timeout : duration;
  cl_default_headers : HeaderMap;
}.

(** Third-party operations used by the set-up. *)
Class SetupEnv `{HttpTypes, Http3Env, GrpcCodecs} : Type := {
  header_name_from_static : string -> HeaderName;
  header_contains_key : HeaderName -> HeaderMap -> bool;
  header_insert : HeaderName -> HeaderValue -> HeaderMap -> HeaderMap;
  urlencode : string -> string;
  client_build : ClientConfig -> result string ();
  grpc_endpoint : string -> result ProtoError string;
  uri_authority : string -> result string (option string);
}.

(** The settings of [SseEngine::new]. *)
Record SseEngine := mkSseEngine {
  sse_headers : list (string * string);
  sse_chaos : ChaosEngine;
  sse_max_events : option Z;
}.

(** [Arc<dyn ProtocolEngine>]: which engine was built.  An HTTP client is known
    by its settings; [None] is the client of [HttpEngine::new]. *)
Inductive Engine `{HttpTypes} :=
  | E_Http (client : option ClientConfig) (e : HttpEngine)
  | E_Graphql (client : ClientConfig) (e : GraphqlEngine)
  | E_Soap (client : ClientConfig) (e : SoapEngine)
  | E_GraphqlWs (e : GraphqlWsEngine)
  | E_WebSocket (e : WebSocketEngine)
  | E_Grpc (e : GrpcEngine)
  | E_GrpcH2 (e : GrpcH2Engine)
  | E_Http3 (e : Http3Engine)
  | E_Sse (e : SseEngine)
  | E_Stomp (e : StompEngine)
  | E_Db (e : DbEngine).

Section setup.
Context `{SetupEnv, Json}.

Definition detect_protocol (url : string) (config : TestConfig) (chaos : ChaosEngine)
  : result SetupError Engine :=
  let headers := default [] (cfg_headers config) in
  if is_ws_url url then
    Ok (E_WebSocket
      (with_backpressure (cfg_ws_max_buffer_bytes config) (cfg_ws_backpressure_warn_ratio config)
        (with_role (cfg_ws_role config) (cfg_ws_publish_interval_ms config)
          (WebSocketEngine_new headers (cfg_ws_mode config) (cfg_ws_payload config) chaos
            (cfg_timeout_secs config) (cfg_ws_persistent config) (cfg_ws_keepalive_secs config)
            (cfg_ws_max_messages config)))))
  else if is_grpc_url url then
    if cfg_grpc_h2_multiplex config && str_starts_with "grpc://" url then
      engine ← map_err SE_Grpc
        (GrpcH2Engine_new uri_authority url headers chaos (cfg_grpc_service config) (cfg_grpc_method config)
          (cfg_grpc_payload config) (cfg_grpc_deadline_ms config) (cfg_proto_path config));
      Ok (E_GrpcH2 engine)
    else
      engine ← map_err SE_Grpc
        (GrpcEngine_new grpc_endpoint url headers chaos (cfg_grpc_service config) (cfg_grpc_method config)
          (cfg_grpc_payload config) (cfg_grpc_deadline_ms config) (cfg_proto_path config));
      Ok (E_Grpc engine)
  else if is_http3_url url then
    engine ← map_err SE_Http3
      (Http3Engine_new url headers (cfg_method config) (as_bytes <$> cfg_body config) chaos
        (cfg_quic_max_idle_timeout_ms config) (cfg_quic_zero_rtt config));
    Ok (E_Http3 (with_migration (cfg_http3_migrate config) (cfg_http3_migrate_every config) engine))
  else if is_sse_url url then Ok (E_Sse (mkSseEngine headers chaos (cfg_sse_max_events config)))
  else if is_stomp_url url then
    engine ← map_err SE_Stomp
      (StompEngine_new url (default "" (cfg_stomp_destination config)) (cfg_stomp_mode config)
        (cfg_stomp_ack config) (cfg_stomp_receipt config) (as_bytes (default "" (cfg_stomp_message config)))
        (default [] (cfg_stomp_headers config)) chaos (cfg_timeout_secs config));
    Ok (E_Stomp engine)
  else if is_db_url url then
    let pool_max := Z.max (default (cfg_concurrency config) (cfg_db_pool_size config)) 1 in
    engine ← map_err SE_Db
      (DbEngine_new url (default "" (cfg_db_query config)) (default [] (cfg_db_params config))
        (cfg_db_fetch config) (default DEFAULT_MAX_ROWS (cfg_db_max_rows config)) pool_max chaos
        (cfg_timeout_secs config));
    Ok (E_Db engine)
  else if cfg_sse_enabled config then Ok (E_Sse (mkSseEngine headers chaos (cfg_sse_max_events config)))
  else Ok (E_Http None HttpEngine_new).

(** ** [lib.rs]: request parts *)

Definition DEFAULT_CONNECT_TIMEOUT_SECS : Z := 5.
Definition DEFAULT_H2_KEEPALIVE_INTERVAL_SECS : Z := 10.
Definition DEFAULT_H2_KEEPALIVE_TIMEOUT_SECS : Z := 5.

Definition parse_method (method_str : string) : result PyErr Method :=
  map_err (fun _ => PyValueError ("Invalid HTTP method: " ++ method_str)%string)
    (method_from_bytes (as_bytes (to_uppercase method_str))).

Definition parse_body (body : option string) : option bytes := as_bytes <$> body.

Definition encode_pair (kv : string * string) : string := (urlencode kv.1 ++ "=" ++ urlencode kv.2)%string.

Definition parse_form (form : option (list (string * string))) : option bytes :=
  (fun pairs => join_bytes (as_bytes "&") (as_bytes ∘ encode_pair <$> pairs)) <$> form.

Fixpoint append_headers (h : list (string * string)) (header_map : HeaderMap) : result PyErr HeaderMap :=
  match h with
  | [] => Ok header_map
  | (k, v) :: h =>
      name ← map_err (fun e => PyValueError ("Invalid header name '" ++ k ++ "': " ++ e)%string)
               (header_name_from_bytes (as_bytes k));
      val ← map_err (fun e => PyValueError ("Invalid header value for '" ++ k ++ "': " ++ e)%string)
              (header_value_from_str v);
      append_headers h (header_append name val header_map)
  end.

Definition parse_headers (headers : option (list (string * string))) : result PyErr HeaderMap :=
  match headers with
  | Some h => append_headers h header_map_new
  | None => Ok header_map_new
  end.

Definition build_client (concurrency timeout_secs : Z) (header_map : HeaderMap) : result string ClientConfig :=
  let c := {| cl_pool_max_idle_per_host := concurrency;
              cl_timeout := from_secs timeout_secs;
              cl_connect_timeout := from_secs DEFAULT_CONNECT_TIMEOUT_SECS;
              cl_tcp_nodelay := true;
              cl_keep_alive_interval := from_secs DEFAULT_H2_KEEPALIVE_INTERVAL_SECS;
              cl_keep_alive_timeout := from_secs DEFAULT_H2_KEEPALIVE_TIMEOUT_SECS;
              cl_default_headers := header_map |} in
  _ ← client_build c; Ok c.

(** ** [build_engine] *)

Definition graphql_ws_engine_for (config : TestConfig) (query : string) (chaos : ChaosEngine) : GraphqlWsEngine :=
  mkGraphqlWsEngine
    (mkSubscriptionPayload query (cfg_graphql_variables config) (cfg_graphql_operation_name config))
    (default [] (cfg_headers config)) chaos (cfg_timeout_secs config).

Definition build_graphql (config : TestConfig) (query : string) (chaos : ChaosEngine) (pool_size : Z)
  : result PyErr Engine :=
  payload ← map_err PyValueError
    (build_payload query (cfg_graphql_variables config) (cfg_graphql_operation_name config));
  header_map ← parse_headers (cfg_headers config);
  let header_map := header_entry_or_insert CONTENT_TYPE (header_value_from_static "application/json") header_map in
  client ← map_err PyRuntimeError (build_client pool_size (cfg_timeout_secs config) header_map);
  Ok (E_Graphql client (mkGraphqlEngine payload chaos)).

Definition build_soap (config : TestConfig) (chaos : ChaosEngine) (pool_size : Z) : result PyErr Engine :=
  let body := default "" (cfg_body config) in
  let soap_headers := request_headers (cfg_soap_version config) (cfg_soap_action config) in
  header_map ← parse_headers (cfg_headers config);
  header_map ← (if header_contains_key CONTENT_TYPE header_map then Ok header_map
                else value ← map_err PyValueError (header_value_from_str (sh_content_type soap_headers));
                     Ok (header_insert CONTENT_TYPE value header_map));
  header_map ← (match sh_soap_action soap_headers with
                | Some action =>
                    value ← map_err PyValueError (header_value_from_str (quoted action));
                    Ok (header_entry_or_insert (header_name_from_static "soapaction") value header_map)
                | None => Ok header_map
                end);
  client ← map_err PyRuntimeError (build_client pool_size (cfg_timeout_secs config) header_map);
  Ok (E_Soap client (mkSoapEngine (as_bytes body) chaos)).

Definition build_http (config : TestConfig) (chaos : ChaosEngine) (pool_size : Z) : result PyErr Engine :=
  method ← parse_method (cfg_method config);
  let body := parse_body (cfg_body config) in
  let form := parse_form (cfg_form config) in
  header_map ← parse_headers (cfg_headers config);
  let is_form := is_some form in
  final_body ← (if is_some form
                then if is_some body
                     then Err (PyValueError "Cannot specify both --body and --form simultaneously"%string)
                     else Ok form
                else Ok body);
  let header_map :=
    if is_some final_body && negb (header_contains_key CONTENT_TYPE header_map)
    then header_insert CONTENT_TYPE
           (header_value_from_static
             (if is_form then "application/x-www-form-urlencoded" else "application/json")) header_map
    else header_map in
  client ← map_err PyRuntimeError (build_client pool_size (cfg_timeout_secs config) header_map);
  Ok (E_Http (Some client) (with_chaos chaos (HttpEngines.with_body final_body (with_method method HttpEngine_new)))).

Definition build_engine (config : TestConfig) (chaos : ChaosEngine) (pool_size : Z) : result PyErr Engine :=
  let url := cfg_url config in
  match cfg_graphql_query config with
  | Some query =>
      if is_ws_url url then Ok (E_GraphqlWs (graphql_ws_engine_for config query chaos))
      else build_graphql config query chaos pool_size
  | None =>
      if cfg_soap_enabled config then build_soap config chaos pool_size
      else if is_protocol_url url || cfg_sse_enabled config
           then map_err (fun e => PyValueError (SetupError_to_string e)) (detect_protocol url config chaos)
           else build_http config chaos pool_size
  end.

(** ** Constants of the run *)

Definition stomp_run_info (config : TestConfig) : option StompRunInfo :=
  if is_stomp_url (cfg_url config)
  then Some (mkStompRunInfo (default "" (cfg_stomp_destination config)) (StompMode_as_str (cfg_stomp_mode config))
               (StompAck_as_str (cfg_stomp_ack config)) (cfg_stomp_receipt config))
  else None.

Definition db_run_info (config : TestConfig) : option DbRunInfo :=
  let pool_max := Z.max (default (cfg_concurrency config) (cfg_db_pool_size config)) 1 in
  run_info (cfg_url config) pool_max (cfg_db_fetch config).

(** ** The entry points *)

(** [engine_of]: how each engine behaves; [runtime]: building the tokio runtime.
    A run depends on the engine that was built. *)
Context `{Histogram} (engine_of : Engine -> ProtocolEngine) (runtime : result string ()).

Definition run_with (config : TestConfig) (strategy : ConcurrencyStrategy) (engine : Engine)
    (t : @RunTrace (engine_of engine)) : result PyErr TestSummary :=
  let graphql_operation_type := parse_operation_type <$> cfg_graphql_query config in
  let soap_version := if cfg_soap_enabled config then Some (SoapVersion_as_str (cfg_soap_version config)) else None in
  _ ← map_err PyRuntimeError runtime;
  @execute_test _ (engine_of engine) (cfg_url config) strategy (cfg_sys_sample_interval config)
    graphql_operation_type soap_version (stomp_run_info config) (db_run_info config)
    (cfg_timeline_interval_ms config) t.

Definition run_load_test (config : TestConfig) (t : forall e, @RunTrace (engine_of e)) : result PyErr TestSummary :=
  _ ← map_err PyValueError (ensure_concurrency_limit (cfg_concurrency config));
  engine ← build_engine config (ChaosEngine_new (cfg_chaos config) (cfg_chaos_rate config)) (cfg_concurrency config);
  run_with config (CS_Constant (cfg_concurrency config) (cfg_duration_secs config)) engine (t engine).

Definition run_load_profiles (config : TestConfig) (profile : LoadProfile) (t : forall e, @RunTrace (engine_of e))
  : result PyErr TestSummary :=
  _ ← map_err PyValueError (ensure_concurrency_limit (concurrency_upper_bound profile));
  engine ← build_engine config (ChaosEngine_new (cfg_chaos config) (cfg_chaos_rate config)) (max_concurrency profile);
  run_with config (CS_Dynamic profile) engine (t engine).
End setup.

(** ** Which engine runs *)

Inductive EngineKind :=
  | K_Http | K_Graphql | K_Soap | K_GraphqlWs | K_WebSocket | K_Grpc | K_Http3 | K_Sse | K_Stomp | K_Db.

#[export] Instance EngineKind_eq_dec : EqDecision EngineKind.
Proof. solve_decision. Defined.

Definition kind_of `{HttpTypes} (e : Engine) : EngineKind :=
  match e with
  | E_Http _ _ => K_Http
  | E_Graphql _ _ => K_Graphql
  | E_Soap _ _ => K_Soap
  | E_GraphqlWs _ => K_GraphqlWs
  | E_WebSocket _ => K_WebSocket
  | E_Grpc _ | E_GrpcH2 _ => K_Grpc
  | E_Http3 _ => K_Http3
  | E_Sse _ => K_Sse
  | E_Stomp _ => K_Stomp
  | E_Db _ => K_Db
  end.

(** The documented schemes, in no particular order. *)
Definition SCHEMES : list (string * EngineKind) :=
  [("ws://", K_WebSocket); ("wss://", K_WebSocket); ("grpc://", K_Grpc); ("grpcs://", K_Grpc);
   ("http3://", K_Http3); ("h3://", K_Http3); ("sse://", K_Sse); ("sses://", K_Sse);
   ("stomp://", K_Stomp); ("stomps://", K_Stomp); ("postgres://", K_Db); ("postgresql://", K_Db);
   ("mysql://", K_Db); ("mariadb://", K_Db); ("sqlite:", K_Db)]%string.

Lemma prefix_comparable p q s :
  bytes_prefix p s = true -> bytes_prefix q s = true -> bytes_prefix p q || bytes_prefix q p = true.
Proof.
  revert q s. induction p as [|a p IH]; intros q s Hp Hq; [done|].
  destruct s as [|b s]; [done|]. destruct q as [|c q]; [by rewrite orb_true_r|]. simpl in *.
  destruct (Ascii.eqb_spec a b) as [->|]; [|done]. destruct (Ascii.eqb_spec c b) as [->|]; [|done].
  rewrite !Ascii.eqb_refl. simpl in *. by eapply IH.
Qed.

Definition compatible (r1 r2 : string * EngineKind) : bool :=
  negb (bytes_prefix (as_bytes r1.1) (as_bytes r2.1) || bytes_prefix (as_bytes r2.1) (as_bytes r1.1)) ||
  bool_decide (r1.2 = r2.2).

Lemma schemes_compatible : forallb (fun r1 => forallb (compatible r1) SCHEMES) SCHEMES = true.
Proof. vm_compute. reflexivity. Qed.

(** No URL matches schemes of two engines, so the order of the tests is irrelevant. *)
Lemma scheme_unique url r1 r2 :
  r1 ∈ SCHEMES -> r2 ∈ SCHEMES -> str_starts_with r1.1 url = true -> str_starts_with r2.1 url = true -> r1.2 = r2.2.
Proof.
  intros H1 H2 P1 P2. pose proof schemes_compatible as HC. rewrite forallb_forall in HC.
  specialize (HC r1 (proj1 (list_elem_of_In _ _) H1)). rewrite forallb_forall in HC.
  specialize (HC r2 (proj1 (list_elem_of_In _ _) H2)). unfold compatible in HC.
  unfold str_starts_with in P1, P2. rewrite (prefix_comparable _ _ _ P1 P2) in HC. simpl in HC.
  by apply bool_decide_eq_true in HC.
Qed.

(** Some scheme of the kind starts the URL. *)
Definition has_scheme (k : EngineKind) (url : string) : bool :=
  existsb (fun r => bool_decide (r.2 = k) && str_starts_with r.1 url) SCHEMES.

Lemma has_scheme_iff k url :
  has_scheme k url = true <-> exists p, (p, k) ∈ SCHEMES /\ str_starts_with p url = true.
Proof.
  unfold has_scheme. rewrite existsb_exists. split.
  - intros ([p k'] & Hin & [Hk%bool_decide_eq_true Hp]%andb_true_iff). simpl in *. subst k'.
    exists p. by rewrite list_elem_of_In.
  - intros (p & Hin & Hp). exists (p, k). split; [by apply list_elem_of_In|].
    simpl. by rewrite Hp, bool_decide_true.
Qed.

Lemma is_database_url_eq url : is_database_url url = is_db_url url.
Proof.
  unfold is_database_url, is_db_url, driver_from_url.
  by destruct (str_starts_with "postgres://" url), (str_starts_with "postgresql://" url),
    (str_starts_with "mysql://" url), (str_starts_with "mariadb://" url), (str_starts_with "sqlite:" url).
Qed.

Lemma scheme_tests url :
  is_ws_url url = has_scheme K_WebSocket url /\ is_grpc_url url = has_scheme K_Grpc url /\
  is_http3_url url = has_scheme K_Http3 url /\ is_sse_url url = has_scheme K_Sse url /\
  is_stomp_url url = has_scheme K_Stomp url /\ is_db_url url = has_scheme K_Db url.
Proof.
  rewrite <- is_database_url_eq.
  unfold is_ws_url, is_grpc_url, is_http3_url, is_sse_url, is_stomp_url, is_database_url, has_scheme, SCHEMES.
  cbn [existsb fst snd].
  repeat match goal with |- context [bool_decide (?a = ?b)] =>
    let v := eval vm_compute in (bool_decide (a = b)) in change (bool_decide (a = b)) with v end.
  simpl. rewrite !orb_false_r, <- !orb_assoc. done.
Qed.

Section which_engine.
Context `{SetupEnv, Json}.

Lemma detect_protocol_kind url config chaos e :
  detect_protocol url config chaos = Ok e ->
  has_scheme (kind_of e) url = true \/
  (forall p k, (p, k) ∈ SCHEMES -> str_starts_with p url = false) /\
  kind_of e = if cfg_sse_enabled config then K_Sse else K_Http.
Proof.
  destruct (scheme_tests url) as (T1 & T2 & T3 & T4 & T5 & T6). unfold detect_protocol.
  assert (Hnone : has_scheme K_WebSocket url = false -> has_scheme K_Grpc url = false ->
    has_scheme K_Http3 url = false -> has_scheme K_Sse url = false -> has_scheme K_Stomp url = false ->
    has_scheme K_Db url = false -> forall p k, (p, k) ∈ SCHEMES -> str_starts_with p url = false).
  { intros N1 N2 N3 N4 N5 N6 p k Hin. destruct (str_starts_with p url) eqn:Hp; [|done]. exfalso.
    assert (Hk : has_scheme k url = true) by (apply has_scheme_iff; eauto).
    unfold SCHEMES in Hin. repeat (apply elem_of_cons in Hin as [[= -> ->]|Hin]; [congruence|]). by apply elem_of_nil in Hin. }
  destruct (is_ws_url url) eqn:E1; [intros [= <-]; left; simpl; congruence|].
  destruct (is_grpc_url url) eqn:E2.
  { intros E. left. assert (kind_of e = K_Grpc) as ->; [|congruence].
    destruct (_ && _); [destruct (GrpcH2Engine_new _ _ _ _ _ _ _ _ _)|destruct (GrpcEngine_new _ _ _ _ _ _ _ _ _)];
      simpl in E; congruence || (injection E as <-; done). }
  destruct (is_http3_url url) eqn:E3.
  { intros E. left. destruct (Http3Engine_new _ _ _ _ _ _ _); simpl in E; [injection E as <-; simpl; congruence|done]. }
  destruct (is_sse_url url) eqn:E4; [intros [= <-]; left; simpl; congruence|].
  destruct (is_stomp_url url) eqn:E5.
  { intros E. left. destruct (StompEngine_new _ _ _ _ _ _ _ _ _); simpl in E; [injection E as <-; simpl; congruence|done]. }
  destruct (is_db_url url) eqn:E6.
  { intros E. left. destruct (DbEngine_new _ _ _ _ _ _ _ _); simpl in E; [injection E as <-; simpl; congruence|done]. }
  intros E. right. split; [apply Hnone; congruence|].
  destruct (cfg_sse_enabled config); injection E as <-; done.
Qed.

(** The URL decides the engine: whatever documented scheme the URL starts with,
    the engine detected is the one of that scheme (no URL matches the schemes of
    two engines, so this does not depend on the order of the tests); a URL with
    none of them gets the SSE engine when that is enabled and HTTP otherwise. *)
Theorem engine_matches_url url config chaos e :
  detect_protocol url config chaos = Ok e ->
  (forall p k, (p, k) ∈ SCHEMES -> str_starts_with p url = true -> kind_of e = k) /\
  ((forall p k, (p, k) ∈ SCHEMES -> str_starts_with p url = false) ->
   kind_of e = if cfg_sse_enabled config then K_Sse else K_Http).
Proof.
  intros E. apply detect_protocol_kind in E as [Hs|[Hn Hk]].
  - apply has_scheme_iff in Hs as (p & Hin & Hp). split.
    + intros p' k Hin' Hp'. apply (scheme_unique url (p, kind_of e) (p', k)); done.
    + intros Hn. specialize (Hn p _ Hin). congruence.
  - split; [|done]. intros p k Hin Hp. specialize (Hn p k Hin). congruence.
Qed.

(** ** The constants stamped on the report *)

Lemma build_engine_special config chaos pool e :
  build_engine config chaos pool = Ok e -> kind_of e = K_Db \/ kind_of e = K_Stomp ->
  detect_protocol (cfg_url config) config chaos = Ok e.
Proof.
  intros E Hk. unfold build_engine in E. destruct (cfg_graphql_query config) as [q|].
  { destruct (is_ws_url _); [injection E as <-; by destruct Hk|]. unfold build_graphql in E.
    destruct (build_payload _ _ _); [simpl in E|done]. destruct (parse_headers _); [simpl in E|done].
    destruct (build_client _ _ _); [simpl in E|done]. injection E as <-. by destruct Hk. }
  destruct (cfg_soap_enabled config).
  { unfold build_soap in E. destruct (parse_headers _) as [hm|]; [simpl in E|done].
    destruct (if header_contains_key _ _ then _ else _) as [hm2|]; [simpl in E|done].
    destruct (match sh_soap_action _ with Some _ => _ | None => _ end) as [hm3|]; [simpl in E|done].
    destruct (build_client _ _ _); [simpl in E|done]. injection E as <-. by destruct Hk. }
  destruct (_ || _).
  { destruct (detect_protocol _ _ _); simpl in E; congruence. }
  unfold build_http in E. destruct (parse_method _); [simpl in E|done]. destruct (parse_headers _); [simpl in E|done].
  destruct (cfg_form config), (cfg_body config); simpl in E; try done;
    (destruct (build_client _ _ _); [simpl in E|done]); injection E as <-; by destruct Hk.
Qed.

(** The constants the report shows are those of the engine that ran: for a
    database run the driver, the pool limit and the fetch mode; for a STOMP run
    the destination, mode, acknowledgement and receipts. *)
Theorem run_constants_match config chaos pool e :
  build_engine config chaos pool = Ok e ->
  match e with
  | E_Db d => db_run_info config =
      Some (mkDbRunInfo (driver_as_str (de_driver d)) (de_pool_max d) (if de_fetch d then "fetch" else "execute")%string)
  | E_Stomp s => stomp_run_info config =
      Some (mkStompRunInfo (se_destination s) (StompMode_as_str (se_mode s)) (StompAck_as_str (se_ack s)) (se_receipt s))
  | _ => True
  end.
Proof.
  intros E. destruct e as [| | | | | | | | |s|d]; try done;
    (apply build_engine_special in E; [|by simpl; auto]); pose proof E as E0;
    apply detect_protocol_kind in E0 as [Hs|[_ Hk]]; try (by destruct (cfg_sse_enabled config));
    simpl in Hs; destruct (scheme_tests (cfg_url config)) as (T1 & T2 & T3 & T4 & T5 & T6);
    unfold detect_protocol in E;
    (destruct (is_ws_url _); [done|]);
    (destruct (is_grpc_url _); [destruct (_ && _);
      [destruct (GrpcH2Engine_new _ _ _ _ _ _ _ _ _)|destruct (GrpcEngine_new _ _ _ _ _ _ _ _ _)]; done|]);
    (destruct (is_http3_url _); [by destruct (Http3Engine_new _ _ _ _ _ _ _)|]);
    (destruct (is_sse_url _); [done|]).
  - rewrite T5, Hs in E. unfold stomp_run_info. rewrite T5, Hs.
    unfold StompEngine_new in E. destruct (is_blank _); [done|]. destruct (parse_authority _); [|done].
    simpl in E. by injection E as <-.
  - destruct (is_stomp_url _); [by destruct (StompEngine_new _ _ _ _ _ _ _ _ _)|].
    destruct (is_db_url _); [|by destruct (cfg_sse_enabled config)].
    unfold db_run_info, run_info. unfold DbEngine_new in E. destruct (driver_from_url _) as [dr|]; [|done].
    simpl in E. destruct (is_blank _); [done|]. injection E as <-. simpl.
    do 2 f_equal. lia.
Qed.

(** ** Set-up errors *)










End which_engine.

(** ** Witnesses *)

#[local] Instance demo_setup_types : HttpTypes := {|
  Method := string; HeaderName := string; HeaderValue := string;
  HeaderMap := list (string * string);
  method_GET := "GET"%string;
  method_from_bytes := fun b => Ok (of_bytes b);
  header_name_from_bytes := fun b => Ok (of_bytes b);
  header_value_from_str := fun s => Ok s;
  header_value_from_static := fun s => s;
  CONTENT_TYPE := "content-type"%string;
  header_map_new := [];
  header_append := fun k v m => m ++ [(k, v)];
  header_entry_or_insert := fun k v m => if existsb (fun h => String.eqb h.1 k) m then m else m ++ [(k, v)];
|}.

#[local] Instance demo_h3_env : Http3Env := {|
  uri_parse := fun u => Ok (mkUriParts (Some "x"%string) None None); to_uppercase := fun s => s |}.

#[local] Instance demo_codecs : GrpcCodecs := {|
  json_to_protobuf := fun _ _ _ _ => Ok []; hex_decode := Ok; base64_decode := Ok |}.

#[local] Instance demo_setup_json : Json := {| json_parse := fun _ => Ok JNull; json_print := fun _ => [] |}.

#[local] Instance demo_setup : SetupEnv := {|
  header_name_from_static := fun s => s;
  header_contains_key := fun k m => existsb (fun h => String.eqb h.1 k) m;
  header_insert := fun k v m => (k, v) :: filter (fun h => h.1 <> k) m;
  urlencode := fun s => s;
  client_build := fun _ => Ok ();
  grpc_endpoint := Ok;
  uri_authority := fun u => Ok (Some u);
|}.

Definition demo_chaos : ChaosEngine := ChaosEngine_new false f64_zero.

Definition demo_db_config : TestConfig :=
  build (bset_db_query (Some "SELECT 1"%string) (TestConfigBuilder_new "postgres://db/x")).

Lemma engine_matches_url_witness :
  exists e, detect_protocol "grpcs://x:1" (build (TestConfigBuilder_new "grpcs://x:1")) demo_chaos = Ok e /\
    kind_of e = K_Grpc.
Proof.
  destruct (detect_protocol "grpcs://x:1" (build (TestConfigBuilder_new "grpcs://x:1")) demo_chaos) as [e|] eqn:E;
    [|discriminate E].
  exists e. split; [done|]. apply (proj1 (engine_matches_url _ _ _ _ E) "grpcs://"%string); [|reflexivity].
  apply (bool_decide_unpack _). reflexivity.
Defined.

Lemma run_constants_match_witness :
  db_run_info demo_db_config = Some (mkDbRunInfo "postgres" 10 "execute").
Proof.
  pose proof (run_constants_match demo_db_config demo_chaos 10) as H.
  destruct (build_engine demo_db_config demo_chaos 10) as [e|] eqn:E; [|discriminate E].
  specialize (H e eq_refl). injection E as <-. exact H.
Defined.

