(* ===== verification/Telemetry.v ===== *)
(** Windowed telemetry collector of the worker
    ([src/distributed/telemetry.rs]): request outcomes are folded into the open
    window, and closing the window yields one [MetricBatch].  The wall clock
    ([now_unix_ms]) is an argument. *)

From S2P Require Import Prelude RustStr Float Histogram Chaos Samples Proto.

#[local] Open Scope Z_scope.
#[local] Open Scope rust_scope.

Definition classify_error (status_code : Z) : ErrorClass :=
  if (400 <=? status_code) && (status_code <=? 499) then EC_Http4xx
  else if (500 <=? status_code) && (status_code <=? 599) then EC_Http5xx
  else EC_Other.

Record WindowedCollector `{Histogram} := mkWindowedCollector {
  co_worker_id : string;
  co_test_run_id : string;
  co_window : duration;
  co_window_start_ms : Z;
  co_histogram : hist;
  co_total : Z;
  co_success : Z;
  co_failure : Z;
  co_bytes_received : Z;
  co_active_vus : Z;
  co_errors : gmap Z (Z * option string);
  co_batch_seq : Z;
}.

Section collector.
Context `{Histogram} `{MapOrder}.

Definition latency_summary (h : hist) : LatencySummary :=
  if hist_is_empty h then
    mkLatencySummary (S754_zero false) (S754_zero false) (S754_zero false) (S754_zero false)
      (S754_zero false) (S754_zero false) (S754_zero false) (S754_zero false) 0
      (replicate (length HISTOGRAM_BUCKET_ORDER) 0)
  else
    let as_ms us := f32_of_f64 (f64_div (f64_of_Z us) MICROS_PER_MILLI) in
    let q p := as_ms (hist_value_at_quantile p h) in
    {| ls_p50_ms := q (f64_lit 50 100);
       ls_p90_ms := q (f64_lit 90 100);
       ls_p95_ms := q (f64_lit 95 100);
       ls_p99_ms := q (f64_lit 99 100);
       ls_min_ms := as_ms (hist_min h);
       ls_max_ms := as_ms (hist_max h);
       ls_mean_ms := f32_of_f64 (f64_div (hist_mean h) MICROS_PER_MILLI);
       ls_std_dev_ms := f64_div (hist_stdev h) MICROS_PER_MILLI;
       ls_sample_count := hist_len h;
       ls_bucket_counts := histogram_buckets h |}.

Definition WindowedCollector_new (now : Z) (worker_id test_run_id : string) (window : duration)
  : WindowedCollector :=
  mkWindowedCollector _ worker_id test_run_id window now new_histogram 0 0 0 0 0 ∅ 0.

Definition pending_requests (c : WindowedCollector) : Z := co_total c.

Definition set_active_vus (n : Z) (c : WindowedCollector) : WindowedCollector :=
  mkWindowedCollector _ (co_worker_id c) (co_test_run_id c) (co_window c) (co_window_start_ms c)
    (co_histogram c) (co_total c) (co_success c) (co_failure c) (co_bytes_received c) n
    (co_errors c) (co_batch_seq c).

Definition collector_record (m : RequestMetric) (c : WindowedCollector) : WindowedCollector :=
  let total := co_total c +! 1 in
  let '(success, failure, errors) :=
    if is_error m then
      (co_success c, co_failure c +! 1,
       entry_update (0, None) (fun e => (e.1 +! 1, e.2))
         (ErrorClass_to_i32 (classify_error (status_code m))) (co_errors c))
    else (co_success c +! 1, co_failure c, co_errors c) in
  let latency := u64_try_from_or_max (latency_micros m) in
  mkWindowedCollector _ (co_worker_id c) (co_test_run_id c) (co_window c) (co_window_start_ms c)
    (hist_record latency (co_histogram c)) total success failure
    (co_bytes_received c +! rm_bytes_received m) (co_active_vus c) errors (co_batch_seq c).

Definition error_breakdowns (errors : gmap Z (Z * option string)) : list ErrorBreakdown :=
  (fun e => mkErrorBreakdown e.1 e.2.1 (default ""%string e.2.2)) <$> map_iter errors.

Definition window_batch (c : WindowedCollector) : MetricBatch :=
  let window_secs := f64_max (as_secs_f64 (co_window c)) f64_epsilon in
  {| mb_worker_id := co_worker_id c;
     mb_test_run_id := co_test_run_id c;
     mb_batch_id := u64_to_string (co_batch_seq c);
     mb_window_start_unix_ms := co_window_start_ms c;
     mb_window_duration_ms := wrap32 (as_millis (co_window c));
     mb_total_requests := co_total c;
     mb_success_count := co_success c;
     mb_failure_count := co_failure c;
     mb_bytes_received := co_bytes_received c;
     mb_bytes_sent := 0;
     mb_active_vus := co_active_vus c;
     mb_latency := Some (latency_summary (co_histogram c));
     mb_errors := error_breakdowns (co_errors c);
     mb_requests_per_second := f64_div (f64_of_Z (co_total c)) window_secs |}.

Definition reset_window (now : Z) (c : WindowedCollector) : WindowedCollector :=
  mkWindowedCollector _ (co_worker_id c) (co_test_run_id c) (co_window c) now
    new_histogram 0 0 0 0 (co_active_vus c) ∅ (co_batch_seq c +! 1).

Definition take_batch (now : Z) (c : WindowedCollector) : WindowedCollector * option MetricBatch :=
  if co_total c =? 0 then (c, None) else (reset_window now c, Some (window_batch c)).

(** ** Specification: a window is the list of outcomes recorded in it *)

Definition error_class_of (m : RequestMetric) : Z :=
  ErrorClass_to_i32 (classify_error (status_code m)).

Definition latency_of (m : RequestMetric) : Z := u64_try_from_or_max (latency_micros m).

(** Failed outcomes of one error class. *)
Definition class_count (class : Z) (l : list RequestMetric) : Z :=
  count_if (fun m => is_error m && (error_class_of m =? class)) l.

(** The collector holds exactly the open window [l]. *)
Record holds (c : WindowedCollector) (l : list RequestMetric) : Prop := {
  holds_hist : co_histogram c = hist_of (latency_of <$> l);
  holds_total : co_total c = Z.of_nat (length l);
  holds_success : co_success c = count_if (fun m => negb (is_error m)) l;
  holds_failure : co_failure c = count_if is_error l;
  holds_bytes : co_bytes_received c = wrap64 (Zsum (rm_bytes_received <$> l));
  holds_errors : forall class, co_errors c !! class =
    if class_count class l =? 0 then None else Some (class_count class l, None);
  holds_error_total : map_total fst (co_errors c) = co_failure c;
}.

(** What a batch says about the window it closes. *)
Record describes (l : list RequestMetric) (b : MetricBatch) : Prop := {
  desc_total : mb_total_requests b = Z.of_nat (length l);
  desc_success : mb_success_count b = count_if (fun m => negb (is_error m)) l;
  desc_failure : mb_failure_count b = count_if is_error l;
  desc_split : mb_success_count b + mb_failure_count b = mb_total_requests b;
  desc_bytes : mb_bytes_received b = wrap64 (Zsum (rm_bytes_received <$> l));
  desc_class : forall e, e ∈ mb_errors b ->
    eb_count e = class_count (eb_error_class e) l /\ 0 < eb_count e;
  desc_error_total : u64_sum (eb_count <$> mb_errors b) = mb_failure_count b;
  desc_samples : exists s, mb_latency b = Some s /\ ls_sample_count s = Z.of_nat (length l) /\
    length (ls_bucket_counts s) = 10%nat /\ u64_sum (ls_bucket_counts s) = Z.of_nat (length l);
}.

Lemma count_if_snoc {A} (p : A -> bool) l x :
  count_if p (l ++ [x]) = count_if p l + (if p x then 1 else 0).
Proof. unfold count_if. rewrite fmap_app, Zsum_app. simpl. lia. Qed.

Lemma in_u64_count {A} (p : A -> bool) (l : list A) n :
  Z.of_nat (length l) + n <= U64_MAX -> 0 <= n -> in_u64 (count_if p l + n).
Proof. pose proof (count_if_bounds p l). unfold in_u64. lia. Qed.

Lemma holds_nil_new now worker run window : holds (WindowedCollector_new now worker run window) [].
Proof. by constructor. Qed.

Lemma holds_nil_reset now c : holds (reset_window now c) [].
Proof. by constructor. Qed.

Lemma holds_record m c l :
  Z.of_nat (length l) + 1 <= U64_MAX -> holds c l -> holds (collector_record m c) (l ++ [m]).
Proof.
  intros Hl Hc. destruct Hc as [Hh Ht Hs Hf Hb He Het].
  assert (Hcount : forall p : RequestMetric -> bool, count_if p l +! 1 = count_if p l + 1)
    by (intros p; apply u64_add_small, in_u64_count; lia).
  unfold collector_record. constructor; simpl.
  - rewrite fmap_app. csimpl. rewrite hist_of_snoc, <- Hh. by destruct (is_error m).
  - assert (Ht1 : co_total c +! 1 = Z.of_nat (length (l ++ [m]))).
    { rewrite Ht, length_app, u64_add_small by (unfold in_u64; lia). simpl. lia. }
    by destruct (is_error m).
  - rewrite count_if_snoc. destruct (is_error m); simpl; rewrite Hs, ?Hcount; lia.
  - rewrite count_if_snoc. destruct (is_error m); simpl; rewrite Hf, ?Hcount; lia.
  - assert (Hb1 : co_bytes_received c +! rm_bytes_received m
                  = wrap64 (Zsum (rm_bytes_received <$> l ++ [m]))).
    { rewrite Hb, fmap_app, Zsum_app. simpl. wrap_solve. }
    by destruct (is_error m).
  - intros class. unfold class_count. rewrite count_if_snoc. fold (class_count class l).
    fold (error_class_of m). pose proof (count_if_bounds (fun m => is_error m && (error_class_of m =? class)) l) as Hcb.
    fold (class_count class l) in Hcb.
    destruct (is_error m); simpl; [|by rewrite He, Z.add_0_r].
    unfold entry_update. destruct (Z.eqb_spec (error_class_of m) class) as [->|Hne].
    + rewrite lookup_insert_eq, He. specialize (Hcount (fun m => is_error m && (error_class_of m =? class))).
      fold (class_count class l) in Hcount.
      rewrite (proj2 (Z.eqb_neq (class_count class l + 1) 0)) by lia.
      destruct (Z.eqb_spec (class_count class l) 0) as [Hz|]; simpl; [|by rewrite Hcount].
      by rewrite Hz.
    + by rewrite lookup_insert_ne, He, Z.add_0_r.
  - destruct (is_error m); simpl; [|done].
    rewrite (map_total_entry_update fst (0, None) _ 1) by done. by rewrite Het.
Qed.

Lemma collector_record_labels m c :
  co_worker_id (collector_record m c) = co_worker_id c /\
  co_test_run_id (collector_record m c) = co_test_run_id c /\
  co_batch_seq (collector_record m c) = co_batch_seq c.
Proof. unfold collector_record. by destruct (is_error m). Qed.

Lemma holds_describes `{!HistogramLaws} c l :
  Z.of_nat (length l) <= U64_MAX -> l <> [] -> holds c l -> describes l (window_batch c).
Proof.
  intros Hl Hne [Hh Ht Hs Hf Hb He Het]. constructor; simpl; try done.
  - rewrite Hs, Hf, Ht. pose proof (count_if_split is_error l). lia.
  - intros e. unfold error_breakdowns. rewrite list_elem_of_fmap.
    intros ([class [n d]] & -> & Hin%elem_of_map_iter). simpl. rewrite He in Hin.
    destruct (Z.eqb_spec (class_count class l) 0); [done|]. injection Hin as <- <-.
    split; [done|]. pose proof (count_if_bounds (fun m => is_error m && (error_class_of m =? class)) l).
    unfold class_count in *. lia.
  - unfold error_breakdowns. rewrite <- list_fmap_compose, <- Het, map_total_iter.
    unfold map_values. by rewrite <- list_fmap_compose.
  - eexists. split; [done|]. rewrite Hh. unfold latency_summary.
    rewrite hist_is_empty_of, bool_decide_eq_false_2 by by intros ->%fmap_nil_inv. simpl.
    assert (Hl' : Z.of_nat (length (latency_of <$> l)) <= U64_MAX) by by rewrite length_fmap.
    pose proof (histogram_buckets_total _ Hl') as Hbt. rewrite hist_len_of in * by done.
    rewrite length_fmap in *. split_and!; [done|done|exact Hbt].
Qed.

(** ** The collector over a whole run *)

Inductive CollectorEvent := EvRecord (m : RequestMetric) | EvFlush (now : Z).

Fixpoint collector_run (c : WindowedCollector) (evs : list CollectorEvent)
  : WindowedCollector * list MetricBatch :=
  match evs with
  | [] => (c, [])
  | EvRecord m :: evs => collector_run (collector_record m c) evs
  | EvFlush now :: evs =>
      let (c', b) := take_batch now c in
      let (c'', bs) := collector_run c' evs in
      (c'', option_list b ++ bs)
  end.

Definition recorded (evs : list CollectorEvent) : list RequestMetric :=
  omap (fun e => match e with EvRecord m => Some m | EvFlush _ => None end) evs.

(** The closed, non-empty windows and the open one. *)
Fixpoint windows (open : list RequestMetric) (evs : list CollectorEvent)
  : list (list RequestMetric) * list RequestMetric :=
  match evs with
  | [] => ([], open)
  | EvRecord m :: evs => windows (open ++ [m]) evs
  | EvFlush _ :: evs =>
      let (ws, o) := windows [] evs in
      (if bool_decide (open = []) then ws else open :: ws, o)
  end.

Lemma windows_concat open evs :
  concat (windows open evs).1 ++ (windows open evs).2 = open ++ recorded evs.
Proof.
  revert open. induction evs as [|[m|now] evs IH]; intros open; csimpl.
  - by rewrite app_nil_r.
  - rewrite IH. by rewrite <- app_assoc.
  - specialize (IH []). destruct (windows [] evs) as [ws o]. simpl in *.
    case_bool_decide as Ho; simpl; [by rewrite Ho, IH|]. by rewrite <- app_assoc, IH.
Qed.

Lemma take_batch_holds `{!HistogramLaws} now c l :
  Z.of_nat (length l) <= U64_MAX -> holds c l ->
  (l = [] /\ take_batch now c = (c, None)) \/
  (l <> [] /\ take_batch now c = (reset_window now c, Some (window_batch c)) /\
   describes l (window_batch c)).
Proof.
  intros Hl Hc. unfold take_batch. rewrite (holds_total c l Hc).
  destruct (Z.eqb_spec (Z.of_nat (length l)) 0) as [Hz|Hz].
  - left. split; [apply length_zero_iff_nil; lia|done].
  - right. assert (l <> []) by (intros ->; done). split_and!; [done|done|by apply holds_describes].
Qed.

Lemma collector_run_spec `{!HistogramLaws} evs c l :
  Z.of_nat (length (l ++ recorded evs)) <= U64_MAX -> holds c l ->
  holds (collector_run c evs).1 (windows l evs).2 /\
  Forall2 describes (windows l evs).1 (collector_run c evs).2 /\
  co_worker_id (collector_run c evs).1 = co_worker_id c /\
  co_test_run_id (collector_run c evs).1 = co_test_run_id c /\
  Forall (fun b => mb_worker_id b = co_worker_id c /\ mb_test_run_id b = co_test_run_id c)
    (collector_run c evs).2.
Proof.
  revert c l. induction evs as [|[m|now] evs IH]; intros c l Hl Hc; csimpl; csimpl in Hl.
  - by split_and!.
  - rewrite length_app in Hl. simpl in Hl.
    destruct (IH (collector_record m c) (l ++ [m])) as (Q1 & Q2 & Q3 & Q4 & Q5).
    + rewrite length_app, length_app. simpl. lia.
    + apply holds_record; [lia|done].
    + destruct (collector_record_labels m c) as (Hw & Hr & _). rewrite Hw, Hr in *. by split_and!.
  - rewrite length_app in Hl.
    destruct (take_batch_holds now c l) as [[-> ->]|(Hne & -> & Hd)]; [lia|done|..].
    + specialize (IH c [] ltac:(simpl; lia) Hc).
      destruct (collector_run c evs) as [c' bs], (windows [] evs) as [ws o]. simpl in *.
      exact IH.
    + specialize (IH (reset_window now c) [] ltac:(simpl; lia) (holds_nil_reset now c)).
      destruct (collector_run _ evs) as [c' bs], (windows [] evs) as [ws o]. simpl in *.
      destruct IH as (Q1 & Q2 & Q3 & Q4 & Q5).
      rewrite bool_decide_eq_false_2 by done. split_and!; try done; [by constructor|].
      by constructor.
Qed.

(** Batch numbers: the [i]-th batch carries [seq + i]. *)
Lemma collector_run_ids evs c i b :
  0 <= co_batch_seq c -> co_batch_seq c + Z.of_nat (length evs) <= U64_MAX ->
  (collector_run c evs).2 !! i = Some b -> mb_batch_id b = u64_to_string (co_batch_seq c + Z.of_nat i).
Proof.
  revert c i. induction evs as [|[m|now] evs IH]; intros c i Hp Hb; csimpl; csimpl in Hb.
  - done.
  - destruct (collector_record_labels m c) as (_ & _ & Hs).
    rewrite <- Hs. apply IH; rewrite Hs; lia.
  - unfold take_batch. destruct (co_total c =? 0).
    + specialize (IH c i Hp ltac:(lia)). by destruct (collector_run c evs).
    + specialize (IH (reset_window now c)).
      assert (Hseq : co_batch_seq (reset_window now c) = co_batch_seq c + 1)
        by (simpl; apply u64_add_small; unfold in_u64; lia).
      rewrite Hseq in IH. destruct (collector_run (reset_window now c) evs) as [c' bs]. simpl in *.
      destruct i as [|i]; simpl; [intros [= <-]; simpl; f_equal; lia|].
      intros Hi. rewrite (IH i) by (done || lia). f_equal. lia.
Qed.
End collector.

Section claims.
Context `{Hist : Histogram} `{!HistogramLaws} `{MapOrder}.

(** C8. The collector implements its windows: over any sequence of recorded
    outcomes and flushes, it emits exactly one batch per non-empty window, in
    order, each describing that window (its totals, its success/failure split,
    its bytes modulo 2^64, its per-class error counts, its sample count and the
    sum of its latency buckets); the windows followed by the still open one are
    the recorded outcomes in order, so nothing is lost or counted twice; and
    the open window is what the collector still holds. *)
Theorem collector_refines_windows now worker run window evs :
  Z.of_nat (length (recorded evs)) <= U64_MAX ->
  let (ws, open) := windows [] evs in
  let (c, bs) := collector_run (WindowedCollector_new now worker run window) evs in
  Forall2 describes ws bs /\
  concat ws ++ open = recorded evs /\
  pending_requests c = Z.of_nat (length open) /\
  Zsum (mb_total_requests <$> bs) + pending_requests c = Z.of_nat (length (recorded evs)).
Proof.
  intros Hl. pose proof (windows_concat [] evs) as Hcat.
  destruct (collector_run_spec evs (WindowedCollector_new now worker run window) [])
    as (Hh & Hd & _); [done|by apply holds_nil_new|].
  destruct (windows [] evs) as [ws open], (collector_run _ evs) as [c bs]. simpl in *.
  pose proof (holds_total c open Hh) as Ht.
  split_and!; [done|done|done|]. unfold pending_requests. rewrite Ht, <- Hcat, length_app.
  enough (Zsum (mb_total_requests <$> bs) = Z.of_nat (length (concat ws))) by lia.
  clear -Hd. induction Hd as [|w b ws bs Hw Hd IH]; [done|]. csimpl.
  rewrite IH, (desc_total w b Hw), length_app. lia.
Qed.

(** Batches of a run are labelled by the worker and run they belong to and
    numbered consecutively from zero, hence pairwise distinct. *)
Theorem batch_ids_distinct now worker run window evs :
  Z.of_nat (length evs) <= U64_MAX ->
  let bs := (collector_run (WindowedCollector_new now worker run window) evs).2 in
  NoDup (mb_batch_id <$> bs) /\
  (forall i b, bs !! i = Some b ->
     mb_batch_id b = u64_to_string (Z.of_nat i) /\ mb_worker_id b = worker /\ mb_test_run_id b = run).
Proof.
  intros Hl bs. pose proof (collector_run_ids evs (WindowedCollector_new now worker run window)) as Hids.
  assert (Hrec : (length (recorded evs) <= length evs)%nat).
  { unfold recorded. clear. induction evs as [|[]]; csimpl; lia. }
  destruct (collector_run_spec evs (WindowedCollector_new now worker run window) [])
    as (_ & _ & _ & _ & Hw); [simpl; lia|by apply holds_nil_new|].
  fold bs in Hids, Hw. split.
  - apply NoDup_alt. intros i j x. rewrite !list_lookup_fmap, !fmap_Some.
    intros (b & Hb & ->) (b' & Hb' & Heq).
    rewrite (Hids i b), (Hids j b') in Heq by (simpl; done || lia). simpl in Heq.
    apply u64_to_string_inj in Heq; lia.
  - intros i b Hb. rewrite (Hids i b) by (simpl; done || lia). split; [done|].
    rewrite Forall_lookup in Hw. by apply (Hw i b Hb).
Qed.
End claims.

(** ** Witnesses *)

Definition sample_evs : list CollectorEvent :=
  [EvFlush 5; EvRecord (b_status 200 (builder 1500 None)); EvRecord (b_status 503 (builder 90 None));
   EvFlush 1000; EvRecord (error_metric 7 None)].

Lemma collector_refines_windows_witness :
  let c := (collector_run (WindowedCollector_new 0 "w" "r" (from_millis 1000)) sample_evs).1 in
  let bs := (collector_run (WindowedCollector_new 0 "w" "r" (from_millis 1000)) sample_evs).2 in
  Zsum (mb_total_requests <$> bs) + pending_requests c = 3 /\ length bs = 1%nat.
Proof.
  pose proof (collector_refines_windows 0 "w" "r" (from_millis 1000) sample_evs ltac:(by vm_compute)) as Hc.
  split; [|by vm_compute].
  destruct (windows [] sample_evs), (collector_run _ sample_evs). apply Hc.
Defined.

Lemma batch_ids_distinct_witness :
  NoDup (mb_batch_id <$>
    (collector_run (WindowedCollector_new 0 "w" "r" (from_millis 1000)) sample_evs).2).
Proof. apply (batch_ids_distinct 0 "w" "r" (from_millis 1000) sample_evs). by vm_compute. Defined.
