(* ===== verification/Report.v ===== *)
(** Result types of a distributed run ([src/distributed/master/reporting.rs]
    and the snapshot of [dashboard.rs]).  Serialisation to JSON and the file
    system are left to serde and the standard library. *)

From S2P Require Import Prelude RustStr Float.

#[local] Open Scope Z_scope.

Record GlobalLatency := mkGlobalLatency {
  gl_p50_ms : f64;
  gl_p90_ms : f64;
  gl_p95_ms : f64;
  gl_p99_ms : f64;
  gl_min_ms : f64;
  gl_max_ms : f64;
  gl_sample_count : Z;
  gl_bucket_counts : list Z;
}.

Record ErrorClassCount := mkErrorClassCount { ecc_error_class : string; ecc_count : Z }.

Record TimelinePoint := mkTimelinePoint {
  tp_elapsed_secs : f64;
  tp_epoch_ms : Z;
  tp_rps : f64;
  tp_error_rate_percent : f64;
  tp_p50_ms : f64;
  tp_p95_ms : f64;
  tp_p99_ms : f64;
}.

Record WorkerShare := mkWorkerShare {
  wsh_worker_id : string;
  wsh_total_requests : Z;
  wsh_success_count : Z;
  wsh_failure_count : Z;
  wsh_error_rate_percent : f64;
  wsh_rps : f64;
  wsh_share_percent : f64;
  wsh_p95_ms : f64;
}.

Record GlobalReport := mkGlobalReport {
  gr_test_run_id : string;
  gr_workers : list string;
  gr_worker_count : Z;
  gr_batches : Z;
  gr_total_requests : Z;
  gr_success_count : Z;
  gr_failure_count : Z;
  gr_error_rate_percent : f64;
  gr_bytes_received : Z;
  gr_rps : f64;
  gr_duration_secs : f64;
  gr_latency : GlobalLatency;
  gr_error_breakdown : list ErrorClassCount;
  gr_timeline : list TimelinePoint;
  gr_worker_shares : list WorkerShare;
}.

Record LiveSnapshot := mkLiveSnapshot {
  lv_run_id : string;
  lv_epoch_ms : Z;
  lv_elapsed_secs : f64;
  lv_window_secs : f64;
  lv_rps : f64;
  lv_error_rate_percent : f64;
  lv_p50_ms : f64;
  lv_p90_ms : f64;
  lv_p95_ms : f64;
  lv_p99_ms : f64;
  lv_total_requests : Z;
  lv_active_workers : Z;
}.

Inductive ReportDestination := RD_File (path : string) | RD_Stdout | RD_None.

Definition ReportDestination_parse (value : option string) : ReportDestination :=
  match value with
  | Some path =>
      if bool_decide (path = "-"%string) then RD_Stdout
      else if is_blank path then RD_None else RD_File path
  | None => RD_None
  end.
