(* ===== verification/Pipeline.v ===== *)
(** Telemetry pipeline of the master ([src/distributed/master/pipeline.rs]):
    metric accumulators, the epoch and per-worker stores, live snapshots and the
    final report.

    Signed arithmetic on epochs wraps at 64 bits.  [BTreeMap::range] panics on an
    inverted range; that panic is the [None] of [window_metrics] and [snapshot]
    and the [IngestPanic] of [ingest]. *)

From S2P Require Import Prelude RustStr Float Histogram Proto Report.

#[local] Open Scope Z_scope.
#[local] Open Scope rust_scope.

Definition EPOCH_MS : Z := 1000.
Definition DEFAULT_WINDOW_EPOCHS : Z := 5.

Definition BUCKET_BOUNDS_MS : list f64 :=
  [f64_zero; f64_of_Z 1; f64_of_Z 5; f64_of_Z 10; f64_of_Z 25; f64_of_Z 50; f64_of_Z 100;
   f64_of_Z 250; f64_of_Z 500; f64_of_Z 1000; f64_infinity].

Record Metrics := mkMetrics {
  m_total : Z;
  m_success : Z;
  m_failure : Z;
  m_bytes : Z;
  m_buckets : list Z;
  m_sample_count : Z;
  m_min_ms : option f64;
  m_max_ms : option f64;
  m_errors : gmap Z Z;
}.

Definition Metrics_new (bucket_count : nat) : Metrics :=
  mkMetrics 0 0 0 0 (replicate bucket_count 0) 0 None None ∅.

(** [Some(current.map_or(x, |current| op(current, x)))]. *)
Definition opt_extremum (op : f64 -> f64 -> f64) (x : f64) (current : option f64) : option f64 :=
  Some (match current with None => x | Some c => op c x end).

Definition add_error (errors : gmap Z Z) (e : ErrorBreakdown) : gmap Z Z :=
  entry_add (eb_error_class e) (eb_count e) errors.

(** The bucket loop indexes [buckets[index]] for [index < bucket_count]; every
    accumulator has [bucket_count] buckets ([pipeline_wf] below), so the index is
    in bounds. *)
Definition merge_latency (bucket_count : nat) (latency : LatencySummary) (m : Metrics) : Metrics :=
  mkMetrics (m_total m) (m_success m) (m_failure m) (m_bytes m)
    (add_into (m_buckets m) (take bucket_count (ls_bucket_counts latency)))
    (m_sample_count m +! ls_sample_count latency)
    (opt_extremum f64_min (f64_of_f32 (ls_min_ms latency)) (m_min_ms m))
    (opt_extremum f64_max (f64_of_f32 (ls_max_ms latency)) (m_max_ms m))
    (m_errors m).

Definition merge_batch (bucket_count : nat) (m : Metrics) (batch : MetricBatch) : Metrics :=
  let m := mkMetrics (m_total m +! mb_total_requests batch) (m_success m +! mb_success_count batch)
             (m_failure m +! mb_failure_count batch) (m_bytes m +! mb_bytes_received batch)
             (m_buckets m) (m_sample_count m) (m_min_ms m) (m_max_ms m) (m_errors m) in
  let m := match mb_latency batch with
           | Some latency => merge_latency bucket_count latency m
           | None => m
           end in
  mkMetrics (m_total m) (m_success m) (m_failure m) (m_bytes m) (m_buckets m) (m_sample_count m)
    (m_min_ms m) (m_max_ms m) (foldl add_error (m_errors m) (mb_errors batch)).

Definition opt_merge (op : f64 -> f64 -> f64) (other current : option f64) : option f64 :=
  match other with Some x => opt_extremum op x current | None => current end.

Section pipeline.
Context `{MapOrder}.

Definition merge (m other : Metrics) : Metrics :=
  mkMetrics (m_total m +! m_total other) (m_success m +! m_success other)
    (m_failure m +! m_failure other) (m_bytes m +! m_bytes other)
    (add_into (m_buckets m) (m_buckets other))
    (m_sample_count m +! m_sample_count other)
    (opt_merge f64_min (m_min_ms other) (m_min_ms m))
    (opt_merge f64_max (m_max_ms other) (m_max_ms m))
    (foldl (fun errors e => entry_add e.1 e.2 errors) (m_errors m) (map_iter (m_errors other))).

Definition error_rate_percent (m : Metrics) : f64 :=
  if m_total m >? 0
  then f64_mul (f64_div (f64_of_Z (m_failure m)) (f64_of_Z (m_total m))) (f64_of_Z 100)
  else f64_zero.

Fixpoint percentile_loop (fallback_max target : f64) (index : nat) (cumulative : Z)
    (buckets : list Z) : f64 :=
  match buckets with
  | [] => fallback_max
  | count :: buckets =>
      if count =? 0 then percentile_loop fallback_max target (S index) cumulative buckets
      else if f64_geb (f64_add (f64_of_Z cumulative) (f64_of_Z count)) target then
        let lo := default f64_zero (BUCKET_BOUNDS_MS !! index) in
        let hi := default fallback_max (BUCKET_BOUNDS_MS !! S index) in
        let hi := if is_finite hi then hi else f64_max fallback_max lo in
        let within := f64_div (f64_sub target (f64_of_Z cumulative)) (f64_of_Z count) in
        f64_add lo (f64_mul (f64_sub hi lo) (f64_clamp within f64_zero f64_one))
      else percentile_loop fallback_max target (S index) (cumulative +! count) buckets
  end.

Definition approx_percentile (buckets : list Z) (percentile fallback_max : f64) : f64 :=
  let total := u64_sum buckets in
  if total =? 0 then f64_zero
  else percentile_loop fallback_max (f64_mul percentile (f64_of_Z total)) 0 0 buckets.

Definition latency (m : Metrics) : GlobalLatency :=
  let fallback_max := default f64_infinity (m_max_ms m) in
  {| gl_p50_ms := approx_percentile (m_buckets m) (f64_lit 50 100) fallback_max;
     gl_p90_ms := approx_percentile (m_buckets m) (f64_lit 90 100) fallback_max;
     gl_p95_ms := approx_percentile (m_buckets m) (f64_lit 95 100) fallback_max;
     gl_p99_ms := approx_percentile (m_buckets m) (f64_lit 99 100) fallback_max;
     gl_min_ms := default f64_zero (m_min_ms m);
     gl_max_ms := default f64_zero (m_max_ms m);
     gl_sample_count := m_sample_count m;
     gl_bucket_counts := m_buckets m |}.

Definition epoch_of (unix_ms : Z) : Z := wrap_i64 (unix_ms - unix_ms mod EPOCH_MS).

(** [BTreeMap] iteration is in key order. *)
Definition key_le {V} (a b : Z * V) : Prop := a.1 <= b.1.
#[export] Instance key_le_dec {V} (a b : Z * V) : Decision (key_le a b).
Proof. unfold key_le. apply _. Defined.
Definition btree_iter {V} (m : gmap Z V) : list (Z * V) := merge_sort key_le (map_to_list m).

Record TelemetryPipeline := mkTelemetryPipeline {
  p_run_id : string;
  p_bucket_count : nat;
  p_window_epochs : Z;
  p_epochs : gmap Z Metrics;
  p_workers : gmap string Metrics;
  p_started_at_ms : option Z;
  p_last_published_epoch : option Z;
  p_cumulative : Metrics;
  p_batches : Z;
}.

Definition TelemetryPipeline_new (run_id : string) (bucket_count : nat) (window_epochs : Z)
  : TelemetryPipeline :=
  let bucket_count := Nat.max bucket_count 1 in
  mkTelemetryPipeline run_id bucket_count (Z.max window_epochs 1) ∅ ∅ None None
    (Metrics_new bucket_count) 0.

Definition elapsed_secs (p : TelemetryPipeline) (epoch : Z) : f64 :=
  match p_started_at_ms p with
  | Some start =>
      if epoch >=? start then f64_div (f64_of_Z (wrap_i64 (epoch - start))) (f64_of_Z 1000)
      else f64_zero
  | None => f64_zero
  end.

Definition window_start (p : TelemetryPipeline) (epoch : Z) : Z :=
  wrap_i64 (epoch - wrap_i64 ((p_window_epochs p - 1) * EPOCH_MS)).

Definition window_metrics (p : TelemetryPipeline) (epoch : Z) : option Metrics :=
  let start := window_start p epoch in
  if start >? epoch then None
  else Some (foldl (fun window e => merge window e.2) (Metrics_new (p_bucket_count p))
               (filter (fun e => start <= e.1 <= epoch) (btree_iter (p_epochs p)))).

Definition snapshot (p : TelemetryPipeline) (epoch : Z) : option LiveSnapshot :=
  window ← window_metrics p epoch;
  let window_secs := f64_mul (f64_of_Z (p_window_epochs p))
                       (f64_div (f64_of_Z EPOCH_MS) (f64_of_Z 1000)) in
  let rps := if f64_gtb window_secs f64_zero
             then f64_div (f64_of_Z (m_total window)) window_secs else f64_zero in
  let lat := latency window in
  Some {| lv_run_id := p_run_id p;
          lv_epoch_ms := epoch;
          lv_elapsed_secs := elapsed_secs p epoch;
          lv_window_secs := window_secs;
          lv_rps := rps;
          lv_error_rate_percent := error_rate_percent window;
          lv_p50_ms := gl_p50_ms lat;
          lv_p90_ms := gl_p90_ms lat;
          lv_p95_ms := gl_p95_ms lat;
          lv_p99_ms := gl_p99_ms lat;
          lv_total_requests := m_total (p_cumulative p);
          lv_active_workers := Z.of_nat (size (p_workers p)) |}.

(** The accumulating part of [ingest], before the throttled publish. *)
Definition absorb (batch : MetricBatch) (p : TelemetryPipeline) : TelemetryPipeline :=
  let epoch := epoch_of (mb_window_start_unix_ms batch) in
  let n := p_bucket_count p in
  let upd m := merge_batch n m batch in
  mkTelemetryPipeline (p_run_id p) n (p_window_epochs p)
    (entry_update (Metrics_new n) upd epoch (p_epochs p))
    (if str_is_empty (mb_worker_id batch) then p_workers p
     else entry_update (Metrics_new n) upd (mb_worker_id batch) (p_workers p))
    (match p_started_at_ms p with None => Some epoch | s => s end)
    (p_last_published_epoch p)
    (upd (p_cumulative p))
    (p_batches p +! 1).

Definition set_published (epoch : Z) (p : TelemetryPipeline) : TelemetryPipeline :=
  mkTelemetryPipeline (p_run_id p) (p_bucket_count p) (p_window_epochs p) (p_epochs p)
    (p_workers p) (p_started_at_ms p) (Some epoch) (p_cumulative p) (p_batches p).

Inductive IngestResult := Publish (s : LiveSnapshot) | Quiet | IngestPanic.

Definition ingest (p : TelemetryPipeline) (batch : MetricBatch) : TelemetryPipeline * IngestResult :=
  let epoch := epoch_of (mb_window_start_unix_ms batch) in
  let p := absorb batch p in
  if decide (p_last_published_epoch p <> Some epoch) then
    let p := set_published epoch p in
    (p, match snapshot p epoch with Some s => Publish s | None => IngestPanic end)
  else (p, Quiet).

(** ** The final report *)

Definition class_name (class : Z) : string :=
  match ErrorClass_try_from class with
  | Some c => ErrorClass_debug c
  | None => ("UNKNOWN(" ++ i64_to_string class ++ ")")%string
  end.

(** Larger counts first, then by name. *)
Definition error_le (a b : ErrorClassCount) : Prop :=
  ecc_count b < ecc_count a \/
  (ecc_count a = ecc_count b /\ str_le (ecc_error_class a) (ecc_error_class b)).
#[export] Instance error_le_dec a b : Decision (error_le a b).
Proof. unfold error_le. apply _. Defined.

Definition share_le (a b : WorkerShare) : Prop :=
  wsh_total_requests b < wsh_total_requests a \/
  (wsh_total_requests a = wsh_total_requests b /\ str_le (wsh_worker_id a) (wsh_worker_id b)).
#[export] Instance share_le_dec a b : Decision (share_le a b).
Proof. unfold share_le. apply _. Defined.

Definition error_breakdown (errors : gmap Z Z) : list ErrorClassCount :=
  merge_sort error_le ((fun e => mkErrorClassCount (class_name e.1) e.2) <$> map_iter errors).

Definition timeline_point (p : TelemetryPipeline) (e : Z * Metrics) : TimelinePoint :=
  let epoch_secs := f64_div (f64_of_Z EPOCH_MS) (f64_of_Z 1000) in
  let lat := latency e.2 in
  {| tp_elapsed_secs := elapsed_secs p e.1;
     tp_epoch_ms := e.1;
     tp_rps := if f64_gtb epoch_secs f64_zero
               then f64_div (f64_of_Z (m_total e.2)) epoch_secs else f64_zero;
     tp_error_rate_percent := error_rate_percent e.2;
     tp_p50_ms := gl_p50_ms lat;
     tp_p95_ms := gl_p95_ms lat;
     tp_p99_ms := gl_p99_ms lat |}.

Definition timeline (p : TelemetryPipeline) : list TimelinePoint :=
  timeline_point p <$> btree_iter (p_epochs p).

Definition worker_share (p : TelemetryPipeline) (duration_secs : f64) (e : string * Metrics)
  : WorkerShare :=
  let total_all := m_total (p_cumulative p) in
  {| wsh_worker_id := e.1;
     wsh_total_requests := m_total e.2;
     wsh_success_count := m_success e.2;
     wsh_failure_count := m_failure e.2;
     wsh_error_rate_percent := error_rate_percent e.2;
     wsh_rps := if f64_gtb duration_secs f64_zero
                then f64_div (f64_of_Z (m_total e.2)) duration_secs else f64_zero;
     wsh_share_percent :=
       if total_all >? 0
       then f64_mul (f64_div (f64_of_Z (m_total e.2)) (f64_of_Z total_all)) (f64_of_Z 100)
       else f64_zero;
     wsh_p95_ms := gl_p95_ms (latency e.2) |}.

Definition worker_shares (p : TelemetryPipeline) (duration_secs : f64) : list WorkerShare :=
  merge_sort share_le (worker_share p duration_secs <$> map_iter (p_workers p)).

Definition duration_secs_of (p : TelemetryPipeline) : f64 :=
  match p_started_at_ms p, last (btree_iter (p_epochs p)) with
  | Some start, Some (last, _) =>
      if last >=? start
      then f64_div (f64_of_Z (wrap_i64 (wrap_i64 (last - start) + EPOCH_MS))) (f64_of_Z 1000)
      else f64_zero
  | _, _ => f64_zero
  end.

Definition finalize (p : TelemetryPipeline) : GlobalReport :=
  let c := p_cumulative p in
  let duration_secs := duration_secs_of p in
  let workers := sort_strings (map_keys (p_workers p)) in
  {| gr_test_run_id := p_run_id p;
     gr_workers := workers;
     gr_worker_count := Z.of_nat (length workers);
     gr_batches := p_batches p;
     gr_total_requests := m_total c;
     gr_success_count := m_success c;
     gr_failure_count := m_failure c;
     gr_error_rate_percent := error_rate_percent c;
     gr_bytes_received := m_bytes c;
     gr_rps := if f64_gtb duration_secs f64_zero
               then f64_div (f64_of_Z (m_total c)) duration_secs else f64_zero;
     gr_duration_secs := duration_secs;
     gr_latency := latency c;
     gr_error_breakdown := error_breakdown (m_errors c);
     gr_timeline := timeline p;
     gr_worker_shares := worker_shares p duration_secs |}.

(** ** The pipeline task

    [Finalize] carries the identity of its reply channel; the task returns what
    it published and what it replied.  A panic ends the task. *)

Inductive PipelineCommand := PC_Batch (b : MetricBatch) | PC_Finalize (reply : nat) | PC_Shutdown.

Inductive PipelineEffect := PE_Published (s : LiveSnapshot) | PE_Reply (reply : nat) (r : GlobalReport).

Fixpoint run_pipeline (p : TelemetryPipeline) (rx : list PipelineCommand)
  : TelemetryPipeline * list PipelineEffect :=
  match rx with
  | [] => (p, [])
  | PC_Batch b :: rx =>
      match ingest p b with
      | (p', Publish s) => let (q, effs) := run_pipeline p' rx in (q, PE_Published s :: effs)
      | (p', Quiet) => run_pipeline p' rx
      | (p', IngestPanic) => (p', [])
      end
  | PC_Finalize reply :: rx =>
      let (q, effs) := run_pipeline p rx in (q, PE_Reply reply (finalize p) :: effs)
  | PC_Shutdown :: _ => (p, [])
  end.
End pipeline.

(** ** Reference semantics: the metrics of a list of batches *)

Definition metrics_of (n : nat) (bs : list MetricBatch) : Metrics :=
  foldl (merge_batch n) (Metrics_new n) bs.

Definition list_extremum (op : f64 -> f64 -> f64) (l : list f64) : option f64 :=
  foldl (fun acc x => opt_extremum op x acc) None l.

Definition latencies (bs : list MetricBatch) : list LatencySummary := omap mb_latency bs.
Definition batch_mins (bs : list MetricBatch) : list f64 :=
  (fun s => f64_of_f32 (ls_min_ms s)) <$> latencies bs.
Definition batch_maxs (bs : list MetricBatch) : list f64 :=
  (fun s => f64_of_f32 (ls_max_ms s)) <$> latencies bs.
Definition batch_buckets (n : nat) (bs : list MetricBatch) : list (list Z) :=
  (fun s => take n (ls_bucket_counts s)) <$> latencies bs.
Definition batch_errors (bs : list MetricBatch) : list (Z * Z) :=
  (fun e => (eb_error_class e, eb_count e)) <$> (bs ≫= mb_errors).

(** Counters by key. *)
Definition add_pairs (m : gmap Z Z) (l : list (Z * Z)) : gmap Z Z :=
  foldl (fun m e => entry_add e.1 e.2 m) m l.

(** Every field of the metrics in closed form. *)
Definition metrics_spec (n : nat) (bs : list MetricBatch) : Metrics := {|
  m_total := wrap64 (Zsum (mb_total_requests <$> bs));
  m_success := wrap64 (Zsum (mb_success_count <$> bs));
  m_failure := wrap64 (Zsum (mb_failure_count <$> bs));
  m_bytes := wrap64 (Zsum (mb_bytes_received <$> bs));
  m_buckets := foldl add_into (replicate n 0) (batch_buckets n bs);
  m_sample_count := wrap64 (Zsum (ls_sample_count <$> latencies bs));
  m_min_ms := list_extremum f64_min (batch_mins bs);
  m_max_ms := list_extremum f64_max (batch_maxs bs);
  m_errors := add_pairs ∅ (batch_errors bs);
|}.

Lemma add_error_pairs m es :
  foldl add_error m es = add_pairs m ((fun e => (eb_error_class e, eb_count e)) <$> es).
Proof. revert m. induction es as [|e es IH]; intros m; csimpl; [done|]. apply IH. Qed.

Lemma add_pairs_app m l1 l2 : add_pairs m (l1 ++ l2) = add_pairs (add_pairs m l1) l2.
Proof. apply foldl_app. Qed.

Lemma metrics_of_spec n bs : metrics_of n bs = metrics_spec n bs.
Proof.
  induction bs as [|b bs IH] using rev_ind; [done|].
  unfold metrics_of in *. rewrite foldl_app. simpl. rewrite IH.
  unfold merge_batch, metrics_spec, batch_buckets, batch_mins, batch_maxs, batch_errors, latencies,
    list_extremum.
  rewrite !omap_app, bind_app, !fmap_app, !Zsum_app, add_pairs_app. csimpl.
  destruct (mb_latency b) as [s|] eqn:Hs; csimpl; f_equal; simpl;
    rewrite ?add_error_pairs, ?app_nil_r, ?fmap_app, ?foldl_app, ?Zsum_app; csimpl; try done; wrap_solve.
Qed.

(** *** Permutations *)

Lemma entry_add_comm (k1 k2 n1 n2 : Z) (m : gmap Z Z) :
  entry_add k2 n2 (entry_add k1 n1 m) = entry_add k1 n1 (entry_add k2 n2 m).
Proof.
  unfold entry_add. destruct (decide (k1 = k2)) as [->|Hne].
  - rewrite !lookup_insert_eq, !insert_insert_eq. simpl. f_equal. wrap_solve.
  - by rewrite !lookup_insert_ne, insert_insert_ne by done.
Qed.

#[export] Instance add_pairs_proper m : Proper ((≡ₚ) ==> (=)) (add_pairs m).
Proof.
  intros l1 l2 Hl. apply (foldl_comm_perm (fun _ => True) (fun _ => True)); auto.
  - intros. apply entry_add_comm.
  - by apply Forall_true.
Qed.

#[export] Instance bucket_sum_proper d : Proper ((≡ₚ) ==> (=)) (foldl add_into d).
Proof.
  intros l1 l2 Hl. apply (foldl_comm_perm (fun _ => True) (fun _ => True)); auto.
  - intros. apply add_into_comm.
  - by apply Forall_true.
Qed.

(** A commutative choice operation, as [min] and [max] are away from [-0]. *)
Record choice_op (op : f64 -> f64 -> f64) : Prop := {
  op_comm : forall x y, no_neg_zero x -> no_neg_zero y -> op x y = op y x;
  op_swap : forall c x y, no_neg_zero c -> no_neg_zero x -> no_neg_zero y ->
    op (op c x) y = op (op c y) x;
  op_choice : forall x y, op x y = x \/ op x y = y;
}.

Lemma min_choice_op : choice_op f64_min.
Proof. constructor; auto using f64_min_comm, f64_min_swap, f64_min_choice. Qed.

Lemma max_choice_op : choice_op f64_max.
Proof. constructor; auto using f64_max_comm, f64_max_swap, f64_max_choice. Qed.

Definition opt_no_neg_zero (o : option f64) : Prop :=
  match o with Some x => no_neg_zero x | None => True end.

Section choice.
Context (op : f64 -> f64 -> f64) (Hop : choice_op op).

Lemma opt_extremum_ok x o : opt_no_neg_zero o -> no_neg_zero x -> opt_no_neg_zero (opt_extremum op x o).
Proof. destruct o as [c|]; simpl; [|done]. by destruct (op_choice op Hop c x) as [-> | ->]. Qed.

Lemma opt_extremum_swap o x y :
  opt_no_neg_zero o -> no_neg_zero x -> no_neg_zero y ->
  opt_extremum op y (opt_extremum op x o) = opt_extremum op x (opt_extremum op y o).
Proof.
  destruct o as [c|]; simpl; intros; unfold opt_extremum; f_equal;
    [by apply (op_swap op Hop)|by apply (op_comm op Hop)].
Qed.

Lemma list_extremum_perm l1 l2 :
  Forall no_neg_zero l1 -> l1 ≡ₚ l2 -> list_extremum op l1 = list_extremum op l2.
Proof.
  intros Hl Hp. apply (foldl_comm_perm no_neg_zero opt_no_neg_zero); try done.
  - intros o x. apply opt_extremum_ok.
  - intros o x y. apply opt_extremum_swap.
Qed.

Lemma list_extremum_ok l : Forall no_neg_zero l -> opt_no_neg_zero (list_extremum op l).
Proof.
  intros Hl. unfold list_extremum. assert (Hn : opt_no_neg_zero None) by done. revert Hn.
  generalize (@None f64) as o. induction Hl as [|x l Hx Hl IH]; intros o Ho; simpl; [done|].
  apply IH, opt_extremum_ok; done.
Qed.

Lemma op_assoc c x y :
  no_neg_zero c -> no_neg_zero x -> no_neg_zero y -> op c (op x y) = op (op c x) y.
Proof.
  intros. assert (no_neg_zero (op x y)) by by destruct (op_choice op Hop x y) as [-> | ->].
  rewrite (op_comm op Hop c (op x y)), (op_swap op Hop x y c), (op_comm op Hop x c) by done. done.
Qed.

(** Merging two partial extrema gives the extremum of both lists. *)
Lemma opt_merge_app l1 l2 :
  Forall no_neg_zero l1 -> Forall no_neg_zero l2 ->
  opt_merge op (list_extremum op l2) (list_extremum op l1) = list_extremum op (l1 ++ l2).
Proof.
  intros H1 H2. unfold list_extremum at 3. rewrite foldl_app. fold (list_extremum op l1).
  pose proof (list_extremum_ok l1 H1) as Ho. revert Ho. generalize (list_extremum op l1) as o.
  induction l2 as [|x l2 IH] using rev_ind; intros o Ho; [done|].
  rewrite Forall_app, Forall_singleton in H2. destruct H2 as [H2 Hx].
  rewrite foldl_app. simpl. rewrite <- (IH H2 o Ho).
  pose proof (list_extremum_ok l2 H2) as Hl2.
  unfold list_extremum. rewrite foldl_app. simpl. fold (list_extremum op l2).
  destruct (list_extremum op l2) as [c|], o as [d|]; simpl in *; try done.
  unfold opt_extremum. by rewrite op_assoc.
Qed.
End choice.

(** A batch whose latency extrema are not the negative zero. *)
Definition batch_ok (b : MetricBatch) : Prop :=
  forall s, mb_latency b = Some s ->
    no_neg_zero (f64_of_f32 (ls_min_ms s)) /\ no_neg_zero (f64_of_f32 (ls_max_ms s)).

Lemma batch_ok_extrema bs :
  Forall batch_ok bs -> Forall no_neg_zero (batch_mins bs) /\ Forall no_neg_zero (batch_maxs bs).
Proof.
  unfold batch_mins, batch_maxs, latencies.
  induction 1 as [|b bs Hb Hbs [IH1 IH2]]; csimpl; [by split|].
  destruct (mb_latency b) as [s|] eqn:Hs; csimpl; [|done]. destruct (Hb s Hs). by split; constructor.
Qed.

Lemma metrics_of_perm n bs bs' : Forall batch_ok bs -> bs ≡ₚ bs' -> metrics_of n bs = metrics_of n bs'.
Proof.
  intros Hok Hp. rewrite !metrics_of_spec. unfold metrics_spec.
  destruct (batch_ok_extrema bs Hok) as [Hmin Hmax].
  assert (Hlat : latencies bs ≡ₚ latencies bs') by (unfold latencies; by rewrite Hp).
  f_equal; try (by rewrite Hp); try (by rewrite Hlat).
  - unfold batch_buckets. by rewrite Hlat.
  - apply list_extremum_perm; [apply min_choice_op|done|]. unfold batch_mins. by rewrite Hlat.
  - apply list_extremum_perm; [apply max_choice_op|done|]. unfold batch_maxs. by rewrite Hlat.
  - unfold batch_errors. by rewrite Hp.
Qed.

(** *** Merging: the metrics of two lists merge to the metrics of both *)

Lemma length_bucket_sum d ls : length (foldl add_into d ls) = length d.
Proof. revert d. induction ls as [|l ls IH]; intros d; simpl; [done|]. by rewrite IH, length_add_into. Qed.

Lemma in_u64_add_into d l : Forall in_u64 d -> Forall in_u64 (add_into d l).
Proof.
  intros Hd. revert l. induction Hd as [|x d Hx Hd IH]; intros [|y l]; simpl;
    auto using Forall_nil, Forall_cons_2, u64_add_range.
Qed.

Lemma in_u64_bucket_sum d ls : Forall in_u64 d -> Forall in_u64 (foldl add_into d ls).
Proof. revert d. induction ls; intros d Hd; simpl; auto using in_u64_add_into. Qed.

Lemma in_u64_replicate_0 n : Forall in_u64 (replicate n 0).
Proof. apply Forall_replicate. unfold in_u64, U64_MAX. lia. Qed.

Lemma add_into_assoc a b y :
  length a = length b -> add_into a (add_into b y) = add_into (add_into a b) y.
Proof.
  revert b y. induction a as [|x a IH]; intros [|z b] [|w y]; simpl; intros Hl; try done.
  f_equal; [wrap_solve|]. apply IH. lia.
Qed.

Lemma add_into_zero a : Forall in_u64 a -> add_into a (replicate (length a) 0) = a.
Proof.
  induction 1 as [|x a Hx Ha IH]; simpl; [done|]. rewrite IH. f_equal.
  unfold u64_add. by rewrite Z.add_0_r, wrap64_small.
Qed.

Lemma add_into_bucket_sum n a ys :
  length a = n -> Forall in_u64 a ->
  add_into a (foldl add_into (replicate n 0) ys) = foldl add_into a ys.
Proof.
  intros Hn Ha. induction ys as [|y ys IH] using rev_ind; simpl.
  - subst. by apply add_into_zero.
  - rewrite !foldl_app. simpl. rewrite <- IH. apply add_into_assoc.
    by rewrite length_bucket_sum, length_replicate.
Qed.

(** Sum of the counts of one key. *)
Definition pair_sum (k : Z) (l : list (Z * Z)) : Z := Zsum (snd <$> filter (fun e => e.1 = k) l).

Lemma add_pairs_lookup l m k :
  add_pairs m l !! k =
    if decide (k ∈ l.*1) then Some (wrap64 (default 0 (m !! k) + pair_sum k l)) else m !! k.
Proof.
  induction l as [|[k' n] l IH] using rev_ind; simpl.
  - done.
  - unfold add_pairs in *. rewrite foldl_app. simpl. unfold entry_add, pair_sum in *.
    rewrite filter_app, fmap_app, (fmap_app snd), Zsum_app. csimpl.
    destruct (decide (k' = k)) as [->|Hne].
    + rewrite lookup_insert_eq, filter_cons_True, IH by done.
      rewrite (decide_True (P := k ∈ l.*1 ++ [k])) by (apply elem_of_app; right; left).
      f_equal. csimpl. rewrite Z.add_0_r, Z.add_assoc. case_decide as Hin; simpl; [wrap_solve|].
      rewrite filter_none; [unfold u64_add; f_equal; simpl; lia|].
      intros [k1 n1] Hin1 E. simpl in E. subst. apply Hin, list_elem_of_fmap. by exists (k, n1).
    + rewrite lookup_insert_ne, filter_cons_False, IH by done. csimpl. rewrite Z.add_0_r.
      apply decide_ext. rewrite elem_of_app, list_elem_of_singleton. naive_solver.
Qed.

#[export] Instance pair_sum_proper k : Proper ((≡ₚ) ==> (=)) (pair_sum k).
Proof. intros l1 l2 Hl. unfold pair_sum. by rewrite Hl. Qed.

Lemma pair_sum_map k (m : gmap Z Z) : pair_sum k (map_to_list m) = default 0 (m !! k).
Proof.
  induction m as [|k' v m Hk' _ IH] using map_first_key_ind.
  - by rewrite map_to_list_empty, lookup_empty.
  - rewrite map_to_list_insert by done. unfold pair_sum in *.
    destruct (decide (k' = k)) as [->|Hne].
    + rewrite filter_cons_True, lookup_insert_eq by done. csimpl. rewrite IH, Hk'. simpl. lia.
    + by rewrite filter_cons_False, lookup_insert_ne by done.
Qed.

Lemma add_pairs_map `{MapOrder} m l : add_pairs m (map_iter (add_pairs ∅ l)) = add_pairs m l.
Proof.
  rewrite map_iter_perm. apply map_eq. intros k. rewrite !(add_pairs_lookup _ m), pair_sum_map.
  assert (Hin : k ∈ (map_to_list (add_pairs ∅ l)).*1 <-> k ∈ l.*1).
  { rewrite <- (map_iter_perm (add_pairs ∅ l)). fold (map_keys (add_pairs ∅ l)).
    rewrite elem_of_map_keys, add_pairs_lookup, lookup_empty. case_decide; [naive_solver|].
    split; [by intros []|done]. }
  rewrite (decide_ext _ _ _ _ Hin). case_decide as Hl; [|done]. f_equal.
  rewrite add_pairs_lookup, decide_True, lookup_empty by done. simpl. wrap_solve.
Qed.

Lemma merge_app `{MapOrder} n bs1 bs2 :
  Forall batch_ok bs1 -> Forall batch_ok bs2 ->
  merge (metrics_of n bs1) (metrics_of n bs2) = metrics_of n (bs1 ++ bs2).
Proof.
  intros [Hmin1 Hmax1]%batch_ok_extrema [Hmin2 Hmax2]%batch_ok_extrema.
  rewrite !metrics_of_spec. unfold merge, metrics_spec. simpl.
  unfold batch_errors, batch_buckets, batch_mins, batch_maxs, latencies in *.
  rewrite !omap_app, bind_app, !fmap_app, !Zsum_app.
  f_equal; try wrap_solve.
  - rewrite foldl_app. apply add_into_bucket_sum.
    + by rewrite length_bucket_sum, length_replicate.
    + apply in_u64_bucket_sum, in_u64_replicate_0.
  - apply opt_merge_app; auto using min_choice_op.
  - apply opt_merge_app; auto using max_choice_op.
  - fold (add_pairs (add_pairs ∅ ((fun e => (eb_error_class e, eb_count e)) <$> (bs1 ≫= mb_errors)))
      (map_iter (add_pairs ∅ ((fun e => (eb_error_class e, eb_count e)) <$> (bs2 ≫= mb_errors))))).
    by rewrite add_pairs_map, add_pairs_app.
Qed.

(** ** The stores of the pipeline *)

(** The entry of a keyed store: absent until a batch of that key arrives. *)
Definition metrics_if (n : nat) (bs : list MetricBatch) : option Metrics :=
  match bs with [] => None | _ => Some (metrics_of n bs) end.

Lemma metrics_if_snoc n bs b :
  metrics_if n (bs ++ [b]) = Some (merge_batch n (default (Metrics_new n) (metrics_if n bs)) b).
Proof.
  assert (Hm : metrics_of n (bs ++ [b]) = merge_batch n (metrics_of n bs) b)
    by (unfold metrics_of; by rewrite foldl_app).
  destruct bs as [|b' bs]; [done|]. simpl. by rewrite <- Hm.
Qed.

Lemma entry_update_store {K} `{Countable K} n (key : MetricBatch -> K) (m : gmap K Metrics) bs b k :
  (forall k, m !! k = metrics_if n (filter (fun b => key b = k) bs)) ->
  entry_update (Metrics_new n) (fun m => merge_batch n m b) (key b) m !! k
  = metrics_if n (filter (fun b => key b = k) (bs ++ [b])).
Proof.
  intros Hm. unfold entry_update. rewrite filter_app. destruct (decide (key b = k)) as [<-|Hne].
  - by rewrite lookup_insert_eq, filter_cons_True, filter_nil, metrics_if_snoc, Hm.
  - by rewrite lookup_insert_ne, filter_cons_False, filter_nil, app_nil_r, Hm.
Qed.

Definition batch_epoch (b : MetricBatch) : Z := epoch_of (mb_window_start_unix_ms b).

(** Batches that name their worker. *)
Definition named (bs : list MetricBatch) : list MetricBatch :=
  filter (fun b => str_is_empty (mb_worker_id b) = false) bs.

(** What the pipeline holds after the batches [bs]. *)
Record pipeline_holds (run : string) (n : nat) (w : Z) (bs : list MetricBatch)
    (p : TelemetryPipeline) : Prop := {
  ph_run : p_run_id p = run;
  ph_n : p_bucket_count p = n;
  ph_w : p_window_epochs p = w;
  ph_epochs : forall e, p_epochs p !! e = metrics_if n (filter (fun b => batch_epoch b = e) bs);
  ph_workers : forall k, p_workers p !! k =
    metrics_if n (filter (fun b => mb_worker_id b = k) (named bs));
  ph_started : p_started_at_ms p = batch_epoch <$> head bs;
  ph_published : p_last_published_epoch p = batch_epoch <$> last bs;
  ph_cumulative : p_cumulative p = metrics_of n bs;
  ph_batches : p_batches p = wrap64 (Z.of_nat (length bs));
}.

Definition ingest_all `{MapOrder} (p : TelemetryPipeline) (bs : list MetricBatch) : TelemetryPipeline :=
  foldl (fun p b => (ingest p b).1) p bs.

(** The pipeline of a run that has received [bs]. *)
Definition pipeline_after `{MapOrder} (run : string) (n : nat) (w : Z) (bs : list MetricBatch)
  : TelemetryPipeline := ingest_all (TelemetryPipeline_new run n w) bs.

Lemma ingest_state `{MapOrder} p b :
  (ingest p b).1 = set_published (batch_epoch b) (absorb b p).
Proof.
  unfold ingest. simpl. case_decide as Hd; [done|].
  unfold set_published, absorb, batch_epoch. simpl. f_equal. exact Hd.
Qed.

Lemma new_holds run n w : pipeline_holds run (Nat.max n 1) (Z.max w 1) [] (TelemetryPipeline_new run n w).
Proof. by constructor. Qed.

Lemma ingest_holds `{MapOrder} run n w bs p b :
  pipeline_holds run n w bs p -> pipeline_holds run n w (bs ++ [b]) (ingest p b).1.
Proof.
  intros [Hrun Hn Hw He Hk Hs Hp Hc Hb]. rewrite ingest_state. constructor; simpl; try done.
  - intros e. rewrite Hn. by apply (entry_update_store n batch_epoch).
  - intros k. rewrite Hn. unfold named. rewrite filter_app.
    destruct (str_is_empty (mb_worker_id b)) eqn:E.
    + rewrite filter_cons_False, filter_nil, app_nil_r by (by rewrite E). apply Hk.
    + rewrite filter_cons_True, filter_nil by done. by apply (entry_update_store n mb_worker_id).
  - rewrite Hs. by destruct bs.
  - by rewrite last_snoc.
  - rewrite Hc, Hn. unfold metrics_of. by rewrite foldl_app.
  - rewrite Hb, length_app. simpl. wrap_solve.
Qed.

Lemma ingest_all_holds `{MapOrder} run n w bs :
  pipeline_holds run (Nat.max n 1) (Z.max w 1) bs (ingest_all (TelemetryPipeline_new run n w) bs).
Proof.
  induction bs as [|b bs IH] using rev_ind; [apply new_holds|].
  unfold ingest_all in *. rewrite foldl_app. simpl. by apply ingest_holds.
Qed.

(** ** Listings *)

#[export] Instance key_le_trans {V} : Transitive (@key_le V).
Proof. intros a b c. unfold key_le. lia. Qed.

#[export] Instance key_le_total {V} : Total (@key_le V).
Proof. intros a b. unfold key_le. lia. Qed.

Lemma btree_iter_perm {V} (m : gmap Z V) : btree_iter m ≡ₚ map_to_list m.
Proof. apply merge_sort_Permutation. Qed.

Lemma elem_of_btree_iter {V} (m : gmap Z V) k v : (k, v) ∈ btree_iter m <-> m !! k = Some v.
Proof. by rewrite btree_iter_perm, elem_of_map_to_list. Qed.

Lemma btree_iter_keys {V} (m : gmap Z V) : NoDup (btree_iter m).*1.
Proof. rewrite btree_iter_perm. apply NoDup_fst_map_to_list. Qed.

(** A sorted list with distinct keys is strictly sorted. *)
Lemma btree_iter_sorted {V} (m : gmap Z V) : StronglySorted Z.lt (btree_iter m).*1.
Proof.
  assert (Hs : StronglySorted key_le (btree_iter m)).
  { apply Sorted_StronglySorted; [apply _|]. apply Sorted_merge_sort, _. }
  pose proof (btree_iter_keys m) as Hn. induction Hs as [|e l Hs IH He]; csimpl; [constructor|].
  csimpl in Hn. apply NoDup_cons in Hn as [Hnin Hn]. constructor; [auto|].
  apply Forall_fmap, Forall_forall. intros e' He'. rewrite Forall_forall in He.
  specialize (He e' He'). unfold key_le in He. simpl.
  enough (e.1 <> e'.1) by lia. intros Heq. apply Hnin. rewrite Heq. by apply list_elem_of_fmap_2.
Qed.

#[export] Instance share_le_trans : Transitive share_le.
Proof.
  intros a b c. unfold share_le. intros [?|[? Hab]] [?|[? Hbc]]; [left; lia..|right].
  split; [lia|by etransitivity].
Qed.

#[export] Instance share_le_total : Total share_le.
Proof.
  intros a b. unfold share_le.
  destruct (Z.lt_total (wsh_total_requests a) (wsh_total_requests b)) as [|[|]]; auto.
  destruct (total str_le (wsh_worker_id a) (wsh_worker_id b)); auto.
Qed.

#[export] Instance error_le_trans : Transitive error_le.
Proof.
  intros a b c. unfold error_le. intros [?|[? Hab]] [?|[? Hbc]]; [left; lia..|right].
  split; [lia|by etransitivity].
Qed.

#[export] Instance error_le_total : Total error_le.
Proof.
  intros a b. unfold error_le.
  destruct (Z.lt_total (ecc_count a) (ecc_count b)) as [|[|]]; auto.
  destruct (total str_le (ecc_error_class a) (ecc_error_class b)); auto.
Qed.

#[export] Instance error_le_antisym : AntiSymm (=) error_le.
Proof.
  intros [a n] [b m]. unfold error_le. simpl. intros [?|[? Hab]] [?|[? Hba]]; try lia.
  f_equal; [by apply (anti_symm str_le)|done].
Qed.

Lemma sorted_merge {A} (R : relation A) `{!RelDecision R, !Transitive R, !Total R} l :
  StronglySorted R (merge_sort R l).
Proof. apply Sorted_StronglySorted; [apply _|]. apply Sorted_merge_sort, _. Qed.

Lemma worker_shares_perm `{MapOrder} p d :
  worker_shares p d ≡ₚ worker_share p d <$> map_to_list (p_workers p).
Proof. unfold worker_shares. by rewrite merge_sort_Permutation, map_iter_perm. Qed.

Lemma worker_shares_ids `{MapOrder} p d :
  wsh_worker_id <$> worker_shares p d ≡ₚ map_keys (p_workers p).
Proof.
  rewrite worker_shares_perm, <- list_fmap_compose. unfold map_keys. by rewrite map_iter_perm.
Qed.

(** Two shares of one report with the same worker are the same share. *)
Lemma worker_share_unique p d (a b : WorkerShare) :
  a ∈ worker_share p d <$> map_to_list (p_workers p) ->
  b ∈ worker_share p d <$> map_to_list (p_workers p) ->
  wsh_worker_id a = wsh_worker_id b -> a = b.
Proof.
  rewrite !list_elem_of_fmap.
  intros ([k m] & -> & Hk%elem_of_map_to_list) ([k' m'] & -> & Hk'%elem_of_map_to_list). simpl.
  intros ->. by simplify_eq.
Qed.

Lemma worker_shares_order (o1 o2 : MapOrder) p d :
  @worker_shares o1 p d = @worker_shares o2 p d.
Proof.
  pose proof (@worker_shares_perm o1 p d) as P1. pose proof (@worker_shares_perm o2 p d) as P2.
  apply (StronglySorted_unique_strong share_le).
  - intros a b Ha Hb [?|[? Hab]] [?|[? Hba]]; try lia.
    rewrite P1 in Ha. rewrite P2 in Hb.
    apply (worker_share_unique p d); try done. by apply (anti_symm str_le).
  - apply sorted_merge; apply _.
  - apply sorted_merge; apply _.
  - by rewrite P1, P2.
Qed.

Lemma error_breakdown_order (o1 o2 : MapOrder) m : @error_breakdown o1 m = @error_breakdown o2 m.
Proof.
  apply (StronglySorted_unique error_le); try (apply sorted_merge; apply _).
  unfold error_breakdown. by rewrite !merge_sort_Permutation, !map_iter_perm.
Qed.

Lemma finalize_order (o1 o2 : MapOrder) p : @finalize o1 p = @finalize o2 p.
Proof.
  unfold finalize. rewrite (worker_shares_order o1 o2), (error_breakdown_order o1 o2).
  assert (Hk : sort_strings (@map_keys o1 _ _ _ _ (p_workers p))
             = sort_strings (@map_keys o2 _ _ _ _ (p_workers p))).
  { apply sort_strings_proper. unfold map_keys. by rewrite !map_iter_perm. }
  by rewrite Hk.
Qed.

(** ** Windows of epochs *)

Lemma foldl_merge_concat `{MapOrder} n (acc : list MetricBatch) (ls : list (Z * Metrics))
    (f : Z -> list MetricBatch) :
  Forall batch_ok acc -> (forall e m, (e, m) ∈ ls -> m = metrics_of n (f e) /\ Forall batch_ok (f e)) ->
  foldl (fun window e => merge window e.2) (metrics_of n acc) ls
  = metrics_of n (acc ++ (ls.*1 ≫= f)).
Proof.
  revert acc. induction ls as [|[e m] ls IH]; intros acc Hacc Hls; csimpl; [by rewrite app_nil_r|].
  destruct (Hls e m) as [-> Hf]; [left|]. rewrite merge_app, app_assoc by done. apply IH.
  - by apply Forall_app.
  - intros e' m' Hin. apply Hls. by right.
Qed.

(** Grouping by a duplicate-free list of keys and concatenating selects the
    elements with those keys. *)
Lemma concat_groups {A} (key : A -> Z) (ks : list Z) (l : list A) :
  NoDup ks -> ks ≫= (fun k => filter (fun x => key x = k) l) ≡ₚ filter (fun x => key x ∈ ks) l.
Proof.
  induction 1 as [|k ks Hk Hks IH]; csimpl.
  - rewrite filter_none; [done|]. intros x _. apply not_elem_of_nil.
  - rewrite IH. apply filter_disjoint_union.
    + by intros x ->.
    + intros x. by rewrite elem_of_cons.
Qed.

Lemma metrics_if_Some n bs m : metrics_if n bs = Some m <-> bs <> [] /\ m = metrics_of n bs.
Proof. destruct bs; naive_solver. Qed.

Lemma metrics_if_is_Some n bs : is_Some (metrics_if n bs) <-> bs <> [].
Proof. destruct bs; simpl; [split; [by intros []|done]|split; [done|by eauto]]. Qed.

(** The trailing window is the metrics of the batches whose epoch is in it. *)
Lemma window_metrics_spec `{MapOrder} run n w bs p epoch :
  Forall batch_ok bs -> pipeline_holds run n w bs p ->
  window_metrics p epoch =
    if window_start p epoch >? epoch then None
    else Some (metrics_of n (filter (fun b => window_start p epoch <= batch_epoch b <= epoch) bs)).
Proof.
  intros Hok Hp. unfold window_metrics. destruct (window_start p epoch >? epoch); [done|]. f_equal.
  rewrite (ph_n _ _ _ _ _ Hp). set (start := window_start p epoch).
  set (ls := filter (fun e => start <= e.1 <= epoch) (btree_iter (p_epochs p))).
  change (Metrics_new n) with (metrics_of n []).
  rewrite (foldl_merge_concat n [] ls (fun e => filter (fun b => batch_epoch b = e) bs)); [|done|].
  - simpl. assert (Hn : NoDup ls.*1).
    { eapply sublist_NoDup; [|apply fmap_sublist, sublist_filter]. apply btree_iter_keys. }
    assert (Hperm : ls.*1 ≫= (fun e => filter (fun b => batch_epoch b = e) bs)
                    ≡ₚ filter (fun b => start <= batch_epoch b <= epoch) bs).
    { rewrite concat_groups by done. rewrite (filter_ext_elem _ (fun b => start <= batch_epoch b <= epoch)); [done|]. intros b Hb.
      rewrite list_elem_of_fmap. split.
      - intros ([e m] & -> & [Hr _]%list_elem_of_filter). done.
      - intros Hr. assert (Hne : filter (fun b' => batch_epoch b' = batch_epoch b) bs <> [])
          by (apply filter_not_nil; eauto).
        exists (batch_epoch b, metrics_of n (filter (fun b' => batch_epoch b' = batch_epoch b) bs)).
        split; [done|]. apply list_elem_of_filter. split; [done|].
        apply elem_of_btree_iter. rewrite (ph_epochs _ _ _ _ _ Hp). by apply metrics_if_Some. }
    symmetry. apply metrics_of_perm; [by apply Forall_filter_ok|by symmetry].
  - intros e m [_ Hin%elem_of_btree_iter]%list_elem_of_filter.
    rewrite (ph_epochs _ _ _ _ _ Hp) in Hin. apply metrics_if_Some in Hin as [_ ->].
    split; [done|]. by apply Forall_filter_ok.
Qed.

(** ** Totals *)

Lemma merge_batch_total n m b : m_total (merge_batch n m b) = m_total m +! mb_total_requests b.
Proof. unfold merge_batch. by destruct (mb_latency b). Qed.

(** Requests of the batches that name their worker. *)
Lemma workers_total `{MapOrder} run n w bs :
  map_total m_total (p_workers (ingest_all (TelemetryPipeline_new run n w) bs))
  = wrap64 (Zsum (mb_total_requests <$> named bs)).
Proof.
  induction bs as [|b bs IH] using rev_ind; [done|].
  unfold ingest_all in *. rewrite foldl_app. simpl. rewrite ingest_state. simpl.
  unfold named in *. rewrite filter_app, fmap_app, Zsum_app.
  destruct (str_is_empty (mb_worker_id b)) eqn:E.
  - rewrite filter_cons_False by (by rewrite E). simpl. by rewrite IH, Z.add_0_r.
  - rewrite (filter_cons_True _ b) by done. csimpl.
    rewrite (map_total_entry_update m_total _ _ (mb_total_requests b)), IH;
      [wrap_solve|intros v; apply merge_batch_total|done].
Qed.

Lemma errors_total l m : in_u64 (map_total id m) ->
  map_total id (add_pairs m l) = wrap64 (map_total id m + Zsum l.*2).
Proof. apply foldl_u64_total. intros s [k n]. apply map_total_entry_add. Qed.

Lemma bucket_total d ls :
  Forall (fun l => length l <= length d)%nat ls ->
  u64_sum (foldl add_into d ls) = wrap64 (Zsum d + Zsum (Zsum <$> ls)).
Proof.
  revert d. induction ls as [|l ls IH]; intros d Hl; csimpl.
  - by rewrite Z.add_0_r, u64_sum_Zsum.
  - apply Forall_cons in Hl as [Hl Hls]. rewrite IH by by rewrite length_add_into.
    assert (Hz : wrap64 (Zsum (add_into d l)) = wrap64 (Zsum d + Zsum l)).
    { rewrite <- u64_sum_wrap, u64_sum_add_into, !u64_sum_Zsum by done. wrap_solve. }
    rewrite <- wrap64_add_l, Hz, wrap64_add_l. f_equal. lia.
Qed.

Lemma Zsum_replicate_0 n : Zsum (replicate n 0) = 0.
Proof. induction n; simpl; lia. Qed.

Section claims.
Context `{MapOrder}.
Implicit Types (run : string) (n : nat) (w : Z) (bs : list MetricBatch).

(** C4. The pipeline state is a function of the batches ingested: the
    cumulative metrics, every epoch's and every named worker's entry are the
    closed-form metrics of exactly the batches that belong there, an entry
    exists only when such a batch arrived, the run start is the epoch of the
    first batch and the last published epoch that of the last one. *)
Theorem pipeline_state_of_batches run n w bs :
  let p := pipeline_after run n w bs in
  let nb := Nat.max n 1 in
  p_cumulative p = metrics_spec nb bs /\
  (forall e, p_epochs p !! e =
     let l := filter (fun b => batch_epoch b = e) bs in
     if bool_decide (l = []) then None else Some (metrics_spec nb l)) /\
  (forall k, p_workers p !! k =
     let l := filter (fun b => mb_worker_id b = k) (named bs) in
     if bool_decide (l = []) then None else Some (metrics_spec nb l)) /\
  p_started_at_ms p = batch_epoch <$> head bs /\
  p_last_published_epoch p = batch_epoch <$> last bs /\
  p_batches p = wrap64 (Z.of_nat (length bs)).
Proof.
  intros p nb. pose proof (ingest_all_holds run n w bs) as Hp. fold (pipeline_after run n w bs) p nb in Hp.
  assert (Hif : forall l, metrics_if nb l = if bool_decide (l = []) then None else Some (metrics_spec nb l)).
  { intros [|b l]; [done|]. rewrite bool_decide_eq_false_2 by done. simpl. by rewrite metrics_of_spec. }
  destruct Hp. rewrite <- metrics_of_spec. split_and!; try done; intros; rewrite <- Hif; auto.
Qed.

Lemma report_totals run n w bs :
  let r := finalize (pipeline_after run n w bs) in
  gr_total_requests r = wrap64 (Zsum (mb_total_requests <$> bs)) /\
  gr_success_count r = wrap64 (Zsum (mb_success_count <$> bs)) /\
  gr_failure_count r = wrap64 (Zsum (mb_failure_count <$> bs)) /\
  gr_bytes_received r = wrap64 (Zsum (mb_bytes_received <$> bs)) /\
  gl_sample_count (gr_latency r) = wrap64 (Zsum (ls_sample_count <$> latencies bs)) /\
  u64_sum (ecc_count <$> gr_error_breakdown r) = wrap64 (Zsum (batch_errors bs).*2) /\
  (Forall (fun s => length (ls_bucket_counts s) <= Nat.max n 1)%nat (latencies bs) ->
   u64_sum (gl_bucket_counts (gr_latency r))
   = wrap64 (Zsum ((fun s => Zsum (ls_bucket_counts s)) <$> latencies bs))).
Proof.
  intros r. pose proof (ingest_all_holds run n w bs) as Hp. fold (pipeline_after run n w bs) in Hp.
  pose proof (ph_cumulative _ _ _ _ _ Hp) as Hc. rewrite metrics_of_spec in Hc.
  split_and!; try (unfold r, finalize, latency; simpl; by rewrite Hc).
  - unfold r, finalize. simpl. rewrite Hc. simpl. unfold error_breakdown.
    rewrite merge_sort_Permutation, <- list_fmap_compose.
    change (u64_sum (snd <$> map_iter (add_pairs ∅ (batch_errors bs)))
            = wrap64 (Zsum (batch_errors bs).*2)).
    rewrite <- (list_fmap_id (snd <$> _)). fold (map_values (add_pairs ∅ (batch_errors bs))).
    rewrite <- (map_total_iter id), errors_total; [done|apply map_total_range].
  - intros Hb. unfold r, finalize, latency. simpl. rewrite Hc. simpl. unfold batch_buckets.
    rewrite bucket_total.
    + rewrite Zsum_replicate_0, <- list_fmap_compose, Z.add_0_l. do 2 f_equal.
      apply list_fmap_ext. intros i s Hs. simpl. rewrite take_ge; [done|].
      rewrite Forall_lookup in Hb. by apply (Hb i).
    + apply Forall_fmap, Forall_true. intros s. simpl. rewrite length_take, length_replicate. lia.
Qed.

(** C5. The report adds up: its totals are the sums over the ingested batches
    (modulo 2^64), the worker shares sum to the requests of all batches that
    name a worker, the error breakdown to all reported errors, and, when no
    batch has more buckets than the pipeline, the merged histogram to all the
    bucket counts. *)
Theorem report_accounts run n w bs :
  let r := finalize (pipeline_after run n w bs) in
  gr_total_requests r = wrap64 (Zsum (mb_total_requests <$> bs)) /\
  gr_success_count r = wrap64 (Zsum (mb_success_count <$> bs)) /\
  gr_failure_count r = wrap64 (Zsum (mb_failure_count <$> bs)) /\
  gr_bytes_received r = wrap64 (Zsum (mb_bytes_received <$> bs)) /\
  gr_batches r = wrap64 (Z.of_nat (length bs)) /\
  gl_sample_count (gr_latency r) = wrap64 (Zsum (ls_sample_count <$> latencies bs)) /\
  u64_sum (wsh_total_requests <$> gr_worker_shares r) = wrap64 (Zsum (mb_total_requests <$> named bs)) /\
  u64_sum (ecc_count <$> gr_error_breakdown r) = wrap64 (Zsum (batch_errors bs).*2) /\
  (Forall (fun s => length (ls_bucket_counts s) <= Nat.max n 1)%nat (latencies bs) ->
   u64_sum (gl_bucket_counts (gr_latency r))
   = wrap64 (Zsum ((fun s => Zsum (ls_bucket_counts s)) <$> latencies bs))).
Proof.
  intros r. pose proof (ingest_all_holds run n w bs) as Hp. fold (pipeline_after run n w bs) in Hp.
  destruct (report_totals run n w bs) as (RT & RS & RF & RB & RN & RE & RH).
  split_and!; try done.
  - apply (ph_batches _ _ _ _ _ Hp).
  - unfold r, finalize. simpl.
    rewrite worker_shares_perm, <- list_fmap_compose, <- (workers_total run n w bs).
    rewrite map_total_iter. unfold map_values. by rewrite map_iter_perm, <- list_fmap_compose.
Qed.

(** The report's listings are canonical: the workers are exactly the
    non-empty worker ids seen, sorted and without duplicates; the shares list
    the same workers by descending request count (ties by id); the timeline has
    one point per epoch seen, strictly increasing; the error classes come in
    descending count (ties by name). *)
Theorem report_listings run n w bs :
  let r := finalize (pipeline_after run n w bs) in
  StronglySorted str_le (gr_workers r) /\ NoDup (gr_workers r) /\
  (forall k, k ∈ gr_workers r <-> k <> ""%string /\ exists b, b ∈ bs /\ mb_worker_id b = k) /\
  gr_worker_count r = Z.of_nat (length (gr_workers r)) /\
  wsh_worker_id <$> gr_worker_shares r ≡ₚ gr_workers r /\
  StronglySorted share_le (gr_worker_shares r) /\
  StronglySorted Z.lt (tp_epoch_ms <$> gr_timeline r) /\
  (forall e, e ∈ tp_epoch_ms <$> gr_timeline r <-> exists b, b ∈ bs /\ batch_epoch b = e) /\
  StronglySorted error_le (gr_error_breakdown r).
Proof.
  intros r. pose proof (ingest_all_holds run n w bs) as Hp. fold (pipeline_after run n w bs) in Hp.
  assert (Htl : tp_epoch_ms <$> gr_timeline r = (btree_iter (p_epochs (pipeline_after run n w bs))).*1).
  { unfold r, finalize, timeline. simpl. by rewrite <- list_fmap_compose. }
  rewrite Htl. split_and!; unfold r, finalize; simpl.
  - apply sort_strings_sorted.
  - rewrite sort_strings_perm. apply NoDup_map_keys.
  - intros k. rewrite sort_strings_perm, elem_of_map_keys, (ph_workers _ _ _ _ _ Hp).
    rewrite metrics_if_is_Some, filter_not_nil. unfold named.
    setoid_rewrite list_elem_of_filter. split.
    + intros (b & [Hne Hb] & <-). split; [|eauto]. intros E. by rewrite E in Hne.
    + intros (Hk & b & Hb & <-). exists b. split_and!; try done. by destruct (mb_worker_id b).
  - done.
  - by rewrite worker_shares_ids, sort_strings_perm.
  - apply sorted_merge; apply _.
  - apply btree_iter_sorted.
  - intros e. rewrite list_elem_of_fmap. split.
    + intros ([e' m] & -> & Hin%elem_of_btree_iter). simpl. rewrite (ph_epochs _ _ _ _ _ Hp) in Hin.
      apply metrics_if_Some in Hin as [Hne _]. by apply filter_not_nil in Hne.
    + intros Hex. apply (filter_not_nil (fun b => batch_epoch b = e)) in Hex.
      exists (e, metrics_of (Nat.max n 1) (filter (fun b => batch_epoch b = e) bs)). split; [done|].
      apply elem_of_btree_iter. rewrite (ph_epochs _ _ _ _ _ Hp). by apply metrics_if_Some.
  - apply sorted_merge; apply _.
Qed.
End claims.

Lemma metrics_if_perm n bs bs' : Forall batch_ok bs -> bs ≡ₚ bs' -> metrics_if n bs = metrics_if n bs'.
Proof.
  intros Hok Hp. pose proof (metrics_of_perm n bs bs' Hok Hp) as Hm.
  destruct bs, bs'; simpl; try done; [by apply Permutation_nil_cons in Hp| |by rewrite Hm].
  symmetry in Hp. by apply Permutation_nil_cons in Hp.
Qed.

(** Epoch arithmetic stays in range for realistic time stamps. *)
Definition time_ok (b : MetricBatch) : Prop := 0 <= mb_window_start_unix_ms b < 2 ^ 62.

Lemma wrap_i64_small z : - 2 ^ 63 <= z < 2 ^ 63 -> wrap_i64 z = z.
Proof. intros. unfold wrap_i64. rewrite Z.mod_small; lia. Qed.

Lemma batch_epoch_bounds b :
  time_ok b -> batch_epoch b = mb_window_start_unix_ms b / 1000 * 1000 /\ 0 <= batch_epoch b < 2 ^ 62.
Proof.
  unfold time_ok, batch_epoch, epoch_of, EPOCH_MS. intros Hb.
  pose proof (Z.div_mod (mb_window_start_unix_ms b) 1000).
  pose proof (Z.mod_pos_bound (mb_window_start_unix_ms b) 1000).
  rewrite wrap_i64_small by lia. lia.
Qed.

Lemma window_start_le p epoch :
  1 <= p_window_epochs p <= 2 ^ 50 -> 0 <= epoch < 2 ^ 62 ->
  window_start p epoch = epoch - (p_window_epochs p - 1) * 1000 /\ window_start p epoch <= epoch.
Proof.
  intros Hw He. unfold window_start, EPOCH_MS. rewrite !wrap_i64_small by (rewrite ?wrap_i64_small; lia). lia.
Qed.

Lemma last_sorted_max {V} (l : list (Z * V)) k v :
  StronglySorted Z.lt l.*1 -> last l = Some (k, v) -> forall e, e ∈ l.*1 -> e <= k.
Proof.
  induction l as [|[k0 v0] l IH]; csimpl; [done|]. intros [Hs Hf]%StronglySorted_inv Hl e He.
  destruct l as [|x l]; [simpl in *; simplify_eq; apply list_elem_of_singleton in He; lia|].
  apply elem_of_cons in He as [->|He]; [|by apply IH].
  rewrite Forall_forall in Hf. assert (Hk : k ∈ (x :: l).*1).
  { apply list_elem_of_fmap. exists (k, v). split; [done|]. by apply last_Some_elem_of. }
  specialize (Hf k Hk). lia.
Qed.

(** The latest epoch of the store. *)
Lemma latest_epoch `{MapOrder} run n w bs p :
  pipeline_holds run n w bs p -> bs <> [] ->
  exists k m, last (btree_iter (p_epochs p)) = Some (k, m) /\ k ∈ batch_epoch <$> bs /\
    forall e, e ∈ batch_epoch <$> bs -> e <= k.
Proof.
  intros Hp Hne. set (l := btree_iter (p_epochs p)).
  assert (Hin : forall e, e ∈ l.*1 <-> e ∈ batch_epoch <$> bs).
  { intros e. unfold l. rewrite btree_iter_perm, <- (map_iter_perm (p_epochs p)).
    fold (map_keys (p_epochs p)).
    rewrite elem_of_map_keys, (ph_epochs _ _ _ _ _ Hp), metrics_if_is_Some, filter_not_nil.
    rewrite list_elem_of_fmap. naive_solver. }
  destruct (last l) as [[k m]|] eqn:Hlast.
  - exists k, m. split_and!; [done| |].
    + apply Hin, list_elem_of_fmap. exists (k, m). split; [done|]. by apply last_Some_elem_of.
    + intros e He. by apply (last_sorted_max l k m (btree_iter_sorted _) Hlast), Hin.
  - exfalso. apply last_None in Hlast. destruct bs as [|b bs]; [done|].
    apply (elem_of_nil (batch_epoch b)). rewrite Hlast in Hin. apply Hin. left.
Qed.

Section claims2.
Context `{MapOrder}.
Implicit Types (run : string) (n : nat) (w : Z) (bs : list MetricBatch).

(** C27. The report does not depend on the order in which the batches of
    concurrent workers arrive, as long as the same epoch comes first (it dates
    the run), nor on hash-map iteration order: two such arrival orders give
    equal reports, floating-point fields included.  (The latency extrema are
    assumed not to be the negative zero, which [min]/[max] cannot order.) *)
Theorem report_order_independent (o1 o2 : MapOrder) run n w bs bs' :
  Forall batch_ok bs -> bs ≡ₚ bs' -> batch_epoch <$> head bs = batch_epoch <$> head bs' ->
  @finalize o1 (@pipeline_after o1 run n w bs) = @finalize o2 (@pipeline_after o2 run n w bs').
Proof.
  intros Hok Hp Hhead. rewrite (finalize_order o1 o2).
  pose proof (@ingest_all_holds o1 run n w bs) as H1.
  pose proof (@ingest_all_holds o2 run n w bs') as H2.
  fold (@pipeline_after o1 run n w bs) in H1. fold (@pipeline_after o2 run n w bs') in H2.
  destruct (@pipeline_after o1 run n w bs) as [r1 n1 w1 e1 k1 s1 l1 c1 b1].
  destruct (@pipeline_after o2 run n w bs') as [r2 n2 w2 e2 k2 s2 l2 c2 b2].
  destruct H1 as [R1 N1 W1 E1 K1 S1 _ C1 B1], H2 as [R2 N2 W2 E2 K2 S2 _ C2 B2]. simpl in *.
  assert (e1 = e2) as ->.
  { apply map_eq. intros e. rewrite E1, E2. apply metrics_if_perm; [by apply Forall_filter_ok|].
    by rewrite Hp. }
  assert (k1 = k2) as ->.
  { apply map_eq. intros k. rewrite K1, K2. unfold named.
    apply metrics_if_perm; [by repeat apply Forall_filter_ok|]. by rewrite Hp. }
  assert (c1 = c2) as -> by (rewrite C1, C2; by apply metrics_of_perm).
  assert (b1 = b2) as -> by (rewrite B1, B2; by rewrite Hp).
  subst. unfold finalize, worker_shares, timeline, duration_secs_of. simpl. rewrite Hhead. done.
Qed.

(** Live snapshots are throttled and exact: a batch publishes one exactly
    when its epoch differs from that of the batch before it, and what it
    publishes is computed from the metrics of precisely the batches whose epoch
    lies in the trailing window of [w] seconds, with the cumulative request
    count and the number of workers seen so far.  For time stamps below 2^62 ms
    and windows of at most 2^50 s, ingesting never panics. *)
Theorem ingest_publishes run n w bs b :
  Forall batch_ok (bs ++ [b]) -> time_ok b -> 1 <= w <= 2 ^ 50 ->
  let e := batch_epoch b in
  let win := metrics_spec (Nat.max n 1)
               (filter (fun b' => e - (w - 1) * 1000 <= batch_epoch b' <= e) (bs ++ [b])) in
  match (ingest (pipeline_after run n w bs) b).2 with
  | Quiet => batch_epoch <$> last bs = Some e
  | Publish s =>
      batch_epoch <$> last bs <> Some e /\
      lv_epoch_ms s = e /\
      lv_window_secs s = f64_mul (f64_of_Z w) (f64_div (f64_of_Z 1000) (f64_of_Z 1000)) /\
      lv_rps s = (if f64_gtb (lv_window_secs s) f64_zero
                  then f64_div (f64_of_Z (m_total win)) (lv_window_secs s) else f64_zero) /\
      lv_error_rate_percent s = error_rate_percent win /\
      lv_p50_ms s = gl_p50_ms (latency win) /\ lv_p90_ms s = gl_p90_ms (latency win) /\
      lv_p95_ms s = gl_p95_ms (latency win) /\ lv_p99_ms s = gl_p99_ms (latency win) /\
      lv_total_requests s = wrap64 (Zsum (mb_total_requests <$> bs ++ [b]))
  | IngestPanic => False
  end.
Proof.
  intros Hok Ht Hw e win.
  pose proof (ingest_holds _ _ _ bs _ b (ingest_all_holds run n w bs)) as Hp.
  fold (pipeline_after run n w bs) in Hp.
  pose proof (ph_published _ _ _ _ _ (ingest_all_holds run n w bs)) as Hlast.
  fold (pipeline_after run n w bs) in Hlast.
  rewrite ingest_state in Hp. fold e in Hp. unfold ingest. fold (batch_epoch b). fold e.
  cbv zeta. destruct (decide (_ <> Some e)) as [Hd|Hd]; cbn [snd];
    [|apply dec_stable in Hd; rewrite <- Hlast; exact Hd].
  replace (p_last_published_epoch (absorb b (pipeline_after run n w bs)))
    with (batch_epoch <$> last bs) in Hd by (rewrite <- Hlast; done).
  remember (set_published e (absorb b (pipeline_after run n w bs))) as p' eqn:Hp'. clear Hp'.
  unfold snapshot. rewrite (window_metrics_spec _ _ _ _ _ e Hok Hp).
  pose proof (ph_w _ _ _ _ _ Hp) as Hpw. rewrite Z.max_l in Hpw by lia.
  destruct (window_start_le p' e) as [Hs _]; [lia|apply batch_epoch_bounds, Ht|].
  rewrite Hs, Hpw. destruct (Z.gtb_spec (e - (w - 1) * 1000) e); [lia|]. simpl.
  rewrite metrics_of_spec. fold win. rewrite (ph_cumulative _ _ _ _ _ Hp), metrics_of_spec.
  by split_and!.
Qed.

(** The run span: the duration of the report is the distance from the epoch
    of the batch that arrived first to the latest epoch, plus one epoch. *)
Theorem report_duration run n w b bs :
  Forall time_ok (b :: bs) ->
  exists latest, latest ∈ batch_epoch <$> b :: bs /\
    (forall e, e ∈ batch_epoch <$> b :: bs -> e <= latest) /\
    gr_duration_secs (finalize (pipeline_after run n w (b :: bs)))
    = f64_div (f64_of_Z (latest - batch_epoch b + 1000)) (f64_of_Z 1000).
Proof.
  intros Ht. pose proof (ingest_all_holds run n w (b :: bs)) as Hp.
  fold (pipeline_after run n w (b :: bs)) in Hp. simpl. unfold duration_secs_of.
  rewrite (ph_started _ _ _ _ _ Hp). simpl.
  destruct (latest_epoch _ _ _ _ _ Hp) as (k & m & -> & Hk & Hmax); [done|]. exists k.
  split_and!; [done|done|]. rewrite Forall_forall in Ht.
  apply list_elem_of_fmap in Hk as (b' & -> & Hb').
  pose proof (batch_epoch_bounds b' (Ht b' Hb')). pose proof (batch_epoch_bounds b (Ht b ltac:(left))).
  specialize (Hmax (batch_epoch b) ltac:(left)). rewrite (proj2 (Z.geb_le _ _)) by lia.
  by rewrite !wrap_i64_small by (rewrite ?wrap_i64_small; unfold EPOCH_MS; lia).
Qed.

(** Out-of-order arrival shortens the reported span: when a batch of a
    later epoch arrives before one of an earlier epoch, the report says one
    second whatever the distance between them. *)
Theorem out_of_order_duration run n w b1 b2 :
  time_ok b1 -> time_ok b2 -> batch_epoch b2 < batch_epoch b1 ->
  gr_duration_secs (finalize (pipeline_after run n w [b1; b2])) = f64_one.
Proof.
  intros H1 H2 Hlt. pose proof (ingest_all_holds run n w [b1; b2]) as Hp.
  fold (pipeline_after run n w [b1; b2]) in Hp. simpl. unfold duration_secs_of.
  rewrite (ph_started _ _ _ _ _ Hp). simpl.
  destruct (latest_epoch _ _ _ _ _ Hp) as (k & m & -> & Hk & Hmax); [done|].
  specialize (Hmax (batch_epoch b1) ltac:(left)). csimpl in Hk.
  apply elem_of_cons in Hk as [->|Hk%list_elem_of_singleton]; [|lia].
  rewrite (proj2 (Z.geb_le _ _)), Z.sub_diag by lia. reflexivity.
Qed.
End claims2.

(** ** Witnesses *)

Definition sample_batch (worker : string) (at_ms total : Z) : MetricBatch :=
  mkMetricBatch worker "run" "0" at_ms 1000 total total 0 10 0 1
    (Some (mkLatencySummary f64_one f64_one f64_one f64_one f64_one f64_one f64_one f64_one total
             [0; total; 0; 0; 0; 0; 0; 0; 0; 0]))
    [] (f64_of_Z total).

Lemma sample_batch_ok worker at_ms total : batch_ok (sample_batch worker at_ms total).
Proof. intros s [= <-]. by split. Qed.

Lemma report_order_independent_witness :
  finalize (pipeline_after "run" 10 5 [sample_batch "a" 1000 3; sample_batch "b" 1500 4])
  = finalize (pipeline_after "run" 10 5 [sample_batch "b" 1500 4; sample_batch "a" 1000 3]).
Proof.
  apply (report_order_independent canonical_order canonical_order).
  - apply Forall_cons. split; [|apply Forall_singleton]; apply sample_batch_ok.
  - constructor.
  - reflexivity.
Defined.

Lemma ingest_publishes_witness :
  exists s, (ingest (pipeline_after "run" 10 5 [sample_batch "a" 1000 3]) (sample_batch "b" 2500 4)).2
            = Publish s /\ lv_total_requests s = 7.
Proof.
  pose proof (ingest_publishes "run" 10 5 [sample_batch "a" 1000 3] (sample_batch "b" 2500 4)) as Hi.
  destruct (ingest _ _).2 as [s| |] eqn:E.
  - exists s. split; [done|]. apply Hi; [|by vm_compute|lia].
    apply Forall_cons. split; [|apply Forall_singleton]; apply sample_batch_ok.
  - vm_compute in E. discriminate.
  - vm_compute in E. discriminate.
Defined.

Lemma report_duration_witness :
  exists latest, gr_duration_secs
      (finalize (pipeline_after "run" 10 5 [sample_batch "a" 1000 3; sample_batch "b" 2500 4]))
    = f64_div (f64_of_Z (latest - 1000 + 1000)) (f64_of_Z 1000).
Proof.
  destruct (report_duration "run" 10 5 (sample_batch "a" 1000 3) [sample_batch "b" 2500 4])
    as (latest & _ & _ & Hd).
  - apply Forall_cons. split; [|apply Forall_singleton]; by vm_compute.
  - exists latest. exact Hd.
Defined.

Lemma out_of_order_duration_witness :
  gr_duration_secs (finalize (pipeline_after "run" 10 5
    [sample_batch "a" 90000 3; sample_batch "b" 1000 4])) = f64_one.
Proof. apply out_of_order_duration; by vm_compute. Defined.
