(* ===== verification/Rates.v ===== *)
(** Rates, shares, jitter and percentiles stay where they belong: bounds of the
    floating-point results of [src/distributed/backoff.rs],
    [src/distributed/master/pipeline.rs] and [src/report/schema.rs], from the
    rounding theory of [F64]. *)

From S2P Require Import Prelude Float Rounding F64 Proto Report Histogram Samples Summary Config Artifact Backoff Pipeline.

#[local] Open Scope Z_scope.
#[local] Open Scope f64_scope.
#[local] Opaque R ONE BIG.

(** ** Ratios of counters *)

(** [n as f64]. *)
Lemma counter_rep n : in_u64 n -> exists u, f64_of_Z n ≈ u /\ u = R (n * ONE) 1 /\ 0 <= u <= 2 ^ 64 * ONE.
Proof.
  intros Hn. unfold in_u64, U64_MAX in Hn. pose proof ONE_pos. exists (R (n * ONE) 1). split_and!; [|done| |].
  - apply of_Z_value. transitivity (2 ^ 64); [lia|]. by apply Z.pow_le_mono_r.
  - apply R_nonneg; nia.
  - apply R_le; [lia| |nia]. replace (2 ^ 64 * ONE) with (2 ^ 53 * 2 ^ 1085).
    + apply rep_pow; lia.
    + Transparent ONE. unfold ONE. Opaque ONE. by rewrite <- !Z.pow_add_r.
Qed.

Lemma counter_positive n : 0 < n -> ONE <= R (n * ONE) 1.
Proof.
  intros Hn. pose proof ONE_pos. apply R_ge; [lia| |nia]. rewrite <- (Z.mul_1_l ONE). by apply rep_int.
Qed.

(** The quotient of a part by its whole. *)
Lemma ratio_value n d :
  0 <= n <= d -> in_u64 d -> 0 < d ->
  exists u, f64_div (f64_of_Z n) (f64_of_Z d) ≈ u /\ 0 <= u <= ONE /\ (n = d -> u = ONE) /\ (n = 0 <-> u = 0).
Proof.
  intros Hn Hd Hpos. pose proof ONE_pos as H1. assert (Hn' : in_u64 n) by (unfold in_u64 in *; lia).
  destruct (counter_rep n Hn') as (un & Fn & En & Bn). destruct (counter_rep d Hd) as (ud & Fd & Ed & Bd).
  pose proof (counter_positive d Hpos) as Hud. rewrite <- Ed in Hud.
  assert (Hle : un <= ud) by (subst; apply R_mono_num; nia).
  pose proof (BIG_ge 100 ltac:(lia)) as Hbig.
  assert (Hrep : representable 53 ONE) by (rewrite <- (Z.mul_1_l ONE); by apply rep_int).
  exists (R (un * ONE) ud). split_and!.
  - apply div_value; [done|done|lia|]. rewrite Z.abs_eq by nia. nia.
  - apply R_nonneg; nia.
  - apply R_le; [lia|done|nia].
  - intros ->. rewrite Ed, En, Z.mul_comm. apply R_exact; [done|lia].
  - split.
    + intros ->. rewrite En. assert (E : R (0 * ONE) 1 = 0) by (by apply (R_0 1)). rewrite E. apply (R_0 ud). lia.
    + intros Hz. destruct (Z.eq_dec n 0) as [|Hne]; [done|]. exfalso.
      pose proof (counter_positive n ltac:(lia)) as Hun. rewrite <- En in Hun.
      assert (Hp : 0 < 2 ^ 1010) by (by apply Z.pow_pos_nonneg).
      assert (2 ^ 1010 <= R (un * ONE) ud); [|lia].
      apply R_ge; [lia|rewrite <- (Z.mul_1_l (2 ^ 1010)); by apply rep_pow|].
      apply Z.le_trans with (ONE * ONE); [|nia].
      apply Z.le_trans with (2 ^ 1010 * (2 ^ 64 * ONE)); [nia|].
      rewrite Z.mul_assoc. apply Z.mul_le_mono_nonneg_r; [lia|].
      Transparent ONE. unfold ONE. Opaque ONE. by rewrite <- Z.pow_add_r.
Qed.

(** [n as f64 / d as f64 * 100.0]. *)
Definition percentage (n d : Z) : f64 := f64_mul (f64_div (f64_of_Z n) (f64_of_Z d)) (f64_of_Z 100).

Lemma percentage_value n d :
  0 <= n <= d -> in_u64 d -> 0 < d ->
  exists u, percentage n d ≈ u /\ 0 <= u <= 100 * ONE /\ (n = d -> u = 100 * ONE) /\ (n = 0 <-> u = 0).
Proof.
  intros Hn Hd Hpos. pose proof ONE_pos as H1. destruct (ratio_value n d Hn Hd Hpos) as (q & Fq & Bq & E1 & E0).
  assert (Hrep : representable 53 (100 * ONE)) by (by apply rep_int).
  pose proof (BIG_ge 100 ltac:(lia)) as Hbig.
  exists (R (q * (100 * ONE)) ONE). split_and!.
  - apply mul_value; [done|by apply of_int|]. rewrite Z.abs_eq by nia. nia.
  - apply R_nonneg; nia.
  - apply R_le; [done|done|nia].
  - intros Hnd. rewrite (E1 Hnd), Z.mul_comm. by apply R_exact.
  - rewrite E0. split; [intros ->; by rewrite Z.mul_0_l, R_0|]. intros Hz.
    destruct (Z.eq_dec q 0) as [|Hq]; [done|]. exfalso.
    assert (1 <= R (q * (100 * ONE)) ONE); [|lia]. apply R_ge; [done| |nia].
    rewrite <- (Z.mul_1_l 1). by apply (rep_pow 1 0).
Qed.

(** ** Error rates *)

(** Between 0 and 100, 0 exactly without failures, 100 when everything failed. *)
Definition is_percentage (x : f64) : Prop :=
  f64_leb f64_zero x = true /\ f64_leb x (f64_of_Z 100) = true.

Lemma percentage_bounds n d :
  0 <= n <= d -> in_u64 d -> 0 < d ->
  is_percentage (percentage n d) /\ (n = d -> percentage n d = f64_of_Z 100) /\
  (f64_leb (percentage n d) f64_zero = true <-> n = 0).
Proof.
  intros Hn Hd Hpos. destruct (percentage_value n d Hn Hd Hpos) as (u & Fu & Bu & E1 & E0). pose proof ONE_pos.
  assert (F0 : f64_zero ≈ 0) by done. assert (F100 : f64_of_Z 100 ≈ 100 * ONE) by (by apply of_int).
  split_and!.
  - split; [apply (leb_value _ _ _ _ F0 Fu)|apply (leb_value _ _ _ _ Fu F100)]; lia.
  - intros Hnd. apply (value_inj _ _ (100 * ONE)); [by rewrite <- (E1 Hnd)|done|lia].
  - rewrite (leb_value _ _ _ _ Fu F0), E0. lia.
Qed.

(** *** Of the master's report *)

(** Batches whose failures are among their requests, of fewer than [2^64]
    requests together. *)
Definition counts_ok (bs : list MetricBatch) : Prop :=
  Forall (fun b => 0 <= mb_failure_count b <= mb_total_requests b) bs /\
  Zsum (mb_total_requests <$> bs) <= U64_MAX.

Lemma Zsum_filter_le {A} (f : A -> Z) (P : A -> Prop) `{!forall x, Decision (P x)} l :
  Forall (fun x => 0 <= f x) l -> 0 <= Zsum (f <$> filter P l) <= Zsum (f <$> l).
Proof.
  induction 1 as [|x l Hx Hl IH]; [done|]. rewrite filter_cons. case_decide; csimpl; lia.
Qed.

Lemma Forall_filter_keep {A} (Q P : A -> Prop) `{!forall x, Decision (P x)} l : Forall Q l -> Forall Q (filter P l).
Proof. rewrite !Forall_forall. intros HQ x [_ Hx]%list_elem_of_filter. auto. Qed.

Lemma counts_ok_filter (P : MetricBatch -> Prop) `{!forall x, Decision (P x)} bs :
  counts_ok bs -> counts_ok (filter P bs).
Proof.
  intros [Hb Ht]. split; [by apply Forall_filter_keep|]. etransitivity; [|exact Ht].
  apply Zsum_filter_le. eapply Forall_impl; [exact Hb|]. simpl. lia.
Qed.

Lemma Zsum_le_pointwise {A} (f g : A -> Z) l :
  Forall (fun x => 0 <= f x <= g x) l -> 0 <= Zsum (f <$> l) <= Zsum (g <$> l).
Proof. induction 1; csimpl; lia. Qed.

Lemma counts_value n bs :
  counts_ok bs ->
  m_total (metrics_of n bs) = Zsum (mb_total_requests <$> bs) /\
  m_failure (metrics_of n bs) = Zsum (mb_failure_count <$> bs) /\
  0 <= Zsum (mb_failure_count <$> bs) <= Zsum (mb_total_requests <$> bs).
Proof.
  intros [Hb Ht]. pose proof (Zsum_le_pointwise _ _ _ Hb) as Hle. rewrite metrics_of_spec. simpl.
  rewrite !wrap64_small by (unfold in_u64; lia). done.
Qed.

(** A rate of a report against the counters it is derived from. *)
Definition rate_of (x : f64) (failed total : Z) : Prop :=
  is_percentage x /\ (0 < total -> failed = total -> x = f64_of_Z 100) /\
  (f64_leb x f64_zero = true <-> failed = 0).

Lemma rate_of_percentage n d x :
  0 <= n <= d -> in_u64 d -> x = (if d >? 0 then percentage n d else f64_zero) -> rate_of x n d.
Proof.
  intros Hn Hd ->. destruct (Z.gtb_spec d 0) as [Hpos|Hz].
  - destruct (percentage_bounds n d) as (H1 & H2 & H3); [done..|lia|]. split_and!; [done|auto|done].
  - split_and!; [by vm_compute|lia|]. split; [lia|by intros ->].
Qed.

Lemma error_rate_of n bs :
  counts_ok bs ->
  rate_of (error_rate_percent (metrics_of n bs)) (m_failure (metrics_of n bs)) (m_total (metrics_of n bs)).
Proof.
  intros Hc. destruct (counts_value n bs Hc) as (Et & Ef & Hle). destruct Hc as [_ Hmax].
  apply rate_of_percentage; [lia|unfold in_u64; lia|done].
Qed.

Section report.
Context `{MapOrder}.

(** C30. Every rate of a report is a percentage: whatever batches the workers sent,
    as long as each counts no more failures than requests and the requests fit
    in 64 bits, the error rate of the run, of every point of the timeline and of
    every worker, and every worker's share of the traffic, lie between 0 and 100;
    an error rate (at a point of the timeline, of the batches of its epoch) is 0
    exactly when nothing failed and 100 when everything did; a share is 0 exactly
    for an idle worker and exactly 100 for one that did all the work. *)
Theorem report_rates_are_percentages run n w bs :
  counts_ok bs ->
  let r := finalize (pipeline_after run n w bs) in
  rate_of (gr_error_rate_percent r) (gr_failure_count r) (gr_total_requests r) /\
  Forall (fun t => let here := filter (fun b => batch_epoch b = tp_epoch_ms t) bs in
            rate_of (tp_error_rate_percent t) (Zsum (mb_failure_count <$> here)) (Zsum (mb_total_requests <$> here)))
    (gr_timeline r) /\
  Forall (fun s => rate_of (wsh_error_rate_percent s) (wsh_failure_count s) (wsh_total_requests s) /\
                   rate_of (wsh_share_percent s) (wsh_total_requests s) (gr_total_requests r))
    (gr_worker_shares r).
Proof.
  intros Hc r. pose proof (ingest_all_holds run n w bs) as Hp. fold (pipeline_after run n w bs) in Hp.
  pose proof (ph_cumulative _ _ _ _ _ Hp) as Hcum. split_and!.
  - unfold r, finalize. simpl. rewrite Hcum. by apply error_rate_of.
  - unfold r, finalize, timeline. simpl. apply Forall_fmap, Forall_forall. intros [e m] He. simpl.
    apply elem_of_btree_iter in He. rewrite (ph_epochs _ _ _ _ _ Hp) in He.
    apply metrics_if_Some in He as [_ ->]. set (here := filter _ bs).
    assert (Hh : counts_ok here) by by apply counts_ok_filter.
    destruct (counts_value (Nat.max n 1) here Hh) as (<- & <- & _). by apply error_rate_of.
  - unfold r, finalize. simpl. rewrite worker_shares_perm. apply Forall_fmap, Forall_forall.
    intros [k m] Hk. simpl. apply elem_of_map_to_list in Hk. rewrite (ph_workers _ _ _ _ _ Hp) in Hk.
    apply metrics_if_Some in Hk as [_ ->]. unfold named.
    set (bs' := filter _ (filter _ bs)). assert (Hc' : counts_ok bs') by (by apply counts_ok_filter, counts_ok_filter).
    split; [by apply error_rate_of|]. rewrite Hcum.
    destruct (counts_value (Nat.max n 1) bs Hc) as (Et & _ & Hle), (counts_value (Nat.max n 1) bs' Hc') as (Et' & _ & Hle').
    apply rate_of_percentage; [|destruct Hc; unfold in_u64; lia|done]. rewrite Et, Et'. split; [lia|].
    assert (Hnn : forall l, counts_ok l -> Forall (fun b => 0 <= mb_total_requests b) l).
    { intros l [Hl _]. eapply Forall_impl; [exact Hl|]. simpl. lia. }
    etransitivity; apply Zsum_filter_le; [apply Hnn; by apply counts_ok_filter|by apply Hnn].
Qed.
End report.

Definition failing_batch (worker : string) (total failed : Z) : MetricBatch :=
  mkMetricBatch worker "run" "0" 1000 1000 total (total - failed) failed 0 0 1 None [] (f64_of_Z total).

Lemma report_rates_are_percentages_witness :
  let r := finalize (pipeline_after "run" 10 5 [failing_batch "a" 3 3; failing_batch "b" 4 0]) in
  is_percentage (gr_error_rate_percent r) /\ gr_failure_count r = 3 /\ gr_total_requests r = 7.
Proof.
  intros r. split; [|by vm_compute].
  apply (report_rates_are_percentages "run" 10 5 [failing_batch "a" 3 3; failing_batch "b" 4 0]).
  split; [|by vm_compute]. repeat constructor; simpl; lia.
Defined.

(** ** Percentiles *)

(** The finite bounds of the buckets, in milliseconds. *)
Definition bound_ms (i : nat) : Z := default 0 ([0; 1; 5; 10; 25; 50; 100; 250; 500; 1000] !! i).

Lemma bound_ms_range i : 0 <= bound_ms i <= 1000.
Proof. unfold bound_ms. do 10 (destruct i as [|i]; [simpl; lia|]). simpl. lia. Qed.

Lemma bound_ms_step i : (i < 9)%nat -> bound_ms i <= bound_ms (S i).
Proof. intros Hi. do 9 (destruct i as [|i]; [unfold bound_ms; simpl; lia|]). lia. Qed.

Lemma bucket_lo i : (i < 10)%nat -> default f64_zero (BUCKET_BOUNDS_MS !! i) = f64_of_Z (bound_ms i).
Proof. intros Hi. do 10 (destruct i as [|i]; [by vm_compute|]). lia. Qed.

Lemma bucket_hi i fb : (i < 9)%nat -> default fb (BUCKET_BOUNDS_MS !! S i) = f64_of_Z (bound_ms (S i)).
Proof. intros Hi. do 9 (destruct i as [|i]; [by vm_compute|]). lia. Qed.

(** The interpolation within one bucket. *)
Definition interpolate (lo hi target : f64) (cumulative count : Z) : f64 :=
  let within := f64_div (f64_sub target (f64_of_Z cumulative)) (f64_of_Z count) in
  f64_add lo (f64_mul (f64_sub hi lo) (f64_clamp within f64_zero f64_one)).

Section interpolation.
Context (lo hi : f64) (L H c k : Z).
Context (Flo : lo ≈ L) (Fhi : hi ≈ H) (HL : 0 <= L <= H) (HH : H <= 2 ^ 130 * ONE).
Context (Hc : 0 <= c) (Hk : 0 < k) (Hck : c + k <= 2 ^ 53).

(** Its value for a target of [u] units. *)
Definition within_units (u : Z) : Z := Z.max 0 (Z.min (R (R (u - c * ONE) 1 * ONE) (k * ONE)) ONE).
Definition interpolated (u : Z) : Z := R (L + R (R (H - L) 1 * within_units u) ONE) 1.

Lemma within_range u : 0 <= within_units u <= ONE.
Proof. unfold within_units. pose proof ONE_pos. lia. Qed.

Lemma width_range : 0 <= R (H - L) 1 <= 2 ^ 131 * ONE.
Proof.
  pose proof ONE_pos. split; [apply R_nonneg; lia|]. apply R_le; [lia| |lia].
  replace (2 ^ 131 * ONE) with (1 * 2 ^ 1205); [by apply rep_pow|].
  Transparent ONE. unfold ONE. Opaque ONE. by rewrite <- Z.pow_add_r.
Qed.

Lemma width_rep : representable 53 (R (H - L) 1).
Proof.
  apply (value_rep (f64_sub hi lo)). apply sub_value; [done|done|].
  pose proof (BIG_ge 131 ltac:(lia)). pose proof ONE_pos. lia.
Qed.

Lemma scaled_range u : 0 <= R (R (H - L) 1 * within_units u) ONE <= R (H - L) 1.
Proof.
  pose proof ONE_pos. pose proof width_range. pose proof (within_range u). split; [apply R_nonneg; nia|].
  apply R_le; [done|apply width_rep|nia].
Qed.

Lemma interpolate_value target u :
  target ≈ u -> 0 <= u <= 2 ^ 53 * ONE -> interpolate lo hi target c k ≈ interpolated u.
Proof.
  intros Ft Hu. pose proof ONE_pos as H1. pose proof width_range as Hw. pose proof (scaled_range u) as Hs.
  pose proof (within_range u) as Hwi. unfold interpolate, interpolated.
  pose proof (BIG_ge 200 ltac:(lia)) as Hbig.
  assert (Fs : f64_sub target (f64_of_Z c) ≈ R (u - c * ONE) 1).
  { apply sub_value; [done|by apply of_int; lia|]. nia. }
  assert (Hsub : Z.abs (R (u - c * ONE) 1) <= 2 ^ 53 * ONE).
  { assert (Hr : representable 53 (2 ^ 53 * ONE)) by (by apply rep_int). apply Z.abs_le. split.
    - apply R_ge; [lia|by apply representable_opp|nia].
    - apply R_le; [lia|done|nia]. }
  assert (Fd : f64_div (f64_sub target (f64_of_Z c)) (f64_of_Z k) ≈ R (R (u - c * ONE) 1 * ONE) (k * ONE)).
  { apply div_value; [done|by apply of_int; lia|nia|]. rewrite Z.abs_mul, (Z.abs_eq ONE), Z.mul_assoc by lia.
    apply Z.mul_le_mono_nonneg_r; [lia|]. apply Z.le_trans with BIG; [lia|nia]. }
  assert (F0 : f64_zero ≈ 0) by done. assert (F1 : f64_one ≈ ONE) by (rewrite <- (Z.mul_1_l ONE); by apply of_int).
  apply add_value; [done| |nia]. apply mul_value; [|by apply (clamp_units _ _ _ _ _ _ Fd F0 F1); lia|].
  - apply sub_value; [done|done|nia].
  - rewrite Z.abs_eq by nia. fold (within_units u). nia.
Qed.

Lemma interpolated_mono u u' : u <= u' -> interpolated u <= interpolated u'.
Proof.
  intros Hu. pose proof ONE_pos. pose proof width_range. unfold interpolated.
  apply R_mono_num; [lia|]. apply Z.add_le_mono_l, R_mono_num; [done|].
  apply Z.mul_le_mono_nonneg_l; [lia|]. unfold within_units.
  assert (R (R (u - c * ONE) 1 * ONE) (k * ONE) <= R (R (u' - c * ONE) 1 * ONE) (k * ONE)); [|lia].
  apply R_mono_num; [nia|]. apply Z.mul_le_mono_nonneg_r; [lia|]. apply R_mono_num; lia.
Qed.

Lemma interpolated_lower u : L <= interpolated u.
Proof.
  pose proof (scaled_range u). apply R_ge; [lia|by apply (value_rep lo)|lia].
Qed.

(** With whole bounds the result does not leave the bucket. *)
Lemma interpolated_upper u : representable 53 (H - L) -> interpolated u <= H.
Proof.
  intros Hr. pose proof (scaled_range u) as Hs. rewrite (R_exact_1 (H - L) Hr) in Hs.
  apply R_le; [lia|by apply (value_rep hi)|]. rewrite (R_exact_1 (H - L) Hr). lia.
Qed.
End interpolation.

Section percentile.
Context (fb : f64) (F : Z) (Ffb : fb ≈ F) (HF : 0 <= F <= 2 ^ 128 * ONE).

(** The bounds of bucket [i], in units; the last one ends at the observed maximum. *)
Definition lo_units (i : nat) : Z := bound_ms i * ONE.
Definition hi_units (i : nat) : Z := if (i <? 9)%nat then bound_ms (S i) * ONE else Z.max F (lo_units i).

Lemma bucket_bounds i :
  (i < 10)%nat ->
  default f64_zero (BUCKET_BOUNDS_MS !! i) ≈ lo_units i /\
  (let hi := default fb (BUCKET_BOUNDS_MS !! S i) in
   if is_finite hi then hi else f64_max fb (default f64_zero (BUCKET_BOUNDS_MS !! i))) ≈ hi_units i /\
  0 <= lo_units i <= hi_units i /\ hi_units i <= 2 ^ 130 * ONE.
Proof.
  intros Hi. pose proof ONE_pos as H1. unfold hi_units, lo_units. rewrite bucket_lo by done.
  pose proof (bound_ms_range i). pose proof (bound_ms_range (S i)).
  assert (Flo : f64_of_Z (bound_ms i) ≈ bound_ms i * ONE) by (apply of_int; lia).
  split; [done|]. destruct (Nat.ltb_spec i 9) as [H9|H9].
  - pose proof (bound_ms_step i H9). rewrite bucket_hi by done. cbv zeta.
    assert (Fhi : f64_of_Z (bound_ms (S i)) ≈ bound_ms (S i) * ONE) by (apply of_int; lia).
    destruct (value_finite _ _ Fhi) as [-> _]. split_and!; [done|nia..].
  - assert (i = 9%nat) as -> by lia. change (bound_ms 9) with 1000 in *. split_and!; [|lia..].
    change (is_finite (default fb (BUCKET_BOUNDS_MS !! 10%nat))) with false. by apply max_value.
Qed.

(** The search over exact counts. *)
Fixpoint loop_units (u : Z) (i : nat) (c : Z) (buckets : list Z) : Z :=
  match buckets with
  | [] => F
  | k :: buckets =>
      if k =? 0 then loop_units u (S i) c buckets
      else if u <=? (c + k) * ONE then interpolated (lo_units i) (hi_units i) c k u
      else loop_units u (S i) (c + k) buckets
  end.

(** What the search relies on: counts that are exact as doubles, a target that
    is reached. *)
Definition searchable (u : Z) (i : nat) (c : Z) (buckets : list Z) : Prop :=
  Forall (fun k => 0 <= k) buckets /\ (i + length buckets <= 10)%nat /\ 0 <= c /\
  c + Zsum buckets <= 2 ^ 53 /\ c * ONE < u <= (c + Zsum buckets) * ONE.

Lemma searchable_cons u i c k buckets :
  searchable u i c (k :: buckets) ->
  0 <= k /\ (i < 10)%nat /\ 0 <= c /\ 0 <= Zsum buckets /\ c + k <= 2 ^ 53 /\ 0 <= u <= 2 ^ 53 * ONE /\
  ((k = 0 \/ (c + k) * ONE < u) -> searchable u (S i) (c + k) buckets).
Proof.
  intros (Hk & Hl & Hc & Hs & Hu). apply Forall_cons in Hk as [Hk0 Hk]. simpl in *. pose proof ONE_pos.
  pose proof (Zsum_nonneg buckets Hk). split_and!; try lia; try nia.
  intros Hor. unfold searchable. split_and!; [done|lia|lia|lia| |]; [destruct Hor as [-> |]; lia|].
  replace (c + k + Zsum buckets) with (c + (k + Zsum buckets)) by lia. apply Hu.
Qed.

Lemma searchable_nil u i c : ~ searchable u i c [].
Proof. intros (_ & _ & _ & _ & Hu). simpl in Hu. lia. Qed.

Lemma percentile_loop_cons target i c k buckets :
  percentile_loop fb target i c (k :: buckets) =
  (if k =? 0 then percentile_loop fb target (S i) c buckets
   else if f64_leb target (f64_add (f64_of_Z c) (f64_of_Z k)) then
     interpolate (default f64_zero (BUCKET_BOUNDS_MS !! i))
       (let hi := default fb (BUCKET_BOUNDS_MS !! S i) in
        if is_finite hi then hi else f64_max fb (default f64_zero (BUCKET_BOUNDS_MS !! i))) target c k
   else percentile_loop fb target (S i) (u64_add c k) buckets).
Proof. reflexivity. Qed.

Lemma loop_value target u i c buckets :
  target ≈ u -> searchable u i c buckets ->
  percentile_loop fb target i c buckets ≈ loop_units u i c buckets.
Proof.
  intros Ft. revert i c. induction buckets as [|k buckets IH]; intros i c Hs; [by apply searchable_nil in Hs|].
  destruct (searchable_cons _ _ _ _ _ Hs) as (Hk & Hi & Hc & Hrest & Hck & Hu & Hnext).
  pose proof ONE_pos as H1. rewrite percentile_loop_cons. cbn [loop_units].
  destruct (Z.eqb_spec k 0) as [->|Hk0]; [rewrite Z.add_0_r in Hnext; by apply IH, Hnext; left|].
  destruct (bucket_bounds i Hi) as (Flo & Fhi & Hlo & Hhi).
  assert (Fsum : f64_add (f64_of_Z c) (f64_of_Z k) ≈ (c + k) * ONE).
  { rewrite <- (R_exact_1 ((c + k) * ONE)) by (apply rep_int; lia). rewrite Z.mul_add_distr_r.
    pose proof (BIG_ge 53 ltac:(lia)). apply add_value; [apply of_int; lia..|nia]. }
  pose proof (leb_value _ _ _ _ Ft Fsum) as Hle.
  destruct (f64_leb target _), (Z.leb_spec u ((c + k) * ONE)) as [Hu'|Hu'].
  - by apply interpolate_value; (done || lia).
  - assert (u <= (c + k) * ONE) by (by apply Hle). lia.
  - by apply Hle in Hu'.
  - assert (Eadd : u64_add c k = c + k) by (unfold u64_add; apply wrap64_small; unfold in_u64, U64_MAX; lia).
    rewrite Eadd. apply IH, Hnext. by right.
Qed.

(** A result of the search from bucket [i] on is not below that bucket. *)
Lemma loop_lower u i c buckets : searchable u i c buckets -> lo_units i <= loop_units u i c buckets.
Proof.
  revert i c. induction buckets as [|k buckets IH]; intros i c Hs; [by apply searchable_nil in Hs|].
  destruct (searchable_cons _ _ _ _ _ Hs) as (Hk & Hi & Hc & Hrest & Hck & Hu & Hnext). pose proof ONE_pos.
  assert (Hstep : searchable u (S i) (c + k) buckets -> lo_units i <= loop_units u (S i) (c + k) buckets).
  { intros Hs'. specialize (IH _ _ Hs'). destruct (decide (i = 9%nat)) as [->|].
    - destruct Hs' as (_ & Hl & _ & _ & Hu'). destruct buckets; simpl in *; lia.
    - pose proof (bound_ms_step i ltac:(lia)). unfold lo_units in *. nia. }
  simpl. destruct (Z.eqb_spec k 0) as [->|Hk0]; [rewrite Z.add_0_r in *; auto|].
  destruct (bucket_bounds i Hi) as (Flo & Fhi & Hlo & Hhi).
  destruct (Z.leb_spec u ((c + k) * ONE)); [by eapply interpolated_lower; [exact Flo|exact Fhi|..]|auto].
Qed.

(** A larger target is found no earlier. *)
Lemma loop_mono u u' i c buckets :
  u <= u' -> searchable u i c buckets -> searchable u' i c buckets ->
  loop_units u i c buckets <= loop_units u' i c buckets.
Proof.
  intros Huu. revert i c. induction buckets as [|k buckets IH]; intros i c Hs Hs'; [by apply searchable_nil in Hs|].
  destruct (searchable_cons _ _ _ _ _ Hs) as (Hk & Hi & Hc & Hrest & Hck & Hu & Hnext).
  destruct (searchable_cons _ _ _ _ _ Hs') as (_ & _ & _ & _ & _ & _ & Hnext'). pose proof ONE_pos.
  simpl. destruct (Z.eqb_spec k 0) as [->|Hk0]; [rewrite Z.add_0_r in *; apply IH; auto|].
  destruct (bucket_bounds i Hi) as (Flo & Fhi & Hlo & Hhi).
  destruct (Z.leb_spec u ((c + k) * ONE)) as [H1|H1], (Z.leb_spec u' ((c + k) * ONE)) as [H2|H2].
  - by apply interpolated_mono; (done || lia).
  - specialize (Hnext' (or_intror H2)). pose proof (loop_lower _ _ _ _ Hnext') as Hlow.
    destruct (decide (i = 9%nat)) as [->|].
    { destruct Hnext' as (_ & Hl & _ & _ & Hu'). destruct buckets; simpl in *; lia. }
    etransitivity; [|exact Hlow]. unfold lo_units, hi_units in *. destruct (Nat.ltb_spec i 9); [|lia].
    eapply interpolated_upper; [exact Flo|exact Fhi|lia|lia|].
    rewrite <- Z.mul_sub_distr_r. apply rep_int. pose proof (bound_ms_range i). pose proof (bound_ms_range (S i)). lia.
  - lia.
  - apply IH; auto.
Qed.
End percentile.

(** *** The percentiles of an accumulator *)

(** Counters that are exact as doubles and an observed maximum that is one. *)
Record percentile_ok (m : Metrics) : Prop := {
  po_counts : Forall (fun k => 0 <= k) (m_buckets m);
  po_buckets : (length (m_buckets m) <= 10)%nat;
  po_total : Zsum (m_buckets m) <= 2 ^ 53;
  po_max : Zsum (m_buckets m) <> 0 ->
    exists x F, m_max_ms m = Some x /\ x ≈ F /\ 0 <= F <= 2 ^ 128 * ONE;
}.

Lemma percentile_value (m : Metrics) x F p P :
  percentile_ok m -> Zsum (m_buckets m) <> 0 -> x ≈ F -> 0 <= F <= 2 ^ 128 * ONE ->
  p ≈ P -> 1 <= P <= ONE ->
  let u := R (P * (Zsum (m_buckets m) * ONE)) ONE in
  searchable u 0 0 (m_buckets m) /\
  approx_percentile (m_buckets m) p x ≈ loop_units F u 0 0 (m_buckets m).
Proof.
  intros [Hc Hl Ht _] Hne Fx HF Fp HP u. pose proof ONE_pos as H1. pose proof (Zsum_nonneg _ Hc) as H0.
  set (T := Zsum (m_buckets m)) in *.
  assert (Hs : searchable u 0 0 (m_buckets m)).
  { split_and!; [done|done|done|done| |]; fold T; unfold u.
    - enough (1 <= R (P * (T * ONE)) ONE) by lia. assert (1 <= P * T) by nia. apply R_ge; [done| |nia].
      rewrite <- (Z.mul_1_l 1). by apply (rep_pow 1 0).
    - apply R_le; [done|apply rep_int; lia|nia]. }
  split; [done|]. unfold approx_percentile. rewrite u64_sum_Zsum, wrap64_small by (unfold in_u64, U64_MAX; lia).
  fold T. destruct (Z.eqb_spec T 0) as [|_]; [done|]. apply loop_value; [done|done| |done].
  pose proof (BIG_ge 60 ltac:(lia)). apply mul_value; [done|apply of_int; lia|].
  rewrite Z.abs_eq, Z.mul_comm by nia. apply Z.mul_le_mono_nonneg; nia.
Qed.

(** [p50 <= p90 <= p95 <= p99], none negative. *)
Definition ordered_percentiles (p50 p90 p95 p99 : f64) : Prop :=
  f64_leb f64_zero p50 = true /\ f64_leb p50 p90 = true /\ f64_leb p90 p95 = true /\ f64_leb p95 p99 = true.

Lemma leb_trans x y z : f64_leb x y = true -> f64_leb y z = true -> f64_leb x z = true.
Proof.
  assert (Hnan : forall a b, f64_leb a b = true -> is_nan a = false /\ is_nan b = false).
  { intros [] []; by try (intros; split). }
  intros H1 H2. destruct (Hnan _ _ H1), (Hnan _ _ H2). by apply (f64_leb_trans x y z).
Qed.

(** The literal [k / 100] as a double. *)
Definition hundredths (k : Z) : Z := units 53 1024 (f64_lit k 100).

Lemma hundredths_value k : k ∈ [50; 90; 95; 99] -> f64_lit k 100 ≈ hundredths k /\ 1 <= hundredths k <= ONE.
Proof.
  intros Hk. assert (H1 : f64_one ≈ ONE) by (rewrite <- (Z.mul_1_l ONE); by apply of_int).
  assert (H0 : f64_zero ≈ 0) by done.
  assert (Hv : f64_lit k 100 ≈ hundredths k) by (set_unfold in Hk; destruct_or? Hk; subst; by split).
  split; [done|]. assert (0 < hundredths k <= ONE); [|lia]. split.
  - apply (ltb_value _ _ _ _ H0 Hv). set_unfold in Hk. destruct_or? Hk; subst; by vm_compute.
  - apply (leb_value _ _ _ _ Hv H1). set_unfold in Hk. destruct_or? Hk; subst; by vm_compute.
Qed.

Lemma percentile_mono m x F k k' :
  percentile_ok m -> Zsum (m_buckets m) <> 0 -> x ≈ F -> 0 <= F <= 2 ^ 128 * ONE ->
  k ∈ [50; 90; 95; 99] -> k' ∈ [50; 90; 95; 99] -> f64_leb (f64_lit k 100) (f64_lit k' 100) = true ->
  f64_leb f64_zero (approx_percentile (m_buckets m) (f64_lit k 100) x) = true /\
  f64_leb (approx_percentile (m_buckets m) (f64_lit k 100) x)
          (approx_percentile (m_buckets m) (f64_lit k' 100) x) = true.
Proof.
  intros Hm Hne Fx HF Hk Hk' Hle. pose proof ONE_pos.
  destruct (hundredths_value k Hk) as [Fk Bk], (hundredths_value k' Hk') as [Fk' Bk'].
  destruct (percentile_value m x F _ _ Hm Hne Fx HF Fk Bk) as [S1 V1].
  destruct (percentile_value m x F _ _ Hm Hne Fx HF Fk' Bk') as [S2 V2].
  assert (F0 : f64_zero ≈ 0) by done. rewrite (leb_value _ _ _ _ Fk Fk') in Hle.
  pose proof (Zsum_nonneg _ (po_counts m Hm)). split.
  - apply (leb_value _ _ _ _ F0 V1). change 0 with (lo_units 0). by apply (loop_lower _ _ Fx HF).
  - apply (leb_value _ _ _ _ V1 V2). apply (loop_mono _ _ Fx HF); [|done..]. apply R_mono_num; [done|nia].
Qed.

Lemma latency_ordered m :
  percentile_ok m ->
  ordered_percentiles (gl_p50_ms (latency m)) (gl_p90_ms (latency m)) (gl_p95_ms (latency m)) (gl_p99_ms (latency m)).
Proof.
  intros Hm. unfold latency, ordered_percentiles. simpl. destruct (decide (Zsum (m_buckets m) = 0)) as [Hz|Hne].
  - unfold approx_percentile. by rewrite u64_sum_Zsum, Hz.
  - destruct (po_max m Hm Hne) as (x & F & -> & Fx & HF). simpl.
    split_and!; [apply (percentile_mono m x F 50 90)|apply (percentile_mono m x F 50 90)|
      apply (percentile_mono m x F 90 95)|apply (percentile_mono m x F 95 99)];
      try done; try (by vm_compute); set_solver.
Qed.

(** *** Of the master's report *)

(** Latency summaries as workers send them: natural counts, [2^53] samples at
    most in all, a finite maximum that is not negative. *)
Definition latency_ok (s : LatencySummary) : Prop :=
  Forall (fun k => 0 <= k) (ls_bucket_counts s) /\ exists u, is_f32 (ls_max_ms s) u /\ 0 <= u.

Definition latencies_ok (bs : list MetricBatch) : Prop :=
  Forall latency_ok (latencies bs) /\
  Zsum ((fun s => Zsum (ls_bucket_counts s)) <$> latencies bs) <= 2 ^ 53.

Lemma latencies_filter (P : MetricBatch -> Prop) `{!forall x, Decision (P x)} bs :
  Forall latency_ok (latencies bs) ->
  Forall latency_ok (latencies (filter P bs)) /\
  0 <= Zsum ((fun s => Zsum (ls_bucket_counts s)) <$> latencies (filter P bs))
    <= Zsum ((fun s => Zsum (ls_bucket_counts s)) <$> latencies bs).
Proof.
  unfold latencies. induction bs as [|b bs IH]; csimpl; [done|]. rewrite filter_cons.
  destruct (mb_latency b) as [s|] eqn:Hs; [|case_decide; csimpl; rewrite ?Hs; apply IH].
  intros [Hls Hl]%Forall_cons. destruct (IH Hl) as [IH1 IH2]. pose proof (Zsum_nonneg _ (proj1 Hls)).
  case_decide; csimpl; rewrite ?Hs; csimpl; (split; [by try constructor|lia]).
Qed.

Lemma latencies_ok_filter (P : MetricBatch -> Prop) `{!forall x, Decision (P x)} bs :
  latencies_ok bs -> latencies_ok (filter P bs).
Proof. intros [Hl Hs]. destruct (latencies_filter P bs Hl). split; [done|lia]. Qed.

Lemma Zsum_take n l : Forall (fun k => 0 <= k) l -> 0 <= Zsum (take n l) <= Zsum l.
Proof. intros Hl. revert n. induction Hl; intros [|n]; simpl; [lia..| |]; [|specialize (IHHl n); lia].
  pose proof (Zsum_nonneg l Hl). lia. Qed.

Lemma Zsum_add_into d l :
  Forall (fun k => 0 <= k) d -> Forall (fun k => 0 <= k) l -> Zsum (add_into d l) <= Zsum d + Zsum l.
Proof.
  intros Hd. revert l. induction Hd as [|x d Hx Hd IH]; intros l Hl; simpl; [by apply Zsum_nonneg|].
  destruct l as [|y l]; simpl; [lia|]. apply Forall_cons in Hl as [Hy Hl]. specialize (IH l Hl).
  assert (u64_add x y <= x + y) by (unfold u64_add, wrap64; apply Z.mod_le; lia). lia.
Qed.

Lemma Zsum_bucket_sum d ls :
  Forall in_u64 d -> Forall (Forall (fun k => 0 <= k)) ls ->
  Zsum (foldl add_into d ls) <= Zsum d + Zsum (Zsum <$> ls).
Proof.
  intros Hd Hls. revert d Hd. induction Hls as [|l ls Hl Hls IH]; intros d Hd; csimpl; [lia|].
  specialize (IH (add_into d l) (in_u64_add_into d l Hd)).
  assert (Ha : Zsum (add_into d l) <= Zsum d + Zsum l); [|lia].
  apply Zsum_add_into; [|done]. eapply Forall_impl; [exact Hd|]. by intros k [? _].
Qed.

(** The largest of the maxima. *)
Lemma max_of_batches (l : list f64) :
  l <> [] -> Forall (fun x => exists u, x ≈ u /\ 0 <= u <= 2 ^ 128 * ONE) l ->
  exists x u, list_extremum f64_max l = Some x /\ x ≈ u /\ 0 <= u <= 2 ^ 128 * ONE.
Proof.
  intros Hne Hl. unfold list_extremum. induction l as [|x l IH] using rev_ind; [done|].
  apply Forall_app in Hl as [Hl [(u & Fu & Hu) _]%Forall_cons]. rewrite foldl_app. simpl.
  destruct l as [|y l']; [by exists x, u|]. destruct (IH ltac:(done) Hl) as (z & v & -> & Fv & Hv).
  exists (f64_max z x), (Z.max v u). split_and!; [done|by apply max_value|lia..].
Qed.

Lemma metrics_percentile_ok n bs : (n <= 10)%nat -> latencies_ok bs -> percentile_ok (metrics_of n bs).
Proof.
  intros Hn [Hl Hs]. rewrite metrics_of_spec. unfold metrics_spec.
  pose proof (in_u64_bucket_sum _ (batch_buckets n bs) (in_u64_replicate_0 n)) as Hin.
  assert (Hle : Zsum (foldl add_into (replicate n 0) (batch_buckets n bs))
    <= Zsum ((fun s => Zsum (ls_bucket_counts s)) <$> latencies bs)).
  { etransitivity; [apply Zsum_bucket_sum; [apply in_u64_replicate_0|]|].
    - unfold batch_buckets. apply Forall_fmap. eapply Forall_impl; [exact Hl|]. intros s [Hk _]. by apply Forall_take.
    - rewrite Zsum_replicate_0. unfold batch_buckets. rewrite <- list_fmap_compose. clear -Hl.
      induction Hl as [|s ss [Hk _] Hss IH]; csimpl; [lia|]. pose proof (Zsum_take n _ Hk). lia. }
  split; simpl; [| |lia|].
  - eapply Forall_impl; [exact Hin|]. by intros k [? _].
  - by rewrite length_bucket_sum, length_replicate.
  - intros Hne. destruct (max_of_batches (batch_maxs bs)) as (x & u & E & Fu & Hu); [| |by exists x, u].
    + intros Hnil. apply Hne. unfold batch_maxs, batch_buckets in *. apply fmap_nil_inv in Hnil. rewrite Hnil.
      apply Zsum_replicate_0.
    + unfold batch_maxs. apply Forall_fmap. eapply Forall_impl; [exact Hl|]. intros s (_ & u & Fu & Hu).
      destruct (of_f32_value _ _ Fu) as [Hv Hb]. exists (u * 2 ^ 925). split; [done|lia].
Qed.

Section report.
Context `{MapOrder}.

(** C29. The percentiles of a report are ordered: the master approximates p50, p90,
    p95 and p99 in floating point by interpolating in merged histograms; whatever
    the workers sent (natural bucket counts, up to [2^53] samples, finite maxima,
    at most the ten buckets of the protocol), the result is never NaN, never
    negative, and [p50 <= p90 <= p95 <= p99] in the report, at every point of the
    timeline and, for p95, for every worker. *)
Theorem report_percentiles_ordered run n w bs :
  (n <= 10)%nat -> latencies_ok bs ->
  let r := finalize (pipeline_after run n w bs) in
  let l := gr_latency r in
  ordered_percentiles (gl_p50_ms l) (gl_p90_ms l) (gl_p95_ms l) (gl_p99_ms l) /\
  Forall (fun t => exists p90, ordered_percentiles (tp_p50_ms t) p90 (tp_p95_ms t) (tp_p99_ms t)) (gr_timeline r) /\
  Forall (fun s => f64_leb f64_zero (wsh_p95_ms s) = true) (gr_worker_shares r).
Proof.
  intros Hn Hb r l. pose proof (ingest_all_holds run n w bs) as Hp. fold (pipeline_after run n w bs) in Hp.
  assert (Hn' : (Nat.max n 1 <= 10)%nat) by lia. split_and!.
  - unfold l, r, finalize. cbn [gr_latency]. rewrite (ph_cumulative _ _ _ _ _ Hp).
    by apply latency_ordered, metrics_percentile_ok.
  - unfold r, finalize, timeline. cbn [gr_timeline]. apply Forall_fmap, Forall_forall. intros [e m] He.
    apply elem_of_btree_iter in He. rewrite (ph_epochs _ _ _ _ _ Hp) in He.
    apply metrics_if_Some in He as [_ ->]. eexists. by apply latency_ordered, metrics_percentile_ok, latencies_ok_filter.
  - unfold r, finalize. cbn [gr_worker_shares]. rewrite worker_shares_perm. apply Forall_fmap, Forall_forall.
    intros [k m] Hk. apply elem_of_map_to_list in Hk. rewrite (ph_workers _ _ _ _ _ Hp) in Hk.
    apply metrics_if_Some in Hk as [_ ->].
    destruct (latency_ordered (metrics_of (Nat.max n 1) (filter (fun b => mb_worker_id b = k) (named bs))))
      as (H0 & H1 & H2 & _).
    { by apply metrics_percentile_ok, latencies_ok_filter, latencies_ok_filter. }
    eapply leb_trans; [|exact H2]. by eapply leb_trans.
Qed.
End report.

(** [count] requests answered within [max_ms], all in bucket [bucket]. *)
Definition timed_batch (worker : string) (bucket : nat) (count max_ms : Z) : MetricBatch :=
  let ms := f32_of_f64 (f64_of_Z max_ms) in
  mkMetricBatch worker "run" "0" 1000 1000 count count 0 0 0 1
    (Some (mkLatencySummary ms ms ms ms ms ms ms (f64_of_Z 0) count (<[bucket := count]> (replicate 10 0))))
    [] (f64_of_Z count).

Lemma report_percentiles_ordered_witness :
  let l := gr_latency (finalize (pipeline_after "run" 10 5
    [timed_batch "a" 1 90 3; timed_batch "b" 9 10 2500])) in
  ordered_percentiles (gl_p50_ms l) (gl_p90_ms l) (gl_p95_ms l) (gl_p99_ms l).
Proof.
  assert (Hb : latencies_ok [timed_batch "a" 1 90 3; timed_batch "b" 9 10 2500]).
  { split; [|by vm_compute].
    apply Forall_cons; split; [|apply Forall_singleton]; (split; [by repeat constructor|]);
      eexists; (split; [split; [by vm_compute|reflexivity]|]); by vm_compute. }
  exact (proj1 (report_percentiles_ordered "run" 10 5 _ ltac:(lia) Hb)).
Defined.

(** Only the open-ended bucket ends at the observed maximum: of a hundred
    requests that all took 2 ms the report gives a p99 above its own maximum. *)
Example percentile_above_maximum :
  let l := gr_latency (finalize (pipeline_after "run" 10 5 [timed_batch "a" 1 100 2])) in
  gl_max_ms l = f64_of_Z 2 /\ gl_p99_ms l = f64_lit 496 100.
Proof. by vm_compute. Qed.

(** ** Jitter *)

(** Scaling a delay by a factor between 0 and 1 never panics and never
    lengthens it, and a larger factor gives no shorter delay. *)
Lemma jittered_delay d random r :
  0 <= d <= 2 ^ 50 -> random ≈ r -> 0 <= r <= ONE ->
  exists u, from_secs_f64 (f64_mul (as_secs_f64 d) random) = Some (round_half_even (R (u * r) ONE * NANOS_PER_SEC) ONE) /\
    0 <= u /\ round_half_even (u * NANOS_PER_SEC) ONE = d /\ R (u * r) ONE <= u.
Proof.
  intros Hd Fr Hr. pose proof ONE_pos as H1. destruct (as_secs_value d Hd) as (u & Fu & Hu & Ed).
  assert (Hle : R (u * r) ONE <= u) by (apply R_le; [done|by apply (value_rep _ _ Fu)|nia]).
  exists u. split_and!; [|lia|done|done]. apply from_secs_value; [|apply R_nonneg; nia|lia].
  pose proof (BIG_ge 50 ltac:(lia)). apply mul_value; [done|done|]. rewrite Z.abs_eq by nia.
  apply Z.mul_le_mono_nonneg; lia.
Qed.

Lemma jitter_bounds d random r :
  0 <= d <= 2 ^ 50 -> random ≈ r -> 0 <= r <= ONE ->
  exists d', from_secs_f64 (f64_mul (as_secs_f64 d) random) = Some d' /\ 0 <= d' <= d.
Proof.
  intros Hd Fr Hr. destruct (jittered_delay d random r Hd Fr Hr) as (u & E & Hu & Ed & Hle). pose proof ONE_pos.
  assert (0 < NANOS_PER_SEC) by done. eexists. split; [exact E|]. split.
  - rewrite <- (round_half_even_exact 0 ONE) by done. apply round_half_even_mono_num; [done|].
    apply Z.mul_nonneg_nonneg; [apply R_nonneg; nia|lia].
  - rewrite <- Ed. apply round_half_even_mono_num; [done|nia].
Qed.

Definition at_attempt (n : Z) (b : Backoff) : Backoff :=
  mkBackoff (bo_base b) (bo_max b) (bo_factor b) (bo_jitter b) n.

Lemma next_delay_at random n b :
  next_delay random (at_attempt n b) =
  (at_attempt (u32_saturating_add n 1) b,
   if bo_jitter b then d ← delay_for b n; from_secs_f64 (f64_mul (as_secs_f64 d) random) else delay_for b n).
Proof. reflexivity. Qed.

(** C33. The worker's reconnect schedule holds to the nanosecond: for every [u32]
    attempt [n] the deterministic delay is [500 ms * 2^n] capped at 30 s and does
    not decrease with [n]; whatever number of [[0, 1)] the random source returns,
    the jittered delay exists (no conversion panics) and lies between zero and the
    deterministic one; the attempt counter advances by one and saturates. *)
Theorem reconnect_delays n random r :
  0 <= n <= U32_MAX -> random ≈ r -> 0 <= r < ONE ->
  let cap := Z.min (from_millis 500 * 2 ^ n) (from_secs 30) in
  delay_for reconnect_backoff n = Some cap /\
  (forall m, 0 <= m <= n -> exists d, delay_for reconnect_backoff m = Some d /\ d <= cap) /\
  (exists d, next_delay random (at_attempt n reconnect_backoff)
             = (at_attempt (Z.min (n + 1) U32_MAX) reconnect_backoff, Some d) /\ 0 <= d <= cap).
Proof.
  intros Hn Fr Hr cap. pose proof (reconnect_delay n ltac:(lia)) as Hcap. fold cap in Hcap. split_and!; [done| |].
  - intros m Hm. eexists. split; [apply reconnect_delay; lia|]. pose proof (Z.pow_le_mono_r 2 m n).
    unfold cap, from_millis, NANOS_PER_MILLI. lia.
  - destruct (jitter_bounds cap random r) as (d & Ed & Hd); [|done|lia|].
    { unfold cap, from_millis, from_secs, NANOS_PER_MILLI, NANOS_PER_SEC.
      pose proof (Z.pow_nonneg 2 n). lia. }
    exists d. split; [|done]. rewrite next_delay_at, Hcap. change (bo_jitter reconnect_backoff) with true.
    unfold u32_saturating_add. rewrite Z.min_comm. cbn [mbind option_bind]. by rewrite Ed.
Qed.

Lemma reconnect_delays_witness :
  exists d, next_delay (f64_lit 1 2) (at_attempt 5 reconnect_backoff)
            = (at_attempt 6 reconnect_backoff, Some d) /\ 0 <= d <= from_secs 16.
Proof.
  assert (Hv : f64_lit 1 2 ≈ units 53 1024 (f64_lit 1 2)) by (by split).
  assert (H0 : f64_zero ≈ 0) by done. assert (H1 : f64_one ≈ ONE) by (rewrite <- (Z.mul_1_l ONE); by apply of_int).
  apply (reconnect_delays 5 (f64_lit 1 2) (units 53 1024 (f64_lit 1 2))); [unfold U32_MAX; lia|done|split].
  - by apply (leb_value _ _ _ _ H0 Hv).
  - by apply (ltb_value _ _ _ _ Hv H1).
Defined.
