(* ===== verification/Master.v ===== *)
(** Master controller: configuration ([src/distributed/master/config.rs]), run
    orchestration ([run.rs]) and the gRPC handlers ([server.rs]).

    The mutexes of [MasterState] make each handler a few atomic steps on one
    shared state; [MasterEvent]s are those steps in the order in which they
    take the locks.  Command streams are queues in the store [ms_streams] (a
    stream is present while its receiver is alive), telemetry pipelines are the
    command queues of their tasks in [ms_pipelines].  [start_run] interleaves
    with events: they are given to it per waiting point.  Clock readings are
    arguments. *)

From S2P Require Import Prelude RustStr Float Proto Registry Barrier Report Pipeline.

#[local] Open Scope Z_scope.
#[local] Open Scope rust_scope.

(** ** Configuration *)

Definition DEFAULT_PORT : Z := 50051.
Definition DEFAULT_SWEEP_INTERVAL_MS : Z := 1000.
Definition DEFAULT_HISTOGRAM_BUCKET_COUNT : Z := 10.
Definition MISSED_HEARTBEATS_BEFORE_EVICTION : Z := 3.
Definition DEFAULT_BARRIER_TIMEOUT_MS : Z := 30000.
Definition DEFAULT_WINDOW_SECS : Z := 5.

Record MasterConfig := mkMasterConfig {
  mc_cluster_id : string;
  mc_bind_address : string;
  mc_port : Z;
  mc_heartbeat_interval_ms : Z;
  mc_metric_flush_interval_ms : Z;
  mc_worker_timeout_ms : Z;
  mc_sweep_interval_ms : Z;
  mc_expected_workers : nat;
  mc_barrier_timeout_ms : Z;
  mc_histogram_bucket_count : Z;
  mc_window_secs : Z;
  mc_no_live : bool;
  mc_tls : bool;
  mc_run_url : option string;
  mc_run_virtual_users : Z;
  mc_run_duration_secs : Z;
  mc_report_path : option string;
}.

Definition DEFAULT_MASTER_HEARTBEAT_MS : Z := 2000.
Definition DEFAULT_METRIC_FLUSH_INTERVAL_MS : Z := 1000.

(** The command line without arguments. *)
Definition MasterConfig_defaults : MasterConfig :=
  mkMasterConfig "strobengine" "0.0.0.0" DEFAULT_PORT DEFAULT_MASTER_HEARTBEAT_MS DEFAULT_METRIC_FLUSH_INTERVAL_MS 0
    DEFAULT_SWEEP_INTERVAL_MS 0 DEFAULT_BARRIER_TIMEOUT_MS DEFAULT_HISTOGRAM_BUCKET_COUNT DEFAULT_WINDOW_SECS false
    false None 0 0 None.

Section config.
(** [str::parse::<SocketAddr>] and the [Display] of the address it yields. *)
Variable parse_socket_addr : string -> result string string.

Definition listen_addr (c : MasterConfig) : result MasterError string :=
  map_err (fun e => ME_Config ("invalid bind address: " ++ e))
    (parse_socket_addr (mc_bind_address c ++ ":" ++ u64_to_string (mc_port c))).

Definition worker_timeout (c : MasterConfig) : duration :=
  if mc_worker_timeout_ms c >? 0 then from_millis (mc_worker_timeout_ms c)
  else from_millis (wrap64 (mc_heartbeat_interval_ms c * MISSED_HEARTBEATS_BEFORE_EVICTION)).

Definition sweep_interval (c : MasterConfig) : duration :=
  from_millis (Z.max (mc_sweep_interval_ms c) 50).

Definition barrier_timeout (c : MasterConfig) : duration :=
  from_millis (Z.max (mc_barrier_timeout_ms c) 100).

Definition has_run_spec (c : MasterConfig) : bool := bool_decide (is_Some (mc_run_url c)).

Definition cluster_configuration (c : MasterConfig) (master_endpoint : string)
  : ClusterConfiguration :=
  {| cc_cluster_id := mc_cluster_id c;
     cc_master_endpoint := master_endpoint;
     cc_heartbeat_interval_ms := mc_heartbeat_interval_ms c;
     cc_metric_flush_interval_ms := mc_metric_flush_interval_ms c;
     cc_max_batch_size := 0;
     cc_tls_required := mc_tls c;
     cc_histogram_bucket_count := mc_histogram_bucket_count c;
     cc_cluster_labels := ∅ |}.

Definition master_validate (c : MasterConfig) : result MasterError unit :=
  _ ← listen_addr c;
  if mc_port c =? 0 then Err (ME_Config "port must be non-zero")
  else if mc_heartbeat_interval_ms c =? 0
  then Err (ME_Config "heartbeat interval must be greater than zero")
  else if mc_histogram_bucket_count c =? 0
  then Err (ME_Config "histogram bucket count must be greater than zero")
  else if mc_window_secs c =? 0
  then Err (ME_Config "window seconds must be greater than zero")
  else if has_run_spec c then
    if mc_run_virtual_users c =? 0
    then Err (ME_Config "run virtual-users must be greater than zero")
    else if mc_run_duration_secs c =? 0
    then Err (ME_Config "run duration must be greater than zero")
    else Ok ()
  else Ok ().

(** ** Shared state *)

Definition COMPLETION_GRACE : duration := from_secs 5.

Record ActiveRun := mkActiveRun {
  ar_run_id : string;
  ar_start_command_id : string;
  ar_allocated : list string;
  ar_pipeline : Z;
  ar_acked : gset string;
  ar_telemetry_done : gset string;
}.

(** A pipeline task: the pipeline it started with and the commands sent to it. *)
Record PipelineTask := mkPipelineTask {
  pt_initial : TelemetryPipeline;
  pt_queue : list PipelineCommand;
}.

Record MasterState := mkMasterState {
  ms_config : MasterConfig;
  ms_registry : Registry;
  ms_run : option ActiveRun;
  ms_master_endpoint : string;
  ms_streams : gmap Z (list CommandRequest);
  ms_pipelines : gmap Z PipelineTask;
  ms_next : Z;
}.

Definition MasterState_new (config : MasterConfig) : result MasterError MasterState :=
  _ ← master_validate config;
  listen ← listen_addr config;
  Ok (mkMasterState config Registry_new None ("http://" ++ listen)%string ∅ ∅ 0).
End config.

Definition with_registry (r : Registry) (s : MasterState) : MasterState :=
  mkMasterState (ms_config s) r (ms_run s) (ms_master_endpoint s) (ms_streams s) (ms_pipelines s)
    (ms_next s).
Definition with_run (run : option ActiveRun) (s : MasterState) : MasterState :=
  mkMasterState (ms_config s) (ms_registry s) run (ms_master_endpoint s) (ms_streams s)
    (ms_pipelines s) (ms_next s).
Definition with_streams (c : gmap Z (list CommandRequest)) (s : MasterState) : MasterState :=
  mkMasterState (ms_config s) (ms_registry s) (ms_run s) (ms_master_endpoint s) c
    (ms_pipelines s) (ms_next s).
Definition with_pipelines (p : gmap Z PipelineTask) (s : MasterState) : MasterState :=
  mkMasterState (ms_config s) (ms_registry s) (ms_run s) (ms_master_endpoint s) (ms_streams s) p
    (ms_next s).
(** A fresh channel identity. *)
Definition fresh (s : MasterState) : Z * MasterState :=
  (ms_next s, mkMasterState (ms_config s) (ms_registry s) (ms_run s) (ms_master_endpoint s)
                (ms_streams s) (ms_pipelines s) (ms_next s + 1)).

(** [tx.send(..)] on an unbounded channel: fails when the receiver is gone. *)
Definition stream_send (tx : Z) (c : CommandRequest) (s : MasterState) : MasterState * bool :=
  match ms_streams s !! tx with
  | Some q => (with_streams (<[tx := q ++ [c]]> (ms_streams s)) s, true)
  | None => (s, false)
  end.

Definition pipeline_send (pipe : Z) (c : PipelineCommand) (s : MasterState) : MasterState :=
  with_pipelines (alter (fun t => mkPipelineTask (pt_initial t) (pt_queue t ++ [c])) pipe
                    (ms_pipelines s)) s.

Definition ingest_batch (batch : MetricBatch) (s : MasterState) : MasterState :=
  match ms_run s with
  | Some run =>
      if bool_decide (mb_test_run_id batch = ar_run_id run)
      then pipeline_send (ar_pipeline run) (PC_Batch batch) s
      else s
  | None => s
  end.

Definition record_ack (response : CommandResponse) (s : MasterState) : MasterState :=
  match ms_run s with
  | Some run =>
      if bool_decide (cp_command_id response = ar_start_command_id run)
      then with_run (Some (mkActiveRun (ar_run_id run) (ar_start_command_id run) (ar_allocated run)
                     (ar_pipeline run) ({[cp_worker_id response]} ∪ ar_acked run)
                     (ar_telemetry_done run))) s
      else s
  | None => s
  end.

Definition mark_telemetry_done (worker_id : string) (s : MasterState) : MasterState :=
  if str_is_empty worker_id then s
  else match ms_run s with
       | Some run =>
           with_run (Some (mkActiveRun (ar_run_id run) (ar_start_command_id run) (ar_allocated run)
             (ar_pipeline run) (ar_acked run) ({[worker_id]} ∪ ar_telemetry_done run))) s
       | None => s
       end.

(** ** gRPC handlers *)

Inductive Status := InvalidArgument (msg : string) | NotFound (msg : string) | StreamError (msg : string).

Definition MasterError_to_string (e : MasterError) : string :=
  match e with
  | ME_Config m => "configuration error: " ++ m
  | ME_Registry m => "registry error: " ++ m
  | ME_BarrierTimeout expected ready =>
      "barrier timeout: " ++ u64_to_string ready ++ "/" ++ u64_to_string expected ++ " workers ready"
  | ME_Run m => "run error: " ++ m
  | ME_Transport m => "transport error: " ++ m
  | ME_Rpc m => "rpc error: " ++ m
  | ME_Io m => "io error: " ++ m
  end%string.

Definition not_registered (worker_id : string) : Status :=
  NotFound ("worker '" ++ worker_id ++ "' not registered").

Definition register_worker (now : Z) (request : RegisterWorkerRequest) (s : MasterState)
  : MasterState * result Status RegisterWorkerResponse :=
  match register now request (ms_registry s) with
  | Err e => (s, Err (InvalidArgument (MasterError_to_string e)))
  | Ok r =>
      (with_registry r s,
       Ok (mkRegisterWorkerResponse REGISTRATION_ACCEPTED ("ack-" ++ rw_worker_id request)%string
             (Some (cluster_configuration (ms_config s) (ms_master_endpoint s))) ""))
  end.

Definition heartbeat (now : Z) (request : HeartbeatRequest) (s : MasterState)
  : MasterState * result Status HeartbeatResponse :=
  let state := default PWS_Unspecified (ProtoWorkerState_try_from (hb_state request)) in
  match record_heartbeat now (hb_worker_id request) state (hb_active_vus request)
          (hb_test_run_id request) (ms_registry s) with
  | Err _ => (s, Err (not_registered (hb_worker_id request)))
  | Ok r =>
      (with_registry r s,
       Ok (mkHeartbeatResponse (HeartbeatDirective_to_i32 HD_Continue)
             (mc_heartbeat_interval_ms (ms_config s)) "" ""))
  end.

(** Returns the identity of the stream handed to the worker. *)
Definition watch_commands (worker_id : string) (s : MasterState) : MasterState * result Status Z :=
  let (tx, s') := fresh s in
  match attach_commands worker_id tx (ms_registry s') with
  | Err _ => (s', Err (not_registered worker_id))
  | Ok r => (with_streams (<[tx := []]> (ms_streams s')) (with_registry r s'), Ok tx)
  end.

Definition acknowledge_command (response : CommandResponse) (s : MasterState)
  : MasterState * result Status unit := (record_ack response s, Ok ()).

(** Accumulators of one [StreamMetrics] call. *)
Record StreamAcc := mkStreamAcc {
  acc_batches : Z;
  acc_requests : Z;
  acc_last_batch_id : string;
  acc_worker_id : string;
}.

Definition stream_message (a : StreamAcc) (batch : MetricBatch) : StreamAcc :=
  mkStreamAcc (wrap32 (acc_batches a + 1)) (acc_requests a +! mb_total_requests batch)
    (mb_batch_id batch)
    (if str_is_empty (mb_worker_id batch) then acc_worker_id a else mb_worker_id batch).

(** A whole [StreamMetrics] call; [error] is the transport error that ends the
    stream, if any: it returns before the telemetry is marked complete. *)
Definition stream_metrics (batches : list MetricBatch) (error : option string) (s : MasterState)
  : MasterState * result Status StreamAcknowledgment :=
  let acc := foldl stream_message (mkStreamAcc 0 0 "" "") batches in
  let s := foldl (fun s b => ingest_batch b s) s batches in
  match error with
  | Some e => (s, Err (StreamError e))
  | None =>
      (mark_telemetry_done (acc_worker_id acc) s,
       Ok (mkStreamAcknowledgment (acc_worker_id acc) (acc_batches acc) (acc_requests acc) false ""
             (acc_last_batch_id acc)))
  end.

(** ** Interleaved steps *)

Inductive MasterEvent :=
  | MERegister (now : Z) (request : RegisterWorkerRequest)
  | MEHeartbeat (now : Z) (request : HeartbeatRequest)
  | MEWatch (worker_id : string)
  | MEAck (response : CommandResponse)
  | MEBatch (batch : MetricBatch)
  | METelemetryDone (worker_id : string)
  | MEStreamDropped (stream : Z).

Definition master_step (s : MasterState) (e : MasterEvent) : MasterState :=
  match e with
  | MERegister now q => (register_worker now q s).1
  | MEHeartbeat now q => (heartbeat now q s).1
  | MEWatch k => (watch_commands k s).1
  | MEAck r => (acknowledge_command r s).1
  | MEBatch b => ingest_batch b s
  | METelemetryDone k => mark_telemetry_done k s
  | MEStreamDropped c => with_streams (delete c (ms_streams s)) s
  end.

Definition master_steps (s : MasterState) (evs : list MasterEvent) : MasterState :=
  foldl master_step s evs.

(** ** Running a test *)

Definition with_run_id (run_id : string) (c : TestConfiguration) : TestConfiguration :=
  mkTestConfiguration run_id (tc_targets c) (tc_duration c) (tc_virtual_users c)
    (tc_request_timeout_ms c) (tc_headers c) (tc_payloads c) (tc_http_method c).

Definition resolve_run_id (now_ms : Z) (c : TestConfiguration) : string :=
  if is_blank (tc_test_run_id c) then ("run-" ++ i64_to_string now_ms)%string
  else tc_test_run_id c.

(** Step 2: install the active run, or refuse while one is active. *)
Definition install_run (run_id start_command_id : string) (allocated : list string) (s : MasterState)
  : MasterState * result MasterError unit :=
  match ms_run s with
  | Some _ => (s, Err (ME_Run "a run is already active"))
  | None =>
      let (pipe, s) := fresh s in
      let bucket_count := Z.to_nat (mc_histogram_bucket_count (ms_config s)) in
      let window_epochs := wrap_i64 (Z.max (mc_window_secs (ms_config s)) 1) in
      let task := mkPipelineTask (TelemetryPipeline_new run_id bucket_count window_epochs) [] in
      (with_run (Some (mkActiveRun run_id start_command_id allocated pipe ∅ ∅))
         (with_pipelines (<[pipe := task]> (ms_pipelines s)) s), Ok ())
  end.

(** One command to one worker. *)
Definition send_command (worker_id : string) (c : CommandRequest) (s : MasterState)
  : MasterState * bool :=
  match command_sender worker_id (ms_registry s) with
  | Some tx => stream_send tx c s
  | None => (s, false)
  end.

(** Step 3: broadcast, with the events that happen before each send. *)
Fixpoint broadcast (c : CommandRequest) (allocated : list string) (evs : list (list MasterEvent))
    (s : MasterState) (delivered : Z) : MasterState * Z :=
  match allocated with
  | [] => (s, delivered)
  | k :: allocated =>
      let s := master_steps s (hd [] evs) in
      let (s, ok) := send_command k c s in
      broadcast c allocated (tl evs) s (if ok then delivered + 1 else delivered)
  end.

Definition start_command (run_id start_command_id : string) (config : TestConfiguration)
  : CommandRequest :=
  mkCommandRequest (CommandType_to_i32 CT_Start) start_command_id run_id (Some config) 0.

(** Step 4: wait for the telemetry streams; each poll comes after some events
    and reads the clock.  [None]: still waiting. *)
Definition run_complete (s : MasterState) : bool :=
  match ms_run s with
  | Some run => bool_decide (length (ar_allocated run) <= size (ar_telemetry_done run))%nat
  | None => true
  end.

Fixpoint wait_complete (deadline : Z) (polls : list (list MasterEvent * Z)) (s : MasterState)
  : option MasterState :=
  match polls with
  | [] => None
  | (evs, now) :: polls =>
      let s := master_steps s evs in
      if run_complete s then Some s
      else if duration_since deadline now =? 0 then Some s
      else wait_complete deadline polls s
  end.

Section master.
Context `{MapOrder}.

(** The pipeline's answer to [finalize]: [None] when its task has stopped. *)
Definition pipeline_reply (t : PipelineTask) : option GlobalReport :=
  foldr (fun e acc => match e with PE_Reply 0 r => Some r | _ => acc end) None
    (run_pipeline (pt_initial t) (pt_queue t ++ [PC_Finalize 0])).2.

(** Step 5: take the run and finalize. *)
Definition finish_run (s : MasterState) : MasterState * result MasterError GlobalReport :=
  match ms_run s with
  | None => (s, Err (ME_Run "active run disappeared"))
  | Some run =>
      let s := with_run None s in
      match t ← ms_pipelines s !! ar_pipeline run; pipeline_reply t with
      | None => (pipeline_send (ar_pipeline run) (PC_Finalize 0) s,
                 Err (ME_Run "telemetry pipeline stopped"))
      | Some report =>
          (pipeline_send (ar_pipeline run) PC_Shutdown
             (pipeline_send (ar_pipeline run) (PC_Finalize 0) s), Ok report)
      end
  end.

Definition run_duration (config : TestConfiguration) : duration :=
  match tc_duration config with
  | Some d => Z.max (pd_seconds d) 0 * NANOS_PER_SEC + Z.max (pd_nanos d) 0
  | None => 0
  end.

(** The whole of [start_run], from the barrier's outcome on: events before the
    run is installed, before each send, and before each completion poll.
    [None]: still waiting. *)
Definition start_run (config : TestConfiguration) (barrier : result MasterError (list string))
    (now_ms now : Z) (before_install : list MasterEvent) (during_send : list (list MasterEvent))
    (polls : list (list MasterEvent * Z)) (s : MasterState)
  : option (MasterState * result MasterError GlobalReport) :=
  match barrier with
  | Err e => Some (s, Err e)
  | Ok [] => Some (s, Err (ME_Run "no workers available"))
  | Ok allocated =>
      let run_id := resolve_run_id now_ms config in
      let config := with_run_id run_id config in
      let start_command_id := ("cmd-" ++ run_id ++ "-start")%string in
      let s := master_steps s before_install in
      match install_run run_id start_command_id allocated s with
      | (s, Err e) => Some (s, Err e)
      | (s, Ok _) =>
          let (s, delivered) :=
            broadcast (start_command run_id start_command_id config) allocated during_send s 0 in
          if delivered =? 0
          then Some (with_run None s, Err (ME_Run "no worker received the START command"))
          else
            s ← wait_complete (now + run_duration config + COMPLETION_GRACE) polls s;
            Some (finish_run s)
      end
  end.

(** [abort]: drop the run, stop its pipeline, broadcast ABORT. *)
Definition abort_command (run_id : string) : CommandRequest :=
  mkCommandRequest (CommandType_to_i32 CT_Abort) ("cmd-" ++ run_id ++ "-abort")%string run_id None 0.

Definition abort (s : MasterState) : MasterState :=
  match ms_run s with
  | None => s
  | Some run =>
      let s := pipeline_send (ar_pipeline run) PC_Shutdown (with_run None s) in
      foldl (fun s k => (send_command k (abort_command (ar_run_id run)) s).1) s (ar_allocated run)
  end.
End master.

(** ** The registry under the handlers *)

(** The registry operation a handler performs. *)
Definition event_ops (next : Z) (e : MasterEvent) : list RegistryOp :=
  match e with
  | MERegister now q => [OpRegister now q]
  | MEHeartbeat now q =>
      [OpHeartbeat now (hb_worker_id q)
         (default PWS_Unspecified (ProtoWorkerState_try_from (hb_state q)))
         (hb_active_vus q) (hb_test_run_id q)]
  | MEWatch k => [OpAttach k next]
  | _ => []
  end.

Lemma master_step_registry `{MapOrder} s e :
  ms_registry (master_step s e) = foldl registry_step (ms_registry s) (event_ops (ms_next s) e).
Proof.
  destruct e as [now q|now q|k|r|b|k|c]; simpl.
  - unfold register_worker. by destruct (register now q (ms_registry s)).
  - unfold heartbeat. by destruct (record_heartbeat _ _ _ _ _ _).
  - unfold watch_commands. simpl. by destruct (attach_commands _ _ _).
  - unfold record_ack. destruct (ms_run s); [|done]. by case_bool_decide.
  - unfold ingest_batch. destruct (ms_run s); [|done]. by case_bool_decide.
  - unfold mark_telemetry_done. destruct (str_is_empty k); [done|]. by destruct (ms_run s).
  - done.
Qed.

Lemma master_step_wf s e : registry_wf (ms_registry s) -> registry_wf (ms_registry (master_step s e)).
Proof. intros Hs. rewrite master_step_registry. by apply registry_steps_wf. Qed.

(** Whether an event is about worker [k]'s registration. *)
Definition touches (k : string) (e : MasterEvent) : bool :=
  match e with
  | MERegister _ q => bool_decide (rw_worker_id q = k)
  | MEHeartbeat _ q => bool_decide (hb_worker_id q = k)
  | MEWatch k' => bool_decide (k' = k)
  | _ => false
  end.

Lemma master_step_untouched s e k :
  touches k e = false -> registry_get k (ms_registry (master_step s e)) = registry_get k (ms_registry s).
Proof.
  intros Ht. unfold registry_get. rewrite master_step_registry, registry_steps_lookup.
  destruct e; simpl in *; try case_bool_decide; try done; by rewrite decide_False.
Qed.

Lemma master_steps_untouched s evs k :
  Forall (fun e => touches k e = false) evs ->
  registry_get k (ms_registry (master_steps s evs)) = registry_get k (ms_registry s).
Proof.
  intros He. revert s. induction He as [|e evs Ht He IH]; intros s; [done|].
  unfold master_steps in *. simpl. by rewrite IH, master_step_untouched.
Qed.

(** ** The active run under the handlers *)

(** An active run [run] whose pipeline has been sent exactly the batches [bs]. *)
Definition run_at (R : string) (pipe : Z) (init : TelemetryPipeline) (bs : list MetricBatch)
    (s : MasterState) : Prop :=
  exists run, ms_run s = Some run /\ ar_run_id run = R /\ ar_pipeline run = pipe /\
    ms_pipelines s !! pipe = Some (mkPipelineTask init (PC_Batch <$> bs)).

(** The batches of a run among the events. *)
Definition run_batches (R : string) (evs : list MasterEvent) : list MetricBatch :=
  omap (fun e => match e with
                 | MEBatch b => if bool_decide (mb_test_run_id b = R) then Some b else None
                 | _ => None
                 end) evs.

Lemma master_step_run_at R pipe init bs s e :
  run_at R pipe init bs s -> run_at R pipe init (bs ++ run_batches R [e]) (master_step s e).
Proof.
  intros (run & Hr & HR & Hp & Ht). unfold run_at.
  destruct e as [now q|now q|k|r|b|k|c]; csimpl; rewrite ?app_nil_r.
  - unfold register_worker. destruct (register now q (ms_registry s)); simpl; eauto.
  - unfold heartbeat. destruct (record_heartbeat _ _ _ _ _ _); simpl; eauto.
  - unfold watch_commands. simpl. destruct (attach_commands _ _ _); simpl; eauto.
  - unfold record_ack. rewrite Hr. case_bool_decide; [|by eauto]. eexists. split; [done|]. by simpl.
  - unfold ingest_batch. rewrite Hr, HR. case_bool_decide; csimpl; [|rewrite app_nil_r; by eauto].
    exists run. split_and!; try done. simpl. rewrite Hp, lookup_alter_eq, Ht. simpl.
    by rewrite fmap_app.
  - unfold mark_telemetry_done. destruct (str_is_empty k); [by eauto|]. rewrite Hr.
    eexists. split; [done|]. by simpl.
  - eauto.
Qed.

Lemma run_batches_app R e1 e2 : run_batches R (e1 ++ e2) = run_batches R e1 ++ run_batches R e2.
Proof. apply omap_app. Qed.

Lemma master_steps_run_at R pipe init bs s evs :
  run_at R pipe init bs s -> run_at R pipe init (bs ++ run_batches R evs) (master_steps s evs).
Proof.
  revert bs s. induction evs as [|e evs IH]; intros bs s Hs; [csimpl; by rewrite app_nil_r|].
  change (e :: evs) with ([e] ++ evs). rewrite run_batches_app, app_assoc.
  apply IH. by apply master_step_run_at.
Qed.

Lemma send_command_run_at R pipe init bs k c s :
  run_at R pipe init bs s -> run_at R pipe init bs (send_command k c s).1.
Proof.
  intros Hs. unfold send_command, stream_send. destruct (command_sender _ _) as [tx|]; [|done].
  by destruct (ms_streams s !! tx).
Qed.

Lemma broadcast_run_at R pipe init bs c ks evs s d :
  run_at R pipe init bs s ->
  run_at R pipe init (bs ++ run_batches R (concat (take (length ks) evs))) (broadcast c ks evs s d).1.
Proof.
  revert bs evs s d. induction ks as [|k ks IH]; intros bs evs s d Hs; simpl.
  { csimpl. by rewrite app_nil_r. }
  pose proof (master_steps_run_at _ _ _ _ _ (hd [] evs) Hs) as H1.
  apply (send_command_run_at _ _ _ _ k c) in H1.
  destruct (send_command k c (master_steps s (hd [] evs))) as [s1 ok]. simpl in H1.
  pose proof (IH _ (tl evs) s1 (if ok then d + 1 else d) H1) as H2.
  rewrite <- app_assoc, <- run_batches_app in H2.
  destruct evs as [|e evs]; simpl in *; [by rewrite take_nil in H2|done].
Qed.

(** The events consumed by the completion loop are those of a prefix of the
    polls. *)
Lemma wait_complete_run_at R pipe init bs deadline polls s s' :
  run_at R pipe init bs s -> wait_complete deadline polls s = Some s' ->
  exists used rest, polls = used ++ rest /\
    run_at R pipe init (bs ++ run_batches R (concat used.*1)) s' /\
    (run_complete s' = true \/ exists now, now ∈ used.*2 /\ deadline <= now).
Proof.
  revert bs s. induction polls as [|[evs now] polls IH]; intros bs s Hs; simpl; [done|].
  pose proof (master_steps_run_at _ _ _ _ _ evs Hs) as H1.
  destruct (run_complete (master_steps s evs)) eqn:Hc.
  { intros [= <-]. exists [(evs, now)], polls. csimpl. rewrite app_nil_r. auto. }
  unfold duration_since. destruct (Z.eqb_spec (Z.max 0 (deadline - now)) 0) as [Hz|Hz].
  { intros [= <-]. exists [(evs, now)], polls. csimpl. rewrite app_nil_r. split_and!; [done|done|].
    right. exists now. split; [left|lia]. }
  intros (used & rest & -> & Hr & Hd)%(IH _ _ H1).
  exists ((evs, now) :: used), rest. csimpl. rewrite run_batches_app, app_assoc. split_and!; [done|done|].
  destruct Hd as [|(now' & Hin & ?)]; [by left|right]. exists now'. split; [by right|done].
Qed.

Lemma wait_complete_total deadline polls s :
  Exists (fun p => deadline <= p.2) polls -> is_Some (wait_complete deadline polls s).
Proof.
  intros He. revert s. induction He as [[evs now] polls Hd|[evs now] polls _ IH]; intros s; simpl.
  - destruct (run_complete _); [eauto|]. unfold duration_since. simpl in Hd.
    rewrite (proj2 (Z.eqb_eq _ 0)) by lia. eauto.
  - destruct (run_complete _); [eauto|]. destruct (_ =? 0); eauto.
Qed.

(** ** The pipeline's answer *)

(** Whether the pipeline task dies while absorbing the batches. *)
Fixpoint ingest_panics `{MapOrder} (p : TelemetryPipeline) (bs : list MetricBatch) : bool :=
  match bs with
  | [] => false
  | b :: bs => match (ingest p b).2 with
               | IngestPanic => true
               | _ => ingest_panics (ingest p b).1 bs
               end
  end.

Lemma pipeline_reply_batches `{MapOrder} p bs :
  pipeline_reply (mkPipelineTask p (PC_Batch <$> bs))
  = if ingest_panics p bs then None else Some (finalize (ingest_all p bs)).
Proof.
  unfold pipeline_reply. revert p. induction bs as [|b bs IH]; intros p; csimpl; [done|].
  csimpl in IH. destruct (ingest p b) as [p' [s| |]]; simpl; [|apply IH|done].
  specialize (IH p'). by destruct (run_pipeline p' _).
Qed.

Lemma ingest_no_panic `{MapOrder} p bs :
  1 <= p_window_epochs p <= 2 ^ 50 -> Forall time_ok bs -> ingest_panics p bs = false.
Proof.
  intros Hw Ht. revert p Hw. induction Ht as [|b bs Hb Ht IH]; intros p Hw; simpl; [done|].
  rewrite ingest_state.
  specialize (IH (set_published (batch_epoch b) (absorb b p)) Hw).
  destruct (window_start_le (set_published (batch_epoch b) (absorb b p)) (batch_epoch b)) as [_ Hle];
    [done|apply batch_epoch_bounds, Hb|].
  unfold ingest. simpl. case_decide; simpl; [|done].
  unfold snapshot, window_metrics. fold (batch_epoch b). 
  destruct (Z.gtb_spec (window_start (set_published (batch_epoch b) (absorb b p)) (batch_epoch b))
              (batch_epoch b)); [lia|]. done.
Qed.

(** What [start_run] does after the run is installed. *)
Lemma install_run_at R cmd allocated s s' :
  install_run R cmd allocated s = (s', Ok ()) ->
  ms_run s = None /\
  run_at R (ms_next s) (TelemetryPipeline_new R (Z.to_nat (mc_histogram_bucket_count (ms_config s)))
                          (wrap_i64 (Z.max (mc_window_secs (ms_config s)) 1))) [] s'.
Proof.
  unfold install_run. destruct (ms_run s); [done|]. intros [= <-]. split; [done|].
  eexists. split; [done|]. simpl. split_and!; [done|done|]. apply lookup_insert_eq.
Qed.

Lemma finish_run_at `{MapOrder} R pipe init bs s :
  run_at R pipe init bs s ->
  ms_run (finish_run s).1 = None /\
  (finish_run s).2 = if ingest_panics init bs then Err (ME_Run "telemetry pipeline stopped")
                     else Ok (finalize (ingest_all init bs)).
Proof.
  intros (run & Hr & HR & <- & Ht). unfold finish_run. rewrite Hr. simpl. rewrite Ht. simpl.
  rewrite pipeline_reply_batches. by destruct (ingest_panics init bs).
Qed.

Lemma master_step_config s e : ms_config (master_step s e) = ms_config s.
Proof.
  destruct e as [now q|now q|k|r|b|k|c]; simpl; try done.
  - unfold register_worker. by destruct (register _ _ _).
  - unfold heartbeat. by destruct (record_heartbeat _ _ _ _ _ _).
  - unfold watch_commands. simpl. by destruct (attach_commands _ _ _).
  - unfold record_ack. destruct (ms_run s); [|done]. by case_bool_decide.
  - unfold ingest_batch. destruct (ms_run s); [|done]. by case_bool_decide.
  - unfold mark_telemetry_done. destruct (str_is_empty k); [done|]. by destruct (ms_run s).
Qed.

Lemma master_steps_config s evs : ms_config (master_steps s evs) = ms_config s.
Proof.
  unfold master_steps. revert s. induction evs as [|e evs IH]; intros s; simpl; [done|].
  by rewrite IH, master_step_config.
Qed.

(** Whether a run is active is not changed by the handlers. *)
Lemma master_step_run s e : ms_run s = None <-> ms_run (master_step s e) = None.
Proof.
  destruct e as [now q|now q|k|r|b|k|c]; simpl; try done.
  - unfold register_worker. by destruct (register _ _ _).
  - unfold heartbeat. by destruct (record_heartbeat _ _ _ _ _ _).
  - unfold watch_commands. simpl. by destruct (attach_commands _ _ _).
  - unfold record_ack. destruct (ms_run s) eqn:E; [|by rewrite E].
    case_bool_decide; [done|by rewrite E].
  - unfold ingest_batch. destruct (ms_run s) eqn:E; [|by rewrite E].
    case_bool_decide; simpl; by rewrite E.
  - unfold mark_telemetry_done. destruct (str_is_empty k); [done|].
    destruct (ms_run s) eqn:E; [done|by rewrite E].
Qed.

Lemma master_steps_run s evs : ms_run s = None <-> ms_run (master_steps s evs) = None.
Proof.
  unfold master_steps. revert s. induction evs as [|e evs IH]; intros s; simpl; [done|].
  rewrite <- IH. apply master_step_run.
Qed.

Lemma master_step_keeps_run s e run :
  ms_run s = Some run ->
  exists run', ms_run (master_step s e) = Some run' /\
    ar_run_id run' = ar_run_id run /\ ar_allocated run' = ar_allocated run /\
    ar_pipeline run' = ar_pipeline run /\
    ar_acked run ⊆ ar_acked run' /\ ar_telemetry_done run ⊆ ar_telemetry_done run'.
Proof.
  intros Hr. destruct e as [now q|now q|k|r|b|k|c]; simpl.
  - unfold register_worker. destruct (register _ _ _); eauto 10.
  - unfold heartbeat. destruct (record_heartbeat _ _ _ _ _ _); eauto 10.
  - unfold watch_commands. simpl. destruct (attach_commands _ _ _); eauto 10.
  - unfold record_ack. rewrite Hr. case_bool_decide; [|by eauto 10].
    eexists. split; [done|]. simpl. set_solver.
  - unfold ingest_batch. rewrite Hr. case_bool_decide; eauto 10.
  - unfold mark_telemetry_done. destruct (str_is_empty k); [by eauto 10|]. rewrite Hr.
    eexists. split; [done|]. simpl. set_solver.
  - eauto 10.
Qed.

(** The pipeline parameters of a run. *)
Definition run_buckets (c : MasterConfig) : nat := Z.to_nat (mc_histogram_bucket_count c).
Definition run_window (c : MasterConfig) : Z := wrap_i64 (Z.max (mc_window_secs c) 1).

(** The four ways [start_run] returns once the barrier has opened. *)
Lemma start_run_cases `{MapOrder} config k ks now_ms now before during polls s s' r :
  start_run config (Ok (k :: ks)) now_ms now before during polls s = Some (s', r) ->
  let R := resolve_run_id now_ms config in
  (ms_run s <> None /\ s' = master_steps s before /\ r = Err (ME_Run "a run is already active")) \/
  (ms_run s = None /\ ms_run s' = None /\ r = Err (ME_Run "no worker received the START command")) \/
  (ms_run s = None /\ ms_run s' = None /\ exists used rest, polls = used ++ rest /\
     let bs := run_batches R (concat (take (length (k :: ks)) during) ++ concat used.*1) in
     let init := TelemetryPipeline_new R (run_buckets (ms_config s)) (run_window (ms_config s)) in
     r = if ingest_panics init bs then Err (ME_Run "telemetry pipeline stopped")
         else Ok (finalize (ingest_all init bs))).
Proof.
  intros Hr R. unfold start_run in Hr. fold R in Hr.
  pose proof (master_steps_run s before) as Hrun.
  destruct (install_run R _ _ (master_steps s before)) as [s1 [[]|e]] eqn:Hi.
  - right. apply install_run_at in Hi as [Hn Hat]. rewrite master_steps_config in Hat.
    destruct (broadcast _ (k :: ks) during s1 0) as [s2 d] eqn:Hb.
    pose proof (broadcast_run_at _ _ _ _ (start_command R ("cmd-" ++ R ++ "-start")
      (with_run_id R config)) (k :: ks) during s1 0 Hat) as Hat2.
    rewrite Hb in Hat2. simpl in Hat2.
    destruct (d =? 0); [left; simplify_eq; split_and!; [by apply Hrun|done|done]|right].
    destruct (wait_complete _ polls s2) as [s3|] eqn:Hw; simpl in Hr; [|done].
    destruct (wait_complete_run_at _ _ _ _ _ _ _ _ Hat2 Hw) as (used & rest & -> & Hat3 & _).
    rewrite <- run_batches_app in Hat3.
    destruct (finish_run_at _ _ _ _ _ Hat3) as [Hf1 Hf2]. injection Hr as Hr.
    rewrite Hr in Hf1, Hf2. simpl in Hf1, Hf2. split_and!; [by apply Hrun|done|]. by exists used, rest.
  - left. unfold install_run in Hi. destruct (ms_run (master_steps s before)) eqn:E; simplify_eq.
    split_and!; [|done|done]. intros Hn. apply Hrun in Hn. congruence.
Qed.

Lemma run_batches_time_ok R evs :
  Forall (fun e => match e with MEBatch b => time_ok b | _ => True end) evs ->
  Forall time_ok (run_batches R evs).
Proof.
  induction 1 as [|e evs He Hevs IH]; csimpl; [done|].
  destruct e; try done. case_bool_decide; [by constructor|done].
Qed.

(** ** Properties *)

Section claims.
Context `{MapOrder}.

(** C3. A run that succeeds reports exactly its own telemetry: whatever the
    interleaving of registrations, heartbeats, acknowledgements and batches of
    any run, the report is that of a fresh pipeline fed, in arrival order, with
    precisely the batches carrying this run's id that arrived between the
    START broadcast and the completion poll; and the run slot is free again. *)
Theorem run_report_exact config barrier now_ms now before during polls s s' report :
  start_run config barrier now_ms now before during polls s = Some (s', Ok report) ->
  let R := resolve_run_id now_ms config in
  exists allocated used rest, barrier = Ok allocated /\ polls = used ++ rest /\ ms_run s' = None /\
    report = finalize (pipeline_after R (run_buckets (ms_config s)) (run_window (ms_config s))
               (run_batches R (concat (take (length allocated) during) ++ concat used.*1))).
Proof.
  intros Hr R. destruct barrier as [[|k ks]|e]; [done| |done].
  destruct (start_run_cases _ _ _ _ _ _ _ _ _ _ _ Hr) as [(_ & _ & ?)|[(_ & _ & ?)|Hc]]; [done..|].
  destruct Hc as (_ & Hn & used & rest & -> & Hrep). exists (k :: ks), used, rest.
  split_and!; [done|done|done|]. fold R in Hrep. cbv zeta in Hrep.
  destruct (ingest_panics _ _); [done|]. by injection Hrep.
Qed.

(** The run slot is never leaked: starting from a free slot, [start_run]
    leaves it free whatever its outcome (barrier failure, no delivery, stopped
    pipeline, deadline or success). *)
Theorem start_run_releases_slot config barrier now_ms now before during polls s s' r :
  ms_run s = None -> start_run config barrier now_ms now before during polls s = Some (s', r) ->
  ms_run s' = None.
Proof.
  intros Hn Hr. destruct barrier as [[|k ks]|e]; [by injection Hr as <- <-| |by injection Hr as <- <-].
  by destruct (start_run_cases _ _ _ _ _ _ _ _ _ _ _ Hr) as [(? & _)|[(_ & ? & _)|(_ & ? & _)]].
Qed.

(** One run at a time: while a run is active, [start_run] refuses with an
    error and changes nothing; the active run keeps its id, its workers and its
    pipeline through every handler call. *)
Theorem start_run_exclusive config k ks now_ms now before during polls s run :
  ms_run s = Some run ->
  start_run config (Ok (k :: ks)) now_ms now before during polls s
    = Some (master_steps s before, Err (ME_Run "a run is already active")) /\
  exists run', ms_run (master_steps s before) = Some run' /\
    ar_run_id run' = ar_run_id run /\ ar_allocated run' = ar_allocated run /\
    ar_pipeline run' = ar_pipeline run /\
    ar_acked run ⊆ ar_acked run' /\ ar_telemetry_done run ⊆ ar_telemetry_done run'.
Proof.
  intros Hrun. assert (Hkeep : exists run', ms_run (master_steps s before) = Some run' /\
    ar_run_id run' = ar_run_id run /\ ar_allocated run' = ar_allocated run /\
    ar_pipeline run' = ar_pipeline run /\
    ar_acked run ⊆ ar_acked run' /\ ar_telemetry_done run ⊆ ar_telemetry_done run').
  { clear config k ks now_ms now during polls. unfold master_steps. revert s run Hrun.
    induction before as [|e before IH]; intros s run Hrun; simpl; [by eauto 10|].
    destruct (master_step_keeps_run s e run Hrun) as (run1 & Hr1 & ? & ? & ? & Ha & Hd).
    destruct (IH _ _ Hr1) as (run2 & Hr2 & ? & ? & ? & Ha2 & Hd2).
    exists run2. split_and!; try done; try congruence; by etransitivity. }
  split; [|done]. destruct Hkeep as (run' & Hr' & _).
  unfold start_run, install_run. by rewrite Hr'.
Qed.

(** C26. A run ends: once a completion poll reads a clock at or past
    [start + duration + 5 s], [start_run] has returned; and with a window of at
    most 2^50 s and time stamps below 2^62 ms it never reports a stopped
    pipeline. *)
Theorem start_run_terminates config allocated now_ms now before during polls s :
  Exists (fun p => now + run_duration config + COMPLETION_GRACE <= p.2) polls ->
  exists s' r, start_run config (Ok allocated) now_ms now before during polls s = Some (s', r) /\
    (1 <= mc_window_secs (ms_config s) <= 2 ^ 50 ->
     Forall (fun e => match e with MEBatch b => time_ok b | _ => True end)
       (concat during ++ concat polls.*1) ->
     r <> Err (ME_Run "telemetry pipeline stopped")).
Proof.
  intros He. assert (Hs : is_Some (start_run config (Ok allocated) now_ms now before during polls s)).
  { unfold start_run. destruct allocated as [|k ks]; [eauto|].
    destruct (install_run _ _ _ _) as [s1 [|]]; [|eauto].
    destruct (broadcast _ _ _ _ _) as [s2 d]. destruct (d =? 0); [eauto|].
    destruct (wait_complete_total (now + run_duration config + COMPLETION_GRACE) polls s2 He) as [s3 Hs3].
    change (run_duration (with_run_id _ config)) with (run_duration config).
    rewrite Hs3. simpl. eauto. }
  destruct Hs as [[s' r] Hr]. exists s', r. split; [done|]. intros Hw Ht ->.
  destruct allocated as [|k ks]; [done|].
  destruct (start_run_cases _ _ _ _ _ _ _ _ _ _ _ Hr) as [(_ & _ & ?)|[(_ & _ & ?)|Hc]]; [done..|].
  destruct Hc as (_ & _ & used & rest & -> & Hrep). cbv zeta in Hrep.
  rewrite ingest_no_panic in Hrep; [done| |].
  - simpl. unfold run_window. rewrite wrap_i64_small by lia. lia.
  - apply run_batches_time_ok. rewrite fmap_app, concat_app in Ht.
    rewrite !Forall_app in Ht. rewrite Forall_app. split; [|by apply Ht].
    destruct Ht as [Ht _]. rewrite <- (take_drop (length (k :: ks)) during), concat_app in Ht.
    by apply Forall_app in Ht as [? _].
Qed.
End claims.

(** ** Command delivery *)

(** Whether a command to worker [k] can be delivered. *)
Definition reachable (s : MasterState) (k : string) : bool :=
  match command_sender k (ms_registry s) with
  | Some tx => bool_decide (is_Some (ms_streams s !! tx))
  | None => false
  end.

(** How many of the workers [ks] listen on stream [tx]. *)
Definition listeners (s : MasterState) (tx : Z) (ks : list string) : nat :=
  length (filter (fun k => command_sender k (ms_registry s) = Some tx) ks).

Lemma send_command_spec k c s :
  (send_command k c s).2 = reachable s k /\
  ms_registry (send_command k c s).1 = ms_registry s /\ ms_run (send_command k c s).1 = ms_run s /\
  forall tx, ms_streams (send_command k c s).1 !! tx =
    (fun q => q ++ replicate (listeners s tx [k]) c) <$> ms_streams s !! tx.
Proof.
  unfold send_command, reachable, listeners.
  destruct (command_sender k (ms_registry s)) as [tx0|] eqn:E; simpl.
  - unfold stream_send. destruct (ms_streams s !! tx0) as [q|] eqn:Hq; simpl.
    + split_and!; [done|done|done|]. intros tx.
      destruct (decide (tx0 = tx)) as [->|Hne].
      * rewrite lookup_insert_eq, Hq, filter_cons_True by done. done.
      * rewrite lookup_insert_ne, filter_cons_False by (done || congruence). simpl.
        destruct (ms_streams s !! tx); simpl; [by rewrite app_nil_r|done].
    + split_and!; [done|done|done|]. intros tx.
      destruct (decide (tx0 = tx)) as [->|Hne]; [by rewrite Hq|].
      rewrite filter_cons_False by congruence. simpl.
      destruct (ms_streams s !! tx); simpl; [by rewrite app_nil_r|done].
  - split_and!; try done. intros tx. rewrite filter_cons_False by congruence. simpl.
    destruct (ms_streams s !! tx); simpl; [by rewrite app_nil_r|done].
Qed.

Lemma broadcast_spec c ks s d :
  (broadcast c ks [] s d).2 = d + count_if (reachable s) ks /\
  ms_registry (broadcast c ks [] s d).1 = ms_registry s /\
  ms_run (broadcast c ks [] s d).1 = ms_run s /\
  forall tx, ms_streams (broadcast c ks [] s d).1 !! tx =
    (fun q => q ++ replicate (listeners s tx ks) c) <$> ms_streams s !! tx.
Proof.
  revert s d. induction ks as [|k ks IH]; intros s d.
  { split_and!; [unfold count_if; csimpl; lia|done|done|]. intros tx. simpl.
    destruct (ms_streams s !! tx); simpl; [by rewrite app_nil_r|done]. }
  simpl. unfold master_steps. simpl.
  destruct (send_command_spec k c s) as (Hok & Hreg & Hrun & Hst).
  destruct (send_command k c s) as [s1 ok]. simpl in *.
  destruct (IH s1 (if ok then d + 1 else d)) as (Hd & Hreg2 & Hrun2 & Hst2).
  assert (Hlive : forall k', reachable s1 k' = reachable s k').
  { intros k'. unfold reachable. rewrite Hreg. destruct (command_sender k' _) as [tx|]; [|done].
    apply bool_decide_ext. rewrite Hst, fmap_is_Some. done. }
  assert (Hlist : forall tx, listeners s1 tx ks = listeners s tx ks)
    by (intros tx; unfold listeners; by rewrite Hreg).
  split_and!; [|congruence|congruence|].
  - rewrite Hd. unfold count_if. csimpl. rewrite <- Hok.
    rewrite (list_fmap_ext (fun x => if reachable s1 x then 1 else 0)
      (fun x => if reachable s x then 1 else 0) ks) by (intros i x _; by rewrite Hlive).
    destruct ok; lia.
  - intros tx. rewrite Hst2, Hst, Hlist. destruct (ms_streams s !! tx) as [q|]; simpl; [|done].
    f_equal. unfold listeners. destruct (decide (command_sender k (ms_registry s) = Some tx)).
    + rewrite !(filter_cons_True _ k) by done. simpl. by rewrite <- app_assoc.
    + rewrite !(filter_cons_False _ k) by done. simpl. by rewrite app_nil_r.
Qed.

Lemma foldl_stream_worker a bs :
  (str_is_empty (acc_worker_id (foldl stream_message a bs)) = false ->
   acc_worker_id (foldl stream_message a bs) = acc_worker_id a \/
   exists b, b ∈ bs /\ mb_worker_id b = acc_worker_id (foldl stream_message a bs)).
Proof.
  induction bs as [|b bs IH] using rev_ind; [by left|]. rewrite foldl_app. simpl.
  destruct (str_is_empty (mb_worker_id b)).
  - intros Hne. destruct (IH Hne) as [|(b' & Hb' & <-)]; [by left|right]. exists b'.
    split; [apply elem_of_app; by left|done].
  - intros _. right. exists b. split; [apply elem_of_app; right; left|done].
Qed.

Lemma foldl_stream_requests a bs :
  in_u64 (acc_requests a) ->
  acc_requests (foldl stream_message a bs) = wrap64 (acc_requests a + Zsum (mb_total_requests <$> bs)).
Proof. apply foldl_u64_total. done. Qed.

Lemma foldl_stream_batches a bs :
  acc_batches a = wrap32 (acc_batches a) ->
  acc_batches (foldl stream_message a bs) = wrap32 (acc_batches a + Z.of_nat (length bs)).
Proof.
  intros Ha. induction bs as [|b bs IH] using rev_ind; [by rewrite Z.add_0_r|].
  rewrite foldl_app, length_app. simpl. rewrite IH. unfold wrap32.
  rewrite Zplus_mod_idemp_l. f_equal. lia.
Qed.

Section claims2.
Context `{MapOrder}.

(** START reaches exactly the workers that can be reached: broadcasting
    appends the command once per allocated worker to the stream that worker
    listens on (and to no other stream), counts exactly the workers whose
    stream is alive, and touches neither the registry nor the run. *)
Theorem broadcast_delivers c ks s :
  let (s', delivered) := broadcast c ks [] s 0 in
  delivered = count_if (reachable s) ks /\
  ms_registry s' = ms_registry s /\ ms_run s' = ms_run s /\
  (forall tx, ms_streams s' !! tx =
     (fun q => q ++ replicate (listeners s tx ks) c) <$> ms_streams s !! tx).
Proof.
  destruct (broadcast_spec c ks s 0) as (Hd & Hr & Hrun & Hs).
  by destruct (broadcast c ks [] s 0).
Qed.

(** A telemetry stream is acknowledged with what it carried (batches modulo
    2^32, requests modulo 2^64, the id of its last batch) even when some of its
    batches belong to another run and are dropped; its effect on the master is
    that of its batches one by one followed by the completion mark, and a
    stream that ends with a transport error is never marked complete. *)
Theorem stream_metrics_acknowledges bs b error s :
  let '(s', r) := stream_metrics (bs ++ [b]) error s in
  match error with
  | Some e => r = Err (StreamError e) /\ s' = master_steps s (MEBatch <$> bs ++ [b])
  | None => exists ack, r = Ok ack /\
      sa_accepted_batches ack = wrap32 (Z.of_nat (length (bs ++ [b]))) /\
      sa_accepted_requests ack = wrap64 (Zsum (mb_total_requests <$> bs ++ [b])) /\
      sa_last_batch_id ack = mb_batch_id b /\
      s' = master_steps s ((MEBatch <$> bs ++ [b]) ++ [METelemetryDone (sa_worker_id ack)]) /\
      (str_is_empty (sa_worker_id ack) = false ->
       exists b', b' ∈ bs ++ [b] /\ mb_worker_id b' = sa_worker_id ack)
  end.
Proof.
  assert (Hs : foldl (fun s b => ingest_batch b s) s (bs ++ [b])
               = master_steps s (MEBatch <$> bs ++ [b])).
  { unfold master_steps. generalize (bs ++ [b]). intros l. revert s.
    induction l as [|x l IH]; intros s; csimpl; [done|]. by rewrite IH. }
  unfold stream_metrics. rewrite Hs. destruct error as [e|]; [done|]. eexists. split; [done|].
  cbn [sa_accepted_batches sa_accepted_requests sa_last_batch_id sa_worker_id].
  rewrite foldl_stream_batches, foldl_stream_requests by (simpl; done). split_and!; [done|done| | |].
  - by rewrite foldl_app.
  - unfold master_steps. by rewrite (foldl_app _ _ [METelemetryDone _]).
  - intros Hne. destruct (foldl_stream_worker _ _ Hne) as [Hw|]; [|done].
    by rewrite Hw in Hne.
Qed.

(** Without a sweep, silence is never noticed: a worker that was allocatable
    stays allocatable through any sequence of handler calls about other
    workers, however much time their clock readings say has passed since its
    last heartbeat. *)
Theorem unswept_worker_stays_allocatable s evs k :
  registry_wf (ms_registry s) -> k ∈ allocatable_workers (ms_registry s) ->
  Forall (fun e => touches k e = false) evs ->
  k ∈ allocatable_workers (ms_registry (master_steps s evs)).
Proof.
  intros Hwf Hk Hevs. assert (Hwf' : registry_wf (ms_registry (master_steps s evs))).
  { clear Hk Hevs. unfold master_steps. revert s Hwf.
    induction evs; simpl; auto using master_step_wf. }
  rewrite elem_of_allocatable in * by done. pose proof (master_steps_untouched s evs k Hevs) as Hu.
  unfold registry_get in Hu. by rewrite Hu.
Qed.

(** Completion counts streams, not workers: with a run active on one
    worker, the end of any stream that carried a worker id, of a worker outside
    the allocation or of an earlier run, makes the run complete, so that it is
    finalized before its own worker has reported. *)
Theorem foreign_stream_completes_run s run k k' :
  ms_run s = Some run -> ar_allocated run = [k] -> ar_telemetry_done run = ∅ ->
  k' <> k -> str_is_empty k' = false ->
  let s' := master_step s (METelemetryDone k') in
  run_complete s = false /\ run_complete s' = true /\
  (exists run', ms_run s' = Some run' /\ (k ∉ ar_telemetry_done run')) /\
  wait_complete 1 [([METelemetryDone k'], 0)] s = Some s'.
Proof.
  intros Hr Ha Hd Hne Hk'. simpl. unfold mark_telemetry_done. rewrite Hk', Hr.
  assert (Hs : size ({[k']} ∪ ar_telemetry_done run : gset string) = 1%nat)
    by (rewrite Hd, union_empty_r_L; apply size_singleton).
  split_and!.
  - unfold run_complete. rewrite Hr, Ha, Hd. done.
  - unfold run_complete. simpl. by rewrite Ha, Hs.
  - eexists. split; [done|]. simpl. rewrite Hd. set_solver.
  - unfold run_complete. simpl. by rewrite Ha, Hs.
Qed.
End claims2.

(** ** Witnesses *)

Definition sample_master_config : MasterConfig :=
  mkMasterConfig "c" "0.0.0.0" 50051 2000 1000 0 1000 0 30000 10 5 false false None 0 0 None.

Definition sample_state : MasterState :=
  mkMasterState sample_master_config Registry_new None "http://0.0.0.0:50051" ∅ ∅ 0.

Definition hb_ready (k : string) : HeartbeatRequest := mkHeartbeatRequest k 1 0 "".

(** Two workers registered, ready and watching. *)
Definition sample_joined : MasterState :=
  master_steps sample_state
    [MERegister 0 (sample_request "w1"); MERegister 0 (sample_request "w2");
     MEHeartbeat 1 (hb_ready "w1"); MEHeartbeat 1 (hb_ready "w2"); MEWatch "w1"; MEWatch "w2"].

Definition sample_run_config : TestConfiguration :=
  mkTestConfiguration "run" [] (Some (mkProtoDuration 1 0)) 1 0 [] [] "".

(** A batch of the run, a batch of another run, and both streams closing. *)
Definition sample_polls : list (list MasterEvent * Z) :=
  [([MEBatch (sample_batch "w1" 1000 3)], 10);
   ([MEBatch (mkMetricBatch "w2" "other" "0" 1000 1000 9 9 0 0 0 1 None [] f64_zero);
     METelemetryDone "w1"; METelemetryDone "w2"], 20);
   ([], 7000000000)].

Definition sample_start : option (MasterState * result MasterError GlobalReport) :=
  start_run sample_run_config (Ok ["w1"; "w2"]%string) 5 0 [] [] sample_polls sample_joined.

Lemma run_report_exact_witness :
  exists s' report, sample_start = Some (s', Ok report) /\ ms_run s' = None /\
    gr_total_requests report = 3.
Proof.
  assert (Hok : exists s' report, sample_start = Some (s', Ok report) /\ gr_total_requests report = 3).
  { destruct sample_start as [[s' [report|e]]|] eqn:E; vm_compute in E; [|done|done].
    exists s', report. split; [done|]. by injection E as <- <-. }
  destruct Hok as (s' & report & Hs & Ht). exists s', report. split; [done|].
  destruct (run_report_exact _ _ _ _ _ _ _ _ _ _ Hs) as (_ & _ & _ & _ & _ & Hn & _). done.
Defined.

Lemma start_run_releases_slot_witness :
  exists s' r, sample_start = Some (s', r) /\ ms_run s' = None.
Proof.
  destruct sample_start as [[s' r]|] eqn:E; [|by vm_compute in E].
  exists s', r. split; [done|].
  apply (start_run_releases_slot sample_run_config (Ok ["w1"; "w2"]%string) 5 0 [] [] sample_polls
           sample_joined s' r); [by vm_compute|exact E].
Defined.

Definition sample_active : MasterState :=
  (install_run "run" "cmd-run-start" ["w1"]%string sample_joined).1.

Definition sample_run : ActiveRun := mkActiveRun "run" "cmd-run-start" ["w1"]%string 2 ∅ ∅.

Lemma start_run_exclusive_witness :
  start_run sample_run_config (Ok ["w2"]%string) 5 0 [] [] [] sample_active
  = Some (sample_active, Err (ME_Run "a run is already active")).
Proof. apply (start_run_exclusive sample_run_config "w2" [] 5 0 [] [] [] sample_active sample_run). by vm_compute. Defined.

Lemma start_run_terminates_witness :
  exists s' r, start_run sample_run_config (Ok ["w1"]%string) 5 0 [] [] sample_polls sample_joined
               = Some (s', r).
Proof.
  destruct (start_run_terminates sample_run_config ["w1"]%string 5 0 [] [] sample_polls sample_joined)
    as (s' & r & Hr & _).
  - do 2 right. left. by vm_compute.
  - by exists s', r.
Defined.

Lemma unswept_worker_stays_allocatable_witness :
  "w1"%string ∈ allocatable_workers
    (ms_registry (master_steps sample_joined [MEHeartbeat (10 ^ 15) (hb_ready "w2")])).
Proof.
  apply unswept_worker_stays_allocatable.
  - unfold sample_joined, master_steps. repeat (apply master_step_wf). apply registry_new_wf.
  - apply (bool_decide_unpack _). by vm_compute.
  - apply Forall_singleton. by vm_compute.
Defined.

Lemma foreign_stream_completes_run_witness :
  run_complete (master_step sample_active (METelemetryDone "w2")) = true.
Proof.
  apply (foreign_stream_completes_run sample_active sample_run "w1" "w2"); by vm_compute.
Defined.
