(* ===== verification/Worker.v ===== *)
(** Worker daemon ([src/distributed/worker.rs]): the state shared by its
    control tasks, the command handler, the run tasks it spawns, the
    registration and reconnect logic.

    A spawned run is a task in the store [sh_tasks]; [complete_task] is the
    tail of [run_orchestrator], executed when the task ends.  [stop_run] awaits
    the task of the slot: the model continues with the state in which that task
    has ended.  Whether it does end is the subject of [Section orchestrator],
    which models the channels between virtual users, collector and upload. *)

From S2P Require Import Prelude RustStr Float Proto WorkerState Backoff WorkerConfig Executor.

#[local] Open Scope Z_scope.

(** ** Shared state *)

Record Task := mkTask {
  tk_run_id : string;
  tk_virtual_users : Z;
  tk_cancelled : bool;
  tk_done : bool;
}.

Record Shared := mkShared {
  sh_state : WorkerStateMachine;
  sh_active_vus : Z;
  sh_run : option Z;
  sh_tasks : gmap Z Task;
  sh_next : Z;
}.

Definition Shared_new : Shared := mkShared WorkerStateMachine_new 0 None ∅ 0.

Definition with_state (m : WorkerStateMachine) (s : Shared) : Shared :=
  mkShared m (sh_active_vus s) (sh_run s) (sh_tasks s) (sh_next s).
Definition with_vus (n : Z) (s : Shared) : Shared :=
  mkShared (sh_state s) n (sh_run s) (sh_tasks s) (sh_next s).
Definition with_slot (r : option Z) (s : Shared) : Shared :=
  mkShared (sh_state s) (sh_active_vus s) r (sh_tasks s) (sh_next s).
Definition with_tasks (t : gmap Z Task) (s : Shared) : Shared :=
  mkShared (sh_state s) (sh_active_vus s) (sh_run s) t (sh_next s).

(** An illegal transition is logged and ignored. *)
Definition set_state (next : WorkerState) (s : Shared) : Shared :=
  with_state (transition next (sh_state s)).1 s.

Definition begin_run (control : Z) (s : Shared) : Shared * bool :=
  match sh_run s with
  | Some _ => (s, false)
  | None => (with_slot (Some control) s, true)
  end.

Definition cancel_task (t : Task) : Task := mkTask (tk_run_id t) (tk_virtual_users t) true (tk_done t).
Definition finish_task (t : Task) : Task := mkTask (tk_run_id t) (tk_virtual_users t) (tk_cancelled t) true.

Definition cancel_run (s : Shared) : Shared :=
  match sh_run s with
  | Some id => with_tasks (alter cancel_task id (sh_tasks s)) s
  | None => s
  end.

(** The end of [run_orchestrator]. *)
Definition complete_task (id : Z) (s : Shared) : Shared :=
  match sh_tasks s !! id with
  | Some t =>
      if tk_done t then s
      else set_state WS_Ready (with_vus 0 (with_tasks (<[id := finish_task t]> (sh_tasks s)) s))
  | None => s
  end.

Definition stop_run (s : Shared) : Shared :=
  let s := match sh_run s with
           | Some id =>
               complete_task id (with_tasks (alter cancel_task id (sh_tasks s)) (with_slot None s))
           | None => s
           end in
  with_vus 0 s.

(** ** Commands *)

Record RunParams := mkRunParams {
  rp_worker_id : string;
  rp_max_vus : Z;
  rp_window : duration;
  rp_request_timeout : duration;
}.

Definition WorkerError_to_string (e : WorkerError) : string :=
  match e with
  | WE_Config m => "configuration error: " ++ m
  | WE_StateTransition a b => "invalid state transition: " ++ a ++ " -> " ++ b
  | WE_Transport m => "transport error: " ++ m
  | WE_Rpc m => "rpc error: " ++ m
  | WE_Io m => "io error: " ++ m
  | WE_Disconnected m => "master connection lost: " ++ m
  end%string.

Definition resolve_test_run_id (params : RunParams) (now_secs : Z) (test_run_id : string) : string :=
  if str_is_empty test_run_id then (rp_worker_id params ++ "-" ++ i64_to_string now_secs)%string
  else test_run_id.

(** [tokio::spawn(run_orchestrator(..))]: the task starts whatever happens to
    its handle. *)
Definition spawn_run (run_id : string) (virtual_users : Z) (s : Shared) : Shared * Z :=
  let id := sh_next s in
  (mkShared (sh_state s) (sh_active_vus s) (sh_run s)
     (<[id := mkTask run_id virtual_users false false]> (sh_tasks s)) (id + 1), id).

Section commands.
Context `{HttpTypes}.

Definition worker_start_run (params : RunParams) (plan : ExecutionPlan) (test_run_id : string)
    (now_secs : Z) (s : Shared) : Shared * (CommandStatus * string) :=
  let run_id := resolve_test_run_id params now_secs test_run_id in
  let virtual_users := wrap32 (ep_virtual_users plan) in
  let (s, id) := spawn_run run_id virtual_users s in
  match begin_run id s with
  | (s, false) => (s, (CS_Rejected, "a run is already in progress"%string))
  | (s, true) => (with_vus virtual_users (set_state WS_Running s), (CS_Acknowledged, ""%string))
  end.

(** The new state and the acknowledgement sent to the master. *)
Definition handle_command (params : RunParams) (command : CommandRequest) (now_secs : Z) (s : Shared)
  : Shared * CommandResponse :=
  let kind := default CT_Unspecified (CommandType_try_from (cr_command command)) in
  let '(s, (status, error_message)) :=
    match kind with
    | CT_Start =>
        match cr_config command with
        | None => (s, (CS_Rejected, "START command missing TestConfiguration"%string))
        | Some config =>
            match from_proto config (rp_max_vus params) (rp_request_timeout params) with
            | Err e => (s, (CS_Failed, WorkerError_to_string e))
            | Ok plan => worker_start_run params plan (cr_test_run_id command) now_secs s
            end
        end
    | CT_Stop => (set_state WS_Ready (stop_run s), (CS_Completed, ""%string))
    | CT_Abort => (set_state WS_Ready (cancel_run s), (CS_Completed, ""%string))
    | CT_Unspecified => (s, (CS_Rejected, "unspecified command"%string))
    end in
  (s, mkCommandResponse (cr_command_id command) (rp_worker_id params) (CommandStatus_to_i32 status)
        error_message).

(** ** Heartbeats *)

Definition heartbeat_request (params : RunParams) (s : Shared) : HeartbeatRequest :=
  mkHeartbeatRequest (rp_worker_id params) (ProtoWorkerState_to_i32 (as_proto (sm_state (sh_state s))))
    (sh_active_vus s) "".

Definition handle_directive (response : HeartbeatResponse) (s : Shared) : Shared * result WorkerError unit :=
  match default HD_Unspecified (HeartbeatDirective_try_from (hr_directive response)) with
  | HD_Abort => (cancel_run s, Ok ())
  | HD_Synchronize => (s, Err (WE_Disconnected "synchronize requested"))
  | HD_Continue | HD_Unspecified => (s, Ok ())
  end.

(** ** Runs of the worker *)

Inductive WorkerEvent :=
  | WECommand (command : CommandRequest) (now_secs : Z)
  | WEDirective (response : HeartbeatResponse)
  | WETaskDone (id : Z).

Definition daemon_step (params : RunParams) (s : Shared) (e : WorkerEvent) : Shared :=
  match e with
  | WECommand c now => (handle_command params c now s).1
  | WEDirective r => (handle_directive r s).1
  | WETaskDone id => complete_task id s
  end.

(** The state and the acknowledgements of a sequence of events. *)
Fixpoint daemon_run (params : RunParams) (s : Shared) (evs : list WorkerEvent)
  : Shared * list CommandResponse :=
  match evs with
  | [] => (s, [])
  | WECommand c now :: evs =>
      let (s, r) := handle_command params c now s in
      let (s, rs) := daemon_run params s evs in (s, r :: rs)
  | e :: evs => daemon_run params (daemon_step params s e) evs
  end.
End commands.

(** ** Registration and reconnect *)

Definition registration_request (params : RunParams) (hostname ip version : string)
    (labels : gmap string string) (cap : ResourceCapacity) (now : Timestamp) : RegisterWorkerRequest :=
  mkRegisterWorkerRequest (rp_worker_id params) hostname ip (rp_max_vus params) (Some cap) version
    labels (Some now).

(** The reply to [RegisterWorker]. *)
Definition registration_outcome (response : RegisterWorkerResponse)
  : result WorkerError ClusterConfiguration :=
  if rr_status response =? REGISTRATION_ACCEPTED
  then Ok (default ClusterConfiguration_default (rr_cluster_config response))
  else Err (WE_Config ("registration rejected: " ++ rr_message response)).

Definition session_heartbeat_interval (cluster : ClusterConfiguration) (c : WorkerConfig) : duration :=
  if cc_heartbeat_interval_ms cluster >? 0 then from_millis (cc_heartbeat_interval_ms cluster)
  else from_millis (wc_heartbeat_interval_ms c).

(** [Worker::new]. *)
Definition Worker_params (host : option string) (parallelism : option Z) (c : WorkerConfig)
  : result WorkerError RunParams :=
  _ ← validate c;
  _ ← labels_map c;
  Ok (mkRunParams (resolved_worker_id host c) (resolved_max_vus parallelism c)
        (from_millis (wc_metric_window_ms c)) (from_millis (wc_request_timeout_ms c))).

(** One round of [Worker::run]: whether shutdown was seen before the session,
    the session's outcome, whether shutdown was seen after it and during the
    backoff sleep, and the random factor of the jitter. *)
Record Round := mkRound {
  rd_shutdown_before : bool;
  rd_session : result WorkerError unit;
  rd_shutdown_after : bool;
  rd_random : f64;
  rd_shutdown_sleeping : bool;
}.

(** The delays slept, and whether the daemon has returned (always [Ok]). *)
Fixpoint run_loop (b : Backoff) (rounds : list Round) : list (option duration) * bool :=
  match rounds with
  | [] => ([], false)
  | r :: rounds =>
      if rd_shutdown_before r then ([], true)
      else match rd_session r with
           | Ok _ => ([], true)
           | Err _ =>
               if rd_shutdown_after r then ([], true)
               else
                 let (b, delay) := next_delay (rd_random r) b in
                 if rd_shutdown_sleeping r then ([delay], true)
                 else let (delays, fin) := run_loop b rounds in (delay :: delays, fin)
           end
  end.

(** ** The channels of one run

    The metric channel holds at most [cap] metrics; the virtual users, counted
    by what they are doing, either run an iteration or wait to send its metric;
    the orchestrator collects until the token is cancelled, the channel closes
    or the upload has failed, and then awaits the virtual users while still
    holding the receiver of the metric channel. *)

Section orchestrator.
Context (cap : nat) (limited : bool).

Inductive OrchPhase := Collecting | AwaitVus | RunFinished.

Record Orch := mkOrch {
  or_phase : OrchPhase;
  or_queue : nat;
  or_idle : nat;
  or_sending : nat;
  or_cancelled : bool;
  or_upload_ok : bool;
}.

Definition Orch_new (virtual_users : nat) : Orch := mkOrch Collecting 0 virtual_users 0 false true.

Inductive orch_step : Orch -> Orch -> Prop :=
  | step_cancel ph q i n c u : orch_step (mkOrch ph q i n c u) (mkOrch ph q i n true u)
  | step_upload_fails ph q i n c u : orch_step (mkOrch ph q i n c u) (mkOrch ph q i n c false)
  (** a virtual user finds no reason to stop and runs an iteration *)
  | step_iterate ph q i n u : orch_step (mkOrch ph q (S i) n false u) (mkOrch ph q i (S n) false u)
  (** a virtual user sees the token or the elapsed duration *)
  | step_vu_stops ph q i n c u :
      c = true \/ limited = true -> orch_step (mkOrch ph q (S i) n c u) (mkOrch ph q i n c u)
  (** [metric_tx.send(metric).await] with room in the channel *)
  | step_vu_sends ph q i n c u :
      ph <> RunFinished -> (q < cap)%nat ->
      orch_step (mkOrch ph q i (S n) c u) (mkOrch ph (S q) (S i) n c u)
  | step_collect q i n c u : orch_step (mkOrch Collecting (S q) i n c u) (mkOrch Collecting q i n c u)
  | step_break_cancelled q i n u : orch_step (mkOrch Collecting q i n true u) (mkOrch AwaitVus q i n true u)
  | step_break_closed c u : orch_step (mkOrch Collecting 0 0 0 c u) (mkOrch AwaitVus 0 0 0 c u)
  | step_break_upload q i n c : orch_step (mkOrch Collecting q i n c false) (mkOrch AwaitVus q i n c false)
  | step_finish q c u : orch_step (mkOrch AwaitVus q 0 0 c u) (mkOrch RunFinished q 0 0 c u).

(** The channel is full, nobody reads it, and a virtual user waits to send. *)
Definition stuck (s : Orch) : Prop :=
  or_phase s = AwaitVus /\ or_queue s = cap /\ (0 < or_sending s)%nat.

Lemma stuck_step s s' : stuck s -> orch_step s s' -> stuck s'.
Proof. intros (Hp & Hq & Hn) Hs. destruct Hs; unfold stuck in *; simpl in *; split_and!; (done || lia). Qed.

Lemma stuck_forever s s' : stuck s -> rtc orch_step s s' -> stuck s'.
Proof. intros Hs Hr. induction Hr; eauto using stuck_step. Qed.

(** With a live token, the virtual users fill the channel. *)
Lemma fill_channel q i n :
  (q <= cap)%nat ->
  rtc orch_step (mkOrch AwaitVus q (S i) n false false) (mkOrch AwaitVus cap i (S n) false false).
Proof.
  intros Hq. remember (cap - q)%nat as k eqn:Hk. revert q Hq Hk.
  induction k as [|k IH]; intros q Hq Hk.
  - assert (q = cap) as -> by lia. apply rtc_once. constructor.
  - eapply rtc_l; [apply step_iterate|]. eapply rtc_l; [apply step_vu_sends; [done|lia]|].
    apply IH; lia.
Qed.

(** Room for every metric still to be sent. *)
Definition has_room (s : Orch) : Prop :=
  or_phase s <> Collecting /\ or_cancelled s = true /\ (or_queue s + or_sending s <= cap)%nat.

Lemma has_room_step s s' : has_room s -> orch_step s s' -> has_room s'.
Proof. intros (Hp & Hc & Hq) Hs. destruct Hs; unfold has_room in *; simpl in *; split_and!; (done || lia). Qed.

Lemma drain_vus q i n c u :
  c = true -> (q + n <= cap)%nat ->
  exists q', rtc orch_step (mkOrch AwaitVus q i n c u) (mkOrch AwaitVus q' 0 0 c u).
Proof.
  intros ->. revert q i. induction n as [|n IHn]; intros q i Hq.
  - induction i as [|i IHi]; [by exists q|]. destruct IHi as [q' Hr]. exists q'.
    eapply rtc_l; [apply step_vu_stops; by left|done].
  - destruct (IHn (S q) (S i) ltac:(lia)) as [q' Hr]. exists q'.
    eapply rtc_l; [apply step_vu_sends; [done|lia]|done].
Qed.
End orchestrator.

Definition METRIC_CHANNEL_CAPACITY : Z := 8192.
Definition BATCH_CHANNEL_CAPACITY : Z := 64.

(** ** Invariant of the shared state *)

Definition worker_inv (s : Shared) : Prop :=
  (sm_state (sh_state s) = WS_Ready \/ sm_state (sh_state s) = WS_Running) /\
  (forall id, sh_run s = Some id -> is_Some (sh_tasks s !! id)) /\
  (forall id, is_Some (sh_tasks s !! id) -> id < sh_next s).

Lemma set_ready s :
  (sm_state (sh_state s) = WS_Ready \/ sm_state (sh_state s) = WS_Running) ->
  set_state WS_Ready s = with_state (mkWorkerStateMachine WS_Ready) s.
Proof. unfold set_state. destruct (sh_state s) as [[]]; simpl; intuition discriminate. Qed.

Lemma set_running s :
  (sm_state (sh_state s) = WS_Ready \/ sm_state (sh_state s) = WS_Running) ->
  set_state WS_Running s = with_state (mkWorkerStateMachine WS_Running) s.
Proof. unfold set_state. destruct (sh_state s) as [[]]; simpl; intuition discriminate. Qed.

Lemma cancel_run_inv s : worker_inv s -> worker_inv (cancel_run s).
Proof.
  intros Hi. pose proof Hi as (Hs & Hr & Ht). unfold cancel_run.
  destruct (sh_run s) as [id|] eqn:E; [|done]. split_and!; simpl; [done|..].
  - intros id' Hid. rewrite E in Hid. injection Hid as <-. rewrite lookup_alter_eq, fmap_is_Some. auto.
  - intros id'. rewrite lookup_alter. case_decide; subst; rewrite ?fmap_is_Some; apply Ht.
Qed.

Lemma complete_task_inv id s : worker_inv s -> worker_inv (complete_task id s).
Proof.
  intros (Hs & Hr & Ht). unfold complete_task. destruct (sh_tasks s !! id) as [t|] eqn:E; [|done].
  destruct (tk_done t); [done|]. rewrite set_ready by done. split_and!; simpl; [by left|..].
  - intros id' Hid. rewrite lookup_insert_is_Some'. right. auto.
  - intros id'. rewrite lookup_insert_is_Some'. intros [<-|?]; eauto.
Qed.

Lemma stop_run_inv s : worker_inv s -> worker_inv (stop_run s) /\ sh_run (stop_run s) = None.
Proof.
  intros Hi. pose proof Hi as (Hs & Hr & Ht). unfold stop_run.
  destruct (sh_run s) as [id|] eqn:E; [|by split; [split_and!; simpl; rewrite ?E|]].
  set (s1 := with_tasks (alter cancel_task id (sh_tasks s)) (with_slot None s)).
  assert (Hinv : worker_inv s1).
  { split_and!; simpl; [done|done|]. intros id'. rewrite lookup_alter.
    case_decide; subst; rewrite ?fmap_is_Some; apply Ht. }
  apply (complete_task_inv id) in Hinv as (H1 & H2 & H3).
  assert (Hslot : sh_run (complete_task id s1) = None).
  { unfold complete_task. destruct (sh_tasks s1 !! id) as [t|]; [|done]. by destruct (tk_done t). }
  split; [|done]. by split_and!.
Qed.

Section daemon.
Context `{HttpTypes}.
Implicit Types (params : RunParams) (s : Shared).

Lemma start_run_inv params plan run now s :
  worker_inv s -> worker_inv (worker_start_run params plan run now s).1.
Proof.
  intros (Hs & Hr & Ht). unfold worker_start_run, begin_run. simpl.
  assert (Hnew : forall id, is_Some (<[sh_next s := mkTask (resolve_test_run_id params now run)
            (wrap32 (ep_virtual_users plan)) false false]> (sh_tasks s) !! id) -> id < sh_next s + 1).
  { intros id. rewrite lookup_insert_is_Some'. intros [<-|Hid]; [lia|]. apply Ht in Hid. lia. }
  destruct (sh_run s) as [id|] eqn:E; simpl.
  - split_and!; simpl; [done| |done]. intros id' Hid'. rewrite lookup_insert_is_Some'. right.
    apply Hr. congruence.
  - rewrite set_running by done. split_and!; simpl; [by right| |done].
    intros id' [= <-]. rewrite lookup_insert_eq. eauto.
Qed.

Lemma handle_command_inv params c now s :
  worker_inv s -> worker_inv (handle_command params c now s).1.
Proof.
  intros Hs. unfold handle_command. destruct (default _ _); simpl.
  - done.
  - destruct (cr_config c) as [config|]; [|done]. destruct (from_proto _ _ _) as [plan|]; [|done].
    pose proof (start_run_inv params plan (cr_test_run_id c) now s Hs) as Hi.
    by destruct (worker_start_run _ _ _ _ _) as [s' [st msg]].
  - destruct (stop_run_inv s Hs) as [Hi _]. rewrite set_ready by apply Hi.
    destruct Hi as (H1 & H2 & H3). split_and!; simpl; [by left|done|done].
  - pose proof (cancel_run_inv s Hs) as Hi. rewrite set_ready by apply Hi.
    destruct Hi as (H1 & H2 & H3). split_and!; simpl; [by left|done|done].
Qed.

Lemma daemon_step_inv params s e : worker_inv s -> worker_inv (daemon_step params s e).
Proof.
  intros Hs. destruct e as [c now|r|id]; simpl.
  - by apply handle_command_inv.
  - unfold handle_directive. destruct (default _ _); simpl; auto using cancel_run_inv.
  - by apply complete_task_inv.
Qed.

Lemma daemon_run_inv params evs s : worker_inv s -> worker_inv (daemon_run params s evs).1.
Proof.
  revert s. induction evs as [|e evs IH]; intros s Hs; [done|].
  pose proof (IH _ (daemon_step_inv params s e Hs)) as Hi. destruct e; simpl in *; try done.
  destruct (handle_command params command now_secs s) as [s1 r]. simpl in *.
  by destruct (daemon_run params s1 evs).
Qed.

Lemma new_inv : worker_inv Shared_new.
Proof. split_and!; simpl; [by left|done|]. intros id [t Ht]. by rewrite lookup_empty in Ht. Qed.

(** A valid START command and its plan. *)
Definition is_start params (c : CommandRequest) (plan : ExecutionPlan) : Prop :=
  cr_command c = CommandType_to_i32 CT_Start /\
  exists config, cr_config c = Some config /\
    from_proto config (rp_max_vus params) (rp_request_timeout params) = Ok plan.

Lemma handle_start params c plan now s :
  is_start params c plan ->
  handle_command params c now s =
    let '(s', (st, msg)) := worker_start_run params plan (cr_test_run_id c) now s in
    (s', mkCommandResponse (cr_command_id c) (rp_worker_id params) (CommandStatus_to_i32 st) msg).
Proof.
  intros (Hk & config & Hc & Hp). unfold handle_command. rewrite Hk, CommandType_try_from_to_i32.
  simpl. by rewrite Hc, Hp.
Qed.

(** Whether an event is a STOP command. *)
Definition is_stop (e : WorkerEvent) : bool :=
  match e with
  | WECommand c _ => bool_decide (default CT_Unspecified (CommandType_try_from (cr_command c)) = CT_Stop)
  | _ => false
  end.

Lemma complete_task_slot id s : sh_run (complete_task id s) = sh_run s.
Proof. unfold complete_task. destruct (sh_tasks s !! id) as [t|]; [|done]. by destruct (tk_done t). Qed.

Lemma cancel_run_slot s : sh_run (cancel_run s) = sh_run s.
Proof. unfold cancel_run. by destruct (sh_run s) eqn:E. Qed.

(** Only STOP empties the slot, and while it is full no START is accepted. *)
Lemma full_slot_step params c now s id :
  sh_run s = Some id -> is_stop (WECommand c now) = false ->
  sh_run (handle_command params c now s).1 = Some id /\
  cp_status (handle_command params c now s).2 <> CommandStatus_to_i32 CS_Acknowledged.
Proof.
  intros Hs Hstop. unfold handle_command. simpl in Hstop. apply bool_decide_eq_false in Hstop.
  destruct (default _ _); simpl; try done.
  - destruct (cr_config c) as [config|]; [|done]. destruct (from_proto _ _ _) as [plan|]; [|done].
    unfold worker_start_run, begin_run. simpl. by rewrite Hs.
  - by rewrite cancel_run_slot.
Qed.

Lemma daemon_run_full_slot params evs s id :
  sh_run s = Some id -> Forall (fun e => is_stop e = false) evs ->
  sh_run (daemon_run params s evs).1 = Some id /\
  Forall (fun r => cp_status r <> CommandStatus_to_i32 CS_Acknowledged) (daemon_run params s evs).2.
Proof.
  intros Hs Hev. revert s Hs. induction Hev as [|e evs He Hev IH]; intros s Hs; [done|].
  destruct e as [c now|r|id']; simpl.
  - destruct (full_slot_step params c now s id Hs He) as [H1 H2].
    destruct (handle_command params c now s) as [s1 r]. simpl in *.
    destruct (IH s1 H1) as [H3 H4]. destruct (daemon_run params s1 evs). simpl in *.
    split; [done|by constructor].
  - apply IH. unfold handle_directive. destruct (default _ _); simpl; rewrite ?cancel_run_slot; done.
  - apply IH. by rewrite complete_task_slot.
Qed.
End daemon.

(** A run that is executing and has not been asked to stop. *)
Definition executing (id : Z) (s : Shared) : Prop :=
  exists t, sh_tasks s !! id = Some t /\ tk_cancelled t = false /\ tk_done t = false.

Lemma complete_task_other id id' s :
  id <> id' -> sh_tasks (complete_task id s) !! id' = sh_tasks s !! id'.
Proof.
  intros Hne. unfold complete_task. destruct (sh_tasks s !! id) as [t|]; [|done].
  destruct (tk_done t); [done|]. simpl. by rewrite lookup_insert_ne.
Qed.

Lemma complete_task_same id t s :
  sh_tasks s !! id = Some t -> sh_tasks (complete_task id s) !! id = Some (finish_task t).
Proof.
  intros Ht. unfold complete_task. rewrite Ht. destruct (tk_done t) eqn:E.
  - rewrite Ht. f_equal. destruct t. simpl in *. by subst.
  - simpl. by rewrite lookup_insert_eq.
Qed.

Section claims.
Context `{HttpTypes}.
Implicit Types (params : RunParams) (s : Shared).

Lemma handle_command_ids params c now s :
  cp_worker_id (handle_command params c now s).2 = rp_worker_id params /\
  cp_command_id (handle_command params c now s).2 = cr_command_id c.
Proof. unfold handle_command. repeat case_match; done. Qed.

(** The worker after an accepted START. *)
Definition started params (plan : ExecutionPlan) (run : string) (now : Z) s : Shared :=
  let vus := wrap32 (ep_virtual_users plan) in
  mkShared (mkWorkerStateMachine WS_Running) vus (Some (sh_next s))
    (<[sh_next s := mkTask (resolve_test_run_id params now run) vus false false]> (sh_tasks s))
    (sh_next s + 1).

Lemma start_idle params plan run now s :
  (sm_state (sh_state s) = WS_Ready \/ sm_state (sh_state s) = WS_Running) -> sh_run s = None ->
  worker_start_run params plan run now s = (started params plan run now s, (CS_Acknowledged, ""%string)).
Proof.
  intros Hs Hr. unfold worker_start_run, begin_run. simpl. rewrite Hr. by rewrite set_running.
Qed.

(** The worker after a rejected START: the task has been spawned. *)
Lemma start_busy params plan run now s id :
  sh_run s = Some id ->
  worker_start_run params plan run now s =
    ((spawn_run (resolve_test_run_id params now run) (wrap32 (ep_virtual_users plan)) s).1,
     (CS_Rejected, "a run is already in progress"%string)).
Proof. intros Hr. unfold worker_start_run, begin_run. simpl. by rewrite Hr. Qed.

Lemma handle_stop params stop now s :
  default CT_Unspecified (CommandType_try_from (cr_command stop)) = CT_Stop ->
  handle_command params stop now s =
    (set_state WS_Ready (stop_run s),
     mkCommandResponse (cr_command_id stop) (rp_worker_id params) (CommandStatus_to_i32 CS_Completed) "").
Proof. intros Hk. unfold handle_command. by rewrite Hk. Qed.

Lemma handle_abort params stop now s :
  default CT_Unspecified (CommandType_try_from (cr_command stop)) = CT_Abort ->
  handle_command params stop now s =
    (set_state WS_Ready (cancel_run s),
     mkCommandResponse (cr_command_id stop) (rp_worker_id params) (CommandStatus_to_i32 CS_Completed) "").
Proof. intros Hk. unfold handle_command. by rewrite Hk. Qed.

(** Invariant of the daemon: under every sequence of commands, heartbeat
    directives and run completions, the advertised state is [Ready] or
    [Running] (the worker never drains or faults), the run slot names a spawned
    task, and every command is acknowledged exactly once, in order, by this
    worker and under its own command id. *)
Theorem daemon_invariant params evs :
  worker_inv (daemon_run params Shared_new evs).1 /\
  (fun r => (cp_worker_id r, cp_command_id r)) <$> (daemon_run params Shared_new evs).2
    = omap (fun e => match e with
                     | WECommand c _ => Some (rp_worker_id params, cr_command_id c)
                     | _ => None
                     end) evs.
Proof.
  split; [apply daemon_run_inv, new_inv|]. generalize Shared_new as s.
  induction evs as [|[c now|r|id] evs IH]; intros s; csimpl; [done| |apply IH|apply IH].
  destruct (handle_command_ids params c now s) as [Hw Hc].
  destruct (handle_command params c now s) as [s1 r]. simpl in *.
  specialize (IH s1). destruct (daemon_run params s1 evs) as [s2 rs]. csimpl in *.
  by rewrite IH, Hw, Hc.
Qed.

(** START on an idle worker: the run is accepted, its task executes under
    the command's run id, and the worker advertises [Running] with the plan's
    number of virtual users; STOP then cancels that run, awaits it, and leaves
    the worker [Ready], with no virtual users and able to start again. *)
Theorem start_then_stop params c plan now s stop :
  worker_inv s -> sh_run s = None -> is_start params c plan ->
  default CT_Unspecified (CommandType_try_from (cr_command stop)) = CT_Stop ->
  let (s1, r1) := handle_command params c now s in
  let (s2, r2) := handle_command params stop now s1 in
  cp_status r1 = CommandStatus_to_i32 CS_Acknowledged /\
  executing (sh_next s) s1 /\ sh_run s1 = Some (sh_next s) /\
  sm_state (sh_state s1) = WS_Running /\ sh_active_vus s1 = wrap32 (ep_virtual_users plan) /\
  cp_status r2 = CommandStatus_to_i32 CS_Completed /\
  sm_state (sh_state s2) = WS_Ready /\ sh_active_vus s2 = 0 /\ sh_run s2 = None /\
  (exists t, sh_tasks s2 !! sh_next s = Some t /\ tk_cancelled t = true /\ tk_done t = true).
Proof.
  intros Hi Hslot Hst Hstop. rewrite (handle_start params c plan now s Hst).
  pose proof (start_run_inv params plan (cr_test_run_id c) now s Hi) as Hi1.
  rewrite start_idle in * by (done || apply Hi). cbn [fst] in Hi1.
  set (s1 := started _ _ _ _ s) in *. rewrite handle_stop by done.
  destruct (stop_run_inv s1 Hi1) as [Hi2 Hs2]. rewrite set_ready by apply Hi2.
  split_and!; try done.
  - eexists. split; [apply lookup_insert_eq|done].
  - exists (finish_task (cancel_task (mkTask (resolve_test_run_id params now (cr_test_run_id c))
              (wrap32 (ep_virtual_users plan)) false false))).
    split; [|done]. simpl. apply complete_task_same. simpl. by rewrite lookup_alter_eq, lookup_insert_eq.
Qed.

(** A finished run keeps its slot: only STOP empties it, so after an accepted
    START no later START is ever accepted without a STOP in between, even when
    the run has completed and the worker advertises [Ready] with no virtual
    users. *)
Theorem finished_run_blocks_start params c plan now evs :
  is_start params c plan -> Forall (fun e => is_stop e = false) evs ->
  let (s1, r1) := handle_command params c now Shared_new in
  let s2 := daemon_step params s1 (WETaskDone 0) in
  cp_status r1 = CommandStatus_to_i32 CS_Acknowledged /\
  hb_state (heartbeat_request params s2) = ProtoWorkerState_to_i32 PWS_Ready /\
  hb_active_vus (heartbeat_request params s2) = 0 /\
  (exists t, sh_tasks s2 !! 0 = Some t /\ tk_done t = true) /\
  sh_run s2 = Some 0 /\
  Forall (fun r => cp_status r <> CommandStatus_to_i32 CS_Acknowledged) (daemon_run params s2 evs).2.
Proof.
  intros Hst Hev. rewrite (handle_start params c plan now Shared_new Hst).
  rewrite start_idle by (done || by left). cbv zeta. split_and!; try done.
  - eexists. split; [apply complete_task_same, lookup_insert_eq|done].
  - by apply (daemon_run_full_slot params evs _ 0).
Qed.

(** A rejected START still runs: while a run occupies the slot, START is
    rejected but its task has been spawned and executes, it is not the task of
    the slot, and neither STOP nor ABORT cancels it. *)
Theorem rejected_start_executes params c plan now s id stop :
  worker_inv s -> sh_run s = Some id -> is_start params c plan ->
  default CT_Unspecified (CommandType_try_from (cr_command stop)) = CT_Stop \/
  default CT_Unspecified (CommandType_try_from (cr_command stop)) = CT_Abort ->
  let (s1, r1) := handle_command params c now s in
  let (s2, r2) := handle_command params stop now s1 in
  cp_status r1 = CommandStatus_to_i32 CS_Rejected /\
  cp_status r2 = CommandStatus_to_i32 CS_Completed /\
  sh_run s1 = Some id /\ id <> sh_next s /\
  executing (sh_next s) s1 /\ executing (sh_next s) s2.
Proof.
  intros Hi Hslot Hst Hstop. rewrite (handle_start params c plan now s Hst).
  assert (Hne : id <> sh_next s).
  { destruct Hi as (_ & Hr & Ht). specialize (Ht id (Hr id Hslot)). lia. }
  rewrite (start_busy _ _ _ _ _ id) by done.
  set (s1 := (spawn_run _ _ s).1).
  assert (Ht : sh_tasks s1 !! sh_next s = Some (mkTask (resolve_test_run_id params now (cr_test_run_id c))
                 (wrap32 (ep_virtual_users plan)) false false)) by apply lookup_insert_eq.
  assert (Hs1 : sh_run s1 = Some id) by done.
  destruct Hstop as [Hstop|Hstop]; [rewrite handle_stop by done|rewrite handle_abort by done];
    (split_and!; try done; [by eexists|]);
    exists (mkTask (resolve_test_run_id params now (cr_test_run_id c))
              (wrap32 (ep_virtual_users plan)) false false); (split; [|done]).
  - unfold stop_run. rewrite Hs1. simpl. rewrite complete_task_other by done. simpl.
    by rewrite lookup_alter_ne.
  - unfold cancel_run. rewrite Hs1. simpl. by rewrite lookup_alter_ne.
Qed.
End claims.

(** A run can hang: if the telemetry upload fails, the orchestrator stops
    reading the metric channel and awaits its virtual users, which fill the
    channel and then wait for room for ever; from there no step (cancellation
    included) ever finishes the run, so that a STOP awaiting it never
    returns. *)
Theorem upload_failure_hangs cap limited virtual_users :
  exists s, rtc (orch_step cap limited) (Orch_new (S virtual_users)) s /\
    forall s', rtc (orch_step cap limited) s s' -> or_phase s' = AwaitVus.
Proof.
  exists (mkOrch AwaitVus cap virtual_users 1 false false). split.
  - eapply rtc_l; [apply step_upload_fails|]. eapply rtc_l; [apply step_break_upload|].
    apply fill_channel. lia.
  - intros s' Hr. eapply (stuck_forever cap limited) in Hr; [by destruct Hr|].
    split_and!; simpl; [done|done|lia].
Qed.

(** Cancellation is clean when there is room: once the orchestrator has
    stopped collecting after a cancellation, and the channel has room for the
    metrics the virtual users still have to send, the run finishes: this
    condition is kept by every step, and from every state satisfying it the
    finished state is reachable. *)
Theorem cancellation_finishes cap limited s s' :
  has_room cap s -> rtc (orch_step cap limited) s s' ->
  exists s'', rtc (orch_step cap limited) s' s'' /\ or_phase s'' = RunFinished.
Proof.
  intros Hs Hr. assert (Hs' : has_room cap s').
  { induction Hr; eauto using has_room_step. }
  clear s Hs Hr. destruct s' as [[| |] q i n c u], Hs' as (Hp & Hc & Hq); simpl in *; [done| |].
  - destruct (drain_vus cap limited q i n c u Hc Hq) as [q' Hr]. exists (mkOrch RunFinished q' 0 0 c u).
    split; [|done]. eapply rtc_r; [exact Hr|constructor].
  - exists (mkOrch RunFinished q i n c u). split; [constructor|done].
Qed.

Lemma run_loop_returns b rounds :
  (run_loop b rounds).2 = true <->
  Exists (fun r => rd_shutdown_before r = true \/ is_ok (rd_session r) = true \/
                   rd_shutdown_after r = true \/ rd_shutdown_sleeping r = true) rounds.
Proof.
  revert b. induction rounds as [|r rounds IH]; intros b; simpl.
  { rewrite Exists_nil. done. }
  rewrite Exists_cons, <- (IH (next_delay (rd_random r) b).1).
  destruct (rd_shutdown_before r); [naive_solver|].
  destruct (rd_session r) as [|e]; simpl; [naive_solver|].
  destruct (rd_shutdown_after r); [naive_solver|].
  destruct (rd_shutdown_sleeping r); [naive_solver|].
  destruct (run_loop _ rounds). naive_solver.
Qed.

Lemma run_loop_delays b rounds i d :
  0 <= bo_attempt b -> bo_attempt b + Z.of_nat (length rounds) <= U32_MAX ->
  (run_loop b rounds).1 !! i = Some d ->
  exists r, rounds !! i = Some r /\
    d = (d0 ← delay_for b (bo_attempt b + Z.of_nat i);
         if bo_jitter b then from_secs_f64 (f64_mul (as_secs_f64 d0) (rd_random r)) else Some d0).
Proof.
  revert b i. induction rounds as [|r rounds IH]; intros b i Hb Hm; simpl; [done|].
  simpl in Hm. destruct (rd_shutdown_before r); [done|]. destruct (rd_session r) as [|e]; [done|].
  destruct (rd_shutdown_after r); [done|].
  assert (Hd : (next_delay (rd_random r) b).2 = (d0 ← delay_for b (bo_attempt b + Z.of_nat 0);
    if bo_jitter b then from_secs_f64 (f64_mul (as_secs_f64 d0) (rd_random r)) else Some d0)).
  { unfold next_delay. rewrite Z.add_0_r. destruct (bo_jitter b); [reflexivity|].
    by destruct (delay_for b (bo_attempt b)). }
  destruct (rd_shutdown_sleeping r).
  { destruct i as [|i]; simpl; [|done]. intros [= <-]. exists r. split; [done|]. exact Hd. }
  specialize (IH (next_delay (rd_random r) b).1). cbn [next_delay fst bo_attempt bo_jitter] in IH.
  assert (Ha : u32_saturating_add (bo_attempt b) 1 = bo_attempt b + 1)
    by (unfold u32_saturating_add; lia).
  rewrite Ha in *. destruct (run_loop _ rounds) as [ds fin]. simpl in *.
  destruct i as [|i]; simpl; [intros [= <-]; exists r; split; [done|exact Hd]|].
  intros Hi. destruct (IH i ltac:(lia) ltac:(lia) Hi) as (r' & Hr' & ->). exists r'. split; [done|].
  replace (bo_attempt b + 1 + Z.of_nat i) with (bo_attempt b + Z.of_nat (S i)) by lia. reflexivity.
Qed.

(** The daemon reconnects until told to stop: [Worker::run] returns exactly
    when it sees the shutdown token or a session ends cleanly, and its [i]-th
    sleep is the [i]-th delay of the reconnect schedule (500 ms doubling to
    30 s) scaled by the jitter; the schedule is never reset, however long the
    sessions in between lasted. *)
Theorem worker_reconnects rounds :
  Z.of_nat (length rounds) <= U32_MAX ->
  ((run_loop reconnect_backoff rounds).2 = true <->
   Exists (fun r => rd_shutdown_before r = true \/ is_ok (rd_session r) = true \/
                    rd_shutdown_after r = true \/ rd_shutdown_sleeping r = true) rounds) /\
  (forall i d, (run_loop reconnect_backoff rounds).1 !! i = Some d ->
     exists r, rounds !! i = Some r /\
       d = (d0 ← delay_for reconnect_backoff (Z.of_nat i);
            from_secs_f64 (f64_mul (as_secs_f64 d0) (rd_random r)))).
Proof.
  intros Hm. split; [apply run_loop_returns|]. intros i d Hd.
  destruct (run_loop_delays reconnect_backoff rounds i d) as (r & Hr & ->); [done|simpl; lia|done|].
  by exists r.
Qed.

(** ** Witnesses *)

Definition sample_params : RunParams := mkRunParams "w1" 8 (from_millis 1000) (from_secs 10).
Definition sample_start : CommandRequest := mkCommandRequest 1 "c1" "run" (Some sample_test) 0.
Definition sample_stop : CommandRequest := mkCommandRequest 2 "c2" "run" None 0.

Lemma sample_is_start : is_start sample_params sample_start sample_plan.
Proof. split; [done|]. exists sample_test. split; [done|]. by vm_compute. Qed.

Lemma start_then_stop_witness :
  let (s1, r1) := handle_command sample_params sample_start 7 Shared_new in
  sm_state (sh_state s1) = WS_Running /\ sh_active_vus s1 = 8.
Proof.
  pose proof (start_then_stop sample_params sample_start sample_plan 7 Shared_new sample_stop
                new_inv eq_refl sample_is_start eq_refl) as Hs.
  destruct (handle_command sample_params sample_start 7 Shared_new) as [s1 r1].
  destruct (handle_command sample_params sample_stop 7 s1) as [s2 r2].
  destruct Hs as (_ & _ & _ & H1 & H2 & _). split; [exact H1|exact H2].
Defined.

Lemma finished_run_blocks_start_witness :
  let s1 := (handle_command sample_params sample_start 7 Shared_new).1 in
  let s2 := daemon_step sample_params s1 (WETaskDone 0) in
  hb_active_vus (heartbeat_request sample_params s2) = 0 /\
  cp_status (handle_command sample_params sample_start 9 s2).2 = CommandStatus_to_i32 CS_Rejected.
Proof.
  pose proof (finished_run_blocks_start sample_params sample_start sample_plan 7 []
                sample_is_start (Forall_nil_2 _)) as Hs.
  split; [|by vm_compute].
  destruct (handle_command sample_params sample_start 7 Shared_new) as [s1 r1]. apply Hs.
Defined.

Lemma rejected_start_executes_witness :
  let s := (handle_command sample_params sample_start 7 Shared_new).1 in
  let (s1, r1) := handle_command sample_params sample_start 8 s in
  cp_status r1 = CommandStatus_to_i32 CS_Rejected /\ executing 1 s1.
Proof.
  pose proof (rejected_start_executes sample_params sample_start sample_plan 8
    (handle_command sample_params sample_start 7 Shared_new).1 0 sample_stop
    (handle_command_inv sample_params sample_start 7 Shared_new new_inv) eq_refl sample_is_start
    (or_introl eq_refl)) as Hs.
  cbv zeta. destruct (handle_command sample_params sample_start 8 _) as [s1 r1].
  destruct (handle_command sample_params sample_stop 8 s1) as [s2 r2].
  destruct Hs as (H1 & _ & _ & _ & H2 & _). split; [exact H1|exact H2].
Defined.

Lemma cancellation_finishes_witness :
  exists s'', rtc (orch_step 4 true) (mkOrch AwaitVus 1 2 2 true true) s'' /\ or_phase s'' = RunFinished.
Proof.
  apply (cancellation_finishes 4 true (mkOrch AwaitVus 1 2 2 true true)); [|constructor].
  split_and!; simpl; [done|done|lia].
Defined.

Lemma worker_reconnects_witness :
  (run_loop reconnect_backoff
     [mkRound false (Err (WE_Rpc "down")) false f64_one false; mkRound true (Ok ()) false f64_one false]).2
  = true.
Proof.
  apply (worker_reconnects
    [mkRound false (Err (WE_Rpc "down")) false f64_one false; mkRound true (Ok ()) false f64_one false]).
  - by vm_compute.
  - right. left. by left.
Defined.
