(* ===== verification/Daemon.v ===== *)
(** What the daemons take from their host: locks that a panicking holder leaves
    poisoned, the wall clock, and the listening socket
    ([src/distributed/worker.rs], [src/distributed/master/run.rs],
    [src/distributed/master/server.rs]).

    [Worker] and [WorkerSession] treat the two mutexes of [Shared] as plain
    fields.  Here they are mutexes with a poison flag and every operation goes
    through [lock_or_recover]; a holder that panics leaves the value as far as it
    got with it.  The refinement theorem says that the plain model, in which the
    interrupted writes are ordinary writes, is what an observer sees: recovery adds
    nothing to them and loses nothing of them. *)

From S2P Require Import Prelude RustStr Float Proto WorkerState WorkerConfig Executor Worker Master.

#[local] Open Scope Z_scope.

(** ** Mutexes *)

Record Mutex (A : Type) := mkMutex { mx_value : A; mx_poisoned : bool }.
Arguments mkMutex {A} _ _.
Arguments mx_value {A} _.
Arguments mx_poisoned {A} _.

Definition Mutex_new {A} (x : A) : Mutex A := mkMutex x false.

(** [lock()]: the value, in the error too. *)
Definition mutex_lock {A} (m : Mutex A) : A + A := if mx_poisoned m then inr (mx_value m) else inl (mx_value m).

Definition lock_or_recover {A} (m : Mutex A) : A * Mutex A :=
  match mutex_lock m with
  | inl guard => (guard, m)
  | inr guard => (guard, mkMutex guard false)
  end.

(** A critical section: the guard's value and what is written back. *)
Definition with_lock {A B} (f : A -> A * B) (m : Mutex A) : Mutex A * B :=
  let (guard, m) := lock_or_recover m in
  let (value, r) := f guard in (mkMutex value (mx_poisoned m), r).

(** A holder panics: the guard is dropped during unwinding, over what the holder has
    left there ([v]), if it wrote anything. *)
Definition poison {A} (v : option A) (m : Mutex A) : Mutex A := mkMutex (default (mx_value m) v) true.

Lemma with_lock_value {A B} (f : A -> A * B) m :
  with_lock f m = (Mutex_new (f (mx_value m)).1, (f (mx_value m)).2).
Proof.
  unfold with_lock, lock_or_recover, mutex_lock. destruct m as [x []]; simpl; by destruct (f x).
Qed.

(** ** The shared state of a worker *)

Record LockedShared := mkLockedShared {
  lk_state : Mutex WorkerStateMachine;
  lk_active_vus : Z;
  lk_run : Mutex (option Z);
  lk_tasks : gmap Z Task;
  lk_next : Z;
}.

Definition LockedShared_new : LockedShared :=
  mkLockedShared (Mutex_new WorkerStateMachine_new) 0 (Mutex_new None) ∅ 0.

Definition lk_with_state (m : Mutex WorkerStateMachine) (s : LockedShared) : LockedShared :=
  mkLockedShared m (lk_active_vus s) (lk_run s) (lk_tasks s) (lk_next s).
Definition lk_with_vus (n : Z) (s : LockedShared) : LockedShared :=
  mkLockedShared (lk_state s) n (lk_run s) (lk_tasks s) (lk_next s).
Definition lk_with_run (m : Mutex (option Z)) (s : LockedShared) : LockedShared :=
  mkLockedShared (lk_state s) (lk_active_vus s) m (lk_tasks s) (lk_next s).
Definition lk_with_tasks (t : gmap Z Task) (s : LockedShared) : LockedShared :=
  mkLockedShared (lk_state s) (lk_active_vus s) (lk_run s) t (lk_next s).

Definition locked_state (s : LockedShared) : LockedShared * WorkerState :=
  let (m, r) := with_lock (fun guard => (guard, sm_state guard)) (lk_state s) in (lk_with_state m s, r).

Definition locked_set_state (next : WorkerState) (s : LockedShared) : LockedShared :=
  lk_with_state (with_lock (fun guard => ((transition next guard).1, ())) (lk_state s)).1 s.

Definition locked_begin_run (control : Z) (s : LockedShared) : LockedShared * bool :=
  let (m, r) := with_lock (fun guard => match guard with Some _ => (guard, false) | None => (Some control, true) end)
                  (lk_run s) in
  (lk_with_run m s, r).

Definition locked_cancel_run (s : LockedShared) : LockedShared :=
  let (m, slot) := with_lock (fun guard => (guard, guard)) (lk_run s) in
  let s := lk_with_run m s in
  match slot with Some id => lk_with_tasks (alter cancel_task id (lk_tasks s)) s | None => s end.

(** The tail of the run task. *)
Definition locked_complete_task (id : Z) (s : LockedShared) : LockedShared :=
  match lk_tasks s !! id with
  | Some t =>
      if tk_done t then s
      else locked_set_state WS_Ready (lk_with_vus 0 (lk_with_tasks (<[id := finish_task t]> (lk_tasks s)) s))
  | None => s
  end.

Definition locked_stop_run (s : LockedShared) : LockedShared :=
  let (m, control) := with_lock (fun guard => (None, guard)) (lk_run s) in
  let s := lk_with_run m s in
  lk_with_vus 0
    (match control with
     | Some id => locked_complete_task id (lk_with_tasks (alter cancel_task id (lk_tasks s)) s)
     | None => s
     end).

(** ** Operations and panics *)

Inductive LockEvent :=
  | LE_State
  | LE_SetState (next : WorkerState)
  | LE_Spawn (run_id : string) (virtual_users : Z)
  | LE_BeginRun (control : Z)
  | LE_StoreVus (n : Z)
  | LE_CancelRun
  | LE_TaskEnds (id : Z)
  | LE_StopRun
  | LE_PoisonState (v : option WorkerStateMachine)
  | LE_PoisonRun (v : option (option Z)).

(** What a caller gets back. *)
Inductive LockAnswer := LA_State (w : WorkerState) | LA_Began (ok : bool) | LA_None.

Definition locked_step (s : LockedShared) (e : LockEvent) : LockedShared * LockAnswer :=
  match e with
  | LE_State => let (s, w) := locked_state s in (s, LA_State w)
  | LE_SetState next => (locked_set_state next s, LA_None)
  | LE_Spawn run vus =>
      (mkLockedShared (lk_state s) (lk_active_vus s) (lk_run s)
         (<[lk_next s := mkTask run vus false false]> (lk_tasks s)) (lk_next s + 1), LA_None)
  | LE_BeginRun control => let (s, ok) := locked_begin_run control s in (s, LA_Began ok)
  | LE_StoreVus n => (lk_with_vus n s, LA_None)
  | LE_CancelRun => (locked_cancel_run s, LA_None)
  | LE_TaskEnds id => (locked_complete_task id s, LA_None)
  | LE_StopRun => (locked_stop_run s, LA_None)
  | LE_PoisonState v => (lk_with_state (poison v (lk_state s)) s, LA_None)
  | LE_PoisonRun v => (lk_with_run (poison v (lk_run s)) s, LA_None)
  end.

(** The operations on the plain state. *)
Definition plain_step (s : Shared) (e : LockEvent) : Shared * LockAnswer :=
  match e with
  | LE_State => (s, LA_State (sm_state (sh_state s)))
  | LE_SetState next => (set_state next s, LA_None)
  | LE_Spawn run vus => ((spawn_run run vus s).1, LA_None)
  | LE_BeginRun control => let (s, ok) := begin_run control s in (s, LA_Began ok)
  | LE_StoreVus n => (with_vus n s, LA_None)
  | LE_CancelRun => (cancel_run s, LA_None)
  | LE_TaskEnds id => (complete_task id s, LA_None)
  | LE_StopRun => (stop_run s, LA_None)
  | LE_PoisonState v => (with_state (default (sh_state s) v) s, LA_None)
  | LE_PoisonRun v => (with_slot (default (sh_run s) v) s, LA_None)
  end.

Fixpoint run_steps {S} (step : S -> LockEvent -> S * LockAnswer) (s : S) (es : list LockEvent)
  : S * list LockAnswer :=
  match es with
  | [] => (s, [])
  | e :: es =>
      let (s, a) := step s e in
      let (s, answers) := run_steps step s es in (s, a :: answers)
  end.

(** ** Refinement *)

Definition erase (s : LockedShared) : Shared :=
  mkShared (mx_value (lk_state s)) (lk_active_vus s) (mx_value (lk_run s)) (lk_tasks s) (lk_next s).

Lemma erase_set_state next s : erase (locked_set_state next s) = set_state next (erase s).
Proof. unfold locked_set_state. by rewrite with_lock_value. Qed.

Lemma erase_complete_task id s : erase (locked_complete_task id s) = complete_task id (erase s).
Proof.
  unfold locked_complete_task, complete_task. simpl. destruct (lk_tasks s !! id) as [t|]; [|done].
  destruct (tk_done t); [done|]. by rewrite erase_set_state.
Qed.

(** One step, and the locks it leaves clean. *)
Lemma locked_step_refines s e :
  let (s', a) := locked_step s e in plain_step (erase s) e = (erase s', a).
Proof.
  destruct e; simpl; try done.
  - unfold locked_state. by rewrite with_lock_value.
  - by rewrite erase_set_state.
  - unfold locked_begin_run. rewrite with_lock_value. unfold begin_run.
    destruct s as [st vus [[z|] pz] t n]; done.
  - unfold locked_cancel_run. rewrite with_lock_value. unfold cancel_run.
    destruct s as [st vus [[z|] pz] t n]; done.
  - by rewrite erase_complete_task.
  - unfold locked_stop_run. rewrite with_lock_value. unfold stop_run. simpl. f_equal.
    destruct (mx_value (lk_run s)) as [id|] eqn:E.
    + set (s1 := lk_with_tasks _ _). change (erase (lk_with_vus 0 (locked_complete_task id s1)))
        with (with_vus 0 (erase (locked_complete_task id s1))). rewrite erase_complete_task. by unfold s1.
    + unfold with_vus, erase. simpl. by rewrite E.
Qed.

(** Poisoned locks are recovered: whatever operations the tasks of a worker perform
    on the shared state, and wherever in between holders of its locks panic, having
    written what they may, every answer and the final state are those of the plain
    state with those writes and without locks; and an operation leaves the lock it
    took unpoisoned. *)
Theorem poisoned_locks_recovered es s :
  (let (s', answers) := run_steps locked_step s es in
   run_steps plain_step (erase s) es = (erase s', answers)) /\
  mx_poisoned (lk_state (locked_step s LE_State).1) = false /\
  (forall next, mx_poisoned (lk_state (locked_step s (LE_SetState next)).1) = false) /\
  (forall id, mx_poisoned (lk_run (locked_step s (LE_BeginRun id)).1) = false) /\
  mx_poisoned (lk_run (locked_step s LE_CancelRun).1) = false /\
  mx_poisoned (lk_run (locked_step s LE_StopRun).1) = false.
Proof.
  split.
  - revert s. induction es as [|e es IH]; intros s; simpl; [done|].
    pose proof (locked_step_refines s e) as Hs. destruct (locked_step s e) as [s1 a]. rewrite Hs.
    specialize (IH s1). destruct (run_steps locked_step s1 es) as [s2 answers]. by rewrite IH.
  - split_and!; simpl; intros; unfold locked_state, locked_set_state, locked_begin_run, locked_cancel_run, locked_stop_run;
      rewrite with_lock_value; simpl; repeat case_match; try done.
    unfold locked_complete_task, locked_set_state. by repeat case_match.
Qed.

(** ** The clock *)

(** [now_timestamp]: a clock before the epoch reads as the epoch. *)
Definition now_timestamp (since_epoch : option duration) : Timestamp :=
  let now := default 0 since_epoch in
  mkTimestamp (wrap_i64 (as_secs now)) (subsec_nanos now).

(** [now_unix_ms]. *)
Definition now_unix_ms (since_epoch : option duration) : Z :=
  match since_epoch with Some d => wrap_i64 (as_millis d) | None => 0 end.

Lemma now_timestamp_nanos since_epoch :
  0 <= ts_nanos (now_timestamp since_epoch) < 1000000000.
Proof.
  unfold now_timestamp, subsec_nanos, NANOS_PER_SEC. simpl. apply Z.mod_pos_bound. lia.
Qed.

(** ** Serving *)

(** [MasterHandle::serve]: the address, the socket, and the server until it is shut
    down or its transport fails. *)
Definition master_serve (parse_socket_addr : string -> result string string) (bind : string -> result string unit)
    (serving : result string unit) (s : MasterState) : result MasterError unit :=
  addr ← listen_addr parse_socket_addr (ms_config s);
  _ ← map_err ME_Io (bind addr);
  map_err ME_Transport serving.
