(* ===== verification/WorkerSession.v ===== *)
(** One session of a worker with its master ([src/distributed/worker.rs],
    [Worker::session], [heartbeat_loop], [command_loop], and [start_run],
    [stop_run] step by step).

    [Worker] treats each command as one step.  Here the session task, the
    heartbeat task, the command task and the run tasks interleave at every lock,
    atomic access and await, as the runtime lets them: [session_exec] executes
    one such step.  RPC replies, stream messages and the shutdown signal are
    events.  A task that has been aborted stops at its next await. *)

From coqutil Require Import Datatypes.RecordSetters.
From S2P Require Import Prelude RustStr Float Proto WorkerState Backoff WorkerConfig Executor Worker.

#[local] Open Scope Z_scope.
Import DoubleBraceUpdate.
#[local] Arguments constant {_} _ /.

(** ** State *)

(** What awaiting a join handle yields: the result of the task, or its panic. *)
Abbreviation joined := (result string (result WorkerError unit)) (only parsing).

Inductive HeartbeatPhase :=
  | HB_Tick                                  (** awaiting the ticker *)
  | HB_InFlight                              (** awaiting the reply *)
  | HB_Ended (r : joined).

(** Where the command task is: awaiting a message; inside [start_run], with the
    run task spawned, in the slot, and the state set; inside [stop_run], awaiting
    the run and storing the zero; before [set_state(Ready)] of STOP and ABORT;
    awaiting the acknowledgement; ended. *)
Inductive CommandPhase :=
  | CM_Waiting
  | CM_Spawned (c : CommandRequest) (id vus : Z)
  | CM_Began (c : CommandRequest) (vus : Z)
  | CM_Marked (c : CommandRequest) (vus : Z)
  | CM_StopAwait (c : CommandRequest) (id : Z)
  | CM_StopStore (c : CommandRequest)
  | CM_SetReady (c : CommandRequest)
  | CM_Ack (r : CommandResponse)
  | CM_Ended (r : joined).

(** The session task: in its select; in the three parts of [stop_run]; returned. *)
Inductive SessionPhase :=
  | SN_Select
  | SN_Stop (o : result WorkerError unit)
  | SN_StopAwait (o : result WorkerError unit) (id : Z)
  | SN_StopStore (o : result WorkerError unit)
  | SN_Returned (o : result WorkerError unit).

Record Session := mkSession {
  sn_shared : Shared;
  sn_phase : SessionPhase;
  sn_heartbeat : HeartbeatPhase;
  sn_commands : CommandPhase;
  sn_shutdown : bool;
  sn_aborted : bool;                (** [abort()] called on both loops *)
  sn_seen : gmap Z Z;               (** the virtual users each run task read for its collector *)
  sn_stored : gset Z;               (** run tasks between their last two stores *)
  (** history *)
  sn_heartbeats : list HeartbeatRequest;
  sn_received : list CommandRequest;
  sn_acks : list CommandResponse;
  sn_rejected : gset Z;
}.

Definition Session_new : Session :=
  mkSession Shared_new SN_Select HB_Tick CM_Waiting false false ∅ ∅ [] [] [] ∅.

Section session.
Context `{HttpTypes}.
Context (params : RunParams).

Definition response (c : CommandRequest) (status : CommandStatus) (msg : string) : CommandResponse :=
  mkCommandResponse (cr_command_id c) (rp_worker_id params) (CommandStatus_to_i32 status) msg.

(** ** Establishing the session *)

(** [Worker::connect] and [Worker::register]: the endpoint, the channel and the
    registration reply come from the transport. *)
Definition connect (endpoint : result string unit) (channel : result string unit)
  : result WorkerError unit :=
  _ ← map_err (fun e => WE_Config ("invalid master endpoint: " ++ e)) endpoint;
  map_err WE_Transport channel.

Definition establish (c : WorkerConfig) (endpoint channel : result string unit)
    (registration : result string RegisterWorkerResponse) : result WorkerError (duration * Session) :=
  _ ← connect endpoint channel;
  reply ← map_err WE_Rpc registration;
  cluster ← registration_outcome reply;
  Ok (session_heartbeat_interval cluster c, Session_new).

(** The ticker of the heartbeat loop. *)
Definition heartbeat_period (interval : duration) : duration := Z.max interval (from_millis 100).

(** [memory_utilization_percent] of a heartbeat. *)
Definition memory_percent (total available : Z) : f32 :=
  if 0 <? total
  then f32_mul (f32_div (f32_of_Z (u_saturating_sub total available)) (f32_of_Z total)) (f32_of_Z 100)
  else S754_zero false.

(** ** Commands, step by step *)

(** Up to the first step another task can observe. *)
Definition begin_command (c : CommandRequest) (now_secs : Z) (s : Shared) : Shared * CommandPhase :=
  match default CT_Unspecified (CommandType_try_from (cr_command c)) with
  | CT_Start =>
      match cr_config c with
      | None => (s, CM_Ack (response c CS_Rejected "START command missing TestConfiguration"))
      | Some config =>
          match from_proto config (rp_max_vus params) (rp_request_timeout params) with
          | Err e => (s, CM_Ack (response c CS_Failed (WorkerError_to_string e)))
          | Ok plan =>
              let vus := wrap32 (ep_virtual_users plan) in
              let (s, id) := spawn_run (resolve_test_run_id params now_secs (cr_test_run_id c)) vus s in
              (s, CM_Spawned c id vus)
          end
      end
  | CT_Stop =>
      match sh_run s with
      | Some id => (with_tasks (alter cancel_task id (sh_tasks s)) (with_slot None s), CM_StopAwait c id)
      | None => (s, CM_StopStore c)
      end
  | CT_Abort => (cancel_run s, CM_SetReady c)
  | CT_Unspecified => (s, CM_Ack (response c CS_Rejected "unspecified command"))
  end.

Definition task_done (id : Z) (s : Shared) : bool :=
  match sh_tasks s !! id with Some t => tk_done t | None => true end.

(** The following steps; [None] while awaiting. *)
Definition command_step (s : Shared) (p : CommandPhase) : option (Shared * CommandPhase) :=
  match p with
  | CM_Spawned c id vus =>
      let (s, ok) := begin_run id s in
      Some (s, if ok then CM_Began c vus else CM_Ack (response c CS_Rejected "a run is already in progress"))
  | CM_Began c vus => Some (set_state WS_Running s, CM_Marked c vus)
  | CM_Marked c vus => Some (with_vus vus s, CM_Ack (response c CS_Acknowledged ""))
  | CM_StopAwait c id => if task_done id s then Some (s, CM_StopStore c) else None
  | CM_StopStore c => Some (with_vus 0 s, CM_SetReady c)
  | CM_SetReady c => Some (set_state WS_Ready s, CM_Ack (response c CS_Completed ""))
  | _ => None
  end.

(** The points at which an aborted task stops. *)
Definition at_await (p : CommandPhase) : bool :=
  match p with CM_Waiting | CM_StopAwait _ _ | CM_Ack _ => true | _ => false end.

(** ** Run tasks *)

(** The last two stores of [run_orchestrator]. *)
Definition task_live (id : Z) (s : Session) : bool :=
  match sh_tasks (sn_shared s) !! id with Some t => negb (tk_done t) | None => false end.

Definition end_task (id : Z) (s : Shared) : Shared :=
  set_state WS_Ready (with_tasks (alter finish_task id (sh_tasks s)) s).

(** ** Events *)

Inductive Winner := W_Shutdown | W_Heartbeat | W_Commands.

Inductive SessionEvent :=
  | SE_Shutdown
  | SE_HeartbeatSend
  | SE_HeartbeatReply (r : result string HeartbeatResponse)
  | SE_HeartbeatStops                      (** the loop sees the shutdown *)
  | SE_HeartbeatPanics (e : string)
  | SE_Message (m : result string (option CommandRequest)) (now_secs : Z)
  | SE_CommandsStop
  | SE_CommandStep
  | SE_Acked (r : result string unit)
  | SE_CommandsPanic (e : string)          (** while polled at an await *)
  | SE_TaskReads (id : Z)
  | SE_TaskStores (id : Z)
  | SE_TaskEnds (id : Z)
  | SE_Select (w : Winner)
  | SE_SessionStep.

(** What the select of the session makes of a finished loop. *)
Definition loop_outcome (name : string) (r : joined) : result WorkerError unit :=
  match r with
  | Ok (Ok _) => Err (WE_Disconnected (name ++ " loop stopped"))
  | Ok (Err e) => Err e
  | Err e => Err (WE_Disconnected (name ++ " task panicked: " ++ e))
  end.

Definition select_outcome (w : Winner) (s : Session) : option (result WorkerError unit) :=
  match w with
  | W_Shutdown => if sn_shutdown s then Some (Ok ()) else None
  | W_Heartbeat => match sn_heartbeat s with HB_Ended r => Some (loop_outcome "heartbeat" r) | _ => None end
  | W_Commands => match sn_commands s with CM_Ended r => Some (loop_outcome "command" r) | _ => None end
  end.

Definition session_exec (e : SessionEvent) (s : Session) : option Session :=
  match e with
  | SE_Shutdown => Some (s{{ sn_shutdown := true }})
  | SE_HeartbeatSend =>
      match sn_heartbeat s with
      | HB_Tick => if sn_aborted s then None
          else Some (s{{ sn_heartbeat := HB_InFlight;
                         sn_heartbeats := sn_heartbeats s ++ [heartbeat_request params (sn_shared s)] }})
      | _ => None
      end
  | SE_HeartbeatReply r =>
      match sn_heartbeat s with
      | HB_InFlight => if sn_aborted s then None
          else match r with
               | Err e => Some (s{{ sn_heartbeat := HB_Ended (Ok (Err (WE_Rpc e))) }})
               | Ok reply =>
                   let (sh, out) := handle_directive reply (sn_shared s) in
                   Some (s{{ sn_shared := sh;
                             sn_heartbeat := match out with Ok _ => HB_Tick | Err e => HB_Ended (Ok (Err e)) end }})
               end
      | _ => None
      end
  | SE_HeartbeatStops =>
      match sn_heartbeat s with
      | HB_Tick => if sn_shutdown s && negb (sn_aborted s)
                   then Some (s{{ sn_heartbeat := HB_Ended (Ok (Ok ())) }}) else None
      | _ => None
      end
  | SE_HeartbeatPanics e =>
      match sn_heartbeat s with
      | HB_Ended _ => None
      | _ => if sn_aborted s then None else Some (s{{ sn_heartbeat := HB_Ended (Err e) }})
      end
  | SE_Message m now_secs =>
      match sn_commands s with
      | CM_Waiting => if sn_aborted s then None
          else match m with
               | Err e => Some (s{{ sn_commands := CM_Ended (Ok (Err (WE_Rpc e))) }})
               | Ok None => Some (s{{ sn_commands := CM_Ended (Ok (Err (WE_Disconnected "command stream closed"))) }})
               | Ok (Some c) =>
                   let (sh, p) := begin_command c now_secs (sn_shared s) in
                   Some (s{{ sn_shared := sh; sn_commands := p; sn_received := sn_received s ++ [c] }})
               end
      | _ => None
      end
  | SE_CommandsStop =>
      match sn_commands s with
      | CM_Waiting => if sn_shutdown s && negb (sn_aborted s)
                      then Some (s{{ sn_commands := CM_Ended (Ok (Ok ())) }}) else None
      | _ => None
      end
  | SE_CommandStep =>
      if sn_aborted s && at_await (sn_commands s) then None
      else
        r ← command_step (sn_shared s) (sn_commands s);
        let (sh, p) := (r : Shared * CommandPhase) in
        let rejected := match sn_commands s, p with
                        | CM_Spawned _ id _, CM_Ack _ => {[id]} ∪ sn_rejected s
                        | _, _ => sn_rejected s
                        end in
        Some (s{{ sn_shared := sh; sn_commands := p; sn_rejected := rejected }})
  | SE_Acked r =>
      match sn_commands s with
      | CM_Ack a => if sn_aborted s then None
          else Some (s{{ sn_acks := sn_acks s ++ [a];
                         sn_commands := match r with Ok _ => CM_Waiting | Err e => CM_Ended (Ok (Err (WE_Rpc e))) end }})
      | _ => None
      end
  | SE_CommandsPanic e =>
      if at_await (sn_commands s) && negb (sn_aborted s)
      then Some (s{{ sn_commands := CM_Ended (Err e) }}) else None
  | SE_TaskReads id =>
      if task_live id s && bool_decide (sn_seen s !! id = None)
      then Some (s{{ sn_seen := <[id := sh_active_vus (sn_shared s)]> (sn_seen s) }}) else None
  | SE_TaskStores id =>
      if task_live id s && bool_decide (is_Some (sn_seen s !! id)) && bool_decide (id ∉ sn_stored s)
      then Some (s{{ sn_shared := with_vus 0 (sn_shared s); sn_stored := {[id]} ∪ sn_stored s }}) else None
  | SE_TaskEnds id =>
      if task_live id s && bool_decide (id ∈ sn_stored s)
      then Some (s{{ sn_shared := end_task id (sn_shared s) }}) else None
  | SE_Select w =>
      match sn_phase s with
      | SN_Select => o ← select_outcome w s; Some (s{{ sn_phase := SN_Stop o }})
      | _ => None
      end
  | SE_SessionStep =>
      let sh := sn_shared s in
      match sn_phase s with
      | SN_Select => None
      | SN_Stop o =>
          match sh_run sh with
          | Some id => Some (s{{ sn_shared := with_tasks (alter cancel_task id (sh_tasks sh)) (with_slot None sh);
                                 sn_phase := SN_StopAwait o id }})
          | None => Some (s{{ sn_phase := SN_StopStore o }})
          end
      | SN_StopAwait o id => if task_done id sh then Some (s{{ sn_phase := SN_StopStore o }}) else None
      | SN_StopStore o =>
          Some (s{{ sn_shared := with_vus 0 sh; sn_aborted := true; sn_phase := SN_Returned o }})
      | SN_Returned _ => None
      end
  end.

Definition session_run (es : list SessionEvent) (s : Session) : option Session :=
  foldl (fun s e => s ≫= session_exec e) (Some s) es.

(** ** Uninterrupted commands *)

(** The rest of a command when no other task takes a step, except that an
    awaited run ends. *)
Fixpoint finish_alone (fuel : nat) (s : Shared) (p : CommandPhase) : option (Shared * CommandResponse) :=
  match fuel with
  | O => None
  | S fuel =>
      match p with
      | CM_Ack r => Some (s, r)
      | CM_StopAwait c id =>
          finish_alone fuel (if task_done id s then s else end_task id (with_vus 0 s)) (CM_StopStore c)
      | _ => r ← command_step s p; finish_alone fuel r.1 r.2
      end
  end.

Lemma end_task_complete id s :
  (if task_done id s then s else end_task id (with_vus 0 s)) = complete_task id s.
Proof.
  unfold task_done, complete_task, end_task. destruct (sh_tasks s !! id) as [t|] eqn:E; [|done].
  destruct (tk_done t); [done|]. do 2 f_equal. simpl. unfold with_tasks, with_vus. simpl. f_equal.
  apply map_eq. intros k. destruct (decide (k = id)) as [->|].
  - by rewrite lookup_alter_eq, lookup_insert_eq, E.
  - by rewrite lookup_alter_ne, lookup_insert_ne.
Qed.

(** ** Invariant *)

(** A spawned run is cancelled, in the slot, rejected, or about to be offered to
    the slot by [start_run]. *)
Definition accounted (sh : Shared) (rejected : gset Z) (p : CommandPhase) (id : Z) (t : Task) : Prop :=
  tk_cancelled t = true \/ sh_run sh = Some id \/ id ∈ rejected \/ exists c vus, p = CM_Spawned c id vus.

(** The command being handled. *)
Definition in_hand (p : CommandPhase) : list string :=
  match p with
  | CM_Spawned c _ _ | CM_Began c _ | CM_Marked c _ | CM_StopAwait c _ | CM_StopStore c | CM_SetReady c =>
      [cr_command_id c]
  | CM_Ack r => [cp_command_id r]
  | CM_Waiting | CM_Ended _ => []
  end.

Definition session_outcome (p : SessionPhase) : option (result WorkerError unit) :=
  match p with
  | SN_Select => None
  | SN_Stop o | SN_StopAwait o _ | SN_StopStore o | SN_Returned o => Some o
  end.

Record session_inv (s : Session) : Prop := {
  si_shared : worker_inv (sn_shared s);
  si_tasks : forall id t, sh_tasks (sn_shared s) !! id = Some t ->
    accounted (sn_shared s) (sn_rejected s) (sn_commands s) id t;
  si_spawned : forall c id vus, sn_commands s = CM_Spawned c id vus -> is_Some (sh_tasks (sn_shared s) !! id);
  si_heartbeats : Forall (fun h => hb_worker_id h = rp_worker_id params /\
    (hb_state h = ProtoWorkerState_to_i32 PWS_Ready \/ hb_state h = ProtoWorkerState_to_i32 PWS_Running))
    (sn_heartbeats s);
  si_acks : exists rest, cr_command_id <$> sn_received s = (cp_command_id <$> sn_acks s) ++ in_hand (sn_commands s) ++ rest /\
    (rest = [] \/ exists r, sn_commands s = CM_Ended r /\ (length rest <= 1)%nat);
  si_ok : session_outcome (sn_phase s) = Some (Ok ()) -> sn_shutdown s = true;
  si_aborted : sn_aborted s = true <-> exists o, sn_phase s = SN_Returned o;
}.

Lemma accounted_shared sh sh' rejected p id t :
  accounted sh rejected p id t -> sh_run sh' = sh_run sh -> accounted sh' rejected p id t.
Proof. unfold accounted. intros Ha ->. done. Qed.

Lemma worker_inv_state n s :
  worker_inv s -> n = WS_Ready \/ n = WS_Running -> worker_inv (set_state n s).
Proof.
  intros (Hs & Hr & Ht) Hn. destruct Hn as [->| ->]; [rewrite set_ready by done|rewrite set_running by done];
    split_and!; simpl; auto.
Qed.

Lemma worker_inv_vus n s : worker_inv s -> worker_inv (with_vus n s).
Proof. done. Qed.

(** Cancelling or finishing a task of the store. *)
Lemma worker_inv_alter f id s : worker_inv s -> worker_inv (with_tasks (alter f id (sh_tasks s)) s).
Proof.
  intros (Hs & Hr & Ht). split_and!; simpl; [done|..].
  - intros k Hk. rewrite lookup_alter. case_decide; rewrite ?fmap_is_Some; subst; auto.
  - intros k. rewrite lookup_alter. case_decide; rewrite ?fmap_is_Some; subst; auto.
Qed.

Lemma worker_inv_slot o s :
  worker_inv s -> (forall id, o = Some id -> is_Some (sh_tasks s !! id)) -> worker_inv (with_slot o s).
Proof. intros (Hs & Hr & Ht) Ho. by split_and!. Qed.

Lemma worker_inv_spawn run vus s : worker_inv s -> worker_inv (spawn_run run vus s).1.
Proof.
  intros (Hs & Hr & Ht). split_and!; simpl; [done|..].
  - intros id Hid. rewrite lookup_insert_is_Some'. right. auto.
  - intros id. rewrite lookup_insert_is_Some'. intros [<-|Hid]; [lia|]. apply Ht in Hid. lia.
Qed.

Lemma set_state_run n s : sh_run (set_state n s) = sh_run s /\ sh_tasks (set_state n s) = sh_tasks s.
Proof. done. Qed.

(** The start of a command. *)
Lemma begin_command_inv c now s s' p rejected :
  worker_inv s -> (forall id t, sh_tasks s !! id = Some t -> accounted s rejected CM_Waiting id t) ->
  begin_command c now s = (s', p) ->
  worker_inv s' /\ (forall id t, sh_tasks s' !! id = Some t -> accounted s' rejected p id t) /\
  in_hand p = [cr_command_id c] /\
  (forall c' id vus, p = CM_Spawned c' id vus -> is_Some (sh_tasks s' !! id)).
Proof.
  intros Hi Ha Hb. unfold begin_command in Hb.
  assert (Hkeep : forall q, (forall id t, sh_tasks s !! id = Some t -> accounted s rejected q id t)).
  { intros q id t Ht. destruct (Ha id t Ht) as [?|[?|[?|(c' & v & ?)]]]; [by left|by right; left|by right; right; left|done]. }
  destruct (default _ _).
  - simplify_eq. by split_and!; auto.
  - destruct (cr_config c) as [config|]; [|simplify_eq; by split_and!; auto].
    destruct (from_proto _ _ _) as [plan|e]; [|simplify_eq; by split_and!; auto].
    injection Hb as <- <-. split_and!; [by apply (worker_inv_spawn (resolve_test_run_id params now (cr_test_run_id c)))| |done|].
    + intros id t. simpl. rewrite lookup_insert_Some. intros [[<- <-]|[Hne Ht]]; [right; right; right; by eexists _, _|].
      eapply accounted_shared; [by apply (Hkeep _ id t Ht)|done].
    + intros c' id vus [= <- <- <-]. simpl. rewrite lookup_insert_eq. eauto.
  - destruct (sh_run s) as [id|] eqn:Hr; simplify_eq; [|by split_and!; auto].
    split_and!; [|intros id' t|done|done].
    + apply (worker_inv_alter cancel_task id (with_slot None s)). by apply worker_inv_slot.
    + simpl. rewrite lookup_alter_Some. intros [(<- & t0 & Ht & ->)|[Hne Ht]]; [by left|].
      destruct (Ha id' t Ht) as [?|[?|[?|(c' & v & ?)]]]; [by left|congruence|by right; right; left|done].
  - injection Hb as <- <-. split_and!; [by apply cancel_run_inv|intros id t|done|done].
    unfold cancel_run. destruct (sh_run s) as [id0|] eqn:Hr; [|by apply Hkeep].
    simpl. rewrite lookup_alter_Some. intros [(<- & t0 & Ht & ->)|[Hne Ht]]; [by left|].
    eapply accounted_shared; [by apply (Hkeep _ id t Ht)|done].
Qed.

(** A later step of a command. *)
Lemma command_step_inv s p s' p' rejected rejected' :
  worker_inv s -> (forall id t, sh_tasks s !! id = Some t -> accounted s rejected p id t) ->
  (forall c id vus, p = CM_Spawned c id vus -> is_Some (sh_tasks s !! id)) ->
  command_step s p = Some (s', p') ->
  rejected' = match p, p' with
              | CM_Spawned _ id _, CM_Ack _ => {[id]} ∪ rejected
              | _, _ => rejected
              end ->
  worker_inv s' /\ (forall id t, sh_tasks s' !! id = Some t -> accounted s' rejected' p' id t) /\
  in_hand p' = in_hand p /\ (forall r, p' <> CM_Ended r) /\ (forall c id vus, p' <> CM_Spawned c id vus).
Proof.
  intros Hi Ha Hsp Hx ->.
  assert (Hkeep : forall q, (forall c id vus, p <> CM_Spawned c id vus) ->
    (forall id t, sh_tasks s !! id = Some t -> accounted s rejected q id t)).
  { intros q Hp id t Ht. destruct (Ha id t Ht) as [?|[?|[?|(c' & v & Heq)]]];
      [by left|by right; left|by right; right; left|by destruct (Hp _ _ _ Heq)]. }
  destruct p as [|c id vus|c vus|c vus|c id|c|c|r|r]; simpl in Hx; simplify_eq.
  - unfold begin_run in Hx. destruct (sh_run s) as [id0|] eqn:Hr; simplify_eq.
    + split_and!; try done. intros k t Ht.
      destruct (Ha k t Ht) as [?|[?|[?|(c' & v & [= <- <- <-])]]]; unfold accounted; set_solver.
    + split_and!; try done.
      * apply worker_inv_slot; [done|]. intros k [= <-]. by eapply Hsp.
      * intros k t Ht. destruct (Ha k t Ht) as [?|[?|[?|(c' & v & [= <- <- <-])]]];
          [by left|congruence|by right; right; left|by right; left].
  - split_and!; try done; [by apply worker_inv_state; auto|]. intros k t Ht. by apply (Hkeep _ ltac:(done) k t Ht).
  - split_and!; try done. intros k t Ht. by apply (Hkeep _ ltac:(done) k t Ht).
  - destruct (task_done id s); simplify_eq. split_and!; try done. intros k t Ht. by apply (Hkeep _ ltac:(done) k t Ht).
  - split_and!; try done. intros k t Ht. by apply (Hkeep _ ltac:(done) k t Ht).
  - split_and!; try done; [by apply worker_inv_state; auto|]. intros k t Ht. by apply (Hkeep _ ltac:(done) k t Ht).
Qed.

(** Steps that leave commands and phases alone. *)
Lemma session_inv_shared s sh :
  session_inv s -> worker_inv sh -> sh_run sh = sh_run (sn_shared s) ->
  (forall id t', sh_tasks sh !! id = Some t' ->
     exists t, sh_tasks (sn_shared s) !! id = Some t /\ (tk_cancelled t = true -> tk_cancelled t' = true)) ->
  (forall id, is_Some (sh_tasks (sn_shared s) !! id) -> is_Some (sh_tasks sh !! id)) ->
  session_inv (s{{ sn_shared := sh }}).
Proof.
  intros [H1 H2 H3 H4 H5 H6 H7] Hi Hr Ht Hk. constructor; simpl; auto.
  - intros id t' Hl. destruct (Ht id t' Hl) as (t & Hl' & Hc).
    destruct (H2 id t Hl') as [?|[?|?]]; [left; auto|right; left; change (sh_run sh = Some id); congruence|by right; right].
  - eauto.
Qed.

(** The steps of the loops and the session, by task. *)
Lemma heartbeat_events_inv e s s' :
  match e with SE_Shutdown | SE_HeartbeatSend | SE_HeartbeatReply _ | SE_HeartbeatStops | SE_HeartbeatPanics _ => True
  | _ => False end ->
  session_exec e s = Some s' -> session_inv s -> session_inv s'.
Proof.
  intros He Hx Hi. destruct e; try done; unfold session_exec in Hx.
  - simplify_eq. destruct Hi as [S1 S2 S3 S4 S5 S6 S7]. by constructor.
  - repeat case_match; simplify_eq. destruct Hi as [S1 S2 S3 S4 S5 S6 S7]. constructor; simpl; auto.
    apply Forall_app. split; [done|]. constructor; [|done]. split; [done|]. simpl.
    destruct S1 as [[-> | ->] _]; [by left|by right].
  - destruct (sn_heartbeat s); try done. destruct (sn_aborted s); [done|].
    destruct r as [reply|e]; simplify_eq.
    2: { destruct Hi as [S1 S2 S3 S4 S5 S6 S7]. by constructor. }
    destruct (handle_directive reply (sn_shared s)) as [sh out] eqn:Hd. simplify_eq.
    assert (Hsh : session_inv (s{{ sn_shared := sh }})).
    { unfold handle_directive in Hd. destruct (default _ _); simplify_eq; try by destruct Hi.
      apply session_inv_shared; [done|by apply cancel_run_inv, Hi|by rewrite cancel_run_slot|..].
      - intros id t. unfold cancel_run. destruct (sh_run (sn_shared s)); [|by eauto]. simpl.
        rewrite lookup_alter_Some. intros [(<- & t0 & Ht & ->)|[_ Ht]]; eauto.
      - intros id. unfold cancel_run. destruct (sh_run (sn_shared s)); [|done]. simpl.
        rewrite lookup_alter. case_decide; by rewrite ?fmap_is_Some; subst. }
    destruct Hsh as [S1 S2 S3 S4 S5 S6 S7]. by constructor.
  - repeat case_match; simplify_eq. destruct Hi as [S1 S2 S3 S4 S5 S6 S7]. by constructor.
  - repeat case_match; simplify_eq; destruct Hi as [S1 S2 S3 S4 S5 S6 S7]; by constructor.
Qed.

Lemma command_events_inv e s s' :
  match e with SE_Message _ _ | SE_CommandsStop | SE_CommandStep | SE_Acked _ | SE_CommandsPanic _ => True
  | _ => False end ->
  session_exec e s = Some s' -> session_inv s -> session_inv s'.
Proof.
  intros He Hx Hi. destruct s as [sh ph hb cm sd ab seen st hbs rec acks rej].
  destruct Hi as [S1 S2 S3 S4 (rest & S5 & S5') S6 S7]. simpl in *.
  assert (Hfree : (forall c id vus, cm <> CM_Spawned c id vus) ->
    forall q id t, sh_tasks sh !! id = Some t -> accounted sh rej q id t).
  { intros Hn q id t Ht. destruct (S2 id t Ht) as [?|[?|[?|(c' & v & Hc)]]];
      [by left|by right; left|by right; right; left|by destruct (Hn _ _ _ Hc)]. }
  destruct e; try done; simpl in Hx.
  - destruct cm; try done. destruct ab; [done|].
    assert (rest = []) as -> by (destruct S5' as [|(r & ? & _)]; done). rewrite ?app_nil_r in S5.
    destruct m as [[c|]|e]; simplify_eq/=.
    + destruct (begin_command c now_secs sh) as [sh' p] eqn:Hb. simplify_eq/=.
      destruct (begin_command_inv _ _ _ _ _ rej S1 S2 Hb) as (B1 & B2 & B3 & B4).
      constructor; simpl; auto. exists []. rewrite fmap_app, S5, B3, ?app_nil_r. split; [done|by left].
    + constructor; simpl; auto; try (by apply Hfree); try done. exists []. rewrite ?app_nil_r. auto.
    + constructor; simpl; auto; try (by apply Hfree); try done. exists []. rewrite ?app_nil_r. auto.
  - destruct cm; try done. destruct (sd && negb ab); [|done]. simplify_eq/=.
    assert (rest = []) as -> by (destruct S5' as [|(r & ? & _)]; done).
    constructor; simpl; auto; try (by apply Hfree); try done. exists []. auto.
  - destruct (ab && at_await cm); [done|]. destruct (command_step sh cm) as [[sh' p]|] eqn:Hs; [|done].
    simplify_eq/=. assert (rest = []) as -> by (destruct S5' as [|(r & -> & _)]; done).
    destruct (command_step_inv _ _ _ _ rej _ S1 S2 S3 Hs eq_refl) as (B1 & B2 & B3 & B4 & B5).
    constructor; simpl; auto; [by intros c id vus ?%B5|]. exists []. rewrite B3. auto.
  - destruct cm as [| | | | | | |a|]; try done. destruct ab; [done|]. simplify_eq/=.
    assert (rest = []) as -> by (destruct S5' as [|(r0 & ? & _)]; done).
    constructor; simpl; auto; try (by apply Hfree); try (by destruct r). exists []. rewrite fmap_app, S5.
    split; [destruct r; simpl; by rewrite ?app_nil_r|by left].
  - destruct (at_await cm && negb ab) eqn:Hc; [|done]. simplify_eq/=.
    constructor; simpl; auto.
    + apply Hfree. by destruct cm.
    + done.
    + exists (in_hand cm ++ rest). split; [done|]. right. eexists. split; [done|].
      rewrite length_app. destruct S5' as [->|(r & -> & ?)]; [by destruct cm; simpl; lia|simpl; lia].
Qed.

Lemma task_events_inv e s s' :
  match e with SE_TaskReads _ | SE_TaskStores _ | SE_TaskEnds _ => True | _ => False end ->
  session_exec e s = Some s' -> session_inv s -> session_inv s'.
Proof.
  intros He Hx Hi. destruct e; try done; unfold session_exec in Hx; repeat case_match; simplify_eq.
  - destruct Hi as [S1 S2 S3 S4 S5 S6 S7]. by constructor.
  - destruct Hi as [S1 S2 S3 S4 S5 S6 S7]. by constructor.
  - apply session_inv_shared; [done|..].
    + apply worker_inv_state; [|by left]. by apply worker_inv_alter, Hi.
    + done.
    + intros k t. simpl. rewrite lookup_alter_Some. intros [(<- & t0 & Ht & ->)|[_ Ht]]; eauto.
    + intros k Hk. simpl. rewrite lookup_alter. 
      destruct (decide (id = k)) as [<-|]; [by apply fmap_is_Some|done].
Qed.

Lemma session_events_inv e s s' :
  match e with SE_Select _ | SE_SessionStep => True | _ => False end ->
  session_exec e s = Some s' -> session_inv s -> session_inv s'.
Proof.
  intros He Hx Hi. destruct s as [sh ph hb cm sd ab seen st hbs rec acks rej].
  destruct Hi as [S1 S2 S3 S4 S5 S6 S7]. simpl in *. destruct e; try done; simpl in Hx.
  - destruct ph; try done. destruct (select_outcome w _) as [o|] eqn:Hw; [|done]. simplify_eq/=.
    constructor; simpl; auto.
    + intros [= ->]. destruct w; simpl in Hw; repeat case_match; simplify_eq/=; try done.
      all: by destruct r as [[]|].
    + rewrite S7. split; intros [? ?]; done.
  - destruct ph as [|o|o id|o|o]; try done.
    + destruct (sh_run sh) as [id|] eqn:Hr; simplify_eq/=.
      * constructor; simpl; auto.
        -- apply (worker_inv_alter cancel_task id (with_slot None sh)). by apply worker_inv_slot.
        -- intros k t. rewrite lookup_alter_Some. intros [(<- & t0 & Ht & ->)|[Hne Ht]]; [by left|].
           destruct (S2 k t Ht) as [?|[?|?]]; [by left|congruence|by right; right].
        -- intros c k vus Hc. rewrite lookup_alter. case_decide; subst; rewrite ?fmap_is_Some; by eapply S3.
        -- rewrite S7. split; intros [? ?]; done.
      * constructor; simpl; auto. rewrite S7. split; intros [? ?]; done.
    + destruct (task_done id sh); [|done]. simplify_eq/=. constructor; simpl; auto.
      rewrite S7. split; intros [? ?]; done.
    + simplify_eq/=. constructor; simpl; auto. split; [by eexists|done].
Qed.

Lemma session_exec_inv e s s' : session_exec e s = Some s' -> session_inv s -> session_inv s'.
Proof.
  destruct e; solve [by apply heartbeat_events_inv|by apply command_events_inv|by apply task_events_inv
                    |by apply session_events_inv].
Qed.

Lemma foldl_none es : foldl (fun s e => s ≫= session_exec e) None es = None.
Proof. by induction es. Qed.

Lemma session_run_inv es s s' : session_run es s = Some s' -> session_inv s -> session_inv s'.
Proof.
  unfold session_run. revert s. induction es as [|e es IH]; intros s; simpl; [by intros [= ->]|].
  destruct (session_exec e s) as [s1|] eqn:E; [|by rewrite foldl_none].
  eauto using session_exec_inv.
Qed.

Lemma new_session_inv : session_inv Session_new.
Proof.
  constructor; simpl; try done.
  - apply new_inv.
  - exists []. auto.
  - split; [done|]. by intros [? ?].
Qed.
End session.

Section claims.
Context `{HttpTypes}.
Implicit Types (params : RunParams).

(** Atomicity: a command whose handling no other task interrupts has, step by
    step, exactly the effect and the acknowledgement of [handle_command]. *)
Theorem command_uninterrupted params c now s :
  let (s1, p) := begin_command params c now s in
  finish_alone params 5 s1 p = Some (handle_command params c now s).
Proof.
  unfold begin_command, handle_command. destruct (default _ _) eqn:Hk; simpl.
  - done.
  - destruct (cr_config c) as [config|]; [|done]. destruct (from_proto _ _ _) as [plan|e]; [|done].
    unfold worker_start_run. simpl. unfold begin_run. simpl. by destruct (sh_run s).
  - destruct (sh_run s) as [id|] eqn:Hr; simpl.
    + rewrite end_task_complete. unfold stop_run. by rewrite Hr.
    + unfold stop_run. by rewrite Hr.
  - done.
Qed.

(** C11. The session under every interleaving of its tasks: the advertised state is
    always [Ready] or [Running]; a run that executes uncancelled is the one in the
    slot, one whose START was rejected, or one [start_run] is about to offer;
    commands are acknowledged in the order received, at most the one in hand (or
    lost with its task) missing; and the session only ends without an error after
    a shutdown, with both loops aborted. *)
Theorem session_interleavings params es s :
  session_run params es Session_new = Some s ->
  (sm_state (sh_state (sn_shared s)) = WS_Ready \/ sm_state (sh_state (sn_shared s)) = WS_Running) /\
  Forall (fun h => hb_worker_id h = rp_worker_id params /\
    (hb_state h = ProtoWorkerState_to_i32 PWS_Ready \/ hb_state h = ProtoWorkerState_to_i32 PWS_Running))
    (sn_heartbeats s) /\
  (forall id, executing id (sn_shared s) ->
     sh_run (sn_shared s) = Some id \/ id ∈ sn_rejected s \/ exists c vus, sn_commands s = CM_Spawned c id vus) /\
  (exists pending, cr_command_id <$> sn_received s = (cp_command_id <$> sn_acks s) ++ pending /\
     (length pending <= 1)%nat) /\
  (forall o, sn_phase s = SN_Returned o -> sn_aborted s = true /\ (o = Ok () -> sn_shutdown s = true)).
Proof.
  intros Hr. destruct (session_run_inv params es _ _ Hr (new_session_inv params))
    as [S1 S2 S3 S4 (rest & S5 & S5') S6 S7]. split_and!.
  - apply S1.
  - done.
  - intros id (t & Ht & Hc & _). destruct (S2 id t Ht) as [?|?]; [congruence|done].
  - exists (in_hand (sn_commands s) ++ rest). split; [done|]. rewrite length_app.
    destruct S5' as [->|(r & -> & ?)]; [by destruct (sn_commands s); simpl; lia|simpl; lia].
  - intros o Ho. split; [apply S7; eauto|]. intros ->. apply S6. by rewrite Ho.
Qed.

(** ** Races *)

(** What a session that has returned still does: its run tasks, and the command
    task up to its next await. *)
Definition returned (s : Session) : Prop := sn_aborted s = true /\ exists o, sn_phase s = SN_Returned o.

Lemma command_step_tasks params s p s' p' :
  command_step params s p = Some (s', p') -> sh_tasks s' = sh_tasks s.
Proof.
  destruct p; simpl; intros Hs; simplify_eq; try done.
  - revert Hs. unfold begin_run. by destruct (sh_run s); intros [= <- <-].
  - destruct (task_done id s); by simplify_eq.
Qed.

Lemma returned_step params e s s' :
  returned s -> session_exec params e s = Some s' ->
  returned s' /\ forall id t, sh_tasks (sn_shared s) !! id = Some t ->
    exists t', sh_tasks (sn_shared s') !! id = Some t' /\ tk_cancelled t' = tk_cancelled t.
Proof.
  intros [Ha [o Ho]] Hx. destruct s as [sh ph hb cm sd ab seen st hbs rec acks rej]. simpl in Ha, Ho. subst.
  unfold returned.
  destruct e; simpl in Hx; rewrite ?andb_false_r in Hx.
  - simplify_eq/=. split; eauto.
  - by destruct hb.
  - by destruct hb.
  - by destruct hb.
  - by destruct hb.
  - by destruct cm.
  - by destruct cm.
  - destruct (at_await cm); [done|]. destruct (command_step params sh cm) as [[sh' p]|] eqn:Hs; simplify_eq/=.
    apply command_step_tasks in Hs. rewrite Hs. split; eauto.
  - by destruct cm.
  - done.
  - case_match; simplify_eq/=. split; eauto.
  - case_match; simplify_eq/=. split; eauto.
  - case_match; simplify_eq/=. split; [eauto|]. intros k t Ht. destruct (decide (id = k)) as [->|].
    + exists (finish_task t). by rewrite lookup_alter_eq, Ht.
    + exists t. by rewrite lookup_alter_ne.
  - done.
  - done.
Qed.

Lemma returned_run params es s s' id t :
  returned s -> session_run params es s = Some s' -> sh_tasks (sn_shared s) !! id = Some t ->
  exists t', sh_tasks (sn_shared s') !! id = Some t' /\ tk_cancelled t' = tk_cancelled t.
Proof.
  unfold session_run. revert s t. induction es as [|e es IH]; intros s t Ha; simpl.
  { intros [= ->]. eauto. }
  destruct (session_exec params e s) as [s1|] eqn:E; [|by rewrite foldl_none].
  intros Hr Ht. destruct (returned_step params e s s1 Ha E) as (Ha1 & H1).
  destruct (H1 id t Ht) as (t1 & Ht1 & <-). eauto.
Qed.

(** Once a session has returned, a run that was not cancelled by then never is. *)
Lemma returned_never_cancels params es s s' id t t' :
  returned s -> session_run params es s = Some s' -> sh_tasks (sn_shared s) !! id = Some t ->
  tk_cancelled t = false -> sh_tasks (sn_shared s') !! id = Some t' -> tk_cancelled t' = false.
Proof.
  intros Hr Hx Ht Hc Ht'. destruct (returned_run params es s s' id t Hr Hx Ht) as (t1 & Ht1 & Hc1). congruence.
Qed.

(** An accepted START, from its message to its acknowledgement. *)
Definition start_steps (c : CommandRequest) (now : Z) : list SessionEvent :=
  [SE_Message (Ok (Some c)) now; SE_CommandStep; SE_CommandStep; SE_CommandStep; SE_Acked (Ok ())].

Lemma begin_start params c plan now s :
  is_start params c plan ->
  begin_command params c now s =
    let vus := wrap32 (ep_virtual_users plan) in
    let (s, id) := spawn_run (resolve_test_run_id params now (cr_test_run_id c)) vus s in
    (s, CM_Spawned c id vus).
Proof.
  intros (Hk & config & Hc & Hp). unfold begin_command.
  rewrite Hk, CommandType_try_from_to_i32. simpl. by rewrite Hc, Hp.
Qed.

Lemma session_run_cons params e es s s1 r :
  session_exec params e s = Some s1 -> session_run params es s1 = r -> session_run params (e :: es) s = r.
Proof. unfold session_run. simpl. by intros ->. Qed.

Lemma session_run_app params es es' s s1 :
  session_run params es s = Some s1 -> session_run params (es ++ es') s = session_run params es' s1.
Proof. unfold session_run. intros Hr. by rewrite foldl_app, Hr. Qed.

(** What an accepted START leaves. *)
Definition started (params : RunParams) (c : CommandRequest) (plan : ExecutionPlan) (now : Z) (s : Shared) : Shared :=
  let vus := wrap32 (ep_virtual_users plan) in
  with_vus vus (set_state WS_Running (with_slot (Some (sh_next s))
    (spawn_run (resolve_test_run_id params now (cr_test_run_id c)) vus s).1)).

Lemma run_start params c plan now s :
  is_start params c plan -> sn_commands s = CM_Waiting -> sn_aborted s = false -> sh_run (sn_shared s) = None ->
  session_run params (start_steps c now) s =
    Some (s{{ sn_shared := started params c plan now (sn_shared s); sn_received := sn_received s ++ [c];
              sn_acks := sn_acks s ++ [response params c CS_Acknowledged ""] }}).
Proof.
  destruct s as [sh ph hb cm sd ab seen st hbs rec acks rej]. simpl. intros Hs -> -> Hr.
  eapply session_run_cons; [simpl; by rewrite (begin_start _ _ _ _ _ Hs)|].
  eapply session_run_cons; [simpl; unfold begin_run; simpl; by rewrite Hr|].
  eapply session_run_cons; [reflexivity|]. eapply session_run_cons; [reflexivity|]. reflexivity.
Qed.

(** A run task from its first to its last access of the shared state. *)
Definition task_steps (id : Z) : list SessionEvent := [SE_TaskReads id; SE_TaskStores id; SE_TaskEnds id].

Lemma run_task params id s t :
  sh_tasks (sn_shared s) !! id = Some t -> tk_done t = false -> sn_seen s !! id = None -> id ∉ sn_stored s ->
  session_run params (task_steps id) s =
    Some (s{{ sn_shared := end_task id (with_vus 0 (sn_shared s));
              sn_seen := <[id := sh_active_vus (sn_shared s)]> (sn_seen s);
              sn_stored := {[id]} ∪ sn_stored s }}).
Proof.
  destruct s as [sh ph hb cm sd ab seen st hbs rec acks rej]. simpl. intros Ht Hd Hn Hs.
  eapply session_run_cons.
  { unfold session_exec, task_live. simpl. rewrite Ht, Hd, bool_decide_true by done. reflexivity. }
  eapply session_run_cons.
  { unfold session_exec, task_live. simpl. rewrite Ht, Hd, lookup_insert_eq.
    rewrite bool_decide_true by by eexists. rewrite bool_decide_true by done. reflexivity. }
  eapply session_run_cons.
  { unfold session_exec, task_live. simpl. rewrite Ht, Hd, bool_decide_true by set_solver. reflexivity. }
  reflexivity.
Qed.

(** The run of the slot ends while the session awaits it. *)
Lemma run_stop_awaited params id o s t :
  sn_phase s = SN_StopAwait o id -> sh_tasks (sn_shared s) !! id = Some t -> tk_done t = false ->
  sn_seen s !! id = None -> id ∉ sn_stored s ->
  exists s', session_run params (task_steps id ++ [SE_SessionStep; SE_SessionStep]) s
      = Some s' /\ sn_phase s' = SN_Returned o /\ sn_aborted s' = true /\ sn_acks s' = sn_acks s /\
    forall k, k <> id -> sh_tasks (sn_shared s') !! k = sh_tasks (sn_shared s) !! k.
Proof.
  intros Hp Ht Hd Hn Hs. rewrite (session_run_app _ _ _ _ _ (run_task params id s t Ht Hd Hn Hs)).
  destruct s as [sh ph hb cm sd ab seen st hbs rec acks rej]. simpl in *. subst ph. eexists. split.
  - eapply session_run_cons.
    { unfold session_exec, task_done. simpl. rewrite lookup_alter_eq, Ht. reflexivity. }
    eapply session_run_cons; reflexivity.
  - simpl. split_and!; try done. intros k Hk. by rewrite lookup_alter_ne by done.
Qed.

(** C36. Losing the master: the session stops the run of the slot and awaits it before
    it aborts the command task, which meanwhile accepts another START.  That run
    executes when the session has returned, and nothing ever cancels it. *)
Theorem session_end_leaks_run params c plan c2 plan2 now e :
  is_start params c plan -> is_start params c2 plan2 ->
  exists s,
    session_run params
      (start_steps c now ++ [SE_HeartbeatSend; SE_HeartbeatReply (Err e); SE_Select W_Heartbeat; SE_SessionStep] ++
       start_steps c2 now ++ task_steps 0 ++ [SE_SessionStep; SE_SessionStep])
      Session_new = Some s /\
    sn_phase s = SN_Returned (Err (WE_Rpc e)) /\
    Forall (fun r => cp_status r = CommandStatus_to_i32 CS_Acknowledged) (sn_acks s) /\
    executing 1 (sn_shared s) /\
    (forall es s' t', session_run params es s = Some s' -> sh_tasks (sn_shared s') !! 1 = Some t' ->
       tk_cancelled t' = false).
Proof.
  intros H1 H2. erewrite session_run_app by by apply (run_start params c plan).
  assert (sh_run (started params c plan now Shared_new) = Some 0) as Hrun by done.
  assert (sh_next (started params c plan now Shared_new) = 1) as Hnext by done.
  assert (exists t, sh_tasks (started params c plan now Shared_new) !! 0 = Some t /\ tk_done t = false)
    as (t & Ht & Hd) by (eexists; split; [apply lookup_insert_eq|done]).
  change (sn_shared Session_new) with Shared_new.
  generalize dependent (started params c plan now Shared_new). intros sh1 Hrun Hnext Ht.
  set (sh2 := with_tasks (alter cancel_task 0 (sh_tasks sh1)) (with_slot None sh1)).
  set (s2 := mkSession sh2 (SN_StopAwait (Err (WE_Rpc e)) 0) (HB_Ended (Ok (Err (WE_Rpc e)))) CM_Waiting
    false false ∅ ∅ [heartbeat_request params sh1] [c] [response params c CS_Acknowledged ""] ∅).
  rewrite (session_run_app _ _ _ _ s2).
  2: { do 3 (eapply session_run_cons; [reflexivity|]).
       eapply session_run_cons; [unfold session_exec; simpl; by rewrite Hrun|]. reflexivity. }
  erewrite session_run_app by by apply (run_start params c2 plan2).
  match goal with |- exists s, session_run params _ ?s0 = _ /\ _ =>
    destruct (run_stop_awaited params 0 (Err (WE_Rpc e)) s0 (cancel_task t)) as (s' & Hx & Hp & Ha & Hk & Hl);
    [done| |done|done|done|] end.
  { simpl. rewrite Hnext, lookup_insert_ne by done. by rewrite lookup_alter_eq, Ht. }
  simpl in Hk, Hl. specialize (Hl 1 ltac:(done)). rewrite Hnext, lookup_insert_eq in Hl.
  exists s'. split_and!; [exact Hx|exact Hp|rewrite Hk; by repeat constructor|by eexists|].
  intros es s1 t' Hr. eapply returned_never_cancels; [|exact Hr|exact Hl|reflexivity].
  split; [done|by eexists].
Qed.

(** A worker that advertises [Running] although every run task has ended. *)
Definition stale (n : Z) (s : Session) : Prop :=
  sm_state (sh_state (sn_shared s)) = WS_Running /\ sh_active_vus (sn_shared s) = n /\
  (forall id, task_live id s = false) /\
  match sn_commands s with CM_Waiting | CM_Ack _ | CM_Ended _ => True | _ => False end.

(** Without a new command, and until the session ends. *)
Definition quiet (e : SessionEvent) : bool :=
  match e with SE_Message (Ok (Some _)) _ | SE_SessionStep => false | _ => true end.

Lemma stale_step params n e s s' :
  stale n s -> quiet e = true -> session_exec params e s = Some s' ->
  stale n s' /\ exists more, sn_heartbeats s' = sn_heartbeats s ++ more /\
    Forall (fun h => hb_state h = ProtoWorkerState_to_i32 PWS_Running /\ hb_active_vus h = n) more.
Proof.
  intros (Hs & Hv & Hd & Hc) Hq Hx. destruct s as [sh ph hb cm sd ab seen st hbs rec acks rej].
  assert (Hsame : forall h, h = hbs -> exists more, h = hbs ++ more /\
    Forall (fun h => hb_state h = ProtoWorkerState_to_i32 PWS_Running /\ hb_active_vus h = n) more).
  { intros h ->. exists []. by rewrite app_nil_r. }
  destruct e; simpl in *; try done.
  - simplify_eq/=. split; [done|by apply Hsame].
  - destruct hb; try done. destruct ab; simplify_eq/=. split; [done|].
    eexists. split; [done|]. constructor; [|done]. unfold heartbeat_request. cbn [hb_state hb_active_vus sn_shared]. by rewrite Hs.
  - destruct hb; try done. destruct ab; [done|]. destruct r as [reply|x]; simplify_eq/=.
    2: split; [done|by apply Hsame].
    unfold handle_directive in Hx.
    destruct (default _ _); simplify_eq/=; split; try (by apply Hsame); try done.
    split_and!; simpl; auto.
    + unfold cancel_run. by destruct (sh_run sh).
    + unfold cancel_run. by destruct (sh_run sh).
    + intros k. specialize (Hd k). revert Hd. unfold task_live, cancel_run. simpl.
      destruct (sh_run sh) as [id|]; [|done]. simpl. rewrite lookup_alter. case_decide; [subst|done].
      by destruct (sh_tasks sh !! k).
  - destruct hb; try done. case_match; simplify_eq/=. split; [done|by apply Hsame].
  - destruct hb; try done; destruct ab; simplify_eq/=; (split; [done|by apply Hsame]).
  - destruct cm; try done. destruct ab; [done|]. destruct m as [[]|]; simplify_eq/=; (split; [done|by apply Hsame]).
  - destruct cm; try done. case_match; simplify_eq/=. split; [done|by apply Hsame].
  - destruct cm; try done; simpl in Hx; by rewrite ?andb_true_r, ?andb_false_r in Hx; destruct ab.
  - destruct cm; try done. destruct ab; [done|]. simplify_eq/=. split; [|by apply Hsame].
    split_and!; simpl; auto. by destruct r.
  - case_match; simplify_eq/=. split; [done|by apply Hsame].
  - rewrite Hd in Hx. done.
  - rewrite Hd in Hx. done.
  - rewrite Hd in Hx. done.
  - destruct ph; try done. destruct (select_outcome _ _); simplify_eq/=. split; [done|by apply Hsame].
Qed.

Lemma stale_run params n es s s' :
  stale n s -> forallb quiet es = true -> session_run params es s = Some s' ->
  stale n s' /\ exists more, sn_heartbeats s' = sn_heartbeats s ++ more /\
    Forall (fun h => hb_state h = ProtoWorkerState_to_i32 PWS_Running /\ hb_active_vus h = n) more.
Proof.
  unfold session_run. revert s. induction es as [|e es IH]; intros s Hs; simpl.
  { intros _ [= ->]. split; [done|]. exists []. by rewrite app_nil_r. }
  intros [Hq Hqs]%andb_true_iff Hx. destruct (session_exec params e s) as [s1|] eqn:E; [|by rewrite foldl_none in Hx].
  destruct (stale_step params n e s s1 Hs Hq E) as (Hs1 & more & Hh & Hm).
  destruct (IH s1 Hs1 Hqs Hx) as (Hs' & more' & Hh' & Hm'). split; [done|].
  exists (more ++ more'). by rewrite Hh', Hh, app_assoc, Forall_app.
Qed.

(** A run can end before [start_run] has marked the worker: [start_run] spawns
    the run task before it stores [Running] and the number of virtual users.  The
    run then collected its batches with no active virtual users, and the worker
    keeps heartbeating [Running] with the virtual users of the ended run, whatever
    happens, until a new command arrives or the session ends. *)
Theorem fast_run_stays_running params c plan now es s' :
  is_start params c plan ->
  let n := wrap32 (ep_virtual_users plan) in
  exists s,
    session_run params
      (SE_Message (Ok (Some c)) now :: task_steps 0 ++
       [SE_CommandStep; SE_CommandStep; SE_CommandStep; SE_Acked (Ok ())]) Session_new = Some s /\
    sn_seen s !! 0 = Some 0 /\ stale n s /\
    (forallb quiet es = true -> session_run params es s = Some s' ->
     stale n s' /\
     Forall (fun h => hb_state h = ProtoWorkerState_to_i32 PWS_Running /\ hb_active_vus h = n) (sn_heartbeats s')).
Proof.
  intros Hs n. set (run := resolve_test_run_id params now (cr_test_run_id c)).
  set (sh := end_task 0 (with_vus 0 (spawn_run run n Shared_new).1)).
  set (s := mkSession (with_vus n (set_state WS_Running (with_slot (Some 0) sh))) SN_Select HB_Tick CM_Waiting
    false false {[0 := 0]} ({[0]} ∪ ∅) [] [c] [response params c CS_Acknowledged ""] ∅).
  assert (Hst : stale n s).
  { split_and!; [done|done| |done]. intros id. unfold task_live. simpl.
    destruct (decide (id = 0)) as [->|]; [by rewrite lookup_alter_eq, lookup_insert_eq|].
    by rewrite lookup_alter_ne, lookup_insert_ne by done. }
  exists s. split_and!; [|apply lookup_singleton_eq|done|].
  - eapply session_run_cons; [simpl; by rewrite (begin_start _ _ _ _ _ Hs)|].
    erewrite session_run_app by by apply (run_task params 0 _ (mkTask run n false false)); [apply lookup_insert_eq|..].
    do 4 (eapply session_run_cons; [reflexivity|]). reflexivity.
  - intros Hq Hx. destruct (stale_run params n es s s' Hst Hq Hx) as (? & more & Hh & ?). by rewrite Hh.
Qed.
End claims.

(** ** Witnesses *)

(** A START, a heartbeat in flight, a shutdown and the end of the session. *)
Lemma session_interleavings_witness :
  exists s, session_run sample_params
    [SE_HeartbeatSend; SE_Message (Ok (Some sample_start)) 7; SE_Shutdown; SE_CommandStep; SE_Select W_Shutdown]
    Session_new = Some s /\
  (forall id, executing id (sn_shared s) ->
     sh_run (sn_shared s) = Some id \/ id ∈ sn_rejected s \/ exists c vus, sn_commands s = CM_Spawned c id vus).
Proof.
  eexists. split; [vm_compute; reflexivity|].
  eapply (session_interleavings sample_params
    [SE_HeartbeatSend; SE_Message (Ok (Some sample_start)) 7; SE_Shutdown; SE_CommandStep; SE_Select W_Shutdown]).
  vm_compute. reflexivity.
Defined.

Lemma session_end_leaks_run_witness :
  exists s, sn_phase s = SN_Returned (Err (WE_Rpc "unavailable")) /\ executing 1 (sn_shared s).
Proof.
  destruct (session_end_leaks_run sample_params sample_start sample_plan sample_start sample_plan 7 "unavailable"
    sample_is_start sample_is_start) as (s & _ & Hp & _ & He & _). exists s. exact (conj Hp He).
Defined.

Lemma fast_run_stays_running_witness :
  exists s, stale (wrap32 (ep_virtual_users sample_plan)) s /\ sn_seen s !! 0 = Some 0.
Proof.
  destruct (fast_run_stays_running sample_params sample_start sample_plan 7 [] Session_new
    sample_is_start) as (s & _ & Hv & Hs & _). exists s. exact (conj Hs Hv).
Defined.
