(* ===== verification/System.v ===== *)
(** End to end: what the workers of a cluster record is what the master
    reports.  Each worker's collector turns its request outcomes into batches
    ([Telemetry]); the batches of all workers reach the master's pipeline in
    some interleaving ([Pipeline]). *)

From S2P Require Import Prelude RustStr Float Histogram Chaos Samples Proto Telemetry Report Pipeline.

#[local] Open Scope Z_scope.

(** One worker's share of a run: its id, when its collector started, its window
    and what happened to it. *)
Record WorkerRun := mkWorkerRun {
  wrun_id : string;
  wrun_started : Z;
  wrun_window : duration;
  wrun_events : list CollectorEvent;
}.

Section system.
Context `{Hist : Histogram} `{!HistogramLaws} `{MapOrder}.

(** The batches a worker emits for the run. *)
Definition emitted (run : string) (w : WorkerRun) : list MetricBatch :=
  (collector_run (WindowedCollector_new (wrun_started w) (wrun_id w) run (wrun_window w))
     (wrun_events w)).2.

(** Every outcome was flushed: no window is left open. *)
Definition flushed (w : WorkerRun) : Prop := (windows [] (wrun_events w)).2 = [].

Definition outcomes (ws : list WorkerRun) : list RequestMetric :=
  ws ≫= (fun w => recorded (wrun_events w)).

(** Sums over batches that describe windows are counts over the outcomes. *)
Record describes_all (l : list RequestMetric) (bs : list MetricBatch) : Prop := {
  da_total : Zsum (mb_total_requests <$> bs) = Z.of_nat (length l);
  da_success : Zsum (mb_success_count <$> bs) = count_if (fun m => negb (is_error m)) l;
  da_failure : Zsum (mb_failure_count <$> bs) = count_if is_error l;
  da_samples : Zsum (ls_sample_count <$> latencies bs) = Z.of_nat (length l);
  da_buckets : Forall (fun s => length (ls_bucket_counts s) = 10%nat) (latencies bs) /\
    wrap64 (Zsum ((fun s => Zsum (ls_bucket_counts s)) <$> latencies bs)) = wrap64 (Z.of_nat (length l));
  da_bytes : wrap64 (Zsum (mb_bytes_received <$> bs)) = wrap64 (Zsum (rm_bytes_received <$> l));
  da_errors : wrap64 (Zsum (batch_errors bs).*2) = wrap64 (count_if is_error l);
}.

Lemma describes_all_nil : describes_all [] [].
Proof. constructor; try done. Qed.

Lemma describes_all_one l b : describes l b -> describes_all l [b].
Proof.
  intros [Ht Hs Hf _ Hb _ He (s & Hl & Hn & Hlen & Hsum)].
  constructor; unfold latencies, batch_errors; csimpl; rewrite ?Hl; csimpl; try lia.
  - split; [by constructor|]. rewrite Z.add_0_r, <- u64_sum_wrap, Hsum. done.
  - by rewrite Z.add_0_r, Hb, wrap64_idem.
  - rewrite app_nil_r, <- list_fmap_compose. simpl. rewrite <- u64_sum_wrap.
    change (snd ∘ (fun e => (eb_error_class e, eb_count e))) with eb_count. by rewrite He, Hf.
Qed.

Lemma describes_all_app l1 l2 bs1 bs2 :
  describes_all l1 bs1 -> describes_all l2 bs2 -> describes_all (l1 ++ l2) (bs1 ++ bs2).
Proof.
  intros [T1 S1 F1 N1 [L1 B1] Y1 E1] [T2 S2 F2 N2 [L2 B2] Y2 E2].
  constructor; unfold latencies, batch_errors in *;
    rewrite ?omap_app, ?bind_app, ?fmap_app, ?Zsum_app, ?count_if_app, ?length_app; try lia.
  - split; [by apply Forall_app|]. rewrite Nat2Z.inj_add, <- wrap64_add_l, B1, wrap64_add_l.
    by rewrite <- wrap64_add_r, B2, wrap64_add_r.
  - by rewrite <- wrap64_add_l, Y1, wrap64_add_l, <- wrap64_add_r, Y2, wrap64_add_r.
  - by rewrite <- wrap64_add_l, E1, wrap64_add_l, <- wrap64_add_r, E2, wrap64_add_r.
Qed.

Lemma describes_all_windows ws bs : Forall2 describes ws bs -> describes_all (concat ws) bs.
Proof.
  induction 1 as [|w b ws bs Hw _ IH]; [apply describes_all_nil|].
  simpl. apply (describes_all_app w (concat ws) [b] bs); [by apply describes_all_one|done].
Qed.

Lemma emitted_describes run w :
  Z.of_nat (length (recorded (wrun_events w))) <= U64_MAX -> flushed w ->
  describes_all (recorded (wrun_events w)) (emitted run w).
Proof.
  intros Hl Hf. unfold flushed in Hf.
  destruct (collector_run_spec (wrun_events w)
    (WindowedCollector_new (wrun_started w) (wrun_id w) run (wrun_window w)) [])
    as (_ & Hd & _); [done|by apply holds_nil_new|].
  pose proof (windows_concat [] (wrun_events w)) as Hc. rewrite Hf, app_nil_r in Hc. simpl in Hc.
  rewrite <- Hc. by apply describes_all_windows.
Qed.

Lemma emitted_all run ws :
  Z.of_nat (length (outcomes ws)) <= U64_MAX -> Forall flushed ws ->
  describes_all (outcomes ws) (ws ≫= emitted run).
Proof.
  intros Hl Hf. induction Hf as [|w ws Hw Hf IH]; [apply describes_all_nil|].
  unfold outcomes in *. csimpl in *. rewrite length_app in Hl.
  apply describes_all_app; [apply emitted_describes; [lia|done]|apply IH; lia].
Qed.

Lemma describes_all_perm l bs bs' : bs ≡ₚ bs' -> describes_all l bs -> describes_all l bs'.
Proof.
  intros Hp [T S F N [L B] Y E].
  constructor; unfold latencies, batch_errors in *; rewrite <- Hp; auto.
Qed.

(** The report on batches that describe some outcomes counts these outcomes. *)
Lemma described_report run n w l bs :
  describes_all l bs -> Z.of_nat (length l) <= U64_MAX -> (10 <= n)%nat ->
  let r := finalize (pipeline_after run n w bs) in
  gr_total_requests r = Z.of_nat (length l) /\
  gr_success_count r = count_if (fun m => negb (is_error m)) l /\
  gr_failure_count r = count_if is_error l /\
  gr_success_count r + gr_failure_count r = gr_total_requests r /\
  gl_sample_count (gr_latency r) = gr_total_requests r /\
  u64_sum (gl_bucket_counts (gr_latency r)) = gr_total_requests r /\
  u64_sum (ecc_count <$> gr_error_breakdown r) = gr_failure_count r /\
  gr_bytes_received r = wrap64 (Zsum (rm_bytes_received <$> l)).
Proof.
  intros [T S F N [L B] Y E] Hl Hn r.
  destruct (report_totals run n w bs) as (RT & RS & RF & RB & RN & RE & RH).
  fold r in RT, RS, RF, RB, RN, RE, RH.
  pose proof (count_if_split is_error l).
  pose proof (count_if_bounds is_error l).
  pose proof (count_if_bounds (fun m => negb (is_error m)) l).
  rewrite T, wrap64_small in RT by (unfold in_u64; lia).
  rewrite S, wrap64_small in RS by (unfold in_u64; lia).
  rewrite F, wrap64_small in RF by (unfold in_u64; lia).
  rewrite N, wrap64_small in RN by (unfold in_u64; lia).
  rewrite Y in RB. rewrite E, wrap64_small in RE by (unfold in_u64; lia).
  rewrite B, wrap64_small in RH by (unfold in_u64; lia).
  split_and!; try congruence; try lia. rewrite RT. apply RH.
  eapply Forall_impl; [exact L|]. simpl. intros s Hs. lia.
Qed.

(** Nothing is lost between the workers and the report: when every worker
    has flushed its last window, the report on the batches of all workers,
    arriving in any interleaving, counts every recorded outcome exactly once
    (total, successes, failures, latency samples), its success and failure
    counts add up to its total, its error breakdown sums to the failures, and
    with at least ten buckets its merged histogram sums to the total. *)
Theorem cluster_conservation run n w ws bs :
  Z.of_nat (length (outcomes ws)) <= U64_MAX -> Forall flushed ws -> (10 <= n)%nat ->
  ws ≫= emitted run ≡ₚ bs ->
  let r := finalize (pipeline_after run n w bs) in
  gr_total_requests r = Z.of_nat (length (outcomes ws)) /\
  gr_success_count r = count_if (fun m => negb (is_error m)) (outcomes ws) /\
  gr_failure_count r = count_if is_error (outcomes ws) /\
  gr_success_count r + gr_failure_count r = gr_total_requests r /\
  gl_sample_count (gr_latency r) = gr_total_requests r /\
  u64_sum (gl_bucket_counts (gr_latency r)) = gr_total_requests r /\
  u64_sum (ecc_count <$> gr_error_breakdown r) = gr_failure_count r /\
  gr_bytes_received r = wrap64 (Zsum (rm_bytes_received <$> outcomes ws)).
Proof.
  intros Hl Hf Hn Hp r. apply described_report; [|done|done].
  by eapply describes_all_perm, emitted_all.
Qed.
End system.

Definition sample_runs : list WorkerRun :=
  [mkWorkerRun "a" 1000 (from_millis 1000)
     [EvRecord (b_status 200 (builder 1500 None)); EvFlush 2000;
      EvRecord (b_status 503 (builder 90 None)); EvFlush 3000];
   mkWorkerRun "b" 1000 (from_millis 1000) [EvRecord (error_metric 7 None); EvFlush 2000]].

Lemma cluster_conservation_witness :
  let bs := rev (sample_runs ≫= emitted "run") in
  let r := finalize (pipeline_after "run" 10 5 bs) in
  gr_total_requests r = 3 /\ gr_failure_count r = 2 /\ length bs = 3%nat.
Proof.
  destruct (cluster_conservation "run" 10 5 sample_runs (rev (sample_runs ≫= emitted "run")))
    as (Ht & _ & Hf & _).
  - by vm_compute.
  - apply Forall_cons. split; [done|]. by apply Forall_singleton.
  - lia.
  - apply Permutation_rev.
  - cbv zeta. split_and!; [exact Ht|exact Hf|by vm_compute].
Defined.
