(* ===== verification/Orchestrator.v ===== *)
(** One run of a worker, with its data: [run_orchestrator]
    ([src/distributed/worker.rs]), its virtual users
    ([src/distributed/executor.rs], [run_virtual_users]) and its upload task
    ([src/distributed/telemetry.rs], [upload_metrics]).

    The four kinds of tasks of a run communicate through two bounded channels:
    the virtual users send metrics to the orchestrator, which folds them into
    the windowed collector and sends batches to the upload task, which hands
    them to the gRPC stream.  A run is a sequence of [RunEvent]s, the choices
    of the scheduler and of the environment; [run_exec] executes one and is
    [None] when the event cannot happen.  The last three fields of the state
    are history: the metrics produced, what the collector was fed, and the
    batches that were dropped. *)

From S2P Require Import Prelude RustStr Float Histogram Chaos Samples Proto Telemetry Report.
From S2P Require Import Pipeline System.

#[local] Open Scope Z_scope.

(** ** State *)

(** Where the orchestrator is: in its select loop; in [batch_tx.send(batch)] of
    the tick branch, or of the final flush; awaiting the virtual users; awaiting
    the upload; returned. *)
Inductive RunPhase :=
  | P_Select
  | P_TickSend (b : MetricBatch)
  | P_LastSend (b : MetricBatch)
  | P_AwaitVus
  | P_AwaitUpload
  | P_Done.

Inductive Upload := U_Streaming | U_Acknowledged | U_Failed.

#[export] Instance Upload_eq_dec : EqDecision Upload.
Proof. solve_decision. Defined.

Section run.
Context `{Hist : Histogram} `{MapOrder}.

Record RunState := mkRunState {
  ro_phase : RunPhase;
  ro_cancelled : bool;
  ro_idle : nat;                        (** virtual users at the head of their loop *)
  ro_running : nat;                     (** virtual users in an iteration *)
  ro_sending : list RequestMetric;      (** virtual users in [metric_tx.send] *)
  ro_queue : list RequestMetric;        (** the metric channel *)
  ro_collector : WindowedCollector;
  ro_batches : list MetricBatch;        (** the batch channel *)
  ro_upload : Upload;
  ro_wire : list MetricBatch;           (** batches handed to the gRPC stream *)
  ro_produced : list RequestMetric;
  ro_events : list CollectorEvent;
  ro_dropped : list MetricBatch;
}.

(** The state once the tasks are spawned: [vus] virtual users (none when the
    engine cannot be built) and a collector that copied the number of virtual
    users it read from the shared state. *)
Definition RunState_new (now : Z) (worker run : string) (window : duration) (vus : nat)
    (active_vus : Z) : RunState :=
  mkRunState P_Select false vus 0 [] []
    (set_active_vus active_vus (WindowedCollector_new now worker run window)) [] U_Streaming []
    [] [] [].

(** ** Field updates *)

Definition set_phase (p : RunPhase) (s : RunState) : RunState :=
  mkRunState p (ro_cancelled s) (ro_idle s) (ro_running s) (ro_sending s) (ro_queue s)
    (ro_collector s) (ro_batches s) (ro_upload s) (ro_wire s) (ro_produced s) (ro_events s)
    (ro_dropped s).
Definition set_vus (idle running : nat) (sending queue : list RequestMetric) (s : RunState) : RunState :=
  mkRunState (ro_phase s) (ro_cancelled s) idle running sending queue (ro_collector s)
    (ro_batches s) (ro_upload s) (ro_wire s) (ro_produced s) (ro_events s) (ro_dropped s).
Definition set_produced (l : list RequestMetric) (s : RunState) : RunState :=
  mkRunState (ro_phase s) (ro_cancelled s) (ro_idle s) (ro_running s) (ro_sending s) (ro_queue s)
    (ro_collector s) (ro_batches s) (ro_upload s) (ro_wire s) l (ro_events s) (ro_dropped s).
Definition set_collector (c : WindowedCollector) (e : CollectorEvent) (s : RunState) : RunState :=
  mkRunState (ro_phase s) (ro_cancelled s) (ro_idle s) (ro_running s) (ro_sending s) (ro_queue s)
    c (ro_batches s) (ro_upload s) (ro_wire s) (ro_produced s) (ro_events s ++ [e]) (ro_dropped s).
Definition set_upload (u : Upload) (batches wire dropped : list MetricBatch) (s : RunState) : RunState :=
  mkRunState (ro_phase s) (ro_cancelled s) (ro_idle s) (ro_running s) (ro_sending s) (ro_queue s)
    (ro_collector s) batches u wire (ro_produced s) (ro_events s) dropped.
Definition set_cancelled (s : RunState) : RunState :=
  mkRunState (ro_phase s) true (ro_idle s) (ro_running s) (ro_sending s) (ro_queue s)
    (ro_collector s) (ro_batches s) (ro_upload s) (ro_wire s) (ro_produced s) (ro_events s)
    (ro_dropped s).

(** ** Steps *)

(** [batch_tx.send(batch).await]: [None] while the channel is full; the batch is
    dropped when the receiver is gone. *)
Definition send_batch (batch_cap : nat) (b : MetricBatch) (s : RunState) : option (RunState * bool) :=
  match ro_upload s with
  | U_Streaming =>
      if Nat.ltb (length (ro_batches s)) batch_cap
      then Some (set_upload U_Streaming (ro_batches s ++ [b]) (ro_wire s) (ro_dropped s) s, true)
      else None
  | u => Some (set_upload u (ro_batches s) (ro_wire s) (ro_dropped s ++ [b]) s, false)
  end.

(** After the loop: flush the open window; without one, [batch_tx] is dropped at
    once. *)
Definition leave_loop (now : Z) (s : RunState) : RunState :=
  let (c, batch) := take_batch now (ro_collector s) in
  let s := set_collector c (EvFlush now) s in
  set_phase (match batch with Some b => P_LastSend b | None => P_AwaitVus end) s.

(** [batch_tx] has been dropped. *)
Definition tx_dropped (s : RunState) : bool :=
  match ro_phase s with P_AwaitVus | P_AwaitUpload | P_Done => true | _ => false end.

(** Every virtual user has ended: the last [metric_tx] is dropped. *)
Definition vus_gone (s : RunState) : bool :=
  Nat.eqb (ro_idle s) 0 && Nat.eqb (ro_running s) 0 && bool_decide (ro_sending s = []).

Inductive RunEvent :=
  | OE_Cancel                       (** the token is cancelled: STOP, ABORT, the end of the session *)
  | OE_Iterate                      (** a virtual user starts an iteration *)
  | OE_IterationDone (m : RequestMetric)
  | OE_VuPanics
  | OE_VuStops                      (** sees the token, or the end of its duration *)
  | OE_VuSends (i : nat)            (** the i-th waiting virtual user sends its metric *)
  | OE_Collect                      (** [metric_rx.recv()] yields a metric *)
  | OE_Tick (now : Z)
  | OE_BatchSend (now : Z)          (** [batch_tx.send] returns *)
  | OE_SeeCancel (now : Z)          (** the loop takes its [cancelled] branch *)
  | OE_SeeClosed (now : Z)          (** [metric_rx.recv()] yields [None] *)
  | OE_VusJoined
  | OE_Upload                       (** the upload task streams the next batch *)
  | OE_UploadFails
  | OE_UploadAcked
  | OE_UploadJoined.

Context (metric_cap batch_cap : nat) (limited : bool).

Definition run_exec (e : RunEvent) (s : RunState) : option RunState :=
  match e with
  | OE_Cancel => Some (set_cancelled s)
  | OE_Iterate =>
      match ro_idle s with
      | S i => if ro_cancelled s then None
               else Some (set_vus i (S (ro_running s)) (ro_sending s) (ro_queue s) s)
      | O => None
      end
  | OE_IterationDone m =>
      match ro_running s with
      | S r => Some (set_produced (ro_produced s ++ [m])
                 (set_vus (ro_idle s) r (ro_sending s ++ [m]) (ro_queue s) s))
      | O => None
      end
  | OE_VuPanics =>
      match ro_running s with
      | S r => Some (set_vus (ro_idle s) r (ro_sending s) (ro_queue s) s)
      | O => None
      end
  | OE_VuStops =>
      match ro_idle s with
      | S i => if ro_cancelled s || limited
               then Some (set_vus i (ro_running s) (ro_sending s) (ro_queue s) s) else None
      | O => None
      end
  | OE_VuSends i =>
      match ro_sending s !! i with
      | Some m =>
          if Nat.ltb (length (ro_queue s)) metric_cap
          then Some (set_vus (S (ro_idle s)) (ro_running s) (delete i (ro_sending s))
                       (ro_queue s ++ [m]) s)
          else None
      | None => None
      end
  | OE_Collect =>
      match ro_phase s, ro_queue s with
      | P_Select, m :: q =>
          Some (set_collector (collector_record m (ro_collector s)) (EvRecord m)
                  (set_vus (ro_idle s) (ro_running s) (ro_sending s) q s))
      | _, _ => None
      end
  | OE_Tick now =>
      match ro_phase s with
      | P_Select =>
          let (c, batch) := take_batch now (ro_collector s) in
          let s := set_collector c (EvFlush now) s in
          Some (match batch with Some b => set_phase (P_TickSend b) s | None => s end)
      | _ => None
      end
  | OE_BatchSend now =>
      match ro_phase s with
      | P_TickSend b =>
          r ← send_batch batch_cap b s;
          let (s, ok) := (r : RunState * bool) in
          Some (if ok then set_phase P_Select s else leave_loop now s)
      | P_LastSend b =>
          r ← send_batch batch_cap b s;
          let (s, _) := (r : RunState * bool) in Some (set_phase P_AwaitVus s)
      | _ => None
      end
  | OE_SeeCancel now =>
      match ro_phase s with
      | P_Select => if ro_cancelled s then Some (leave_loop now s) else None
      | _ => None
      end
  | OE_SeeClosed now =>
      match ro_phase s with
      | P_Select => if vus_gone s && bool_decide (ro_queue s = []) then Some (leave_loop now s) else None
      | _ => None
      end
  | OE_VusJoined =>
      match ro_phase s with
      | P_AwaitVus => if vus_gone s then Some (set_phase P_AwaitUpload s) else None
      | _ => None
      end
  | OE_Upload =>
      match ro_upload s, ro_batches s with
      | U_Streaming, b :: bs => Some (set_upload U_Streaming bs (ro_wire s ++ [b]) (ro_dropped s) s)
      | _, _ => None
      end
  | OE_UploadFails =>
      match ro_upload s with
      | U_Streaming => Some (set_upload U_Failed [] (ro_wire s) (ro_dropped s ++ ro_batches s) s)
      | _ => None
      end
  | OE_UploadAcked =>
      match ro_upload s, ro_batches s with
      | U_Streaming, [] => if tx_dropped s then Some (set_upload U_Acknowledged [] (ro_wire s) (ro_dropped s) s)
                           else None
      | _, _ => None
      end
  | OE_UploadJoined =>
      match ro_phase s with
      | P_AwaitUpload =>
          if bool_decide (ro_upload s = U_Streaming) then None else Some (set_phase P_Done s)
      | _ => None
      end
  end.

Definition run_events (es : list RunEvent) (s : RunState) : option RunState :=
  foldl (fun s e => s ≫= run_exec e) (Some s) es.

Definition run_step (s s' : RunState) : Prop := exists e, run_exec e s = Some s'.

(** ** Invariant *)

(** A batch the orchestrator is still sending. *)
Definition held (p : RunPhase) : list MetricBatch :=
  match p with P_TickSend b | P_LastSend b => [b] | _ => [] end.

(** The orchestrator has left its select loop. *)
Definition left_loop (p : RunPhase) : bool :=
  match p with P_Select | P_TickSend _ => false | _ => true end.

Record run_inv (c0 : WindowedCollector) (s : RunState) : Prop := {
  ri_batches : collector_run c0 (ro_events s) =
    (ro_collector s, ro_wire s ++ ro_dropped s ++ ro_batches s ++ held (ro_phase s));
  ri_metrics : ro_produced s ≡ₚ recorded (ro_events s) ++ ro_queue s ++ ro_sending s;
  ri_upload : match ro_upload s with
              | U_Streaming => ro_dropped s = []
              | U_Acknowledged => ro_dropped s = [] /\ ro_batches s = [] /\ tx_dropped s = true
              | U_Failed => ro_batches s = []
              end;
  ri_flushed : left_loop (ro_phase s) = true -> (windows [] (ro_events s)).2 = [];
  ri_natural : left_loop (ro_phase s) = true -> ro_cancelled s = false -> ro_dropped s = [] ->
    vus_gone s = true /\ ro_queue s = [];
  ri_joined : ro_phase s = P_AwaitUpload \/ ro_phase s = P_Done -> vus_gone s = true;
  ri_done : ro_phase s = P_Done -> ro_upload s <> U_Streaming;
}.

Lemma collector_run_snoc c evs e :
  collector_run c (evs ++ [e]) =
  let (c1, bs) := collector_run c evs in
  match e with
  | EvRecord m => (collector_record m c1, bs)
  | EvFlush now => let (c2, b) := take_batch now c1 in (c2, bs ++ option_list b)
  end.
Proof.
  revert c. induction evs as [|[m|now] evs IH]; intros c; simpl.
  - destruct e as [m|now]; simpl; [done|]. destruct (take_batch now c) as [c2 b]. by rewrite app_nil_r.
  - apply IH.
  - destruct (take_batch now c) as [c' b]. rewrite IH. destruct (collector_run c' evs) as [c1 bs].
    destruct e as [m|n]; simpl; [done|]. destruct (take_batch n c1). by rewrite app_assoc.
Qed.

Lemma windows_flushed open evs now : (windows open (evs ++ [EvFlush now])).2 = [].
Proof.
  revert open. induction evs as [|[m|n] evs IH]; intros open; simpl; [done|apply IH|].
  specialize (IH []). destruct (windows [] (evs ++ [EvFlush now])). done.
Qed.

Lemma recorded_snoc evs e :
  recorded (evs ++ [e]) = recorded evs ++ match e with EvRecord m => [m] | EvFlush _ => [] end.
Proof. unfold recorded. rewrite omap_app. by destruct e. Qed.

Lemma vus_gone_iff s :
  vus_gone s = true <-> ro_idle s = 0%nat /\ ro_running s = 0%nat /\ ro_sending s = [].
Proof.
  unfold vus_gone. rewrite !andb_true_iff, !Nat.eqb_eq, bool_decide_eq_true. tauto.
Qed.

Lemma new_run_inv now worker run window vus active :
  run_inv (set_active_vus active (WindowedCollector_new now worker run window))
    (RunState_new now worker run window vus active).
Proof. by constructor; simpl; try intros [|]. Qed.

(** The shape of every step proof: unfold the record, keep its seven facts. *)
Ltac run_inv_start :=
  match goal with
  | H : run_inv _ ?s |- _ =>
      destruct s as [ph can nidle nrun snd q c bs u wi pr ev dr];
      destruct H as [Hb Hm Hu Hf Hn Hj Hd]; simpl in *
  end.
Ltac run_inv_end := constructor; simpl in *; auto; try (intros [|]; done); try done.

Lemma leave_loop_inv c0 now s :
  run_inv c0 s -> ro_phase s = P_Select ->
  ro_cancelled s = true \/ ro_dropped s <> [] \/ (vus_gone s = true /\ ro_queue s = []) ->
  ro_upload s <> U_Acknowledged ->
  run_inv c0 (leave_loop now s).
Proof.
  intros Hi Hp Hc Hu'. run_inv_start. subst ph. unfold leave_loop. simpl.
  destruct (take_batch now c) as [c1 b] eqn:E. 
  assert (Hr : collector_run c0 (ev ++ [EvFlush now]) = (c1, wi ++ dr ++ bs ++ option_list b)).
  { rewrite collector_run_snoc, Hb, E. simpl. by rewrite app_nil_r, <- !app_assoc. }
  constructor; simpl.
  - rewrite Hr. by destruct b.
  - by rewrite recorded_snoc, app_nil_r.
  - by destruct u.
  - intros _. apply windows_flushed.
  - intros _ Hcan Hup. destruct Hc as [?|[?|?]]; [congruence|done|done].
  - destruct b; intros [?|?]; done.
  - by destruct b.
Qed.

Lemma vu_step_inv c0 s idle running sending queue :
  run_inv c0 s -> recorded (ro_events s) ++ queue ++ sending ≡ₚ ro_produced s ->
  (vus_gone s = true -> vus_gone (set_vus idle running sending queue s) = true /\ 
   (ro_queue s = [] -> queue = [])) ->
  run_inv c0 (set_vus idle running sending queue s).
Proof.
  intros Hi Hp Hg. run_inv_start. constructor; simpl; auto; try done.
  - intros H1 H2 H3. destruct (Hn H1 H2 H3) as [Hv Hq]. destruct (Hg Hv) as [Hv' Hq']. auto.
  - intros H1. by destruct (Hg (Hj H1)).
Qed.

(** The steps of the virtual users. *)
Lemma vu_events_inv c0 e s s' :
  match e with OE_Iterate | OE_IterationDone _ | OE_VuPanics | OE_VuStops | OE_VuSends _ => True | _ => False end ->
  run_exec e s = Some s' -> run_inv c0 s -> run_inv c0 s'.
Proof.
  intros He Hx Hi. pose proof (ri_metrics _ _ Hi) as HM.
  destruct e; try done; simpl in Hx; repeat case_match; simplify_eq;
    try (apply vu_step_inv; [done|by rewrite HM|]; intros Hg%vus_gone_iff; 
         rewrite vus_gone_iff; simpl; naive_solver lia).
  - (* an iteration produces its metric *)
    clear HM. run_inv_start. subst. constructor; simpl; auto; try done.
    + rewrite Hm. by rewrite <- !app_assoc.
    + intros H1 H2 H3. destruct (Hn H1 H2 H3) as [(_ & Hg & _)%vus_gone_iff _]. done.
    + intros H1. pose proof (Hj H1) as (_ & Hg & _)%vus_gone_iff. done.
  - apply vu_step_inv; [done|rewrite HM|].
    + rewrite <- app_assoc. f_equiv. f_equiv. symmetry. by apply delete_Permutation.
    + intros (_ & _ & Hs)%vus_gone_iff. by rewrite Hs in *.
Qed.

Lemma upload_events_inv c0 e s s' :
  match e with OE_Upload | OE_UploadFails | OE_UploadAcked => True | _ => False end ->
  run_exec e s = Some s' -> run_inv c0 s -> run_inv c0 s'.
Proof.
  intros He Hx Hi. destruct e; try done; simpl in Hx; repeat case_match; simplify_eq; run_inv_start; subst.
  - constructor; simpl; auto; try done. by rewrite Hb, <- !app_assoc.
  - constructor; simpl; auto; try done.
  - constructor; simpl; auto; try done.
Qed.

(** The held batch goes to the channel, or is dropped. *)
Lemma batch_accepted_inv c0 s b p :
  run_inv c0 s -> ro_upload s = U_Streaming ->
  ro_phase s = P_TickSend b /\ p = P_Select \/ ro_phase s = P_LastSend b /\ p = P_AwaitVus ->
  run_inv c0 (set_phase p (set_upload U_Streaming (ro_batches s ++ [b]) (ro_wire s) (ro_dropped s) s)).
Proof.
  intros Hi Hup Hp. run_inv_start. subst.
  destruct Hp as [[-> ->]|[-> ->]]; constructor; simpl in *; auto; try (by intros [|]).
  all: by rewrite Hb, app_nil_r, <- ?app_assoc.
Qed.

Lemma batch_refused_inv c0 s b p :
  run_inv c0 s -> ro_upload s = U_Failed ->
  ro_phase s = P_TickSend b /\ p = P_Select \/ ro_phase s = P_LastSend b /\ p = P_AwaitVus ->
  run_inv c0 (set_phase p (set_upload U_Failed (ro_batches s) (ro_wire s) (ro_dropped s ++ [b]) s)).
Proof.
  intros Hi Hup Hp. run_inv_start. subst.
  destruct Hp as [[-> ->]|[-> ->]]; simpl in *; subst; constructor; simpl in *; auto; try (by intros [|]).
  all: try (by rewrite Hb, ?app_nil_r, <- ?app_assoc).
  all: intros; by destruct dr.
Qed.

Lemma acknowledged_dropped c0 s : run_inv c0 s -> tx_dropped s = false -> ro_upload s <> U_Acknowledged.
Proof. intros Hi Ht Hu. pose proof (ri_upload _ _ Hi) as Hq. rewrite Hu in Hq. naive_solver congruence. Qed.

(** The steps of the orchestrator. *)
Lemma orchestrator_events_inv c0 e s s' :
  match e with
  | OE_Cancel | OE_Collect | OE_Tick _ | OE_BatchSend _ | OE_SeeCancel _ | OE_SeeClosed _
  | OE_VusJoined | OE_UploadJoined => True
  | _ => False
  end ->
  run_exec e s = Some s' -> run_inv c0 s -> run_inv c0 s'.
Proof.
  intros He Hx Hi. destruct e; try done; simpl in Hx.
  - simplify_eq. run_inv_start. by constructor.
  - repeat case_match; simplify_eq. run_inv_start. subst. constructor; simpl; auto; try done.
    + by rewrite collector_run_snoc, Hb.
    + rewrite Hm, recorded_snoc, <- app_assoc. done.
  - repeat case_match; simplify_eq; run_inv_start; subst; constructor; simpl; auto; try done;
      rewrite ?recorded_snoc, ?app_nil_r; try done.
    all: try (rewrite collector_run_snoc, Hb; simpl;
      match goal with H : take_batch _ _ = _ |- _ => rewrite H end;
      simpl; by rewrite ?app_nil_r, <- ?app_assoc).
    by intros [|].
  - destruct (ro_phase s) as [|b|b| | |] eqn:Hp; try done.
    all: assert (Hna : ro_upload s <> U_Acknowledged)
      by (eapply acknowledged_dropped; [done|]; unfold tx_dropped; by rewrite Hp).
    all: unfold send_batch in Hx; destruct (ro_upload s) eqn:Hup; try done.
    all: try (case_match; [|done]); simpl in Hx; simplify_eq.
    + apply batch_accepted_inv; auto.
    + change (run_inv c0 (leave_loop now (set_phase P_Select
        (set_upload U_Failed (ro_batches s) (ro_wire s) (ro_dropped s ++ [b]) s)))).
      apply leave_loop_inv; [apply batch_refused_inv; auto|done| |done].
      right. left. simpl. by destruct (ro_dropped s).
    + apply batch_accepted_inv; auto.
    + apply batch_refused_inv; auto.
  - repeat case_match; simplify_eq. apply leave_loop_inv; auto.
    eapply acknowledged_dropped; [done|]. unfold tx_dropped. by case_match.
  - repeat case_match; simplify_eq. apply leave_loop_inv; auto.
    + right. right. by apply andb_true_iff in H1 as [? ?%bool_decide_eq_true].
    + eapply acknowledged_dropped; [done|]. unfold tx_dropped. by case_match.
  - repeat case_match; simplify_eq. run_inv_start. subst. by constructor; simpl; auto.
  - repeat case_match; simplify_eq. run_inv_start. subst. constructor; simpl; auto; try done.
    intros _. by eapply bool_decide_eq_false.
Qed.

Lemma run_exec_inv c0 e s s' : run_exec e s = Some s' -> run_inv c0 s -> run_inv c0 s'.
Proof.
  destruct e; solve [by apply orchestrator_events_inv|by apply vu_events_inv|by apply upload_events_inv].
Qed.

Lemma run_reachable_inv c0 s s' : run_inv c0 s -> rtc run_step s s' -> run_inv c0 s'.
Proof. intros Hi Hr. induction Hr as [|s s1 s2 [e He] _ IH]; eauto using run_exec_inv. Qed.

Lemma run_events_reaches es s s' : run_events es s = Some s' -> rtc run_step s s'.
Proof.
  unfold run_events. revert s. induction es as [|e es IH]; intros s; simpl; [by intros [= ->]|].
  destruct (run_exec e s) as [s1|] eqn:E; [intros Hr; eapply rtc_l; [by exists e|by apply IH]|].
  clear. induction es; done.
Qed.

(** The metric channel is bounded. *)
Lemma queue_capped s s' :
  (length (ro_queue s) <= metric_cap)%nat -> rtc run_step s s' ->
  (length (ro_queue s') <= metric_cap)%nat.
Proof.
  intros Hl Hr. induction Hr as [|s s1 s2 [e He] _ IH]; [done|]. apply IH. clear IH s2.
  unfold run_exec, leave_loop, send_batch in He; destruct e; simplify_eq/=; repeat (case_match; simplify_eq/=); try done;
    repeat match goal with
           | H : ro_queue _ = _ |- _ => rewrite H in *
           | H : Nat.ltb _ _ = true |- _ => apply Nat.ltb_lt in H
           end; rewrite ?length_app; simpl in *; try lia.
Qed.

(** ** A run that cannot end *)

Definition jammed (s : RunState) : Prop :=
  ro_phase s = P_AwaitVus /\ length (ro_queue s) = metric_cap /\ ro_sending s <> [].

Lemma jammed_step s s' : jammed s -> run_step s s' -> jammed s'.
Proof.
  intros (Hp & Hq & Hs) [e He]. unfold jammed.
  unfold run_exec in He; destruct e; rewrite ?Hp in He; simplify_eq/=; repeat (case_match; simplify_eq/=); try done.
  - split_and!; try done. by destruct (ro_sending s).
  - match goal with H : Nat.ltb _ _ = true |- _ => apply Nat.ltb_lt in H end. lia.
  - match goal with H : vus_gone _ = true |- _ => apply vus_gone_iff in H as (_ & _ & ?) end. done.
Qed.

Lemma jammed_forever s s' : jammed s -> rtc run_step s s' -> ro_phase s' = P_AwaitVus.
Proof. intros Hs Hr. induction Hr; [apply Hs|eauto using jammed_step]. Qed.

(** One virtual user can put [k] metrics into the channel before the
    orchestrator is scheduled. *)
Lemma fill_queue (m : RequestMetric) k s :
  ro_cancelled s = false -> ro_sending s = [] -> (0 < ro_idle s)%nat ->
  (length (ro_queue s) + k <= metric_cap)%nat ->
  exists s', rtc run_step s s' /\ ro_cancelled s' = false /\ ro_sending s' = [] /\ (0 < ro_idle s')%nat /\
    length (ro_queue s') = (length (ro_queue s) + k)%nat /\ ro_phase s' = ro_phase s /\
    ro_upload s' = ro_upload s /\ ro_collector s' = ro_collector s.
Proof.
  revert s. induction k as [|k IH]; intros s Hc Hs Hi Hl.
  { exists s. split_and!; [constructor|done..|lia|done|done|done]. }
  destruct (ro_idle s) as [|i] eqn:Hidle; [lia|].
  set (s1 := set_vus i (S (ro_running s)) [] (ro_queue s) s).
  set (s2 := set_produced (ro_produced s ++ [m]) (set_vus i (ro_running s) [m] (ro_queue s) s1)).
  set (s3 := set_vus (S i) (ro_running s) [] (ro_queue s ++ [m]) s2).
  destruct (IH s3) as (s' & Hr & ? & ? & ? & Hq & ? & ? & ?); [done|done|simpl; lia| |].
  { simpl. rewrite length_app. simpl. lia. }
  exists s'. split_and!; try done.
  - eapply rtc_l; [exists OE_Iterate; simpl; rewrite Hidle, Hc, Hs; done|].
    eapply rtc_l; [exists (OE_IterationDone m); done|].
    eapply rtc_l; [exists (OE_VuSends 0); simpl|exact Hr].
    by rewrite (proj2 (Nat.ltb_lt _ _)) by lia.
  - rewrite Hq. simpl. rewrite length_app. simpl. lia.
Qed.

(** ** Every other run can end *)

Lemma finish_from_upload s :
  ro_phase s = P_AwaitUpload -> exists s', rtc run_step s s' /\ ro_phase s' = P_Done.
Proof.
  intros Hp. destruct (ro_upload s) eqn:Hu.
  2-3: exists (set_phase P_Done s); split; [|done]; apply rtc_once; exists OE_UploadJoined;
    simpl; by rewrite Hp, Hu.
  remember (ro_batches s) as bs eqn:Hb. revert s Hp Hu Hb. induction bs as [|b bs IH]; intros s Hp Hu Hb.
  - set (s1 := set_upload U_Acknowledged [] (ro_wire s) (ro_dropped s) s).
    exists (set_phase P_Done s1). split; [|done].
    eapply rtc_l; [exists OE_UploadAcked; simpl; unfold tx_dropped; by rewrite Hu, <- Hb, Hp|].
    apply rtc_once. exists OE_UploadJoined. simpl. by rewrite Hp.
  - destruct (IH (set_upload U_Streaming bs (ro_wire s ++ [b]) (ro_dropped s) s)) as (s' & Hr & Hd); try done.
    exists s'. split; [|done]. eapply rtc_l; [|exact Hr]. exists OE_Upload. simpl. by rewrite Hu, <- Hb.
Qed.

Lemma finish_from_vus s :
  ro_phase s = P_AwaitVus -> vus_gone s = true -> exists s', rtc run_step s s' /\ ro_phase s' = P_Done.
Proof.
  intros Hp Hg. destruct (finish_from_upload (set_phase P_AwaitUpload s)) as (s' & Hr & Hd); [done|].
  exists s'. split; [|done]. eapply rtc_l; [|exact Hr]. exists OE_VusJoined. simpl. by rewrite Hp, Hg.
Qed.

(** The held batch can be sent (the upload makes room), or is refused. *)
Lemma can_send b s :
  (0 < batch_cap)%nat ->
  exists s' s'' ok, rtc run_step s s' /\ send_batch batch_cap b s' = Some (s'', ok) /\
    ro_phase s' = ro_phase s /\ vus_gone s' = vus_gone s /\ vus_gone s'' = vus_gone s /\
    ro_cancelled s'' = ro_cancelled s /\ (ro_upload s = U_Streaming -> ok = true).
Proof.
  intros Hc. destruct (ro_upload s) eqn:Hu.
  2-3: exists s; unfold send_batch; rewrite Hu; eexists _, _; split_and!; try done; constructor.
  remember (ro_batches s) as bs eqn:Hb. revert s Hu Hb. induction bs as [|b' bs IH]; intros s Hu Hb.
  - exists s. unfold send_batch. rewrite Hu, <- Hb, (proj2 (Nat.ltb_lt _ _)) by (simpl; lia).
    eexists _, _. split_and!; try done; constructor.
  - destruct (IH (set_upload U_Streaming bs (ro_wire s ++ [b']) (ro_dropped s) s)) as (s' & s'' & ok & Hr & ?);
      try done.
    exists s', s'', ok. split; [|done]. eapply rtc_l; [|exact Hr]. exists OE_Upload. simpl. by rewrite Hu, <- Hb.
Qed.

Lemma finish_last b s :
  (0 < batch_cap)%nat -> ro_phase s = P_LastSend b -> vus_gone s = true ->
  exists s', rtc run_step s s' /\ ro_phase s' = P_Done.
Proof.
  intros Hc Hp Hg. destruct (can_send b s Hc) as (s1 & s2 & ok & Hr & Hs & Hp1 & _ & Hg2 & _).
  destruct (finish_from_vus (set_phase P_AwaitVus s2)) as (s' & Hr' & Hd); [done|by rewrite <- Hg, <- Hg2|].
  exists s'. split; [|done]. etrans; [exact Hr|]. eapply rtc_l; [|exact Hr'].
  exists (OE_BatchSend 0). simpl. by rewrite Hp1, Hp, Hs.
Qed.

(** What is left for the virtual users and the loop to do. *)
Definition pending_work (s : RunState) : nat :=
  ro_idle s + 4 * ro_running s + 3 * length (ro_sending s) + length (ro_queue s).

(** One step of a cancelled run that is still collecting. *)
Lemma drain_step s :
  (0 < metric_cap)%nat -> ro_phase s = P_Select -> ro_cancelled s = true -> (0 < pending_work s)%nat ->
  exists s', run_step s s' /\ ro_phase s' = P_Select /\ ro_cancelled s' = true /\
    (pending_work s' < pending_work s)%nat.
Proof.
  intros Hm Hp Hc Hw. unfold pending_work in *. destruct s as [ph can i r sd q c bs u wi pr ev dr]. simpl in *. subst.
  destruct q as [|m q].
  2: { eexists. split; [by exists OE_Collect|]. simpl. split_and!; [done|done|lia]. }
  destruct sd as [|m sd].
  2: { eexists. split; [exists (OE_VuSends 0); simpl; by rewrite (proj2 (Nat.ltb_lt _ _)) by lia|].
       simpl. split_and!; [done|done|lia]. }
  destruct r as [|r].
  2: { eexists. split; [by exists (OE_IterationDone (error_metric 0 None))|]. simpl. split_and!; [done|done|lia]. }
  destruct i as [|i]; [simpl in Hw; lia|].
  eexists. split; [by exists OE_VuStops|]. simpl. split_and!; [done|done|lia].
Qed.

Lemma collector_drains s :
  (0 < metric_cap)%nat -> ro_phase s = P_Select -> ro_cancelled s = true ->
  exists s', rtc run_step s s' /\ ro_phase s' = P_Select /\ pending_work s' = 0%nat.
Proof.
  intros Hm. remember (pending_work s) as n eqn:Hn. revert s Hn.
  induction n as [n IH] using lt_wf_ind. intros s -> Hp Hc.
  destruct (decide (pending_work s = 0%nat)) as [|Hw]; [by exists s|].
  destruct (drain_step s) as (s1 & Hs & Hp1 & Hc1 & Hlt); [done..|lia|].
  destruct (IH _ Hlt s1 eq_refl Hp1 Hc1) as (s' & Hr & ?). exists s'. split; [|done]. by eapply rtc_l.
Qed.

Lemma finish_from_select s :
  (0 < metric_cap)%nat -> (0 < batch_cap)%nat -> ro_phase s = P_Select ->
  exists s', rtc run_step s s' /\ ro_phase s' = P_Done.
Proof.
  intros Hm Hc Hp. destruct (collector_drains (set_cancelled s) Hm Hp eq_refl) as (s1 & Hr & Hp1 & Hw).
  unfold pending_work in Hw. assert (Hq : ro_queue s1 = []) by (apply length_zero_iff_nil; lia).
  assert (Hg : vus_gone s1 = true).
  { apply vus_gone_iff. split_and!; [lia|lia|]. apply length_zero_iff_nil. lia. }
  assert (Hr1 : rtc run_step s (leave_loop 0 s1)).
  { eapply rtc_l; [by exists OE_Cancel|]. eapply rtc_r; [exact Hr|]. exists (OE_SeeClosed 0). simpl.
    by rewrite Hp1, Hg, Hq. }
  assert (Hg' : vus_gone (leave_loop 0 s1) = true) by (unfold leave_loop; by destruct (take_batch _ _)).
  destruct (ro_phase (leave_loop 0 s1)) eqn:Hl;
    try (unfold leave_loop in Hl; destruct (take_batch _ _) as [c' [b'|]]; done).
  - destruct (finish_last b _ Hc Hl Hg') as (s' & Hr' & Hd). exists s'. split; [by etrans|done].
  - destruct (finish_from_vus _ Hl Hg') as (s' & Hr' & Hd). exists s'. split; [by etrans|done].
Qed.
End run.

Section claims.
Context `{Hist : Histogram} `{!HistogramLaws} `{MapOrder}.

Lemma describes_all_outcomes l l' bs : l ≡ₚ l' -> describes_all l bs -> describes_all l' bs.
Proof.
  intros Hp [T S F N [L B] Y E].
  constructor; rewrite <- ?(Permutation_length Hp); unfold count_if in *; try rewrite <- Hp; auto.
Qed.

(** The batches of a run whose last window is flushed describe what it recorded. *)
Lemma flushed_describes active now worker run window evs c bs :
  collector_run (set_active_vus active (WindowedCollector_new now worker run window)) evs = (c, bs) ->
  Z.of_nat (length (recorded evs)) <= U64_MAX -> (windows [] evs).2 = [] ->
  describes_all (recorded evs) bs /\
  Forall (fun b => mb_worker_id b = worker /\ mb_test_run_id b = run) bs.
Proof.
  intros Hr Hl Hf.
  destruct (collector_run_spec evs (set_active_vus active (WindowedCollector_new now worker run window)) [])
    as (_ & Hd & _ & _ & Hids); [done|by constructor|].
  pose proof (windows_concat [] evs) as Hc. rewrite Hf, app_nil_r in Hc. simpl in Hc.
  rewrite Hr in *. simpl in *. split; [|exact Hids]. rewrite <- Hc. by apply describes_all_windows.
Qed.

Lemma recorded_bound c0 s :
  run_inv c0 s -> Z.of_nat (length (ro_produced s)) <= U64_MAX ->
  Z.of_nat (length (recorded (ro_events s))) <= U64_MAX.
Proof. intros Hi. rewrite (Permutation_length (ri_metrics _ _ Hi)), length_app. lia. Qed.

Context (metric_cap batch_cap : nat) (limited : bool).
Context (now : Z) (worker run : string) (window : duration) (vus : nat) (active : Z).

Definition run_reaches (s : RunState) : Prop :=
  rtc (run_step metric_cap batch_cap limited) (RunState_new now worker run window vus active) s.

Lemma run_reaches_inv s :
  run_reaches s -> run_inv (set_active_vus active (WindowedCollector_new now worker run window)) s.
Proof. apply run_reachable_inv, new_run_inv. Qed.

(** C10. Conservation inside a worker, under every schedule of its tasks: when the
    run has ended, the outcomes its virtual users produced are those it recorded
    and those left in the metric channel (at most its capacity); the batches it
    streamed or dropped describe exactly the recorded ones, under its worker and
    run id; nothing is dropped when the upload was acknowledged; and when it was
    and the run was not cancelled, every outcome produced was streamed. *)
Theorem orchestrator_conserves s :
  run_reaches s -> ro_phase s = P_Done -> Z.of_nat (length (ro_produced s)) <= U64_MAX ->
  ro_produced s ≡ₚ recorded (ro_events s) ++ ro_queue s /\ (length (ro_queue s) <= metric_cap)%nat /\
  describes_all (recorded (ro_events s)) (ro_wire s ++ ro_dropped s) /\
  Forall (fun b => mb_worker_id b = worker /\ mb_test_run_id b = run) (ro_wire s ++ ro_dropped s) /\
  (ro_upload s = U_Acknowledged -> ro_dropped s = []) /\
  (ro_upload s = U_Acknowledged -> ro_cancelled s = false -> describes_all (ro_produced s) (ro_wire s)).
Proof.
  intros Hr Hp Hl. pose proof (run_reaches_inv s Hr) as Hi.
  pose proof (recorded_bound _ _ Hi Hl) as Hl'. destruct Hi as [Hb Hm Hu Hf Hn Hj Hd].
  rewrite Hp in *. specialize (Hj (or_intror eq_refl)). specialize (Hf eq_refl). specialize (Hd eq_refl).
  apply vus_gone_iff in Hj as (_ & _ & Hs). rewrite Hs, app_nil_r in Hm.
  assert (Hbs : ro_batches s = []) by (destruct (ro_upload s); [done|apply Hu|done]).
  rewrite Hbs in Hb. simpl in Hb. rewrite app_nil_r in Hb.
  destruct (flushed_describes _ _ _ _ _ _ _ _ Hb Hl' Hf) as [Hdesc Hids].
  assert (Hdrop : ro_upload s = U_Acknowledged -> ro_dropped s = []).
  { intros Ha. rewrite Ha in Hu. apply Hu. }
  split_and!; try done.
  - eapply (queue_capped metric_cap batch_cap limited); [|exact Hr]. simpl. lia.
  - intros Ha Hc. destruct Hn as [_ Hq]; [done|done|by apply Hdrop|]. rewrite Hq, app_nil_r in Hm.
    rewrite Hdrop, app_nil_r in Hdesc by done. by apply (describes_all_outcomes (recorded (ro_events s))).
Qed.

(** C24. Every run that is still in its select loop can end, whatever its virtual
    users, its queues and its upload look like: it is never deadlocked there;
    neither is it while it sends a batch to a live upload. *)
Theorem collecting_run_can_finish s :
  (0 < metric_cap)%nat -> (0 < batch_cap)%nat -> run_reaches s ->
  ro_phase s = P_Select \/ (exists b, ro_phase s = P_TickSend b) /\ ro_upload s = U_Streaming ->
  exists s', rtc (run_step metric_cap batch_cap limited) s s' /\ ro_phase s' = P_Done.
Proof.
  intros Hm Hb _ [Hp|[[b Hp] Hu]]; [by apply finish_from_select|].
  destruct (can_send metric_cap batch_cap limited b s Hb) as (s1 & s2 & ok & Hr & Hs & Hp1 & _ & _ & _ & Hok).
  rewrite Hok in Hs by done.
  destruct (finish_from_select metric_cap batch_cap limited (set_phase P_Select s2)) as (s' & Hr' & Hd); try done.
  exists s'. split; [|done]. etrans; [exact Hr|]. eapply rtc_l; [|exact Hr'].
  exists (OE_BatchSend 0). simpl. by rewrite Hp1, Hp, Hs.
Qed.

(** C35. STOP can hang although the network is healthy: when the token is cancelled
    while the metric channel is full and a virtual user waits to send, the
    orchestrator stops reading and awaits the virtual users, which wait for
    room: no later step ends the run, so a STOP awaiting it never returns. *)
Theorem full_channel_hangs_stop :
  (0 < vus)%nat ->
  exists s, run_reaches s /\ ro_upload s = U_Streaming /\ ro_cancelled s = true /\
    forall s', rtc (run_step metric_cap batch_cap limited) s s' -> ro_phase s' = P_AwaitVus.
Proof.
  intros Hv. set (m := error_metric 0 None).
  destruct (fill_queue metric_cap batch_cap limited m metric_cap
    (RunState_new now worker run window vus active)) as (s & Hr & Hc & Hs & Hi & Hq & Hp & Hu & Hcol);
    [done|done|done|simpl; lia|]. simpl in *.
  destruct (ro_idle s) as [|i] eqn:Hidle; [lia|].
  set (s1 := set_vus i (S (ro_running s)) (ro_sending s) (ro_queue s) s).
  set (s2 := set_produced (ro_produced s ++ [m])
               (set_vus i (ro_running s) (ro_sending s ++ [m]) (ro_queue s) s1)).
  set (s3 := leave_loop 0 (set_cancelled s2)).
  assert (Hr3 : run_reaches s3).
  { unfold run_reaches. etrans; [exact Hr|]. eapply rtc_l; [exists OE_Iterate; simpl; by rewrite Hidle, Hc|].
    eapply rtc_l; [by exists (OE_IterationDone m)|]. eapply rtc_l; [by exists OE_Cancel|].
    apply rtc_once. exists (OE_SeeCancel 0). simpl. by rewrite Hp. }
  exists s3. unfold s3, leave_loop in *. simpl in *. rewrite Hcol in *. simpl in *.
  split_and!; [exact Hr3|exact Hu|done|]. intros s' Hr'. eapply jammed_forever; [|exact Hr'].
  split_and!; simpl; [done|exact Hq|by destruct (ro_sending s)].
Qed.
End claims.

(** A run of one virtual user: two iterations, one window and the final flush. *)
Definition demo_run_events : list RunEvent :=
  [OE_Iterate; OE_IterationDone (b_status 200 (builder 1500 None)); OE_VuSends 0; OE_Collect;
   OE_Tick 2000; OE_BatchSend 2000; OE_Upload; OE_Iterate; OE_IterationDone (error_metric 7 None);
   OE_VuSends 0; OE_VuStops; OE_Collect; OE_SeeClosed 2500; OE_BatchSend 2500; OE_VusJoined;
   OE_Upload; OE_UploadAcked; OE_UploadJoined].

Definition demo_run_state : RunState := RunState_new 1000 "w1" "run" (from_millis 1000) 1 1.

(** A run that has ended normally with [n] outcomes. *)
Definition ended_with `{Histogram} (n : nat) (o : option RunState) : bool :=
  match o with
  | Some s => match ro_phase s with P_Done => true | _ => false end &&
      Nat.eqb (length (ro_produced s)) n && bool_decide (ro_upload s = U_Acknowledged) &&
      negb (ro_cancelled s)
  | None => false
  end.

Lemma ended_with_spec `{Histogram} n o :
  ended_with n o = true -> exists s, o = Some s /\ ro_phase s = P_Done /\ length (ro_produced s) = n /\
    ro_upload s = U_Acknowledged /\ ro_cancelled s = false.
Proof.
  destruct o as [s|]; simpl; [|done]. rewrite !andb_true_iff, Nat.eqb_eq, bool_decide_eq_true, negb_true_iff.
  intros [[[Hp ?] ?] ?]. exists s. split_and!; try done. by destruct (ro_phase s).
Qed.

Lemma orchestrator_conserves_witness :
  exists s, ro_phase s = P_Done /\ describes_all (ro_produced s) (ro_wire s) /\
    length (ro_produced s) = 2%nat.
Proof.
  destruct (ended_with_spec 2 (run_events 8 4 true demo_run_events demo_run_state))
    as (s & Hr & Hp & Hl & Hu & Hc); [by vm_compute|]. exists s.
  destruct (orchestrator_conserves 8 4 true 1000 "w1" "run" (from_millis 1000) 1 1 s
    (run_events_reaches _ _ _ _ _ _ Hr) Hp) as (_ & _ & _ & _ & _ & Hd); [rewrite Hl; by vm_compute|].
  split_and!; [done|by apply Hd|done].
Defined.

Lemma collecting_run_can_finish_witness :
  exists s', rtc (run_step 8 4 true) demo_run_state s' /\ ro_phase s' = P_Done.
Proof.
  apply (collecting_run_can_finish 8 4 true 1000 "w1" "run" (from_millis 1000) 1 1 demo_run_state);
    [lia|lia|constructor|by left].
Defined.

Lemma full_channel_hangs_stop_witness :
  exists s, run_reaches 8192 64 false 1000 "w1" "run" (from_millis 1000) 8 8 s /\
    forall s', rtc (run_step 8192 64 false) s s' -> ro_phase s' = P_AwaitVus.
Proof.
  destruct (full_channel_hangs_stop 8192 64 false 1000 "w1" "run" (from_millis 1000) 8 8)
    as (s & Hr & _ & _ & Hf); [lia|]. by exists s.
Defined.
