(* ===== verification/Cluster.v ===== *)
(** The cluster as one transition system: the runs of the allocated workers
    ([Orchestrator]), the gRPC streams that carry their batches to the master,
    and the master's [start_run] ([Master]).

    A [Node] is a worker that executes START; its stream delivers the batches it
    was handed in order.  The master marks a worker's telemetry complete when
    the stream ends without an error, and only then does the worker's upload
    task see an acknowledgement.  [cluster_trace] runs a schedule of steps of
    all nodes, deliveries and requests from elsewhere, and yields the events the
    master handled, in order.  Requests from elsewhere ([CE_Other]) are arbitrary:
    a batch of another run or one that carries this run's id, and the end of any
    other telemetry stream, which [run.rs] counts as a finished worker. *)

From S2P Require Import Prelude RustStr Float Histogram Chaos Samples Proto Telemetry Report.
From S2P Require Import Pipeline Registry Barrier Master System Executor Worker Orchestrator.

#[local] Open Scope Z_scope.

Section cluster.
Context `{Hist : Histogram} `{MapOrder}.
Context (metric_cap batch_cap : nat) (limited : bool).

(** ** Nodes *)

Record Node := mkNode {
  nd_run : RunState;
  nd_delivered : nat;   (** batches the master has received *)
  nd_closed : bool;     (** the master has seen the end of the stream *)
}.

(** A worker handling START: its parameters, the clock readings of [start_run] and
    of the orchestrator, its virtual users and what the orchestrator read as
    their number. *)
Record NodeStart := mkNodeStart {
  ns_params : RunParams;
  ns_now_secs : Z;
  ns_now_ms : Z;
  ns_vus : nat;
  ns_active : Z;
}.

Definition Node_new (command : CommandRequest) (n : NodeStart) : Node :=
  mkNode (RunState_new (ns_now_ms n) (rp_worker_id (ns_params n))
            (resolve_test_run_id (ns_params n) (ns_now_secs n) (cr_test_run_id command))
            (rp_window (ns_params n)) (ns_vus n) (ns_active n)) 0 false.

(** The worker id a finished stream is credited to. *)
Definition stream_worker (batches : list MetricBatch) : string :=
  acc_worker_id (foldl stream_message (mkStreamAcc 0 0 "" "") batches).

(** ** Steps *)

Inductive ClusterEvent :=
  | CE_Run (i : nat) (e : RunEvent)
  | CE_Deliver (i : nat)
  | CE_Close (i : nat)
  | CE_Other (e : MasterEvent).

(** The stream of a run is over: [batch_tx] dropped and the channel drained, the
    upload not failed. *)
Definition stream_ended (s : RunState) : bool :=
  tx_dropped s && bool_decide (ro_batches s = []) && bool_decide (ro_upload s = U_Streaming).

Definition cluster_exec (e : ClusterEvent) (nodes : list Node)
  : option (list Node * list MasterEvent) :=
  match e with
  | CE_Run i e =>
      n ← nodes !! i;
      s ← run_exec metric_cap batch_cap limited e (nd_run n);
      if match e with OE_UploadAcked => nd_closed n | _ => true end
      then Some (<[i := mkNode s (nd_delivered n) (nd_closed n)]> nodes, []) else None
  | CE_Deliver i =>
      n ← nodes !! i;
      b ← ro_wire (nd_run n) !! nd_delivered n;
      Some (<[i := mkNode (nd_run n) (S (nd_delivered n)) (nd_closed n)]> nodes, [MEBatch b])
  | CE_Close i =>
      n ← nodes !! i;
      if stream_ended (nd_run n) && Nat.eqb (nd_delivered n) (length (ro_wire (nd_run n)))
         && negb (nd_closed n)
      then Some (<[i := mkNode (nd_run n) (nd_delivered n) true]> nodes,
                 [METelemetryDone (stream_worker (ro_wire (nd_run n)))])
      else None
  | CE_Other e => Some (nodes, [e])
  end.

Fixpoint cluster_trace (es : list ClusterEvent) (nodes : list Node)
  : option (list Node * list MasterEvent) :=
  match es with
  | [] => Some (nodes, [])
  | e :: es =>
      r1 ← cluster_exec e nodes;
      r2 ← cluster_trace es r1.1;
      Some (r2.1, r1.2 ++ r2.2)
  end.

(** ** Invariant *)

(** The worker ids of the streams that ended. *)
Definition done_ids (evs : list MasterEvent) : list string :=
  omap (fun e => match e with
                 | METelemetryDone k => if str_is_empty k then None else Some k
                 | _ => None
                 end) evs.

(** What the master was sent from elsewhere. *)
Definition foreign (es : list ClusterEvent) : list MasterEvent :=
  omap (fun e => match e with CE_Other e => Some e | _ => None end) es.

Definition received (n : Node) : list MetricBatch := take (nd_delivered n) (ro_wire (nd_run n)).

(** The stream was complete when the master saw its end, and stays so. *)
Definition stream_complete (n : Node) : Prop :=
  tx_dropped (nd_run n) = true /\ ro_batches (nd_run n) = [] /\ ro_dropped (nd_run n) = [] /\
  nd_delivered n = length (ro_wire (nd_run n)).

Record node_inv (R : string) (n : Node) : Prop := {
  ni_run : exists now worker window active,
    run_inv (set_active_vus active (WindowedCollector_new now worker R window)) (nd_run n);
  ni_delivered : (nd_delivered n <= length (ro_wire (nd_run n)))%nat;
  ni_closed : nd_closed n = true -> stream_complete n;
}.

(** The workers of the streams of the run that ended. *)
Definition closed_ids (nodes : list Node) : list string :=
  (fun n => stream_worker (ro_wire (nd_run n))) <$> filter (fun n => nd_closed n = true) nodes.

(** [fs] is what came from elsewhere among the events [evs]. *)
Record cluster_inv (R : string) (nodes : list Node) (evs fs : list MasterEvent) : Prop := {
  ci_nodes : Forall (node_inv R) nodes;
  ci_batches : run_batches R evs ≡ₚ (nodes ≫= received) ++ run_batches R fs;
  ci_done : (list_to_set (done_ids evs) : gset string) ⊆
    list_to_set (closed_ids nodes) ∪ list_to_set (done_ids fs);
}.

(** The upload only appends to the wire, and not after the stream has ended. *)
Lemma run_exec_wire e s s' :
  run_exec metric_cap batch_cap limited e s = Some s' ->
  exists l, ro_wire s' = ro_wire s ++ l /\
    (tx_dropped s = true -> ro_batches s = [] -> ro_dropped s = [] ->
     l = [] /\ tx_dropped s' = true /\ ro_batches s' = [] /\ ro_dropped s' = []).
Proof.
  intros He. unfold run_exec, leave_loop, send_batch, tx_dropped in *.
  destruct e; simplify_eq/=; repeat (case_match; simplify_eq/=);
    solve [exists []; rewrite app_nil_r; split; [done|intros; by split_and!] | eexists [_]; by split
          | exists []; rewrite app_nil_r; split; [done|by intros _ -> ->]].
Qed.

Lemma node_run_inv R n e s :
  node_inv R n -> run_exec metric_cap batch_cap limited e (nd_run n) = Some s ->
  node_inv R (mkNode s (nd_delivered n) (nd_closed n)) /\
  received (mkNode s (nd_delivered n) (nd_closed n)) = received n /\
  (nd_closed n = true -> ro_wire s = ro_wire (nd_run n)).
Proof.
  intros [(now & w & win & act & Hr) Hd Hc] He.
  destruct (run_exec_wire _ _ _ He) as (l & Hw & Hend). split_and!.
  - constructor; simpl.
    + exists now, w, win, act. by eapply run_exec_inv.
    + rewrite Hw, length_app. lia.
    + intros Hcl. destruct (Hc Hcl) as (H1 & H2 & H3 & H4).
      destruct (Hend H1 H2 H3) as (-> & ? & ? & ?). split_and!; try done. simpl. by rewrite Hw, app_nil_r.
  - unfold received. simpl. by rewrite Hw, take_app_le.
  - intros Hcl. destruct (Hc Hcl) as (H1 & H2 & H3 & H4). destruct (Hend H1 H2 H3) as (-> & _).
    by rewrite Hw, app_nil_r.
Qed.

(** Replacing a node. *)
Lemma insert_split {A} (l : list A) i x y :
  l !! i = Some x -> exists l1 l2, l = l1 ++ x :: l2 /\ <[i := y]> l = l1 ++ y :: l2.
Proof.
  intros Hi. exists (take i l), (drop (S i) l).
  split; [by rewrite take_drop_middle|]. apply insert_take_drop. by eapply lookup_lt_Some.
Qed.

Lemma collector_run_labels c evs :
  Forall (fun b => mb_test_run_id b = co_test_run_id c) (collector_run c evs).2.
Proof.
  revert c. induction evs as [|[m|now] evs IH]; intros c; simpl; [done| |].
  - destruct (collector_record_labels m c) as (_ & <- & _). apply IH.
  - unfold take_batch. destruct (co_total c =? 0).
    + specialize (IH c). by destruct (collector_run c evs).
    + specialize (IH (reset_window now c)). destruct (collector_run _ evs). by constructor.
Qed.

Lemma wire_run_id R n b : node_inv R n -> b ∈ ro_wire (nd_run n) -> mb_test_run_id b = R.
Proof.
  intros [(now & w & win & act & [Hb _ _ _ _ _ _]) _ _] Hin.
  pose proof (collector_run_labels (set_active_vus act (WindowedCollector_new now w R win))
                (ro_events (nd_run n))) as Hf.
  rewrite Hb in Hf. simpl in Hf. rewrite Forall_forall in Hf. apply Hf, elem_of_app. by left.
Qed.

(** A step that replaces one node, sends the master [evs], and keeps the rest. *)
Lemma cluster_inv_update R nodes evs0 fs evs i n n' :
  cluster_inv R nodes evs0 fs -> nodes !! i = Some n -> node_inv R n' ->
  received n' ≡ₚ received n ++ run_batches R evs ->
  (nd_closed n = true -> nd_closed n' = true /\ ro_wire (nd_run n') = ro_wire (nd_run n)) ->
  (forall k, k ∈ done_ids evs -> nd_closed n' = true /\ k = stream_worker (ro_wire (nd_run n'))) ->
  cluster_inv R (<[i := n']> nodes) (evs0 ++ evs) fs.
Proof.
  intros [Hn Hb Hd] Hi Hn' Hrec Hcl Hdone.
  destruct (insert_split nodes i n n' Hi) as (l1 & l2 & -> & ->). constructor.
  - apply Forall_app in Hn as [? [_ ?]%Forall_cons]. apply Forall_app. split; [done|by constructor].
  - rewrite run_batches_app, Hb, !bind_app. csimpl. rewrite Hrec. solve_Permutation.
  - unfold done_ids, closed_ids in *. rewrite omap_app, list_to_set_app_L.
    assert (Hsub : forall k, nd_closed n = true -> k = stream_worker (ro_wire (nd_run n)) ->
      nd_closed n' = true /\ k = stream_worker (ro_wire (nd_run n'))).
    { intros k Hc ->. destruct (Hcl Hc) as [? ->]. done. }
    intros k. rewrite !elem_of_union, !elem_of_list_to_set. intros Hk.
    rewrite list_elem_of_fmap. setoid_rewrite list_elem_of_filter. setoid_rewrite elem_of_app.
    setoid_rewrite elem_of_cons. destruct Hk as [Hk|Hk].
    + specialize (Hd k). rewrite elem_of_union, !elem_of_list_to_set, list_elem_of_fmap in Hd.
      destruct (Hd Hk) as [(x & Hx & Hin)|Hf]; [left|by right].
      rewrite list_elem_of_filter, elem_of_app, elem_of_cons in Hin.
      destruct Hin as [Hc [Hin|[->|Hin]]]; [by exists x; auto| |by exists x; auto].
      destruct (Hsub k Hc Hx). exists n'. auto.
    + left. destruct (Hdone k Hk). exists n'. auto.
Qed.

Lemma cluster_exec_inv R e nodes nodes' evs0 fs evs :
  cluster_inv R nodes evs0 fs -> cluster_exec e nodes = Some (nodes', evs) ->
  cluster_inv R nodes' (evs0 ++ evs) (fs ++ foreign [e]).
Proof.
  intros Hi He. pose proof (ci_nodes _ _ _ _ Hi) as Hn.
  assert (Hkeep : forall e', (forall o, e' <> CE_Other o) -> fs ++ foreign [e'] = fs)
    by (intros [| | |o] Ho; csimpl; rewrite ?app_nil_r; by try destruct (Ho o)).
  destruct e as [i e|i|i|e]; simpl in He.
  - destruct (nodes !! i) as [n|] eqn:Hl; simpl in He; [|done].
    destruct (run_exec _ _ _ e (nd_run n)) as [s|] eqn:Hx; simpl in He; [|done].
    destruct (match e with OE_UploadAcked => _ | _ => _ end); [|done]. injection He as <- <-.
    destruct (node_run_inv R n e s) as (Hn' & Hrec & Hw); [by eapply Forall_lookup_1|done|].
    rewrite Hkeep by done. apply (cluster_inv_update R nodes evs0 fs [] i n); try done.
    + rewrite Hrec. csimpl. by rewrite app_nil_r.
    + intros Hc. split; [done|]. by apply Hw.
    + intros k Hk. by apply elem_of_nil in Hk.
  - destruct (nodes !! i) as [n|] eqn:Hl; simpl in He; [|done].
    destruct (ro_wire (nd_run n) !! nd_delivered n) as [b|] eqn:Hb; simpl in He; [|done].
    injection He as <- <-. pose proof (Forall_lookup_1 _ _ _ _ Hn Hl) as Hni.
    pose proof (lookup_lt_Some _ _ _ Hb) as Hlt.
    rewrite Hkeep by done. apply (cluster_inv_update R nodes evs0 fs [MEBatch b] i n); try done.
    + destruct Hni as [Hr Hd Hc]. constructor; simpl; [done|lia|].
      intros Hcl. destruct (Hc Hcl) as (_ & _ & _ & ?). lia.
    + unfold received. csimpl. rewrite bool_decide_eq_true_2.
      2: { eapply wire_run_id; [done|by eapply list_elem_of_lookup_2]. }
      by rewrite (take_S_r _ _ _ Hb).
    + intros k Hk. by apply elem_of_nil in Hk.
  - destruct (nodes !! i) as [n|] eqn:Hl; simpl in He; [|done].
    destruct (stream_ended (nd_run n)) eqn:Hs; [|done]. destruct (Nat.eqb_spec (nd_delivered n)
      (length (ro_wire (nd_run n)))) as [Hd|]; [|done]. destruct (nd_closed n) eqn:Hc; [done|].
    injection He as <- <-. pose proof (Forall_lookup_1 _ _ _ _ Hn Hl) as Hni.
    unfold stream_ended in Hs. rewrite !andb_true_iff, !bool_decide_eq_true in Hs.
    destruct Hs as [[Ht Hb] Hu].
    rewrite Hkeep by done. apply (cluster_inv_update R nodes evs0 fs [METelemetryDone (stream_worker (ro_wire (nd_run n)))] i n); try done.
    + destruct Hni as [Hr Hd' _]. constructor; simpl; [done|done|]. intros _.
      destruct Hr as (? & ? & ? & ? & Hr). pose proof (ri_upload _ _ Hr) as Hup. rewrite Hu in Hup.
      by split_and!.
    + csimpl. by rewrite app_nil_r.
    + intros k. csimpl. destruct (str_is_empty _); [by intros ?%elem_of_nil|].
      by intros ->%list_elem_of_singleton.
  - injection He as <- <-. destruct Hi as [Hi1 Hi2 Hi3]. change (foreign [CE_Other e]) with [e].
    constructor; [done|..].
    + by rewrite !run_batches_app, Hi2, app_assoc.
    + unfold done_ids in *. rewrite !omap_app, !list_to_set_app_L. set_solver.
Qed.

Lemma cluster_trace_inv R es nodes nodes' evs0 fs evs :
  cluster_inv R nodes evs0 fs -> cluster_trace es nodes = Some (nodes', evs) ->
  cluster_inv R nodes' (evs0 ++ evs) (fs ++ foreign es).
Proof.
  revert nodes evs0 fs evs. induction es as [|e es IH]; intros nodes evs0 fs evs Hi.
  { intros [= <- <-]. by rewrite !app_nil_r. }
  rewrite (omap_app _ [e] es : foreign (e :: es) = foreign [e] ++ foreign es). cbn [cluster_trace].
  destruct (cluster_exec e nodes) as [[n1 e1]|] eqn:E1; simpl; [|done].
  destruct (cluster_trace es n1) as [[n2 e2]|] eqn:E2; simpl; [|done]. intros [= <- <-].
  rewrite !app_assoc. eapply IH; [by eapply cluster_exec_inv|done].
Qed.

Lemma cluster_trace_length es nodes nodes' evs :
  cluster_trace es nodes = Some (nodes', evs) -> length nodes' = length nodes.
Proof.
  revert nodes evs. induction es as [|e es IH]; intros nodes evs; simpl; [by intros [= <- _]|].
  destruct (cluster_exec e nodes) as [[n1 e1]|] eqn:E1; simpl; [|done].
  destruct (cluster_trace es n1) as [[n2 e2]|] eqn:E2; simpl; [|done]. intros [= <- _].
  rewrite (IH _ _ E2). destruct e; simpl in E1; repeat (case_match; simplify_eq/=); try done.
  all: repeat match type of E1 with (_ ≫= _) = _ => apply bind_Some in E1 as (? & ? & E1) end.
  all: repeat case_match; simplify_eq; by rewrite ?length_insert.
Qed.

(** ** The master's view of completion *)

Definition done_at (allocated : list string) (evs : list MasterEvent) (s : MasterState) : Prop :=
  exists run, ms_run s = Some run /\ ar_allocated run = allocated /\
    ar_telemetry_done run = list_to_set (done_ids evs).

Lemma master_step_done_at al evs s e : done_at al evs s -> done_at al (evs ++ [e]) (master_step s e).
Proof.
  intros (run & Hr & Ha & Hd). unfold done_at, done_ids in *. rewrite omap_app, list_to_set_app_L.
  destruct e as [now q|now q|k|r|b|k|c]; csimpl; rewrite ?(right_id_L ∅ (∪)).
  - unfold register_worker. destruct (register now q (ms_registry s)); simpl; eauto.
  - unfold heartbeat. destruct (record_heartbeat _ _ _ _ _ _); simpl; eauto.
  - unfold watch_commands. simpl. destruct (attach_commands _ _ _); simpl; eauto.
  - unfold record_ack. rewrite Hr. case_bool_decide; [|by eauto]. eexists. split; [done|]. by simpl.
  - unfold ingest_batch. rewrite Hr. case_bool_decide; simpl; eauto.
  - unfold mark_telemetry_done. destruct (str_is_empty k); csimpl; [rewrite (right_id_L ∅ (∪)); by eauto|].
    rewrite Hr. eexists. split; [done|]. simpl. split; [done|]. rewrite Hd. set_solver.
  - eauto.
Qed.

Lemma master_steps_done_at al evs0 evs s : done_at al evs0 s -> done_at al (evs0 ++ evs) (master_steps s evs).
Proof.
  revert evs0 s. induction evs as [|e evs IH]; intros evs0 s Hs; [by rewrite app_nil_r|].
  change (e :: evs) with ([e] ++ evs). rewrite app_assoc. apply IH. by apply master_step_done_at.
Qed.

Lemma broadcast_done_at al evs0 c ks evs s d :
  done_at al evs0 s -> done_at al (evs0 ++ concat (take (length ks) evs)) (broadcast c ks evs s d).1.
Proof.
  revert evs0 evs s d. induction ks as [|k ks IH]; intros evs0 evs s d Hs; simpl; [by rewrite app_nil_r|].
  pose proof (master_steps_done_at _ _ (hd [] evs) _ Hs) as H1.
  assert (H2 : done_at al (evs0 ++ hd [] evs) (send_command k c (master_steps s (hd [] evs))).1).
  { unfold send_command, stream_send. destruct (command_sender _ _) as [tx|]; [|done].
    by destruct (ms_streams _ !! tx). }
  destruct (send_command k c (master_steps s (hd [] evs))) as [s1 ok]. simpl in H2.
  pose proof (IH _ (tl evs) s1 (if ok then d + 1 else d) H2) as H3. rewrite <- app_assoc in H3.
  destruct evs as [|e evs]; simpl in *; [by rewrite take_nil in H3|done].
Qed.

(** [l] is the shortest input on which [f] returns, and it returns [x]: what a loop
    consumed. *)
Definition consumes {A B} (f : list A -> option B) (l : list A) (x : B) : Prop :=
  f l = Some x /\ forall l1 l2, l = l1 ++ l2 -> l2 <> [] -> f l1 = None.

(** The completion loop handles the events of a prefix of the polls. *)
Lemma wait_complete_steps deadline polls s s' :
  wait_complete deadline polls s = Some s' ->
  exists used rest, polls = used ++ rest /\ s' = master_steps s (concat used.*1) /\
    consumes (fun polls => wait_complete deadline polls s) used s' /\
    (run_complete s' = true \/ exists t, t ∈ used.*2 /\ deadline <= t).
Proof.
  assert (Hone : forall p x (f : list (list MasterEvent * Z) -> option MasterState),
    f [p] = Some x -> f [] = None -> consumes f [p] x).
  { intros p x f Hf Hn. split; [done|]. intros [|q l1] l2 He Hl; [done|].
    injection He as <- He. symmetry in He. apply app_nil in He as [_ ?]. done. }
  revert s. induction polls as [|[evs now] polls IH]; intros s; simpl; [done|].
  destruct (run_complete (master_steps s evs)) eqn:Hc.
  { intros [= <-]. exists [(evs, now)], polls. csimpl. rewrite app_nil_r. split_and!; [done|done| |by left].
    apply Hone; simpl; [by rewrite Hc|done]. }
  unfold duration_since. destruct (Z.eqb_spec (Z.max 0 (deadline - now)) 0) as [Hz|Hz].
  { intros [= <-]. exists [(evs, now)], polls. csimpl. rewrite app_nil_r. split_and!; [done|done| |].
    - apply Hone; simpl; [|done]. rewrite Hc. unfold duration_since. by rewrite (proj2 (Z.eqb_eq _ 0)).
    - right. exists now. split; [left|lia]. }
  assert (Hskip : forall l, wait_complete deadline ((evs, now) :: l) s = wait_complete deadline l (master_steps s evs)).
  { intros l. simpl. rewrite Hc. unfold duration_since. by rewrite (proj2 (Z.eqb_neq _ 0)). }
  intros (used & rest & -> & -> & [Hu Hmin] & Hd)%IH. exists ((evs, now) :: used), rest. csimpl.
  unfold master_steps in *. rewrite foldl_app. split_and!; [done|done| |].
  - split; [by rewrite Hskip|]. intros [|p l1] l2 He Hl; [done|]. injection He as <- He.
    rewrite Hskip. by eapply Hmin.
  - destruct Hd as [|(t & Hin & ?)]; [by left|right]. exists t. split; [by right|done].
Qed.

(** A successful [start_run]: the events it handled, its report, and why it
    stopped waiting. *)
Lemma start_run_reported config allocated now_ms now before during polls s s' report :
  start_run config (Ok allocated) now_ms now before during polls s = Some (s', Ok report) ->
  let R := resolve_run_id now_ms config in
  exists used rest s3, polls = used ++ rest /\
    consumes (fun polls => start_run config (Ok allocated) now_ms now before during polls s) used (s', Ok report) /\
    let evs := concat (take (length allocated) during) ++ concat used.*1 in
    report = finalize (pipeline_after R (run_buckets (ms_config s)) (run_window (ms_config s))
               (run_batches R evs)) /\
    done_at allocated evs s3 /\
    (run_complete s3 = true \/
     exists t, t ∈ used.*2 /\ now + run_duration config + COMPLETION_GRACE <= t).
Proof.
  intros Hr R. unfold start_run in Hr. destruct allocated as [|k ks]; [done|]. fold R in Hr.
  destruct (install_run R _ _ (master_steps s before)) as [s1 [[]|e]] eqn:Hi; [|done]. pose proof Hi as Hi0.
  assert (Hd1 : done_at (k :: ks) [] s1).
  { unfold install_run in Hi. destruct (ms_run _); [done|]. injection Hi as <-. by eexists. }
  apply install_run_at in Hi as [_ Hat]. rewrite master_steps_config in Hat.
  set (c := start_command R _ _) in Hr.
  pose proof (broadcast_run_at _ _ _ _ c (k :: ks) during s1 0 Hat) as Hat2.
  pose proof (broadcast_done_at _ _ c (k :: ks) during s1 0 Hd1) as Hd2.
  destruct (broadcast c (k :: ks) during s1 0) as [s2 d] eqn:Hb. cbn [fst] in Hat2, Hd2.
  destruct (d =? 0) eqn:Hz; [done|]. destruct (wait_complete _ polls s2) as [s3|] eqn:Hw; simpl in Hr; [|done].
  apply wait_complete_steps in Hw as (used & rest & -> & -> & [Hused Hmin] & Hend).
  apply (master_steps_run_at _ _ _ _ _ (concat used.*1)) in Hat2.
  apply (master_steps_done_at _ _ (concat used.*1)) in Hd2.
  exists used, rest, (master_steps s2 (concat used.*1)). split; [done|]. cbv zeta.
  assert (Hrun : forall l, start_run config (Ok (k :: ks)) now_ms now before during l s =
    s3 ← wait_complete (now + run_duration (with_run_id R config) + COMPLETION_GRACE) l s2; Some (finish_run s3)).
  { intros l. unfold start_run. fold R. rewrite Hi0. fold c. by rewrite Hb, Hz. }
  split. { split; [by rewrite Hrun, Hused|]. intros l1 l2 He Hl. by rewrite Hrun, (Hmin l1 l2). }
  split_and!; [|exact Hd2|exact Hend]. destruct (finish_run_at _ _ _ _ _ Hat2) as [_ Hf].
  injection Hr as Hr. rewrite Hr in Hf. simpl in Hf. rewrite <- run_batches_app in Hf.
  destruct (ingest_panics _ _); [done|]. by injection Hf.
Qed.

Lemma size_list_to_set_le (l : list string) : (size (list_to_set l : gset string) <= length l)%nat.
Proof.
  induction l as [|k l IH]; simpl; [unfold size; done|]. rewrite size_union_alt, size_singleton.
  assert (size ((list_to_set l : gset string) ∖ {[k]}) <= size (list_to_set l : gset string))%nat
    by (apply subseteq_size; set_solver). lia.
Qed.

Lemma length_filter_split {A} (P : A -> Prop) `{!forall x, Decision (P x)} (l : list A) :
  (length (filter P l) + length (filter (fun x => ~ P x) l) = length l)%nat.
Proof. induction l as [|x l IH]; [done|]. rewrite !filter_cons. repeat case_decide; simpl; try done; lia. Qed.

(** Once as many workers are marked as were allocated, as many streams of the run
    are still open as other streams ended in their place, at most. *)
Lemma open_streams R nodes evs fs (allocated : list string) s :
  cluster_inv R nodes evs fs -> length allocated = length nodes ->
  done_at allocated evs s -> run_complete s = true ->
  (length (filter (fun n => ~ nd_closed n = true) nodes) <= size (list_to_set (done_ids fs) : gset string))%nat.
Proof.
  intros [_ _ Hd] Hl (run & Hr & Ha & Ht) Hc. unfold run_complete in Hc. rewrite Hr in Hc.
  apply bool_decide_eq_true in Hc. rewrite Ha, Ht in Hc. apply subseteq_size in Hd.
  pose proof (size_list_to_set_le (closed_ids nodes)) as Hs. unfold closed_ids in Hs at 2. rewrite length_fmap in Hs.
  assert (size (list_to_set (closed_ids nodes) ∪ list_to_set (done_ids fs) : gset string) <=
    size (list_to_set (closed_ids nodes) : gset string) + size (list_to_set (done_ids fs) : gset string))%nat.
  { rewrite size_union_alt. apply Nat.add_le_mono_l, subseteq_size. set_solver. }
  pose proof (length_filter_split (fun n => nd_closed n = true) nodes). lia.
Qed.

(** Every stream has ended if no other did. *)
Lemma all_closed nodes fs :
  (length (filter (fun n => ~ nd_closed n = true) nodes) <= size (list_to_set (done_ids fs) : gset string))%nat ->
  done_ids fs = [] -> Forall (fun n => nd_closed n = true) nodes.
Proof.
  intros Ho Hf. rewrite Hf in Ho. change (size (list_to_set [] : gset string)) with 0%nat in Ho.
  apply Forall_forall. intros n Hn. destruct (decide (nd_closed n = true)) as [|Hc]; [done|exfalso].
  assert (n ∈ filter (fun n => ~ nd_closed n = true) nodes) as Hm by by apply list_elem_of_filter.
  destruct (filter (fun n => ~ nd_closed n = true) nodes); [by apply elem_of_nil in Hm|simpl in Ho; lia].
Qed.
End cluster.

Section claims.
Context `{Hist : Histogram} `{!HistogramLaws} `{MapOrder}.
Context (metric_cap batch_cap : nat) (limited : bool).

Lemma resolve_run_id_nonempty now_ms config : str_is_empty (resolve_run_id now_ms config) = false.
Proof.
  unfold resolve_run_id. destruct (is_blank (tc_test_run_id config)) eqn:E; [done|].
  by destruct (tc_test_run_id config).
Qed.

(** A worker executes START under the run id of the master. *)
Lemma started_run_id R id cfg n :
  str_is_empty R = false ->
  resolve_test_run_id (ns_params n) (ns_now_secs n) (cr_test_run_id (start_command R id cfg)) = R.
Proof. intros HR. unfold resolve_test_run_id. simpl. by rewrite HR. Qed.

Lemma start_inv R id cfg starts :
  str_is_empty R = false -> cluster_inv R (Node_new (start_command R id cfg) <$> starts) [] [].
Proof.
  intros HR. constructor; csimpl.
  - apply Forall_fmap, Forall_true. intros n. simpl. constructor; simpl; [|lia|done].
    pose proof (started_run_id R id cfg n HR) as Hid. simpl in Hid. rewrite Hid. eexists _, _, _, _. apply new_run_inv.
  - rewrite app_nil_r. induction starts as [|n l IH]; csimpl; [done|]. by rewrite <- IH.
  - set_solver.
Qed.

(** A closed stream carried everything its run recorded. *)
Lemma closed_describes R n :
  node_inv R n -> nd_closed n = true -> Z.of_nat (length (ro_produced (nd_run n))) <= U64_MAX ->
  received n = ro_wire (nd_run n) /\ describes_all (recorded (ro_events (nd_run n))) (ro_wire (nd_run n)) /\
  (ro_cancelled (nd_run n) = false -> ro_produced (nd_run n) ≡ₚ recorded (ro_events (nd_run n))).
Proof.
  intros [(now & wk & win & act & Hr) _ Hc] Hcl Hl. destruct (Hc Hcl) as (Ht & Hb & Hd & Hdel).
  pose proof (recorded_bound _ _ Hr Hl) as Hl'. destruct Hr as [Hrun Hm _ Hf Hn _ _].
  assert (Hph : held (ro_phase (nd_run n)) = [] /\ left_loop (ro_phase (nd_run n)) = true)
    by (unfold tx_dropped in Ht; by destruct (ro_phase (nd_run n))).
  destruct Hph as [Hh Hlo]. rewrite Hb, Hd, Hh, !app_nil_r in Hrun. split_and!.
  - unfold received. by rewrite Hdel, take_ge.
  - by destruct (flushed_describes _ _ _ _ _ _ _ _ Hrun Hl' (Hf Hlo)).
  - intros Hcan. destruct (Hn Hlo Hcan Hd) as [(_ & _ & Hs)%vus_gone_iff Hq]. by rewrite Hm, Hq, Hs, !app_nil_r.
Qed.

Lemma closed_received R nodes n :
  Forall (node_inv R) nodes -> n ∈ nodes -> nd_closed n = true ->
  Z.of_nat (length (nodes ≫= fun n => ro_produced (nd_run n))) <= U64_MAX ->
  describes_all (recorded (ro_events (nd_run n))) (received n).
Proof.
  intros Hni Hn Hcl Hl. rewrite Forall_forall in Hni.
  apply list_elem_of_split in Hn as (l1 & l2 & ->). rewrite bind_app in Hl. csimpl in Hl. rewrite !length_app in Hl.
  destruct (closed_describes R n) as (-> & Hd & _); [apply Hni; set_solver|done|lia|done].
Qed.

Lemma closed_all R nodes :
  Forall (node_inv R) nodes -> Forall (fun n => nd_closed n = true) nodes ->
  Z.of_nat (length (nodes ≫= fun n => ro_produced (nd_run n))) <= U64_MAX ->
  describes_all (nodes ≫= fun n => recorded (ro_events (nd_run n))) (nodes ≫= received) /\
  (Forall (fun n => ro_cancelled (nd_run n) = false) nodes ->
   nodes ≫= (fun n => ro_produced (nd_run n)) ≡ₚ nodes ≫= fun n => recorded (ro_events (nd_run n))) /\
  (length (nodes ≫= fun n => recorded (ro_events (nd_run n)))
   <= length (nodes ≫= fun n => ro_produced (nd_run n)))%nat.
Proof.
  intros Hn Hc. induction Hn as [|n nodes Hi Hn IH]; csimpl.
  { intros _. split_and!; [apply describes_all_nil|done|done]. }
  apply Forall_cons in Hc as [Hcl Hc]. rewrite !length_app. intros Hl.
  destruct (closed_describes R n Hi Hcl) as (Hrec & Hd & Hnat); [lia|].
  destruct (IH Hc) as (Hd' & Hnat' & Hle); [lia|]. split_and!.
  - rewrite Hrec. by apply describes_all_app.
  - intros [? ?]%Forall_cons. by rewrite Hnat, Hnat' by done.
  - destruct Hi as [(? & ? & ? & ? & Hr) _ _]. pose proof (Permutation_length (ri_metrics _ _ Hr)) as Hp.
    rewrite length_app in Hp. lia.
Qed.

(** C1. From the virtual users to the report, through every interleaving of the
    cluster and arbitrary requests from elsewhere.  When [start_run] succeeds, its
    report is that of the batches received from the allocated workers together
    with the batches from elsewhere that carry this run's id, and nothing else; a worker whose
    stream has ended has delivered batches that describe all it recorded.  When it stopped waiting because
    as many telemetry streams had ended as workers were allocated (none of the polls
    it made is at or after its deadline), at most as many streams of the run are
    still open as streams from elsewhere ended under a worker id of their own,
    since [run.rs] counts the end of any stream.  So, if no stream from elsewhere
    ended and no foreign batch carried this run's id, the report counts
    every outcome the allocated workers recorded exactly once, and every outcome
    their virtual users produced if no run was cancelled. *)
Theorem cluster_run_exact config starts now_ms now before during polls s s' report :
  let R := resolve_run_id now_ms config in
  let command := start_command R ("cmd-" ++ R ++ "-start") (with_run_id R config) in
  start_run config (Ok ((fun n => rp_worker_id (ns_params n)) <$> starts)) now_ms now before during polls s
    = Some (s', Ok report) ->
  (10 <= run_buckets (ms_config s))%nat ->
  exists used rest, polls = used ++ rest /\
  consumes (fun polls => start_run config (Ok ((fun n => rp_worker_id (ns_params n)) <$> starts)) now_ms now
              before during polls s) used (s', Ok report) /\
  forall es nodes,
    cluster_trace metric_cap batch_cap limited es (Node_new command <$> starts)
      = Some (nodes, concat (take (length starts) during) ++ concat used.*1) ->
    Z.of_nat (length (nodes ≫= fun n => ro_produced (nd_run n))) <= U64_MAX ->
    (exists bs, bs ≡ₚ (nodes ≫= received) ++ run_batches R (foreign es) /\
       report = finalize (pipeline_after R (run_buckets (ms_config s)) (run_window (ms_config s)) bs)) /\
    (forall n, n ∈ nodes -> nd_closed n = true -> describes_all (recorded (ro_events (nd_run n))) (received n)) /\
    ((forall t, t ∈ used.*2 -> t < now + run_duration config + COMPLETION_GRACE) ->
     (length (filter (fun n => ~ nd_closed n = true) nodes)
        <= size (list_to_set (done_ids (foreign es)) : gset string))%nat /\
     (done_ids (foreign es) = [] -> run_batches R (foreign es) = [] ->
      let l := nodes ≫= fun n => recorded (ro_events (nd_run n)) in
      gr_total_requests report = Z.of_nat (length l) /\
      gr_success_count report = count_if (fun m => negb (is_error m)) l /\
      gr_failure_count report = count_if is_error l /\
      u64_sum (gl_bucket_counts (gr_latency report)) = Z.of_nat (length l) /\
      u64_sum (ecc_count <$> gr_error_breakdown report) = count_if is_error l /\
      gr_bytes_received report = wrap64 (Zsum (rm_bytes_received <$> l)) /\
      (Forall (fun n => ro_cancelled (nd_run n) = false) nodes ->
       nodes ≫= (fun n => ro_produced (nd_run n)) ≡ₚ l))).
Proof.
  intros R command Hrun Hb.
  destruct (start_run_reported _ _ _ _ _ _ _ _ _ _ Hrun) as (used & rest & s3 & Hp & Hcons & Hrep & Hd & Hend).
  fold R in Hrep. rewrite length_fmap in Hrep, Hd. exists used, rest. split; [done|]. split; [done|].
  intros es nodes Ht Hl.
  pose proof (cluster_trace_inv _ _ _ _ _ _ _ [] [] _ (start_inv R _ _ starts
    (resolve_run_id_nonempty now_ms config)) Ht) as Hi. simpl in Hi.
  assert (Hlen : length ((fun n => rp_worker_id (ns_params n)) <$> starts) = length nodes).
  { rewrite (cluster_trace_length _ _ _ _ _ _ _ Ht). by rewrite !length_fmap. }
  pose proof Hi as [Hni Hbs _]. split; [by eexists|]. split.
  { intros n Hn Hcl. by eapply closed_received. }
  intros Hin. assert (Hc : run_complete s3 = true).
  { destruct Hend as [|(t & Ht1 & Ht2)]; [done|]. specialize (Hin t Ht1). lia. }
  pose proof (open_streams _ _ _ _ _ _ Hi Hlen Hd Hc) as Ho. split; [done|]. intros Hf1 Hf2 l.
  rewrite Hf2, app_nil_r in Hbs. pose proof (all_closed _ _ Ho Hf1) as Hcl.
  destruct (closed_all R nodes Hni Hcl Hl) as (Hdesc & Hnat & Hle).
  destruct (described_report R (run_buckets (ms_config s)) (run_window (ms_config s)) l
    (run_batches R (concat (take (length starts) during) ++ concat used.*1)))
    as (T & S & F & _ & _ & B & E & Y); [by eapply describes_all_perm|unfold l; lia|done|].
  rewrite <- Hrep in *. split_and!; try done; try congruence.
Qed.

Lemma done_ids_nonempty evs k : k ∈ done_ids evs -> k <> ""%string.
Proof.
  unfold done_ids. rewrite list_elem_of_omap. intros (e & _ & He). destruct e; try done.
  destruct (str_is_empty worker_id) eqn:E; simplify_eq. by intros ->.
Qed.

(** A stream that carried nothing is not credited to any worker. *)
Lemma silent_not_done R nodes evs fs (allocated : list string) s n :
  cluster_inv R nodes evs fs -> done_ids fs = [] -> length allocated = length nodes -> n ∈ nodes -> ro_wire (nd_run n) = [] ->
  done_at allocated evs s -> run_complete s = false.
Proof.
  intros [_ _ Hd] Hf Hl Hn Hw (run & Hr & Ha & Ht). rewrite Hf in Hd.
  change (list_to_set []) with (∅ : gset string) in Hd. rewrite (right_id_L ∅ (∪)) in Hd.
  unfold closed_ids in Hd. unfold run_complete. rewrite Hr, Ha, Ht.
  apply bool_decide_eq_false. intros Hc.
  assert (Hsub : (list_to_set (done_ids evs) : gset string) ⊆
    list_to_set ((fun n => stream_worker (ro_wire (nd_run n))) <$>
                 filter (fun n => ro_wire (nd_run n) <> []) nodes)).
  { intros k Hk. specialize (Hd k Hk). rewrite elem_of_list_to_set, list_elem_of_fmap in *.
    destruct Hd as (x & -> & [_ Hx]%list_elem_of_filter). exists x. split; [done|].
    apply list_elem_of_filter. split; [|done]. intros Hx0.
    apply (done_ids_nonempty evs _ Hk). by rewrite Hx0. }
  apply subseteq_size in Hsub.
  pose proof (size_list_to_set_le ((fun n => stream_worker (ro_wire (nd_run n))) <$>
    filter (fun n => ro_wire (nd_run n) <> []) nodes)) as Hs. rewrite length_fmap in Hs.
  pose proof (length_filter_lt (fun n => ro_wire (nd_run n) <> []) nodes n Hn ltac:(by intros [])). lia.
Qed.

(** A worker without a single batch holds up the report: the end of its stream
    names no worker, so it is never counted, and unless a stream from elsewhere is
    counted in its place the master reports only once a
    poll has reached the deadline, although every stream may have ended. *)
Theorem silent_worker_forces_deadline config starts now_ms now before during polls s s' report :
  let R := resolve_run_id now_ms config in
  let command := start_command R ("cmd-" ++ R ++ "-start") (with_run_id R config) in
  start_run config (Ok ((fun n => rp_worker_id (ns_params n)) <$> starts)) now_ms now before during polls s
    = Some (s', Ok report) ->
  exists used rest, polls = used ++ rest /\
  consumes (fun polls => start_run config (Ok ((fun n => rp_worker_id (ns_params n)) <$> starts)) now_ms now
              before during polls s) used (s', Ok report) /\
  forall es nodes n,
    cluster_trace metric_cap batch_cap limited es (Node_new command <$> starts)
      = Some (nodes, concat (take (length starts) during) ++ concat used.*1) ->
    done_ids (foreign es) = [] -> n ∈ nodes -> ro_wire (nd_run n) = [] ->
    exists t, t ∈ used.*2 /\ now + run_duration config + COMPLETION_GRACE <= t.
Proof.
  intros R command Hrun.
  destruct (start_run_reported _ _ _ _ _ _ _ _ _ _ Hrun) as (used & rest & s3 & Hp & Hcons & _ & Hd & Hend).
  rewrite length_fmap in Hd. exists used, rest. split; [done|]. split; [done|]. intros es nodes n Ht Hf Hn Hw.
  destruct Hend as [Hc|]; [|done]. exfalso.
  pose proof (cluster_trace_inv _ _ _ _ _ _ _ [] [] _ (start_inv R _ _ starts
    (resolve_run_id_nonempty now_ms config)) Ht) as Hi. simpl in Hi.
  assert (Hlen : length ((fun n => rp_worker_id (ns_params n)) <$> starts) = length nodes).
  { rewrite (cluster_trace_length _ _ _ _ _ _ _ Ht). by rewrite !length_fmap. }
  by rewrite (silent_not_done _ _ _ _ _ _ n Hi Hf Hlen Hn Hw Hd) in Hc.
Qed.
End claims.

(** ** Witness: one worker, two outcomes *)

Definition demo_start : NodeStart := mkNodeStart sample_params 7 1000 1 1.

Definition demo_schedule : list ClusterEvent :=
  (CE_Run 0 <$> take 14 demo_run_events) ++ [CE_Deliver 0; CE_Other (MEHeartbeat 2 (hb_ready "w2"))] ++
  (CE_Run 0 <$> [OE_VusJoined; OE_Upload]) ++ [CE_Deliver 0; CE_Close 0] ++
  (CE_Run 0 <$> [OE_UploadAcked; OE_UploadJoined]).

Abbreviation demo_master evs :=
  (start_run sample_run_config (Ok ((fun n => rp_worker_id (ns_params n)) <$> [demo_start])) 5 0 [] []
     [(evs, 10)] sample_joined) (only parsing).

Definition reported (n : Z) (o : option (MasterState * result MasterError GlobalReport)) : bool :=
  match o with Some (_, Ok r) => gr_total_requests r =? n | _ => false end.

Lemma reported_spec n o : reported n o = true -> exists s r, o = Some (s, Ok r) /\ gr_total_requests r = n.
Proof. destruct o as [[s [r|e]]|]; simpl; try done. intros ?%Z.eqb_eq. eauto. Qed.

Lemma trace_spec {A B} (P : A -> B -> bool) (o : option (A * B)) :
  match o with Some (a, b) => P a b | None => false end = true -> exists a b, o = Some (a, b) /\ P a b = true.
Proof. destruct o as [[a b]|]; [eauto|done]. Qed.

Abbreviation demo_id := (resolve_run_id 5 sample_run_config) (only parsing).
Abbreviation demo_nodes :=
  (Node_new (start_command demo_id ("cmd-" ++ demo_id ++ "-start") (with_run_id demo_id sample_run_config))
     <$> [demo_start]) (only parsing).
Abbreviation demo_cluster := (cluster_trace 8 4 true demo_schedule demo_nodes) (only parsing).

Lemma demo_runs :
  exists nodes evs s r, demo_cluster = Some (nodes, evs) /\ demo_master evs = Some (s, Ok r) /\
    gr_total_requests r = 2 /\ length (nodes ≫= fun n => ro_produced (nd_run n)) = 2%nat.
Proof.
  destruct (trace_spec (fun nodes evs => reported 2 (demo_master evs) &&
      Nat.eqb (length (nodes ≫= fun n => ro_produced (nd_run n))) 2) demo_cluster)
    as (nodes & evs & Htr & Hok); [by vm_compute|].
  apply andb_true_iff in Hok as [Hrep Hlen%Nat.eqb_eq].
  apply reported_spec in Hrep as (s & r & Hm & Htot).
  exists nodes, evs, s, r. exact (conj Htr (conj Hm (conj Htot Hlen))).
Qed.

Lemma demo_nodes_idle :
  length (demo_nodes ≫= fun n => ro_produced (nd_run n)) = 0%nat /\
  length (demo_nodes ≫= fun n => recorded (ro_events (nd_run n))) = 0%nat.
Proof. split; by vm_compute. Qed.

Lemma demo_buckets : (10 <= run_buckets (ms_config sample_joined))%nat.
Proof. vm_compute. lia. Qed.

Lemma demo_deadline t : t ∈ [10] -> t < 0 + run_duration sample_run_config + COMPLETION_GRACE.
Proof. intros ->%list_elem_of_singleton. by vm_compute. Qed.

Lemma trace_nil (nodes : list Node) : cluster_trace 8 4 true [] nodes = Some (nodes, []).
Proof. done. Qed.

Lemma cluster_run_exact_witness :
  exists evs s r nodes, demo_master evs = Some (s, Ok r) /\ demo_cluster = Some (nodes, evs) /\
    length (nodes ≫= fun n => ro_produced (nd_run n)) = 2%nat /\
    gr_total_requests r = Z.of_nat (length (nodes ≫= fun n => recorded (ro_events (nd_run n)))).
Proof.
  destruct demo_runs as (nodes & evs & s & r & Htr & Hm & Htot & Hlen). exists evs, s, r, nodes.
  split; [exact Hm|]. split; [exact Htr|]. split; [exact Hlen|].
  destruct (cluster_run_exact 8 4 true sample_run_config [demo_start] 5 0 [] [] [(evs, 10)]
    sample_joined s r Hm demo_buckets) as (used & rest & Hp & Hcons & Hall).
  destruct used as [|p used].
  - exfalso. destruct demo_nodes_idle as [H1 H2].
    destruct (Hall [] demo_nodes (trace_nil _)) as (_ & _ & Hend); [rewrite H1; discriminate|].
    destruct Hend as (_ & T); [intros t Ht; inversion Ht|].
    destruct (T eq_refl eq_refl) as (T1 & _). rewrite H2, Htot in T1. discriminate T1.
  - injection Hp as <- Hp. destruct used; [|discriminate Hp].
    assert (Hev : concat (take (length [demo_start]) ([] : list (list MasterEvent))) ++ concat [(evs, 10)].*1
                  = evs) by exact (app_nil_r evs).
    rewrite Hev in Hall. destruct (Hall demo_schedule nodes Htr) as (_ & _ & Hend); [rewrite Hlen; discriminate|].
    destruct (Hend demo_deadline) as (_ & T). destruct (T eq_refl eq_refl) as (T1 & _). exact T1.
Defined.

(** The same master, and a worker whose run ends without an outcome. *)
Definition demo_silent_schedule : list ClusterEvent :=
  (CE_Run 0 <$> [OE_VuStops; OE_SeeClosed 1500; OE_VusJoined]) ++ [CE_Close 0] ++
  (CE_Run 0 <$> [OE_UploadAcked; OE_UploadJoined]).

Abbreviation demo_late evs :=
  (start_run sample_run_config (Ok ((fun n => rp_worker_id (ns_params n)) <$> [demo_start])) 5 0 [] []
     [(evs, 7000000000)] sample_joined) (only parsing).
Abbreviation demo_silent := (cluster_trace 8 4 true demo_silent_schedule demo_nodes) (only parsing).

Lemma demo_silent_runs :
  exists nodes evs s r, demo_silent = Some (nodes, evs) /\ demo_late evs = Some (s, Ok r) /\
    forallb (fun n => nd_closed n && bool_decide (ro_wire (nd_run n) = [])) nodes = true /\
    length nodes = 1%nat.
Proof.
  destruct (trace_spec (fun nodes evs => reported 0 (demo_late evs) && (forallb (fun n =>
      nd_closed n && bool_decide (ro_wire (nd_run n) = [])) nodes && Nat.eqb (length nodes) 1)) demo_silent)
    as (nodes & evs & Htr & Hok); [by vm_compute|].
  apply andb_true_iff in Hok as [Hrep [Hw Hl%Nat.eqb_eq]%andb_true_iff].
  apply reported_spec in Hrep as (s & r & Hm & Htot).
  exists nodes, evs, s, r. exact (conj Htr (conj Hm (conj Hw Hl))).
Qed.

Lemma silent_worker_forces_deadline_witness :
  exists evs s r, demo_late evs = Some (s, Ok r) /\
    0 + run_duration sample_run_config + COMPLETION_GRACE <= 7000000000.
Proof.
  destruct demo_silent_runs as (nodes & evs & s & r & Htr & Hm & Hw & Hl). exists evs, s, r.
  split; [exact Hm|]. destruct nodes as [|n [|]]; [discriminate Hl| |discriminate Hl].
  simpl in Hw. rewrite andb_true_r, andb_true_iff, bool_decide_eq_true in Hw. destruct Hw as [_ Hw].
  destruct (silent_worker_forces_deadline 8 4 true sample_run_config [demo_start] 5 0 [] []
    [(evs, 7000000000)] sample_joined s r Hm) as (used & rest & Hp & Hcons & Hall).
  destruct used as [|p used].
  - exfalso. assert (Hn : exists n, n ∈ demo_nodes /\ ro_wire (nd_run n) = []).
    { eexists. split; [left|reflexivity]. }
    destruct Hn as (n0 & Hn0 & Hw0). destruct (Hall [] demo_nodes n0 (trace_nil _) eq_refl Hn0 Hw0) as (t & Ht & _).
    inversion Ht.
  - injection Hp as <- Hp. destruct used; [|discriminate Hp].
    assert (Hev : concat (take (length [demo_start]) ([] : list (list MasterEvent)))
                  ++ concat [(evs, 7000000000)].*1 = evs) by exact (app_nil_r evs).
    rewrite Hev in Hall. destruct (Hall demo_silent_schedule [n] n Htr eq_refl) as (t & Ht & Hle).
    + left.
    + exact Hw.
    + apply list_elem_of_singleton in Ht. rewrite Ht in Hle. exact Hle.
Defined.
