(* ===== verification/Console.v ===== *)
(** What the programs show and how they end: the progress bar of a local run
    ([src/progress.rs]), the set-up of logging ([src/logging.rs]), the report
    destinations ([src/distributed/master/reporting.rs]) and the two daemons
    ([src/bin/strobengine-master.rs], [src/bin/strobengine-worker.rs]).

    The progress bar of indicatif is the list of calls made on it; the file
    system, the terminal, serde and the signals are arguments or events.  Floats
    are printed by [fixed], the [{:.n}] of the standard library. *)

From S2P Require Import Prelude RustStr Float Histogram Proto Report Executor Samples LocalRun Master.

#[local] Open Scope Z_scope.

(** ** [{:.n}] *)

(** The digits of [|x| * 10^n], rounded to nearest, ties to even. *)
Definition scaled (n : nat) (m : positive) (e : Z) : Z :=
  let p := Zpos m * 10 ^ Z.of_nat n in
  if e <? 0 then round_half_even p (2 ^ (- e)) else p * 2 ^ e.

Fixpoint zeros (n : nat) : string :=
  match n with O => "" | S n => String "0" (zeros n) end.

(** At least [n] digits. *)
Definition pad_left (n : nat) (s : string) : string := (zeros (n - String.length s) ++ s)%string.

Definition with_point (n : nat) (v : Z) : string :=
  match n with
  | O => u64_to_string v
  | _ => (u64_to_string (v / 10 ^ Z.of_nat n) ++ "." ++ pad_left n (u64_to_string (v mod 10 ^ Z.of_nat n)))%string
  end.

Definition fixed (n : nat) (x : f64) : string :=
  match x with
  | S754_nan => "NaN"
  | S754_infinity s => if s then "-inf" else "inf"
  | S754_zero s => ((if s then "-" else "") ++ with_point n 0)%string
  | S754_finite s m e => ((if s then "-" else "") ++ with_point n (scaled n m e))%string
  end.

(** ** The progress bar of a local run *)

Module Progress.

Definition RENDER_LOOP_SLEEP_MS : Z := 200.
Definition PROGRESS_BAR_MAX_TICKS : Z := 100.

Inductive BarCall :=
  | SetLength (n : Z)
  | SetPosition (n : Z)
  | SetMessage (m : string)
  | SteadyTick (d : duration)
  | FinishWith (m : string)
  | AbandonWith (m : string).

Definition create_progress_bar : list BarCall :=
  [SetLength PROGRESS_BAR_MAX_TICKS; SetMessage "Starting load test..."; SteadyTick (from_millis 100)].

(** What one turn of the loop reads: the clock twice and each counter, at its own
    moment. *)
Record Turn := mkTurn {
  tn_now : Z;
  tn_elapsed : duration;
  tn_active : Z;
  tn_completed : Z;
  tn_errors : Z;
  tn_latency_sum : Z;
  tn_latency_count : Z;
}.

Inductive Wake := Slept (t : Turn) | Cancelled.

(** Time is over, or no worker remains. *)
Definition render_done (total : duration) (t : Turn) : bool :=
  (total <=? tn_elapsed t) || ((tn_active t =? 0) && (0 <? tn_completed t)).

Definition percent (total : duration) (t : Turn) : Z :=
  if total =? 0 then 0
  else f64_as_u64 (f64_mul (f64_div (as_secs_f64 (tn_elapsed t)) (as_secs_f64 total)) (f64_of_Z 100)).

Definition instant_rps (prev_completed : Z) (last_tick : Z) (t : Turn) : f64 :=
  let delta_sec := as_secs_f64 (Z.max 0 (tn_now t - last_tick)) in
  let delta_completed := u_saturating_sub (tn_completed t) prev_completed in
  if f64_gtb delta_sec f64_zero then f64_div (f64_of_Z delta_completed) delta_sec else f64_zero.

Definition avg_latency_ms (t : Turn) : f64 :=
  if 0 <? tn_latency_count t
  then f64_div (f64_div (f64_of_Z (tn_latency_sum t)) (f64_of_Z (tn_latency_count t))) MICROS_PER_MILLI
  else f64_zero.

Definition status_line (prev_completed last_tick : Z) (t : Turn) : string :=
  (fixed 0 (instant_rps prev_completed last_tick t) ++ " req/s | " ++ u64_to_string (tn_active t) ++ " VUs | " ++
   u64_to_string (tn_errors t) ++ " err | avg " ++ fixed 1 (avg_latency_ms t) ++ "ms")%string.

(** The calls made, and whether the loop has returned; [final] is what the
    counters hold when it ends by itself. *)
Fixpoint render_loop (total : duration) (final : Z * Z) (prev_completed last_tick : Z) (wakes : list Wake)
  : list BarCall * bool :=
  match wakes with
  | [] => ([], false)
  | Cancelled :: _ => ([AbandonWith "Interrupted -- benchmark stopped early"], true)
  | Slept t :: wakes =>
      if render_done total t then
        ([SetPosition 100;
          FinishWith ("Finished: " ++ u64_to_string final.1 ++ " reqs | " ++ u64_to_string final.2 ++ " errors")], true)
      else
        let calls := [SetPosition (Z.min (percent total t) 99); SetMessage (status_line prev_completed last_tick t)] in
        let (rest, fin) := render_loop total final (tn_completed t) (tn_now t) wakes in
        (calls ++ rest, fin)
  end.

End Progress.

(** ** Logging *)

Module Logging.

Record Subscriber := mkSubscriber { sub_filter : string; sub_file : option string }.

(** [INIT_LOGGING] and the lines written to standard error.  [parse] is the
    parser of filters, [create] the creation of the log file. *)
Definition init_tracing (parse : string -> result string unit) (create : string -> result string unit)
    (level_str : string) (log_file : option string) (installed : option Subscriber)
  : option Subscriber * list string :=
  match installed with
  | Some _ => (installed, [])
  | None =>
      let (filter, notes) :=
        match parse level_str with
        | Ok _ => (level_str, [])
        | Err e => ("warn", ["strobengine: invalid log filter '" ++ level_str ++ "', falling back to warn: " ++ e])
        end%string in
      match log_file with
      | None => (Some (mkSubscriber filter None), notes)
      | Some path =>
          match create path with
          | Ok _ => (Some (mkSubscriber filter (Some path)), notes)
          | Err e => (Some (mkSubscriber filter None),
                      notes ++ [("strobengine: failed to create log file '" ++ path ++ "': " ++ e ++
                                 ", logging to stderr only")%string])
          end
      end
  end.

End Logging.

(** ** Report destinations *)

(** What leaves the process. *)
Inductive Output :=
  | Line (s : string)                   (** [println!] *)
  | ToFile (path text : string)
  | ToStdout (text : string).

Section destinations.
(** [serde_json::to_string_pretty], [File::create] and [write_all]. *)
Context (to_string_pretty : GlobalReport -> result string string).
Context (create write_all : string -> result string unit).

Definition write_json (target : string -> Output) (report : GlobalReport) : list Output * result string unit :=
  match to_string_pretty report with
  | Err e => ([], Err e)
  | Ok json => match write_all json with
               | Err e => ([], Err e)
               | Ok _ => ([target json], Ok ())
               end
  end.

Definition destination_write (d : ReportDestination) (report : GlobalReport) : list Output * result string unit :=
  match d with
  | RD_File path => match create path with
                    | Err e => ([], Err e)
                    | Ok _ => write_json (ToFile path) report
                    end
  | RD_Stdout => write_json ToStdout report
  | RD_None => ([], Ok ())
  end.

(** ** The master daemon *)

Definition build_test_config (c : MasterConfig) : TestConfiguration :=
  mkTestConfiguration "" [mkTargetEndpoint (default "" (mc_run_url c)) "" (S754_zero false)]
    (Some (mkProtoDuration (wrap_i64 (mc_run_duration_secs c)) 0)) (mc_run_virtual_users c) 0 [] [] "".

Definition create_live_bar (duration_secs : Z) : list Progress.BarCall :=
  [Progress.SetLength (Z.max duration_secs 1); Progress.SetMessage "waiting for workers...";
   Progress.SteadyTick (from_millis 200)].

(** What [live.recv()] yields. *)
Inductive Received := Snapshot (s : LiveSnapshot) | Lagged (n : Z) | Closed.

Definition live_line (s : LiveSnapshot) : string :=
  (fixed 0 (lv_rps s) ++ " rps | " ++ fixed 2 (lv_error_rate_percent s) ++ "% err | p50 " ++
   fixed 1 (lv_p50_ms s) ++ "ms p95 " ++ fixed 1 (lv_p95_ms s) ++ "ms p99 " ++ fixed 1 (lv_p99_ms s) ++
   "ms | " ++ u64_to_string (lv_active_workers s) ++ " workers")%string.

Fixpoint render_live (received : list Received) : list Progress.BarCall * bool :=
  match received with
  | [] => ([], false)
  | Snapshot s :: received =>
      let (calls, fin) := render_live received in
      (Progress.SetPosition (f64_as_u64 (f64_round (lv_elapsed_secs s))) ::
       Progress.SetMessage (live_line s) :: calls, fin)
  | Lagged _ :: received => render_live received
  | Closed :: _ => ([], true)
  end.

Definition summary_line (r : GlobalReport) : string :=
  ("run " ++ gr_test_run_id r ++ ": " ++ u64_to_string (gr_worker_count r) ++ " workers, " ++
   u64_to_string (gr_total_requests r) ++ " requests, " ++ fixed 2 (gr_rps r) ++ " rps, " ++
   fixed 2 (gr_error_rate_percent r) ++ "% errors, p95 " ++ fixed 2 (gl_p95_ms (gr_latency r)) ++ " ms")%string.

Inductive MainError :=
  | MainMaster (e : MasterError)
  | MainWorker (e : WorkerError)
  | MainIo (e : string)
  | MainJoin (e : string).

(** [run_once], after [start_run] has returned [result]. *)
Definition run_once (c : MasterConfig) (result : result MasterError GlobalReport)
  : list Output * Prelude.result MainError unit :=
  match result with
  | Err e => ([], Err (MainMaster e))
  | Ok report =>
      let destination := ReportDestination_parse (mc_report_path c) in
      let (out, written) := destination_write destination report in
      match written with
      | Err e => (Line (summary_line report) :: out, Err (MainIo e))
      | Ok _ => (Line (summary_line report) :: out ++
                 match destination with RD_File path => [Line ("report written to " ++ path)%string] | _ => [] end,
                 Ok ())
      end
  end.
End destinations.

(** [Ctrl+C], or [SIGTERM] when its handler could be installed. *)
Inductive Signal := SIGINT | SIGTERM.

Definition shutdown_signal (sigterm_installed : bool) (s : Signal) : bool :=
  match s with SIGINT => true | SIGTERM => sigterm_installed end.

(** The start of [main] of the master, up to the spawn of the server. *)
Definition master_boot (parse_socket_addr : string -> result string string) (c : MasterConfig)
  : result MainError MasterState :=
  _ ← map_err MainMaster (listen_addr parse_socket_addr c);
  map_err MainMaster (MasterState_new parse_socket_addr c).

(** [main] of the master.  The server task and the single run end on their own;
    signals arrive.  Only a master without a single run listens for them; otherwise
    they kill the process. *)
Inductive MainPhase :=
  | MP_Running                          (** in [run_once], or awaiting a signal *)
  | MP_AwaitServe                       (** [serve.await??] *)
  | MP_Exit (r : result MainError unit)
  | MP_Killed.                          (** by a signal without a handler *)

Record MainState := mkMainState {
  mn_phase : MainPhase;
  mn_served : option (result MainError unit);      (** how the server task ended *)
  mn_cancelled : bool;
}.

Definition MainState_new : MainState := mkMainState MP_Running None false.

Inductive MainEvent :=
  | MV_Served (r : result MainError unit)
  | MV_Ran (r : result MainError unit)
  | MV_Signal
  | MV_Join.

Definition master_main (c : MasterConfig) (e : MainEvent) (s : MainState) : option MainState :=
  match e, mn_phase s with
  | _, MP_Exit _ | _, MP_Killed => None
  | MV_Served r, _ =>
      match mn_served s with
      | None => Some (mkMainState (mn_phase s) (Some r) (mn_cancelled s))
      | Some _ => None
      end
  | MV_Ran r, MP_Running =>
      if has_run_spec c then
        match r with
        | Err e => Some (mkMainState (MP_Exit (Err e)) (mn_served s) (mn_cancelled s))
        | Ok _ => Some (mkMainState MP_AwaitServe (mn_served s) true)
        end
      else None
  | MV_Signal, MP_Running =>
      if has_run_spec c then Some (mkMainState MP_Killed (mn_served s) (mn_cancelled s))
      else Some (mkMainState MP_AwaitServe (mn_served s) true)
  | MV_Signal, MP_AwaitServe =>
      if has_run_spec c then Some (mkMainState MP_Killed (mn_served s) (mn_cancelled s)) else Some s
  | MV_Join, MP_AwaitServe =>
      match mn_served s with Some r => Some (mkMainState (MP_Exit r) (Some r) (mn_cancelled s)) | None => None end
  | _, _ => None
  end.

(** [main] of the worker: [MV_Served] is the end of the daemon task. *)
Definition worker_main (e : MainEvent) (s : MainState) : option MainState :=
  match e, mn_phase s with
  | _, MP_Exit _ | _, MP_Killed => None
  | MV_Served r, _ =>
      match mn_served s with
      | None => Some (mkMainState (mn_phase s) (Some r) (mn_cancelled s))
      | Some _ => None
      end
  | MV_Signal, MP_Running => Some (mkMainState MP_AwaitServe (mn_served s) true)
  | MV_Signal, MP_AwaitServe => Some s
  | MV_Join, _ =>
      match mn_served s with Some r => Some (mkMainState (MP_Exit r) (Some r) (mn_cancelled s)) | None => None end
  | _, _ => None
  end.

Definition main_run (step : MainEvent -> MainState -> option MainState) (es : list MainEvent) (s : MainState)
  : option MainState :=
  foldl (fun s e => s ≫= step e) (Some s) es.

(** ** Properties *)

Lemma round_half_even_nearest n d :
  0 < d -> 2 * Z.abs (round_half_even n d * d - n) <= d.
Proof.
  intros Hd. unfold round_half_even. pose proof (Z.div_mod n d ltac:(lia)) as E.
  pose proof (Z.mod_pos_bound n d Hd). destruct (Z.compare_spec (2 * (n mod d)) d) as [He|Hl|Hg].
  - destruct (Z.even (n / d)); nia.
  - nia.
  - nia.
Qed.

(** Printing is exact to half a unit of the last digit: the printed digits of a
    finite number are the integer nearest to [|x| * 10^n]. *)
Theorem fixed_nearest n s m e :
  fixed n (S754_finite s m e) = ((if s then "-" else "") ++ with_point n (scaled n m e))%string /\
  0 <= scaled n m e /\
  2 * Z.abs (scaled n m e * 2 ^ Z.max 0 (- e) - Zpos m * 10 ^ Z.of_nat n * 2 ^ Z.max 0 e) <= 2 ^ Z.max 0 (- e).
Proof.
  split; [done|]. unfold scaled. set (p := Zpos m * 10 ^ Z.of_nat n).
  assert (0 <= p) by (subst p; lia).
  destruct (Z.ltb_spec e 0) as [He|He].
  - rewrite (Z.max_r 0 (- e)), (Z.max_l 0 e), Z.pow_0_r, Z.mul_1_r by lia.
    assert (0 < 2 ^ (- e)) by (apply Z.pow_pos_nonneg; lia). split; [|by apply round_half_even_nearest].
    unfold round_half_even. pose proof (Z.div_pos p (2 ^ (- e)) ltac:(lia) ltac:(lia)).
    repeat case_match; lia.
  - rewrite (Z.max_l 0 (- e)), (Z.max_r 0 e), Z.pow_0_r by lia. split; [|lia].
    assert (0 < 2 ^ e) by (apply Z.pow_pos_nonneg; lia). nia.
Qed.

Import Progress.

Definition is_position (p : Z -> Prop) (c : BarCall) : Prop :=
  match c with SetPosition n => p n | FinishWith _ | AbandonWith _ | SetLength _ => False | _ => True end.

Lemma percent_nonneg total t : 0 <= percent total t.
Proof. unfold percent, f64_as_u64. repeat case_match; unfold U64_MAX; lia. Qed.

(** A wake-up that does not end the loop. *)
Definition going_on (total : duration) (w : Wake) : bool :=
  match w with Slept t => negb (render_done total t) | Cancelled => false end.

(** The progress bar: while the run goes on every turn draws a position between
    0 and 99 and a status line; the bar reaches 100 exactly when a turn finds the
    time over or every worker gone, cancellation abandons it, and in both cases the
    loop returns and draws nothing more. *)
Theorem render_loop_shows total final prev last before :
  Forall (fun w => going_on total w = true) before ->
  exists shown,
    Forall (is_position (fun n => 0 <= n <= 99)) shown /\ length shown = (2 * length before)%nat /\
    render_loop total final prev last before = (shown, false) /\
    (forall after, render_loop total final prev last (before ++ Cancelled :: after) =
       (shown ++ [AbandonWith "Interrupted -- benchmark stopped early"], true)) /\
    (forall t after, render_done total t = true ->
       render_loop total final prev last (before ++ Slept t :: after) =
       (shown ++ [SetPosition 100;
          FinishWith ("Finished: " ++ u64_to_string final.1 ++ " reqs | " ++ u64_to_string final.2 ++ " errors")], true)).
Proof.
  revert prev last. induction before as [|[t|] before IH]; intros prev last Hb; simpl.
  - exists []. split_and!; try done. by intros t after ->.
  - apply Forall_cons in Hb as [Ht Hb]. simpl in Ht. apply negb_true_iff in Ht. rewrite Ht.
    destruct (IH (tn_completed t) (tn_now t) Hb) as (shown & H1 & H2 & H3 & H4 & H5).
    exists ([SetPosition (Z.min (percent total t) 99); SetMessage (status_line prev last t)] ++ shown). split_and!.
    + repeat constructor; simpl; [pose proof (percent_nonneg total t); lia|lia|done].
    + simpl. lia.
    + by rewrite H3.
    + intros after. by rewrite H4.
    + intros t' after Ht'. by rewrite (H5 t' after Ht').
  - apply Forall_cons in Hb as [Ht _]. done.
Qed.

(** Every worker that accepts the START of a run given on the command line of a
    validated master plans the trimmed URL, one request kind (GET without body or
    headers), its own default timeout, the virtual users capped at its ceiling,
    and the duration: endless exactly when the seconds do not fit an [i64]. *)
Theorem cli_run_plan `{HttpTypes} parse_socket_addr c url max_vus timeout :
  mc_run_url c = Some url -> is_ok (master_validate parse_socket_addr c) = true ->
  0 <= mc_run_virtual_users c -> in_u64 (mc_run_duration_secs c) -> 0 <= max_vus ->
  from_proto (build_test_config c) max_vus timeout =
    if is_blank url then Err (WE_Config "test configuration has no target endpoints")
    else Ok (mkExecutionPlan _ [trim url] method_GET None header_map_new timeout
               (if max_vus =? 0 then mc_run_virtual_users c else Z.min (mc_run_virtual_users c) max_vus)
               (if mc_run_duration_secs c <? 2 ^ 63 then Some (from_secs (mc_run_duration_secs c)) else None)).
Proof.
  intros Hu Hv Hn Hd Hm. unfold master_validate, has_run_spec in Hv. rewrite Hu in Hv.
  destruct (listen_addr parse_socket_addr c); [|done]. simpl in Hv.
  assert (mc_run_virtual_users c <> 0 /\ mc_run_duration_secs c <> 0) as [Hn0 Hd0].
  { repeat case_match; try done. lia. }
  unfold from_proto, build_test_config, plan_targets, is_blank. simpl. rewrite Hu. simpl.
  unfold filter, list_filter. destruct (str_is_empty (trim url)) eqn:Hb; [by rewrite decide_False|].
  rewrite decide_True by done. simpl. f_equal. unfold in_u64 in *.
  f_equal.
  - destruct (Z.eqb_spec max_vus 0); lia.
  - unfold plan_duration, wrap_i64. simpl.
    destruct (Z.ltb_spec (mc_run_duration_secs c) (2 ^ 63)) as [Hl|Hl].
    + rewrite Z.mod_small by lia. rewrite Z.max_l by lia. rewrite (proj2 (Z.eqb_neq _ _)) by lia. simpl.
      f_equal. unfold from_secs. lia.
    + replace ((mc_run_duration_secs c + 2 ^ 63) mod 2 ^ 64) with (mc_run_duration_secs c - 2 ^ 63).
      2: { apply (Z.mod_unique_pos _ _ 1); unfold U64_MAX in *; lia. }
      rewrite Z.max_r by (unfold U64_MAX in *; lia). done.
Qed.

(** [run_once] after a failed run shows nothing and fails with its error; after a
    successful one it prints the summary first, then writes the report to exactly
    the destination asked for, and confirms a file; it succeeds unless writing
    fails. *)
Theorem run_once_outputs to_json create write_all c result :
  let (out, res) := run_once to_json create write_all c result in
  match result with
  | Err e => out = [] /\ res = Err (MainMaster e)
  | Ok report =>
      head out = Some (Line (summary_line report)) /\
      match ReportDestination_parse (mc_report_path c) with
      | RD_None => out = [Line (summary_line report)] /\ res = Ok ()
      | RD_Stdout =>
          res = Ok () <-> exists json, to_json report = Ok json /\ write_all json = Ok () /\
            out = [Line (summary_line report); ToStdout json]
      | RD_File path =>
          res = Ok () <-> exists json, create path = Ok () /\ to_json report = Ok json /\ write_all json = Ok () /\
            out = [Line (summary_line report); ToFile path json; Line ("report written to " ++ path)]
      end
  end.
Proof.
  destruct result as [report|e]; [|done]. unfold run_once, destination_write, write_json.
  destruct (ReportDestination_parse _) as [path| |].
  - destruct (create path) as [[]|]; [destruct (to_json report) as [json|]; [destruct (write_all json) as [[]|] eqn:Hw|]|];
      (split; [done|]); (split; [|by intros (? & ? & ? & ? & ?)]); try done; naive_solver.
  - destruct (to_json report) as [json|]; [destruct (write_all json) as [[]|] eqn:Hw|];
      (split; [done|]); (split; [|naive_solver]); try done; naive_solver.
  - done.
Qed.

Lemma main_run_none (step : MainEvent -> MainState -> option MainState) es : foldl (fun s e => s ≫= step e) (None : option MainState) es = None.
Proof. by induction es. Qed.

Lemma master_running c es s s' :
  has_run_spec c = false -> MV_Signal ∉ es -> mn_phase s = MP_Running ->
  main_run (master_main c) es s = Some s' -> mn_phase s' = MP_Running.
Proof.
  intros Hc. unfold main_run. revert s. induction es as [|e es IH]; intros s Hs Hp; simpl; [by intros [= <-]|].
  apply not_elem_of_cons in Hs as [He Hs].
  destruct (master_main c e s) as [s1|] eqn:E; [|by rewrite main_run_none]. apply IH; [done|].
  unfold master_main in E. rewrite Hp, Hc in E. destruct e; try done. by destruct (mn_served s); simplify_eq/=.
Qed.

(** A master without a single run does not notice that its server has ended, be
    it that the port could not be bound: it stays in [main] until a signal
    arrives, and only then exits with the error.  The worker daemon exits as soon
    as its task ends. *)
Theorem master_outlives_server c r es s :
  has_run_spec c = false ->
  (MV_Signal ∉ es -> main_run (master_main c) (MV_Served r :: es) MainState_new = Some s ->
     mn_phase s = MP_Running) /\
  main_run (master_main c) [MV_Served r; MV_Signal; MV_Join] MainState_new =
    Some (mkMainState (MP_Exit r) (Some r) true) /\
  main_run worker_main [MV_Served r; MV_Join] MainState_new = Some (mkMainState (MP_Exit r) (Some r) false).
Proof.
  intros Hc. split_and!; [|by unfold main_run; simpl; rewrite Hc|done].
  intros Hs. by apply (master_running c (MV_Served r :: es)); [|apply not_elem_of_cons|].
Qed.

(** ** Witnesses *)

Lemma render_loop_shows_witness :
  exists shown, (render_loop (from_secs 10) (5, 1) 0 0
    [Slept (mkTurn 200000000 200000000 2 3 1 600 3); Cancelled]) =
    (shown ++ [AbandonWith "Interrupted -- benchmark stopped early"], true).
Proof.
  destruct (render_loop_shows (from_secs 10) (5, 1) 0 0 [Slept (mkTurn 200000000 200000000 2 3 1 600 3)])
    as (shown & _ & _ & _ & Hc & _); [by repeat constructor|].
  exists shown. exact (Hc []).
Defined.

Definition cli_config : MasterConfig :=
  mkMasterConfig "strobengine" "0.0.0.0" 50051 2000 1000 0 1000 2 30000 10 5 true false
    (Some " http://a ") 4 30 (Some "out.json").

Lemma cli_run_plan_witness :
  from_proto (build_test_config cli_config) 2 (from_secs 10) =
  Ok (mkExecutionPlan _ ["http://a"]%string "GET"%string None [] (from_secs 10) 2 (Some (from_secs 30))).
Proof.
  rewrite (cli_run_plan (fun s => Ok s) cli_config " http://a " 2 (from_secs 10));
    [by vm_compute|done|done|by simpl|by vm_compute|done].
Defined.

Lemma master_outlives_server_witness :
  main_run (master_main (mkMasterConfig "s" "0.0.0.0" 1 1 1 0 1 0 1 10 5 true false None 0 0 None))
    [MV_Served (Err (MainMaster (ME_Io "address in use"))); MV_Signal; MV_Join] MainState_new =
  Some (mkMainState (MP_Exit (Err (MainMaster (ME_Io "address in use")))) (Some (Err (MainMaster (ME_Io "address in use")))) true).
Proof.
  apply (master_outlives_server (mkMasterConfig "s" "0.0.0.0" 1 1 1 0 1 0 1 10 5 true false None 0 0 None)
    (Err (MainMaster (ME_Io "address in use"))) [] MainState_new). done.
Defined.
