(* ===== verification/Dashboard.v ===== *)
(** What keeps the master's view current: the live broadcaster
    ([src/distributed/master/dashboard.rs], [LiveBroadcaster]), what the live bar
    of [src/bin/strobengine-master.rs] makes of what it receives, and the health
    sweep ([src/distributed/master/registry.rs], [health_sweep_loop]).

    The broadcast channel is that of tokio and appears as the interface
    [Broadcast]: the broadcaster only forwards to it, and nothing is assumed or
    proved about what its receivers get. *)

From S2P Require Import Prelude RustStr Float Proto Registry Report Pipeline Console.

#[local] Open Scope Z_scope.

(** ** The broadcaster *)

(** [tokio::sync::broadcast]: a send says whether there was a receiver. *)
Class Broadcast (A : Type) := {
  Sender : Type;
  Receiver : Type;
  channel : nat -> Sender;
  send : A -> Sender -> Sender * bool;
  subscribe_to : Sender -> Sender * Receiver;
  receiver_count : Sender -> Z;
}.

Section broadcaster.
Context `{Broadcast LiveSnapshot}.

Record LiveBroadcaster := mkLiveBroadcaster { lb_tx : Sender }.

Definition DEFAULT_LIVE_CAPACITY : nat := 64.

Definition LiveBroadcaster_new (capacity : nat) : LiveBroadcaster := mkLiveBroadcaster (channel (Nat.max capacity 1)).

Definition LiveBroadcaster_default : LiveBroadcaster := LiveBroadcaster_new DEFAULT_LIVE_CAPACITY.

(** The result of the send is ignored. *)
Definition publish (s : LiveSnapshot) (b : LiveBroadcaster) : LiveBroadcaster :=
  mkLiveBroadcaster (send s (lb_tx b)).1.

Definition subscribe (b : LiveBroadcaster) : LiveBroadcaster * Receiver :=
  let '(tx, rx) := subscribe_to (lb_tx b) in (mkLiveBroadcaster tx, rx).

Definition subscriber_count (b : LiveBroadcaster) : Z := receiver_count (lb_tx b).
End broadcaster.

(** ** The live bar *)

(** The snapshots among what was received. *)
Definition shown (l : list Received) : list LiveSnapshot :=
  omap (fun r => match r with Snapshot s => Some s | _ => None end) l.

Definition bar_calls (s : LiveSnapshot) : list Progress.BarCall :=
  [Progress.SetPosition (f64_as_u64 (f64_round (lv_elapsed_secs s))); Progress.SetMessage (live_line s)].

(** Until the channel is closed the bar is moved and labelled once per snapshot, in
    order, and a lag changes nothing. *)
Lemma render_live_calls l : Closed ∉ l -> render_live l = (shown l ≫= bar_calls, false).
Proof.
  induction l as [|r l IH]; intros Hl; [done|]. apply not_elem_of_cons in Hl as [Hr Hl].
  destruct r; simpl; try done; by rewrite (IH Hl).
Qed.

(** ** The health sweep *)

Inductive SweepEvent :=
  | SW_Op (op : RegistryOp)     (** another task holds the lock *)
  | SW_Tick (now : Z)
  | SW_Shutdown.                (** the loop takes its [cancelled] branch *)

(** The registry, and the workers it warned about, in order. *)
Fixpoint health_sweep_loop `{MapOrder} (timeout : duration) (evs : list SweepEvent) (r : Registry)
  : Registry * list string :=
  match evs with
  | [] => (r, [])
  | SW_Op op :: evs => health_sweep_loop timeout evs (registry_step r op)
  | SW_Tick now :: evs =>
      let (r, evicted) := sweep now timeout r in
      let (r, warned) := health_sweep_loop timeout evs r in (r, evicted ++ warned)
  | SW_Shutdown :: evs =>
      (foldl registry_step r (omap (fun e => match e with SW_Op op => Some op | _ => None end) evs), [])
  end.

(** The operation does not concern worker [k]. *)
Definition foreign (k : string) (op : RegistryOp) : bool :=
  match op with
  | OpRegister _ q => negb (bool_decide (rw_worker_id q = k))
  | OpHeartbeat _ k' _ _ _ | OpAttach k' _ | OpDetach k' | OpSetStatus k' _ => negb (bool_decide (k' = k))
  | OpSweep _ _ => false
  end.

(** A history in which worker [k] is silent. *)
Definition silent (k : string) (e : SweepEvent) : bool :=
  match e with SW_Op op => foreign k op | _ => true end.

Section sweep.
Context `{MapOrder}.

Lemma foreign_lookup k op r : foreign k op = true -> workers (registry_step r op) !! k = workers r !! k.
Proof.
  rewrite registry_step_lookup.
  destruct op; simpl; try done; intros Hf%negb_true_iff%bool_decide_eq_false; by rewrite decide_False.
Qed.

Lemma foreign_lookups k ops r :
  forallb (foreign k) ops = true -> workers (foldl registry_step r ops) !! k = workers r !! k.
Proof.
  revert r. induction ops as [|op ops IH]; intros r; simpl; [done|].
  intros [Ho Hs]%andb_true_iff. by rewrite IH, foreign_lookup.
Qed.

(** The ticks the loop serves, until it sees the shutdown. *)
Fixpoint ticks_served (evs : list SweepEvent) : list Z :=
  match evs with
  | [] | SW_Shutdown :: _ => []
  | SW_Tick now :: evs => now :: ticks_served evs
  | SW_Op _ :: evs => ticks_served evs
  end.

Lemma silent_ops k evs :
  forallb (silent k) evs = true ->
  forallb (foreign k) (omap (fun e => match e with SW_Op op => Some op | _ => None end) evs) = true.
Proof.
  induction evs as [|e evs IH]; [done|]. intros [He Hs]%andb_true_iff.
  specialize (IH Hs). destruct e; csimpl; [|done|done]. by apply andb_true_iff.
Qed.

(** One tick, seen from worker [k]. *)
Lemma tick_effect timeout now k w r r1 ev :
  registry_wf r -> workers r !! k = Some w -> sweep now timeout r = (r1, ev) ->
  registry_wf r1 /\ NoDup ev /\
  ((is_stale now timeout w /\ k ∈ ev /\ workers r1 !! k = Some (evict w)) \/
   (~ is_stale now timeout w /\ k ∉ ev /\ workers r1 !! k = Some w)).
Proof.
  intros Hr Hk Hsw. pose proof (elem_of_sweep_ids now timeout r k Hr) as Hev.
  pose proof (sweep_lookup now timeout r k) as Hl. pose proof (registry_step_wf r (OpSweep now timeout) Hr) as Hw.
  pose proof (NoDup_selected (is_stale now timeout) r Hr) as Hnd.
  change (wr_worker_id <$> _) with (sweep now timeout r).2 in Hnd.
  change (registry_wf (sweep now timeout r).1) in Hw. rewrite Hsw in Hw, Hl, Hnd, Hev. rewrite Hk in Hl.
  cbn [fst snd fmap option_fmap option_map] in *. split_and!; [done|done|].
  destruct (sweep_record_spec now timeout w) as [[Hs He]|[Hs He]]; rewrite He in Hl; [left|right];
    (split; [done|]); (split; [|done]); rewrite Hev; naive_solver.
Qed.

(** A silent worker whose record is not stale at any tick is left alone. *)
Lemma quiet_sweeps timeout k w evs r :
  registry_wf r -> workers r !! k = Some w -> forallb (silent k) evs = true ->
  Forall (fun now => ~ is_stale now timeout w) (ticks_served evs) ->
  let (r', warned) := health_sweep_loop timeout evs r in workers r' !! k = Some w /\ k ∉ warned.
Proof.
  revert r. induction evs as [|e evs IH]; intros r Hr Hk Hs Ht; cbn [health_sweep_loop].
  { split; [done|apply not_elem_of_nil]. }
  simpl in Hs. apply andb_true_iff in Hs as [He Hs]. destruct e as [op|now|]; simpl in Ht, He.
  - apply IH; try done; [by apply registry_step_wf|by rewrite foreign_lookup].
  - apply Forall_cons in Ht as [Hn Ht]. destruct (sweep now timeout r) as [r1 ev] eqn:Hsw.
    destruct (tick_effect _ _ _ _ _ _ _ Hr Hk Hsw) as (Hr1 & _ & [[? _]|(_ & Hev & Hk1)]); [done|].
    specialize (IH r1 Hr1 Hk1 Hs Ht). destruct (health_sweep_loop timeout evs r1) as [r2 warned].
    split; [apply IH|]. apply not_elem_of_app. split; [done|apply IH].
  - rewrite foreign_lookups by by apply silent_ops. split; [done|apply not_elem_of_nil].
Qed.

Lemma sweep_loop_wf timeout evs r : registry_wf r -> registry_wf (health_sweep_loop timeout evs r).1.
Proof.
  revert r. induction evs as [|e evs IH]; intros r Hr; [done|]. destruct e as [op|now|]; simpl.
  - by apply IH, registry_step_wf.
  - pose proof (IH _ (registry_step_wf r (OpSweep now timeout) Hr)) as H1. simpl in H1.
    destruct (health_sweep_loop _ _ _). done.
  - by apply registry_steps_wf.
Qed.

Lemma evicted_not_stale now timeout w : ~ is_stale now timeout (evict w).
Proof. by intros [[] _]. Qed.

(** One that is stale at a tick is evicted there, and reported once. *)
Lemma stale_swept timeout k w evs r :
  registry_wf r -> workers r !! k = Some w -> forallb (silent k) evs = true ->
  Exists (fun now => is_stale now timeout w) (ticks_served evs) ->
  let (r', warned) := health_sweep_loop timeout evs r in
  workers r' !! k = Some (evict w) /\ exists l1 l2, warned = l1 ++ k :: l2 /\ k ∉ l1 ++ l2.
Proof.
  revert r. induction evs as [|e evs IH]; intros r Hr Hk Hs Ht; [by apply Exists_nil in Ht|].
  simpl in Hs. apply andb_true_iff in Hs as [He Hs]. destruct e as [op|now|]; simpl in He, Ht; cbn [health_sweep_loop].
  - apply IH; try done; [by apply registry_step_wf|by rewrite foreign_lookup].
  - destruct (sweep now timeout r) as [r1 ev] eqn:Hsw.
    destruct (tick_effect _ _ _ _ _ _ _ Hr Hk Hsw) as (Hr1 & Hnd & [(_ & Hev & Hk1)|(Hn & Hev & Hk1)]).
    + pose proof (quiet_sweeps timeout k (evict w) evs r1 Hr1 Hk1 Hs) as Hq.
      destruct (health_sweep_loop timeout evs r1) as [r2 warned].
      destruct Hq as [Hk2 Hw]; [by apply Forall_true; intros; apply evicted_not_stale|].
      split; [done|]. apply list_elem_of_split in Hev as (l1 & l2 & ->). exists l1, (l2 ++ warned).
      split; [by rewrite <- app_assoc|]. apply NoDup_app in Hnd as (_ & Hd & [? _]%NoDup_cons).
      rewrite !elem_of_app. intros [Hin|[Hin|Hin]]; [|done|done]. apply (Hd k Hin). left.
    + apply Exists_cons in Ht as [?|Ht]; [done|]. specialize (IH r1 Hr1 Hk1 Hs Ht).
      destruct (health_sweep_loop timeout evs r1) as [r2 warned]. destruct IH as (? & l1 & l2 & -> & Hl).
      split; [done|]. exists (ev ++ l1), l2. split; [by rewrite <- app_assoc|]. rewrite <- app_assoc. apply not_elem_of_app. auto.
  - by apply Exists_nil in Ht.
Qed.
End sweep.

(** ** Properties *)

(** C40. The health sweep against a worker that has fallen silent, whatever the other
    workers do: if it is stale at some tick served before the shutdown, it ends
    up disconnected without a command channel, and is reported exactly once; if
    it is stale at none, it is left alone and never reported. *)
Theorem health_sweep_evicts `{MapOrder} timeout k w evs r :
  registry_wf r -> registry_get k r = Some w -> forallb (silent k) evs = true ->
  let (r', warned) := health_sweep_loop timeout evs r in
  (Exists (fun now => is_stale now timeout w) (ticks_served evs) ->
     (exists w', registry_get k r' = Some w' /\ wr_status w' = Disconnected /\ wr_command_tx w' = None /\
        wr_last_heartbeat w' = wr_last_heartbeat w /\ wr_active_vus w' = wr_active_vus w /\
        wr_test_run_id w' = wr_test_run_id w) /\
     command_sender k r' = None /\ k ∉ allocatable_workers r' /\
     exists l1 l2, warned = l1 ++ k :: l2 /\ k ∉ l1 ++ l2) /\
  (Forall (fun now => ~ is_stale now timeout w) (ticks_served evs) ->
     registry_get k r' = Some w /\ k ∉ warned).
Proof.
  intros Hr Hk Hs. pose proof (stale_swept timeout k w evs r Hr Hk Hs) as H1.
  pose proof (quiet_sweeps timeout k w evs r Hr Hk Hs) as H2.
  pose proof (sweep_loop_wf timeout evs r Hr) as Hw.
  destruct (health_sweep_loop timeout evs r) as [r' warned]. split; [|done].
  intros He. destruct (H1 He) as [Hk' Hl].
  split; [by eexists|]. split; [unfold command_sender, registry_get; by rewrite Hk'|]. split; [|done].
  intros (w' & Hw' & Ha)%elem_of_allocatable; [|done]. rewrite Hk' in Hw'. injection Hw' as <-.
  by destruct Ha as [[=] _].
Qed.

(** ** Witnesses *)

Definition silent_registry `{MapOrder} : Registry :=
  foldl registry_step Registry_new [OpRegister 0 (sample_request "w1"); OpRegister 0 (sample_request "w2")].

Definition silent_events : list SweepEvent :=
  [SW_Tick 5; SW_Op (OpHeartbeat 8 "w2" PWS_Ready 0 ""); SW_Tick 15; SW_Tick 16; SW_Shutdown].

Lemma health_sweep_evicts_witness :
  exists w, registry_get "w1" silent_registry = Some w /\
    exists w', registry_get "w1" (health_sweep_loop 10 silent_events silent_registry).1 = Some w' /\
      wr_status w' = Disconnected.
Proof.
  eexists. split; [vm_compute; reflexivity|].
  pose proof (health_sweep_evicts 10 "w1" _ silent_events silent_registry
    ltac:(apply registry_steps_wf, registry_new_wf) eq_refl eq_refl) as Hs.
  destruct (health_sweep_loop 10 silent_events silent_registry) as [r' warned] eqn:Hl.
  destruct Hs as [Hs _]. destruct Hs as [(w' & Hw & Hd & _) _].
  - right. left. split; [discriminate|]. vm_compute. reflexivity.
  - exists w'. split; [exact Hw|exact Hd].
Defined.
