(* ===== verification/Serde.v ===== *)
(** Derived serialisation: the values of [serde_json] and what
    [#[derive(Serialize, Deserialize)]] makes of a struct and its attributes.

    The derive macros and the [Value] conversions are third-party code with a
    documented meaning: a struct is an object with one member per field, in order;
    [rename] changes the name of the member; [skip_serializing_if = "Option::is_none"]
    leaves an absent option out; a missing member is an error, except for an
    [Option] ([None]) and under [#[serde(default)]]; a float that is not finite is
    [null]; unknown members are ignored.  [struct] describes the fields of a
    struct, [ser_struct] and [de_struct] are the two derived functions.  The text
    of a value (printing and parsing of numbers) is not modelled; since
    [serialize_f32] prints the shortest digits of the [f32] and
    [serialize_f64] those of the [f64], the two are different values here
    ([VSingle], [VFloat]), and [as_f64] is the widening of [serde_json::to_value]. *)

From S2P Require Import Prelude RustStr Float.

#[local] Open Scope Z_scope.

Inductive Value :=
  | VNull
  | VBool (b : bool)
  | VInt (z : Z)
  | VFloat (x : f64)
  | VSingle (x : f32)    (** a number handed over as a [f32] *)
  | VString (s : string)
  | VArray (l : list Value)
  | VObject (members : list (string * Value)).

(** [map.get(name)]. *)
Fixpoint member (name : string) (l : list (string * Value)) : option Value :=
  match l with
  | [] => None
  | (k, v) :: l => if decide (k = name) then Some v else member name l
  end.

#[local] Obligation Tactic := idtac.
#[local] Unset Program Cases.

(** ** Codecs *)

(** A type with both derived functions, and the values that survive them. *)
Record codec (A : Type) := mkCodec {
  ser : A -> Value;
  de : Value -> option A;
  fits : A -> Prop;
  ser_some : forall x, fits x -> ser x <> VNull;
  de_ser : forall x, fits x -> de (ser x) = Some x;
}.
Arguments mkCodec {A}.
Arguments ser {A}.
Arguments de {A}.
Arguments fits {A}.
Arguments ser_some {A}.
Arguments de_ser {A}.

Program Definition c_bool : codec bool := {|
  ser := VBool;
  de v := match v with VBool b => Some b | _ => None end;
  fits _ := True;
|}.
Solve All Obligations with done.

Program Definition c_string : codec string := {|
  ser := VString;
  de v := match v with VString s => Some s | _ => None end;
  fits _ := True;
|}.
Solve All Obligations with done.

(** Unsigned integers up to [max]; a float is refused. *)
Program Definition c_uint (max : Z) : codec Z := {|
  ser := VInt;
  de v := match v with VInt z => if (0 <=? z) && (z <=? max) then Some z else None | _ => None end;
  fits z := 0 <= z <= max;
|}.
Next Obligation. done. Qed.
Next Obligation.
  intros max z [? ?]. rewrite (proj2 (Z.leb_le 0 z)), (proj2 (Z.leb_le z max)) by done. done.
Qed.

Definition c_u64 : codec Z := c_uint U64_MAX.

Program Definition c_i64 : codec Z := {|
  ser := VInt;
  de v := match v with VInt z => if (- 2 ^ 63 <=? z) && (z <? 2 ^ 63) then Some z else None | _ => None end;
  fits z := - 2 ^ 63 <= z < 2 ^ 63;
|}.
Next Obligation. done. Qed.
Next Obligation.
  intros z [? ?]. rewrite (proj2 (Z.leb_le (- 2 ^ 63) z)), (proj2 (Z.ltb_lt z (2 ^ 63))) by done. done.
Qed.

(** Floats; an integer is read as a float. *)
Program Definition c_f64 : codec f64 := {|
  ser x := if is_finite x then VFloat x else VNull;
  de v := match v with
          | VFloat x => Some x
          | VSingle x => Some (f64_of_f32 x)
          | VInt z => Some (f64_of_Z z)
          | _ => None
          end;
  fits x := is_finite x = true;
|}.
Next Obligation. intros x Hx. cbv beta in *. by rewrite Hx. Qed.
Next Obligation. intros x Hx. cbv beta in *. by rewrite Hx. Qed.

(** A [f32] is handed over as it is; a wider number is narrowed when read. *)
Program Definition c_f32 : codec f32 := {|
  ser x := if is_finite (f64_of_f32 x) then VSingle x else VNull;
  de v := match v with
          | VSingle x => Some x
          | VFloat x => Some (f32_of_f64 x)
          | VInt z => Some (f32_of_Z z)
          | _ => None
          end;
  fits x := is_finite (f64_of_f32 x) = true;
|}.
Next Obligation. intros x Hx. cbv beta in *. by rewrite Hx. Qed.
Next Obligation. intros x Hx. cbv beta in *. by rewrite Hx. Qed.

(** [Value::as_f64] of a float, after [to_value]. *)
Definition as_f64 (v : Value) : option f64 :=
  match v with VFloat x => Some x | VSingle x => Some (f64_of_f32 x) | _ => None end.

(** [Option<T>], as a value: [null] is [None]. *)
Definition opt_ser {A} (c : codec A) (o : option A) : Value := match o with Some x => ser c x | None => VNull end.
Definition opt_de {A} (c : codec A) (v : Value) : option (option A) :=
  match v with VNull => Some None | v => Some <$> de c v end.

Lemma opt_de_ser {A} (c : codec A) o : from_option (fits c) True o -> opt_de c (opt_ser c o) = Some o.
Proof.
  destruct o as [x|]; simpl; [|done]. intros Hx. pose proof (ser_some c x Hx). pose proof (de_ser c x Hx) as Hd.
  unfold opt_de. destruct (ser c x); try done; by rewrite Hd.
Qed.

Fixpoint de_all {A} (c : codec A) (l : list Value) : option (list A) :=
  match l with
  | [] => Some []
  | v :: l => x ← de c v; xs ← de_all c l; Some (x :: xs)
  end.

Program Definition c_list {A} (c : codec A) : codec (list A) := {|
  ser l := VArray (ser c <$> l);
  de v := match v with VArray l => de_all c l | _ => None end;
  fits l := Forall (fits c) l;
|}.
Next Obligation. done. Qed.
Next Obligation.
  intros A c l Hl. simpl in *. induction Hl as [|x l Hx Hl IH]; csimpl; [done|]. rewrite de_ser by done. simpl. by rewrite IH.
Qed.

(** A pair is an array of two. *)
Program Definition c_pair {A B} (c : codec A) (d : codec B) : codec (A * B) := {|
  ser p := VArray [ser c p.1; ser d p.2];
  de v := match v with VArray [x; y] => a ← de c x; b ← de d y; Some (a, b) | _ => None end;
  fits p := fits c p.1 /\ fits d p.2;
|}.
Next Obligation. done. Qed.
Next Obligation. intros A B c d [a b] [Ha Hb]. simpl in *. rewrite de_ser by done. simpl. by rewrite de_ser. Qed.

(** [HashMap<K, V>]: an object whose names are the printed keys. *)
Fixpoint de_entries {K A} (parse : string -> option K) (c : codec A) (l : list (string * Value)) : option (list (K * A)) :=
  match l with
  | [] => Some []
  | (k, v) :: l => k ← parse k; x ← de c v; xs ← de_entries parse c l; Some ((k, x) :: xs)
  end.

Program Definition c_map {K} `{Countable K} {A} (print : K -> string) (parse : string -> option K) (c : codec A)
  : codec (gmap K A) := {|
  ser m := VObject (prod_map print (ser c) <$> map_to_list m);
  de v := match v with VObject l => list_to_map <$> de_entries parse c l | _ => None end;
  fits m := map_Forall (fun k x => parse (print k) = Some k /\ fits c x) m;
|}.
Next Obligation. done. Qed.
Next Obligation.
  intros K ?? A print parse c m Hm. simpl in *.
  assert (Hl : Forall (fun kx => parse (print kx.1) = Some kx.1 /\ fits c kx.2) (map_to_list m)).
  { apply Forall_forall. intros [k x] Hk%elem_of_map_to_list. by apply Hm. }
  assert (He : de_entries parse c (prod_map print (ser c) <$> map_to_list m) = Some (map_to_list m)).
  { induction Hl as [|[k x] l [Hk Hx] Hl IH]; csimpl; [done|]. simpl in *. rewrite Hk. simpl.
    rewrite de_ser by done. simpl. by rewrite IH. }
  rewrite He. simpl. by rewrite list_to_map_to_list.
Qed.

(** ** Structs *)

(** How a field is written and what stands for it when it is missing. *)
Record mode (A : Type) := mkMode { skip : A -> bool; missing : option A }.
Arguments mkMode {A}.
Arguments skip {A}.
Arguments missing {A}.

Definition required {A} : mode A := mkMode (fun _ => false) None.
Definition default_to {A} (d : A) : mode A := mkMode (fun _ => false) (Some d).
Definition skip_none {A} : mode (option A) := mkMode (fun o => negb (is_some o)) (Some None).

(** The fields of a struct [S], and the constructor they are handed to.  The
    functions of a field are those of its type; an optional field is read and
    written with [opt_ser] and [opt_de]. *)
Inductive struct (S : Type) : Type -> Type :=
  | Build {B} (b : B) : struct S B
  | Field {A B} (name : string) (m : mode A) (wr : A -> Value) (rd : Value -> option A) (good : A -> Prop)
      (get : S -> A) (st : struct S (A -> B)) : struct S B.
Arguments Build {S B}.
Arguments Field {S A B}.

Fixpoint names {S B} (st : struct S B) : list string :=
  match st with
  | Build _ => []
  | Field name _ _ _ _ _ st => names st ++ [name]
  end.

Fixpoint eval {S B} (st : struct S B) (s : S) : B :=
  match st with
  | Build b => b
  | Field _ _ _ _ _ get st => eval st s (get s)
  end.

Fixpoint ser_fields {S B} (st : struct S B) (s : S) : list (string * Value) :=
  match st with
  | Build _ => []
  | Field name m wr _ _ get st =>
      ser_fields st s ++ (if skip m (get s) then [] else [(name, wr (get s))])
  end.

Fixpoint de_fields {S B} (st : struct S B) (l : list (string * Value)) : option B :=
  match st with
  | Build b => Some b
  | Field name m _ rd _ _ st =>
      f ← de_fields st l;
      x ← (match member name l with Some v => rd v | None => missing m end);
      Some (f x)
  end.

(** Every field of [s] survives on its own. *)
Fixpoint good_fields {S B} (st : struct S B) (s : S) : Prop :=
  match st with
  | Build _ => True
  | Field _ m wr rd good get st =>
      good_fields st s /\ good (get s)
  end.

(** The laws of the fields. *)
Fixpoint lawful {S B} (st : struct S B) : Prop :=
  match st with
  | Build _ => True
  | Field _ m wr rd good _ st =>
      lawful st /\ (forall x, good x -> rd (wr x) = Some x) /\ (forall x, skip m x = true -> missing m = Some x)
  end.

Definition ser_struct {S} (st : struct S S) (s : S) : Value := VObject (ser_fields st s).
Definition de_struct {S} (st : struct S S) (v : Value) : option S :=
  match v with VObject l => de_fields st l | _ => None end.

Lemma member_app name l1 l2 :
  member name (l1 ++ l2) = match member name l1 with Some v => Some v | None => member name l2 end.
Proof. induction l1 as [|[k v] l1 IH]; simpl; [done|]. by case_decide. Qed.

Lemma member_none name l : name ∉ l.*1 -> member name l = None.
Proof.
  induction l as [|[k v] l IH]; csimpl; [done|]. intros [? ?]%not_elem_of_cons. case_decide; [by subst|auto].
Qed.

Lemma ser_fields_names {S B} (st : struct S B) s k : k ∈ (ser_fields st s).*1 -> k ∈ names st.
Proof.
  induction st as [|A B name m wr rd good get st IH]; simpl; [done|]. rewrite fmap_app, elem_of_app.
  intros [?%IH|Hk]; [set_solver|]. destruct (skip m (get s)); simpl in Hk; set_solver.
Qed.

(** Reading a list that has the members of [s] gives [s] back. *)
Fixpoint holds {S B} (st : struct S B) (s : S) (l : list (string * Value)) : Prop :=
  match st with
  | Build _ => True
  | Field name m wr _ _ get st =>
      holds st s l /\ member name l = if skip m (get s) then None else Some (wr (get s))
  end.

Lemma holds_app {S B} (st : struct S B) s l l' :
  Forall (fun k => k ∉ l'.*1) (names st) -> holds st s l -> holds st s (l ++ l').
Proof.
  induction st as [|A B name m wr rd good get st IH]; simpl; [done|]. rewrite Forall_app, Forall_singleton.
  intros [Hn Hm] [Hh Hl]. split; [by apply IH|]. rewrite member_app, Hl, (member_none _ _ Hm). by destruct (skip m (get s)).
Qed.

Lemma ser_fields_hold {S B} (st : struct S B) s : NoDup (names st) -> holds st s (ser_fields st s).
Proof.
  induction st as [|A B name m wr rd good get st IH]; simpl; [done|].
  intros (Hn & Hd & _)%NoDup_app. split.
  - apply holds_app; [|by apply IH]. apply Forall_forall. intros k Hk. specialize (Hd k Hk).
    destruct (skip m (get s)); simpl; set_solver.
  - rewrite member_app, member_none.
    + destruct (skip m (get s)); simpl; [done|]. by rewrite decide_True.
    + intros Hk%ser_fields_names. apply (Hd name Hk). set_solver.
Qed.

Lemma de_fields_holds {S B} (st : struct S B) s l :
  lawful st -> good_fields st s -> holds st s l -> de_fields st l = Some (eval st s).
Proof.
  induction st as [|A B name m wr rd good get st IH]; simpl; [done|].
  intros (Hl & Hrt & Hsk) (Hg & Hx) (Hh & Hm). rewrite (IH Hl Hg Hh). simpl. rewrite Hm.
  destruct (skip m (get s)) eqn:E; [by rewrite (Hsk _ E)|]. by rewrite (Hrt _ Hx).
Qed.

Lemma de_ser_struct {S} (st : struct S S) s :
  NoDup (names st) -> lawful st -> eval st s = s -> good_fields st s -> de_struct st (ser_struct st s) = Some s.
Proof.
  intros Hn Hl He Hg. simpl. rewrite (de_fields_holds st s); [by rewrite He|done|done|by apply ser_fields_hold].
Qed.

(** The codec of a struct. *)
Program Definition c_struct {S} (st : struct S S) (Hn : NoDup (names st)) (Hl : lawful st)
    (He : forall s, eval st s = s) : codec S := {|
  ser := ser_struct st;
  de := de_struct st;
  fits := good_fields st;
|}.
Next Obligation. done. Qed.
Next Obligation. intros S st Hn Hl He s Hs. by apply de_ser_struct. Qed.

(** Missing members: what is read when only the members [keep] are given. *)
Fixpoint eval_partial {S B} (keep : string -> bool) (st : struct S B) (s : S) : option B :=
  match st with
  | Build b => Some b
  | Field name m _ _ _ get st =>
      f ← eval_partial keep st s;
      x ← (if keep name then Some (get s) else missing m);
      Some (f x)
  end.

Fixpoint all_defaulted {S B} (st : struct S B) : bool :=
  match st with
  | Build _ => true
  | Field _ m _ _ _ _ st => all_defaulted st && is_some (missing m)
  end.

Lemma eval_partial_defaulted {S B} keep (st : struct S B) s :
  all_defaulted st = true -> is_Some (eval_partial keep st s).
Proof.
  induction st as [|A B name m wr rd good get st IH]; simpl; [by eauto|].
  intros [[f ->]%IH Hm]%andb_true_iff. simpl. destruct (keep name), (missing m); simpl in *; by eauto.
Qed.

Definition kept (keep : string -> bool) (l : list (string * Value)) : list (string * Value) :=
  filter (fun kv => keep kv.1 = true) l.

Lemma member_kept keep name l : member name (kept keep l) = if keep name then member name l else None.
Proof.
  unfold kept. induction l as [|[k v] l IH]; simpl; [by destruct (keep name)|].
  rewrite filter_cons. simpl. destruct (decide (keep k = true)) as [Hk|Hk]; simpl; rewrite IH.
  - case_decide; [subst; by rewrite Hk|done].
  - case_decide; [subst; by destruct (keep name)|done].
Qed.

Lemma de_fields_partial {S B} keep (st : struct S B) s l :
  lawful st -> good_fields st s -> holds st s l -> de_fields st (kept keep l) = eval_partial keep st s.
Proof.
  induction st as [|A B name m wr rd good get st IH]; simpl; [done|].
  intros (Hl & Hrt & Hsk) (Hg & Hx) (Hh & Hm). rewrite (IH Hl Hg Hh), member_kept, Hm.
  destruct (eval_partial keep st s) as [f|]; simpl; [|done].
  destruct (keep name), (skip m (get s)) eqn:E; try done; [by rewrite (Hsk _ E)|by rewrite (Hrt _ Hx)].
Qed.

Ltac solve_struct :=
  first [ by apply (bool_decide_unpack _); vm_compute
        | by intros []
        | cbn [lawful]; repeat split; first [apply de_ser | apply opt_de_ser | by intros [] | done] ].

(** Descriptions are built field by field. *)
Definition add {S A B} (name : string) (m : mode A) (c : codec A) (get : S -> A) (st : struct S (A -> B)) : struct S B :=
  Field name m (ser c) (de c) (fits c) get st.
Definition add_opt {S A B} (name : string) (m : mode (option A)) (c : codec A) (get : S -> option A)
    (st : struct S (option A -> B)) : struct S B :=
  Field name m (opt_ser c) (opt_de c) (from_option (fits c) True) get st.

Declare Scope serde_scope.
Notation "st |> f" := (f st) (at level 50, left associativity, only parsing) : serde_scope.
