(* ===== verification/ReportJson.v ===== *)
(** JSON of the summary and of the report artifact: what the serde attributes of
    [src/report/schema.rs], [src/metrics/summary.rs], [src/metrics/protocols.rs],
    [src/metrics/system.rs], [src/metrics/timeline.rs] and [src/chaos.rs] make of
    the structs ([Serde]).  The artifact is what the Python side stores and
    renders; the summary is what its [to_json] and [from_json] exchange. *)

From S2P Require Import Prelude RustStr Float Histogram Chaos Samples Aggregate Config Summary Artifact Report Serde.

#[local] Open Scope Z_scope.
#[local] Open Scope serde_scope.

Ltac solve_eta :=
  intros []; repeat match goal with p : Percentiles |- _ => destruct p end; reflexivity.

(** [HashMap<String, u64>] and [HashMap<u16, u64>]; a key is read back from the
    numeral it is printed as. *)
Definition c_counts : codec (gmap string Z) := c_map id Some c_u64.

Definition parse_code (s : string) : option Z :=
  n ← parse_usize s; if bool_decide (u64_to_string n = s) && (n <=? 65535) then Some n else None.
Definition c_codes : codec (gmap Z Z) := c_map u64_to_string parse_code c_u64.

(** ** [chaos.rs], [protocols.rs], [timeline.rs], [system.rs] *)

Definition c_chaos : codec ChaosMetrics := c_struct
  (Build mkChaosMetrics
   |> add "injected_total" required c_u64 total_injected
   |> add "by_type" required c_counts faults_by_type)
  ltac:(solve_struct) ltac:(solve_struct) ltac:(solve_eta).

Definition c_quic : codec QuicMetrics := c_struct
  (Build mkQuicMetrics
   |> add "zero_rtt_accepted_count" (default_to 0) c_u64 qm_zero_rtt_accepted_count
   |> add "retransmissions" (default_to 0) c_u64 qm_retransmissions
   |> add_opt "avg_handshake_ms" (default_to None) c_f64 qm_avg_handshake_ms)
  ltac:(solve_struct) ltac:(solve_struct) ltac:(solve_eta).

Definition c_sse : codec SseMetrics := c_struct
  (Build mkSseMetrics
   |> add "total_events_received" (default_to 0) c_u64 ssem_total_events_received
   |> add_opt "avg_ttfb_ms" (default_to None) c_f64 ssem_avg_ttfb_ms)
  ltac:(solve_struct) ltac:(solve_struct) ltac:(solve_eta).

Definition c_graphql : codec GraphqlMetrics := c_struct
  (Build mkGraphqlMetrics
   |> add "operations_total" (default_to 0) c_u64 gqm_operations_total
   |> add "error_responses_total" (default_to 0) c_u64 gqm_error_responses_total
   |> add "errors_total" (default_to 0) c_u64 gqm_errors_total
   |> add "operation_type" (default_to ""%string) c_string gqm_operation_type)
  ltac:(solve_struct) ltac:(solve_struct) ltac:(solve_eta).

(** Percentiles are four fields of the struct. *)
Definition graphql_ws_of (ops msgs errs : Z) (a b c d e f g h : f64) : GraphqlWsMetrics :=
  mkGraphqlWsMetrics ops msgs errs (Build_Percentiles a b c d) (Build_Percentiles e f g h).

Definition c_graphql_ws : codec GraphqlWsMetrics := c_struct
  (Build graphql_ws_of
   |> add "operations_total" (default_to 0) c_u64 gqwm_operations_total
   |> add "messages_total" (default_to 0) c_u64 gqwm_messages_total
   |> add "errors_total" (default_to 0) c_u64 gqwm_errors_total
   |> add "ttfm_mean_ms" (default_to f64_zero) c_f64 (fun s => mean_ms (gqwm_ttfm s))
   |> add "ttfm_p50_ms" (default_to f64_zero) c_f64 (fun s => p50_ms (gqwm_ttfm s))
   |> add "ttfm_p90_ms" (default_to f64_zero) c_f64 (fun s => p90_ms (gqwm_ttfm s))
   |> add "ttfm_p99_ms" (default_to f64_zero) c_f64 (fun s => p99_ms (gqwm_ttfm s))
   |> add "interval_mean_ms" (default_to f64_zero) c_f64 (fun s => mean_ms (gqwm_interval s))
   |> add "interval_p50_ms" (default_to f64_zero) c_f64 (fun s => p50_ms (gqwm_interval s))
   |> add "interval_p90_ms" (default_to f64_zero) c_f64 (fun s => p90_ms (gqwm_interval s))
   |> add "interval_p99_ms" (default_to f64_zero) c_f64 (fun s => p99_ms (gqwm_interval s)))
  ltac:(solve_struct) ltac:(solve_struct) ltac:(solve_eta).

Definition c_soap : codec SoapMetrics := c_struct
  (Build mkSoapMetrics
   |> add "operations_total" (default_to 0) c_u64 som_operations_total
   |> add "fault_responses_total" (default_to 0) c_u64 som_fault_responses_total
   |> add "soap_version" (default_to ""%string) c_string som_soap_version)
  ltac:(solve_struct) ltac:(solve_struct) ltac:(solve_eta).

Definition stomp_of (sent recv bytes errs recon : Z) (dest md ack : string) (receipts : bool)
    (a b c d e f g h i j k l : f64) : StompMetrics :=
  mkStompMetrics sent recv bytes errs recon dest md ack receipts (Build_Percentiles a b c d) (Build_Percentiles e f g h)
    (Build_Percentiles i j k l).

Definition c_stomp : codec StompMetrics := c_struct
  (Build stomp_of
   |> add "messages_sent_total" (default_to 0) c_u64 stm_messages_sent_total
   |> add "messages_received_total" (default_to 0) c_u64 stm_messages_received_total
   |> add "bytes_sent_total" (default_to 0) c_u64 stm_bytes_sent_total
   |> add "errors_total" (default_to 0) c_u64 stm_errors_total
   |> add "reconnects_total" (default_to 0) c_u64 stm_reconnects_total
   |> add "destination" (default_to ""%string) c_string stm_destination
   |> add "mode" (default_to ""%string) c_string stm_mode
   |> add "ack_mode" (default_to ""%string) c_string stm_ack_mode
   |> add "receipts_enabled" (default_to false) c_bool stm_receipts_enabled
   |> add "send_latency_mean_ms" (default_to f64_zero) c_f64 (fun s => mean_ms (stm_send_latency s))
   |> add "send_latency_p50_ms" (default_to f64_zero) c_f64 (fun s => p50_ms (stm_send_latency s))
   |> add "send_latency_p90_ms" (default_to f64_zero) c_f64 (fun s => p90_ms (stm_send_latency s))
   |> add "send_latency_p99_ms" (default_to f64_zero) c_f64 (fun s => p99_ms (stm_send_latency s))
   |> add "receive_interval_mean_ms" (default_to f64_zero) c_f64 (fun s => mean_ms (stm_receive_interval s))
   |> add "receive_interval_p50_ms" (default_to f64_zero) c_f64 (fun s => p50_ms (stm_receive_interval s))
   |> add "receive_interval_p90_ms" (default_to f64_zero) c_f64 (fun s => p90_ms (stm_receive_interval s))
   |> add "receive_interval_p99_ms" (default_to f64_zero) c_f64 (fun s => p99_ms (stm_receive_interval s))
   |> add "ttfm_mean_ms" (default_to f64_zero) c_f64 (fun s => mean_ms (stm_ttfm s))
   |> add "ttfm_p50_ms" (default_to f64_zero) c_f64 (fun s => p50_ms (stm_ttfm s))
   |> add "ttfm_p90_ms" (default_to f64_zero) c_f64 (fun s => p90_ms (stm_ttfm s))
   |> add "ttfm_p99_ms" (default_to f64_zero) c_f64 (fun s => p99_ms (stm_ttfm s)))
  ltac:(solve_struct) ltac:(solve_struct) ltac:(solve_eta).

Definition database_of (driver : string) (queries rows errs pmax psize : Z) (fetch : string)
    (a b c d e f g h : f64) : DatabaseMetrics :=
  mkDatabaseMetrics driver queries rows errs pmax psize fetch (Build_Percentiles a b c d) (Build_Percentiles e f g h).

Definition c_database : codec DatabaseMetrics := c_struct
  (Build database_of
   |> add "driver" (default_to ""%string) c_string dbm_driver
   |> add "queries_total" (default_to 0) c_u64 dbm_queries_total
   |> add "rows_total" (default_to 0) c_u64 dbm_rows_total
   |> add "errors_total" (default_to 0) c_u64 dbm_errors_total
   |> add "pool_max" (default_to 0) c_u64 dbm_pool_max
   |> add "pool_size" (default_to 0) c_u64 dbm_pool_size
   |> add "fetch_mode" (default_to ""%string) c_string dbm_fetch_mode
   |> add "pool_acquire_mean_ms" (default_to f64_zero) c_f64 (fun s => mean_ms (dbm_pool_acquire s))
   |> add "pool_acquire_p50_ms" (default_to f64_zero) c_f64 (fun s => p50_ms (dbm_pool_acquire s))
   |> add "pool_acquire_p90_ms" (default_to f64_zero) c_f64 (fun s => p90_ms (dbm_pool_acquire s))
   |> add "pool_acquire_p99_ms" (default_to f64_zero) c_f64 (fun s => p99_ms (dbm_pool_acquire s))
   |> add "query_mean_ms" (default_to f64_zero) c_f64 (fun s => mean_ms (dbm_query s))
   |> add "query_p50_ms" (default_to f64_zero) c_f64 (fun s => p50_ms (dbm_query s))
   |> add "query_p90_ms" (default_to f64_zero) c_f64 (fun s => p90_ms (dbm_query s))
   |> add "query_p99_ms" (default_to f64_zero) c_f64 (fun s => p99_ms (dbm_query s)))
  ltac:(solve_struct) ltac:(solve_struct) ltac:(solve_eta).

Definition c_websocket : codec WebsocketMetrics := c_struct
  (Build mkWebsocketMetrics
   |> add "pings_sent_total" (default_to 0) c_u64 wsm_pings_sent_total
   |> add "pings_received_total" (default_to 0) c_u64 wsm_pings_received_total
   |> add "pongs_solicited_total" (default_to 0) c_u64 wsm_pongs_solicited_total
   |> add "pongs_unsolicited_total" (default_to 0) c_u64 wsm_pongs_unsolicited_total
   |> add "backpressure_max_bytes" (default_to 0) c_u64 wsm_backpressure_max_bytes
   |> add "backpressure_mean_bytes" (default_to f64_zero) c_f64 wsm_backpressure_mean_bytes
   |> add "backpressure_threshold_breaches" (default_to 0) c_u64 wsm_backpressure_threshold_breaches)
  ltac:(solve_struct) ltac:(solve_struct) ltac:(solve_eta).

Definition c_grpc : codec GrpcMetrics := c_struct
  (Build mkGrpcMetrics
   |> add "active_streams_peak" (default_to 0) c_u64 gm_active_streams_peak
   |> add "concurrency_utilization_peak" (default_to f64_zero) c_f64 gm_concurrency_utilization_peak
   |> add "concurrency_utilization_mean" (default_to f64_zero) c_f64 gm_concurrency_utilization_mean
   |> add "window_exhaustion_events_total" (default_to 0) c_u64 gm_window_exhaustion_events_total
   |> add "window_stall_duration_ms_total" (default_to f64_zero) c_f64 gm_window_stall_duration_ms_total
   |> add "send_capacity_min_bytes" (default_to 0) c_u64 gm_send_capacity_min_bytes)
  ltac:(solve_struct) ltac:(solve_struct) ltac:(solve_eta).

Definition c_http3 : codec Http3Metrics := c_struct
  (Build mkHttp3Metrics
   |> add "cwnd_bytes_current" (default_to 0) c_u64 h3m_cwnd_bytes_current
   |> add "cwnd_bytes_min" (default_to 0) c_u64 h3m_cwnd_bytes_min
   |> add "cwnd_bytes_max" (default_to 0) c_u64 h3m_cwnd_bytes_max
   |> add "cwnd_bytes_mean" (default_to f64_zero) c_f64 h3m_cwnd_bytes_mean
   |> add "migrations_attempted_total" (default_to 0) c_u64 h3m_migrations_attempted_total
   |> add "migrations_successful_total" (default_to 0) c_u64 h3m_migrations_successful_total
   |> add "migration_success_rate" (default_to f64_zero) c_f64 h3m_migration_success_rate)
  ltac:(solve_struct) ltac:(solve_struct) ltac:(solve_eta).

Definition c_timeline_sample : codec TimelineSample := c_struct
  (Build mkTimelineSample
   |> add "elapsed_sec" (default_to f64_zero) c_f64 tls_elapsed_sec
   |> add "rps" (default_to f64_zero) c_f64 tls_rps
   |> add "error_rate" (default_to f64_zero) c_f64 tls_error_rate
   |> add "p50_us" (default_to f64_zero) c_f64 tls_p50_us
   |> add "p95_us" (default_to f64_zero) c_f64 tls_p95_us
   |> add "p99_us" (default_to f64_zero) c_f64 tls_p99_us)
  ltac:(solve_struct) ltac:(solve_struct) ltac:(solve_eta).

Definition c_timeline : codec Timeline := c_struct
  (Build mkTimeline
   |> add "interval_ms" (default_to 0) c_u64 tl_interval_ms
   |> add "samples" (default_to []) (c_list c_timeline_sample) tl_samples)
  ltac:(solve_struct) ltac:(solve_struct) ltac:(solve_eta).

Definition c_resource_sample : codec ResourceSample := c_struct
  (Build mkResourceSample
   |> add "timestamp_us" (default_to 0) c_u64 rs_timestamp_us
   |> add "cpu_usage_percent" (default_to f64_zero) c_f32 rs_cpu_usage_percent
   |> add "memory_rss_bytes" (default_to 0) c_u64 rs_memory_rss_bytes
   |> add "thread_count" (default_to 0) c_u64 rs_thread_count
   |> add_opt "open_fds" (default_to None) c_u64 rs_open_fds)
  ltac:(solve_struct) ltac:(solve_struct) ltac:(solve_eta).

Definition c_system_metrics : codec SystemMetrics := c_struct
  (Build mkSystemMetrics
   |> add "peak_cpu_percent" (default_to f64_zero) c_f32 sm_peak_cpu_percent
   |> add "avg_cpu_percent" (default_to f64_zero) c_f32 sm_avg_cpu_percent
   |> add "peak_memory_rss_bytes" (default_to 0) c_u64 sm_peak_memory_rss_bytes
   |> add "avg_memory_rss_bytes" (default_to 0) c_u64 sm_avg_memory_rss_bytes
   |> add "peak_thread_count" (default_to 0) c_u64 sm_peak_thread_count
   |> add "time_series" (default_to []) (c_list c_resource_sample) sm_time_series)
  ltac:(solve_struct) ltac:(solve_struct) ltac:(solve_eta).

(** ** [summary.rs] *)

(** The fields of [TestSummary], all with a default. *)
Definition summary_struct : struct TestSummary TestSummary :=
  Build mkTestSummary
   |> add "url" (default_to ""%string) c_string su_url
   |> add "total_requests" (default_to 0) c_u64 su_total_requests
   |> add "total_errors" (default_to 0) c_u64 su_total_errors
   |> add "average_latency_ms" (default_to f64_zero) c_f64 su_average_latency_ms
   |> add "p95_latency_ms" (default_to f64_zero) c_f64 su_p95_latency_ms
   |> add "p99_latency_ms" (default_to f64_zero) c_f64 su_p99_latency_ms
   |> add "min_latency_ms" (default_to f64_zero) c_f64 su_min_latency_ms
   |> add "p50_latency_ms" (default_to f64_zero) c_f64 su_p50_latency_ms
   |> add "p90_latency_ms" (default_to f64_zero) c_f64 su_p90_latency_ms
   |> add "max_latency_ms" (default_to f64_zero) c_f64 su_max_latency_ms
   |> add "total_bytes_received" (default_to 0) c_u64 su_total_bytes_received
   |> add "duration_secs" (default_to f64_zero) c_f64 su_duration_secs
   |> add "workers" (default_to 0) c_u64 su_workers
   |> add "timestamp" (default_to ""%string) c_string su_timestamp
   |> add_opt "raw_command" (default_to None) c_string su_raw_command
   |> add "status_codes" (default_to ∅) c_codes su_status_codes
   |> add "avg_e2e_latency_us" (default_to f64_zero) c_f64 su_avg_e2e_latency_us
   |> add "avg_connection_latency_us" (default_to f64_zero) c_f64 su_avg_connection_latency_us
   |> add_opt "quic" (default_to None) c_quic su_quic
   |> add_opt "sse" (default_to None) c_sse su_sse
   |> add_opt "ws" (default_to None) c_websocket su_ws
   |> add_opt "grpc" (default_to None) c_grpc su_grpc
   |> add_opt "http3" (default_to None) c_http3 su_http3
   |> add_opt "graphql" (default_to None) c_graphql su_graphql
   |> add_opt "graphql_ws" (default_to None) c_graphql_ws su_graphql_ws
   |> add_opt "soap" (default_to None) c_soap su_soap
   |> add_opt "stomp" (default_to None) c_stomp su_stomp
   |> add_opt "database" (default_to None) c_database su_database
   |> add_opt "timeline" (default_to None) c_timeline su_timeline
   |> add "chaos_injected_total" (default_to 0) c_u64 su_chaos_injected_total
   |> add "chaos_faults_by_type" (default_to ∅) c_counts su_chaos_faults_by_type
   |> add "std_dev_latency_ms" (default_to f64_zero) c_f64 su_std_dev_latency_ms
   |> add "p99_99_latency_ms" (default_to f64_zero) c_f64 su_p99_99_latency_ms
   |> add "latency_histogram" (default_to ∅) c_counts su_latency_histogram
   |> add_opt "system_metrics" (default_to None) c_system_metrics su_system_metrics
   |> add "connection_reuse_ratio" (default_to f64_zero) c_f64 su_connection_reuse_ratio
   |> add "avg_dns_resolution_ms" (default_to f64_zero) c_f64 su_avg_dns_resolution_ms.

Definition c_summary : codec TestSummary := c_struct summary_struct
  ltac:(solve_struct) ltac:(solve_struct) ltac:(solve_eta).

(** ** [schema.rs] *)

Definition c_connection_pool : codec ConnectionPoolMetrics := c_struct
  (Build mkConnectionPool
   |> add "socket_creation_rate" required c_f64 cp_socket_creation_rate
   |> add "socket_reuse_rate" required c_f64 cp_socket_reuse_rate
   |> add "dns_lookup_ms" required c_f64 cp_dns_lookup_ms)
  ltac:(solve_struct) ltac:(solve_struct) ltac:(solve_eta).

Definition c_slo_check : codec SloCheck := c_struct
  (Build mkSloCheck
   |> add "name" required c_string sc_name
   |> add "observed" required c_f64 sc_observed
   |> add "threshold" required c_f64 sc_threshold
   |> add "comparator" required c_string sc_comparator
   |> add "passed" required c_bool sc_passed)
  ltac:(solve_struct) ltac:(solve_struct) ltac:(solve_eta).

Definition c_slo : codec SloResult := c_struct
  (Build mkSloResult
   |> add "passed" required c_bool sl_passed
   |> add "checks" required (c_list c_slo_check) sl_checks)
  ltac:(solve_struct) ltac:(solve_struct) ltac:(solve_eta).

Definition c_system_summary : codec SystemSummaryDisplay := c_struct
  (Build mkSystemSummary
   |> add "peak_cpu_percent" required c_f64 sd_peak_cpu_percent
   |> add "avg_cpu_percent" required c_f64 sd_avg_cpu_percent
   |> add "peak_memory_mb" required c_f64 sd_peak_memory_mb
   |> add "avg_memory_mb" required c_f64 sd_avg_memory_mb
   |> add "peak_threads" required c_u64 sd_peak_threads)
  ltac:(solve_struct) ltac:(solve_struct) ltac:(solve_eta).

Definition c_system_sample : codec SystemSampleDisplay := c_struct
  (Build mkSystemSample
   |> add "elapsed_sec" required c_f64 sd_elapsed_sec
   |> add "cpu_percent" required c_f64 sd_cpu_percent
   |> add "memory_mb" required c_f64 sd_memory_mb
   |> add "threads" required c_u64 sd_threads)
  ltac:(solve_struct) ltac:(solve_struct) ltac:(solve_eta).

Definition c_system_display : codec SystemMetricsDisplay := c_struct
  (Build mkSystemDisplay
   |> add "summary" required c_system_summary sd_summary
   |> add "samples" required (c_list c_system_sample) sd_samples)
  ltac:(solve_struct) ltac:(solve_struct) ltac:(solve_eta).

Definition c_cli_options : codec CliOptions := c_struct
  (Build mkCliOptions
   |> add "method" required c_string co_method
   |> add "concurrency" required c_u64 co_concurrency
   |> add "timeout_secs" required c_u64 co_timeout_secs
   |> add "chaos" required c_bool co_chaos
   |> add "chaos_rate" required c_f32 co_chaos_rate
   |> add "test_seed" (default_to 0) c_u64 co_test_seed
   |> add_opt "body" (default_to None) c_string co_body
   |> add_opt "headers" (default_to None) (c_list (c_pair c_string c_string)) co_headers
   |> add_opt "slo_p95_ms" (default_to None) c_f64 co_slo_p95_ms
   |> add_opt "slo_p99_ms" (default_to None) c_f64 co_slo_p99_ms
   |> add_opt "slo_error_rate" (default_to None) c_f64 co_slo_error_rate
   |> add_opt "slo_min_rps" (default_to None) c_f64 co_slo_min_rps)
  ltac:(solve_struct) ltac:(solve_struct) ltac:(solve_eta).

Definition c_system_info : codec SystemInfo := c_struct
  (Build mkSystemInfo
   |> add "hostname" required c_string in_hostname
   |> add "platform" required c_string in_platform
   |> add "version" required c_string in_version)
  ltac:(solve_struct) ltac:(solve_struct) ltac:(solve_eta).

Definition c_metadata : codec ReportMetadata := c_struct
  (Build mkReportMetadata
   |> add "timestamp" required c_string md_timestamp
   |> add "duration_secs" required c_f64 md_duration_secs
   |> add "target_url" required c_string md_target_url
   |> add "cli_options" required c_cli_options md_cli_options
   |> add "system_info" required c_system_info md_system_info)
  ltac:(solve_struct) ltac:(solve_struct) ltac:(solve_eta).

Definition c_report_summary : codec ReportSummary := c_struct
  (Build mkReportSummary
   |> add "total_requests" required c_u64 ar_total_requests
   |> add "successful_requests" required c_u64 ar_successful_requests
   |> add "failed_requests" required c_u64 ar_failed_requests
   |> add "rps" required c_f64 ar_rps
   |> add "bytes_transferred" required c_u64 ar_bytes_transferred)
  ltac:(solve_struct) ltac:(solve_struct) ltac:(solve_eta).

Definition c_percentiles : codec LatencyPercentiles := c_struct
  (Build mkLatencyPercentiles
   |> add "p50_us" required c_f64 lp_p50_us
   |> add "p90_us" required c_f64 lp_p90_us
   |> add "p95_us" required c_f64 lp_p95_us
   |> add "p99_us" required c_f64 lp_p99_us
   |> add "p99_99_us" required c_f64 lp_p99_99_us
   |> add "min_us" required c_f64 lp_min_us
   |> add "max_us" required c_f64 lp_max_us
   |> add "mean_us" required c_f64 lp_mean_us
   |> add "std_dev_us" required c_f64 lp_std_dev_us)
  ltac:(solve_struct) ltac:(solve_struct) ltac:(solve_eta).

(** The fields of [ReportArtifact]: the optional blocks are left out when absent. *)
Definition artifact_struct : struct ReportArtifact ReportArtifact :=
  Build mkReportArtifact
   |> add "metadata" required c_metadata ra_metadata
   |> add "summary" required c_report_summary ra_summary
   |> add "latency_percentiles" required c_percentiles ra_latency_percentiles
   |> add "error_breakdown" required c_counts ra_error_breakdown
   |> add_opt "avg_connection_latency_us" skip_none c_f64 ra_avg_connection_latency_us
   |> add_opt "quic" skip_none c_quic ra_quic
   |> add_opt "sse" skip_none c_sse ra_sse
   |> add_opt "websocket" skip_none c_websocket ra_websocket
   |> add_opt "grpc" skip_none c_grpc ra_grpc
   |> add_opt "http3" skip_none c_http3 ra_http3
   |> add_opt "graphql" skip_none c_graphql ra_graphql
   |> add_opt "graphql_ws" skip_none c_graphql_ws ra_graphql_ws
   |> add_opt "soap" skip_none c_soap ra_soap
   |> add_opt "stomp" skip_none c_stomp ra_stomp
   |> add_opt "database" skip_none c_database ra_database
   |> add_opt "slo" skip_none c_slo ra_slo
   |> add_opt "timeline" skip_none c_timeline ra_timeline
   |> add_opt "chaos_faults" skip_none c_chaos ra_chaos
   |> add_opt "latency_histogram" skip_none c_counts ra_latency_histogram
   |> add_opt "system_metrics" skip_none c_system_display ra_system_metrics
   |> add_opt "connection_pool" skip_none c_connection_pool ra_connection_pool.

Definition c_artifact : codec ReportArtifact := c_struct artifact_struct
  ltac:(solve_struct) ltac:(solve_struct) ltac:(solve_eta).

(** [TestSummary::default()]. *)
Definition TestSummary_default : TestSummary :=
  mkTestSummary "" 0 0 f64_zero f64_zero f64_zero f64_zero f64_zero f64_zero f64_zero 0 f64_zero 0 "" None ∅
    f64_zero f64_zero None None None None None None None None None None None 0 ∅ f64_zero f64_zero ∅ None f64_zero
    f64_zero.

(** ** The report of a distributed run ([src/distributed/master/reporting.rs]) *)

Definition c_global_latency : codec GlobalLatency := c_struct
  (Build mkGlobalLatency
   |> add "p50_ms" required c_f64 gl_p50_ms
   |> add "p90_ms" required c_f64 gl_p90_ms
   |> add "p95_ms" required c_f64 gl_p95_ms
   |> add "p99_ms" required c_f64 gl_p99_ms
   |> add "min_ms" required c_f64 gl_min_ms
   |> add "max_ms" required c_f64 gl_max_ms
   |> add "sample_count" required c_u64 gl_sample_count
   |> add "bucket_counts" required (c_list c_u64) gl_bucket_counts)
  ltac:(solve_struct) ltac:(solve_struct) ltac:(solve_eta).

Definition c_error_class_count : codec ErrorClassCount := c_struct
  (Build mkErrorClassCount
   |> add "error_class" required c_string ecc_error_class
   |> add "count" required c_u64 ecc_count)
  ltac:(solve_struct) ltac:(solve_struct) ltac:(solve_eta).

Definition c_timeline_point : codec TimelinePoint := c_struct
  (Build mkTimelinePoint
   |> add "elapsed_secs" required c_f64 tp_elapsed_secs
   |> add "epoch_ms" required c_i64 tp_epoch_ms
   |> add "rps" required c_f64 tp_rps
   |> add "error_rate_percent" required c_f64 tp_error_rate_percent
   |> add "p50_ms" required c_f64 tp_p50_ms
   |> add "p95_ms" required c_f64 tp_p95_ms
   |> add "p99_ms" required c_f64 tp_p99_ms)
  ltac:(solve_struct) ltac:(solve_struct) ltac:(solve_eta).

Definition c_worker_share : codec WorkerShare := c_struct
  (Build mkWorkerShare
   |> add "worker_id" required c_string wsh_worker_id
   |> add "total_requests" required c_u64 wsh_total_requests
   |> add "success_count" required c_u64 wsh_success_count
   |> add "failure_count" required c_u64 wsh_failure_count
   |> add "error_rate_percent" required c_f64 wsh_error_rate_percent
   |> add "rps" required c_f64 wsh_rps
   |> add "share_percent" required c_f64 wsh_share_percent
   |> add "p95_ms" required c_f64 wsh_p95_ms)
  ltac:(solve_struct) ltac:(solve_struct) ltac:(solve_eta).

Definition c_global_report : codec GlobalReport := c_struct
  (Build mkGlobalReport
   |> add "test_run_id" required c_string gr_test_run_id
   |> add "workers" required (c_list c_string) gr_workers
   |> add "worker_count" required c_u64 gr_worker_count
   |> add "batches" required c_u64 gr_batches
   |> add "total_requests" required c_u64 gr_total_requests
   |> add "success_count" required c_u64 gr_success_count
   |> add "failure_count" required c_u64 gr_failure_count
   |> add "error_rate_percent" required c_f64 gr_error_rate_percent
   |> add "bytes_received" required c_u64 gr_bytes_received
   |> add "rps" required c_f64 gr_rps
   |> add "duration_secs" required c_f64 gr_duration_secs
   |> add "latency" required c_global_latency gr_latency
   |> add "error_breakdown" required (c_list c_error_class_count) gr_error_breakdown
   |> add "timeline" required (c_list c_timeline_point) gr_timeline
   |> add "worker_shares" required (c_list c_worker_share) gr_worker_shares)
  ltac:(solve_struct) ltac:(solve_struct) ltac:(solve_eta).

(** ** Properties *)

(** The names of the members an object is written with. *)
Lemma keys_of {S B} (st : struct S B) s k :
  k ∈ (ser_fields st s).*1 <->
  (fix go B (st : struct S B) : Prop :=
     match st with
     | Build _ => False
     | Field name m _ _ _ get st => go _ st \/ (k = name /\ skip m (get s) = false)
     end) B st.
Proof.
  induction st as [|A B name m wr rd good get st IH]; simpl; [by rewrite elem_of_nil|].
  rewrite fmap_app, elem_of_app, IH. destruct (skip m (get s)); simpl; set_solver.
Qed.

Lemma pair_flag (k n : string) (b : bool) : (k, true) = (n, b) <-> k = n /\ b = true.
Proof. split; [by intros [= -> <-]|by intros [-> ->]]. Qed.

(** The artifact as the Python side gets it: an artifact whose counters are
    64-bit words and whose floats are finite is read back exactly from its JSON. *)
Theorem artifact_json_roundtrip a :
  fits c_artifact a -> de c_artifact (ser c_artifact a) = Some a.
Proof. apply de_ser. Qed.

(** The schema contract: the object has the members [metadata], [summary],
    [latency_percentiles] and [error_breakdown], each optional block exactly when
    it is present, under its name ([chaos_faults] for the chaos metrics), and
    nothing else. *)
Theorem artifact_members a k :
  k ∈ (ser_fields artifact_struct a).*1 <->
  k ∈ ["metadata"; "summary"; "latency_percentiles"; "error_breakdown"]%string \/
  (k, true) ∈ [("avg_connection_latency_us", is_some (ra_avg_connection_latency_us a));
    ("quic", is_some (ra_quic a)); ("sse", is_some (ra_sse a)); ("websocket", is_some (ra_websocket a));
    ("grpc", is_some (ra_grpc a)); ("http3", is_some (ra_http3 a)); ("graphql", is_some (ra_graphql a));
    ("graphql_ws", is_some (ra_graphql_ws a)); ("soap", is_some (ra_soap a)); ("stomp", is_some (ra_stomp a));
    ("database", is_some (ra_database a)); ("slo", is_some (ra_slo a)); ("timeline", is_some (ra_timeline a));
    ("chaos_faults", is_some (ra_chaos a)); ("latency_histogram", is_some (ra_latency_histogram a));
    ("system_metrics", is_some (ra_system_metrics a)); ("connection_pool", is_some (ra_connection_pool a))]%string.
Proof.
  rewrite keys_of. unfold artifact_struct, add, add_opt, required, skip_none. cbn [skip].
  rewrite !elem_of_cons, !elem_of_nil, !pair_flag, !negb_false_iff. tauto.
Qed.

(** The summary as [to_json] and [from_json] exchange it: a summary in range is
    read back exactly; any part of its members may be missing, and then reads as
    the default of that field while the others keep their value; the empty object
    is the default summary. *)
Theorem summary_json_partial s keep :
  fits c_summary s ->
  de c_summary (ser c_summary s) = Some s /\
  de c_summary (VObject (kept keep (ser_fields summary_struct s))) = eval_partial keep summary_struct s /\
  is_Some (eval_partial keep summary_struct s) /\
  eval_partial (fun _ => true) summary_struct s = Some s /\
  eval_partial (fun _ => false) summary_struct s = Some TestSummary_default.
Proof.
  intros Hs. split_and!.
  - by apply de_ser.
  - apply (de_fields_partial keep summary_struct).
    + unfold summary_struct. solve_struct.
    + exact Hs.
    + apply ser_fields_hold. unfold summary_struct. solve_struct.
  - by apply eval_partial_defaulted.
  - by destruct s.
  - done.
Qed.
