(* ===== verification/PyJson.v ===== *)
(** The JSON side of the Python module: [TestSummary.from_json], [to_json] and
    [to_dict] ([src/metrics/summary.rs]) and [build_report_artifact_dict]
    ([src/lib.rs]).

    The text of a value is written and read by [serde_json], and read by Python's
    [json.loads]; both are third-party code and appear as [JsonText], with nothing
    assumed about them: a float read back by Python need not be the one written (a
    [f32] is printed with its own shortest digits).  A Python dict is the list of
    its items. *)

From S2P Require Import Prelude RustStr Float Config Summary Artifact Serde ReportJson.

#[local] Open Scope Z_scope.

(** The exceptions raised; those of [import] and [loads] pass through. *)
Inductive JsonPyErr :=
  | PyValueError (msg : string)
  | PyTypeError (msg : string)
  | PyRaised (msg : string).

Class JsonText := {
  Text : Type;
  to_string : Value -> result string Text;
  to_string_pretty : Value -> result string Text;
  from_str : Text -> result string Value;
  import_json : result string unit;
  loads : Text -> result string Value;
}.

Section py.
Context `{JsonText}.

(** [serde_json::from_str::<T>]: [bad] is the message for a value of the wrong
    shape. *)
Definition from_json (bad : Value -> string) (data : Text) : result JsonPyErr TestSummary :=
  map_err PyValueError
    (v ← from_str data; match de c_summary v with Some s => Ok s | None => Err (bad v) end).

Definition to_json (s : TestSummary) (indent : option Z) : result JsonPyErr Text :=
  if is_some indent then map_err PyValueError (to_string_pretty (ser c_summary s))
  else map_err PyValueError (to_string (ser c_summary s)).

(** [obj.cast_into::<PyDict>()]. *)
Definition cast_dict (v : Value) : result JsonPyErr (list (string * Value)) :=
  match v with VObject items => Ok items | _ => Err (PyTypeError "Expected a dict from json.loads") end.

Definition to_dict (s : TestSummary) : result JsonPyErr (list (string * Value)) :=
  _ ← map_err PyRaised import_json;
  json_str ← to_json s None;
  obj ← map_err PyRaised (loads json_str);
  cast_dict obj.

Definition build_report_artifact_dict `{MapOrder} (summary : TestSummary) (config : TestConfig)
    (info : SystemInfo) : result JsonPyErr (list (string * Value)) :=
  let artifact := from_summary_and_config summary config info in
  json_str ← map_err PyValueError (to_string (ser c_artifact artifact));
  _ ← map_err PyRaised import_json;
  obj ← map_err PyRaised (loads json_str);
  cast_dict obj.

(** ** When a dict is returned *)

Lemma loads_dict_ok t d :
  (obj ← map_err PyRaised (loads t); cast_dict obj) = Ok d <-> loads t = Ok (VObject d).
Proof.
  destruct (loads t) as [v|]; simpl; [|done]. split; [|by intros [= ->]].
  destruct v; try done. by intros [= ->].
Qed.

(** The dict of a summary is the object Python read from the compact text, and
    there is one exactly when the json module, the text and the object are there. *)
Lemma to_dict_ok s d :
  to_dict s = Ok d <->
  import_json = Ok () /\ exists t, to_string (ser c_summary s) = Ok t /\ loads t = Ok (VObject d).
Proof.
  unfold to_dict, to_json. cbn [is_some].
  destruct import_json as [[]|]; simpl; [|by split; [|intros [? _]]].
  destruct (to_string _) as [t|]; simpl; [|by split; [|intros (_ & t & ? & _)]].
  rewrite loads_dict_ok. naive_solver.
Qed.

(** The same for the artifact the report is rendered from. *)
Lemma artifact_dict_ok `{MapOrder} summary config info d :
  build_report_artifact_dict summary config info = Ok d <->
  import_json = Ok () /\
  exists t, to_string (ser c_artifact (from_summary_and_config summary config info)) = Ok t /\ loads t = Ok (VObject d).
Proof.
  unfold build_report_artifact_dict. destruct (to_string _) as [t|]; simpl; [|by split; [|intros (_ & t & ? & _)]].
  destruct import_json as [[]|]; simpl; [|by split; [|intros [? _]]].
  rewrite loads_dict_ok. naive_solver.
Qed.
End py.
