(* ===== verification/Conformance.v ===== *)
(** The unit tests of the repository, run on the model: what they share.

    Each [#[test]] of [src/] whose subject is modelled is restated as a boolean
    definition with the name and the assertions of the source; the theorems of
    [TestsMetrics], [TestsReport], [TestsConfig], [TestsCluster],
    [TestsIntegration], [TestsStomp], [TestsSse], [TestsProtocols],
    [TestsGrpcH2], [TestsRun] and [TestsWebSocket] say that all of them hold.
    [TestSupport] is the HTTP target that the integration tests load.
    Where a test talks to a local server, the server is the script it follows: the
    answers the socket gives, in order.  Tests of real time, of TLS or of the
    runtime are not restated. *)

From S2P Require Import Prelude RustStr Float Json.

#[local] Open Scope Z_scope.

(** [assert_eq!], and on floats the [==] of IEEE numbers. *)
Definition assert_eq `{EqDecision A} (x y : A) : bool := bool_decide (x = y).
Definition assert_f64 (x y : f64) : bool := SFeqb x y.

Definition f64_abs (x : f64) : f64 := SFabs x.

(** [assert!((x - y).abs() < eps)]. *)
Definition assert_near (x y eps : f64) : bool := f64_ltb (f64_abs (f64_sub x y)) eps.

(** The assertions of a test, and the tests of a module. *)
Definition asserts (l : list bool) : bool := forallb id l.
Definition passed (l : list bool) : bool := forallb id l.

(** [opt.unwrap()] of what must be there. *)
Definition on_some {A} (o : option A) (f : A -> bool) : bool :=
  match o with Some x => f x | None => false end.
Definition on_ok {E A} (r : result E A) (f : A -> bool) : bool :=
  match r with Ok x => f x | Err _ => false end.
Definition on_err {E A} (r : result E A) (f : E -> bool) : bool :=
  match r with Ok _ => false | Err e => f e end.

(** The tests that build configurations parse no JSON. *)
#[export] Instance no_json : Json | 100 := {| json_parse := fun _ => Err "unused"%string; json_print := fun _ => [] |}.

(** A byte-string literal of the source, [b"..."], with its escapes. *)
Fixpoint unescaped (s : bytes) : bytes :=
  match s with
  | "\"%char :: "n"%char :: s => LF :: unescaped s
  | "\"%char :: "r"%char :: s => CR :: unescaped s
  | "\"%char :: "0"%char :: s => ch 0 :: unescaped s
  | "\"%char :: "\"%char :: s => "\"%char :: unescaped s
  | c :: s => c :: unescaped s
  | [] => []
  end.
Definition lit (s : string) : bytes := unescaped (as_bytes s).

(** A JSON or XML literal of the source, written with single quotes. *)
Definition json_lit (s : string) : bytes :=
  (fun c => if Ascii.eqb c "'" then ch 34 else c) <$> as_bytes s.
