(* ===== verification/TestSupport.v ===== *)
(** The loopback HTTP target of the integration tests
    ([src/distributed/test_support.rs]).

    A connection is the list of results its reads yield ([Ok []] is the end of the
    stream) and of its three writes; [None] is a task that still waits.  What the
    target answers does not depend on how the request was split into reads. *)

From S2P Require Import Prelude RustStr Sse Conformance.

#[local] Open Scope Z_scope.

(** [haystack.windows(n)]. *)
Fixpoint slice_windows (n : nat) (haystack : bytes) : list bytes :=
  match haystack with
  | [] => []
  | c :: rest => if (n <=? length haystack)%nat then take n haystack :: slice_windows n rest else []
  end.

(** [windows(0)] panics; the separator searched for is not empty. *)
Definition find_subslice (haystack needle : bytes) : option nat :=
  fst <$> list_find (fun window => window = needle) (slice_windows (length needle) haystack).

Definition header_content_length (line : bytes) : option Z :=
  kv ← split_once ":" (of_bytes line);
  if eq_ignore_ascii_case (trim kv.1) "content-length" then parse_usize (trim kv.2) else None.

(** [find_map] over the lines. *)
Definition parse_content_length (headers : bytes) : Z := default 0 (head (omap header_content_length (lines headers))).

Definition SEPARATOR : bytes := [CR; LF; CR; LF].

Definition target_body : bytes := json_lit "{'ok':true}".

Definition target_response : bytes :=
  as_bytes "HTTP/1.1 200 OK" ++ [CR; LF] ++ as_bytes ("Content-Length: " ++ u64_to_string (Z.of_nat (length target_body)))
  ++ [CR; LF] ++ as_bytes "Content-Type: application/json" ++ [CR; LF] ++ as_bytes "Connection: close" ++ SEPARATOR.

(** Reading up to the end of the headers: the buffer, the end of its headers and
    the reads left; [inl] is an early return. *)
Fixpoint read_head (buf : bytes) (reads : list (result string bytes))
  : option (result string unit + bytes * nat * list (result string bytes)) :=
  match find_subslice buf SEPARATOR with
  | Some pos => Some (inr (buf, (pos + 4)%nat, reads))
  | None =>
      match reads with
      | [] => None
      | Err e :: _ => Some (inl (Err e))
      | Ok [] :: _ => Some (inl (Ok ()))
      | Ok chunk :: reads => read_head (buf ++ chunk) reads
      end
  end.

Fixpoint read_body (consumed_body content_length : Z) (reads : list (result string bytes))
  : option (result string unit) :=
  if consumed_body <? content_length then
    match reads with
    | [] => None
    | Err e :: _ => Some (Err e)
    | Ok [] :: _ => Some (Ok ())
    | Ok chunk :: reads => read_body (consumed_body + Z.of_nat (length chunk)) content_length reads
    end
  else Some (Ok ()).

(** [write_all] of the head, of the body, and [flush]: the bytes sent before the
    first failure. *)
Definition respond (writes : result string unit * result string unit * result string unit)
  : result string unit * bytes :=
  match writes with
  | (Err e, _, _) => (Err e, [])
  | (Ok _, Err e, _) => (Err e, target_response)
  | (Ok _, Ok _, r) => (r, target_response ++ target_body)
  end.

Definition serve_one (reads : list (result string bytes))
    (writes : result string unit * result string unit * result string unit)
  : option (result string unit * bytes) :=
  head ← read_head [] reads;
  match head with
  | inl r => Some (r, [])
  | inr (buf, header_end, reads) =>
      let headers := from_utf8_lossy (take header_end buf) in
      let content_length := parse_content_length headers in
      r ← read_body (Z.of_nat (length buf - header_end)) content_length reads;
      match r with Err e => Some (Err e, []) | Ok _ => Some (respond writes) end
  end.

(** The accept loop: one task per connection, counting the [Ok]s. *)
Record Connection := mkConnection {
  cn_reads : list (result string bytes);
  cn_writes : result string unit * result string unit * result string unit;
}.

Definition answered (c : Connection) : bool :=
  match serve_one (cn_reads c) (cn_writes c) with Some (Ok _, _) => true | _ => false end.

Definition hits (accepted : list Connection) : nat := length (filter (fun c => answered c = true) accepted).

(** ** Tests of the helpers *)

Definition content_length_parsing_is_case_insensitive : bool :=
  asserts [assert_eq (parse_content_length (lit "Content-Length: 42\r\nHost: x")) 42;
    assert_eq (parse_content_length (lit "content-length:7\r\n")) 7;
    assert_eq (parse_content_length (lit "Host: x")) 0].

Definition find_subslice_locates_separator : bool :=
  asserts [assert_eq (find_subslice (lit "abc\r\n\r\nxyz") SEPARATOR) (Some 3%nat);
    assert_eq (find_subslice (lit "no separator") SEPARATOR) None].

Definition test_support_rs : list bool :=
  [content_length_parsing_is_case_insensitive; find_subslice_locates_separator].

Theorem support_tests_pass : passed test_support_rs = true.
Proof. vm_compute. reflexivity. Qed.

(** ** The search *)

Lemma bytes_prefix_take p s : (length p <= length s)%nat -> bytes_prefix p s = bool_decide (take (length p) s = p).
Proof.
  revert s. induction p as [|a p IH]; intros [|b s] Hl; simpl in *; try lia; try done.
  rewrite IH by lia. destruct (Ascii.eqb_spec a b) as [->|Hne]; simpl.
  - apply bool_decide_ext. split; [by intros ->|by intros [= ->]].
  - symmetry. apply bool_decide_eq_false. congruence.
Qed.

Lemma bytes_prefix_length p s : bytes_prefix p s = true -> (length p <= length s)%nat.
Proof.
  revert s. induction p as [|a p IH]; intros [|b s]; simpl; try (done || lia).
  intros [_ H]%andb_true_iff. apply IH in H. lia.
Qed.

Lemma slice_windows_short n h : (length h < n)%nat -> slice_windows n h = [].
Proof. destruct h as [|c h]; [done|]. intros Hl. simpl in *. by destruct (Nat.leb_spec n (S (length h))); [lia|]. Qed.

(** The search over windows is the search for a substring. *)
Lemma find_subslice_find_sub h n : n <> [] -> find_subslice h n = find_sub n h.
Proof.
  intros Hn. unfold find_subslice. induction h as [|c h IH]; [by destruct n|].
  assert (Hs : forall w ws, fst <$> list_find (fun x => x = n) (w :: ws)
    = if decide (w = n) then Some 0%nat else S <$> (fst <$> list_find (fun x => x = n) ws)).
  { intros w ws. simpl. case_decide; [done|]. by destruct (list_find _ ws) as [[]|]. }
  cbn [slice_windows find_sub]. destruct (Nat.leb_spec (length n) (length (c :: h))) as [Hle|Hgt].
  - rewrite Hs, IH, bytes_prefix_take by done. by repeat case_decide || case_bool_decide.
  - rewrite slice_windows_short in IH by (simpl in Hgt; lia). rewrite <- IH. simpl.
    destruct (bytes_prefix n (c :: h)) eqn:E; [|done]. apply bytes_prefix_length in E. lia.
Qed.

(** A longer buffer does not move the first occurrence. *)
Lemma find_sub_app n s t i : find_sub n s = Some i -> find_sub n (s ++ t) = Some i.
Proof.
  revert i. induction s as [|c s IH]; intros i; cbn [find_sub app].
  - destruct (bytes_prefix n []) eqn:E; [|done]. intros [= <-]. destruct n; [by destruct t|done].
  - destruct (bytes_prefix n (c :: s)) eqn:E.
    + intros [= <-]. by rewrite (bytes_prefix_app n (c :: s) t E : bytes_prefix n (c :: s ++ t) = true).
    + intros (j & Hj & ->)%fmap_Some. rewrite (IH _ Hj). simpl.
      destruct (bytes_prefix n (c :: s ++ t)) eqn:E2; [|done].
      assert (Hl : (length n <= length (c :: s))%nat).
      { assert (Hf : forall m s j, find_sub m s = Some j -> (length m <= length s)%nat); [|].
        { clear. intros m s. induction s as [|x s IH]; intros j; cbn [find_sub].
          - destruct (bytes_prefix m []) eqn:E; [|done]. intros _. by apply bytes_prefix_length in E.
          - destruct (bytes_prefix m (x :: s)) eqn:E; [intros _; by apply bytes_prefix_length in E|].
            intros (k & Hk & _)%fmap_Some. apply IH in Hk. simpl. lia. }
        apply Hf in Hj. simpl. lia. }
      pose proof (bytes_prefix_short n (c :: s) t Hl) as Hp. simpl app in Hp. congruence.
Qed.

Lemma find_sub_bound n s i : find_sub n s = Some i -> (i + length n <= length s)%nat.
Proof.
  revert i. induction s as [|c s IH]; intros i; cbn [find_sub].
  - destruct (bytes_prefix n []) eqn:E; [|done]. intros [= <-]. by apply bytes_prefix_length in E.
  - destruct (bytes_prefix n (c :: s)) eqn:E; [intros [= <-]; by apply bytes_prefix_length in E|].
    intros (j & Hj & ->)%fmap_Some. apply IH in Hj. simpl. lia.
Qed.

(** ** Segmentation *)

(** The headers end where they end in the whole request. *)
Lemma read_head_segments buf chunks pos :
  Forall (fun c => c <> []) chunks -> find_sub SEPARATOR (buf ++ concat chunks) = Some pos ->
  exists l r, chunks = l ++ r /\ (pos + 4 <= length (buf ++ concat l))%nat /\
    read_head buf (Ok <$> chunks) = Some (inr (buf ++ concat l, (pos + 4)%nat, Ok <$> r)).
Proof.
  intros Hc. revert buf. induction Hc as [|c chunks Hne Hc IH]; intros buf Hf; cbn [read_head fmap list_fmap];
    rewrite find_subslice_find_sub by done; destruct (find_sub SEPARATOR buf) as [p|] eqn:E.
  - simpl in Hf. rewrite app_nil_r, E in Hf. injection Hf as ->. exists [], []. simpl. rewrite app_nil_r.
    split_and!; [done| |done]. apply find_sub_bound in E. done.
  - simpl in Hf. rewrite app_nil_r in Hf. congruence.
  - rewrite (find_sub_app _ _ (concat (c :: chunks)) _ E) in Hf. injection Hf as ->. exists [], (c :: chunks).
    simpl. rewrite app_nil_r. split_and!; [done| |done]. apply find_sub_bound in E. done.
  - destruct c as [|x c]; [done|]. destruct (IH (buf ++ x :: c)) as (l & r & -> & Hl & Hr).
    { by rewrite <- (assoc_L (++)). }
    exists ((x :: c) :: l), r. rewrite <- (assoc_L (++)) in Hl, Hr. split_and!; [done|exact Hl|exact Hr].
Qed.

Lemma read_body_segments consumed content_length chunks :
  Forall (fun c => c <> []) chunks -> content_length <= consumed + Z.of_nat (length (concat chunks)) ->
  read_body consumed content_length (Ok <$> chunks) = Some (Ok ()).
Proof.
  intros Hc. revert consumed. induction Hc as [|c chunks Hne Hc IH]; intros consumed Hle; cbn [read_body fmap list_fmap];
    destruct (Z.ltb_spec consumed content_length) as [Hlt|]; try done.
  - simpl in Hle. lia.
  - destruct c as [|x c]; [done|]. apply IH. simpl in Hle |- *. rewrite length_app in Hle. lia.
Qed.

(** However the network splits a complete request (headers ended by an empty
    line, then at least as many bytes as its Content-Length announces) into reads,
    the target answers it with the same 200 response and counts one hit. *)
Theorem serve_one_segmentation chunks pos :
  Forall (fun c => c <> []) chunks ->
  let request := concat chunks in
  find_sub SEPARATOR request = Some pos ->
  Z.of_nat (pos + 4) + parse_content_length (from_utf8_lossy (take (pos + 4) request)) <= Z.of_nat (length request) ->
  serve_one (Ok <$> chunks) (Ok (), Ok (), Ok ()) = Some (Ok (), target_response ++ target_body) /\
  hits [mkConnection (Ok <$> chunks) (Ok (), Ok (), Ok ())] = 1%nat.
Proof.
  intros Hc request Hf Hlen.
  assert (Hserve : serve_one (Ok <$> chunks) (Ok (), Ok (), Ok ()) = Some (Ok (), target_response ++ target_body)).
  { destruct (read_head_segments [] chunks pos Hc Hf) as (l & r & -> & Hl & Hr). simpl app in *.
    unfold serve_one. rewrite Hr. cbn [mbind option_bind]. unfold request in Hlen. rewrite concat_app in Hlen.
    rewrite take_app_le, length_app in Hlen by done. apply Forall_app in Hc as [_ Hc].
    rewrite read_body_segments; [done|done|lia]. }
  split; [done|]. unfold hits, answered. simpl. rewrite filter_cons_True; [done|]. simpl. by rewrite Hserve.
Qed.

(** A connection that is closed before it sends anything is counted too. *)
Example silent_connection_counts : hits [mkConnection [Ok []] (Ok (), Ok (), Ok ())] = 1%nat.
Proof. reflexivity. Qed.

Lemma serve_one_segmentation_witness :
  hits [mkConnection (Ok <$> [lit "GET / HTTP/1.1\r\nContent-Le"; lit "ngth: 2\r\n\r"; lit "\nh"; lit "i"])
          (Ok (), Ok (), Ok ())] = 1%nat.
Proof.
  apply (serve_one_segmentation _ 33); [by repeat constructor|by vm_compute|by vm_compute].
Defined.
