(* ===== verification/TestsMetrics.v ===== *)
(** The unit tests of the metrics ([src/metrics/tests.rs] and the test modules of
    [request.rs] and [system.rs]), on the exact histogram. *)

From S2P Require Import Prelude RustStr Float Histogram Chaos Samples Aggregate Summary Conformance.

#[local] Open Scope Z_scope.

(** ** [tests.rs] *)

Definition create_test_histogram (values : list Z) : hist := hist_of values.

Definition ns_since_epoch_at_epoch_is_zero : bool := assert_eq (ns_since_epoch 0) 0.
Definition ns_since_epoch_after_epoch : bool := assert_eq (ns_since_epoch (from_secs 5)) 5000000000.
Definition ns_since_epoch_before_epoch_returns_zero : bool := assert_eq (ns_since_epoch (- from_secs 5)) 0.

(** The input literal of the tests, with the fields they vary. *)
Definition test_input (url : string) (total errors : Z) (latencies : list Z) (bytes : Z) (duration : f64)
    (workers : Z) (codes : gmap Z Z) (connects : list Z) (quic : option QuicMetrics) (sse : option SseMetrics)
    (ws : option WebsocketMetrics) (sockets reused dns_sum dns_count : Z) : SummaryInput :=
  mkSummaryInput url total errors (create_test_histogram latencies) bytes duration workers codes
    (create_test_histogram []) (create_test_histogram connects) quic sse ws None None None None None None None
    None 0 ∅ [] sockets reused dns_sum dns_count.

Definition plain_summary (total errors : Z) (latencies : list Z) (bytes duration workers : Z) : TestSummary :=
  calculate_summary (test_input "http://example.com" total errors latencies bytes (f64_of_Z duration) workers ∅ []
    None None None 0 0 0 0).

Definition empty_latencies_returns_zeros : bool :=
  let s := plain_summary 10 3 [] 0 1 4 in
  asserts [assert_eq (su_url s) "http://example.com"%string; assert_eq (su_total_requests s) 10;
    assert_eq (su_total_errors s) 3; assert_f64 (su_average_latency_ms s) f64_zero;
    assert_f64 (su_p95_latency_ms s) f64_zero; assert_f64 (su_p99_latency_ms s) f64_zero;
    assert_f64 (su_min_latency_ms s) f64_zero; assert_f64 (su_p50_latency_ms s) f64_zero;
    assert_f64 (su_p90_latency_ms s) f64_zero; assert_f64 (su_max_latency_ms s) f64_zero].

Definition single_request : bool :=
  let s := plain_summary 1 0 [5000] 1024 2 2 in
  let near x := assert_near x (f64_of_Z 5) (f64_lit 1 100) in
  asserts [assert_eq (su_total_requests s) 1; near (su_average_latency_ms s); near (su_min_latency_ms s);
    near (su_p50_latency_ms s); near (su_p90_latency_ms s); near (su_p95_latency_ms s); near (su_p99_latency_ms s);
    near (su_max_latency_ms s); assert_eq (su_total_bytes_received s) 1024; assert_eq (su_workers s) 2].

Definition two_requests : bool :=
  let s := plain_summary 2 0 [1000; 2000] 0 1 1 in
  let near x y := assert_near x y (f64_lit 1 100) in
  asserts [near (su_average_latency_ms s) (f64_lit 15 10); near (su_min_latency_ms s) (f64_of_Z 1);
    near (su_p95_latency_ms s) (f64_of_Z 2); near (su_p99_latency_ms s) (f64_of_Z 2);
    near (su_max_latency_ms s) (f64_of_Z 2)].

Definition uniform_hundred_values : bool :=
  let s := plain_summary 100 0 (Z.of_nat <$> seq 1 100) 0 1 1 in
  asserts [assert_near (su_average_latency_ms s) (f64_lit 505 10000) (f64_lit 1 1000);
    assert_near (su_min_latency_ms s) (f64_lit 1 1000) (f64_lit 1 1000);
    assert_near (su_p50_latency_ms s) (f64_lit 51 1000) (f64_lit 1 1000);
    assert_near (su_p90_latency_ms s) (f64_lit 91 1000) (f64_lit 1 100);
    assert_near (su_p95_latency_ms s) (f64_lit 96 1000) (f64_lit 1 100);
    assert_near (su_p99_latency_ms s) (f64_lit 1 10) (f64_lit 1 100);
    assert_near (su_max_latency_ms s) (f64_lit 1 10) (f64_lit 1 100)].

Definition all_errors : bool :=
  let s := plain_summary 5 5 [100; 200; 300] 0 1 1 in
  asserts [assert_eq (su_total_requests s) 5; assert_eq (su_total_errors s) 5].

Definition microsecond_to_millisecond_conversion : bool :=
  let s := plain_summary 1 0 [12345] 0 1 1 in
  assert_near (su_average_latency_ms s) (f64_lit 12345 1000) (f64_lit 1 100).

Definition unsorted_latencies_are_handled : bool :=
  let s := plain_summary 3 0 [3000; 1000; 2000] 0 1 1 in
  let near x y := assert_near x (f64_of_Z y) (f64_lit 1 100) in
  asserts [near (su_p95_latency_ms s) 3; near (su_p99_latency_ms s) 3; near (su_min_latency_ms s) 1;
    near (su_max_latency_ms s) 3].

Definition status_codes_preserved : bool :=
  let codes := <[500 := 3]> (<[200 := 10]> (∅ : gmap Z Z)) in
  let s := calculate_summary (test_input "http://example.com" 13 3 [100] 0 (f64_of_Z 1) 1 codes [] None None None 0 0 0 0) in
  asserts [assert_eq (su_status_codes s !! 200) (Some 10); assert_eq (su_status_codes s !! 500) (Some 3)].

Definition test_aggregate_quic_and_sse_metrics : bool :=
  let s := calculate_summary (test_input "http://example.com" 5 0 [1000; 2000; 3000; 4000; 5000] 5120 (f64_of_Z 5) 2 ∅
    [100; 200; 300; 400; 500] (Some (mkQuicMetrics 3 10 (Some (f64_lit 15 10))))
    (Some (mkSseMetrics 100 (Some (f64_lit 5 10)))) None 0 0 0 0) in
  asserts [assert_near (su_avg_connection_latency_us s) (f64_of_Z 300) (f64_of_Z 1);
    on_some (su_quic s) (fun quic => asserts [assert_eq (qm_zero_rtt_accepted_count quic) 3;
      assert_eq (qm_retransmissions quic) 10;
      on_some (qm_avg_handshake_ms quic) (fun x => assert_near x (f64_lit 15 10) (f64_lit 1 1000000))]);
    on_some (su_sse s) (fun sse => asserts [assert_eq (ssem_total_events_received sse) 100;
      on_some (ssem_avg_ttfb_ms sse) (fun x => assert_near x (f64_lit 5 10) (f64_lit 1 1000000))])].

Definition test_aggregate_websocket_metrics : bool :=
  let s := calculate_summary (test_input "ws://example.com" 10 0 [1000; 2000; 3000] 3000 (f64_of_Z 5) 2 ∅ [] None None
    (Some (mkWebsocketMetrics 8 2 7 1 2097152 (f64_of_Z 786432) 3)) 0 0 0 0) in
  on_some (su_ws s) (fun ws => asserts [assert_eq (wsm_pings_sent_total ws) 8; assert_eq (wsm_pings_received_total ws) 2;
    assert_eq (wsm_pongs_solicited_total ws) 7; assert_eq (wsm_pongs_unsolicited_total ws) 1;
    assert_eq (wsm_backpressure_max_bytes ws) 2097152;
    assert_near (wsm_backpressure_mean_bytes ws) (f64_of_Z 786432) (f64_lit 1 1000000);
    assert_eq (wsm_backpressure_threshold_breaches ws) 3]).

(** [finalize_metrics(rx, interval)] after the sender was dropped; the clock
    advances by a microsecond per metric. *)
Definition drained (ms : list RequestMetric) (interval : Z) : AggregatedMetrics :=
  finalize_metrics ((fun m => (m, mkEmitClock 1000 1000 1000 1000)) <$> ms) interval 0 0 2000 2000.

Definition test_finalize_metrics_aggregates_websocket_samples : bool :=
  let with_ws s := set_protocol (Ws s) (error_metric 1000 None) in
  let agg := drained [with_ws (mkWsSample 1 0 1 0 1000 1000 1 0); with_ws (mkWsSample 0 0 0 0 2000 3000 2 1);
                      with_ws (mkWsSample 0 0 0 0 0 0 0 0)] 0 in
  on_some (ag_ws_metrics agg) (fun ws => asserts [assert_eq (wsm_pings_sent_total ws) 1;
    assert_eq (wsm_pongs_solicited_total ws) 1; assert_eq (wsm_backpressure_max_bytes ws) 2000;
    assert_eq (wsm_backpressure_threshold_breaches ws) 1;
    assert_near (wsm_backpressure_mean_bytes ws) (f64_lit 4000 3) (f64_lit 1 1000000)]).

Definition test_finalize_metrics_aggregates_grpc_samples : bool :=
  let with_grpc s := set_protocol (Grpc s) (error_metric 1000 None) in
  let agg := drained [with_grpc (mkGrpcSample 4 100 (f64_lit 4 100) 1 1500 65535 true);
                      with_grpc (mkGrpcSample 6 100 (f64_lit 6 100) 2 3000 32768 true);
                      with_grpc (mkGrpcSample 0 0 f64_zero 0 0 0 false)] 0 in
  on_some (ag_grpc_metrics agg) (fun grpc => asserts [assert_eq (gm_active_streams_peak grpc) 6;
    assert_near (gm_concurrency_utilization_peak grpc) (f64_lit 6 100) (f64_lit 1 1000000);
    assert_near (gm_concurrency_utilization_mean grpc) (f64_lit 5 100) (f64_lit 1 1000000);
    assert_eq (gm_window_exhaustion_events_total grpc) 3;
    assert_near (gm_window_stall_duration_ms_total grpc) (f64_lit 45 10) (f64_lit 1 1000000);
    assert_eq (gm_send_capacity_min_bytes grpc) 32768]).

Definition test_finalize_metrics_aggregates_http3_samples : bool :=
  let m s := set_protocol (Http3 (Some s) None) (error_metric 1000 None) in
  let agg := drained [m (mkHttp3Sample 2000 0 0); m (mkHttp3Sample 1000 0 0); m (mkHttp3Sample 4000 2 1);
                      m (mkHttp3Sample 0 0 0)] 0 in
  on_some (ag_http3_metrics agg) (fun h => asserts [assert_eq (h3m_cwnd_bytes_current h) 4000;
    assert_eq (h3m_cwnd_bytes_min h) 1000; assert_eq (h3m_cwnd_bytes_max h) 4000;
    assert_near (h3m_cwnd_bytes_mean h) (f64_lit 7000 3) (f64_lit 1 1000000);
    assert_eq (h3m_migrations_attempted_total h) 2; assert_eq (h3m_migrations_successful_total h) 1;
    assert_near (h3m_migration_success_rate h) (f64_lit 5 10) (f64_lit 1 1000000000)]).

Definition test_finalize_metrics_counts_chaos_faults : bool :=
  let agg := drained [b_status 200 (builder 1000 (Some ConnectionDrop)); error_metric 1000 (Some ConnectionDrop);
                      error_metric 1000 (Some (LatencySpike 150)); error_metric 1000 None] 0 in
  asserts [assert_eq (ag_chaos_injected_total agg) 3;
    assert_eq (ag_chaos_faults_by_type agg !! "ConnectionDrop"%string) (Some 2);
    assert_eq (ag_chaos_faults_by_type agg !! "LatencySpike"%string) (Some 1);
    assert_eq (size (ag_chaos_faults_by_type agg)) 2%nat].

Definition test_http3_migration_rate_sentinel_no_migrations : bool :=
  let agg := drained [set_protocol (Http3 (Some (mkHttp3Sample 5000 0 0)) None) (error_metric 1000 None)] 0 in
  on_some (ag_http3_metrics agg) (fun h => asserts [assert_eq (h3m_migrations_attempted_total h) 0;
    assert_near (h3m_migration_success_rate h) (f64_of_Z 1) (f64_lit 1 1000000000)]).

Definition test_summary_optional_protocol_metrics_defaults : bool :=
  let s := plain_summary 1 0 [1000] 0 1 1 in
  asserts [negb (is_some (su_quic s)); negb (is_some (su_sse s)); negb (is_some (su_ws s));
    negb (is_some (su_grpc s)); negb (is_some (su_http3 s)); assert_f64 (su_avg_connection_latency_us s) f64_zero].

Definition test_p99_99_percentile : bool :=
  let s := plain_summary 10000 0 (Z.of_nat <$> seq 1 10000) 0 1 1 in
  asserts [f64_geb (su_p99_99_latency_ms s) (su_p99_latency_ms s);
    f64_leb (su_p99_99_latency_ms s) (su_max_latency_ms s)].

Definition test_histogram_bucket_distribution : bool :=
  let buckets := calculate_histogram_from_hdr (create_test_histogram [500; 1500; 7500; 15000; 75000]) in
  asserts ((fun k => assert_eq (buckets !! k) (Some 1)) <$> ["<1ms"; "1-5ms"; "5-10ms"; "10-25ms"; "50-100ms"]%string).

Definition test_histogram_all_empty : bool :=
  let buckets := calculate_histogram_from_hdr (create_test_histogram []) in
  asserts [assert_eq (buckets !! "<1ms"%string) (Some 0); assert_eq (buckets !! ">1000ms"%string) (Some 0);
    assert_eq (size buckets) 10%nat].

Definition test_histogram_empty_returns_zeroed_summary : bool :=
  let s := calculate_summary (test_input "http://test" 0 0 [] 0 (f64_of_Z 1) 1 ∅ [] None None None 0 0 0 0) in
  asserts [assert_eq (su_total_requests s) 0; assert_f64 (su_p50_latency_ms s) f64_zero].

Definition test_std_dev_single_value : bool :=
  assert_f64 (su_std_dev_latency_ms (plain_summary 1 0 [5000] 0 1 1)) f64_zero.

Definition test_std_dev_calculation : bool :=
  let s := plain_summary 5 0 [1000; 2000; 3000; 4000; 5000] 0 1 1 in
  assert_near (f64_mul (su_std_dev_latency_ms s) MICROS_PER_MILLI) (f64_lit 141421 100) (f64_of_Z 15).

Definition reuse_summary (total : Z) (latencies : list Z) (sockets reused dns_sum dns_count : Z) : TestSummary :=
  calculate_summary (test_input "http://example.com" total 0 latencies 0 (f64_of_Z 1) 1 ∅ [] None None None
    sockets reused dns_sum dns_count).

Definition connection_reuse_all_new : bool :=
  let s := reuse_summary 10 [1000] 10 0 0 0 in
  asserts [assert_near (su_connection_reuse_ratio s) f64_zero f64_epsilon; assert_f64 (su_avg_dns_resolution_ms s) f64_zero].

Definition connection_reuse_all_reused : bool :=
  assert_near (su_connection_reuse_ratio (reuse_summary 10 [1000] 0 10 0 0)) f64_one f64_epsilon.

Definition connection_reuse_mixed : bool :=
  assert_near (su_connection_reuse_ratio (reuse_summary 10 [1000] 5 5 0 0)) (f64_lit 5 10) f64_epsilon.

Definition connection_reuse_zero_requests : bool :=
  let s := reuse_summary 0 [] 0 0 0 0 in
  asserts [assert_f64 (su_connection_reuse_ratio s) f64_zero; assert_f64 (su_avg_dns_resolution_ms s) f64_zero].

Definition dns_resolution_average : bool :=
  assert_near (su_avg_dns_resolution_ms (reuse_summary 3 [1000; 2000; 3000] 3 0 6000 3)) (f64_of_Z 2) f64_epsilon.

Definition dns_resolution_no_data : bool :=
  assert_f64 (su_avg_dns_resolution_ms (reuse_summary 5 [1000] 5 0 0 0)) f64_zero.

Definition timeline_samples_are_emitted_when_enabled : bool :=
  let agg := drained (replicate 3 (b_status 200 (builder 1000 None))) 1 in
  on_some (ag_timeline agg) (fun timeline => asserts [assert_eq (tl_interval_ms timeline) 1;
    on_some (last (tl_samples timeline)) (fun last =>
      asserts [f64_geb (tls_rps last) f64_zero; f64_geb (tls_error_rate last) f64_zero])]).

Definition timeline_is_none_when_disabled : bool :=
  negb (is_some (ag_timeline (drained [b_status 200 (builder 1000 None)] 0))).

Definition percentiles_from_empty_histogram_are_zero : bool :=
  let p := from_histogram new_histogram in
  asserts [assert_f64 (mean_ms p) f64_zero; assert_f64 (p50_ms p) f64_zero; assert_f64 (p90_ms p) f64_zero;
    assert_f64 (p99_ms p) f64_zero].

Definition percentiles_convert_microseconds_to_milliseconds : bool :=
  let p := from_histogram (hist_record 2000 new_histogram) in
  let two := f64_of_Z 2 in
  asserts [assert_f64 (mean_ms p) two; assert_f64 (p50_ms p) two; assert_f64 (p90_ms p) two; assert_f64 (p99_ms p) two].

Definition tests_rs : list bool :=
  [ns_since_epoch_at_epoch_is_zero; ns_since_epoch_after_epoch; ns_since_epoch_before_epoch_returns_zero;
   empty_latencies_returns_zeros; single_request; two_requests; uniform_hundred_values; all_errors;
   microsecond_to_millisecond_conversion; unsorted_latencies_are_handled; status_codes_preserved;
   test_aggregate_quic_and_sse_metrics; test_aggregate_websocket_metrics;
   test_finalize_metrics_aggregates_websocket_samples; test_finalize_metrics_aggregates_grpc_samples;
   test_finalize_metrics_aggregates_http3_samples; test_finalize_metrics_counts_chaos_faults;
   test_http3_migration_rate_sentinel_no_migrations; test_summary_optional_protocol_metrics_defaults;
   test_p99_99_percentile; test_histogram_bucket_distribution; test_histogram_all_empty;
   test_histogram_empty_returns_zeroed_summary; test_std_dev_single_value; test_std_dev_calculation;
   connection_reuse_all_new; connection_reuse_all_reused; connection_reuse_mixed; connection_reuse_zero_requests;
   dns_resolution_average; dns_resolution_no_data; timeline_samples_are_emitted_when_enabled;
   timeline_is_none_when_disabled; percentiles_from_empty_histogram_are_zero;
   percentiles_convert_microseconds_to_milliseconds].

(** ** [request.rs] *)

Definition with_protocol (p : ProtocolSample) : RequestMetric := set_protocol p (b_status 200 (builder 1 None)).

Definition is_error_when_protocol_is_none : bool :=
  asserts [is_error (error_metric 1 None); negb (is_error (b_status 200 (builder 1 None)));
    is_error (b_status 400 (builder 1 None))].

Definition is_error_delegates_to_protocol_sample : bool :=
  asserts ((fun '(p, expected) => assert_eq (is_error (with_protocol p)) expected) <$>
    [(Graphql (mkGraphqlSample 1), true); (Graphql (mkGraphqlSample 0), false);
     (GraphqlWs (mkGraphqlWsSample None None None (Some 1)), true);
     (GraphqlWs (mkGraphqlWsSample None None None None), false);
     (Soap (mkSoapSample 1), true); (Soap (mkSoapSample 0), false);
     (Stomp (mkStompSample 0 0 0 0 1 0 None None None), true);
     (Db (mkDbSample 0 1 None None 0 0), true); (Ws (mkWsSample 0 0 0 0 0 0 0 0), false);
     (Http3 (Some (mkHttp3Sample 0 0 0)) None, false); (Sse (mkSseSample None None None), false)]).

Definition http3_builder_merges_quic_and_sample : bool :=
  let http3 := mkHttp3Sample 1200 0 0 in
  let quic_first := b_http3 (Some http3) (b_quic (Some 10) true (Some 2) (builder 1 None)) in
  let http3_first := b_quic (Some 10) true (Some 2) (b_http3 (Some http3) (builder 1 None)) in
  asserts ((fun metric => on_some (rm_http3 metric) (fun h => assert_eq (h3s_cwnd_bytes h) 1200) &&
    on_some (rm_quic metric) (fun quic => asserts [assert_eq (qs_handshake_us quic) (Some 10); qs_used_0rtt quic;
      assert_eq (qs_retransmits quic) (Some 2)])) <$> [quic_first; http3_first]).

Definition request_rs : list bool :=
  [is_error_when_protocol_is_none; is_error_delegates_to_protocol_sample; http3_builder_merges_quic_and_sample].

(** ** [system.rs] *)

Definition disabled_returns_none : bool := negb (is_some (sampler_start 0 true)).

Definition near_f32 (x : f32) (y : Z) : bool :=
  assert_near (f64_of_f32 x) (f64_of_Z y) (f64_lit 1 100).

Definition system_metrics_from_samples : bool :=
  let samples := [mkResourceSample 1000 (f32_of_Z 10) 1000 4 (Some 10); mkResourceSample 2000 (f32_of_Z 30) 2000 8 (Some 12)] in
  let metrics := from_samples samples in
  asserts [near_f32 (sm_peak_cpu_percent metrics) 30; near_f32 (sm_avg_cpu_percent metrics) 20;
    assert_eq (sm_peak_memory_rss_bytes metrics) 2000; assert_eq (sm_avg_memory_rss_bytes metrics) 1500;
    assert_eq (sm_peak_thread_count metrics) 8; assert_eq (length (sm_time_series metrics)) 2%nat].

Definition system_metrics_empty : bool :=
  let metrics := from_samples [] in
  asserts [assert_f64 (sm_peak_cpu_percent metrics) f64_zero; assert_eq (sm_time_series metrics) []].

Definition system_metrics_nan_cpu_filtered : bool :=
  let samples := [mkResourceSample 1000 S754_nan 1000 4 None; mkResourceSample 2000 (f32_of_Z 20) 2000 8 None] in
  let metrics := from_samples samples in
  asserts [near_f32 (sm_peak_cpu_percent metrics) 20; near_f32 (sm_avg_cpu_percent metrics) 20;
    assert_eq (length (sm_time_series metrics)) 2%nat].

Definition system_rs : list bool :=
  [disabled_returns_none; system_metrics_from_samples; system_metrics_empty; system_metrics_nan_cpu_filtered].

(** Every restated test of the metrics passes on the model. *)
Theorem metrics_tests_pass : passed (tests_rs ++ request_rs ++ system_rs) = true.
Proof. vm_compute. reflexivity. Qed.
