(* ===== verification/TestsReport.v ===== *)
(** The unit tests of the report ([src/report/schema.rs], the JSON tests of
    [src/metrics/tests.rs] and of [src/distributed/master/reporting.rs]). *)

From S2P Require Import Prelude RustStr Float Histogram Chaos Samples Aggregate Config Summary Artifact Report.
From S2P Require Import Serde ReportJson Conformance.

#[local] Open Scope Z_scope.

(** ** [schema.rs] *)

Definition slo_config (p95 error_rate min_rps : option f64) : TestConfig :=
  build (bset_slo_min_rps min_rps (bset_slo_error_rate error_rate (bset_slo_p95_ms p95 (TestConfigBuilder_new "http://x")))).

Definition evaluate_slo_passes_when_all_thresholds_met : bool :=
  let config := slo_config (Some (f64_of_Z 50)) (Some (f64_lit 1 10)) (Some (f64_of_Z 100)) in
  on_some (evaluate_slo config (f64_of_Z 40) f64_zero (f64_lit 5 100) (f64_of_Z 200)) (fun result =>
    asserts [sl_passed result; assert_eq (length (sl_checks result)) 3%nat; forallb sc_passed (sl_checks result)]).

Definition evaluate_slo_fails_when_a_threshold_is_violated : bool :=
  let config := slo_config (Some (f64_of_Z 50)) None None in
  on_some (evaluate_slo config (f64_of_Z 80) f64_zero f64_zero f64_zero) (fun result =>
    asserts [negb (sl_passed result);
      on_some (sl_checks result !! 0%nat) (fun c => asserts [assert_eq (sc_name c) "p95_latency_ms"%string; negb (sc_passed c)])]).

Definition evaluate_slo_none_without_thresholds : bool :=
  negb (is_some (evaluate_slo (slo_config None None None) (f64_of_Z 10) (f64_of_Z 10) f64_zero (f64_of_Z 10))).

Definition sample_percentiles : LatencyPercentiles :=
  mkLatencyPercentiles (f64_of_Z 1500) (f64_of_Z 3000) (f64_of_Z 4500) (f64_of_Z 9000) (f64_of_Z 14000)
    (f64_of_Z 100) (f64_of_Z 15000) (f64_of_Z 2200) (f64_of_Z 3500).

Definition sample_options : CliOptions :=
  mkCliOptions "GET" 50 10 false (f32_div (f32_of_Z 1) (f32_of_Z 10)) 0 None
    (Some [("Authorization", "Bearer tok")]%string) None None None None.

Definition artifact_with (options : CliOptions) (breakdown : gmap string Z) (websocket : option WebsocketMetrics)
    (grpc : option GrpcMetrics) (http3 : option Http3Metrics) : ReportArtifact :=
  mkReportArtifact
    (mkReportMetadata "2026-08-28T10:30:00Z" (f64_of_Z 30) "http://localhost:8080/api" options
       (mkSystemInfo "test-host" "linux" "0.5.0"))
    (mkReportSummary 1000 950 50 (f64_lit 3333 100) 524288)
    sample_percentiles breakdown None None None websocket grpc http3 None None None None None None None None
    (Some ∅) None None.

Definition sample_breakdown : gmap string Z := <["500"%string := 5]> (<["200"%string := 95]> ∅).
Definition sample_artifact : ReportArtifact := artifact_with sample_options sample_breakdown None None None.

(** [serde_json::to_value], [from_str(&to_string(..))], and indexing. *)
Definition to_value (a : ReportArtifact) : Value := ser c_artifact a.
Definition reread (a : ReportArtifact) : option ReportArtifact := de c_artifact (to_value a).
Definition at_ (v : option Value) (name : string) : option Value :=
  match v with Some (VObject l) => member name l | _ => None end.
Definition is_string (v : option Value) : bool := match v with Some (VString _) => true | _ => false end.
Definition is_f64 (v : option Value) : bool := is_some (v ≫= as_f64).
Definition is_u64 (v : option Value) : bool := match v with Some (VInt z) => 0 <=? z | _ => false end.
Definition is_object (v : option Value) : bool := match v with Some (VObject _) => true | _ => false end.
Definition int_is (v : option Value) (n : Z) : bool := match v with Some (VInt z) => z =? n | _ => false end.
Definition float_is (v : option Value) (x : f64) : bool := match v ≫= as_f64 with Some y => SFeqb y x | _ => false end.
Definition float_near (v : option Value) (x eps : f64) : bool :=
  match v ≫= as_f64 with Some y => assert_near y x eps | _ => false end.

Definition test_report_artifact_serialization_roundtrip : bool :=
  let artifact := sample_artifact in
  on_some (reread artifact) (fun deserialized => asserts [
    assert_eq (md_target_url (ra_metadata artifact)) (md_target_url (ra_metadata deserialized));
    assert_eq (ar_total_requests (ra_summary artifact)) (ar_total_requests (ra_summary deserialized));
    assert_f64 (lp_p50_us (ra_latency_percentiles artifact)) (lp_p50_us (ra_latency_percentiles deserialized));
    assert_eq (ra_error_breakdown artifact !! "200"%string) (ra_error_breakdown deserialized !! "200"%string)]).

Definition test_report_artifact_json_structure : bool :=
  let json := Some (to_value sample_artifact) in
  let metadata := at_ json "metadata" in
  let summary := at_ json "summary" in
  asserts [is_some metadata; is_some summary; is_some (at_ json "latency_percentiles"); is_some (at_ json "error_breakdown");
    is_string (at_ metadata "timestamp"); is_f64 (at_ metadata "duration_secs"); is_string (at_ metadata "target_url");
    is_object (at_ metadata "cli_options"); is_object (at_ metadata "system_info");
    is_u64 (at_ summary "total_requests"); is_u64 (at_ summary "successful_requests"); is_u64 (at_ summary "failed_requests");
    is_f64 (at_ summary "rps"); is_u64 (at_ summary "bytes_transferred");
    is_f64 (at_ (at_ json "latency_percentiles") "p50_us"); is_f64 (at_ (at_ json "latency_percentiles") "p99_us");
    is_some (at_ json "latency_histogram"); is_object (at_ json "latency_histogram")].

Definition test_websocket_field_skipped_when_none : bool :=
  negb (is_some (at_ (Some (to_value sample_artifact)) "websocket")).

Definition test_websocket_field_serializes_when_present : bool :=
  let artifact := artifact_with sample_options sample_breakdown
    (Some (mkWebsocketMetrics 4 2 4 1 8192 (f64_of_Z 1024) 3)) None None in
  let ws := at_ (Some (to_value artifact)) "websocket" in
  asserts [int_is (at_ ws "pings_sent_total") 4; int_is (at_ ws "backpressure_max_bytes") 8192;
    int_is (at_ ws "backpressure_threshold_breaches") 3;
    float_near (at_ ws "backpressure_mean_bytes") (f64_of_Z 1024) (f64_lit 1 1000000);
    on_some (reread artifact) (fun back =>
      on_some (ra_websocket back) (fun w => assert_eq (wsm_pongs_unsolicited_total w) 1))].

Definition test_grpc_field_skipped_when_none : bool := negb (is_some (at_ (Some (to_value sample_artifact)) "grpc")).

Definition required_keys : list string :=
  ["metadata"; "summary"; "latency_percentiles"; "latency_histogram"; "error_breakdown"]%string.
Definition optional_keys : list string :=
  ["avg_connection_latency_us"; "quic"; "sse"; "websocket"; "grpc"; "http3"; "graphql"; "graphql_ws"; "soap"; "stomp";
   "database"; "slo"; "timeline"; "chaos_faults"; "system_metrics"; "connection_pool"]%string.

Definition key_set (v : Value) : gset string :=
  match v with VObject l => list_to_set l.*1 | _ => ∅ end.

Definition full_artifact : ReportArtifact :=
  let s := sample_artifact in
  mkReportArtifact (ra_metadata s) (ra_summary s) (ra_latency_percentiles s) (ra_error_breakdown s)
    (Some (f64_of_Z 850)) (Some QuicMetrics_default) (Some SseMetrics_default) (Some WebsocketMetrics_default)
    (Some GrpcMetrics_default) (Some Http3Metrics_default) (Some GraphqlMetrics_default) (Some GraphqlWsMetrics_default)
    (Some SoapMetrics_default) (Some StompMetrics_default) (Some DatabaseMetrics_default) (Some (mkSloResult true []))
    (Some (mkTimeline 1000 [])) (Some (mkChaosMetrics 1 ∅)) (ra_latency_histogram s)
    (Some (mkSystemDisplay (mkSystemSummary f64_zero f64_zero f64_zero f64_zero 1) []))
    (Some (mkConnectionPool f64_zero f64_one f64_one)).

Definition top_level_key_set_matches_python_contract : bool :=
  asserts [assert_eq (key_set (to_value sample_artifact)) (list_to_set required_keys);
    assert_eq (key_set (to_value full_artifact)) (list_to_set (required_keys ++ optional_keys))].

Definition test_grpc_field_serializes_when_present : bool :=
  let artifact := artifact_with sample_options sample_breakdown None
    (Some (mkGrpcMetrics 6 (f64_lit 6 100) (f64_lit 5 100) 3 (f64_lit 45 10) 32768)) None in
  let g := at_ (Some (to_value artifact)) "grpc" in
  asserts [int_is (at_ g "active_streams_peak") 6; int_is (at_ g "window_exhaustion_events_total") 3;
    int_is (at_ g "send_capacity_min_bytes") 32768;
    float_near (at_ g "concurrency_utilization_mean") (f64_lit 5 100) (f64_lit 1 1000000000);
    float_near (at_ g "window_stall_duration_ms_total") (f64_lit 45 10) (f64_lit 1 1000000000);
    on_some (reread artifact) (fun back => on_some (ra_grpc back) (fun m => assert_eq (gm_active_streams_peak m) 6))].

Definition test_http3_field_skipped_when_none : bool := negb (is_some (at_ (Some (to_value sample_artifact)) "http3")).

Definition test_http3_field_serializes_when_present : bool :=
  let artifact := artifact_with sample_options sample_breakdown None None
    (Some (mkHttp3Metrics 4000 1000 8000 (f64_of_Z 3500) 4 3 (f64_lit 75 100))) in
  let h := at_ (Some (to_value artifact)) "http3" in
  asserts [int_is (at_ h "cwnd_bytes_max") 8000; int_is (at_ h "migrations_attempted_total") 4;
    int_is (at_ h "migrations_successful_total") 3;
    float_near (at_ h "cwnd_bytes_mean") (f64_of_Z 3500) (f64_lit 1 1000000000);
    float_near (at_ h "migration_success_rate") (f64_lit 75 100) (f64_lit 1 1000000000);
    on_some (reread artifact) (fun back => on_some (ra_http3 back) (fun m => assert_eq (h3m_cwnd_bytes_min m) 1000))].

Definition test_latency_percentiles_values : bool :=
  let json := Some (ser c_percentiles sample_percentiles) in
  asserts ((fun '(name, v) => float_is (at_ json name) (f64_of_Z v)) <$>
    [("p50_us", 1500); ("p90_us", 3000); ("p95_us", 4500); ("p99_us", 9000); ("p99_99_us", 14000); ("min_us", 100);
     ("max_us", 15000); ("mean_us", 2200); ("std_dev_us", 3500)]%string).

Definition test_error_breakdown_from_status_codes : bool :=
  let breakdown : gmap string Z := <["500"%string := 3]> (<["404"%string := 7]> (<["200"%string := 90]> ∅)) in
  let json := Some (ser c_counts breakdown) in
  asserts [int_is (at_ json "200") 90; int_is (at_ json "404") 7; int_is (at_ json "500") 3].

Definition test_empty_error_breakdown : bool :=
  let artifact := artifact_with sample_options ∅ None None None in
  match at_ (Some (to_value artifact)) "error_breakdown" with Some (VObject []) => true | _ => false end.

Definition test_optional_cli_options : bool :=
  let o := sample_options in
  let body := ("{" ++ DQUOTE ++ "key" ++ DQUOTE ++ ":" ++ DQUOTE ++ "val" ++ DQUOTE ++ "}")%string in
  let options := mkCliOptions (co_method o) (co_concurrency o) (co_timeout_secs o) (co_chaos o) (co_chaos_rate o)
    (co_test_seed o) (Some body) None (co_slo_p95_ms o) (co_slo_p99_ms o) (co_slo_error_rate o) (co_slo_min_rps o) in
  on_some (reread (artifact_with options sample_breakdown None None None)) (fun deserialized => asserts [
    assert_eq (co_body (md_cli_options (ra_metadata deserialized))) (Some body);
    negb (is_some (co_headers (md_cli_options (ra_metadata deserialized))))]).

Definition summary_literal (errors : Z) (codes : gmap Z Z) (system : option SystemMetrics) : TestSummary :=
  mkTestSummary "http://localhost:8080" 100 errors (f64_lit 125 10) (f64_of_Z 25) (f64_of_Z 50) (f64_of_Z 1)
    (f64_of_Z 10) (f64_of_Z 20) (f64_of_Z 100) 1024 (f64_of_Z 10) 5 "2026-08-28T10:00:00Z" None codes f64_zero f64_zero
    None None None None None None None None None None None 0 ∅ f64_zero f64_zero ∅ system f64_zero f64_zero.

(** The configuration literal of the tests: every argument its default. *)
Definition config_literal (f : TestConfig -> bool) : bool :=
  on_ok (TestConfig_new_defaults "http://localhost:8080") f.

Definition test_from_summary_and_config : bool :=
  let summary := summary_literal 5 (<[500 := 5]> (<[200 := 95]> ∅)) None in
  config_literal (fun config =>
    let artifact := from_summary_and_config summary config (mkSystemInfo "h" "linux" "0") in
    let lp := ra_latency_percentiles artifact in
    let options := md_cli_options (ra_metadata artifact) in
    asserts [assert_eq (ar_total_requests (ra_summary artifact)) 100;
      assert_eq (ar_successful_requests (ra_summary artifact)) 95; assert_eq (ar_failed_requests (ra_summary artifact)) 5;
      assert_near (ar_rps (ra_summary artifact)) (f64_of_Z 10) (f64_lit 1 100);
      assert_f64 (lp_p50_us lp) (f64_of_Z 10000); assert_f64 (lp_p99_us lp) (f64_of_Z 50000);
      assert_f64 (lp_min_us lp) (f64_of_Z 1000); assert_f64 (lp_max_us lp) (f64_of_Z 100000);
      assert_eq (ra_error_breakdown artifact !! "200"%string) (Some 95);
      assert_eq (ra_error_breakdown artifact !! "500"%string) (Some 5);
      assert_eq (md_target_url (ra_metadata artifact)) "http://localhost:8080"%string;
      assert_eq (co_method options) "GET"%string; assert_eq (co_concurrency options) 10;
      assert_eq (co_test_seed options) 0; negb (co_chaos options);
      assert_eq (ra_latency_histogram artifact) (Some ∅)]).

Definition system_metrics_serializes_to_display_shape : bool :=
  let system := from_samples [mkResourceSample 1000000 (f32_of_Z 45) 67633152 4 None;
                              mkResourceSample 1500000 (f32_of_Z 20) 33554432 8 None] in
  let summary := summary_literal 0 (<[200 := 100]> ∅) (Some system) in
  config_literal (fun config =>
    let value := Some (to_value (from_summary_and_config summary config (mkSystemInfo "h" "linux" "0"))) in
    let sm := at_ value "system_metrics" in
    let s := at_ sm "summary" in
    let samples := match at_ sm "samples" with Some (VArray l) => l | _ => [] end in
    let sample i := samples !! i in
    asserts [float_is (at_ s "peak_cpu_percent") (f64_of_Z 45); float_is (at_ s "avg_cpu_percent") (f64_lit 325 10);
      float_is (at_ s "peak_memory_mb") (f64_lit 645 10); float_is (at_ s "avg_memory_mb") (f64_lit 483 10);
      int_is (at_ s "peak_threads") 8; assert_eq (length samples) 2%nat;
      float_is (at_ (sample 0%nat) "elapsed_sec") (f64_of_Z 1); float_is (at_ (sample 0%nat) "cpu_percent") (f64_of_Z 45);
      float_is (at_ (sample 0%nat) "memory_mb") (f64_lit 645 10); int_is (at_ (sample 0%nat) "threads") 4;
      float_is (at_ (sample 1%nat) "elapsed_sec") (f64_lit 15 10); float_is (at_ (sample 1%nat) "cpu_percent") (f64_of_Z 20);
      float_is (at_ (sample 1%nat) "memory_mb") (f64_of_Z 32); int_is (at_ (sample 1%nat) "threads") 8;
      negb (is_some (at_ sm "time_series")); negb (is_some (at_ sm "peak_cpu_percent"));
      negb (is_some (at_ s "peak_memory_rss_bytes"))]).

Definition schema_rs : list bool :=
  [evaluate_slo_passes_when_all_thresholds_met; evaluate_slo_fails_when_a_threshold_is_violated;
   evaluate_slo_none_without_thresholds; test_report_artifact_serialization_roundtrip;
   test_report_artifact_json_structure; test_websocket_field_skipped_when_none;
   test_websocket_field_serializes_when_present; test_grpc_field_skipped_when_none;
   top_level_key_set_matches_python_contract; test_grpc_field_serializes_when_present;
   test_http3_field_skipped_when_none; test_http3_field_serializes_when_present; test_latency_percentiles_values;
   test_error_breakdown_from_status_codes; test_empty_error_breakdown; test_optional_cli_options;
   test_from_summary_and_config; system_metrics_serializes_to_display_shape].

(** ** The JSON tests of [metrics/tests.rs] *)

Definition summary_json_round_trip_preserves_fields : bool :=
  let json := VObject [("url", VString "http://localhost:8080"); ("total_requests", VInt 100);
    ("status_codes", VObject [("200", VInt 95); ("500", VInt 5)]); ("ws", VObject [("pings_sent_total", VInt 5)])]%string in
  on_some (de c_summary json) (fun summary => asserts [
    assert_eq (su_url summary) "http://localhost:8080"%string; assert_eq (su_total_requests summary) 100;
    assert_eq (su_status_codes summary !! 200) (Some 95);
    assert_eq (wsm_pings_sent_total <$> su_ws summary) (Some 5);
    on_some (de c_summary (ser c_summary summary)) (fun decoded => asserts [
      assert_eq (su_url decoded) (su_url summary); assert_eq (su_status_codes decoded) (su_status_codes summary);
      assert_eq (wsm_pings_sent_total <$> su_ws decoded) (Some 5)])]).

Definition summary_json_applies_missing_field_defaults : bool :=
  on_some (de c_summary (VObject [("url", VString "http://x")]%string)) (fun summary => asserts [
    assert_eq (su_url summary) "http://x"%string; assert_eq (su_total_requests summary) 0;
    assert_eq (su_status_codes summary) ∅; negb (is_some (su_ws summary))]).

Definition metrics_json : list bool :=
  [summary_json_round_trip_preserves_fields; summary_json_applies_missing_field_defaults].

(** ** [reporting.rs] *)

Definition sample_report : GlobalReport :=
  mkGlobalReport "run-1" ["w1"%string] 1 1 10 9 1 (f64_of_Z 10) 100 (f64_of_Z 5) (f64_of_Z 2)
    (mkGlobalLatency (f64_of_Z 1) (f64_of_Z 2) (f64_of_Z 3) (f64_of_Z 4) (f64_of_Z 1) (f64_of_Z 4) 10 (replicate 10 0))
    [mkErrorClassCount "Http5xx" 1]
    [mkTimelinePoint (f64_of_Z 1) 1000 (f64_of_Z 5) (f64_of_Z 10) (f64_of_Z 1) (f64_of_Z 3) (f64_of_Z 4)]
    [mkWorkerShare "w1" 10 9 1 (f64_of_Z 10) (f64_of_Z 5) (f64_of_Z 100) (f64_of_Z 3)].

Definition at_index (v : option Value) (i : nat) : option Value :=
  match v with Some (VArray l) => l !! i | _ => None end.
Definition string_is (v : option Value) (s : string) : bool :=
  match v with Some (VString t) => String.eqb t s | _ => false end.

Definition write_json_includes_new_sections : bool :=
  let value := Some (ser c_global_report sample_report) in
  asserts [string_is (at_ value "test_run_id") "run-1";
    float_is (at_ (at_index (at_ value "timeline") 0) "rps") (f64_of_Z 5);
    string_is (at_ (at_index (at_ value "worker_shares") 0) "worker_id") "w1";
    float_is (at_ (at_index (at_ value "worker_shares") 0) "share_percent") (f64_of_Z 100)].

Definition destination_parses_dash_and_paths : bool :=
  asserts [match ReportDestination_parse (Some "-"%string) with RD_Stdout => true | _ => false end;
    match ReportDestination_parse (Some "/tmp/r.json"%string) with RD_File _ => true | _ => false end;
    match ReportDestination_parse None with RD_None => true | _ => false end].

Definition reporting_rs : list bool := [write_json_includes_new_sections; destination_parses_dash_and_paths].

(** Every restated test of the reports passes on the model. *)
Theorem report_tests_pass : passed (schema_rs ++ metrics_json ++ reporting_rs) = true.
Proof. vm_compute. reflexivity. Qed.

(** ** The round trips of [ReportJson] on the values of the tests *)

Lemma artifact_json_roundtrip_witness : de c_artifact (ser c_artifact sample_artifact) = Some sample_artifact.
Proof.
  apply artifact_json_roundtrip. cbn. unfold sample_breakdown. repeat split; try done; try lia.
  - by repeat constructor.
  - apply lookup_insert_Some in H as [[_ <-]|[_ H]]; [lia|].
    apply lookup_insert_Some in H as [[_ <-]|[_ H]]; [lia|]. by rewrite lookup_empty in H.
  - apply lookup_insert_Some in H as [[_ <-]|[_ H]]; [unfold U64_MAX; lia|].
    apply lookup_insert_Some in H as [[_ <-]|[_ H]]; [unfold U64_MAX; lia|]. by rewrite lookup_empty in H.
Defined.

Lemma summary_json_partial_witness :
  de c_summary (VObject (kept (fun _ => false) (ser_fields summary_struct TestSummary_default))) = Some TestSummary_default.
Proof.
  destruct (summary_json_partial TestSummary_default (fun _ => false)) as (_ & H & _ & _ & Hd).
  - cbn. repeat split; try done; try lia; intros k x Hx; by rewrite lookup_empty in Hx.
  - rewrite H. exact Hd.
Defined.
