(* ===== verification/TestsConfig.v ===== *)
(** The unit tests of the configurations, the worker's small state machines, the
    execution plan and the protocol detection ([src/config.rs],
    [distributed/config.rs], [distributed/master/config.rs],
    [distributed/backoff.rs], [distributed/state.rs], [distributed/executor.rs]
    and [protocols/mod.rs]).  The third-party parsers the detection tests reach
    are stood for by small executable ones. *)

From coqutil Require Import Datatypes.RecordSetters.
From S2P Require Import Prelude RustStr Json Float Chaos Samples LoadProfile Config Proto WorkerState Backoff WorkerConfig.
From S2P Require Import Executor GrpcEngine Http3 EngineSetup Report Pipeline Master Conformance.
Import DoubleBraceUpdate.

#[local] Open Scope Z_scope.

(** ** [config.rs] *)

Definition builder_defaults : bool :=
  let c := build (TestConfigBuilder_new "http://127.0.0.1:8080") in
  asserts [assert_eq (cfg_url c) "http://127.0.0.1:8080"%string; assert_eq (cfg_concurrency c) 10;
    assert_eq (cfg_duration_secs c) 10; assert_eq (cfg_timeout_secs c) 10; negb (cfg_chaos c);
    assert_f64 (cfg_chaos_rate c) DEFAULT_CHAOS_RATE; assert_eq (cfg_test_seed c) 0;
    assert_eq (cfg_method c) "GET"%string; negb (is_some (cfg_body c)); negb (is_some (cfg_headers c));
    assert_eq (cfg_ws_mode c) Handshake; negb (cfg_ws_persistent c); negb (cfg_http3_enabled c);
    negb (cfg_no_save c); assert_eq (cfg_ws_max_buffer_bytes c) 1048576;
    assert_near (cfg_ws_backpressure_warn_ratio c) (f64_lit 8 10) (f64_lit 1 1000000);
    negb (cfg_grpc_h2_multiplex c); negb (cfg_http3_migrate c); assert_eq (cfg_http3_migrate_every c) 50].

Definition builder_custom_overrides : bool :=
  let c := build (bset_grpc_method (Some "Method"%string) (bset_grpc_service (Some "pkg.Svc"%string)
    (bset_ws_role (Some "publisher"%string) (bset_ws_persistent true (bset_ws_mode Stream (bset_method "POST"
    (bset_test_seed 42 (bset_chaos_rate (f64_lit 1 4) (bset_chaos true (bset_timeout_secs 5 (bset_duration_secs 30
    (bset_concurrency 50 (TestConfigBuilder_new "grpc://localhost:50051"))))))))))))) in
  asserts [assert_eq (cfg_url c) "grpc://localhost:50051"%string; assert_eq (cfg_concurrency c) 50;
    assert_eq (cfg_duration_secs c) 30; assert_eq (cfg_timeout_secs c) 5; cfg_chaos c;
    assert_f64 (cfg_chaos_rate c) (f64_lit 1 4); assert_eq (cfg_test_seed c) 42;
    assert_eq (cfg_method c) "POST"%string; assert_eq (cfg_ws_mode c) Stream; cfg_ws_persistent c;
    assert_eq (cfg_ws_role c) (Some "publisher"%string); assert_eq (cfg_grpc_service c) (Some "pkg.Svc"%string);
    assert_eq (cfg_grpc_method c) (Some "Method"%string)].

Definition for_protocol_detection_uses_builder : bool :=
  let c := for_protocol_detection "grpc://localhost:50051" 10 30 10 in
  asserts [assert_eq (cfg_url c) "grpc://localhost:50051"%string; assert_eq (cfg_concurrency c) 10;
    assert_eq (cfg_duration_secs c) 30; negb (cfg_ws_persistent c); negb (cfg_chaos c)].

Definition pyo3_new_with_defaults : bool :=
  on_ok (TestConfig_new "http://127.0.0.1:8080" 10 10 10 false (f32_div (f32_of_Z 1) (f32_of_Z 10)) false "GET" None None
    None Handshake None None None None None None false false None None None None None false false None false None None
    None None None false 1000 1048576 (f32_div (f32_of_Z 8) (f32_of_Z 10)) false false 50 None None None None 1000 false
    None Soap11 None None Produce AckAuto false None None None false None None 0) (fun c =>
  asserts [assert_eq (cfg_url c) "http://127.0.0.1:8080"%string; assert_eq (cfg_concurrency c) 10;
    assert_eq (cfg_test_seed c) 0; negb (cfg_ws_persistent c)]).

Definition key_val : string := of_bytes (as_bytes "{" ++ ["034"%char] ++ as_bytes "key" ++ ["034"; ":"; "034"]%char
  ++ as_bytes "val" ++ ["034"; "}"]%char).

Definition pyo3_new_with_custom_values : bool :=
  let headers := [("X-Custom", "value")]%string in
  on_ok (TestConfig_new "http://127.0.0.1:8080" 50 30 5 true (f64_lit 1 4) false "POST" (Some key_val) None
    (Some headers) PingPong None (Some "mypackage.MyService"%string) (Some "MyMethod"%string) (Some "dGVzdA=="%string)
    (Some 5000) None false true (Some 300) None (Some "publisher"%string) (Some 100) (Some 5) false false None false None
    None None None None false 1000 1048576 (f32_div (f32_of_Z 8) (f32_of_Z 10)) false false 50 None None None None 1000
    false None Soap11 None None Produce AckAuto false None None None false None None 42) (fun c =>
  asserts [assert_eq (cfg_concurrency c) 50; cfg_chaos c; assert_eq (cfg_test_seed c) 42;
    assert_eq (cfg_ws_mode c) PingPong; cfg_ws_persistent c; assert_eq (cfg_ws_keepalive_secs c) (Some 300);
    assert_eq (cfg_ws_role c) (Some "publisher"%string)]).

Definition constant_total_duration : bool := assert_eq (total_duration (LP_Constant 10 30)) 30.
Definition constant_max_concurrency : bool := assert_eq (max_concurrency (LP_Constant 50 10)) 50.
Definition constant_target_concurrency : bool :=
  let p := LP_Constant 25 10 in
  asserts [assert_eq (target_concurrency p (from_secs 0)) 25; assert_eq (target_concurrency p (from_secs 5)) 25;
    assert_eq (target_concurrency p (from_secs 10)) 25].
Definition ramp_total_duration : bool := assert_eq (total_duration (LP_Ramp 10 100 60 30)) 90.
Definition ramp_max_concurrency : bool := assert_eq (max_concurrency (LP_Ramp 10 200 60 30)) 200.
Definition ramp_target_concurrency_interpolation : bool :=
  let p := LP_Ramp 10 100 90 10 in
  asserts [assert_eq (target_concurrency p (from_secs 0)) 10; assert_eq (target_concurrency p (from_secs 45)) 55;
    assert_eq (target_concurrency p (from_secs 90)) 100; assert_eq (target_concurrency p (from_secs 100)) 100].
Definition ramp_zero_duration : bool := assert_eq (target_concurrency (LP_Ramp 10 100 0 10) (from_secs 0)) 100.
Definition spike_total_duration : bool := assert_eq (total_duration (LP_Spike 5 500 10 20 10)) 40.
Definition spike_max_concurrency : bool := assert_eq (max_concurrency (LP_Spike 5 1000 5 10 5)) 1000.
Definition spike_target_concurrency_phases : bool :=
  let p := LP_Spike 5 500 10 20 10 in
  asserts [assert_eq (target_concurrency p (from_secs 0)) 5; assert_eq (target_concurrency p (from_secs 9)) 5;
    assert_eq (target_concurrency p (from_secs 10)) 500; assert_eq (target_concurrency p (from_secs 29)) 500;
    assert_eq (target_concurrency p (from_secs 30)) 5; assert_eq (target_concurrency p (from_secs 39)) 5].
Definition upper_bound_constant_returns_concurrency : bool := assert_eq (concurrency_upper_bound (LP_Constant 50 10)) 50.
Definition upper_bound_ramp_accounts_for_start_above_target : bool :=
  let p := LP_Ramp 100 10 5 5 in
  asserts [assert_eq (concurrency_upper_bound p) 100; assert_eq (max_concurrency p) 10].
Definition upper_bound_spike_accounts_for_baseline_above_peak : bool :=
  let p := LP_Spike 500 50 5 10 5 in
  asserts [assert_eq (concurrency_upper_bound p) 500; assert_eq (max_concurrency p) 50].

Definition config_rs : list bool :=
  [builder_defaults; builder_custom_overrides; for_protocol_detection_uses_builder; pyo3_new_with_defaults;
   pyo3_new_with_custom_values; constant_total_duration; constant_max_concurrency; constant_target_concurrency;
   ramp_total_duration; ramp_max_concurrency; ramp_target_concurrency_interpolation; ramp_zero_duration;
   spike_total_duration; spike_max_concurrency; spike_target_concurrency_phases;
   upper_bound_constant_returns_concurrency; upper_bound_ramp_accounts_for_start_above_target;
   upper_bound_spike_accounts_for_baseline_above_peak].

(** ** [distributed/config.rs]: the command line is the record it parses to. *)

Definition parses_endpoint_and_defaults : bool :=
  let config := WorkerConfig_defaults "127.0.0.1:50051" in
  asserts [assert_eq (wc_master_endpoint config) "127.0.0.1:50051"%string;
    assert_eq (endpoint_uri config) "http://127.0.0.1:50051"%string;
    assert_eq (wc_heartbeat_interval_ms config) DEFAULT_HEARTBEAT_INTERVAL_MS;
    assert_eq (wc_metric_window_ms config) DEFAULT_METRIC_WINDOW_MS; negb (wc_tls config)].
Definition endpoint_uri_is_not_double_prefixed : bool :=
  assert_eq (endpoint_uri (WorkerConfig_defaults "http://host:50051")) "http://host:50051"%string.
Definition labels_parse_and_reject_malformed : bool :=
  asserts [
    on_ok (labels_map ((WorkerConfig_defaults "h:1"){{ wc_labels := ["zone=a"; "pool=b"]%string }})) (fun labels =>
      asserts [assert_eq (labels !! "zone"%string) (Some "a"%string);
        assert_eq (labels !! "pool"%string) (Some "b"%string)]);
    on_err (labels_map ((WorkerConfig_defaults "h:1"){{ wc_labels := ["oops"]%string }})) (fun _ => true)].
Definition max_vus_defaults_to_cores (cores : option Z) : bool :=
  asserts [VUS_PER_CORE <=? resolved_max_vus cores (WorkerConfig_defaults "127.0.0.1:50051");
    assert_eq (resolved_max_vus cores ((WorkerConfig_defaults "h:1"){{ wc_max_vus := 7 }})) 7].
Definition validate_rejects_zero_intervals : bool :=
  on_err (validate ((WorkerConfig_defaults "h:1"){{ wc_metric_window_ms := 0 }})) (fun _ => true).

Definition worker_config_rs : list bool :=
  [parses_endpoint_and_defaults; endpoint_uri_is_not_double_prefixed; labels_parse_and_reject_malformed;
   max_vus_defaults_to_cores None; max_vus_defaults_to_cores (Some 1); max_vus_defaults_to_cores (Some 8);
   validate_rejects_zero_intervals].

(** ** [distributed/master/config.rs] *)

Definition parses_defaults : bool :=
  let config := MasterConfig_defaults in
  asserts [assert_eq (mc_port config) DEFAULT_PORT;
    assert_eq (mc_heartbeat_interval_ms config) DEFAULT_MASTER_HEARTBEAT_MS; negb (has_run_spec config);
    on_ok (listen_addr Ok config) (fun addr => assert_eq addr ("0.0.0.0:" ++ u64_to_string DEFAULT_PORT)%string)].
Definition derives_worker_timeout_from_heartbeat : bool :=
  assert_eq (worker_timeout MasterConfig_defaults) (from_millis (DEFAULT_MASTER_HEARTBEAT_MS * 3)).
Definition explicit_worker_timeout_wins : bool :=
  assert_eq (worker_timeout (MasterConfig_defaults{{ mc_worker_timeout_ms := 1234 }})) (from_millis 1234).
Definition run_spec_requires_vus_and_duration : bool :=
  let config := MasterConfig_defaults{{ mc_run_url := Some "http://127.0.0.1:9/x"%string }} in
  let ok := config{{ mc_run_virtual_users := 10; mc_run_duration_secs := 5 }} in
  asserts [on_err (master_validate Ok config) (fun _ => true); on_ok (master_validate Ok ok) (fun _ => true);
    has_run_spec ok].
Definition cluster_configuration_carries_settings : bool :=
  let cluster := cluster_configuration MasterConfig_defaults "http://127.0.0.1:50051" in
  asserts [assert_eq (cc_master_endpoint cluster) "http://127.0.0.1:50051"%string;
    assert_eq (cc_heartbeat_interval_ms cluster) DEFAULT_MASTER_HEARTBEAT_MS;
    assert_eq (cc_histogram_bucket_count cluster) DEFAULT_HISTOGRAM_BUCKET_COUNT].

Definition master_config_rs : list bool :=
  [parses_defaults; derives_worker_timeout_from_heartbeat; explicit_worker_timeout_wins;
   run_spec_requires_vus_and_duration; cluster_configuration_carries_settings].

(** ** [distributed/backoff.rs]: the jitter test on the extreme random draws. *)

Definition deterministic_schedule_grows_and_caps : bool :=
  let backoff := with_jitter false (Backoff_new (from_millis 100) (from_millis 1000)) in
  asserts ((fun '(n, ms) => assert_eq (delay_for backoff n) (Some (from_millis ms))) <$>
    [(0, 100); (1, 200); (2, 400); (3, 800); (4, 1000); (50, 1000)]).
Definition next_delay_advances_attempt : bool :=
  let b0 := with_jitter false (Backoff_new (from_millis 10) (from_millis 80)) in
  let (b1, d1) := next_delay f64_zero b0 in
  let (b2, d2) := next_delay f64_zero b1 in
  let b3 := backoff_reset b2 in
  asserts [assert_eq (Backoff.attempt b0) 0; assert_eq d1 (Some (from_millis 10)); assert_eq d2 (Some (from_millis 20));
    assert_eq (Backoff.attempt b2) 2; assert_eq (Backoff.attempt b3) 0;
    assert_eq (next_delay f64_zero b3).2 (Some (from_millis 10))].
Definition jitter_stays_within_bounds (random : f64) : bool :=
  let backoff := with_jitter true (with_factor f64_one (Backoff_new (from_millis 200) (from_secs 10))) in
  (fix go (n : nat) (b : Backoff) := match n with
   | 0%nat => true
   | S n => let (b, delay) := next_delay random b in on_some delay (fun d => d <=? from_millis 200) && go n b
   end) 100%nat backoff.

Definition backoff_rs : list bool :=
  [deterministic_schedule_grows_and_caps; next_delay_advances_attempt; jitter_stays_within_bounds f64_zero;
   jitter_stays_within_bounds (f64_lit 1 2); jitter_stays_within_bounds f64_one].

(** ** [distributed/state.rs] *)

(** [machine.transition(s).unwrap()] for each state, then the state reached. *)
Definition walk (states : list WorkerState) : option WorkerState :=
  sm_state <$> foldl (fun m s => m ← m; match transition s m with (m, Ok _) => Some m | _ => None end)
    (Some WorkerStateMachine_new) states.

Definition starts_ready : bool := assert_eq (walk []) (Some WS_Ready).
Definition legal_lifecycle_sequence : bool := assert_eq (walk [WS_Running; WS_Draining; WS_Ready]) (Some WS_Ready).
Definition same_state_is_a_noop : bool := assert_eq (walk [WS_Ready]) (Some WS_Ready).
Definition illegal_draining_to_running_is_rejected : bool :=
  match transition WS_Draining WorkerStateMachine_new with
  | (machine, Ok _) =>
      let (machine, r) := transition WS_Running machine in
      on_err r (fun e => match e with WE_StateTransition _ _ => true | _ => false end) &&
      assert_eq (sm_state machine) WS_Draining
  | _ => false
  end.
Definition error_recovers_to_ready : bool := assert_eq (walk [WS_Error; WS_Ready]) (Some WS_Ready).
Definition state_names_and_proto_mapping : bool :=
  asserts [assert_eq (WorkerState_as_str WS_Ready) "READY"%string;
    assert_eq (WorkerState_as_str WS_Running) "RUNNING"%string; assert_eq (as_proto WS_Running) PWS_Running;
    assert_eq (as_proto WS_Error) PWS_Error].

Definition state_rs : list bool :=
  [starts_ready; legal_lifecycle_sequence; same_state_is_a_noop; illegal_draining_to_running_is_rejected;
   error_recovers_to_ready; state_names_and_proto_mapping].

(** ** [distributed/executor.rs] *)

Definition executor_config : TestConfiguration :=
  mkTestConfiguration "run-1" [mkTargetEndpoint "http://127.0.0.1:1/a" "" f64_zero;
      mkTargetEndpoint "http://127.0.0.1:1/b" "" f64_zero] None 500 250 [mkHeader "X-Test" "1"]
    [mkPayloadTemplate "" "application/json" (as_bytes "{}") f64_zero []] "POST".
Definition no_targets_config : TestConfiguration := mkTestConfiguration "" [] None 0 0 [] [] "".

Definition header_get (name : string) (headers : list (string * string)) : option string :=
  snd <$> List.find (fun h => String.eqb h.1 name) headers.

Definition builds_plan_and_clamps_vus : bool :=
  on_ok (from_proto (H := simple_http) executor_config 10 (from_secs 5)) (fun plan =>
    asserts [assert_eq (length (ep_targets plan)) 2%nat; assert_eq (ep_method plan : string) "POST"%string;
      assert_eq (ep_virtual_users plan) 10; assert_eq (ep_timeout plan) (from_millis 250);
      assert_eq (header_get "X-Test" (ep_headers plan)) (Some "1"%string);
      assert_eq (ep_body plan) (Some (as_bytes "{}"))]).
Definition rejects_config_without_targets : bool :=
  on_err (from_proto (H := simple_http) (executor_config{{ tc_targets := [] }}) 10 (from_secs 1))
    (fun e => match e with WE_Config _ => true | _ => false end).
Definition duration_none_when_zero : bool :=
  on_ok (from_proto (H := simple_http)
      (no_targets_config{{ tc_targets := [mkTargetEndpoint "http://x" "" f64_zero] }}) 10 (from_secs 1)) (fun plan =>
    asserts [negb (is_some (ep_duration plan)); assert_eq (ep_method plan : string) "GET"%string]).

Definition executor_rs : list bool :=
  [builds_plan_and_clamps_vus; rejects_config_without_targets; duration_none_when_zero].

(** ** [protocols/mod.rs] *)

(** The decoders of the hex and base64 crates: pairs of digits, and the standard
    alphabet in padded groups of four. *)
Definition hex_digit (c : ascii) : option Z :=
  let v := byte_val c in
  if (48 <=? v) && (v <=? 57) then Some (v - 48)
  else if (97 <=? v) && (v <=? 102) then Some (v - 87)
  else if (65 <=? v) && (v <=? 70) then Some (v - 55) else None.
Definition byte_of (v : Z) : ascii := ascii_of_N (Z.to_N v).
Fixpoint hex (b : bytes) : option bytes :=
  match b with
  | [] => Some []
  | h :: l :: b => x ← hex_digit h; y ← hex_digit l; r ← hex b; Some (byte_of (16 * x + y) :: r)
  | _ => None
  end.

Definition base64_digit (c : ascii) : option Z :=
  let v := byte_val c in
  if (65 <=? v) && (v <=? 90) then Some (v - 65)
  else if (97 <=? v) && (v <=? 122) then Some (v - 71)
  else if (48 <=? v) && (v <=? 57) then Some (v + 4)
  else if v =? 43 then Some 62 else if v =? 47 then Some 63 else None.
Definition sextets (n : nat) (v : Z) : bytes :=
  take n [byte_of (v / 65536); byte_of (v / 256 mod 256); byte_of (v mod 256)].
Fixpoint base64 (b : bytes) : option bytes :=
  match b with
  | [] => Some []
  | [a; b; "="%char; "="%char] => x ← base64_digit a; y ← base64_digit b; Some (sextets 1 (262144 * x + 4096 * y))
  | [a; b; c; "="%char] =>
      x ← base64_digit a; y ← base64_digit b; z ← base64_digit c; Some (sextets 2 (262144 * x + 4096 * y + 64 * z))
  | a :: b :: c :: d :: r =>
      x ← base64_digit a; y ← base64_digit b; z ← base64_digit c; w ← base64_digit d; s ← base64 r;
      Some (sextets 3 (262144 * x + 4096 * y + 64 * z + w) ++ s)
  | _ => None
  end.
Definition decoded (o : option bytes) : result string bytes :=
  match o with Some b => Ok b | None => Err "invalid"%string end.

(** No file exists for the schema compiler. *)
#[local] Instance test_codecs : GrpcCodecs := {|
  json_to_protobuf := fun path _ _ _ => Err (CompilationError ("no such file: " ++ path)%string);
  hex_decode := fun b => decoded (hex b);
  base64_decode := fun b => decoded (base64 b);
|}.

(** A URI with an empty authority is refused. *)
#[local] Instance test_http3_env : Http3Env := {|
  uri_parse := fun u =>
    match strip_prefix (as_bytes "https://") (as_bytes u) with
    | Some [] | None => Err "invalid uri"%string
    | Some host => Ok (mkUriParts (Some (of_bytes host)) None None)
    end;
  to_uppercase := fun s => s;
|}.

#[local] Instance test_setup : SetupEnv (H := simple_http) := {|
  header_name_from_static := fun s : string => s : @HeaderName simple_http;
  header_contains_key := fun k (m : list (string * string)) => bool_decide ((k : string) ∈ m.*1);
  header_insert := fun k v (m : list (string * string)) => ((k, v) :: filter (fun h => h.1 <> k) m : list (string * string));
  urlencode := fun s => s;
  client_build := fun _ => Ok ();
  grpc_endpoint := Ok;
  uri_authority := fun u => Ok (Some u);
|}.

Definition chaos_default : ChaosEngine := ChaosEngine_new false f64_zero.
Definition detect (url : string) (config : TestConfig) : result SetupError (Engine (H := simple_http)) :=
  detect_protocol (H := simple_http) url config chaos_default.

Definition grpc_config (proto_path payload : option string) : TestConfig :=
  (for_protocol_detection "grpc://127.0.0.1:50051" 1 10 10){{ cfg_grpc_service := Some "pkg.Svc"%string;
    cfg_grpc_method := Some "Method"%string; cfg_grpc_payload := payload; cfg_proto_path := proto_path }}.
Definition http3_config : TestConfig := for_protocol_detection "http3://" 1 10 10.
Definition ws_config : TestConfig := for_protocol_detection "ws://127.0.0.1:8080" 1 10 10.
Definition sse_config : TestConfig := for_protocol_detection "sse://127.0.0.1:8080" 1 10 10.

Definition setup_fails_with {A} (r : result SetupError A) (message : string) : bool :=
  on_err r (fun e => str_contains (SetupError_to_string e) message).

Definition test_grpc_bad_proto_path_returns_err : bool :=
  setup_fails_with (detect "grpc://127.0.0.1:50051"
    (grpc_config (Some "/nonexistent/path.proto"%string) (Some "{}"%string))) "gRPC setup failed".
Definition test_grpc_bad_hex_payload_returns_err : bool :=
  setup_fails_with (detect "grpc://127.0.0.1:50051" (grpc_config None (Some "0xZZZZ"%string))) "gRPC setup failed".
Definition test_grpc_bad_base64_payload_returns_err : bool :=
  setup_fails_with (detect "grpc://127.0.0.1:50051" (grpc_config None (Some "not-valid-base64!!!"%string)))
    "gRPC setup failed".
Definition test_http3_bad_url_returns_err : bool :=
  setup_fails_with (detect "http3://" http3_config) "HTTP/3 setup failed".
Definition test_valid_http_returns_ok : bool :=
  on_ok (detect "http://127.0.0.1:8080" (for_protocol_detection "http://127.0.0.1:8080" 1 10 10)) (fun _ => true).
Definition test_valid_ws_returns_ok : bool := on_ok (detect "ws://127.0.0.1:8080" ws_config) (fun _ => true).
Definition test_valid_sse_returns_ok : bool := on_ok (detect "sse://127.0.0.1:8080" sse_config) (fun _ => true).

Definition test_reserved_flags_emit_warnings : bool :=
  let config := (for_protocol_detection "http://127.0.0.1:8080" 1 10 10){{ cfg_grpc_use_reflection := true;
    cfg_http3_enabled := true; cfg_ws_subscribers := Some 10 }} in
  let events := warn_reserved_options config in
  asserts ((fun flag => existsb (fun m => str_contains m flag) events) <$>
    ["--grpc-use-reflection"; "--http3 "; "--ws-subscribers"]%string).
Definition test_reserved_flags_silent_when_unset : bool :=
  assert_eq (warn_reserved_options (for_protocol_detection "http://127.0.0.1:8080" 1 10 10)) [].

Definition protocols_mod_rs : list bool :=
  [test_grpc_bad_proto_path_returns_err; test_grpc_bad_hex_payload_returns_err;
   test_grpc_bad_base64_payload_returns_err; test_http3_bad_url_returns_err; test_valid_http_returns_ok;
   test_valid_ws_returns_ok; test_valid_sse_returns_ok; test_reserved_flags_emit_warnings;
   test_reserved_flags_silent_when_unset].

(** Every restated test of the configurations and of the set-up passes on the model. *)
Theorem config_tests_pass :
  passed (config_rs ++ worker_config_rs ++ master_config_rs ++ backoff_rs ++ state_rs ++ executor_rs ++
          protocols_mod_rs) = true.
Proof. vm_compute. reflexivity. Qed.
