(* ===== verification/TestsCluster.v ===== *)
(** The unit tests of the distributed mode: [distributed/master/registry.rs],
    [barrier.rs], [pipeline.rs], [run.rs] and [server.rs] of the master,
    [distributed/telemetry.rs] and [worker.rs] of the worker.  What a test does
    from a second task is an event between the steps of the operation it
    interleaves with; clock readings are given.  The tests of
    the worker that poison a mutex run on [Daemon]; those of [dashboard.rs] exercise
    the broadcast channel of tokio and are left out. *)

From coqutil Require Import Datatypes.RecordSetters.
From S2P Require Import Prelude RustStr Float Histogram Samples Proto Registry Barrier WorkerState WorkerConfig Telemetry Report Pipeline Master Worker Daemon Console Dashboard Conformance.
Import DoubleBraceUpdate.

#[local] Open Scope Z_scope.
#[local] Open Scope rust_scope.

(** ** [registry.rs] *)

Definition register_request (id : string) (max_vus : Z) : RegisterWorkerRequest :=
  mkRegisterWorkerRequest id "host" "127.0.0.1" max_vus None "0.0.0" ∅ None.

Definition status_of (id : string) (r : Registry) : option WorkerStatus := wr_status <$> registry_get id r.

Definition register_then_ready_via_heartbeat : bool :=
  on_ok (register 0 (register_request "w1" 100) Registry_new) (fun registry =>
    asserts [assert_eq (registry_len registry) 1; assert_eq (ready_workers registry) [];
      assert_eq (status_of "w1" registry) (Some Registered);
      on_ok (record_heartbeat 1 "w1" PWS_Ready 0 "" registry) (fun registry =>
        assert_eq (ready_workers registry) ["w1"%string])]).

Definition register_rejects_invalid : bool :=
  asserts [on_err (register 0 (register_request "" 10) Registry_new) (fun _ => true);
    on_err (register 0 (register_request "w1" 0) Registry_new) (fun _ => true)].

Definition heartbeat_for_unknown_worker_fails : bool :=
  on_err (record_heartbeat 0 "ghost" PWS_Ready 0 "" Registry_new) (fun _ => true).

Definition running_and_failed_states_are_mapped : bool :=
  on_ok (registry ← register 0 (register_request "w1" 10) Registry_new;
         record_heartbeat 1 "w1" PWS_Running 5 "run-1" registry) (fun registry =>
    asserts [assert_eq (status_of "w1" registry) (Some Running);
      assert_eq (wr_active_vus <$> registry_get "w1" registry) (Some 5);
      assert_eq (running_workers registry) ["w1"%string];
      on_ok (record_heartbeat 2 "w1" PWS_Error 0 "" registry) (fun registry =>
        assert_eq (status_of "w1" registry) (Some Failed))]).

Definition commands_can_be_attached_and_detached : bool :=
  on_ok (registry ← register 0 (register_request "w1" 10) Registry_new; attach_commands "w1" 7 registry)
    (fun registry => asserts [is_some (command_sender "w1" registry);
       negb (is_some (command_sender "w1" (detach_commands "w1" registry)))]).

Definition sweep_evicts_stale_workers : bool :=
  on_ok (register 5 (register_request "w1" 10) Registry_new) (fun registry =>
    let (registry, evicted) := sweep 6 0 registry in
    asserts [assert_eq evicted ["w1"%string]; assert_eq (status_of "w1" registry) (Some Disconnected);
      assert_eq (sweep 7 0 registry).2 []]).

Definition registry_rs : list bool :=
  [register_then_ready_via_heartbeat; register_rejects_invalid; heartbeat_for_unknown_worker_fails;
   running_and_failed_states_are_mapped; commands_can_be_attached_and_detached; sweep_evicts_stale_workers].

(** ** [barrier.rs] *)

Definition barrier_request (id : string) : RegisterWorkerRequest :=
  mkRegisterWorkerRequest id "" "" 10 None "" ∅ None.
Definition registered_two : result MasterError Registry :=
  r ← register 0 (barrier_request "w1") Registry_new; register 0 (barrier_request "w2") r.
Definition join_ready (id : string) (tx : Z) (r : Registry) : result MasterError Registry :=
  r ← attach_commands id tx r; record_heartbeat 1 id PWS_Ready 0 "" r.

(** The first poll sees one worker, the one after the notification both. *)
Definition resolves_once_expected_workers_are_ready : bool :=
  on_ok (r ← registered_two; join_ready "w1" 1 r) (fun first =>
  on_ok (join_ready "w2" 2 first) (fun second =>
    asserts [assert_eq (is_some (wait_for_ready 2 0 (from_secs 5) [(first, 1)])) false;
      on_some (wait_for_ready 2 0 (from_secs 5) [(first, 1); (second, from_millis 50)]) (fun r =>
        on_ok r (fun allocated => assert_eq allocated ["w1"; "w2"]%string))])).

Definition times_out_when_workers_never_arrive : bool :=
  on_some (wait_for_ready 2 0 (from_millis 100) [(Registry_new, 1); (Registry_new, from_millis 100)]) (fun r =>
    on_err r (fun e => match e with ME_BarrierTimeout _ _ => true | _ => false end)).

Definition zero_expected_allocates_every_ready_worker : bool :=
  on_ok (r ← registered_two; r ← join_ready "w1" 1 r; join_ready "w2" 2 r) (fun registry =>
    on_some (wait_for_ready 0 0 (from_millis 100) [(registry, 1)]) (fun r =>
      on_ok r (fun allocated => assert_eq allocated ["w1"; "w2"]%string))).

Definition barrier_rs : list bool :=
  [resolves_once_expected_workers_are_ready; times_out_when_workers_never_arrive;
   zero_expected_allocates_every_ready_worker].

(** ** [pipeline.rs] *)

Definition latency_default : LatencySummary :=
  mkLatencySummary f64_zero f64_zero f64_zero f64_zero f64_zero f64_zero f64_zero f64_zero 0 [].
Definition batch_default : MetricBatch := mkMetricBatch "" "" "" 0 0 0 0 0 0 0 0 None [] f64_zero.

Definition batch_at (worker : string) (epoch_ms total failure : Z) (buckets : list Z) : MetricBatch :=
  batch_default{{ mb_worker_id := worker; mb_test_run_id := "run-1"%string; mb_window_start_unix_ms := epoch_ms;
    mb_window_duration_ms := 1000; mb_total_requests := total; mb_success_count := total - failure;
    mb_failure_count := failure;
    mb_latency := Some (latency_default{{ ls_min_ms := f64_of_Z 1; ls_max_ms := f64_of_Z 30;
      ls_sample_count := total; ls_bucket_counts := buckets }});
    mb_errors := [mkErrorBreakdown (ErrorClass_to_i32 EC_Http5xx) failure ""] }}.

Definition published (r : IngestResult) : option LiveSnapshot :=
  match r with Publish s => Some s | _ => None end.

Definition publishes_once_per_epoch_and_uses_sliding_window : bool :=
  let p0 := TelemetryPipeline_new "run-1" 10 2 in
  let (p1, r1) := ingest p0 (batch_at "w1" 10000 10 0 [0; 10; 0; 0; 0; 0; 0; 0; 0; 0]) in
  let (p2, r2) := ingest p1 (batch_at "w1" 10500 10 0 [0; 10; 0; 0; 0; 0; 0; 0; 0; 0]) in
  let (p3, r3) := ingest p2 (batch_at "w1" 11000 20 0 [0; 20; 0; 0; 0; 0; 0; 0; 0; 0]) in
  asserts [is_some (published r1); negb (is_some (published r2));
    on_some (published r3) (fun snap =>
      asserts [assert_eq (lv_epoch_ms snap) 11000; assert_f64 (lv_window_secs snap) (f64_of_Z 2);
        assert_near (lv_rps snap) (f64_of_Z 20) (f64_lit 1 1000000000); assert_eq (lv_total_requests snap) 40;
        assert_eq (lv_active_workers snap) 1])].

Definition sliding_window_ignores_old_epochs : bool :=
  let bs := [5; 0; 0; 0; 0; 0; 0; 0; 0; 0] in
  let p := ingest_all (TelemetryPipeline_new "run-1" 10 2) [batch_at "w1" 100000 5 0 bs; batch_at "w1" 104000 5 0 bs] in
  on_some (published (ingest p (batch_at "w1" 110000 5 0 bs)).2) (fun snap =>
    assert_near (lv_rps snap) (f64_lit 25 10) (f64_lit 1 1000000000)).

Definition finalize_builds_timeline_and_worker_shares : bool :=
  let pipeline := ingest_all (TelemetryPipeline_new "run-1" 10 5)
    [batch_at "w1" 1000 10 1 [0; 10; 0; 0; 0; 0; 0; 0; 0; 0]; batch_at "w2" 1000 30 0 [0; 0; 30; 0; 0; 0; 0; 0; 0; 0];
     batch_at "w1" 2000 10 0 [0; 10; 0; 0; 0; 0; 0; 0; 0; 0]] in
  let report := finalize pipeline in
  let share i := on_some (gr_worker_shares report !! i) in
  asserts [assert_eq (gr_test_run_id report) "run-1"%string; assert_eq (gr_total_requests report) 50;
    assert_eq (gr_success_count report) 49; assert_eq (gr_failure_count report) 1;
    assert_eq (gr_worker_count report) 2; assert_eq (gr_workers report) ["w1"; "w2"]%string;
    assert_eq (length (gr_timeline report)) 2%nat; assert_eq (tp_epoch_ms <$> gr_timeline report) [1000; 2000];
    on_some (gr_timeline report !! 0%nat) (fun t => assert_f64 (tp_rps t) (f64_of_Z 40));
    share 0%nat (fun w => asserts [assert_eq (wsh_worker_id w) "w2"%string;
      assert_near (wsh_share_percent w) (f64_of_Z 60) (f64_lit 1 1000000000)]);
    share 1%nat (fun w => asserts [assert_eq (wsh_worker_id w) "w1"%string;
      assert_near (wsh_share_percent w) (f64_of_Z 40) (f64_lit 1 1000000000)]);
    assert_eq (length (gr_error_breakdown report)) 1%nat;
    on_some (gr_error_breakdown report !! 0%nat) (fun e => assert_eq (ecc_count e) 1);
    assert_eq (Zsum (gl_bucket_counts (gr_latency report))) 50].

(** The actor task: one batch, one finalization, shut down. *)
Definition handle_forwards_batches_and_finalizes : bool :=
  let b := batch_at "w1" 1000 7 0 [0; 7; 0; 0; 0; 0; 0; 0; 0; 0] in
  match (run_pipeline (TelemetryPipeline_new "run-1" 10 5) [PC_Batch b; PC_Finalize 0; PC_Shutdown]).2 with
  | [PE_Published snap; PE_Reply 0 report] =>
      asserts [assert_eq (lv_total_requests snap) 7; assert_eq (gr_total_requests report) 7;
        assert_eq (length (gr_timeline report)) 1%nat]
  | _ => false
  end.

Definition pipeline_rs : list bool :=
  [publishes_once_per_epoch_and_uses_sliding_window; sliding_window_ignores_old_epochs;
   finalize_builds_timeline_and_worker_shares; handle_forwards_batches_and_finalizes].

(** ** [run.rs] and [server.rs] *)

Definition test_run_default : TestConfiguration := mkTestConfiguration "" [] None 0 0 [] [] "".

(** The handle's state, and the events of [register_ready]. *)
Definition master_with (c : MasterConfig) (f : MasterState -> bool) : bool := on_ok (MasterState_new Ok c) f.
Definition register_ready (worker_id : string) (s : MasterState) : MasterState :=
  master_steps s [MERegister 0 (barrier_request worker_id);
    MEHeartbeat 1 (mkHeartbeatRequest worker_id (ProtoWorkerState_to_i32 PWS_Ready) 0 ""); MEWatch worker_id].

Definition start_run_without_workers_times_out : bool :=
  let c := MasterConfig_defaults{{ mc_barrier_timeout_ms := 100 }} in
  master_with c (fun state =>
    on_some (wait_for_ready 1 0 (barrier_timeout c) [(ms_registry state, 1); (ms_registry state, from_millis 100)])
      (fun barrier =>
        on_some (start_run (test_run_default{{ tc_duration := Some (mkProtoDuration 1 0) }}) barrier 0 0 [] [] [] state)
          (fun '(_, r) => on_err r (fun e => match e with ME_BarrierTimeout _ _ => true | _ => false end)))).

Definition telemetry_ingestion_completes_the_run : bool :=
  let c := MasterConfig_defaults{{ mc_barrier_timeout_ms := 1000 }} in
  let config := test_run_default{{ tc_test_run_id := "run-x"%string; tc_duration := Some (mkProtoDuration 1 0) }} in
  let batch := batch_default{{ mb_worker_id := "w1"%string; mb_test_run_id := "run-x"%string; mb_total_requests := 7;
    mb_success_count := 7;
    mb_latency := Some (latency_default{{ ls_min_ms := f64_of_Z 1; ls_max_ms := f64_of_Z 3; ls_sample_count := 7;
      ls_bucket_counts := [0; 7; 0; 0; 0; 0; 0; 0; 0; 0] }}) }} in
  master_with c (fun state =>
    let state := register_ready "w1" state in
    on_some (wait_for_ready 1 0 (barrier_timeout c) [(ms_registry state, 1)]) (fun barrier =>
      on_some (start_run config barrier 0 1 [] [] [([], 2); ([MEBatch batch; METelemetryDone "w1"], from_millis 100)] state)
        (fun '(_, r) => on_ok r (fun report =>
          asserts [assert_eq (gr_total_requests report) 7; assert_eq (gr_worker_count report) 1])))).

(** The handler behind the gRPC call. *)
Definition registration_round_trips_over_grpc : bool :=
  master_with (MasterConfig_defaults{{ mc_bind_address := "127.0.0.1"%string; mc_port := 40000 }}) (fun state =>
    let (state, r) := register_worker 0 (mkRegisterWorkerRequest "w1" "h" "" 10 None "" ∅ None) state in
    on_ok r (fun response =>
      asserts [assert_eq (rr_status response) REGISTRATION_ACCEPTED; is_some (rr_cluster_config response);
        assert_eq (registry_len (ms_registry state)) 1])).

Definition master_rs : list bool :=
  [start_run_without_workers_times_out; telemetry_ingestion_completes_the_run; registration_round_trips_over_grpc].

(** ** [telemetry.rs] *)

Definition ok (latency_us : Z) : RequestMetric := b_status 200 (builder latency_us None).
Definition failed (status : Z) : RequestMetric := b_status status (builder 1000 None).
Definition collector (window : duration) : WindowedCollector := WindowedCollector_new 0 "w1" "run1" window.
Definition recorded_all (ms : list RequestMetric) (c : WindowedCollector) : WindowedCollector :=
  foldl (fun c m => collector_record m c) c ms.

Definition empty_window_yields_no_batch : bool := negb (is_some (take_batch 1 (collector (from_millis 10))).2).

Definition aggregates_success_and_failure_counts : bool :=
  let c := recorded_all [ok 1000; ok 2000; failed 500; failed 503] (set_active_vus 4 (collector (from_secs 1))) in
  on_some (take_batch 1 c).2 (fun batch =>
    asserts [assert_eq (mb_worker_id batch) "w1"%string; assert_eq (mb_test_run_id batch) "run1"%string;
      assert_eq (mb_batch_id batch) "0"%string; assert_eq (mb_total_requests batch) 4;
      assert_eq (mb_success_count batch) 2; assert_eq (mb_failure_count batch) 2; assert_eq (mb_active_vus batch) 4;
      assert_eq (mb_window_duration_ms batch) 1000; f64_ltb f64_zero (mb_requests_per_second batch);
      assert_eq ((fun e => (eb_error_class e, eb_count e)) <$> mb_errors batch) [(ErrorClass_to_i32 EC_Http5xx, 2)]]).

Definition histogram_buckets_are_fixed_width_and_sum_to_total : bool :=
  let c := recorded_all [ok 500; ok 3000; ok 2000000] (collector (from_secs 1)) in
  on_some ((take_batch 1 c).2 ≫= mb_latency) (fun latency =>
    asserts [assert_eq (length (ls_bucket_counts latency)) 10%nat; assert_eq (Zsum (ls_bucket_counts latency)) 3;
      assert_eq (ls_sample_count latency) 3; f64_geb (ls_p99_ms latency) (ls_p50_ms latency)]).

Definition take_batch_resets_the_window_and_increments_seq : bool :=
  let (c, first) := take_batch 1 (recorded_all [ok 1000] (collector (from_secs 1))) in
  let (c2, none) := take_batch 2 c in
  let second := (take_batch 3 (recorded_all [ok 1000] c2)).2 in
  asserts [assert_eq (mb_batch_id <$> first) (Some "0"%string); assert_eq (pending_requests c) 0; negb (is_some none);
    assert_eq (mb_batch_id <$> second) (Some "1"%string); assert_eq (mb_total_requests <$> second) (Some 1)].

Definition classifies_4xx_and_transport_errors : bool :=
  on_some (take_batch 1 (recorded_all [failed 404; failed 0] (collector (from_secs 1)))).2 (fun batch =>
    let classes : gmap Z Z := list_to_map ((fun e => (eb_error_class e, eb_count e)) <$> mb_errors batch) in
    asserts [assert_eq (classes !! ErrorClass_to_i32 EC_Http4xx) (Some 1);
      assert_eq (classes !! ErrorClass_to_i32 EC_Other) (Some 1)]).

Definition telemetry_rs : list bool :=
  [empty_window_yields_no_batch; aggregates_success_and_failure_counts;
   histogram_buckets_are_fixed_width_and_sum_to_total; take_batch_resets_the_window_and_increments_seq;
   classifies_4xx_and_transport_errors].

(** ** [worker.rs] *)

Definition shared_rejects_concurrent_runs : bool :=
  let (shared, first) := begin_run 0 Shared_new in
  asserts [first; negb (begin_run 1 shared).2].

Definition shared_state_transitions : bool :=
  asserts [assert_eq (sm_state (sh_state Shared_new)) WS_Ready;
    assert_eq (sm_state (sh_state (set_state WS_Running Shared_new))) WS_Running].

Definition lock_recovers_from_poison : bool :=
  let mutex := poison None (Mutex_new 0) in
  let (mutex', _) := with_lock (fun _ => (1, ())) mutex in
  asserts [mx_poisoned mutex; negb (mx_poisoned mutex'); match mutex_lock mutex' with inl v => v =? 1 | inr _ => false end].

(** The answers of a sequence of operations, and the state after them. *)
Definition locked_ops (s : LockedShared) (es : list LockEvent) : LockedShared * list LockAnswer := run_steps locked_step s es.

Definition shared_state_recovers_from_poison : bool :=
  let (s, a) := locked_ops LockedShared_new [LE_PoisonState None; LE_State] in
  let (_, b) := locked_ops s [LE_SetState WS_Draining; LE_State] in
  asserts [match a with [_; LA_State WS_Ready] => true | _ => false end; negb (mx_poisoned (lk_state s));
    match b with [_; LA_State WS_Draining] => true | _ => false end].

Definition began (ok : bool) (l : list LockAnswer) : bool :=
  match last l with Some (LA_Began b) => Bool.eqb b ok | _ => false end.
Definition task_cancelled (id : Z) (s : LockedShared) : bool :=
  match lk_tasks s !! id with Some t => tk_cancelled t | None => false end.

Definition shared_run_recovers_from_poison_when_empty : bool :=
  let (s1, _) := locked_ops LockedShared_new [LE_PoisonRun None; LE_CancelRun] in
  let (s2, a) := locked_ops s1 [LE_Spawn "r" 1; LE_BeginRun 0] in
  let (s3, _) := locked_ops s2 [LE_CancelRun] in
  let (s4, b) := locked_ops s3 [LE_StopRun; LE_Spawn "r" 1; LE_BeginRun 1] in
  asserts [negb (mx_poisoned (lk_run s1)); began true a; task_cancelled 0 s3; began true b].

Definition shared_run_recovers_from_poison_with_active_run : bool :=
  let (s1, a) := locked_ops LockedShared_new [LE_Spawn "r" 1; LE_BeginRun 0] in
  let (s2, _) := locked_ops s1 [LE_PoisonRun None] in
  let (s3, b) := locked_ops s2 [LE_Spawn "r" 1; LE_BeginRun 1] in
  let (s4, _) := locked_ops s3 [LE_CancelRun] in
  let (s5, c) := locked_ops s4 [LE_StopRun; LE_Spawn "r" 1; LE_BeginRun 2] in
  asserts [began true a; mx_poisoned (lk_run s2); began false b; negb (mx_poisoned (lk_run s3)); task_cancelled 0 s4;
    began true c].

(** For a clock after September 2020. *)
Definition now_timestamp_is_plausible : bool :=
  let ts := now_timestamp (Some (from_secs 1700000000 + 123456789)) in
  asserts [ts_seconds ts >? 1600000000; (0 <=? ts_nanos ts) && (ts_nanos ts <? 1000000000)].

Definition worker_rs : list bool :=
  [shared_rejects_concurrent_runs; shared_state_transitions; lock_recovers_from_poison;
   shared_state_recovers_from_poison; shared_run_recovers_from_poison_when_empty;
   shared_run_recovers_from_poison_with_active_run; now_timestamp_is_plausible].

(** Every restated test of the distributed mode passes on the model. *)
Theorem cluster_tests_pass :
  passed (registry_rs ++ barrier_rs ++ pipeline_rs ++ master_rs ++ telemetry_rs ++ worker_rs) = true.
Proof. vm_compute. reflexivity. Qed.
