(* ===== verification/TestsIntegration.v ===== *)
(** The integration tests of the distributed mode: [distributed/integration.rs]
    (a worker daemon against a scripted master) and
    [distributed/master/integration.rs] (a master and its workers).

    The scripted master is a state with the source's handlers; a [Rig] couples it
    with one [Session] of a worker, and a test is a schedule of the rig: which task
    takes the next step is given, what it does is the model's.  The run a START
    spawns is the [RunState] of [Orchestrator], built from the task the session
    holds.  The cluster test composes three runs with the real master through
    [cluster_trace].  Waiting for an event is the search [wait_for] of the source
    over the events recorded so far; its timeout has no counterpart. *)

From coqutil Require Import Datatypes.RecordSetters.
From S2P Require Import Prelude RustStr Float Histogram Chaos Samples Proto Registry Barrier WorkerState WorkerConfig Executor Telemetry Report Pipeline Master Worker WorkerSession System Orchestrator Cluster Conformance TestSupport.
Import DoubleBraceUpdate.

#[local] Open Scope Z_scope.
#[local] Open Scope rust_scope.

(** ** The scripted master *)

Inductive FakeEvent :=
  | FE_Registered (r : RegisterWorkerRequest)
  | FE_CommandsOpen
  | FE_Heartbeat (r : HeartbeatRequest)
  | FE_CommandAcked (r : CommandResponse)
  | FE_Batch (b : MetricBatch).

Record FakeMaster := mkFakeMaster {
  fm_events : list FakeEvent;
  fm_commands : option (list CommandRequest);   (** the stream last opened *)
  fm_heartbeat_ms : Z;
}.

Definition FakeMaster_new (heartbeat_ms : Z) : FakeMaster := mkFakeMaster [] None heartbeat_ms.

Definition fake_emit (e : FakeEvent) (m : FakeMaster) : FakeMaster :=
  mkFakeMaster (fm_events m ++ [e]) (fm_commands m) (fm_heartbeat_ms m).

Definition fake_send_command (command : CommandRequest) (m : FakeMaster) : FakeMaster :=
  match fm_commands m with
  | Some q => mkFakeMaster (fm_events m) (Some (q ++ [command])) (fm_heartbeat_ms m)
  | None => m
  end.

Definition fake_register_worker (request : RegisterWorkerRequest) (m : FakeMaster)
  : FakeMaster * RegisterWorkerResponse :=
  (fake_emit (FE_Registered request) m,
   mkRegisterWorkerResponse REGISTRATION_ACCEPTED "ack-1"
     (Some (ClusterConfiguration_default{{ cc_cluster_id := "test-cluster"%string;
        cc_heartbeat_interval_ms := fm_heartbeat_ms m; cc_metric_flush_interval_ms := 100 }})) "").

Definition fake_heartbeat (request : HeartbeatRequest) (m : FakeMaster) : FakeMaster * HeartbeatResponse :=
  (fake_emit (FE_Heartbeat request) m,
   mkHeartbeatResponse (HeartbeatDirective_to_i32 HD_Continue) (fm_heartbeat_ms m) "" "").

Definition fake_watch_commands (m : FakeMaster) : FakeMaster :=
  fake_emit FE_CommandsOpen (mkFakeMaster (fm_events m) (Some []) (fm_heartbeat_ms m)).

Definition fake_acknowledge_command (response : CommandResponse) (m : FakeMaster) : FakeMaster :=
  fake_emit (FE_CommandAcked response) m.

(** The messages of a stream that ends without an error. *)
Definition fake_stream_metrics (batches : list MetricBatch) (m : FakeMaster) : FakeMaster * StreamAcknowledgment :=
  let '(accepted, requests, last, m) :=
    foldl (fun '(accepted, requests, last, m) batch =>
             (wrap32 (accepted + 1), requests +! mb_total_requests batch, mb_batch_id batch,
              fake_emit (FE_Batch batch) m)) (0, 0, ""%string, m) batches in
  (m, mkStreamAcknowledgment "" accepted requests false "" last).

(** [TestCluster::wait_for]: the next matching event, dropping the others. *)
Fixpoint wait_for {A} (pred : FakeEvent -> option A) (events : list FakeEvent) : option (A * list FakeEvent) :=
  match events with
  | [] => None
  | e :: events => match pred e with Some x => Some (x, events) | None => wait_for pred events end
  end.

Definition wait_for_registration : list FakeEvent -> option (RegisterWorkerRequest * list FakeEvent) :=
  wait_for (fun e => match e with FE_Registered r => Some r | _ => None end).
Definition wait_for_commands_open : list FakeEvent -> option (unit * list FakeEvent) :=
  wait_for (fun e => match e with FE_CommandsOpen => Some () | _ => None end).
Definition wait_for_heartbeat : list FakeEvent -> option (HeartbeatRequest * list FakeEvent) :=
  wait_for (fun e => match e with FE_Heartbeat r => Some r | _ => None end).
Definition wait_for_batch : list FakeEvent -> option (MetricBatch * list FakeEvent) :=
  wait_for (fun e => match e with FE_Batch b => Some b | _ => None end).
Definition wait_for_ack (command_id : string) : list FakeEvent -> option (CommandResponse * list FakeEvent) :=
  wait_for (fun e => match e with
                     | FE_CommandAcked a => if bool_decide (cp_command_id a = command_id) then Some a else None
                     | _ => None
                     end).

(** ** A worker and its master *)

Record Rig := mkRig {
  rg_params : RunParams;
  rg_master : FakeMaster;
  rg_session : Session;
}.

Inductive RigEvent :=
  | RG_Heartbeat                      (** a heartbeat and its reply *)
  | RG_Test (c : CommandRequest)      (** the test delivers a command *)
  | RG_Receive (now_secs : Z)         (** the worker reads the next command *)
  | RG_Session (e : SessionEvent)
  | RG_Ack
  | RG_Stream (batches : list MetricBatch).

Definition rig_exec (e : RigEvent) (r : Rig) : option Rig :=
  let params := rg_params r in
  let m := rg_master r in
  match e with
  | RG_Heartbeat =>
      s ← session_exec params SE_HeartbeatSend (rg_session r);
      request ← last (sn_heartbeats s);
      let (m, reply) := fake_heartbeat request m in
      s ← session_exec params (SE_HeartbeatReply (Ok reply)) s;
      Some (mkRig params m s)
  | RG_Test c => Some (mkRig params (fake_send_command c m) (rg_session r))
  | RG_Receive now =>
      match fm_commands m with
      | Some (c :: q) =>
          s ← session_exec params (SE_Message (Ok (Some c)) now) (rg_session r);
          Some (mkRig params (mkFakeMaster (fm_events m) (Some q) (fm_heartbeat_ms m)) s)
      | _ => None
      end
  | RG_Session e => s ← session_exec params e (rg_session r); Some (mkRig params m s)
  | RG_Ack =>
      s ← session_exec params (SE_Acked (Ok ())) (rg_session r);
      a ← last (sn_acks s);
      Some (mkRig params (fake_acknowledge_command a m) s)
  | RG_Stream bs => Some (mkRig params (fake_stream_metrics bs m).1 (rg_session r))
  end.

Definition rig_run (es : list RigEvent) (r : Rig) : option Rig := foldl (fun r e => r ≫= rig_exec e) (Some r) es.

Definition test_timestamp : Timestamp := mkTimestamp 1700000000 0.
Definition test_capacity : ResourceCapacity := capacity 4 8000000000 4000000000.

(** [Worker::new] and the beginning of [Worker::run]: register and open the command
    stream. *)
Definition spawn_daemon (c : WorkerConfig) (m : FakeMaster) : option Rig :=
  match Worker_params None None c, labels_map c with
  | Ok params, Ok labels =>
      let (m, reply) := fake_register_worker (registration_request params (resolved_hostname None c)
        (resolved_ip_address c) "0.0.0" labels test_capacity test_timestamp) m in
      match establish c (Ok ()) (Ok ()) (Ok reply) with
      | Ok (_, s) => Some (mkRig params (fake_watch_commands m) s)
      | Err _ => None
      end
  | _, _ => None
  end.

Definition worker_config (endpoint id : string) (max_vus : Z) : WorkerConfig :=
  mkWorkerConfig endpoint (Some id) (Some "test-host"%string) (Some "127.0.0.1"%string) max_vus ["zone=test"%string]
    50 100 1000 false.

Definition endpoint_at (url : string) : TargetEndpoint := mkTargetEndpoint url "" (S754_zero false).

Definition test_start_command (run_id url command_id : string) : CommandRequest :=
  mkCommandRequest (CommandType_to_i32 CT_Start) command_id run_id
    (Some (mkTestConfiguration run_id [endpoint_at url] (Some (mkProtoDuration 5 0)) 2 1000 [] [] "")) 0.

Definition test_stop_command (run_id command_id : string) : CommandRequest :=
  mkCommandRequest (CommandType_to_i32 CT_Stop) command_id run_id None 0.

(** A test that boots a worker and runs a schedule. *)
Definition with_daemon (id : string) (max_vus : Z) (es : list RigEvent) (f : Rig -> bool) : bool :=
  on_some (spawn_daemon (worker_config "http://127.0.0.1:50051" id max_vus) (FakeMaster_new 50)) (fun rig =>
    on_some (rig_run es rig) f).

(** ** [distributed/integration.rs] *)

Definition registration_is_received : bool :=
  with_daemon "worker-a" 8 [] (fun rig =>
    on_some (wait_for_registration (fm_events (rg_master rig))) (fun '(registration, _) =>
      asserts [assert_eq (rw_worker_id registration) "worker-a"%string;
        assert_eq (rw_max_concurrency_vus registration) 8; assert_eq (rw_hostname registration) "test-host"%string;
        assert_eq (rw_labels registration !! "zone"%string) (Some "test"%string);
        is_some (rw_capacity registration)])).

Definition heartbeat_reports_ready_state : bool :=
  with_daemon "worker-b" 4 [RG_Heartbeat] (fun rig =>
    on_some (wait_for_heartbeat (fm_events (rg_master rig))) (fun '(heartbeat, _) =>
      asserts [assert_eq (hb_worker_id heartbeat) "worker-b"%string;
        assert_eq (hb_state heartbeat) (ProtoWorkerState_to_i32 (as_proto WS_Ready));
        assert_eq (hb_active_vus heartbeat) 0])).

(** The run task of the session as a state of the orchestrator. *)
Definition run_task_state (id : Z) (rig : Rig) : option RunState :=
  t ← sh_tasks (sn_shared (rg_session rig)) !! id;
  active ← sn_seen (rg_session rig) !! id;
  Some (RunState_new 1000 (rp_worker_id (rg_params rig)) (tk_run_id t) (rp_window (rg_params rig))
          (Z.to_nat (tk_virtual_users t)) active).

(** What a virtual user records for a connection to the target. *)
Definition metric_of (c : Connection) : RequestMetric :=
  if answered c then b_status 200 (builder 1500 None) else error_metric 1500 None.

Definition request_to_target : Connection :=
  mkConnection (Ok <$> [lit "GET / HTTP/1.1\r\nHost: 127.0.0.1\r\n"; lit "\r\n"]) (Ok (), Ok (), Ok ()).

Definition caps : nat * nat := (Z.to_nat METRIC_CHANNEL_CAPACITY, Z.to_nat BATCH_CHANNEL_CAPACITY).
Definition orchestrate (es : list RunEvent) (s : RunState) : option RunState := run_events caps.1 caps.2 true es s.

(** One iteration of each of two virtual users, and the batch of the window. *)
Definition first_window (conn : Connection) : list RunEvent :=
  [OE_Iterate; OE_Iterate; OE_IterationDone (metric_of conn); OE_IterationDone (metric_of conn); OE_VuSends 0;
   OE_VuSends 0; OE_Collect; OE_Collect; OE_Tick 1100; OE_BatchSend 1100; OE_Upload].

(** The token is cancelled and the run winds down. *)
Definition wind_down : list RunEvent :=
  [OE_Cancel; OE_VuStops; OE_VuStops; OE_SeeCancel 1200; OE_VusJoined; OE_UploadAcked; OE_UploadJoined].

Definition run_done (s : RunState) : bool := match ro_phase s with P_Done => true | _ => false end.

Definition full_control_plane_flow : bool :=
  let steps := RG_Session <$> [SE_CommandStep; SE_CommandStep; SE_CommandStep] in
  with_daemon "worker-c" 8
    ([RG_Heartbeat; RG_Test (test_start_command "run-1" "http://127.0.0.1:8080" "cmd-start"); RG_Receive 7]
     ++ steps ++ [RG_Ack; RG_Session (SE_TaskReads 0)]) (fun rig =>
  on_some (run_task_state 0 rig ≫= orchestrate (first_window request_to_target)) (fun run =>
  on_some (rig_run ([RG_Stream (ro_wire run); RG_Test (test_stop_command "run-1" "cmd-stop"); RG_Receive 9]
     ++ (RG_Session <$> [SE_TaskStores 0; SE_TaskEnds 0]) ++ steps ++ [RG_Ack]
     ++ (RG_Session <$> [SE_Shutdown; SE_Select W_Shutdown; SE_SessionStep; SE_SessionStep])) rig) (fun stopped =>
  on_some (wait_for_registration (fm_events (rg_master stopped))) (fun '(_, events) =>
  on_some (wait_for_commands_open events) (fun '(_, events) =>
  on_some (wait_for_heartbeat events) (fun '(_, events) =>
  on_some (wait_for_ack "cmd-start" events) (fun '(ack, events) =>
  on_some (wait_for_batch events) (fun '(batch, events) =>
  on_some (mb_latency batch) (fun latency =>
  on_some (wait_for_ack "cmd-stop" events) (fun '(stop_ack, _) =>
    asserts [assert_eq (cp_status ack) (CommandStatus_to_i32 CS_Acknowledged);
      Nat.ltb 0 (hits [request_to_target; request_to_target]);
      assert_eq (mb_worker_id batch) "worker-c"%string; assert_eq (mb_test_run_id batch) "run-1"%string;
      mb_total_requests batch >? 0; mb_success_count batch >=? 1;
      assert_eq (length (ls_bucket_counts latency)) 10%nat; f64_geb (ls_p99_ms latency) (ls_p50_ms latency);
      assert_eq (cp_status stop_ack) (CommandStatus_to_i32 CS_Completed);
      on_some (orchestrate wind_down run) run_done;
      match sn_phase (rg_session stopped) with SN_Returned (Ok _) => true | _ => false end])))))))))).

Definition start_without_configuration_is_rejected : bool :=
  let bad_start := mkCommandRequest (CommandType_to_i32 CT_Start) "cmd-bad" "run-bad" None 0 in
  with_daemon "worker-d" 4 [RG_Test bad_start; RG_Receive 7; RG_Ack] (fun rig =>
    on_some (wait_for_ack "cmd-bad" (fm_events (rg_master rig))) (fun '(ack, _) =>
      asserts [assert_eq (cp_status ack) (CommandStatus_to_i32 CS_Rejected);
        negb (str_is_empty (cp_error_message ack))])).

Definition integration_rs : list bool :=
  [registration_is_received; heartbeat_reports_ready_state; full_control_plane_flow;
   start_without_configuration_is_rejected].

(** ** [distributed/master/integration.rs] *)

Definition cluster_master_config (port : Z) : MasterConfig :=
  MasterConfig_defaults{{ mc_bind_address := "127.0.0.1"%string; mc_port := port; mc_heartbeat_interval_ms := 50;
    mc_worker_timeout_ms := 2000; mc_barrier_timeout_ms := 15000 }}.

(** [spawn_worker]: the parameters of the daemon and the requests that make it ready. *)
Definition cluster_worker_config (endpoint id : string) : WorkerConfig :=
  mkWorkerConfig endpoint (Some id) (Some id) (Some "127.0.0.1"%string) 8 [] 50 100 1000 false.

Definition joining (c : WorkerConfig) (params : RunParams) : list MasterEvent :=
  [MERegister 0 (registration_request params (resolved_hostname None c) (resolved_ip_address c) "0.0.0" ∅
     test_capacity test_timestamp);
   MEHeartbeat 1 (heartbeat_request params Shared_new); MEWatch (rp_worker_id params)].

Definition spawn_cluster_worker (s : MasterState) (id : string) : MasterState * list RunParams :=
  let c := cluster_worker_config (ms_master_endpoint s) id in
  match Worker_params None None c with
  | Ok params => (master_steps s (joining c params), [params])
  | Err _ => (s, [])
  end.

Definition spawn_cluster (s : MasterState) (ids : list string) : MasterState * list RunParams :=
  foldl (fun '(s, ps) id => let (s, p) := spawn_cluster_worker s id in (s, ps ++ p)) (s, []) ids.

Definition cluster_run_config : TestConfiguration :=
  mkTestConfiguration "cluster-run" [endpoint_at "http://127.0.0.1:8080"] (Some (mkProtoDuration 2 0)) 2 1000 [] [] "".

(** A worker's side of the run: START acknowledged, a first window, the end of the
    duration, the last batch and the end of the stream. *)
Definition acknowledges (command : CommandRequest) (params : RunParams) : list ClusterEvent :=
  [CE_Other (MEAck (handle_command params command 7 Shared_new).2)].

(** The run the START spawned. *)
Definition started_node (command : CommandRequest) (params : RunParams) : option NodeStart :=
  t ← sh_tasks (handle_command params command 7 Shared_new).1 !! 0;
  Some (mkNodeStart params 7 1000 (Z.to_nat (tk_virtual_users t)) (tk_virtual_users t)).

Definition traffic (conn : Connection) (i : nat) : list ClusterEvent :=
  (CE_Run i <$> first_window conn) ++ [CE_Deliver i].

Definition finishes (conn : Connection) (i : nat) : list ClusterEvent :=
  (CE_Run i <$> [OE_Iterate; OE_IterationDone (metric_of conn); OE_VuSends 0; OE_Collect; OE_VuStops; OE_VuStops;
     OE_SeeClosed 3000; OE_BatchSend 3000; OE_VusJoined; OE_Upload])
  ++ [CE_Deliver i; CE_Close i] ++ (CE_Run i <$> [OE_UploadAcked; OE_UploadJoined]).

(** The live snapshots a run published. *)
Definition snapshots_of (s : MasterState) : list LiveSnapshot :=
  map_values (ms_pipelines s) ≫= fun t =>
    omap (fun e => match e with PE_Published l => Some l | _ => None end) (run_pipeline (pt_initial t) (pt_queue t)).2.

Definition multi_worker_cluster_run : bool :=
  let c := cluster_master_config 50051 in
  let conn := request_to_target in
  on_ok (MasterState_new Ok c) (fun handle =>
  let (handle, workers) := spawn_cluster handle ["w0"; "w1"; "w2"]%string in
  on_some (wait_for_ready 3 0 (barrier_timeout c) [(ms_registry handle, 2)]) (fun barrier =>
  let run_id := resolve_run_id 5 cluster_run_config in
  let command := start_command run_id ("cmd-" ++ run_id ++ "-start") (with_run_id run_id cluster_run_config) in
  let starts := omap (started_node command) workers in
  let schedule := (workers ≫= acknowledges command) ++ ([0; 1; 2]%nat ≫= traffic conn) ++ ([0; 1; 2]%nat ≫= finishes conn) in
  on_some (cluster_trace caps.1 caps.2 true schedule (Node_new command <$> starts)) (fun '(nodes, evs) =>
  on_some (start_run cluster_run_config barrier 5 2 [] [] [([], 3); (evs, from_secs 2)] handle) (fun '(handle, r) =>
  on_ok r (fun report =>
    let snapshots := snapshots_of handle in
    let share_sum := foldl f64_add f64_zero (wsh_share_percent <$> gr_worker_shares report) in
    asserts [registry_len (ms_registry handle) >=? 3; assert_eq (gr_test_run_id report) "cluster-run"%string;
      assert_eq (gr_worker_count report) 3; gr_total_requests report >? 0;
      assert_eq (gr_total_requests report) (gr_success_count report + gr_failure_count report);
      Nat.ltb 0 (hits (replicate 9 conn)); assert_eq (length (gl_bucket_counts (gr_latency report))) 10%nat;
      f64_gtb (gr_rps report) f64_zero; negb (bool_decide (length snapshots = 0%nat));
      existsb (fun s => f64_gtb (lv_rps s) f64_zero) snapshots;
      forallb (fun s => bool_decide (lv_run_id s = "cluster-run"%string)) snapshots;
      negb (Nat.eqb (length (gr_timeline report)) 0); assert_eq (length (gr_worker_shares report)) 3%nat;
      assert_near share_sum (f64_of_Z 100) (f64_lit 1 100)]))))).

Definition barrier_times_out_with_too_few_workers : bool :=
  let c := (cluster_master_config 50051){{ mc_barrier_timeout_ms := 200 }} in
  on_ok (MasterState_new Ok c) (fun handle =>
  on_some (wait_for_ready 5 0 (barrier_timeout c) [(ms_registry handle, 0); (ms_registry handle, from_millis 200)])
    (fun barrier =>
  on_some (start_run (mkTestConfiguration "" [] (Some (mkProtoDuration 1 0)) 0 0 [] [] "") barrier 0 0 [] [] [] handle)
    (fun '(_, r) => on_err r (fun e => match e with ME_BarrierTimeout _ _ => true | _ => false end)))).

Definition master_integration_rs : list bool := [multi_worker_cluster_run; barrier_times_out_with_too_few_workers].

(** Every integration test of the distributed mode passes on the model. *)
Theorem integration_tests_pass : passed (integration_rs ++ master_integration_rs) = true.
Proof. vm_compute. reflexivity. Qed.
