(* ===== verification/TestsStomp.v ===== *)
(** The unit tests of the STOMP codec and engine ([src/protocols/stomp_codec.rs]
    and [stomp.rs]).  The in-process broker of the engine tests is a function
    from the frames it receives to the frames it answers; a test runs the engine
    on a script of reads and checks that the script is what the broker answers
    to the bytes the engine wrote. *)

From S2P Require Import Prelude RustStr Json Float Chaos Samples StompCodec LoadProfile Config LocalRun StompEngine Conformance.

#[local] Open Scope Z_scope.

(** ** [stomp_codec.rs] *)

(** [None] where [next_frame().unwrap()] panics. *)
Definition decode_all (b : bytes) : option (list Frame) :=
  match drain (S (length b)) (push b Decoder_new) with
  | (_, frames, NeedMore) => Some frames
  | _ => None
  end.
Definition first_frame (b : bytes) (f : Frame -> bool) : bool :=
  on_some (decode_all b) (fun frames => on_some (frames !! 0%nat) f).
Definition next_error (b : bytes) : option CodecError :=
  match (next_frame (push b Decoder_new)).2 with DecodeError e => Some e | _ => None end.

Definition encodes_and_decodes_a_simple_frame : bool :=
  let frame := StompCodec.with_body (as_bytes "hello") (with_header "destination" "/queue/orders" (Frame_new "SEND")) in
  on_some (decode_all (encode frame)) (fun decoded =>
    asserts [assert_eq (length decoded) 1%nat; assert_eq (command <$> decoded) ["SEND"%string];
      assert_eq (header "destination" <$> decoded) [Some "/queue/orders"%string];
      assert_eq (body <$> decoded) [as_bytes "hello"]]).
Definition content_length_preserves_embedded_nulls : bool :=
  let b := lit "a\0b\0c" in
  let frame := StompCodec.with_body b
    (with_header "content-length" (u64_to_string (Z.of_nat (length b))) (Frame_new "MESSAGE")) in
  first_frame (encode frame) (fun f => assert_eq (body f) b).
Definition without_content_length_body_stops_at_first_null : bool :=
  first_frame (lit "SEND\ndestination:/q\n\nabc\0") (fun f => assert_eq (body f) (as_bytes "abc")).
Definition trailing_eol_before_null_is_not_part_of_body : bool :=
  first_frame (lit "SEND\n\npayload\n\0") (fun f => assert_eq (body f) (as_bytes "payload")).
Definition header_escaping_roundtrips : bool :=
  let value := of_bytes (lit "a:b\nc\rd\\e") in
  first_frame (encode (with_header "x" value (Frame_new "SEND"))) (fun f => assert_eq (header "x" f) (Some value)).

Fixpoint byte_by_byte (bs : bytes) (d : Decoder) : Decoder * bool :=
  match bs with
  | [] => (d, true)
  | b :: bs =>
      match next_frame (push [b] d) with
      | (d, NeedMore) => byte_by_byte bs d
      | (d, _) => (d, false)
      end
  end.
Definition partial_frame_yields_none_until_complete : bool :=
  let bytes := encode (StompCodec.with_body (as_bytes "body") (with_header "destination" "/q" (Frame_new "SEND"))) in
  let n := (length bytes - 1)%nat in
  let (decoder, early) := byte_by_byte (take n bytes) Decoder_new in
  early && match (next_frame (push (drop n bytes) decoder)).2 with
           | Decoded frame => assert_eq (body frame) (as_bytes "body")
           | _ => false
           end.
Definition multiple_frames_in_one_buffer : bool :=
  let one b := encode (StompCodec.with_body (as_bytes b) (Frame_new "SEND")) in
  on_some (decode_all (one "a" ++ one "b")) (fun decoded =>
    asserts [assert_eq (length decoded) 2%nat; assert_eq (body <$> decoded) [as_bytes "a"; as_bytes "b"]]).
Definition leading_heartbeats_are_skipped : bool :=
  on_some (decode_all (lit "\n\n\r\nSEND\n\nyo\0")) (fun decoded =>
    asserts [assert_eq (length decoded) 1%nat; assert_eq (command <$> decoded) ["SEND"%string]]).
Definition missing_null_terminator_returns_none : bool :=
  match (next_frame (push (lit "SEND\n\npartial body without terminator") Decoder_new)).2 with
  | NeedMore => true
  | _ => false
  end.
Definition malformed_header_without_colon_errors : bool :=
  assert_eq (next_error (lit "SEND\nbroken-header\n\n\0")) (Some MissingHeaderValue).
Definition dangling_escape_errors : bool :=
  assert_eq (next_error (lit "SEND\nx:value\\\n\n\0")) (Some TrailingEscape).
Definition unknown_escape_errors : bool := assert_eq (next_error (lit "SEND\nx:va\\zlue\n\n\0")) (Some InvalidEscape).
Definition content_length_without_null_errors : bool :=
  assert_eq (next_error (lit "SEND\ncontent-length:5\n\nhelloX")) (Some MissingNull).
Definition duplicate_headers_are_preserved_first_wins : bool :=
  first_frame (lit "MESSAGE\nfoo:1\nfoo:2\n\n\0") (fun f =>
    asserts [assert_eq (length (headers f)) 2%nat; assert_eq (header "foo" f) (Some "1"%string)]).
Definition crlf_line_endings_are_tolerated : bool :=
  first_frame (lit "SEND\r\ndestination:/q\r\n\r\nbody\0") (fun f =>
    asserts [assert_eq (command f) "SEND"%string; assert_eq (header "destination" f) (Some "/q"%string);
      assert_eq (body f) (as_bytes "body")]).

Fixpoint send_and_decode (n : nat) (d : Decoder) : Decoder * bool :=
  match n with
  | O => (d, true)
  | S n =>
      match next_frame (push (encode (StompCodec.with_body (replicate 200 "x"%char) (Frame_new "SEND"))) d) with
      | (d, Decoded frame) => let (d, ok) := send_and_decode n d in (d, assert_eq (length (body frame)) 200%nat && ok)
      | (d, _) => (d, false)
      end
  end.
Definition compact_reclaims_consumed_bytes : bool :=
  let (decoder, all) := send_and_decode 40 Decoder_new in all && (pending decoder <? 512).

Definition stomp_codec_rs : list bool :=
  [encodes_and_decodes_a_simple_frame; content_length_preserves_embedded_nulls;
   without_content_length_body_stops_at_first_null; trailing_eol_before_null_is_not_part_of_body;
   header_escaping_roundtrips; partial_frame_yields_none_until_complete; multiple_frames_in_one_buffer;
   leading_heartbeats_are_skipped; missing_null_terminator_returns_none; malformed_header_without_colon_errors;
   dangling_escape_errors; unknown_escape_errors; content_length_without_null_errors;
   duplicate_headers_are_preserved_first_wins; crlf_line_endings_are_tolerated; compact_reclaims_consumed_bytes].

(** ** [stomp.rs] *)

Inductive Behavior := AcceptSends | PushMessages (count : nat) | RejectConnect | SlowReceipt (d : duration).

(** The answers to one frame, and whether the connection stays open. *)
Definition serve_frame (behavior : Behavior) (frame : Frame) : list Frame * bool :=
  let cmd := command frame in
  if String.eqb cmd "CONNECT" then
    match behavior with
    | RejectConnect =>
        ([StompCodec.with_body (as_bytes "rejected") (with_header "message" "nope" (Frame_new "ERROR"))], false)
    | _ => ([with_header "version" "1.2" (Frame_new "CONNECTED")], true)
    end
  else if String.eqb cmd "SUBSCRIBE" then
    match behavior with
    | PushMessages count =>
        ((fun i => let i := u64_to_string (Z.of_nat i) in
           StompCodec.with_body (as_bytes ("payload-" ++ i))
             (with_header "ack" ("a-" ++ i)%string (with_header "message-id" ("m-" ++ i)%string
               (with_header "subscription" "sub-0"
                 (with_header "destination" (default "/q"%string (header "destination" frame))
                   (Frame_new "MESSAGE")))))) <$> seq 0 count, true)
    | _ => ([], true)
    end
  else if String.eqb cmd "SEND" then
    match header "receipt" frame with
    | Some receipt => ([with_header "receipt-id" receipt (Frame_new "RECEIPT")], true)
    | None => ([], true)
    end
  else ([], true).

(** The broker on a stream of frames, until it closes the connection. *)
Fixpoint serve (behavior : Behavior) (frames : list Frame) : list Frame :=
  match frames with
  | [] => []
  | f :: frames => let (replies, open) := serve_frame behavior f in replies ++ (if open then serve behavior frames else [])
  end.

Definition engine_new (mode : StompMode) (ack : StompAck) (receipt : bool) : result string StompEngine :=
  StompEngine_new "stomp://127.0.0.1:61613" "/queue/test" mode ack receipt (as_bytes "hello") []
    (ChaosEngine_new false f64_zero) 5.
Definition engine (mode : StompMode) (receipt : bool) : result string StompEngine := engine_new mode AckAuto receipt.
Definition engine_with_ack (mode : StompMode) (ack : StompAck) : result string StompEngine := engine_new mode ack false.

(** One connection to the broker; the clock advances by [step] at each reading. *)
Definition connect_to (replies : list Frame) (step : Z) (e : StompEngine) : World :=
  mkWorld (new_session e)
    (mkNet [IoOk ()] (replicate 8 WriteOk) (IoOk <$> (encode <$> replies)) (fun i => Z.of_nat i * step) 0 0 []).
Definition received (w : World) : option (list Frame) := decode_all (concat (snd <$> nt_wire (w_net w))).
(** The replies the engine was given are those of the broker to what it wrote. *)
Definition faithful (behavior : Behavior) (replies : list Frame) (w : World) : bool :=
  on_some (received w) (fun frames =>
    assert_eq (encode <$> replies) (take (length replies) (encode <$> serve behavior frames))).
Definition iterate (e : StompEngine) (w : World) : option RequestMetric * World :=
  match stomp_run_iteration e f64_zero 0 w with (Ret m, w) => (Some m, w) | (_, w) => (None, w) end.

Definition connected_reply : Frame := with_header "version" "1.2" (Frame_new "CONNECTED").
Definition subscribe_replies (count : nat) : list Frame :=
  (serve_frame (PushMessages count) (with_header "destination" "/queue/test" (Frame_new "SUBSCRIBE"))).1.

Definition ack_frame_has_id_without_transaction : bool :=
  let frame := ack_frame "a-0" in
  asserts [assert_eq (command frame) "ACK"%string; assert_eq (header "id" frame) (Some "a-0"%string);
    negb (is_some (header "transaction" frame))].

Definition consume_with_client_ack_sends_valid_ack : bool :=
  let replies := connected_reply :: subscribe_replies 1 in
  on_ok (engine_with_ack Consume AckClient) (fun eng =>
    let (metric, w) := iterate eng (connect_to replies 1000000 eng) in
    on_some metric (fun metric => on_some (rm_stomp metric) (fun sample =>
    on_some (received w) (fun frames =>
      let acks := filter (fun f => command f = "ACK"%string) frames in
      asserts [faithful (PushMessages 1) replies w; assert_eq (status_code metric) 200;
        assert_eq (sts_messages_received sample) 1; assert_eq (length acks) 1%nat;
        assert_eq (header "id" <$> acks) [Some "a-0"%string];
        assert_eq (is_some ∘ header "transaction" <$> acks) [false]])))).

Definition rejects_tls_scheme : bool :=
  on_err (StompEngine_new "stomps://127.0.0.1:61613" "/q" Produce AckAuto false [] [] (ChaosEngine_new false f64_zero) 5)
    (fun e => str_contains e "TLS").
Definition defaults_port_and_rejects_missing_host : bool :=
  asserts [on_ok (parse_authority "stomp://example.test") (fun a => assert_eq a "example.test:61613"%string);
    on_ok (parse_authority "stomp://example.test:61614") (fun a => assert_eq a "example.test:61614"%string);
    on_err (parse_authority "stomp://") (fun _ => true); on_err (parse_authority "http://x") (fun _ => true)].
Definition empty_destination_is_rejected : bool :=
  on_err (StompEngine_new "stomp://127.0.0.1:61613" "  " Produce AckAuto false [] [] (ChaosEngine_new false f64_zero) 5)
    (fun e => str_contains e "destination").

Definition produce_fire_and_forget_reports_success : bool :=
  on_ok (engine Produce false) (fun eng =>
    let (metric, w) := iterate eng (connect_to [connected_reply] 1000000 eng) in
    on_some metric (fun metric => on_some (rm_stomp metric) (fun sample =>
      asserts [faithful AcceptSends [connected_reply] w; assert_eq (status_code metric) 200;
        assert_eq (sts_messages_sent sample) 1; is_some (sts_send_latency_us sample);
        0 <? sts_bytes_sent sample]))).

(** The broker's delay is the time between the two clock readings. *)
Definition produce_with_receipt_awaits_broker_ack : bool :=
  let replies := [connected_reply; with_header "receipt-id" "r-1" (Frame_new "RECEIPT")] in
  on_ok (engine Produce true) (fun eng =>
    let (metric, w) := iterate eng (connect_to replies (from_millis 20) eng) in
    on_some metric (fun metric => on_some (rm_stomp metric) (fun sample =>
      asserts [faithful (SlowReceipt (from_millis 20)) replies w; assert_eq (status_code metric) 200;
        on_some (sts_send_latency_us sample) (fun us => 20000 <=? us)]))).

Definition consume_reports_ttfm_then_interval : bool :=
  let replies := connected_reply :: subscribe_replies 2 in
  on_ok (engine Consume false) (fun eng =>
    let (first, w) := iterate eng (connect_to replies 1000000 eng) in
    let (second, w) := iterate eng w in
    on_some first (fun first => on_some (rm_stomp first) (fun s1 =>
    on_some second (fun second => on_some (rm_stomp second) (fun s2 =>
      asserts [faithful (PushMessages 2) replies w; assert_eq (status_code first) 200;
        assert_eq (sts_messages_received s1) 1; is_some (sts_ttfm_us s1); negb (is_some (sts_receive_interval_us s1));
        assert_eq (sts_messages_received s2) 1; negb (is_some (sts_ttfm_us s2));
        is_some (sts_receive_interval_us s2)]))))).

Definition connect_rejection_is_an_error : bool :=
  let replies := (serve_frame RejectConnect connect_frame).1 in
  on_ok (engine Produce false) (fun eng =>
    let (metric, w) := iterate eng (connect_to replies 1000000 eng) in
    on_some metric (fun metric => on_some (rm_stomp metric) (fun sample =>
      asserts [faithful RejectConnect replies w; assert_eq (status_code metric) 0; assert_eq (sts_errors sample) 1]))).

Definition broker_close_mid_session_is_an_error : bool :=
  on_ok (engine Produce false) (fun eng =>
    let (first, w) := iterate eng (connect_to [connected_reply] 1000000 eng) in
    let (second, w) := iterate eng w in
    asserts [faithful AcceptSends [connected_reply] w; assert_eq (status_code <$> first) (Some 200);
      assert_eq (status_code <$> second) (Some 200)]).

Definition shutdown_sends_disconnect : bool :=
  on_ok (engine Produce false) (fun eng =>
    let (metric, w) := iterate eng (connect_to [connected_reply] 1000000 eng) in
    match stomp_shutdown w with
    | (Ret _, w) =>
        asserts [assert_eq (ss_stream (w_sess w)) None; negb (ss_connected (w_sess w));
          on_some (received w) (fun frames => assert_eq (command <$> last frames) (Some "DISCONNECT"%string))]
    | _ => false
    end).

Definition stomp_rs : list bool :=
  [ack_frame_has_id_without_transaction; consume_with_client_ack_sends_valid_ack; rejects_tls_scheme;
   defaults_port_and_rejects_missing_host; empty_destination_is_rejected; produce_fire_and_forget_reports_success;
   produce_with_receipt_awaits_broker_ack; consume_reports_ttfm_then_interval; connect_rejection_is_an_error;
   broker_close_mid_session_is_an_error; shutdown_sends_disconnect].

(** Every restated test of the STOMP codec and engine passes on the model. *)
Theorem stomp_tests_pass : passed (stomp_codec_rs ++ stomp_rs) = true.
Proof. vm_compute. reflexivity. Qed.
