(* ===== verification/TestsSse.v ===== *)
(** The unit tests of the server-sent events engine ([src/protocols/sse.rs]).
    The raw local server of the engine tests is the list of chunks a connection
    to it delivers. *)

From S2P Require Import Prelude RustStr Float Chaos Samples Sse Conformance.

#[local] Open Scope Z_scope.

(** ** Parsing *)

Definition texts (events : list SseEvent) : list string := (fun e => of_bytes (ev_data e)) <$> events.
Definition parse_all (chunk : string) : list SseEvent := (parse_sse_chunk [] (lit chunk)).1.

Definition test_parse_single_frame : bool :=
  let events := parse_all "data: hello\n\n" in
  asserts [assert_eq (texts events) ["hello"%string]; assert_eq (ev_event_type <$> events) [[]]].
Definition test_parse_multiple_frames : bool :=
  assert_eq (texts (parse_all "data: first\n\ndata: second\n\n")) ["first"; "second"]%string.
Definition test_parse_split_across_chunks : bool :=
  let (events1, buffer) := parse_sse_chunk [] (lit "data: hel") in
  asserts [assert_eq (texts events1) [];
    assert_eq (texts (parse_sse_chunk buffer (lit "lo\n\n")).1) ["hello"%string]].
Definition test_parse_crlf_separator : bool :=
  assert_eq (texts (parse_all "data: crlf-test\r\n\r\n")) ["crlf-test"%string].
Definition test_parse_event_type : bool :=
  let events := parse_all "event: message\ndata: payload\n\n" in
  asserts [assert_eq (ev_event_type <$> events) [as_bytes "message"]; assert_eq (texts events) ["payload"%string]].
Definition test_parse_data_concatenation : bool :=
  assert_eq (texts (parse_all "data: line1\ndata: line2\ndata: line3\n\n")) [of_bytes (lit "line1\nline2\nline3")].
Definition test_parse_id_field : bool :=
  assert_eq (ev_id <$> parse_all "id: 42\ndata: test\n\n") [Some (as_bytes "42")].
Definition test_parse_comment_ignored : bool :=
  assert_eq (texts (parse_all ": this is a comment\ndata: real\n\n")) ["real"%string].
Definition test_parse_empty_data_no_event : bool := assert_eq (texts (parse_all "event: ping\n\n")) [].
Definition test_parse_data_with_space_prefix : bool :=
  assert_eq (texts (parse_all "data: with space\n\n")) ["with space"%string].
Definition test_parse_data_without_space_prefix : bool :=
  assert_eq (texts (parse_all "data:nospace\n\n")) ["nospace"%string].
Definition test_buffer_partial_frame_persists : bool :=
  assert_eq (parse_sse_chunk [] (lit "data: partial")).2 (lit "data: partial").
Definition test_multiple_delimiters_in_buffer : bool :=
  assert_eq (texts (parse_all "data: a\n\ndata: b\r\n\r\ndata: c\n\n")) ["a"; "b"; "c"]%string.
Definition test_mixed_delimiters_split : bool :=
  let (events1, buffer) := parse_sse_chunk [] (lit "data: x\r\n\r") in
  asserts [assert_eq (texts events1) [];
    assert_eq (texts (parse_sse_chunk buffer (lit "\ndata: y\n\n")).1) ["x"; "y"]%string].

Definition parser_tests : list bool :=
  [test_parse_single_frame; test_parse_multiple_frames; test_parse_split_across_chunks; test_parse_crlf_separator;
   test_parse_event_type; test_parse_data_concatenation; test_parse_id_field; test_parse_comment_ignored;
   test_parse_empty_data_no_event; test_parse_data_with_space_prefix; test_parse_data_without_space_prefix;
   test_buffer_partial_frame_persists; test_multiple_delimiters_in_buffer; test_mixed_delimiters_split].

(** ** The engine against the raw server *)

Inductive Mode := Eof | ShortBody | DelayedFirst | TwoEvents.

(** What a connection delivers: the events, then a clean close, or a premature
    close when the announced body is missing. *)
Definition raw_sse_server (mode : Mode) : result string (Z * list (result string bytes)) :=
  Ok (200, match mode with
           | ShortBody => [Err "premature close"%string]
           | Eof | DelayedFirst => [Ok (lit "data: e1\n\n")]
           | TwoEvents => [Ok (lit "data: e1\n\n"); Ok (lit "data: e2\n\n")]
           end).

Definition turn_at (at_ : Z) (fault : option ChaosFault) (mode : Mode) : Iteration :=
  let delay := match mode with DelayedFirst => from_millis 60 | _ => 0 end in
  mkIteration fault (raw_sse_server mode)
    (mkIterClock at_ (at_ + 1) (at_ + 2) (at_ + 3) (at_ + delay + 4) (at_ + delay + 5)).
Definition turns (n : nat) (mode : Mode) : list Iteration :=
  (fun i => turn_at (Z.of_nat i * from_secs 1) None mode) <$> seq 0 n.

Definition stateless_read_error_is_status_zero : bool :=
  assert_eq (status_code (execute_iteration (turn_at 0 None ShortBody))) 0.

Definition persistent_read_error_is_status_zero_and_resets_stream : bool :=
  let (session, metric) := execute_iteration_with_context (turn_at 0 None ShortBody) (SseSession_new None) in
  asserts [assert_eq (status_code metric) 0; negb (is_some (ss_stream session))].

Definition persistent_eof_reconnects_next_iteration : bool :=
  let (session, metrics) := sse_run (SseSession_new None) (turns 4 Eof) in
  asserts [assert_eq (status_code <$> metrics) [200; 200; 200; 200];
    2 <=? sse_opens (SseSession_new None) (turns 4 Eof); negb (is_some (ss_stream session))].

Definition max_events_resets_per_connection : bool :=
  3 <=? sse_opens (SseSession_new (Some 2)) (turns 6 Eof).

Definition max_events_early_return_reports_last_status : bool :=
  match (sse_run (SseSession_new (Some 1)) (turns 2 Eof)).2 with
  | [first; capped] =>
      asserts [assert_eq (status_code first) 200; assert_eq (status_code capped) 200;
        assert_eq (rm_sse capped ≫= sses_events_received) (Some 1); assert_eq (latency_micros capped) 0]
  | _ => false
  end.

(** A fault on every draw; the four kinds in turn. *)
Definition faults : list ChaosFault := [ConnectionDrop; CorruptedPayload; MetadataCorruption; LatencySpike 5].
Definition faulty_turns : list Iteration :=
  (fun i => turn_at (Z.of_nat i * from_secs 1) (faults !! (i mod 4)%nat) Eof) <$> seq 0 8.

Definition chaos_fault_is_carried_on_every_return_path : bool :=
  let persistent := (sse_run (SseSession_new None) faulty_turns).2 in
  let reconnects := filter (fun m => is_socket_reused (connection m) = false) persistent in
  asserts [forallb (fun it => is_some (chaos_fault (execute_iteration it))) faulty_turns;
    forallb (fun m => is_some (chaos_fault m)) reconnects; Nat.leb 2 (length reconnects)].

Definition ttfbs (n : nat) (mode : Mode) : list (option Z) :=
  (fun m => rm_sse m ≫= sses_first_event_us) <$> (sse_run (SseSession_new None) (turns n mode)).2.

Definition persistent_ttfb_measures_request_start_to_first_event : bool :=
  match ttfbs 1 DelayedFirst with [Some ttfb] => 60000 <=? ttfb | _ => false end.
Definition persistent_later_iterations_report_no_ttfb : bool :=
  asserts [assert_eq (is_some <$> ttfbs 2 TwoEvents) [true; false];
    assert_eq (status_code <$> (sse_run (SseSession_new None) (turns 2 TwoEvents)).2) [200; 200]].
Definition persistent_ttfb_resets_on_reconnect : bool := assert_eq (is_some <$> ttfbs 3 Eof) [true; false; true].

Definition engine_tests : list bool :=
  [stateless_read_error_is_status_zero; persistent_read_error_is_status_zero_and_resets_stream;
   persistent_eof_reconnects_next_iteration; max_events_resets_per_connection;
   max_events_early_return_reports_last_status; chaos_fault_is_carried_on_every_return_path;
   persistent_ttfb_measures_request_start_to_first_event; persistent_later_iterations_report_no_ttfb;
   persistent_ttfb_resets_on_reconnect].

(** Every restated test of the server-sent events engine passes on the model. *)
Theorem sse_tests_pass : passed (parser_tests ++ engine_tests) = true.
Proof. vm_compute. reflexivity. Qed.
