(* ===== verification/TestsGrpcH2.v ===== *)
(** The tests of the multiplexed gRPC engine against its local HTTP/2 server
    ([protocols/grpc_h2.rs], [mod tests]).

    The server is a configuration and a behaviour: the answer of [serve_stream] to a
    request, and the credit its flow-control window grants, chunk by chunk, once it
    reads.  Iterations run on the engine's shared state; where a test overlaps
    them, the streams the others hold are given. *)

From S2P Require Import Prelude RustStr Float Histogram Chaos Samples GrpcEngine GrpcH2 Connect Conformance TestsConfig.

#[local] Open Scope Z_scope.

Inductive ServerBehavior := SB_Normal | SB_TrailersOnlyError | SB_ResetMidStream.

Record ServerCfg := mkServerCfg {
  sv_window : nat;
  sv_read_delay_ms : Z;
  sv_max_streams : Z;
  sv_behavior : ServerBehavior;
}.

Definition server_frame (msg : bytes) : bytes := [ch 0] ++ to_be_bytes 4 (wrap32 (Z.of_nat (length msg))) ++ msg.

Definition server_message : bytes := as_bytes "hello-from-server".

Definition grpc_status_header (v : string) : HeaderText :=
  fun name => if String.eqb name "grpc-status" then Some v else None.
Definition no_headers : HeaderText := fun _ => None.

(** The answer to a drained request; a stream dropped without its end is reset. *)
Definition serve_stream (cfg : ServerCfg) : result string H2Response :=
  match sv_behavior cfg with
  | SB_Normal => Ok (mkH2Response 200 no_headers [Ok (server_frame server_message)] (Ok (Some (grpc_status_header "0"))))
  | SB_TrailersOnlyError => Ok (mkH2Response 200 (grpc_status_header "5") [] (Ok None))
  | SB_ResetMidStream =>
      Ok (mkH2Response 200 no_headers [Ok (server_frame server_message); Err "stream reset"%string] (Err "stream reset"%string))
  end.

(** The credit for [len] bytes: the window at once, and again each time the server,
    which starts reading after its delay, has drained it. *)
Fixpoint credits (fuel : nat) (cfg : ServerCfg) (first : bool) (len : nat) : list CapacityPoll :=
  match fuel with
  | O => []
  | S fuel =>
      let grant := Nat.min (sv_window cfg) len in
      mkCapacityPoll (negb first) (if first then 0 else sv_read_delay_ms cfg * 1000) (Some (Ok grant)) true ::
      (if Nat.ltb grant len then credits fuel cfg false (len - grant) else [])
  end.

(** A healthy connection to the server with the given number of its streams held
    by other iterations. *)
Definition server_io (cfg : ServerCfg) (e : GrpcH2Engine) (connection : nat) (others : Z) : H2Io :=
  let len := length (build_frame (h2_payload e)) in
  {| hi_draw := S754_zero false; hi_pick := 0; hi_connected := Ok connection; hi_conn_us := 350; hi_ready := true;
     hi_valid_header := Some; hi_request_ok := fun _ => true; hi_opened := true; hi_others := others;
     hi_max_streams := sv_max_streams cfg; hi_polls := credits (S len) cfg true len;
     hi_response := fun _ => serve_stream cfg; hi_read_time := from_millis 1; hi_elapsed := from_millis 2 |}.

#[local] Instance h2_test_codecs : GrpcCodecs | 0 := {|
  json_to_protobuf := fun _ _ _ _ => Err (EncodeError "unused");
  hex_decode := fun b => Err "unused"%string;
  base64_decode := fun b => decoded (base64 b);
|}.

Definition engine_for (addr : string) (payload_b64 : option string) : result ProtoError GrpcH2Engine :=
  GrpcH2Engine_new (fun url => Ok (of_bytes <$> strip_prefix (as_bytes "grpc://") (as_bytes url))) ("grpc://" ++ addr)%string
    [] (ChaosEngine_new false f64_zero) (Some "pkg.Svc"%string) (Some "Method"%string) payload_b64 None None.

Definition with_h2_engine (payload_b64 : option string) (f : GrpcH2Engine -> bool) : bool :=
  on_ok (engine_for "127.0.0.1:50051" payload_b64) f.

(** An iteration that ends. *)
Definition iterated (e : GrpcH2Engine) (io : H2Io) (s : H2Shared) (f : RequestMetric -> H2Shared -> bool) : bool :=
  match h2_iteration e io s with (Some m, s) => f m s | (None, _) => false end.


Definition healthy_server : ServerCfg := mkServerCfg 65535 0 100 SB_Normal.
Definition payload_test : option string := Some "dGVzdA=="%string.

(** Before the peer's settings arrive there is no limit. *)
Definition before_settings : ServerCfg := mkServerCfg 65535 0 U64_MAX SB_Normal.

Definition grpc_h2_round_trip_and_concurrency_snapshot : bool :=
  with_h2_engine payload_test (fun engine =>
    iterated engine (server_io before_settings engine 0 0) H2Shared_new (fun metric s =>
    iterated engine (server_io healthy_server engine 1 0) s (fun metric2 _ =>
    on_some (rm_grpc metric) (fun g => on_some (rm_grpc metric2) (fun g2 =>
      asserts [assert_eq (status_code metric) 200; assert_eq (rm_bytes_received metric) 17;
        gs_active_streams g >=? 1; assert_eq (gs_window_exhaustion_events g) 0;
        assert_eq (gs_max_concurrent_streams g2) 100; assert_eq (gs_active_streams g2) 1;
        assert_near (gs_utilization g2) (f64_lit 1 100) (f64_lit 1 1000000000)]))))).

(** Three iterations that overlap: each finds the streams opened before it. *)
Definition grpc_h2_active_streams_reflect_concurrency : bool :=
  with_h2_engine None (fun engine =>
    let peak := foldr Z.max 0 (omap (fun others =>
      m ← (h2_iteration engine (server_io healthy_server engine 0 others) H2Shared_new).1; gs_active_streams <$> rm_grpc m) [0; 1; 2]) in
    peak >=? 2).

(** 1024 bytes of 0xAB, encoded. *)
Definition large_payload : option string := Some (String.concat "" (replicate 341 "q6ur"%string ++ ["qw=="%string])).

Definition grpc_h2_detects_window_exhaustion_stall : bool :=
  with_h2_engine large_payload (fun engine =>
    iterated engine (server_io (mkServerCfg 16 60 100 SB_Normal) engine 0 0) H2Shared_new (fun m _ =>
      on_some (rm_grpc m) (fun g =>
        asserts [assert_eq (h2_payload engine) (replicate 1024 (ch 171)); assert_eq (status_code m) 200;
          gs_window_exhaustion_events g >=? 1; gs_window_stall_us g >? 0;
          gs_has_send_capacity g && (gs_send_capacity_bytes g <=? 16)]))).

Definition grpc_h2_trailers_only_error_maps_status : bool :=
  with_h2_engine payload_test (fun engine =>
    iterated engine (server_io (mkServerCfg 65535 0 100 SB_TrailersOnlyError) engine 0 0) H2Shared_new (fun metric _ =>
      asserts [assert_eq (status_code metric) 404; assert_eq (rm_bytes_received metric) 0])).

Definition grpc_h2_transport_failure_reports_error : bool :=
  with_h2_engine payload_test (fun engine =>
    iterated engine (server_io (mkServerCfg 65535 0 100 SB_ResetMidStream) engine 0 0) H2Shared_new (fun metric _ =>
      assert_eq (status_code metric) 0)).

(** The server closes the connection after its first stream: [poll_ready] of the
    stored handle fails. *)
Definition dead_io (e : GrpcH2Engine) : H2Io :=
  let io := server_io healthy_server e 1 0 in
  {| hi_draw := hi_draw io; hi_pick := hi_pick io; hi_connected := hi_connected io; hi_conn_us := hi_conn_us io;
     hi_ready := false; hi_valid_header := hi_valid_header io; hi_request_ok := hi_request_ok io;
     hi_opened := hi_opened io; hi_others := hi_others io; hi_max_streams := hi_max_streams io;
     hi_polls := hi_polls io; hi_response := hi_response io; hi_read_time := hi_read_time io;
     hi_elapsed := hi_elapsed io |}.

Definition grpc_h2_connection_death_reconnects : bool :=
  with_h2_engine payload_test (fun engine =>
    iterated engine (server_io healthy_server engine 0 0) H2Shared_new (fun first s1 =>
    iterated engine (dead_io engine) s1 (fun second s2 =>
    iterated engine (server_io healthy_server engine 1 0) s2 (fun third s3 =>
      asserts [assert_eq (status_code first) 200; assert_eq (status_code second) 0; assert_eq (status_code third) 200;
        assert_eq (sh_send s1) (Some 0%nat); assert_eq (sh_send s3) (Some 1%nat)])))).

Definition grpc_h2_rs : list bool :=
  [grpc_h2_round_trip_and_concurrency_snapshot; grpc_h2_active_streams_reflect_concurrency;
   grpc_h2_detects_window_exhaustion_stall; grpc_h2_trailers_only_error_maps_status;
   grpc_h2_transport_failure_reports_error; grpc_h2_connection_death_reconnects].

Theorem grpc_h2_tests_pass : passed grpc_h2_rs = true.
Proof. vm_compute. reflexivity. Qed.
