(* ===== verification/TestsRun.v ===== *)
(** The tests of the worker task of a local run ([src/lib.rs], [mod tests]).

    An engine that never answers is an instance of the interface whose calls do not
    finish; the worker's rounds are what its clock shows when every iteration takes
    its full timeout. *)

From S2P Require Import Prelude RustStr Float Histogram Chaos Samples Aggregate LoadProfile Config Summary LocalRun Conformance.

#[local] Open Scope Z_scope.

(** [HangingEngine], with or without a session. *)
Definition hanging_engine (with_context : bool) : ProtocolEngine := {|
  pe_session := unit;
  pe_io := unit;
  execute_iteration := fun _ _ => NotFinished;
  create_worker_context := fun _ => if with_context then Some () else None;
  iteration_with_context := fun _ _ c => (NotFinished, c);
|}.

Definition immediate_engine : ProtocolEngine := {|
  pe_session := unit;
  pe_io := unit;
  execute_iteration := fun _ _ => Returned (b_status 200 (builder 1 None));
  create_worker_context := fun _ => None;
  iteration_with_context := fun _ _ c => (Returned (b_status 200 (builder 1 None)), c);
|}.

(** Rounds at the given times, with a live token. *)
Definition rounds_at (receiver_alive : bool) (times : list duration) (engine : ProtocolEngine) (io : @pe_io engine)
  : list (@WorkerRound engine) :=
  (fun t => mkWorkerRound t false (IterRun io) receiver_alive) <$> times.

Definition sent_metrics (effects : list Effect) : list RequestMetric :=
  omap (fun e => match e with SendMetric m => Some m | _ => None end) effects.

(** A worker of 2 s whose iterations take their timeout of 1 s each. *)
Definition run_hanging_worker (with_context : bool) : list Effect * bool :=
  @spawn_worker (hanging_engine with_context) "http://127.0.0.1:9/hang" (from_secs 2) 1
    (@mkWorkerScript (hanging_engine with_context) (Some ())
       (rounds_at true [0; from_secs 1; from_secs 2] (hanging_engine with_context) ())).

Definition bounded_by_timeout (run : list Effect * bool) : bool :=
  let metrics := sent_metrics run.1 in
  asserts [run.2; Nat.leb 1 (length metrics) && Nat.leb (length metrics) 5;
    forallb (fun m => status_code m =? 0) metrics].

Definition stateless_iterations_are_bounded_by_timeout : bool := bounded_by_timeout (run_hanging_worker false).
Definition contextual_iterations_are_bounded_by_timeout : bool := bounded_by_timeout (run_hanging_worker true).

Definition worker_stops_when_metrics_receiver_closes : bool :=
  let '(effects, ended) := @spawn_worker immediate_engine "http://127.0.0.1:9/closed" (from_secs 30) 1
    (@mkWorkerScript immediate_engine (Some ()) (rounds_at false [0; 1000] immediate_engine ())) in
  let counters := sh_counters (foldl apply_effect Cells_new effects) in
  asserts [ended; assert_eq (lc_total_requests counters) 1].

Definition lib_rs : list bool :=
  [stateless_iterations_are_bounded_by_timeout; contextual_iterations_are_bounded_by_timeout;
   worker_stops_when_metrics_receiver_closes].

Theorem run_tests_pass : passed lib_rs = true.
Proof. vm_compute. reflexivity. Qed.
