(* ===== verification/TestsWebSocket.v ===== *)
(** The unit tests of the WebSocket engine ([src/protocols/websocket.rs]).  A
    local server of the source is what it sends back for a frame it receives:
    the frames of the client's stream, in order, before the read timeout. *)

From S2P Require Import Prelude RustStr Json Float Histogram Chaos Samples Aggregate LoadProfile Config LocalRun WebSocket Conformance.

#[local] Open Scope Z_scope.

Definition server := Message -> list WsIn.
Definition silent_server : server := fun _ => [].
Definition pong_server : server := fun m => match m with Ping b => [Some (Ok (Pong b))] | _ => [] end.
Definition echo_text_server : server := fun m => match m with Text b => [Some (Ok (Text b))] | _ => [] end.
Definition echo_server : server := fun m => match m with Close => [] | m => [Some (Ok m)] end.
Definition closing_server : server := fun _ => [Some (Ok Close); None].
Definition vanishing_server : server := fun _ => [None].
Definition pushing_server : server := fun _ =>
  [Some (Ok (Ping (as_bytes "s1"))); Some (Ok (Pong (as_bytes "u1"))); None].

Definition no_fault_engine : ChaosEngine := ChaosEngine_new false f64_zero.
Definition ws_new (headers : list (string * string)) (mode : WsMode) (payload : option string) (timeout_secs : Z)
    (persistent : bool) : WebSocketEngine :=
  WebSocketEngine_new headers mode payload no_fault_engine timeout_secs persistent None None.
Definition ws_io_of (s : server) : WsIo := mkWsIo f64_zero 0 true true true s (from_millis 3).

(** ** Stateless iterations *)

Definition test_websocket_handshake_iteration : bool :=
  let metric := ws_iteration (ws_new [] Handshake None 5 false) (ws_io_of silent_server) in
  asserts [assert_eq (status_code metric) 200; 0 <? latency_micros metric].
Definition test_websocket_ping_pong : bool :=
  let metric := ws_iteration (ws_new [] PingPong None 10 false) (ws_io_of pong_server) in
  asserts [assert_eq (status_code metric) 200; 0 <? latency_micros metric].
Definition test_ping_pong_classifies_solicited_pong : bool :=
  on_some (rm_ws (ws_iteration (ws_new [] PingPong None 10 false) (ws_io_of pong_server))) (fun ws =>
    asserts [assert_eq (wss_pings_sent ws) 1; assert_eq (wss_pongs_solicited ws) 1;
      assert_eq (wss_pongs_unsolicited ws) 0]).
Definition test_server_pushed_control_frames_are_unsolicited : bool :=
  on_some (rm_ws (ws_iteration (ws_new [] Stream (Some "ping"%string) 10 false) (ws_io_of pushing_server))) (fun ws =>
    asserts [assert_eq (wss_pings_sent ws) 0; assert_eq (wss_pings_received ws) 1;
      assert_eq (wss_pongs_solicited ws) 0; assert_eq (wss_pongs_unsolicited ws) 1]).
Definition test_websocket_custom_headers : bool :=
  assert_eq (status_code (ws_iteration (ws_new [("X-Custom-Test", "e2e-value")]%string Handshake None 5 false)
    (ws_io_of silent_server))) 200.
Definition test_websocket_stream_mode : bool :=
  let metric := ws_iteration (ws_new [] Stream (Some "hello"%string) 5 false) (ws_io_of echo_text_server) in
  asserts [assert_eq (status_code metric) 200; 0 <? rm_bytes_received metric; 0 <? latency_micros metric].

Definition stream_hang_timeout_is_error : bool :=
  assert_eq (status_code (ws_iteration (ws_new [] Stream (Some "ping"%string) 1 false) (ws_io_of silent_server))) 0.
Definition stream_close_without_response_is_error : bool :=
  let metric := ws_iteration (ws_new [] Stream (Some "ping"%string) 5 false) (ws_io_of closing_server) in
  asserts [assert_eq (status_code metric) 0; assert_eq (rm_bytes_received metric) 0].
Definition stream_eof_without_response_is_error : bool :=
  assert_eq (status_code (ws_iteration (ws_new [] Stream (Some "ping"%string) 5 false) (ws_io_of vanishing_server))) 0.
Definition ping_pong_hang_is_error : bool :=
  assert_eq (status_code (ws_iteration (ws_new [] PingPong None 1 false) (ws_io_of silent_server))) 0.

(** Twenty draws at rate one, the four faults in turn. *)
Definition chaos_fault_is_reported_on_every_stateless_iteration : bool :=
  let engine := WebSocketEngine_new [] Stream (Some "ping"%string) (ChaosEngine_new true (f32_of_Z 1)) 5 false None None in
  forallb (fun i => is_some (chaos_fault (ws_iteration engine
    (mkWsIo f64_zero (Z.of_nat i mod 4) true true true echo_server (from_millis 3))))) (seq 0 20).

Definition stateless_tests : list bool :=
  [test_websocket_handshake_iteration; test_websocket_ping_pong; test_ping_pong_classifies_solicited_pong;
   test_server_pushed_control_frames_are_unsolicited; test_websocket_custom_headers; test_websocket_stream_mode;
   stream_hang_timeout_is_error; stream_close_without_response_is_error; stream_eof_without_response_is_error;
   ping_pong_hang_is_error; chaos_fault_is_reported_on_every_stateless_iteration].

(** ** The counting sink and the pub/sub payload *)

Definition test_counting_sink_increments_on_enqueue_and_drains_on_flush : bool :=
  let fed := (start_send (Binary (replicate 100 (ch 0))) (CountingSink_new 64)).1 in
  let flushed := flush_ready fed in
  asserts [assert_eq (in_flight fed) 100; assert_eq (cs_max_in_flight fed) 100; assert_eq (in_flight flushed) 0;
    assert_eq (cs_max_in_flight flushed) 100].

Definition wallclock : Z := 1700000000000000000.
Definition test_pubsub_payload_roundtrip : bool :=
  let user_payload := as_bytes "hello world" in
  let encoded := create_pubsub_payload wallclock user_payload in
  asserts [assert_eq (length encoded) (16 + length user_payload)%nat;
    on_some (parse_pubsub_payload encoded) (fun '(sent_ns, rest) =>
      asserts [0 <? sent_ns; assert_eq rest user_payload])].
Definition test_pubsub_payload_too_short : bool :=
  asserts [negb (is_some (parse_pubsub_payload (replicate 15 (ch 0)))); negb (is_some (parse_pubsub_payload []))].
(** The broadcast server hands the publisher's frame to the subscriber 3 ms later. *)
Definition test_publisher_subscriber_exchange : bool :=
  let payload := create_pubsub_payload wallclock (as_bytes "test-message") in
  on_some (e2e_latency (wallclock + from_millis 3) payload) (fun e2e => e2e <? 1000000).

Definition payload_tests : list bool :=
  [test_counting_sink_increments_on_enqueue_and_drains_on_flush; test_pubsub_payload_roundtrip;
   test_pubsub_payload_too_short; test_publisher_subscriber_exchange].

(** ** Sessions *)

Definition publisher_io (flush : result string ()) : PublisherIo :=
  mkPublisherIo true f64_zero 0 wallclock (Some (Ok ())) (Ok ()) (Some flush) wallclock (from_millis 1).
Definition subscriber_io (arrivals : list WsIn) : SubscriberIo :=
  mkSubscriberIo true f64_zero 0 arrivals (wallclock + from_millis 3) (from_millis 3).
Definition persistent_io (arrivals : bytes -> list WsIn) : PersistentIo :=
  mkPersistentIo f64_zero 0 (Ok 250) true arrivals (from_millis 3).

Definition publisher_of (payload : string) : WebSocketEngine :=
  with_role (Some "publisher"%string) (Some 100) (ws_new [] Stream (Some payload) 5 false).
Definition subscriber_of : WebSocketEngine :=
  with_role (Some "subscriber"%string) None (ws_new [] Stream None 5 false).
Definition with_publisher (e : WebSocketEngine) (f : PublisherSession -> bool) : bool :=
  match ws_create_worker_context e with Some (WsPublisher s) => f s | _ => false end.
Definition with_subscriber (e : WebSocketEngine) (f : SubscriberSession -> bool) : bool :=
  match ws_create_worker_context e with Some (WsSubscriber s) => f s | _ => false end.
Definition with_persistent (e : WebSocketEngine) (f : PersistentWsSession -> bool) : bool :=
  match ws_create_worker_context e with Some (WsPersistent s) => f s | _ => false end.

Definition test_publisher_iteration_via_context : bool :=
  let engine := publisher_of "test" in
  with_publisher engine (fun ctx =>
    on_some (publisher_iteration engine (publisher_io (Ok ())) ctx).1 (fun metric =>
    on_some (rm_ws metric) (fun ws =>
      asserts [assert_eq (status_code metric) 200; is_some (timestamp_sent_ns (connection metric));
        assert_eq (wss_backpressure_sample_count ws) 1; 0 <? wss_backpressure_max_bytes ws;
        assert_eq (wss_threshold_breaches ws) 0]))).
Definition test_publisher_backpressure_breach_counted_under_tiny_buffer : bool :=
  let engine := with_backpressure 1024 (f64_lit 1 2) (publisher_of (of_bytes (replicate 2048 "x"%char))) in
  with_publisher engine (fun ctx =>
    on_some (publisher_iteration engine (publisher_io (Ok ())) ctx).1 (fun metric =>
    on_some (rm_ws metric) (fun ws =>
      asserts [assert_eq (status_code metric) 200; 1024 <? wss_backpressure_max_bytes ws;
        assert_eq (wss_threshold_breaches ws) 1]))).
Definition test_subscriber_iteration_via_context : bool :=
  with_subscriber subscriber_of (fun ctx =>
    let (metric, _) := subscriber_iteration subscriber_of
      (subscriber_io [Some (Ok (Binary (create_pubsub_payload wallclock (as_bytes "hello")))); Some (Ok Close); None]) ctx in
    asserts [assert_eq (status_code metric) 200; 0 <? rm_bytes_received metric;
      is_some (e2e_latency_us (connection metric))]).

Definition persistent_engine : WebSocketEngine := ws_new [] Stream (Some "ping"%string) 5 true.
Definition persistent_close_reports_error_and_discards_stream : bool :=
  with_persistent persistent_engine (fun ctx =>
    let (metric, session) := ws_persistent_iteration persistent_engine
      (persistent_io (fun _ => [Some (Ok Close); None])) ctx in
    asserts [assert_eq (status_code metric) 0; negb (is_some (pw_stream session))]).

(** A connection echoes one frame and closes: nothing answers on a stream that
    is still open. *)
Fixpoint persistent_run (n : nat) (s : PersistentWsSession) : list Z * nat :=
  match n with
  | O => ([], O)
  | S n =>
      let fresh := negb (is_some (pw_stream s)) in
      let arrivals b := if fresh then [Some (Ok (Text b)); Some (Ok Close); None] else [] in
      let (m, s) := ws_persistent_iteration persistent_engine (persistent_io arrivals) s in
      let (statuses, accepts) := persistent_run n s in
      (status_code m :: statuses, (if fresh then S accepts else accepts))
  end.
Definition ws_persistent_eof_reconnects : bool :=
  with_persistent persistent_engine (fun ctx =>
    let (statuses, accepts) := persistent_run 4 ctx in
    asserts [assert_eq (head statuses) (Some 200); bool_decide (0 ∈ statuses); Nat.leb 2 accepts]).

(** The second flush meets the reset connection. *)
Definition publisher_send_failure_discards_write_sink : bool :=
  let engine := publisher_of (of_bytes (replicate 64 "x"%char)) in
  with_publisher engine (fun ctx =>
    let (first, s1) := publisher_iteration engine (publisher_io (Ok ())) ctx in
    let (second, s2) := publisher_iteration engine (publisher_io (Err "reset"%string)) s1 in
    let (third, s3) := publisher_iteration engine (publisher_io (Ok ())) s2 in
    asserts [assert_eq (status_code <$> first) (Some 200); assert_eq (status_code <$> second) (Some 0);
      negb (is_some (pub_write s2)); assert_eq (status_code <$> third) (Some 200)]).

Definition subscriber_close_discards_read_and_reconnects : bool :=
  let greeting := [Some (Ok (Binary (create_pubsub_payload wallclock (as_bytes "hello")))); Some (Ok Close); None] in
  with_subscriber subscriber_of (fun ctx =>
    let (first, s1) := subscriber_iteration subscriber_of (subscriber_io greeting) ctx in
    let (second, s2) := subscriber_iteration subscriber_of (subscriber_io []) s1 in
    let (third, s3) := subscriber_iteration subscriber_of (subscriber_io greeting) s2 in
    asserts [assert_eq (status_code first) 200; assert_eq (status_code second) 0; negb (is_some (sub_read s2));
      assert_eq (status_code third) 200]).

Definition session_tests : list bool :=
  [test_publisher_iteration_via_context; test_publisher_backpressure_breach_counted_under_tiny_buffer;
   test_subscriber_iteration_via_context; persistent_close_reports_error_and_discards_stream;
   ws_persistent_eof_reconnects; publisher_send_failure_discards_write_sink;
   subscriber_close_discards_read_and_reconnects].

(** Every restated test of the WebSocket engine passes on the model. *)
Theorem websocket_tests_pass : passed (stateless_tests ++ payload_tests ++ session_tests) = true.
Proof. vm_compute. reflexivity. Qed.
